(* ===== verification/_CoqProject ===== *)
-Q . S2P
Prelude.v
RingBuf.v
IoStream.v
PrxTypes.v
UtilString.v
UtilInt.v
UtilKey.v
PalErr.v
PalNet.v
IoToken.v
IoUrl.v
IoMqtt.v
IoMqttTopic.v
IoMqttSpec.v
IoCs.v
IoMem.v
IoCodec.v
IoCodecSpec.v
IoRef.v
PrxNs.v
PrxHub.v
IoTypes.v
Mpack.v
Msgpack.v
IoProto.v
IoTransport.v
IoBrowse.v
Json.v
JsonSpec.v
IoMqttTransport.v
JsonDom.v
DList.v
DListStore.v
PrxBuffer.v
IoMsg.v
IoQueue.v
IoQueueOwn.v
IoWs.v
IoWsSpec.v
IoWsLife.v
PrxBrowse.v
PrxBrowseSpec.v
PrxSched.v
PrxSock.v
PrxTable.v
PrxSockSafe.v
PrxServer.v
PrxWorker.v
PrxServerSpec.v
