(* ===== verification/Prelude.v ===== *)
(** * Verification of the OPC proxy

    The program (src/) is a proxy between clients on one side of a network and hosts on
    the other.  A proxy server opens sockets for clients and moves data between them and
    streams of messages; both sides speak one protocol over transports that are
    websocket or mqtt connections, and find each other through a name service.

    ** Parts and how they fit

    Messages are structures (inc/io_proto.h) that are written and read through a codec
    interface (inc/io_codec.h).  A transport (io_transport.c) encodes a message with the
    MessagePack codec into buffers of a queue (io_queue.c) that a websocket connection
    (io_ws.c) sends as frames, or with the JSON codec into a document that an mqtt
    connection (io_mqtt.c) publishes, and decodes what it receives; both codecs are in
    io_codec.c.  Messages and buffers come from pools
    (prx_buffer.c) and are counted by references (io_proto.c).  All components run as
    tasks of schedulers (prx_sched.c).  The server (prx_server.c) has a table of sockets;
    requests arrive through its listener and go to the server or to a socket; data goes
    through four queues of a socket to and from the platform layer, whose numbers are
    converted by pal_net_posix.c and pal_err.c.  Clients that link to the browse server
    (prx_browse.c) ask it for services and directories (io_browse.c).  Servers and clients are entries of a name
    service (prx_ns.c), a registry in memory or in IoT hubs, with connection strings
    (io_cs.c), from which urls (io_url.c) and tokens (io_token.c) are made.

    ** Files

    - Prelude: machine integers, bytes, results ([res]: a value, an error of prx_err.h or
      undefined behaviour), memory blocks, list lemmas, tactics and hint databases.
    - RingBuf: util_ringbuf.c, refined to a bounded FIFO.
    - IoStream: inc/io_stream.h and util_stream.c, streams as a class with fixed and
      growing buffers as instances.
    - PrxTypes: addresses, properties and socket options of inc/prx_types.h.
    - UtilString, UtilInt, UtilKey: util_string.c; base 16, uuid and trimming; integers
      and range lists; comparison, search, keys and values, service names.
    - PalErr, PalNet: pal_err.c and pal_net_posix.c; the numbers of the operating system
      are members of a class, with Linux as an instance.
    - IoToken, IoUrl, IoCs: token providers, urls and connection strings on a store of
      counted objects.
    - IoMqtt: io_mqtt.c as a state monad over the connection, its subscriptions, the
      tasks and the clock.  IoMqttTopic: topics and properties.  IoMqttSpec: its
      invariants over all sequences of calls.
    - IoMem: memory of a message that moves when it grows.
    - IoCodec, IoCodecSpec: the table of codec functions with the typed access on top of
      it, and what encoders and decoders promise each other (classes and round trip
      combinators), against which clients are proved.
    - IoRef: the 128 bit identifiers of io_ref.c.
    - PrxNs: entries, result sets and the registry in memory of prx_ns.c, refined to a
      list of entries.  PrxHub: the registry in IoT hubs.
    - IoTypes, IoProto: encoders and decoders of io_types.c and io_proto.c.
    - Mpack, Msgpack: the MessagePack functions of io_codec.c over the cmp library, which
      is a parameter with laws, and an instance of these laws.
    - Json, JsonSpec, JsonDom: the JSON functions of io_codec.c over the parson library
      and base 64, the codec laws for them, and an instance of what they rely on.
    - IoTransport, IoMqttTransport: the send and receive handlers of io_transport.c, end
      to end.
    - IoBrowse: requests and responses of io_browse.c.
    - DList, DListStore: linked lists of the shared utility library as an interface with
      laws, and an instance on a store of nodes.
    - PrxBuffer: dynamic and fixed pools of prx_buffer.c with flow control; the calls of
      the user, which come after the lock, are a sequence of their own.
    - IoMsg: messages of io_proto.c as counted objects of two pools.
    - IoQueue: io_queue.c, refined to three lists.  IoQueueOwn: a queue from which its
      user took a buffer, shared by its clients.
    - IoWs: io_ws.c as a state monad over the connection, with the queues of IoQueue; the
      sender and the receiver of a message are programs that call its streams.
      IoWsSpec: its streams as byte strings, and a message from a connection to another.
      IoWsLife: its client, credentials and end.
    - PrxBrowse: prx_browse.c as a state monad over the server, its sessions with the
      queues of IoQueue, and their streams; the table of streams is an interface with laws
      that keeps the addresses of its keys.  PrxBrowseSpec: its end, its keys and codecs,
      and a list as an instance of the table.
    - PrxSched: prx_sched.c, refined to a list of tasks and a sorted list of timers.
    - PrxSock, PrxServer: the sockets and the server of prx_server.c, as a state monad
      over the memory with a trace of calls to the outside, whose answers an environment
      chooses; the hashtable is an interface with laws.  PrxTable is an instance of these
      laws.
    - PrxSockSafe: memory safety and order of the data path of sockets.
    - PrxWorker: the worker that collects sockets.
    - PrxServerSpec: restricted ports, requests and responses, links.

    ** What the theorems show

    - Round trips: a message that is sent, over a websocket or over mqtt, is decoded to
      the same contents, with the options and properties it carries, and so are browse
      requests and responses; connection strings and socket
      addresses survive printing and parsing; so do references, base 16, integers and
      service names (lemmas).
    - Refinements and equivalences: ring buffer, buffer queue, scheduler and registry
      behave as simple lists for all sequences of operations; the streams of websocket
      connections behave as byte strings from the sender to the receiver; searches find
      the first occurrence, topics are compared as the wildcard says.
    - Invariants: reference counts of pools, messages, urls and of messages in sockets;
      every message an mqtt connection accepts is completed once.
    - Safety and liveness: the data path uses no freed memory, nor do mqtt connections
      unless the scheduler is 30 seconds late; the scheduler runs what is due; the worker
      takes the sockets it visits to their next state; an exiting server is freed, and so
      are connections that are closed while no reset is pending and the browse server with
      its sessions; requests are answered exactly once.
    - Errors and bounds: wrong versions are refused, stream errors are reported, and
      where the code goes wrong (string lengths, trailing separators, buffers that move, long delays, reversed timeouts, large integers in JSON, retries of
      requests, wildcards, closes that are undone, resets of streams, expired tokens,
      keys on the stack, unknown codecs, late tasks, callbacks that overtake each other) the theorem says for which inputs.

    ** Fuel and bounds

    Loops over data have the length of the data as fuel; loops over a table its count.
    The loop that retries the resolver has the 5 attempts of the code, the query of a hub
    the number of pages, reading a JSON stream more than its length, comparing topics
    the length of the topic, loops over a queue the number of its buffers.  Functions
    return [UB] when fuel runs out, and every theorem that says a function returns shows
    that the fuel was enough.  Integers wrap at their
    width where the code computes with them; sizes are below 2^64.

    ** Not modelled

    Locks and logging are left out: a callback or task, or what a pool does under its
    lock, is one step.  Third party code
    (cmp, parson, the hashtable, the shared utility library, the mqtt client, the
    platform layer) is a parameter with laws or the environment.  prx_client.c is
    disabled with #if 0 as a whole.  The connection management of transports and
    the encoders of connection strings and entries are not modelled; start up code, the socket adapter and thin wrappers are glue. *)
From stdpp Require Import base option list numbers.
From Stdlib Require Import ZArith Lia.

#[export] Set Default Goal Selector "!".

Declare Scope prx_scope.
Delimit Scope prx_scope with prx.
Global Open Scope Z_scope.

(** ** Bytes and machine integers *)

(** A C byte string: every element is a value of [uint8_t], see [wf_bytes]. *)
Abbreviation bytes := (list Z).

Definition is_u8 (b : Z) : Prop := 0 <= b < 2 ^ 8.
Definition wf_bytes (bs : bytes) : Prop := Forall is_u8 bs.

(** Conversions to the C integer types: reduction modulo the width, and the
    two's complement representative for the signed ones. *)
Definition u8 (z : Z) : Z := z mod 2 ^ 8.
Definition u16 (z : Z) : Z := z mod 2 ^ 16.
Definition u32 (z : Z) : Z := z mod 2 ^ 32.
Definition u64 (z : Z) : Z := z mod 2 ^ 64.
Definition sgn (w z : Z) : Z := (z + 2 ^ (w - 1)) mod 2 ^ w - 2 ^ (w - 1).
Definition i8 (z : Z) : Z := sgn 8 z.
Definition i16 (z : Z) : Z := sgn 16 z.
Definition i32 (z : Z) : Z := sgn 32 z.
Definition i64 (z : Z) : Z := sgn 64 z.

(** [size_t] is 64 bits wide on the targets modelled. *)
Definition size_max : Z := 2 ^ 64.

Definition in_u16 (z : Z) : Prop := 0 <= z < 2 ^ 16.
Definition in_u32 (z : Z) : Prop := 0 <= z < 2 ^ 32.
Definition in_u64 (z : Z) : Prop := 0 <= z < 2 ^ 64.
Definition in_i32 (z : Z) : Prop := - 2 ^ 31 <= z < 2 ^ 31.
Definition in_i64 (z : Z) : Prop := - 2 ^ 63 <= z < 2 ^ 63.

#[export] Instance is_u8_dec b : Decision (is_u8 b).
Proof. unfold is_u8; apply _. Defined.
#[export] Instance wf_bytes_dec bs : Decision (wf_bytes bs).
Proof. unfold wf_bytes; apply _. Defined.
#[export] Instance in_u16_dec z : Decision (in_u16 z).
Proof. unfold in_u16; apply _. Defined.
#[export] Instance in_u32_dec z : Decision (in_u32 z).
Proof. unfold in_u32; apply _. Defined.
#[export] Instance in_u64_dec z : Decision (in_u64 z).
Proof. unfold in_u64; apply _. Defined.
#[export] Instance in_i32_dec z : Decision (in_i32 z).
Proof. unfold in_i32; apply _. Defined.
#[export] Instance in_i64_dec z : Decision (in_i64 z).
Proof. unfold in_i64; apply _. Defined.

Lemma u8_id z : is_u8 z -> u8 z = z.
Proof. apply Z.mod_small. Qed.
Lemma u16_id z : in_u16 z -> u16 z = z.
Proof. apply Z.mod_small. Qed.
Lemma u32_id z : in_u32 z -> u32 z = z.
Proof. apply Z.mod_small. Qed.
Lemma u64_id z : in_u64 z -> u64 z = z.
Proof. apply Z.mod_small. Qed.
Lemma i32_id z : in_i32 z -> i32 z = z.
Proof.
  unfold i32, sgn, in_i32. intros H.
  change (2 ^ (32 - 1)) with (2 ^ 31). rewrite Z.mod_small; lia.
Qed.
Lemma u8_range z : is_u8 (u8 z).
Proof. apply Z.mod_pos_bound. lia. Qed.
Lemma i32_range z : in_i32 (i32 z).
Proof.
  unfold i32, sgn, in_i32. change (2 ^ (32 - 1)) with (2 ^ 31).
  pose proof (Z.mod_pos_bound (z + 2 ^ 31) (2 ^ 32)). lia.
Qed.

Create HintDb prx discriminated.
#[export] Hint Resolve u8_range i32_range : prx.

(** ** Error codes (inc/prx_err.h) *)

Inductive prx_error : Set :=
| er_unknown | er_fatal | er_arg | er_fault | er_bad_state
| er_out_of_memory | er_already_exists | er_not_found | er_not_supported
| er_not_impl | er_permission | er_retry | er_nomore | er_network
| er_connecting | er_busy | er_writing | er_reading | er_waiting
| er_timeout | er_aborted | er_closed | er_shutdown | er_refused
| er_no_address | er_no_host | er_host_unknown | er_address_family
| er_reserved2 | er_bad_flags | er_invalid_format | er_disk_io
| er_reserved1 | er_prop_get | er_prop_set | er_reset | er_undelivered
| er_crypto | er_comm | er_ok.

#[export] Instance prx_error_eq_dec : EqDecision prx_error.
Proof. solve_decision. Defined.

(** The value of the enumerator. *)
Definition error_value (e : prx_error) : Z :=
  match e with
  | er_unknown => -1001 | er_fatal => -1000 | er_arg => -999 | er_fault => -998
  | er_bad_state => -997 | er_out_of_memory => -996 | er_already_exists => -995
  | er_not_found => -994 | er_not_supported => -993 | er_not_impl => -992 | er_permission => -991
  | er_retry => -990 | er_nomore => -989 | er_network => -988 | er_connecting => -987
  | er_busy => -986 | er_writing => -985 | er_reading => -984 | er_waiting => -983
  | er_timeout => -982 | er_aborted => -981 | er_closed => -980 | er_shutdown => -979
  | er_refused => -978 | er_no_address => -977 | er_no_host => -976 | er_host_unknown => -975
  | er_address_family => -974 | er_reserved2 => -973 | er_bad_flags => -972
  | er_invalid_format => -971 | er_disk_io => -970 | er_reserved1 => -969 | er_prop_get => -968
  | er_prop_set => -967 | er_reset => -966 | er_undelivered => -965 | er_crypto => -964
  | er_comm => -963 | er_ok => 0
  end.

#[export] Instance error_value_inj : Inj (=) (=) error_value.
Proof. intros [] []; (reflexivity || discriminate). Qed.

(** ** Results of the C functions

    [Ok]: the function returned [er_ok] with these values in its out
    parameters; [Err]: it returned this error code; [UB]: it accessed memory
    outside of the object it was given (undefined behaviour in C). *)
Inductive res (A : Type) : Type :=
| Ok (a : A)
| Err (e : prx_error)
| UB.
Arguments Ok {A} a.
Arguments Err {A} e.
Arguments UB {A}.

#[export] Instance res_ret : MRet res := @Ok.
#[export] Instance res_bind : MBind res := fun A B f m =>
  match m with Ok a => f a | Err e => Err e | UB => UB end.

(** A check of the memory model: [None] is an access out of bounds. *)
Definition chk {A} (o : option A) : res A :=
  match o with Some a => Ok a | None => UB end.

(** ** Byte blocks

    [mem_read m off len] and [mem_write m off src] are [memcpy] out of and
    into the block [m]; both are undefined outside of the block. *)
Definition mem_read (m : bytes) (off len : Z) : option bytes :=
  if bool_decide (0 <= off /\ 0 <= len /\ off + len <= Z.of_nat (length m))
  then Some (take (Z.to_nat len) (drop (Z.to_nat off) m)) else None.

Definition mem_write (m : bytes) (off : Z) (src : bytes) : option bytes :=
  if bool_decide (0 <= off /\ off + Z.of_nat (length src) <= Z.of_nat (length m))
  then Some (take (Z.to_nat off) m ++ src
             ++ drop (Z.to_nat off + length src) m)
  else None.

(** Length of a list as a [Z], the form the sizes of the program have. *)
Definition zlen {A} (l : list A) : Z := Z.of_nat (length l).

Arguments zlen : simpl never.
Arguments u8 : simpl never. Arguments u16 : simpl never.
Arguments u32 : simpl never. Arguments u64 : simpl never.
Arguments i8 : simpl never. Arguments i16 : simpl never.
Arguments i32 : simpl never. Arguments i64 : simpl never.

Lemma zlen_nonneg {A} (l : list A) : 0 <= zlen l.
Proof. unfold zlen; lia. Qed.
Lemma zlen_nil {A} : zlen (@nil A) = 0.
Proof. done. Qed.
Lemma zlen_cons {A} (x : A) l : zlen (x :: l) = 1 + zlen l.
Proof. unfold zlen; cbn [length]; lia. Qed.
Lemma zlen_app {A} (l k : list A) : zlen (l ++ k) = zlen l + zlen k.
Proof. unfold zlen; rewrite length_app; lia. Qed.
#[export] Hint Resolve zlen_nonneg : prx.
Create Rewrite HintDb zlen.
#[export] Hint Rewrite @zlen_nil @zlen_cons @zlen_app : zlen.

(** Sub-lists addressed by [Z] offsets: [slice a b l] is [l[a..b)]. *)
Definition slice {A} (a b : Z) (l : list A) : list A :=
  take (Z.to_nat (b - a)) (drop (Z.to_nat a) l).

Lemma zlen_slice {A} a b (l : list A) :
  0 <= a <= b -> b <= zlen l -> zlen (slice a b l) = b - a.
Proof.
  unfold slice, zlen. intros ??.
  rewrite length_take, length_drop. lia.
Qed.

Lemma slice_nil {A} a b (l : list A) : b <= a -> slice a b l = [].
Proof. intros. unfold slice. replace (Z.to_nat (b - a)) with 0%nat by lia. done. Qed.

Lemma slice_split {A} a b c (l : list A) :
  0 <= a <= b -> b <= c -> slice a c l = slice a b l ++ slice b c l.
Proof.
  intros ??. unfold slice.
  replace (Z.to_nat (c - a)) with (Z.to_nat (b - a) + Z.to_nat (c - b))%nat by lia.
  rewrite <- take_take_drop. f_equal. rewrite drop_drop. do 2 f_equal. lia.
Qed.

Lemma slice_ext {A} a b (l k : list A) :
  (forall i, (Z.to_nat a <= i < Z.to_nat b)%nat -> l !! i = k !! i) ->
  0 <= a -> slice a b l = slice a b k.
Proof.
  intros H ?. apply list_eq. intros i. unfold slice.
  destruct (decide (i < Z.to_nat (b - a))%nat).
  - rewrite !lookup_take_lt by lia. rewrite !lookup_drop. apply H. lia.
  - rewrite !lookup_take_ge by lia. done.
Qed.

Lemma take_zlen {A} (l : list A) : take (Z.to_nat (zlen l)) l = l.
Proof. unfold zlen. rewrite Nat2Z.id. by apply take_ge. Qed.

Lemma take_min_zlen {A} n (l : list A) : 0 <= n ->
  take (Z.to_nat (Z.min n (zlen l))) l = take (Z.to_nat n) l.
Proof.
  intros. unfold zlen. destruct (decide (n <= Z.of_nat (length l))); [f_equal; lia|].
  rewrite !take_ge by lia. done.
Qed.
Lemma drop_min_zlen {A} n (l : list A) : 0 <= n ->
  drop (Z.to_nat (Z.min n (zlen l))) l = drop (Z.to_nat n) l.
Proof.
  intros. unfold zlen. destruct (decide (n <= Z.of_nat (length l))); [f_equal; lia|].
  rewrite !drop_ge by lia. done.
Qed.

Lemma mem_read_slice m off len :
  0 <= off -> 0 <= len -> off + len <= zlen m ->
  mem_read m off len = Some (slice off (off + len) m).
Proof.
  intros. unfold mem_read, slice, zlen in *. rewrite bool_decide_eq_true_2 by lia.
  do 2 f_equal. lia.
Qed.

Lemma mem_write_spec m off src :
  0 <= off -> off + zlen src <= zlen m ->
  exists m', mem_write m off src = Some m' /\ zlen m' = zlen m /\
    slice off (off + zlen src) m' = src /\
    (forall a b, 0 <= a -> b <= off \/ off + zlen src <= a ->
       slice a b m' = slice a b m).
Proof.
  intros Ho Hl. unfold mem_write. rewrite bool_decide_eq_true_2 by (unfold zlen in *; lia).
  eexists; split; [done|]. unfold zlen in *. split; [|split].
  - rewrite !length_app, length_take, length_drop. lia.
  - unfold slice. rewrite drop_app_length' by (rewrite length_take; lia).
    rewrite take_app_length' by lia. done.
  - intros a b Ha Hab. apply slice_ext; [|lia]. intros i Hi.
    destruct Hab.
    + rewrite lookup_app_l by (rewrite length_take; lia).
      rewrite lookup_take_lt by lia. done.
    + rewrite lookup_app_r by (rewrite length_take; lia).
      rewrite lookup_app_r by (rewrite length_take; lia).
      rewrite lookup_drop. f_equal. rewrite length_take. lia.
Qed.

(** ** Integers in memory *)

(** The integer whose bytes, least significant first, are [bs]. *)
Fixpoint le_int (bs : bytes) : Z :=
  match bs with [] => 0 | b :: bs => b + 2 ^ 8 * le_int bs end.

Lemma le_int_inj bs : forall bs', wf_bytes bs -> wf_bytes bs' -> length bs = length bs' ->
  le_int bs = le_int bs' -> bs = bs'.
Proof.
  induction bs as [|b bs IH]; intros [|b' bs'] Hw Hw' Hl E; try done.
  inversion_clear Hw as [|?? Hb Hbs]. inversion_clear Hw' as [|?? Hb' Hbs'].
  unfold is_u8 in *. cbn [le_int] in E. cbn in Hl. assert (b = b') as -> by lia.
  f_equal. apply IH; [done|done|lia|lia].
Qed.

Lemma le_int_range bs : wf_bytes bs -> 0 <= le_int bs < 2 ^ (8 * zlen bs).
Proof.
  induction 1 as [|b bs Hb Hbs IH]; [done|]. cbn [le_int]. unfold is_u8 in Hb.
  rewrite zlen_cons, Z.mul_add_distr_l, Z.pow_add_r by (pose proof (zlen_nonneg bs); lia).
  nia.
Qed.
