(* ===== verification/RingBuf.v ===== *)
(** * Ring buffer (src/util_ringbuf.c)

    The byte FIFO between a producer and a consumer.  The block that
    [ring_buffer_create] allocates is [rb_mem]; the pointers [start], [end],
    [read_pos] and [write_pos] of the C structure are offsets into it, [start]
    being 0 and [end] its length.  One byte of the block always stays free, so
    that equal positions mean an empty buffer.

    The specification is a plain FIFO of bytes: [rb_contents] is the queue a
    state represents, and each operation is shown to act on it as the queue
    operation does, without ever leaving the block. *)
From stdpp Require Import base option list numbers.
From S2P Require Import Prelude.

Module RingBuf.

Record ring_buffer := mk_ring_buffer {
  rb_mem : bytes;        (** the block from [start] to [end] *)
  rb_read_pos : Z;       (** [read_pos - start] *)
  rb_write_pos : Z;      (** [write_pos - start] *)
}.

(** [end - start] *)
Definition rb_end (rb : ring_buffer) : Z := zlen (rb_mem rb).

(** [alloc_head], [alloc_block]: whether the two allocations succeed. *)
Definition ring_buffer_create (alloc_head alloc_block : bool) (size : Z) : res ring_buffer :=
  if negb alloc_head then Err er_out_of_memory
  else if negb alloc_block then Err er_out_of_memory
  else Ok {| rb_mem := replicate (Z.to_nat (u64 (size + 1))) 0;
             rb_read_pos := 0; rb_write_pos := 0 |}.

Definition set_write (rb : ring_buffer) (m : bytes) (w : Z) : ring_buffer :=
  {| rb_mem := m; rb_read_pos := rb_read_pos rb; rb_write_pos := w |}.
Definition set_read (rb : ring_buffer) (r : Z) : ring_buffer :=
  {| rb_mem := rb_mem rb; rb_read_pos := r; rb_write_pos := rb_write_pos rb |}.

(** [memcpy(rb->write_pos, &buf[from], avail); rb->write_pos += avail] *)
Definition copy_in (rb : ring_buffer) (buf : bytes) (from avail : Z) : res ring_buffer :=
  if bool_decide (0 < avail) then
    src ← chk (mem_read buf from avail);
    m ← chk (mem_write (rb_mem rb) (rb_write_pos rb) src);
    Ok (set_write rb m (rb_write_pos rb + avail))
  else Ok rb.

(** The first half of [ring_buffer_write]: fill up to the end of the block.
    Yields the bytes written, the length left and the new state. *)
Definition write_to_end (rb : ring_buffer) (buf : bytes) (len : Z) : res (Z * Z * ring_buffer) :=
  let read_pos := rb_read_pos rb in
  let avail := u64 (rb_end rb - rb_write_pos rb) in
  let at_start := bool_decide (read_pos = 0) in
  let avail := if at_start then u64 (avail - 1) else avail in
  let len := if at_start && bool_decide (avail < len) then avail else len in
  let avail := if bool_decide (len < avail) then len else avail in
  let len := u64 (len - avail) in
  rb ← copy_in rb buf 0 avail;
  let written := if bool_decide (0 < avail) then avail else 0 in
  let rb := if bool_decide (rb_write_pos rb = rb_end rb)
            then set_write rb (rb_mem rb) 0 else rb in
  Ok (written, len, rb).

(** The second half: fill up to the byte before [read_pos]. *)
Definition write_to_read (rb : ring_buffer) (buf : bytes) (written len : Z) : res (Z * ring_buffer) :=
  let avail := u64 (rb_read_pos rb - rb_write_pos rb - 1) in
  let avail := if bool_decide (len < avail) then len else avail in
  rb ← copy_in rb buf written avail;
  Ok (written + avail, rb).

Definition ring_buffer_write (rb : ring_buffer) (buf : bytes) (len : Z) : res (Z * ring_buffer) :=
  '(written, len, rb) ←
    (if bool_decide (rb_read_pos rb <= rb_write_pos rb)
     then write_to_end rb buf len else Ok (0, len, rb));
  if bool_decide (0 < len) then write_to_read rb buf written len
  else Ok (written, rb).

Definition ring_buffer_is_empty (rb : ring_buffer) : bool :=
  bool_decide (rb_write_pos rb = rb_read_pos rb).

Definition ring_buffer_clear (rb : ring_buffer) : ring_buffer :=
  {| rb_mem := rb_mem rb; rb_read_pos := 0; rb_write_pos := 0 |}.

Definition ring_buffer_capacity (rb : ring_buffer) : Z :=
  let read_pos := rb_read_pos rb in
  if bool_decide (read_pos <= rb_write_pos rb)
  then u64 ((rb_end rb - rb_write_pos rb) + read_pos - 1)
  else u64 (read_pos - rb_write_pos rb - 1).

(** [memcpy(buf, rb->read_pos, avail); rb->read_pos += avail]: the bytes
    copied and the new state. *)
Definition copy_out (rb : ring_buffer) (avail : Z) : res (bytes * ring_buffer) :=
  if bool_decide (0 < avail) then
    out ← chk (mem_read (rb_mem rb) (rb_read_pos rb) avail);
    Ok (out, set_read rb (rb_read_pos rb + avail))
  else Ok ([], rb).

(** The bytes stored through [buf], whose number is the result. *)
Definition ring_buffer_read (rb : ring_buffer) (len : Z) : res (bytes * ring_buffer) :=
  let write_pos := rb_write_pos rb in
  '(out, len, rb) ←
    (if bool_decide (write_pos < rb_read_pos rb) then
       let avail := u64 (rb_end rb - rb_read_pos rb) in
       let avail := if bool_decide (len < avail) then len else avail in
       let len := u64 (len - avail) in
       '(out, rb) ← copy_out rb avail;
       let rb := if bool_decide (rb_read_pos rb = rb_end rb) then set_read rb 0 else rb in
       Ok (out, len, rb)
     else Ok ([], len, rb));
  if bool_decide (0 < len) then
    let avail := u64 (write_pos - rb_read_pos rb) in
    let avail := if bool_decide (len < avail) then len else avail in
    '(out', rb) ← copy_out rb avail;
    Ok (out ++ out', rb)
  else Ok (out, rb).

Definition ring_buffer_available (rb : ring_buffer) : Z :=
  let write_pos := rb_write_pos rb in
  if bool_decide (write_pos < rb_read_pos rb)
  then u64 ((rb_end rb - rb_read_pos rb) + write_pos)
  else u64 (write_pos - rb_read_pos rb).

(** ** The FIFO a state represents *)

Definition rb_contents (rb : ring_buffer) : bytes :=
  if bool_decide (rb_read_pos rb <= rb_write_pos rb)
  then slice (rb_read_pos rb) (rb_write_pos rb) (rb_mem rb)
  else slice (rb_read_pos rb) (rb_end rb) (rb_mem rb)
       ++ slice 0 (rb_write_pos rb) (rb_mem rb).

(** Both positions stay inside the block; the block is not empty and is
    smaller than the address space. *)
Definition rb_inv (rb : ring_buffer) : Prop :=
  0 <= rb_read_pos rb < rb_end rb /\ 0 <= rb_write_pos rb < rb_end rb /\
  rb_end rb < size_max.

(** How much the buffer holds at most. *)
Definition rb_size (rb : ring_buffer) : Z := rb_end rb - 1.

(** ** Lemmas *)

Ltac u64s :=
  repeat match goal with
  | |- context [u64 ?z] => rewrite (u64_id z) by (unfold in_u64, size_max in *; lia)
  | H : context [u64 ?z] |- _ => rewrite (u64_id z) in H by (unfold in_u64, size_max in *; lia)
  end.

Ltac bd := repeat case_bool_decide.

Lemma rb_contents_length rb : rb_inv rb ->
  zlen (rb_contents rb) =
    if bool_decide (rb_read_pos rb <= rb_write_pos rb)
    then rb_write_pos rb - rb_read_pos rb
    else rb_end rb - rb_read_pos rb + rb_write_pos rb.
Proof.
  unfold rb_inv, rb_contents, rb_end. intros (?&?&?).
  case_bool_decide; autorewrite with zlen; rewrite !zlen_slice; lia.
Qed.

Lemma copy_in_spec rb buf from avail :
  0 <= rb_write_pos rb -> 0 <= avail -> rb_write_pos rb + avail <= rb_end rb ->
  0 <= from -> from + avail <= zlen buf ->
  exists m, copy_in rb buf from avail = Ok (set_write rb m (rb_write_pos rb + avail)) /\
    zlen m = rb_end rb /\
    slice (rb_write_pos rb) (rb_write_pos rb + avail) m = slice from (from + avail) buf /\
    (forall a b, 0 <= a -> b <= rb_write_pos rb \/ rb_write_pos rb + avail <= a ->
       slice a b m = slice a b (rb_mem rb)).
Proof.
  intros Hw Ha He Hf Hb. unfold copy_in. case_bool_decide.
  - rewrite mem_read_slice by lia. cbn.
    pose proof (zlen_slice from (from + avail) buf ltac:(lia) ltac:(lia)) as Hs.
    destruct (mem_write_spec (rb_mem rb) (rb_write_pos rb) (slice from (from + avail) buf))
      as (m & E & Hm & Hin & Hout); [lia | unfold rb_end in He; lia |].
    rewrite E. cbn. replace (zlen (slice from (from + avail) buf)) with avail in * by lia.
    eauto.
  - assert (avail = 0) as -> by lia. exists (rb_mem rb).
    rewrite !Z.add_0_r, !slice_nil by lia. destruct rb; done.
Qed.

(** Appending behind [write_pos] without reaching the end of the block. *)
Lemma contents_append rb m avail :
  rb_inv rb -> 0 <= avail -> zlen m = rb_end rb ->
  (if bool_decide (rb_read_pos rb <= rb_write_pos rb)
   then rb_write_pos rb + avail < rb_end rb
   else rb_write_pos rb + avail < rb_read_pos rb) ->
  (forall a b, 0 <= a -> b <= rb_write_pos rb \/ rb_write_pos rb + avail <= a ->
     slice a b m = slice a b (rb_mem rb)) ->
  rb_contents (set_write rb m (rb_write_pos rb + avail)) =
    rb_contents rb ++ slice (rb_write_pos rb) (rb_write_pos rb + avail) m.
Proof.
  unfold rb_inv, rb_contents, rb_end. cbn. intros (?&?&?) ? Hm Hfit Hkeep.
  case_bool_decide; case_bool_decide; try lia.
  - rewrite (slice_split _ (rb_write_pos rb)), Hkeep by lia. done.
  - rewrite (slice_split 0 (rb_write_pos rb)), !Hkeep, app_assoc by lia.
    rewrite Hm. done.
Qed.

(** Appending up to the end of the block, where the position wraps around. *)
Lemma contents_wrap rb m :
  rb_inv rb -> 0 < rb_read_pos rb <= rb_write_pos rb -> zlen m = rb_end rb ->
  (forall a b, 0 <= a -> b <= rb_write_pos rb \/ rb_end rb <= a ->
     slice a b m = slice a b (rb_mem rb)) ->
  rb_contents (set_write rb m 0) =
    rb_contents rb ++ slice (rb_write_pos rb) (rb_end rb) m.
Proof.
  unfold rb_inv, rb_contents, rb_end. cbn. intros (?&?&?) ? Hm Hkeep.
  rewrite bool_decide_eq_false_2, bool_decide_eq_true_2 by lia.
  rewrite (slice_nil 0 0), app_nil_r, Hm by lia.
  rewrite (slice_split _ (rb_write_pos rb)), Hkeep by lia. done.
Qed.

(** One [copy_in] of the writer, before the position is wrapped. *)
Lemma copy_in_append rb buf from avail :
  rb_inv rb -> 0 <= from -> 0 <= avail -> from + avail <= zlen buf ->
  (if bool_decide (rb_read_pos rb <= rb_write_pos rb)
   then rb_write_pos rb + avail < rb_end rb
   else rb_write_pos rb + avail < rb_read_pos rb) ->
  exists rb', copy_in rb buf from avail = Ok rb' /\ rb_inv rb' /\
    rb_end rb' = rb_end rb /\ rb_read_pos rb' = rb_read_pos rb /\
    rb_write_pos rb' = rb_write_pos rb + avail /\
    rb_contents rb' = rb_contents rb ++ slice from (from + avail) buf.
Proof.
  intros Hinv Hf Ha Hb Hfit. pose proof Hinv as (?&?&?).
  destruct (copy_in_spec rb buf from avail) as (m & -> & Hm & Hin & Hkeep); try lia.
  { revert Hfit. case_bool_decide; lia. }
  eexists; split; [done|]. unfold rb_inv, rb_end in *; cbn in *.
  rewrite contents_append by (done || (unfold rb_end; case_bool_decide; done)).
  rewrite Hin. split_and!; try lia; try done. revert Hfit. case_bool_decide; lia.
Qed.

Lemma copy_in_wrap rb buf :
  rb_inv rb -> 0 < rb_read_pos rb <= rb_write_pos rb ->
  rb_end rb - rb_write_pos rb <= zlen buf ->
  exists rb0, copy_in rb buf 0 (rb_end rb - rb_write_pos rb) = Ok rb0 /\
    rb_write_pos rb0 = rb_end rb0 /\
    let rb' := set_write rb0 (rb_mem rb0) 0 in
    rb_inv rb' /\ rb_end rb' = rb_end rb /\ rb_read_pos rb' = rb_read_pos rb /\
    rb_write_pos rb' = 0 /\
    rb_contents rb' = rb_contents rb ++ slice 0 (rb_end rb - rb_write_pos rb) buf.
Proof.
  intros Hinv Hr Hb. pose proof Hinv as (?&?&?).
  destruct (copy_in_spec rb buf 0 (rb_end rb - rb_write_pos rb)) as (m & -> & Hm & Hin & Hkeep); try lia.
  replace (rb_write_pos rb + (rb_end rb - rb_write_pos rb)) with (rb_end rb) in * by lia.
  eexists; split; [done|]. unfold set_write, rb_inv, rb_end in *; cbn in *.
  change {| rb_mem := m; rb_read_pos := rb_read_pos rb; rb_write_pos := 0 |} with (set_write rb m 0).
  rewrite contents_wrap by (done || (unfold rb_end; done)).
  unfold rb_end. rewrite Hin. split_and!; try lia; done.
Qed.

Lemma slice_0 {A} n (l : list A) : slice 0 n l = take (Z.to_nat n) l.
Proof. unfold slice. cbn. by rewrite Z.sub_0_r. Qed.

(** The room [ring_buffer_write] sees. *)
Definition rb_room (rb : ring_buffer) : Z := rb_size rb - zlen (rb_contents rb).

Lemma rb_room_eq rb : rb_inv rb ->
  rb_room rb = if bool_decide (rb_read_pos rb <= rb_write_pos rb)
    then rb_end rb - 1 - (rb_write_pos rb - rb_read_pos rb)
    else rb_read_pos rb - rb_write_pos rb - 1.
Proof.
  intros. unfold rb_room, rb_size. rewrite rb_contents_length by done.
  case_bool_decide; lia.
Qed.

Lemma write_to_read_spec rb buf written len :
  rb_inv rb -> rb_write_pos rb < rb_read_pos rb -> 0 < len -> 0 <= written ->
  written + len <= zlen buf ->
  let n := Z.min len (rb_room rb) in
  exists rb', write_to_read rb buf written len = Ok (written + n, rb') /\ rb_inv rb' /\
    rb_end rb' = rb_end rb /\
    rb_contents rb' = rb_contents rb ++ slice written (written + n) buf.
Proof.
  intros Hinv Hlt Hl Hw Hb n. pose proof Hinv as (?&?&?). unfold size_max in *.
  assert (Hn : n = Z.min len (rb_read_pos rb - rb_write_pos rb - 1)).
  { unfold n. rewrite rb_room_eq, bool_decide_eq_false_2 by (done || lia). done. }
  clearbody n. unfold write_to_read. u64s. cbn zeta.
  replace (if bool_decide (len < _) then len else _) with n by (case_bool_decide; lia).
  destruct (copy_in_append rb buf written n) as (rb' & -> & ? & ? & ? & ? & Hc); try lia; try done.
  { rewrite bool_decide_eq_false_2; lia. }
  cbn. eauto.
Qed.

(** What the first half achieves: either everything that fits is written, or
    the position wrapped around and the second half continues. *)
Definition to_end_post (rb : ring_buffer) (buf : bytes) (len w l : Z) (rb' : ring_buffer) : Prop :=
  rb_inv rb' /\ rb_end rb' = rb_end rb /\ 0 <= w /\
  rb_contents rb' = rb_contents rb ++ slice 0 w buf /\
  (l = 0 /\ w = Z.min len (rb_room rb) \/
   0 < l /\ l = len - w /\ rb_write_pos rb' < rb_read_pos rb').

(** The part of the first half that does not reach the end of the block. *)
Lemma to_end_short rb buf len n :
  rb_inv rb -> rb_read_pos rb <= rb_write_pos rb -> 0 <= n -> n = Z.min len (rb_room rb) ->
  n <= zlen buf -> rb_write_pos rb + n < rb_end rb ->
  exists rb', copy_in rb buf 0 n = Ok rb' /\ rb_write_pos rb' <> rb_end rb' /\
    to_end_post rb buf len n 0 rb'.
Proof.
  intros Hinv Hle ? Hn Hb Hs.
  destruct (copy_in_append rb buf 0 n) as (rb' & -> & ? & ? & ? & ? & Hc); try lia; try done.
  { rewrite bool_decide_eq_true_2; lia. }
  eexists; split; [done|]. unfold to_end_post. split; [lia|]. split_and!; try done. eauto.
Qed.

Lemma write_to_end_spec rb buf len :
  rb_inv rb -> rb_read_pos rb <= rb_write_pos rb -> 0 <= len <= zlen buf -> len < size_max ->
  exists w l rb', write_to_end rb buf len = Ok (w, l, rb') /\ to_end_post rb buf len w l rb'.
Proof.
  intros Hinv Hle Hlen Hmax. pose proof Hinv as (?&?&?). unfold size_max in *.
  pose proof (rb_room_eq rb Hinv) as Hroom. rewrite bool_decide_eq_true_2 in Hroom by done.
  unfold write_to_end. cbn zeta.
  destruct (decide (rb_read_pos rb = 0 \/ len < rb_end rb - rb_write_pos rb)) as [Hs|Hs].
  - destruct (to_end_short rb buf len (Z.min len (rb_room rb))) as (rb' & E & ? & Hp); try lia; try done.
    assert (Ha : forall X, X = Z.min len (rb_room rb) -> exists w l rb'0,
      (rb0 ← copy_in rb buf 0 X; Ok (if bool_decide (0 < X) then X else 0, 0,
         if bool_decide (rb_write_pos rb0 = rb_end rb0) then set_write rb0 (rb_mem rb0) 0 else rb0))
        = Ok (w, l, rb'0) /\ to_end_post rb buf len w l rb'0).
    { intros X ->. rewrite E. cbn. rewrite (bool_decide_eq_false_2 (_ = _)) by done.
      replace (if bool_decide _ then _ else 0) with (Z.min len (rb_room rb)) by (case_bool_decide; lia).
      eauto. }
    destruct (bool_decide_reflect (rb_read_pos rb = 0)); cbn [andb]; u64s.
    all: match goal with |- context [u64 (?L - ?X)] =>
      assert (HX : X = Z.min len (rb_room rb) /\ L = X) by (bd; lia);
      destruct HX as [HX HL]; replace (L - X) with 0 by lia end.
    all: apply Ha, HX.
  - rewrite (bool_decide_eq_false_2 (_ = 0)), (bool_decide_eq_false_2 (len < _)) by (u64s; lia).
    cbn [andb]. u64s.
    destruct (copy_in_wrap rb buf) as (rb0 & -> & Hw0 & Hinv' & He & Hr & Hw & Hc); try lia; try done.
    cbn. rewrite !bool_decide_eq_true_2 by (done || lia).
    do 3 eexists; split; [done|]. split_and!; try done; lia.
Qed.

(** ** Correctness *)

(** A write appends the longest prefix of the data that fits and reports its
    length: the buffer is a FIFO of [rb_size] bytes, and no byte outside of the
    block is touched. *)
Lemma write_refines rb buf len :
  rb_inv rb -> 0 <= len <= zlen buf -> len < size_max ->
  let n := Z.min len (rb_room rb) in
  exists rb', ring_buffer_write rb buf len = Ok (n, rb') /\ rb_inv rb' /\
    rb_size rb' = rb_size rb /\
    rb_contents rb' = rb_contents rb ++ take (Z.to_nat n) buf.
Proof.
  intros Hinv Hlen Hmax n. pose proof (rb_room_eq rb Hinv) as Hroom.
  unfold ring_buffer_write, rb_size. rewrite <- slice_0. case_bool_decide.
  - destruct (write_to_end_spec rb buf len) as (w & l & rb1 & -> & Hinv1 & He & Hw & Hc & Hl); try done.
    cbn. destruct Hl as [[-> ->]|(Hl & -> & Hlt)].
    + rewrite bool_decide_eq_false_2 by lia. exists rb1. split_and!; try done; lia.
    + rewrite bool_decide_eq_true_2 by lia.
      destruct (write_to_read_spec rb1 buf w (len - w)) as (rb2 & -> & Hinv2 & He2 & Hc2); try lia; try done.
      pose proof Hinv as (?&?&?). pose proof Hinv1 as (?&?&?).
      assert (Hroom1 : rb_room rb1 = rb_room rb - w).
      { unfold rb_room, rb_size. rewrite Hc, zlen_app, zlen_slice by lia. lia. }
      assert (Hnw : w + Z.min (len - w) (rb_room rb1) = n) by lia.
      exists rb2. rewrite Hnw in *. split_and!; try done; [lia|].
      rewrite Hc2, Hc, <- app_assoc, <- slice_split; [done|lia|].
      pose proof (rb_room_eq rb1 Hinv1). rewrite bool_decide_eq_false_2 in * by lia. lia.
  - cbn. destruct (decide (0 < len)).
    + rewrite bool_decide_eq_true_2 by done.
      destruct (write_to_read_spec rb buf 0 len) as (rb2 & -> & Hinv2 & He2 & Hc2); try lia; try done.
      eexists. split; [done|]. split_and!; try done; lia.
    + rewrite bool_decide_eq_false_2 by done. exists rb.
      pose proof Hinv as (?&?&?). replace n with 0 by lia.
      rewrite slice_nil, app_nil_r by lia. done.
Qed.

Lemma slice_take {A} a n (l : list A) : 0 <= a -> 0 <= n ->
  slice a (a + n) l = take (Z.to_nat n) (slice a (zlen l) l).
Proof.
  intros. unfold slice, zlen. rewrite take_take.
  destruct (decide (Z.to_nat n <= Z.to_nat (Z.of_nat (length l) - a))%nat).
  - f_equal. lia.
  - rewrite !take_ge; [done| |]; rewrite length_drop; lia.
Qed.

(** One [copy_out] of the reader that stays before the end of the block. *)
Lemma copy_out_take rb avail :
  rb_inv rb -> 0 <= avail ->
  (if bool_decide (rb_read_pos rb <= rb_write_pos rb)
   then rb_read_pos rb + avail <= rb_write_pos rb
   else rb_read_pos rb + avail < rb_end rb) ->
  exists rb', copy_out rb avail = Ok (take (Z.to_nat avail) (rb_contents rb), rb') /\
    rb_inv rb' /\ rb_end rb' = rb_end rb /\
    rb_read_pos rb' = rb_read_pos rb + avail /\ rb_write_pos rb' = rb_write_pos rb /\
    rb_contents rb' = drop (Z.to_nat avail) (rb_contents rb).
Proof.
  intros (?&?&?) Ha Hfit. unfold copy_out.
  assert (Hc : rb_contents rb = slice (rb_read_pos rb) (rb_read_pos rb + avail) (rb_mem rb)
                 ++ rb_contents (set_read rb (rb_read_pos rb + avail))).
  { unfold rb_contents, rb_end in *; cbn. revert Hfit. bd; intros; try lia.
    - apply slice_split; lia.
    - rewrite app_assoc, <- slice_split by lia. done. }
  assert (Hl : length (slice (rb_read_pos rb) (rb_read_pos rb + avail) (rb_mem rb)) = Z.to_nat avail).
  { pose proof (zlen_slice (rb_read_pos rb) (rb_read_pos rb + avail) (rb_mem rb)) as Hz.
    unfold zlen, rb_end, zlen in *. revert Hfit. case_bool_decide; lia. }
  assert (Ht : take (Z.to_nat avail) (rb_contents rb) = slice (rb_read_pos rb) (rb_read_pos rb + avail) (rb_mem rb))
    by (rewrite Hc, take_app_length'; done).
  assert (Hd : drop (Z.to_nat avail) (rb_contents rb) = rb_contents (set_read rb (rb_read_pos rb + avail)))
    by (rewrite Hc at 1; rewrite drop_app_length'; done).
  rewrite Ht, Hd. clear Ht Hd.
  assert (0 <= rb_read_pos rb + avail < rb_end rb) by (revert Hfit; case_bool_decide; lia).
  clear Hfit. case_bool_decide.
  - rewrite mem_read_slice by (unfold rb_end in *; lia). cbn. eexists; split; [done|].
    unfold rb_inv, rb_end in *; cbn. split_and!; done || lia.
  - assert (avail = 0) as -> by lia. rewrite !Z.add_0_r, slice_nil by lia.
    exists rb. split_and!; try done; lia.
Qed.

(** Reading up to the end of the block, where the position wraps around. *)
Lemma copy_out_wrap rb :
  rb_inv rb -> rb_write_pos rb < rb_read_pos rb ->
  let n := rb_end rb - rb_read_pos rb in
  exists rb0, copy_out rb n = Ok (take (Z.to_nat n) (rb_contents rb), rb0) /\
    rb_read_pos rb0 = rb_end rb0 /\
    let rb' := set_read rb0 0 in
    rb_inv rb' /\ rb_end rb' = rb_end rb /\ rb_read_pos rb' = 0 /\
    rb_write_pos rb' = rb_write_pos rb /\
    rb_contents rb' = drop (Z.to_nat n) (rb_contents rb).
Proof.
  intros (?&?&?) Hlt n. unfold copy_out. rewrite bool_decide_eq_true_2 by lia.
  rewrite mem_read_slice by (unfold n, rb_end in *; lia). cbn.
  replace (rb_read_pos rb + n) with (rb_end rb) by lia.
  assert (Hl : length (slice (rb_read_pos rb) (rb_end rb) (rb_mem rb)) = Z.to_nat n).
  { pose proof (zlen_slice (rb_read_pos rb) (rb_end rb) (rb_mem rb)) as Hz.
    unfold zlen, rb_end, zlen in *. lia. }
  unfold rb_contents at 1 3. rewrite bool_decide_eq_false_2 by lia.
  rewrite take_app_length', drop_app_length' by done.
  eexists; split; [done|]. unfold rb_inv, rb_contents, rb_end in *; cbn.
  rewrite bool_decide_eq_true_2 by lia. split_and!; done || lia.
Qed.

(** The second half of [ring_buffer_read]: everything up to [write_pos]. *)
Lemma copy_out_rest rb len :
  rb_inv rb -> rb_read_pos rb <= rb_write_pos rb -> 0 <= len ->
  let a := u64 (rb_write_pos rb - rb_read_pos rb) in
  exists rb', copy_out rb (if bool_decide (len < a) then len else a)
    = Ok (take (Z.to_nat len) (rb_contents rb), rb') /\ rb_inv rb' /\ rb_end rb' = rb_end rb /\
    rb_contents rb' = drop (Z.to_nat len) (rb_contents rb).
Proof.
  intros Hinv Hle Hl a. pose proof Hinv as (?&?&?). unfold size_max in *.
  pose proof (rb_contents_length rb Hinv) as Hz. rewrite bool_decide_eq_true_2 in Hz by done.
  subst a. u64s. set (n := if bool_decide _ then _ else _).
  assert (n = Z.min len (rb_write_pos rb - rb_read_pos rb)) by (unfold n; case_bool_decide; lia).
  clearbody n. destruct (copy_out_take rb n) as (rb' & -> & ? & ? & ? & ? & Hc); try lia; try done.
  { rewrite bool_decide_eq_true_2; lia. }
  exists rb'. rewrite Hc. unfold zlen in Hz. destruct (decide (len <= n)).
  - assert (n = len) as -> by lia. done.
  - rewrite !(take_ge (rb_contents rb)), !(drop_ge (rb_contents rb)) by lia. done.
Qed.

(** A read delivers the oldest bytes, as many as asked for and present, and
    removes exactly those. *)
Lemma read_refines rb len :
  rb_inv rb -> 0 <= len < size_max ->
  exists rb', ring_buffer_read rb len = Ok (take (Z.to_nat len) (rb_contents rb), rb') /\
    rb_inv rb' /\ rb_size rb' = rb_size rb /\
    rb_contents rb' = drop (Z.to_nat len) (rb_contents rb).
Proof.
  intros Hinv Hlen. pose proof Hinv as (?&?&?). unfold rb_size, ring_buffer_read, size_max in *.
  case_bool_decide as Hlt.
  - u64s. case_bool_decide as Hs.
    + destruct (copy_out_take rb len) as (rb' & -> & ? & ? & ? & ? & Hc); try lia; try done.
      { rewrite bool_decide_eq_false_2; lia. }
      cbn. rewrite (bool_decide_eq_false_2 (rb_read_pos rb' = _)), Z.sub_diag by lia. cbn.
      exists rb'. split_and!; try done; lia.
    + destruct (copy_out_wrap rb) as (rb0 & -> & Hr0 & Hinv' & He & Hr & Hw & Hc); try done.
      cbn. rewrite (bool_decide_eq_true_2 (rb_read_pos rb0 = _)) by done. u64s. set (rb1 := set_read rb0 0) in *.
      case_bool_decide.
      * destruct (copy_out_rest rb1 (len - (rb_end rb - rb_read_pos rb)))
          as (rb2 & E & Hi2 & He2 & Hc2); try done; try lia.
        rewrite Hw in E. u64s. rewrite E. cbn. exists rb2. split_and!; try done; try lia.
        -- rewrite Hc. do 2 f_equal. rewrite take_take_drop. f_equal. lia.
        -- rewrite Hc2, Hc, drop_drop. f_equal. lia.
      * exists rb1. replace len with (rb_end rb - rb_read_pos rb) by lia. split_and!; try done; lia.
  - cbn. case_bool_decide.
    + destruct (copy_out_rest rb len) as (rb2 & -> & Hi2 & He2 & Hc2); try done; try lia.
      cbn. exists rb2. split_and!; try done; lia.
    + assert (len = 0) as -> by lia. exists rb. done.
Qed.

Lemma create_inv size : 0 <= size < size_max - 1 ->
  exists rb, ring_buffer_create true true size = Ok rb /\ rb_inv rb /\
    rb_size rb = size /\ rb_contents rb = [].
Proof.
  unfold size_max. intros H. eexists; split; [done|].
  unfold rb_inv, rb_size, rb_end, rb_contents, size_max; cbn.
  unfold zlen. rewrite length_replicate. u64s. split_and!; try lia. by rewrite slice_nil.
Qed.

Lemma clear_inv rb : rb_inv rb ->
  rb_inv (ring_buffer_clear rb) /\ rb_size (ring_buffer_clear rb) = rb_size rb /\
  rb_contents (ring_buffer_clear rb) = [].
Proof.
  unfold rb_inv, rb_size, rb_end, rb_contents; cbn. intros (?&?&?).
  split_and!; try lia. by rewrite slice_nil.
Qed.

(** The observers agree with the queue: [ring_buffer_available] is its length,
    [ring_buffer_capacity] the room left and [ring_buffer_is_empty] its
    emptiness test. *)
Lemma observers rb : rb_inv rb ->
  ring_buffer_available rb = zlen (rb_contents rb) /\
  ring_buffer_capacity rb = rb_room rb /\
  ring_buffer_is_empty rb = bool_decide (rb_contents rb = []).
Proof.
  intros Hinv. pose proof Hinv as (?&?&?). unfold size_max in *.
  pose proof (rb_contents_length rb Hinv) as Hl. pose proof (rb_room_eq rb Hinv) as Hr.
  split_and!.
  - rewrite Hl. unfold ring_buffer_available. bd; u64s; lia.
  - rewrite Hr. unfold ring_buffer_capacity. bd; u64s; lia.
  - unfold ring_buffer_is_empty. apply bool_decide_ext. split.
    + intros E. destruct (rb_contents rb); [done|]. rewrite zlen_cons in Hl.
      pose proof (zlen_nonneg l). rewrite bool_decide_eq_true_2 in Hl; lia.
    + intros E. rewrite E in Hl. change (zlen []) with 0 in Hl. revert Hl. case_bool_decide; lia.
Qed.

(** ** Refinement of a bounded FIFO *)

Inductive rb_op := OpWrite (buf : bytes) (len : Z) | OpRead (len : Z) | OpClear.
Inductive rb_out := OutWritten (n : Z) | OutRead (bs : bytes) | OutCleared.

(** What the caller must respect: [len] is at most the size of [buf]. *)
Definition op_ok (op : rb_op) : Prop :=
  match op with
  | OpWrite buf len => 0 <= len <= zlen buf /\ len < size_max
  | OpRead len => 0 <= len < size_max
  | OpClear => True
  end.
#[export] Instance op_ok_dec op : Decision (op_ok op).
Proof. destruct op; cbn; apply _. Defined.

Definition rb_step (rb : ring_buffer) (op : rb_op) : res (rb_out * ring_buffer) :=
  match op with
  | OpWrite buf len => '(n, rb') ← ring_buffer_write rb buf len; Ok (OutWritten n, rb')
  | OpRead len => '(out, rb') ← ring_buffer_read rb len; Ok (OutRead out, rb')
  | OpClear => Ok (OutCleared, ring_buffer_clear rb)
  end.

(** The specification: a FIFO that holds at most [size] bytes. *)
Definition fifo_step (size : Z) (q : bytes) (op : rb_op) : rb_out * bytes :=
  match op with
  | OpWrite buf len =>
      let n := Z.min len (size - zlen q) in (OutWritten n, q ++ take (Z.to_nat n) buf)
  | OpRead len => (OutRead (take (Z.to_nat len) q), drop (Z.to_nat len) q)
  | OpClear => (OutCleared, [])
  end.

Fixpoint rb_run (rb : ring_buffer) (ops : list rb_op) : res (list rb_out * ring_buffer) :=
  match ops with
  | [] => Ok ([], rb)
  | op :: ops => '(o, rb) ← rb_step rb op; '(os, rb) ← rb_run rb ops; Ok (o :: os, rb)
  end.

Fixpoint fifo_run (size : Z) (q : bytes) (ops : list rb_op) : list rb_out * bytes :=
  match ops with
  | [] => ([], q)
  | op :: ops => let '(o, q) := fifo_step size q op in
                 let '(os, q) := fifo_run size q ops in (o :: os, q)
  end.

Lemma rb_step_refines rb op : rb_inv rb -> op_ok op ->
  exists rb', rb_step rb op = Ok (fst (fifo_step (rb_size rb) (rb_contents rb) op), rb') /\
    rb_inv rb' /\ rb_size rb' = rb_size rb /\
    rb_contents rb' = snd (fifo_step (rb_size rb) (rb_contents rb) op).
Proof.
  intros Hinv Hok. destruct op as [buf len|len|]; cbn.
  - destruct Hok as [? ?]. destruct (write_refines rb buf len) as (rb' & -> & ?); try done.
    cbn. eauto.
  - destruct (read_refines rb len) as (rb' & -> & ?); try done. cbn. eauto.
  - pose proof (clear_inv rb Hinv). eauto.
Qed.

Lemma rb_run_refines ops : forall rb, rb_inv rb -> Forall op_ok ops ->
  exists rb', rb_run rb ops = Ok (fst (fifo_run (rb_size rb) (rb_contents rb) ops), rb') /\
    rb_inv rb' /\ rb_contents rb' = snd (fifo_run (rb_size rb) (rb_contents rb) ops).
Proof.
  induction ops as [|op ops IH]; intros rb Hinv Hok; cbn; [eauto|].
  inversion_clear Hok as [|?? Hop Hops].
  destruct (rb_step_refines rb op Hinv Hop) as (rb1 & -> & Hinv1 & Hs & Hc). cbn.
  destruct (IH rb1 Hinv1 Hops) as (rb2 & -> & Hinv2 & Hc2). cbn.
  rewrite Hs, Hc in *. destruct (fifo_step _ _ op) as [o q]; cbn in *.
  destruct (fifo_run _ q ops) as [os q']; cbn in *. eauto.
Qed.

Lemma rb_run_size ops : forall rb rb' os, rb_inv rb -> Forall op_ok ops ->
  rb_run rb ops = Ok (os, rb') -> rb_size rb' = rb_size rb.
Proof.
  induction ops as [|op ops IH]; intros rb rb' os Hinv Hok; cbn; [by intros [= _ <-]|].
  inversion_clear Hok as [|?? Hop Hops].
  destruct (rb_step_refines rb op Hinv Hop) as (rb1 & -> & Hinv1 & Hs & Hc). cbn.
  destruct (rb_run rb1 ops) as [[os1 rb2]| |] eqn:E; cbn; [|done|done].
  intros [= _ <-]. rewrite <- Hs. by eapply IH.
Qed.

(** ** Claims *)

(** C14: The ring buffer is a bounded FIFO: from its creation on, every sequence of
    writes, reads and clears returns what the FIFO of that size returns (bytes in
    the order they were written, as many as fit), never touches memory outside of
    the block, and the three observers agree with the contents. *)
Theorem ringbuf_fifo size ops : 0 <= size < size_max - 1 -> Forall op_ok ops ->
  exists rb rb', ring_buffer_create true true size = Ok rb /\
    rb_run rb ops = Ok (fst (fifo_run size [] ops), rb') /\
    let q := snd (fifo_run size [] ops) in
    ring_buffer_available rb' = zlen q /\ ring_buffer_capacity rb' = size - zlen q /\
    ring_buffer_is_empty rb' = bool_decide (q = []).
Proof.
  intros Hs Hops. destruct (create_inv size Hs) as (rb & E & Hinv & Hsz & Hc).
  destruct (rb_run_refines ops rb Hinv Hops) as (rb' & Er & Hinv' & Hc').
  pose proof (rb_run_size ops rb rb' _ Hinv Hops Er) as Hsz'.
  rewrite Hsz, Hc in Er, Hc'. exists rb, rb'. split; [done|]. split; [done|]. cbn zeta.
  destruct (observers rb' Hinv') as (Ha & Hr & He). unfold rb_room in Hr.
  rewrite Hc' in Ha, Hr, He. rewrite Hsz', Hsz in Hr. done.
Qed.

Lemma ringbuf_fifo_witness :
  exists rb rb', ring_buffer_create true true 4 = Ok rb /\
    rb_run rb [OpWrite [1; 2; 3] 3; OpRead 2; OpWrite [4; 5; 6; 7] 4; OpRead 9]
      = Ok ([OutWritten 3; OutRead [1; 2]; OutWritten 3; OutRead [3; 4; 5; 6]], rb') /\
    ring_buffer_available rb' = 0 /\ ring_buffer_capacity rb' = 4 /\ ring_buffer_is_empty rb' = true.
Proof.
  apply (ringbuf_fifo 4 [OpWrite [1; 2; 3] 3; OpRead 2; OpWrite [4; 5; 6; 7] 4; OpRead 9]).
  - vm_compute. split; [discriminate|reflexivity].
  - by apply (bool_decide_unpack _); vm_compute.
Defined.
End RingBuf.
