(* ===== verification/IoStream.v ===== *)
(** * I/O streams (inc/io_stream.h, src/util_stream.c)

    [io_stream] is the structure of function pointers through which the codecs
    read and write; a NULL pointer is [None].  [stream_reads] and
    [stream_writes] state what a codec relies on: a reader delivers the next
    bytes of its input, a writer that returns [er_ok] has appended all of its
    argument to the output.  The in-memory streams of util_stream.c are shown to
    keep that promise. *)
From stdpp Require Import base option list numbers.
From S2P Require Import Prelude.

Module IoStream.

Record io_stream (S : Type) := mk_io_stream {
  readable : option (S -> Z);
  reader : option (S -> Z -> S * prx_error * bytes);
  reset : option (S -> S * prx_error);
  writeable : option (S -> Z);
  writer : option (S -> bytes -> S * res unit);
}.
Arguments readable {S}. Arguments reader {S}. Arguments reset {S}.
Arguments writeable {S}. Arguments writer {S}.

Section Ops.
Context {S : Type} (stream : io_stream S).

Definition io_stream_readable (s : S) : Z :=
  match readable stream with None => 0 | Some f => f s end.

Definition io_stream_reset (s : S) : S * prx_error :=
  match reset stream with None => (s, er_ok) | Some f => f s end.

(** The third component is what was stored through [buf]. *)
Definition io_stream_read (s : S) (len : Z) : S * prx_error * bytes :=
  match reader stream with None => (s, er_not_supported, []) | Some f => f s len end.

Definition io_stream_writeable (s : S) : Z :=
  match writeable stream with None => 0 | Some f => f s end.

Definition io_stream_write (s : S) (buf : bytes) : S * res unit :=
  match writer stream with None => (s, Err er_not_supported) | Some f => f s buf end.
End Ops.

(** ** The contract the codecs rely on *)

(** [sin]: the input not read yet. *)
Class stream_reads {S} (stream : io_stream S) := {
  sin : S -> bytes;
  io_stream_read_spec s n : 0 <= n ->
    exists s', io_stream_read stream s n = (s', er_ok, take (Z.to_nat n) (sin s)) /\
      sin s' = drop (Z.to_nat n) (sin s);
}.

(** [sout]: the output so far; [sroom]: how much can certainly be written. *)
Class stream_writes {S} (stream : io_stream S) := {
  sout : S -> bytes;
  sroom : S -> Z;
  io_stream_write_spec s bs : zlen bs <= sroom s ->
    exists s', io_stream_write stream s bs = (s', Ok tt) /\
      sout s' = sout s ++ bs /\ sroom s - zlen bs <= sroom s';
}.

(** ** Stream over fixed in and out buffers *)

(** [in] with [in_len] bytes; the part of the out buffer already filled and
    [out_len], what is left of it. *)
Record io_fixed_buffer_stream := mk_fixed {
  fb_in : bytes;
  fb_written : bytes;
  fb_out_len : Z;
}.

Definition io_fixed_buffer_stream_reader (mem : io_fixed_buffer_stream) (count : Z)
  : io_fixed_buffer_stream * prx_error * bytes :=
  let read := Z.min count (zlen (fb_in mem)) in
  if bool_decide (0 < read) then
    ({| fb_in := drop (Z.to_nat read) (fb_in mem);
        fb_written := fb_written mem; fb_out_len := fb_out_len mem |},
     er_ok, take (Z.to_nat read) (fb_in mem))
  else (mem, er_ok, []).

Definition io_fixed_buffer_stream_writer (mem : io_fixed_buffer_stream) (data : bytes)
  : io_fixed_buffer_stream * res unit :=
  let count := zlen data in
  if bool_decide (fb_out_len mem < count) then (mem, Err er_writing)
  else if bool_decide (0 < count) then
    ({| fb_in := fb_in mem; fb_written := fb_written mem ++ data;
        fb_out_len := fb_out_len mem - count |}, Ok tt)
  else (mem, Ok tt).

Definition io_fixed_buffer_stream_readable (mem : io_fixed_buffer_stream) : Z := zlen (fb_in mem).
Definition io_fixed_buffer_stream_writeable (mem : io_fixed_buffer_stream) : Z := fb_out_len mem.

Definition fixed_itf : io_stream io_fixed_buffer_stream := {|
  readable := Some io_fixed_buffer_stream_readable;
  reader := Some io_fixed_buffer_stream_reader;
  reset := None;
  writeable := Some io_fixed_buffer_stream_writeable;
  writer := Some io_fixed_buffer_stream_writer;
|}.

Definition io_fixed_buffer_stream_init (inb : bytes) (out_len : Z)
  : io_stream io_fixed_buffer_stream * io_fixed_buffer_stream :=
  (fixed_itf, {| fb_in := inb; fb_written := []; fb_out_len := out_len |}).

#[export] Instance fixed_reads : stream_reads fixed_itf.
Proof.
  refine {| sin := fb_in |}. intros s n Hn. cbn.
  unfold io_stream_read; cbn. unfold io_fixed_buffer_stream_reader. case_bool_decide as Hr.
  - rewrite take_min_zlen, drop_min_zlen by done. eauto.
  - exists s. destruct (fb_in s) as [|b l]; [rewrite take_nil, drop_nil; done|].
    rewrite zlen_cons in Hr. pose proof (zlen_nonneg l).
    replace (Z.to_nat n) with 0%nat by lia. done.
Defined.

#[export] Instance fixed_writes : stream_writes fixed_itf.
Proof.
  refine {| sout := fb_written; sroom := fb_out_len |}. intros s bs Hr.
  unfold io_stream_write; cbn. unfold io_fixed_buffer_stream_writer.
  case_bool_decide; [lia|]. case_bool_decide as Hp.
  - eexists; split; [done|]. cbn. split; [done|lia].
  - exists s. destruct bs as [|b l]; [rewrite app_nil_r, zlen_nil; cbn; split_and!; done || lia|].
    rewrite zlen_cons in Hp. pose proof (zlen_nonneg l). lia.
Defined.

(** ** Streams over a growing out buffer

    [ds_block] is the allocated block [out] points to, [ds_len] is [out_len].
    Reallocation keeps the contents up to the smaller size; it succeeds for
    requests of up to [ds_limit] bytes. *)
Record io_dynamic_buffer_stream := mk_dynamic {
  ds_increment : Z;
  ds_block : bytes;
  ds_len : Z;
  ds_limit : Z;
}.

(** [mem_realloc] and [prx_buffer_set_size]: bytes past the old contents are
    indeterminate, 0 here. *)
Definition realloc (limit : Z) (m : bytes) (size : Z) : option bytes :=
  if bool_decide (size <= limit)
  then Some (take (Z.to_nat size) m ++ replicate (Z.to_nat size - length m) 0)
  else None.

(** The copy at the end of both writers. *)
Definition ds_append (mem : io_dynamic_buffer_stream) (data : bytes)
  : io_dynamic_buffer_stream * res unit :=
  match mem_write (ds_block mem) (ds_len mem) data with
  | Some m => ({| ds_increment := ds_increment mem; ds_block := m;
                  ds_len := u64 (ds_len mem + zlen data); ds_limit := ds_limit mem |}, Ok tt)
  | None => (mem, UB)
  end.

(** Writer of a stream whose buffer comes from a pool. *)
Definition io_dynamic_buffer_stream_writer (mem : io_dynamic_buffer_stream) (data : bytes)
  : io_dynamic_buffer_stream * res unit :=
  let count := zlen data in
  if bool_decide (count = 0) then (mem, Ok tt)
  else
    let size := zlen (ds_block mem) in
    if bool_decide (size < u64 (ds_len mem + count)) then
      let size := u64 ((u64 (ds_len mem + count) / ds_increment mem + 1) * ds_increment mem) in
      match realloc (ds_limit mem) (ds_block mem) size with
      | None => (mem, Err er_out_of_memory)
      | Some m => ds_append {| ds_increment := ds_increment mem; ds_block := m;
                               ds_len := ds_len mem; ds_limit := ds_limit mem |} data
      end
    else ds_append mem data.

(** The loop of the writer without a pool: double [increment], the size of the
    block, until the data fits. *)
Fixpoint ds_grow (fuel : nat) (mem : io_dynamic_buffer_stream) (count : Z)
  : option (io_dynamic_buffer_stream * res unit) :=
  if bool_decide (ds_increment mem < u64 (ds_len mem + count)) then
    match fuel with
    | O => None
    | S fuel =>
        match realloc (ds_limit mem) (ds_block mem) (u64 (2 * ds_increment mem)) with
        | None => Some (mem, Err er_out_of_memory)
        | Some m => ds_grow fuel {| ds_increment := u64 (2 * ds_increment mem); ds_block := m;
                                    ds_len := ds_len mem; ds_limit := ds_limit mem |} count
        end
    end
  else Some (mem, Ok tt).

(** 64 rounds: the block doubles each time and sizes have 64 bits. *)
Definition grow_fuel : nat := 64.

Definition io_dynamic_memory_stream_writer (mem : io_dynamic_buffer_stream) (data : bytes)
  : io_dynamic_buffer_stream * res unit :=
  let count := zlen data in
  if bool_decide (count = 0) then (mem, Ok tt)
  else match ds_grow grow_fuel mem count with
       | Some (mem, Ok _) => ds_append mem data
       | Some (mem, e) => (mem, e)
       | None => (mem, UB) (* the loop would not end: excluded by [ds_grow_total] *)
       end.

Definition io_dynamic_buffer_stream_writeable (mem : io_dynamic_buffer_stream) : Z := size_max - 1.

(** [pool]: whether the buffer is taken from a pool. *)
Definition dynamic_itf (pool : bool) : io_stream io_dynamic_buffer_stream := {|
  readable := None; reader := None; reset := None;
  writeable := Some io_dynamic_buffer_stream_writeable;
  writer := Some (if pool then io_dynamic_buffer_stream_writer
                  else io_dynamic_memory_stream_writer);
|}.

Definition io_dynamic_buffer_stream_init (limit : Z) (pool : bool) (increment : Z)
  : option (io_stream io_dynamic_buffer_stream * io_dynamic_buffer_stream) :=
  let increment := if bool_decide (increment = 0) then 1024 else increment in
  match realloc limit [] increment with
  | None => None
  | Some m => Some (dynamic_itf pool,
      {| ds_increment := increment; ds_block := m; ds_len := 0; ds_limit := limit |})
  end.

(** ** Growing streams keep the promise *)

(** The block holds the output, [increment] is not 0, and (without a pool) is
    the size of the block. *)
Definition ds_inv (pool : bool) (mem : io_dynamic_buffer_stream) : Prop :=
  0 < ds_increment mem /\ 0 <= ds_len mem <= zlen (ds_block mem) /\
  zlen (ds_block mem) < 2 ^ 62 /\ ds_limit mem < 2 ^ 62 /\
  (pool = false -> zlen (ds_block mem) = ds_increment mem).

Definition ds_out (mem : io_dynamic_buffer_stream) : bytes := slice 0 (ds_len mem) (ds_block mem).

Lemma zlen_realloc limit m size m' : 0 <= size -> realloc limit m size = Some m' ->
  size <= limit /\ zlen m' = size /\ forall b, b <= size -> b <= zlen m -> slice 0 b m' = slice 0 b m.
Proof.
  unfold realloc. intros Hs. case_bool_decide as Hl; [|done]. intros [= <-]. split_and!; [done| |].
  - unfold zlen. rewrite length_app, length_take, length_replicate. lia.
  - intros b Hb Hm. apply slice_ext; [|lia]. intros i Hi. unfold zlen in *.
    rewrite lookup_app_l by (rewrite length_take; lia). apply lookup_take_lt. lia.
Qed.

Lemma realloc_ok limit m size : size <= limit -> is_Some (realloc limit m size).
Proof. intros. unfold realloc. rewrite bool_decide_eq_true_2 by done. eauto. Qed.

(** Appending into a block that is large enough. *)
Lemma ds_append_spec pool mem data :
  ds_inv pool mem -> ds_len mem + zlen data <= zlen (ds_block mem) ->
  exists mem', ds_append mem data = (mem', Ok tt) /\ ds_inv pool mem' /\
    ds_out mem' = ds_out mem ++ data /\
    ds_len mem' = ds_len mem + zlen data /\ ds_limit mem' = ds_limit mem /\
    ds_increment mem' = ds_increment mem.
Proof.
  intros (?&?&?&?&Hp) Hfit. pose proof (zlen_nonneg data).
  destruct (mem_write_spec (ds_block mem) (ds_len mem) data) as (m & E & Hm & Hin & Hkeep); try lia.
  unfold ds_append. rewrite E, u64_id by (unfold in_u64; lia). eexists; split; [done|].
  unfold ds_inv, ds_out; cbn. split_and!; try done; try lia.
  - intros Hf. rewrite Hm. auto.
  - rewrite (slice_split 0 (ds_len mem)), Hin, Hkeep by lia. done.
Qed.

Lemma grow_block pool mem size m :
  ds_inv pool mem -> zlen (ds_block mem) <= size -> 0 < size ->
  realloc (ds_limit mem) (ds_block mem) size = Some m ->
  let mem' := {| ds_increment := if pool then ds_increment mem else size; ds_block := m;
                 ds_len := ds_len mem; ds_limit := ds_limit mem |} in
  ds_inv pool mem' /\ ds_out mem' = ds_out mem /\ zlen (ds_block mem') = size.
Proof.
  intros (?&?&?&?&Hp) Hs ? E. apply zlen_realloc in E as (Hl & Hm & Hk); [|lia].
  cbn. unfold ds_inv, ds_out; cbn. rewrite Hk by lia.
  destruct pool; split_and!; try done; try lia.
Qed.

(** The doubling loop ends within its fuel, with a block that is large enough;
    it only fails when an allocation does. *)
Lemma ds_grow_total fuel : forall mem count,
  ds_inv false mem -> 0 <= count -> ds_len mem + count < 2 ^ 62 ->
  ds_len mem + count < ds_increment mem * 2 ^ Z.of_nat fuel ->
  exists mem' r, ds_grow fuel mem count = Some (mem', r) /\ ds_inv false mem' /\
    ds_out mem' = ds_out mem /\ ds_len mem' = ds_len mem /\ ds_limit mem' = ds_limit mem /\
    (r = Ok tt /\ ds_len mem + count <= zlen (ds_block mem') \/
     r = Err er_out_of_memory /\ ds_limit mem < 2 * (ds_len mem + count)) /\
    (ds_increment mem' <= Z.max (ds_increment mem) (2 * (ds_len mem + count))).
Proof.
  induction fuel as [|fuel IH]; intros mem count Hinv Hc Hb Hf;
    pose proof Hinv as (?&?&?&?&Hp); specialize (Hp eq_refl); cbn [ds_grow].
  all: rewrite (u64_id (ds_len mem + count)) by (unfold in_u64; lia).
  all: case_bool_decide as Hlt.
  - rewrite Z.pow_0_r in Hf. lia.
  - exists mem, (Ok tt). split_and!; try done; try lia. left. split; [done|lia].
  - rewrite u64_id by (unfold in_u64; lia).
    destruct (realloc _ _ _) as [m|] eqn:E.
    + destruct (grow_block false mem (2 * ds_increment mem) m Hinv ltac:(lia) ltac:(lia) E) as (Hi & Ho & Hz); cbn in *.
      edestruct (IH _ count Hi) as (mem' & r & Eg & ? & Ho' & ? & ? & Hr & ?); cbn; try lia.
      { rewrite Nat2Z.inj_succ, Z.pow_succ_r in Hf by lia. nia. }
      exists mem', r. cbn in *. rewrite Ho', Ho. split_and!; try done; lia.
    + exists mem, (Err er_out_of_memory). split_and!; try done; try lia. right. split; [done|].
      unfold realloc in E. case_bool_decide; [done|]. lia.
  - exists mem, (Ok tt). split_and!; try done; try lia. left. split; [done|lia].
Qed.

(** What both writers of a growing stream achieve when the allocator serves
    the request. *)
Definition appended (pool : bool) (mem mem' : io_dynamic_buffer_stream) (data : bytes) : Prop :=
  ds_inv pool mem' /\ ds_out mem' = ds_out mem ++ data /\
  ds_len mem' = ds_len mem + zlen data /\ ds_limit mem' = ds_limit mem.

Lemma appended_nil pool mem data : ds_inv pool mem -> zlen data = 0 -> appended pool mem mem data.
Proof.
  intros ? Hz. destruct data as [|b l]; [|rewrite zlen_cons in Hz; pose proof (zlen_nonneg l); lia].
  unfold appended. rewrite app_nil_r, zlen_nil. split_and!; done || lia.
Qed.

Lemma io_dynamic_buffer_stream_writer_spec mem data :
  ds_inv true mem -> ds_len mem + zlen data + ds_increment mem <= ds_limit mem ->
  exists mem', io_dynamic_buffer_stream_writer mem data = (mem', Ok tt) /\
    appended true mem mem' data /\ ds_increment mem' = ds_increment mem.
Proof.
  intros Hinv Hroom. pose proof Hinv as (?&?&?&?&_). pose proof (zlen_nonneg data).
  unfold io_dynamic_buffer_stream_writer. case_bool_decide.
  { exists mem. eauto using appended_nil. }
  rewrite (u64_id (ds_len mem + zlen data)) by (unfold in_u64; lia).
  case_bool_decide as Hgrow; [|destruct (ds_append_spec true mem data) as (mem' & -> & ? & ? & ? & ? & ?); try done; try lia].
  2: { exists mem'. unfold appended. done. }
  set (inc := ds_increment mem) in *. set (need := ds_len mem + zlen data) in *.
  assert (Hq : need < (need / inc + 1) * inc <= need + inc).
  { pose proof (Z.div_mod need inc). pose proof (Z.mod_pos_bound need inc). nia. }
  rewrite u64_id by (unfold in_u64; lia).
  destruct (realloc_ok (ds_limit mem) (ds_block mem) ((need / inc + 1) * inc)) as [m E]; [lia|].
  rewrite E. destruct (grow_block true mem ((need / inc + 1) * inc) m Hinv ltac:(lia) ltac:(lia) E) as (Hi & Ho & Hz); cbn in *.
  edestruct (ds_append_spec true _ data Hi) as (mem' & Ea & ? & Ho' & ? & ? & ?); cbn in *; [lia|].
  unfold inc in *. rewrite Ea. exists mem'. unfold appended. rewrite Ho', Ho. done.
Qed.

Lemma io_dynamic_memory_stream_writer_spec mem data :
  ds_inv false mem -> 2 * (ds_len mem + zlen data) <= ds_limit mem ->
  exists mem', io_dynamic_memory_stream_writer mem data = (mem', Ok tt) /\
    appended false mem mem' data.
Proof.
  intros Hinv Hroom. pose proof Hinv as (?&?&?&?&Hp). pose proof (zlen_nonneg data).
  unfold io_dynamic_memory_stream_writer. case_bool_decide.
  { exists mem. eauto using appended_nil. }
  destruct (ds_grow_total grow_fuel mem (zlen data)) as (m1 & r & -> & Hi & Ho & Hl & Hlim & Hr & _);
    try done; try lia.
  { change (Z.of_nat grow_fuel) with 64. nia. }
  destruct Hr as [[-> Hfit]|[-> ?]]; [|lia].
  destruct (ds_append_spec false m1 data) as (mem' & -> & ? & Ho' & ? & ? & ?); try done; try lia.
  exists mem'. unfold appended. rewrite Ho', Ho. split_and!; try done; lia.
Qed.

#[export] Instance ds_inv_dec pool mem : Decision (ds_inv pool mem).
Proof. unfold ds_inv. apply _. Defined.

(** What can certainly be written: the writer without a pool at most doubles
    what is needed, the other one rounds up to a multiple of [increment]. *)
Definition ds_room (pool : bool) (mem : io_dynamic_buffer_stream) : Z :=
  if bool_decide (ds_inv pool mem) then
    (if pool then ds_limit mem - ds_increment mem else ds_limit mem / 2) - ds_len mem
  else -1.

#[export] Instance dynamic_writes pool : stream_writes (dynamic_itf pool).
Proof.
  refine {| sout := ds_out; sroom := ds_room pool |}. intros s bs Hr.
  unfold ds_room in Hr at 1. pose proof (zlen_nonneg bs).
  case_bool_decide as Hinv; [|lia].
  unfold io_stream_write; cbn [dynamic_itf writer]. destruct pool; cbn beta iota in Hr |- *.
  - destruct (io_dynamic_buffer_stream_writer_spec s bs) as (s' & -> & (Hi & Ho & Hl & Hlim) & Hinc);
      [done|lia|].
    exists s'. split_and!; try done. unfold ds_room. rewrite !bool_decide_eq_true_2 by done. lia.
  - pose proof (Z.mul_div_le (ds_limit s) 2).
    destruct (io_dynamic_memory_stream_writer_spec s bs) as (s' & -> & (Hi & Ho & Hl & Hlim));
      [done|lia|].
    exists s'. split_and!; try done. unfold ds_room. rewrite !bool_decide_eq_true_2 by done.
    rewrite Hlim. lia.
Defined.

Lemma io_dynamic_buffer_stream_init_inv limit pool increment :
  0 <= increment <= limit -> 1024 <= limit < 2 ^ 62 ->
  exists mem, io_dynamic_buffer_stream_init limit pool increment = Some (dynamic_itf pool, mem) /\
    ds_inv pool mem /\ ds_out mem = [] /\ ds_limit mem = limit /\ ds_len mem = 0.
Proof.
  intros Hi Hl. unfold io_dynamic_buffer_stream_init.
  set (inc := if bool_decide _ then _ else _).
  assert (Hinc : 0 < inc <= limit) by (unfold inc; case_bool_decide; lia). clearbody inc.
  destruct (realloc_ok limit [] inc) as [m E]; [lia|]. rewrite E.
  apply zlen_realloc in E as (? & Hm & _); [|lia].
  eexists; split; [done|]. unfold ds_inv, ds_out; cbn. rewrite slice_nil by lia.
  split_and!; done || lia.
Qed.

Lemma io_dynamic_buffer_stream_init_increment limit pool increment itf mem :
  io_dynamic_buffer_stream_init limit pool increment = Some (itf, mem) ->
  ds_increment mem <= Z.max increment 1024.
Proof.
  unfold io_dynamic_buffer_stream_init. case_bool_decide; destruct (realloc _ _ _); try done;
    intros [= _ <-]; cbn; lia.
Qed.

(** ** Claims *)

(** The writes of a sequence of chunks, up to the first error. *)
Fixpoint write_all {S} (stream : io_stream S) (s : S) (chunks : list bytes) : S * res unit :=
  match chunks with
  | [] => (s, Ok tt)
  | c :: chunks =>
      match io_stream_write stream s c with
      | (s, Ok _) => write_all stream s chunks
      | r => r
      end
  end.

Lemma write_all_spec {S} (stream : io_stream S) `{!stream_writes stream} chunks : forall s,
  zlen (concat chunks) <= sroom s ->
  exists s', write_all stream s chunks = (s', Ok tt) /\ sout s' = sout s ++ concat chunks.
Proof.
  induction chunks as [|c l IH]; intros s Hr; cbn in *; [exists s; by rewrite app_nil_r|].
  rewrite zlen_app in Hr. pose proof (zlen_nonneg (concat l)).
  destruct (io_stream_write_spec s c) as (s1 & -> & Ho & Hroom); [lia|].
  destruct (IH s1) as (s2 & E & Ho2); [lia|]. exists s2. rewrite E, Ho2, Ho, app_assoc. done.
Qed.

(** The growing streams lose nothing: whatever sequence of chunks is written to
    a new stream, with or without a pool behind it, the loop that grows the block
    ends, nothing is written outside of the block and the output is the
    concatenation of the chunks, as long as the allocator serves requests of twice
    the total size plus the increment. *)
Lemma dynamic_stream_appends pool limit increment chunks :
  0 <= increment -> 1024 <= limit < 2 ^ 62 ->
  2 * zlen (concat chunks) + Z.max increment 1024 <= limit ->
  exists mem mem', io_dynamic_buffer_stream_init limit pool increment = Some (dynamic_itf pool, mem) /\
    write_all (dynamic_itf pool) mem chunks = (mem', Ok tt) /\ ds_out mem' = concat chunks.
Proof.
  intros Hi Hl Hfit. pose proof (zlen_nonneg (concat chunks)).
  destruct (io_dynamic_buffer_stream_init_inv limit pool increment) as (mem & E & Hinv & Ho & Hlim & Hlen);
    [lia|lia|].
  pose proof (io_dynamic_buffer_stream_init_increment _ _ _ _ _ E) as Hinc.
  destruct (write_all_spec (dynamic_itf pool) chunks mem) as (mem' & Ew & Ho').
  { cbn. unfold ds_room. rewrite bool_decide_eq_true_2 by done. rewrite Hlim, Hlen.
    destruct pool; [lia|]. enough (zlen (concat chunks) <= limit / 2) by lia.
    apply Z.div_le_lower_bound; lia. }
  exists mem, mem'. cbn in Ho'. rewrite Ho in Ho'. done.
Qed.

End IoStream.
