(* ===== verification/PrxTypes.v ===== *)
(** * Platform independent types (inc/prx_types.h)

    Structures are records.  A C union is an inductive type whose constructor
    says which member was stored last; the [as_...] functions are the reads of
    a member and keep the overlap of the IPv4 and IPv6 addresses.  A member
    that was never stored reads as zero: the structures live in messages, which
    are created zeroed.

    A structure that holds pointers ([char*], [uint8_t*]) is a record over the
    type [P] of what stands for a pointer: [IoMem.ptr] for the structures of the
    program, [bytes] for what they denote. *)
From stdpp Require Import base option list numbers.
From S2P Require Import Prelude.

Module PrxTypes.

Definition MAX_HOST_LENGTH : Z := 1025.
Definition MAX_INTERFACE_LENGTH : Z := 128.
Definition MAX_UNIX_PATH_LENGTH : Z := 108.

Definition prx_address_family_unspec : Z := 0.
Definition prx_address_family_unix : Z := 1.
Definition prx_address_family_inet : Z := 2.
Definition prx_address_family_inet6 : Z := 23.
Definition prx_address_family_proxy : Z := 28165.

(** ** C character arrays and strings *)

(** The string a [char] array holds: everything before the first 0. *)
Fixpoint cstr (a : bytes) : bytes :=
  match a with
  | [] => []
  | b :: a => if bool_decide (b = 0) then [] else b :: cstr a
  end.

(** A string: bytes without a 0. *)
Definition wf_cstr (s : bytes) : Prop := Forall (fun b => 0 < b < 2 ^ 8) s.
Lemma cstr_app s : wf_cstr s -> cstr (s ++ [0]) = s.
Proof.
  induction 1 as [|b s Hb Hs IH]; [done|]. cbn. rewrite bool_decide_eq_false_2 by lia. by rewrite IH.
Qed.

(** A [char] array of [n] bytes that holds [s], the rest zeroed. *)
Definition char_array (n : Z) (s : bytes) : bytes :=
  s ++ replicate (Z.to_nat n - length s) 0.

Definition zeros (n : Z) : bytes := replicate (Z.to_nat n) 0.

(** An array of [n] bytes that is a zero padded string. *)
Definition wf_char_array (n : Z) (a : bytes) : Prop :=
  wf_cstr (cstr a) /\ zlen (cstr a) < n /\ a = char_array n (cstr a).

(** ** Addresses *)

(** [prx_inet4_address_t] and [prx_inet6_address_t], which share storage. *)
Inductive prx_inet_un :=
| in4 (u8 : bytes)
| in6 (u8 : bytes) (scope_id : Z).

Definition as_in4 (un : prx_inet_un) : bytes :=
  match un with in4 a => a | in6 a _ => take 4 a end.
Definition as_in6 (un : prx_inet_un) : bytes :=
  match un with in4 a => a ++ zeros 12 | in6 a _ => a end.
Definition as_scope_id (un : prx_inet_un) : Z :=
  match un with in4 _ => 0 | in6 _ s => s end.

Record prx_socket_address_inet := mk_inet {
  ip_family : Z;
  ip_port : Z;
  ip_flow : Z;
  ip_un : prx_inet_un;
}.

Record prx_socket_address_proxy := mk_proxy {
  px_port : Z;
  px_flags : Z;
  px_itf_index : Z;
  px_host : bytes;        (* char[MAX_HOST_LENGTH] *)
}.

(** [prx_socket_address_t]; [sa_other]: a family that is none of the enum. *)
Inductive prx_socket_address :=
| sa_unspec
| sa_ip (ip : prx_socket_address_inet)
| sa_ux (path : bytes)    (* char[MAX_UNIX_PATH_LENGTH] *)
| sa_proxy (proxy : prx_socket_address_proxy)
| sa_other (family : Z).

Definition un_family (sa : prx_socket_address) : Z :=
  match sa with
  | sa_unspec => prx_address_family_unspec
  | sa_ip ip => ip_family ip
  | sa_ux _ => prx_address_family_unix
  | sa_proxy _ => prx_address_family_proxy
  | sa_other f => f
  end.

Definition as_ip (sa : prx_socket_address) : prx_socket_address_inet :=
  match sa with
  | sa_ip ip => ip
  | _ => {| ip_family := un_family sa; ip_port := 0; ip_flow := 0; ip_un := in4 (zeros 4) |}
  end.
Definition as_ux (sa : prx_socket_address) : bytes :=
  match sa with sa_ux p => p | _ => zeros MAX_UNIX_PATH_LENGTH end.
Definition as_proxy (sa : prx_socket_address) : prx_socket_address_proxy :=
  match sa with
  | sa_proxy p => p
  | _ => {| px_port := 0; px_flags := 0; px_itf_index := 0; px_host := zeros MAX_HOST_LENGTH |}
  end.

(** ** Resolution results, interfaces and files *)

Record prx_addrinfo (P : Type) := mk_addrinfo {
  ai_address : prx_socket_address;
  ai_reserved : Z;
  ai_name : P;
}.
Arguments mk_addrinfo {P}. Arguments ai_address {P}.
Arguments ai_reserved {P}. Arguments ai_name {P}.

Record prx_ifaddrinfo := mk_ifaddrinfo {
  ifa_address : prx_socket_address;
  ifa_prefix : Z;
  ifa_flags : Z;
  ifa_reserved : Z;
  ifa_name : bytes;       (* char[128] *)
  ifa_index : Z;
  ifa_broadcast_addr : prx_socket_address;
}.

Record prx_file_info := mk_file_info {
  fi_inode_number : Z;
  fi_device_id : Z;
  fi_type : Z;
  fi_total_size : Z;
  fi_last_atime : Z;
  fi_last_mtime : Z;
}.

Record prx_multicast_option := mk_multicast {
  mo_family : Z;
  mo_itf_index : Z;
  mo_addr : prx_inet_un;
}.

(** ** Properties *)

Definition prx_so_unknown : Z := 0.
Definition prx_so_ip_multicast_join : Z := 31.
Definition prx_so_ip_multicast_leave : Z := 32.
Definition prx_so_max : Z := 34.
Definition prx_record_type_default : Z := 100.
Definition prx_record_max : Z := 103.
Definition prx_property_type_file_info : Z := 200.
Definition prx_property_type_addrinfo : Z := 201.
Definition prx_property_type_ifaddrinfo : Z := 202.

(** The union [property]. *)
Inductive prx_property_un (P : Type) :=
| pv_value (value : Z)
| pv_mcast (mcast : prx_multicast_option)
| pv_bin (value : P) (size : Z)
| pv_file_info (file_info : prx_file_info)
| pv_addr_info (addr_info : prx_addrinfo P)
| pv_itf_info (itf_info : prx_ifaddrinfo).
Arguments pv_value {P}. Arguments pv_mcast {P}. Arguments pv_bin {P}.
Arguments pv_file_info {P}. Arguments pv_addr_info {P}. Arguments pv_itf_info {P}.

Record prx_property (P : Type) := mk_property {
  prop_type : Z;
  prop_un : prx_property_un P;
}.
Arguments mk_property {P}. Arguments prop_type {P}. Arguments prop_un {P}.

Section Views.
Context {P : Type} (null : P).
Definition as_value (u : prx_property_un P) : Z :=
  match u with pv_value v => v | _ => 0 end.
Definition as_mcast (u : prx_property_un P) : prx_multicast_option :=
  match u with pv_mcast m => m
  | _ => {| mo_family := 0; mo_itf_index := 0; mo_addr := in4 (zeros 4) |} end.
Definition as_bin (u : prx_property_un P) : P * Z :=
  match u with pv_bin p n => (p, n) | _ => (null, 0) end.
Definition as_file_info (u : prx_property_un P) : prx_file_info :=
  match u with pv_file_info f => f
  | _ => {| fi_inode_number := 0; fi_device_id := 0; fi_type := 0; fi_total_size := 0;
            fi_last_atime := 0; fi_last_mtime := 0 |} end.
Definition as_addr_info (u : prx_property_un P) : prx_addrinfo P :=
  match u with pv_addr_info a => a
  | _ => {| ai_address := sa_unspec; ai_reserved := 0; ai_name := null |} end.
Definition as_itf_info (u : prx_property_un P) : prx_ifaddrinfo :=
  match u with pv_itf_info i => i
  | _ => {| ifa_address := sa_unspec; ifa_prefix := 0; ifa_flags := 0; ifa_reserved := 0;
            ifa_name := zeros MAX_INTERFACE_LENGTH; ifa_index := 0;
            ifa_broadcast_addr := sa_unspec |} end.
End Views.

(** ** Socket properties *)

Record prx_socket_properties (P : Type) := mk_socket_properties {
  sp_family : Z;
  sp_sock_type : Z;
  sp_proto_type : Z;
  sp_flags : Z;
  sp_timeout : Z;
  sp_address : prx_socket_address;
  sp_options : list (prx_property P);      (* prx_property_t[__prx_so_max] *)
}.
Arguments mk_socket_properties {P}. Arguments sp_family {P}. Arguments sp_sock_type {P}.
Arguments sp_proto_type {P}. Arguments sp_flags {P}. Arguments sp_timeout {P}.
Arguments sp_address {P}. Arguments sp_options {P}.

(** ** Well formed values: every field in the range of its C type, arrays of
    their size, the tag of a union in agreement with the field that selects it *)

Definition wf_u8s (n : Z) (a : bytes) : Prop := wf_bytes a /\ zlen a = n.

Definition wf_inet_un (family : Z) (un : prx_inet_un) : Prop :=
  match un with
  | in4 a => family = prx_address_family_inet /\ wf_u8s 4 a
  | in6 a s => family = prx_address_family_inet6 /\ wf_u8s 16 a /\ in_u32 s
  end.

Definition wf_socket_address (sa : prx_socket_address) : Prop :=
  match sa with
  | sa_unspec => True
  | sa_ip ip => in_u16 (ip_port ip) /\ wf_inet_un (ip_family ip) (ip_un ip) /\
      match ip_un ip with in4 _ => ip_flow ip = 0 | in6 _ _ => in_u32 (ip_flow ip) end
  | sa_ux p => wf_char_array MAX_UNIX_PATH_LENGTH p
  | sa_proxy p => in_u16 (px_port p) /\ in_u16 (px_flags p) /\ in_i32 (px_itf_index p) /\
      wf_char_array MAX_HOST_LENGTH (px_host p)
  | sa_other _ => False
  end.

Definition wf_ifaddrinfo (i : prx_ifaddrinfo) : Prop :=
  wf_socket_address (ifa_address i) /\ is_u8 (ifa_prefix i) /\ is_u8 (ifa_flags i) /\
  ifa_reserved i = 0 /\ wf_char_array MAX_INTERFACE_LENGTH (ifa_name i) /\
  in_i32 (ifa_index i) /\ wf_socket_address (ifa_broadcast_addr i).

Definition wf_file_info (f : prx_file_info) : Prop :=
  in_u64 (fi_inode_number f) /\ in_u64 (fi_device_id f) /\ in_i32 (fi_type f) /\
  in_u64 (fi_total_size f) /\ in_u64 (fi_last_atime f) /\ in_u64 (fi_last_mtime f).

(** Decoding sets the scope of an IPv6 group to the interface index. *)
Definition wf_multicast (m : prx_multicast_option) : Prop :=
  in_i32 (mo_itf_index m) /\ wf_inet_un (mo_family m) (mo_addr m) /\
  match mo_addr m with in4 _ => True | in6 _ s => s = u32 (mo_itf_index m) end.
End PrxTypes.
