(* ===== verification/UtilString.v ===== *)
(** * String utilities (src/util_string.c)

    A C string is the list of its characters before the terminating 0, a
    [char] being a value of [uint8_t]; NULL pointers are [None] where the code
    tests for them.  The hexadecimal and uuid conversions come first, since
    references (IoRef) are printed and parsed with them. *)
From stdpp Require Import base option list numbers.
From S2P Require Import Prelude PrxTypes.
Import PrxTypes.

Module UtilString.

(** ** Base 16 *)

Definition ch_0 : Z := 48.
Definition ch_9 : Z := 57.
Definition ch_a : Z := 97.
Definition ch_f : Z := 102.
Definition ch_A : Z := 65.
Definition ch_F : Z := 70.
Definition ch_dash : Z := 45.

(** [(c < 10) ? ('0' + c) : ('a' + c) - 10] *)
Definition hex_char (c : Z) : Z := if bool_decide (c < 10) then ch_0 + c else ch_a + c - 10.

(** The macro [_byte_to_string]. *)
Definition byte_to_string (b : Z) : bytes :=
  [hex_char (Z.shiftr (Z.land b 240) 4); hex_char (Z.land b 15)].

(** The order in which [len] bytes are visited. *)
Definition visit (len : nat) (swap : bool) : list nat :=
  if swap then rev (seq 0 len) else seq 0 len.

(** What is stored through [string]; [len] is the number of characters. *)
Definition string_from_buf (buf : bytes) (len : Z) (swap : bool) : res bytes :=
  bs ← mapM (fun i : nat => chk (buf !! i)) (visit (Z.to_nat (len / 2)) swap);
  Ok (concat (map byte_to_string bs)).

(** One digit of the macro [_string_to_byte]. *)
Definition hex_value (c : Z) : res Z :=
  if bool_decide (ch_0 <= c <= ch_9) then Ok (c - ch_0)
  else if bool_decide (ch_a <= c <= ch_f) then Ok (10 + (c - ch_a))
  else if bool_decide (ch_A <= c <= ch_F) then Ok (10 + (c - ch_A))
  else Err er_invalid_format.

(** [*string++]: the terminator reads as 0, and nothing is read after it since
    0 is no digit. *)
Definition next_char (s : bytes) : Z * bytes :=
  match s with [] => (0, []) | c :: s => (c, s) end.

Definition string_to_byte (s : bytes) : res (Z * bytes) :=
  let '(c, s) := next_char s in
  hi ← hex_value c;
  let '(c, s) := next_char s in
  lo ← hex_value c;
  Ok (Z.lor (u8 (Z.shiftl hi 4)) lo, s).

(** The loop of [string_to_buf] over the bytes of [buf]. *)
Fixpoint to_buf_loop (is_ : list nat) (s : bytes) (buf : bytes) : res bytes :=
  match is_ with
  | [] => Ok buf
  | i :: is_ =>
      '(b, s) ← string_to_byte s;
      buf ← chk (mem_write buf (Z.of_nat i) [b]);
      to_buf_loop is_ s buf
  end.

Definition string_to_buf (s : bytes) (buf : bytes) (len : Z) (swap : bool) : res bytes :=
  to_buf_loop (visit (Z.to_nat len) swap) s buf.

(** [STRING_construct_base16] without its allocation; NULL for an empty buffer. *)
Definition STRING_construct_base16 (buf : bytes) : option (res bytes) :=
  if bool_decide (zlen buf = 0) then None
  else Some (string_from_buf buf (u64 (zlen buf * 2)) false).

(** [buffer = NULL]: the block is allocated here, [alloc] says whether that
    succeeds. *)
Definition string_base16_to_byte_array (alloc : bool) (val : bytes) : res bytes :=
  let min_len := zlen val / 2 in
  if bool_decide (min_len = 0) then Err er_arg
  else if negb alloc then Err er_out_of_memory
  else string_to_buf val (zeros min_len) min_len false.

(** ** Uuids *)

Definition UUID_PRINTABLE_STRING_LENGTH : Z := 37.

(** The test for the separator ['-'] between two groups. *)
Definition expect_dash (s : bytes) : res bytes :=
  match s with
  | c :: s => if bool_decide (c = ch_dash) then Ok s else Err er_invalid_format
  | [] => Err er_invalid_format
  end.

(** A group of [2 * n] digits into [uuid[off .. off + n)], then the rest of the
    string. *)
Definition uuid_group (s : bytes) (uuid : bytes) (off n : Z) (swap : bool) : res (bytes * bytes) :=
  g ← string_to_buf s (zeros n) n swap;
  uuid ← chk (mem_write uuid off g);
  Ok (drop (Z.to_nat (2 * n)) s, uuid).

Definition string_to_uuid (s : bytes) (uuid : bytes) : res bytes :=
  if bool_decide (zlen s + 1 < UUID_PRINTABLE_STRING_LENGTH) then Err er_arg
  else
    '(s, uuid) ← uuid_group s uuid 0 4 true;
    s ← expect_dash s;
    '(s, uuid) ← uuid_group s uuid 4 2 true;
    s ← expect_dash s;
    '(s, uuid) ← uuid_group s uuid 6 2 true;
    s ← expect_dash s;
    '(s, uuid) ← uuid_group s uuid 8 2 false;
    s ← expect_dash s;
    '(s, uuid) ← uuid_group s uuid 10 6 false;
    Ok uuid.

(** [len]: the size of the buffer the characters are stored in. *)
Definition string_from_uuid (uuid : bytes) (len : Z) : res bytes :=
  if bool_decide (len < UUID_PRINTABLE_STRING_LENGTH) then Err er_arg
  else
    g1 ← string_from_buf uuid 8 true;
    g2 ← string_from_buf (drop 4 uuid) 4 true;
    g3 ← string_from_buf (drop 6 uuid) 4 true;
    g4 ← string_from_buf (drop 8 uuid) 4 false;
    g5 ← string_from_buf (drop 10 uuid) 12 false;
    Ok (g1 ++ [ch_dash] ++ g2 ++ [ch_dash] ++ g3 ++ [ch_dash] ++ g4 ++ [ch_dash] ++ g5).

(** ** Trimming *)

(** The inner loop of the trimming functions: is [c] one of [trim_chars]? *)
Definition is_trim (trim_chars : bytes) (c : Z) : bool := existsb (fun t => bool_decide (c = t)) trim_chars.

(** The loop of [string_trim_back_len], on the characters from the last one. *)
Fixpoint trim_rev (trim_chars : bytes) (r : bytes) : bytes :=
  match r with
  | c :: r' => if is_trim trim_chars c then trim_rev trim_chars r' else r
  | [] => []
  end.

Definition string_trim_back_len (val : option bytes) (len : Z) (trim_chars : option bytes) : Z :=
  match val, trim_chars with
  | None, _ => 0
  | _, None => len
  | Some val, Some trim_chars => zlen (trim_rev trim_chars (rev (take (Z.to_nat len) val)))
  end.

Fixpoint trim_front_loop (val trim_chars : bytes) : bytes :=
  match val with
  | [] => []
  | c :: val' => if is_trim trim_chars c then trim_front_loop val' trim_chars else val
  end.

Definition string_trim_front (val trim_chars : option bytes) : option bytes :=
  match val, trim_chars with
  | Some val, Some trim_chars => Some (trim_front_loop val trim_chars)
  | _, _ => val
  end.

(** The string after [val[len] = 0]. *)
Definition string_trim_back (val trim_chars : option bytes) : option bytes :=
  match val, trim_chars with
  | Some v, Some _ =>
      if bool_decide (zlen v = 0) then val
      else Some (take (Z.to_nat (string_trim_back_len val (zlen v) trim_chars)) v)
  | _, _ => val
  end.

Definition string_trim (val trim_chars : option bytes) : option bytes :=
  string_trim_back (string_trim_front val trim_chars) trim_chars.

(** ** Lemmas *)

(** The byte that two digits denote. *)
Definition two_digits (hi lo : Z) : res Z :=
  hi ← hex_value hi; lo ← hex_value lo; Ok (Z.lor (u8 (Z.shiftl hi 4)) lo).

Definition round_ok (b : Z) : bool :=
  match two_digits (hex_char (Z.shiftr (Z.land b 240) 4)) (hex_char (Z.land b 15)) with
  | Ok b' => bool_decide (b' = b)
  | _ => false
  end.

(** Checked on all bytes. *)
Lemma round_all : forallb round_ok (seqZ 0 256) = true.
Proof. vm_compute. reflexivity. Qed.

Lemma string_to_byte_to_string b s : is_u8 b ->
  string_to_byte (byte_to_string b ++ s) = Ok (b, s).
Proof.
  intros Hb. pose proof round_all as H. rewrite forallb_forall in H.
  specialize (H b). assert (Hin : In b (seqZ 0 256)).
  { apply list_elem_of_In, elem_of_seqZ. unfold is_u8 in Hb. lia. }
  specialize (H Hin). unfold round_ok, two_digits in H.
  unfold string_to_byte, byte_to_string. cbn [app next_char].
  destruct (hex_value (hex_char (Z.shiftr (Z.land b 240) 4))) as [hi| |]; cbn in H |- *; try done.
  destruct (hex_value (hex_char (Z.land b 15))) as [lo| |]; cbn in H |- *; try done.
  apply bool_decide_eq_true_1 in H. by rewrite H.
Qed.

Lemma mapM_lookup (buf : bytes) (is_ : list nat) :
  Forall (fun i => i < length buf)%nat is_ ->
  mapM (fun i : nat => chk (buf !! i)) is_ = Ok (map (fun i => default 0 (buf !! i)) is_).
Proof.
  induction 1 as [|i l Hi Hl IH]; [done|].
  cbn [map]. change (mapM (fun i0 : nat => chk (buf !! i0)) (i :: l))
    with (b ← chk (buf !! i); bs ← mapM (fun i0 : nat => chk (buf !! i0)) l; Ok (b :: bs)).
  rewrite IH. destruct (lookup_lt_is_Some_2 buf i Hi) as [b Hb]. rewrite Hb. done.
Qed.

Lemma map_lookup_seq (buf : bytes) n : (n <= length buf)%nat ->
  map (fun i => default 0 (buf !! i)) (seq 0 n) = take n buf.
Proof.
  intros Hn. apply list_eq. intros i. rewrite list_lookup_fmap.
  destruct (decide (i < n)%nat).
  - rewrite lookup_seq_lt, lookup_take_lt by lia. cbn.
    destruct (lookup_lt_is_Some_2 buf i ltac:(lia)) as [b ->]. done.
  - rewrite lookup_seq_ge, lookup_take_ge by lia. done.
Qed.

Lemma visit_lookup (buf : bytes) n swap : (n <= length buf)%nat ->
  map (fun i => default 0 (buf !! i)) (visit n swap) =
    if swap then rev (take n buf) else take n buf.
Proof.
  intros. unfold visit. destruct swap.
  - rewrite map_rev, map_lookup_seq by done. done.
  - by apply map_lookup_seq.
Qed.

Lemma visit_lt n swap : Forall (fun i => i < n)%nat (visit n swap).
Proof.
  unfold visit. apply Forall_forall. intros i Hi.
  destruct swap; [apply in_rev in Hi|]; apply in_seq in Hi; lia.
Qed.

Lemma string_from_buf_spec buf n swap : (n <= length buf)%nat ->
  string_from_buf buf (2 * Z.of_nat n) swap =
    Ok (concat (map byte_to_string (if swap then rev (take n buf) else take n buf))).
Proof.
  intros Hn. unfold string_from_buf.
  replace (Z.to_nat (2 * Z.of_nat n / 2)) with n
    by (rewrite Z.mul_comm, Z.div_mul by lia; lia).
  rewrite mapM_lookup; [|eapply Forall_impl; [|apply visit_lt]; cbn; lia].
  cbn. rewrite visit_lookup by done. done.
Qed.

(** Storing the bytes [bs] at the visited positions. *)
Fixpoint store_at (is_ : list nat) (bs : bytes) (buf : bytes) : bytes :=
  match is_, bs with
  | i :: is_, b :: bs => store_at is_ bs (<[i := b]> buf)
  | _, _ => buf
  end.

Lemma mem_write_one buf i b : (i < length buf)%nat ->
  mem_write buf (Z.of_nat i) [b] = Some (<[i := b]> buf).
Proof.
  intros. unfold mem_write. rewrite bool_decide_eq_true_2 by (cbn; lia).
  rewrite Nat2Z.id. cbn. rewrite insert_take_drop by done. rewrite Nat.add_1_r. done.
Qed.

Lemma to_buf_loop_spec is_ : forall bs s buf,
  Forall (fun i => i < length buf)%nat is_ -> wf_bytes bs -> length bs = length is_ ->
  to_buf_loop is_ (concat (map byte_to_string bs) ++ s) buf = Ok (store_at is_ bs buf).
Proof.
  induction is_ as [|i l IH]; intros [|b bs] s buf Hi Hb Hl; try done.
  inversion_clear Hi as [|?? Hi0 Hi1]. inversion_clear Hb as [|?? Hb0 Hb1].
  cbn [map concat to_buf_loop store_at]. rewrite <- app_assoc, string_to_byte_to_string by done.
  cbn. rewrite mem_write_one by done. cbn. apply IH; [|done|cbn in Hl; lia].
  eapply Forall_impl; [|done]. cbn. intros. rewrite length_insert. done.
Qed.

Lemma store_at_seq n : forall k bs (buf : bytes),
  length bs = n -> (k + n)%nat = length buf ->
  store_at (seq k n) bs buf = take k buf ++ bs.
Proof.
  induction n as [|n IH]; intros k bs buf Hb Hk.
  - destruct bs; [|done]. cbn. rewrite app_nil_r, take_ge by lia. done.
  - destruct bs as [|b bs]; [done|]. cbn in Hb |- *.
    rewrite IH by (rewrite ?length_insert; lia).
    rewrite insert_take_drop by lia.
    rewrite take_app_ge, length_take by (rewrite length_take; lia).
    replace (S k - k `min` length buf)%nat with 1%nat by lia. cbn. rewrite take_0, <- app_assoc. done.
Qed.

Lemma store_at_rev n : forall bs (buf : bytes),
  length bs = n -> (n <= length buf)%nat ->
  store_at (rev (seq 0 n)) bs buf = rev bs ++ drop n buf.
Proof.
  induction n as [|n IH]; intros bs buf Hb Hk.
  - destruct bs; done.
  - destruct bs as [|b bs]; [done|]. rewrite seq_S, rev_app_distr. cbn in Hb |- *.
    rewrite IH by (rewrite ?length_insert; lia). rewrite <- app_assoc. f_equal.
    rewrite insert_take_drop by lia. rewrite drop_app_length' by (rewrite length_take; lia). done.
Qed.

(** Printing [n] bytes and reading them back with the same order. *)
Lemma string_to_buf_from_buf (bs s : bytes) (n : nat) (swap : bool) :
  wf_bytes bs -> length bs = n ->
  string_to_buf (concat (map byte_to_string (if swap then rev bs else bs)) ++ s)
    (zeros (Z.of_nat n)) (Z.of_nat n) swap = Ok bs.
Proof.
  intros Hb Hl. unfold string_to_buf, zeros. rewrite Nat2Z.id.
  rewrite to_buf_loop_spec.
  - f_equal. unfold visit. destruct swap.
    + rewrite store_at_rev by (rewrite ?length_rev, ?length_replicate; lia).
      rewrite rev_involutive, drop_ge, app_nil_r by (rewrite length_replicate; lia). done.
    + rewrite store_at_seq by (rewrite ?length_replicate; lia). done.
  - eapply Forall_impl; [|apply visit_lt]. cbn. intros. rewrite length_replicate. done.
  - destruct swap; [|done]. apply Forall_rev. done.
  - unfold visit. destruct swap; rewrite ?length_rev, length_seq; done.
Qed.

Lemma length_hex bs : length (concat (map byte_to_string bs)) = (2 * length bs)%nat.
Proof. induction bs; cbn [map concat]; rewrite ?length_app; cbn in *; lia. Qed.

(** A group of a uuid: [n] bytes printed, parsed back into place. *)
Lemma uuid_group_spec (bs s uuid uuid' : bytes) off (n : nat) (swap : bool) :
  wf_bytes bs -> length bs = n -> mem_write uuid off bs = Some uuid' ->
  uuid_group (concat (map byte_to_string (if swap then rev bs else bs)) ++ s)
    uuid off (Z.of_nat n) swap = Ok (s, uuid').
Proof.
  intros Hb Hl Hw. unfold uuid_group. rewrite string_to_buf_from_buf by done. cbn. rewrite Hw. cbn.
  rewrite drop_app_length'; [done|]. rewrite length_hex. destruct swap; rewrite ?length_rev; lia.
Qed.

(** The five groups of a uuid. *)
Definition uuid_groups (u : bytes) : list (bytes * bool) :=
  [(take 4 u, true); (take 2 (drop 4 u), true); (take 2 (drop 6 u), true);
   (take 2 (drop 8 u), false); (take 6 (drop 10 u), false)].

Definition print_group (g : bytes * bool) : bytes :=
  concat (map byte_to_string (if g.2 then rev g.1 else g.1)).

Definition print_uuid (u : bytes) : bytes :=
  print_group (take 4 u, true) ++ [ch_dash] ++ print_group (take 2 (drop 4 u), true) ++ [ch_dash]
  ++ print_group (take 2 (drop 6 u), true) ++ [ch_dash]
  ++ print_group (take 2 (drop 8 u), false) ++ [ch_dash] ++ print_group (take 6 (drop 10 u), false).

Lemma string_from_uuid_spec u len : length u = 16%nat -> UUID_PRINTABLE_STRING_LENGTH <= len ->
  string_from_uuid u len = Ok (print_uuid u).
Proof.
  intros Hu Hlen. unfold string_from_uuid. rewrite bool_decide_eq_false_2 by lia.
  change 8 with (2 * Z.of_nat 4). change 4 with (2 * Z.of_nat 2).
  change 12 with (2 * Z.of_nat 6).
  rewrite !string_from_buf_spec by (rewrite ?length_drop; lia). done.
Qed.

Lemma length_print_uuid u : length u = 16%nat -> length (print_uuid u) = 36%nat.
Proof.
  intros Hu. unfold print_uuid, print_group. cbn [fst snd].
  rewrite !length_app, !length_hex, !length_rev, !length_take, !length_drop, Hu. done.
Qed.

Lemma wf_sub (u : bytes) n m : wf_bytes u -> wf_bytes (take n (drop m u)).
Proof. intros. apply Forall_take, Forall_drop. done. Qed.

Lemma expect_dash_ok s : expect_dash ([ch_dash] ++ s) = Ok s.
Proof. done. Qed.

(** Writing the groups of [u] one after the other rebuilds [u]. *)
Lemma rebuild_uuid (u old : bytes) : length u = 16%nat -> length old = 16%nat ->
  (o1 ← mem_write old 0 (take 4 u);
   o2 ← mem_write o1 4 (take 2 (drop 4 u));
   o3 ← mem_write o2 6 (take 2 (drop 6 u));
   o4 ← mem_write o3 8 (take 2 (drop 8 u));
   mem_write o4 10 (take 6 (drop 10 u))) = Some u.
Proof.
  intros Hu Ho.
  do 17 (destruct u as [|? u]; try (cbn in Hu; lia)).
  do 17 (destruct old as [|? old]; try (cbn in Ho; lia)).
  reflexivity.
Qed.

(** A uuid that was printed parses back to the same 16 bytes. *)
Lemma string_uuid_roundtrip u old tl : wf_bytes u -> length u = 16%nat -> length old = 16%nat ->
  string_to_uuid (print_uuid u ++ tl) old = Ok u.
Proof.
  intros Hw Hu Ho. pose proof (rebuild_uuid u old Hu Ho) as Hr.
  unfold string_to_uuid. rewrite bool_decide_eq_false_2.
  2: { unfold zlen, UUID_PRINTABLE_STRING_LENGTH. rewrite length_app, length_print_uuid by done. lia. }
  destruct (mem_write old 0 _) as [o1|] eqn:E1; [|done]. cbn in Hr.
  destruct (mem_write o1 4 _) as [o2|] eqn:E2; [|done]. cbn in Hr.
  destruct (mem_write o2 6 _) as [o3|] eqn:E3; [|done]. cbn in Hr.
  destruct (mem_write o3 8 _) as [o4|] eqn:E4; [|done]. cbn in Hr.
  unfold print_uuid, print_group. cbn [fst snd]. rewrite <- !app_assoc.
  assert (Hl : forall n m, (n + m <= 16)%nat -> length (take n (drop m u)) = n)
    by (intros; rewrite length_take, length_drop; lia).
  rewrite (uuid_group_spec (take 4 u) _ old o1 0 4 true); [|by apply (wf_sub u 4 0)|apply (Hl 4%nat 0%nat); lia|done].
  cbn [mbind res_bind]. rewrite expect_dash_ok. cbn [mbind res_bind].
  rewrite (uuid_group_spec (take 2 (drop 4 u)) _ o1 o2 4 2 true); [|by apply wf_sub|apply Hl; lia|done].
  cbn [mbind res_bind]. rewrite expect_dash_ok. cbn [mbind res_bind].
  rewrite (uuid_group_spec (take 2 (drop 6 u)) _ o2 o3 6 2 true); [|by apply wf_sub|apply Hl; lia|done].
  cbn [mbind res_bind]. rewrite expect_dash_ok. cbn [mbind res_bind].
  rewrite (uuid_group_spec (take 2 (drop 8 u)) _ o3 o4 8 2 false); [|by apply wf_sub|apply Hl; lia|done].
  cbn [mbind res_bind]. rewrite expect_dash_ok. cbn [mbind res_bind].
  rewrite (uuid_group_spec (take 6 (drop 10 u)) _ o4 u 10 6 false); [|by apply wf_sub|apply Hl; lia|done].
  done.
Qed.

(** The printed form starts and ends with a digit. *)
Definition digits_only (b : Z) : bool :=
  forallb (fun c => bool_decide (ch_0 <= c <= ch_f)) (byte_to_string b).

Lemma digits_all b : is_u8 b -> Forall (fun c => ch_0 <= c <= ch_f) (byte_to_string b).
Proof.
  intros Hb. assert (H : forallb digits_only (seqZ 0 256) = true) by (vm_compute; reflexivity).
  rewrite forallb_forall in H. specialize (H b).
  assert (Hin : In b (seqZ 0 256)) by (apply list_elem_of_In, elem_of_seqZ; unfold is_u8 in Hb; lia).
  specialize (H Hin). unfold digits_only in H. rewrite forallb_forall in H. apply Forall_forall.
  intros c Hc. apply H in Hc. by apply bool_decide_eq_true_1 in Hc.
Qed.

Lemma print_uuid_ends u : length u = 16%nat -> wf_bytes u ->
  (exists c s, print_uuid u = c :: s /\ ch_0 <= c <= ch_f) /\
  (exists c s, print_uuid u = s ++ [c] /\ ch_0 <= c <= ch_f).
Proof.
  intros Hu Hw. do 17 (destruct u as [|? u]; try (cbn in Hu; lia)).
  pose proof (digits_all _ (proj1 (Forall_forall _ _) Hw z2 ltac:(cbn; tauto))) as H3.
  pose proof (digits_all _ (proj1 (Forall_forall _ _) Hw z14 ltac:(cbn; tauto))) as H15.
  unfold byte_to_string in *. inversion_clear H3 as [|?? H3a _].
  inversion_clear H15 as [|?? _ H15b]. inversion_clear H15b as [|?? H15c _]. split.
  - match goal with |- context [print_uuid ?u] =>
      exists (hex_char (Z.shiftr (Z.land z2 240) 4)), (tail (print_uuid u)) end.
    split; [reflexivity|exact H3a].
  - match goal with |- context [print_uuid ?u] =>
      exists (hex_char (Z.land z14 15)), (removelast (print_uuid u)) end.
    split; [reflexivity|exact H15c].
Qed.

(** The printed form is text. *)
Lemma print_uuid_clean u : wf_bytes u -> 0 ∉ print_uuid u.
Proof.
  intros Hw. assert (forall g : bytes * bool, wf_bytes (fst g) -> 0 ∉ print_group g) as Hg.
  { intros [bs swap] Hb Hin. unfold print_group in Hin. cbn in Hb, Hin.
    apply list_elem_of_In, in_concat in Hin as (x & Hx & Hin). apply in_map_iff in Hx as (b & <- & Hb').
    assert (is_u8 b) as H8.
    { unfold wf_bytes in Hb. rewrite Forall_forall in Hb. apply Hb. destruct swap; [by apply in_rev|done]. }
    pose proof (digits_all b H8) as Hd. rewrite Forall_forall in Hd. apply Hd in Hin. unfold ch_0 in Hin. lia. }
  unfold print_uuid. rewrite !not_elem_of_app. unfold ch_dash.
  split_and!; try (apply Hg; cbn; first [by apply Forall_take|by apply wf_sub]); rewrite list_elem_of_singleton; lia.
Qed.

Lemma trim_back_one v c t : c <> t ->
  string_trim_back (Some ((v ++ [c]) ++ [t])) (Some [t]) = Some (v ++ [c]).
Proof.
  intros Hc. unfold string_trim_back. rewrite bool_decide_eq_false_2.
  2: { rewrite !zlen_app. pose proof (zlen_nonneg v). unfold zlen at 2 3. cbn. lia. }
  unfold string_trim_back_len. rewrite take_zlen, !rev_app_distr. cbn [rev app trim_rev is_trim existsb].
  rewrite bool_decide_eq_true_2, (bool_decide_eq_false_2 (c = t)) by done. cbn [orb].
  f_equal. rewrite take_app_length'; [done|].
  unfold zlen. cbn. rewrite length_rev, length_app. cbn. lia.
Qed.

(** ** Claims *)

(** Base 16 round trip: the text that [STRING_construct_base16] makes of a
    buffer is parsed back to the same bytes by [string_base16_to_byte_array]. *)
Lemma base16_roundtrip buf : wf_bytes buf -> buf <> [] -> zlen buf < 2 ^ 63 ->
  exists s, STRING_construct_base16 buf = Some (Ok s) /\ zlen s = 2 * zlen buf /\
    string_base16_to_byte_array true s = Ok buf.
Proof.
  intros Hw Hne Hl. assert (Hpos : 0 < zlen buf)
    by (destruct buf; [done|]; rewrite zlen_cons; pose proof (zlen_nonneg buf); lia).
  exists (concat (map byte_to_string buf)).
  assert (Hs : zlen (concat (map byte_to_string buf)) = 2 * zlen buf)
    by (unfold zlen; rewrite length_hex; lia).
  split; [|split; [done|]].
  - unfold STRING_construct_base16. rewrite bool_decide_eq_false_2 by lia.
    rewrite u64_id by (unfold in_u64; lia). unfold zlen. rewrite Z.mul_comm.
    rewrite string_from_buf_spec, take_ge by lia. done.
  - unfold string_base16_to_byte_array. rewrite Hs, Z.mul_comm, Z.div_mul by lia.
    rewrite bool_decide_eq_false_2 by lia. cbn [negb].
    pose proof (string_to_buf_from_buf buf [] (length buf) false Hw eq_refl) as H.
    rewrite app_nil_r in H. exact H.
Qed.

End UtilString.
