(* ===== verification/UtilInt.v ===== *)
(** * Numbers in text (src/util_string.c)

    Conversion of integers to text and back, and lists of numbers and ranges such as
    "5;6;4-9": the parser passes over the text twice, once to count and once to store.
    [strtol] and [snprintf] are those of the C library. *)
From stdpp Require Import base option list numbers.
From S2P Require Import Prelude PrxTypes UtilString.
Import PrxTypes UtilString.

Module UtilInt.

Definition ch_semi : Z := 59.
Definition ch_space : Z := 32.

(** ** strtol *)

Definition is_space (c : Z) : bool := bool_decide (c = 32 \/ 9 <= c <= 13).

(** The value of a digit of the radix 10 or 16. *)
Definition digit (radix c : Z) : option Z :=
  match hex_value c with
  | Ok v => if bool_decide (v < radix) then Some v else None
  | _ => None
  end.

Fixpoint skip_spaces (s : bytes) : bytes :=
  match s with
  | c :: s' => if is_space c then skip_spaces s' else s
  | [] => []
  end.

Definition sign (s : bytes) : bool * bytes :=
  match s with
  | c :: s' => if bool_decide (c = ch_dash) then (true, s')
               else if bool_decide (c = 43) then (false, s') else (false, s)
  | [] => (false, [])
  end.

(** For radix 16, "0x" in front of a digit is skipped. *)
Definition prefix (radix : Z) (s : bytes) : bytes :=
  match s with
  | c :: x :: d :: s' =>
      if bool_decide (radix = 16 /\ c = ch_0 /\ (x = 120 \/ x = 88) /\ is_Some (digit radix d)) then d :: s' else s
  | _ => s
  end.

Fixpoint digits (radix : Z) (s : bytes) : list Z * bytes :=
  match s with
  | c :: s' => match digit radix c with
               | Some v => let '(d, r) := digits radix s' in (v :: d, r)
               | None => ([], s)
               end
  | [] => ([], [])
  end.

Definition number (radix : Z) (d : list Z) : Z := foldl (fun n v => radix * n + v) 0 d.

(** The value, in the range of [long], and the text that was not converted. *)
Definition strtol (radix : Z) (s : bytes) : Z * bytes :=
  let '(neg, s1) := sign (skip_spaces s) in
  let '(d, r) := digits radix (prefix radix s1) in
  match d with
  | [] => (0, s)
  | _ => let n := if (neg : bool) then - number radix d else number radix d in
         (Z.max (- 2 ^ 63) (Z.min (2 ^ 63 - 1) n), r)
  end.

(** ** Integers *)

(** The digits of [n], [fuel] of them at most. *)
Fixpoint print_digits (fuel : nat) (radix n : Z) : bytes :=
  match fuel with
  | O => []
  | S fuel => if bool_decide (n < radix) then [hex_char n]
              else print_digits fuel radix (n / radix) ++ [hex_char (n mod radix)]
  end.

(** "%d" and "%x": ten and eight digits are enough for 32 bits. *)
Definition format_int (radix value : Z) : bytes :=
  if bool_decide (radix = 10) then
    (if bool_decide (value < 0) then ch_dash :: print_digits 10 10 (- value) else print_digits 10 10 value)
  else print_digits 8 16 (u32 value).

(** What is stored in a buffer of [len] bytes; [snprintf] returns the length of the
    whole text, which is never 0. *)
Definition string_from_int (value radix len : Z) : res bytes :=
  if bool_decide (len = 0) then Err er_arg
  else if bool_decide (radix <> 10 /\ radix <> 16) then Err er_arg
  else Ok (take (Z.to_nat (len - 1)) (format_int radix value)).

Definition string_to_int (string : bytes) (radix : Z) : res Z :=
  if bool_decide (radix <> 10 /\ radix <> 16) then Err er_arg
  else
    let '(v, end_ptr) := strtol radix string in
    match end_ptr with [] => Ok (i32 v) | _ => Err er_arg end.

(** ** Range lists *)

(** One pass: [room]: the slots left where tuples are stored, [None] while counting;
    [out]: what was stored, last first.  The fuel bounds the number of items. *)
Fixpoint range_pass (fuel : nat) (inp : bytes) (index : Z) (room : option Z) (out : list Z) : res (Z * list Z) :=
  match fuel with
  | O => UB
  | S fuel =>
      let '(v, ptr) := strtol 10 inp in
      let low := i32 v in
      '(high, inp, ptr) ←
        match ptr with
        | c :: inp' =>
            if bool_decide (c = ch_dash) then
              let '(v, ptr') := strtol 10 inp' in
              if bool_decide (ptr' = inp') then Err er_invalid_format else Ok (i32 v, inp', ptr')
            else Ok (low, inp, ptr)
        | [] => Ok (low, inp, ptr)
        end;
      '(room, out) ←
        match room with
        | None => Ok (None, out)
        | Some n =>
            if bool_decide (n < 2) then UB
            else Ok (Some (n - 2),
                     (if bool_decide (high > low) then high else low) ::
                     (if bool_decide (high > low) then low else high) :: out)
        end;
      let index := if bool_decide (ptr = inp) then index else index + 1 in
      match ptr with
      | [] => Ok (index, out)
      | c :: rest =>
          if bool_decide (c = ch_space) then
            match trim_front_loop ptr [ch_space] with
            | [] => Ok (index, out)
            | _ => Err er_invalid_format
            end
          else if bool_decide (c <> ch_semi) || bool_decide (ptr = inp) then Err er_invalid_format
          else range_pass fuel rest index room out
      end
  end.

(** [alloc]: whether the memory for the tuples is there.  The tuples, in order. *)
Definition string_parse_range_list (alloc : bool) (range_string : option bytes) : res (list Z) :=
  match range_string with
  | None => Err er_fault
  | Some s =>
      '(index, _) ← range_pass (S (length s)) s 0 None [];
      if bool_decide (index = 0) then Ok []
      else if negb alloc then Err er_out_of_memory
      else
        '(_, out) ← range_pass (S (length s)) s 0 (Some (2 * index)) [];
        Ok (rev out)
  end.

(** ** Lemmas *)

Definition radix_ok (radix : Z) : Prop := radix = 10 \/ radix = 16.

Lemma digit_hex radix v : radix_ok radix -> 0 <= v < radix ->
  digit radix (hex_char v) = Some v /\ is_space (hex_char v) = false /\
  hex_char v <> ch_dash /\ hex_char v <> 43 /\ hex_char v <> 120 /\ hex_char v <> 88.
Proof.
  intros Hr Hv. assert (Hall : forallb (fun v =>
    negb (is_space (hex_char v)) &&
    match hex_value (hex_char v) with Ok w => bool_decide (w = v) | _ => false end &&
    bool_decide (hex_char v <> ch_dash /\ hex_char v <> 43 /\ hex_char v <> 120 /\ hex_char v <> 88))
      (seqZ 0 16) = true) by (vm_compute; reflexivity).
  rewrite forallb_forall in Hall. specialize (Hall v).
  assert (Hin : In v (seqZ 0 16)) by (apply list_elem_of_In, elem_of_seqZ; destruct Hr; lia). specialize (Hall Hin).
  apply andb_true_iff in Hall as [Hall H4]. apply andb_true_iff in Hall as [Hall H3].
  apply bool_decide_eq_true in H4. apply negb_true_iff in Hall. split; [|done]. unfold digit.
  destruct (hex_value (hex_char v)) as [w| |]; try done. apply bool_decide_eq_true in H3 as ->.
  by rewrite bool_decide_eq_true_2 by lia.
Qed.

(** What [print_digits] prints. *)
Lemma print_digits_spec radix fuel : radix_ok radix -> forall n, 0 <= n < radix ^ Z.of_nat (S fuel) ->
  exists ds, ds <> [] /\ print_digits (S fuel) radix n = map hex_char ds /\
    Forall (fun v => 0 <= v < radix) ds /\ number radix ds = n.
Proof.
  intros Hr. assert (Hpos : 0 < radix) by (destruct Hr; lia). induction fuel as [|fuel IH]; intros n Hn.
  - exists [n]. change (Z.of_nat 1) with 1 in Hn. rewrite Z.pow_1_r in Hn. cbn [print_digits].
    rewrite bool_decide_eq_true_2 by lia. split; [done|]. split; [done|]. split; [(constructor; [lia|constructor])|].
    unfold number. cbn [foldl]. lia.
  - cbn [print_digits]. case_bool_decide as Hlt.
    + exists [n]. split; [done|]. split; [done|]. split; [(constructor; [lia|constructor])|]. unfold number. cbn [foldl]. lia.
    + destruct (IH (n / radix)) as (ds & _ & E & Hf & En).
      * split; [apply Z.div_pos; lia|]. apply Z.div_lt_upper_bound; [lia|].
        rewrite <- Z.pow_succ_r by lia. rewrite <- Nat2Z.inj_succ. lia.
      * exists (ds ++ [n mod radix]). cbn [print_digits] in E. rewrite E, map_app. split; [by destruct ds|].
        split; [done|]. pose proof (Z.mod_pos_bound n radix Hpos). split.
        { apply Forall_app. split; [done|]. constructor; [lia|constructor]. }
        unfold number in *. rewrite foldl_app, En. cbn [foldl]. pose proof (Z.div_mod n radix). lia.
Qed.

(** Where a number ends. *)
Definition ends (radix : Z) (r : bytes) : Prop :=
  match r with [] => True | c :: _ => radix = 10 /\ digit radix c = None end.

Lemma digits_print radix ds r : radix_ok radix -> Forall (fun v => 0 <= v < radix) ds -> ends radix r ->
  digits radix (map hex_char ds ++ r) = (ds, r).
Proof.
  intros Hr Hf He. induction Hf as [|v ds Hv Hf IH]; cbn.
  - destruct r as [|c r]; [done|]. destruct He as [_ He]. cbn. by rewrite He.
  - destruct (digit_hex radix v Hr Hv) as [-> _]. by rewrite IH.
Qed.

Lemma prefix_print radix ds r : radix_ok radix -> ds <> [] -> Forall (fun v => 0 <= v < radix) ds -> ends radix r ->
  prefix radix (map hex_char ds ++ r) = map hex_char ds ++ r.
Proof.
  intros Hr Hne Hf He. unfold prefix. destruct ds as [|v [|w ds]]; [done| |]; cbn [map app].
  - destruct r as [|x [|d r]]; [done|done|]. destruct He as [-> _]. by rewrite bool_decide_eq_false_2 by lia.
  - inversion Hf as [|? ? _ Hf1]; subst. inversion Hf1 as [|? ? Hw _]; subst.
    destruct (digit_hex radix w Hr Hw) as (_ & _ & _ & _ & H1 & H2).
    destruct (map hex_char ds ++ r) as [|d l]; [done|]. rewrite bool_decide_eq_false_2; [done|]. tauto.
Qed.

Lemma strtol_print radix ds r (neg : bool) : radix_ok radix -> ds <> [] -> Forall (fun v => 0 <= v < radix) ds ->
  ends radix r -> in_i64 (number radix ds) -> in_i64 (- number radix ds) ->
  strtol radix ((if neg then [ch_dash] else []) ++ map hex_char ds ++ r) =
    (if neg then - number radix ds else number radix ds, r).
Proof.
  intros Hr Hne Hf He Hn Hn'. unfold strtol.
  assert (Hs : sign (skip_spaces ((if neg then [ch_dash] else []) ++ map hex_char ds ++ r)) = (neg, map hex_char ds ++ r)).
  { destruct neg; [done|]. destruct ds as [|v ds]; [done|]. inversion Hf as [|? ? Hv _]; subst.
    destruct (digit_hex radix v Hr Hv) as (_ & H1 & H2 & H3 & _). cbn. rewrite H1. cbn.
    by rewrite bool_decide_eq_false_2, bool_decide_eq_false_2. }
  rewrite Hs, prefix_print, digits_print by done. destruct ds; [done|]. unfold in_i64 in *.
  f_equal. destruct neg; lia.
Qed.

Lemma format_dec_spec v : in_i32 v -> exists (neg : bool) ds, ds <> [] /\
  format_int 10 v = (if neg then [ch_dash] else []) ++ map hex_char ds /\
  Forall (fun v => 0 <= v < 10) ds /\ v = (if neg then - number 10 ds else number 10 ds) /\ 0 <= number 10 ds <= 2 ^ 31.
Proof.
  intros Hv. unfold in_i32 in Hv. unfold format_int. rewrite bool_decide_eq_true_2 by done. case_bool_decide.
  - destruct (print_digits_spec 10 9 (or_introl eq_refl) (- v)) as (ds & H1 & H2 & H3 & H4); [lia|].
    exists true, ds. rewrite H2, H4. split_and!; (done || lia).
  - destruct (print_digits_spec 10 9 (or_introl eq_refl) v) as (ds & H1 & H2 & H3 & H4); [lia|].
    exists false, ds. rewrite H2, H4. split_and!; (done || lia).
Qed.

Lemma strtol_dec v r : in_i32 v -> ends 10 r -> strtol 10 (format_int 10 v ++ r) = (v, r).
Proof.
  intros Hv He. destruct (format_dec_spec v Hv) as (neg & ds & H1 & H2 & H3 & H4 & H5).
  rewrite H2, <- app_assoc. rewrite strtol_print; [by rewrite H4|by left|done|done|done| |]; unfold in_i64; lia.
Qed.

Lemma format_dec_ne v : in_i32 v -> format_int 10 v <> [].
Proof.
  intros Hv. destruct (format_dec_spec v Hv) as (neg & ds & H1 & -> & _). destruct neg, ds; done.
Qed.

(** An integer that was printed, in decimal or in hexadecimal, in a buffer of 12
    bytes or more parses back to the same value. *)
Lemma int_roundtrip v radix len : in_i32 v -> radix = 10 \/ radix = 16 -> 12 <= len ->
  (s ← string_from_int v radix len; string_to_int s radix) = Ok v.
Proof.
  intros Hv Hr Hlen. unfold string_from_int, string_to_int.
  rewrite bool_decide_eq_false_2 by lia. rewrite bool_decide_eq_false_2 by lia. cbn [mbind res_bind].
  destruct Hr as [-> | ->].
  - assert (Hl : (length (format_int 10 v) <= 11)%nat).
    { unfold format_int. rewrite bool_decide_eq_true_2 by done.
      assert (Hd : forall f n, (length (print_digits f 10 n) <= f)%nat).
      { induction f as [|f IH]; intros n; cbn [print_digits]; [done|]. case_bool_decide; [cbn; lia|].
        rewrite length_app. specialize (IH (n / 10)). cbn. lia. }
      case_bool_decide; cbn [length]; pose proof (Hd 10%nat (- v)); pose proof (Hd 10%nat v); lia. }
    rewrite take_ge by lia. rewrite <- (app_nil_r (format_int 10 v)), strtol_dec by done. by rewrite i32_id.
  - unfold format_int. rewrite bool_decide_eq_false_2 by done.
    assert (Hu : 0 <= u32 v < 2 ^ 32) by (apply Z.mod_pos_bound; lia).
    destruct (print_digits_spec 16 7 (or_intror eq_refl) (u32 v)) as (ds & H1 & H2 & H3 & H4); [exact Hu|].
    assert (Hl : (length (print_digits 8 16 (u32 v)) <= 8)%nat).
    { assert (Hd : forall f n, (length (print_digits f 16 n) <= f)%nat).
      { induction f as [|f IH]; intros n; cbn [print_digits]; [done|]. case_bool_decide; [cbn; lia|].
        rewrite length_app. specialize (IH (n / 16)). cbn. lia. }
      apply Hd. }
    rewrite take_ge by lia. rewrite H2, <- (app_nil_r (map hex_char ds)).
    pose proof (strtol_print 16 ds [] false (or_intror eq_refl) H1 H3 I) as E. cbn [app] in E.
    rewrite E by (unfold in_i64; lia). f_equal. rewrite H4. unfold i32, sgn, u32, in_i32 in *.
    rewrite Zplus_mod_idemp_l. change (2 ^ (32 - 1)) with (2 ^ 31). rewrite Z.mod_small; lia.
Qed.

(** ** Range lists that are written down *)

Inductive item := single (n : Z) | range (a b : Z).

Definition item_ok (it : item) : Prop :=
  match it with single n => in_i32 n | range a b => in_i32 a /\ in_i32 b end.
Definition print_item (it : item) : bytes :=
  match it with
  | single n => format_int 10 n
  | range a b => format_int 10 a ++ [ch_dash] ++ format_int 10 b
  end.
Definition tuple (it : item) : list Z :=
  match it with single n => [n; n] | range a b => [Z.min a b; Z.max a b] end.

Fixpoint print_list (l : list item) : bytes :=
  match l with
  | [] => []
  | [it] => print_item it
  | it :: l => print_item it ++ [ch_semi] ++ print_list l
  end.

(** Storing a tuple. *)
Definition store_tuple (room : option Z) (out : list Z) (it : item) : option Z * list Z :=
  match room with Some n => (Some (n - 2), rev (tuple it) ++ out) | None => (None, out) end.

Definition item_end (r : bytes) : Prop := match r with [] => True | c :: _ => c = ch_semi end.

Lemma item_end_ends r : item_end r -> ends 10 r.
Proof. destruct r as [|c r]; [done|]. intros ->. done. Qed.

Lemma app_neq (x r : bytes) : x <> [] -> r <> x ++ r.
Proof. intros Hx E. apply (f_equal length) in E. rewrite length_app in E. destruct x; [done|]. cbn in E. lia. Qed.

Lemma pass_item fuel it r index room out : item_ok it -> item_end r ->
  (forall n, room = Some n -> 2 <= n) ->
  range_pass (S fuel) (print_item it ++ r) index room out =
    match r with
    | [] => Ok (index + 1, snd (store_tuple room out it))
    | _ :: rest => range_pass fuel rest (index + 1) (fst (store_tuple room out it)) (snd (store_tuple room out it))
    end.
Proof.
  intros Hok He Hroom. pose proof (item_end_ends r He) as Hr. cbn [range_pass].
  assert (Hitem : exists lo hi x, x <> [] /\ tuple it = [Z.min lo hi; Z.max lo hi] /\
    (let '(v, ptr) := strtol 10 (print_item it ++ r) in
     match ptr with
     | c :: inp' => if bool_decide (c = ch_dash) then
           let '(v, ptr') := strtol 10 inp' in
           if bool_decide (ptr' = inp') then Err er_invalid_format else Ok (i32 v, inp', ptr')
         else Ok (i32 v, print_item it ++ r, ptr)
     | [] => Ok (i32 v, print_item it ++ r, ptr)
     end = Ok (hi, x ++ r, r) /\ i32 v = lo)).
  { destruct it as [n|a b]; cbn [print_item].
    - exists n, n, (format_int 10 n). split; [by apply format_dec_ne|]. split; [cbn; f_equal; [lia|]; f_equal; lia|].
      rewrite strtol_dec by done. rewrite i32_id by done. destruct r as [|c r]; [done|].
      cbn in He. subst c. done.
    - destruct Hok as [Ha Hb]. exists a, b, (format_int 10 b). split; [by apply format_dec_ne|]. split; [done|].
      rewrite <- !app_assoc. rewrite strtol_dec by done. cbn [app]. rewrite bool_decide_eq_true_2 by done.
      rewrite strtol_dec by done. rewrite bool_decide_eq_false_2 by (apply app_neq; by apply format_dec_ne).
      by rewrite !i32_id. }
  destruct Hitem as (lo & hi & x & Hx & Ht & Hitem). destruct (strtol 10 (print_item it ++ r)) as [v ptr].
  destruct Hitem as [-> ->]. cbn [mbind res_bind].
  assert (Hst : (match room with
        | None => Ok (None, out)
        | Some n => if bool_decide (n < 2) then UB
            else Ok (Some (n - 2), (if bool_decide (hi > lo) then hi else lo) ::
                                   (if bool_decide (hi > lo) then lo else hi) :: out)
        end) = Ok (store_tuple room out it)).
  { destruct room as [n|]; [|done]. specialize (Hroom n eq_refl). rewrite bool_decide_eq_false_2 by lia.
    unfold store_tuple. rewrite Ht. cbn. do 2 f_equal. case_bool_decide; f_equal; [lia| |lia|]; f_equal; lia. }
  rewrite Hst. destruct (store_tuple room out it) as [room' out']. cbn [mbind res_bind fst snd].
  rewrite (bool_decide_eq_false_2 (r = x ++ r)) by by apply app_neq.
  destruct r as [|c rest]; [done|]. cbn in He. by subst c.
Qed.

Lemma print_cons it l : print_list (it :: l) = print_item it ++ match l with [] => [] | _ => ch_semi :: print_list l end.
Proof. destruct l; cbn; [by rewrite app_nil_r|done]. Qed.

(** A whole list; [r] is empty or a semicolon at the end. *)
Lemma pass_list l : forall fuel index room out r, l <> [] -> Forall item_ok l -> (length l <= fuel)%nat ->
  (forall n, room = Some n -> 2 * zlen l <= n) -> item_end r ->
  range_pass fuel (print_list l ++ r) index room out =
    match r with
    | [] => Ok (index + zlen l, match room with Some _ => rev (concat (map tuple l)) ++ out | None => out end)
    | _ :: rest => range_pass (fuel - length l) rest (index + zlen l)
                     (match room with Some n => Some (n - 2 * zlen l) | None => None end)
                     (match room with Some _ => rev (concat (map tuple l)) ++ out | None => out end)
    end.
Proof.
  induction l as [|it l IH]; intros fuel index room out r Hne Hok Hfuel Hroom Hr; [done|].
  inversion Hok as [|? ? Hit Hok']; subst. destruct fuel as [|fuel]; [cbn in Hfuel; lia|].
  rewrite print_cons, <- app_assoc, zlen_cons. pose proof (zlen_nonneg l).
  assert (H2 : forall n, room = Some n -> 2 <= n) by (intros n En; specialize (Hroom n En); rewrite zlen_cons in Hroom; lia).
  destruct l as [|it' l].
  - cbn [app]. rewrite pass_item by done. destruct room as [n|], r as [|c r]; cbn [store_tuple fst snd map concat length];
      rewrite ?zlen_nil, ?app_nil_r, ?Nat.sub_succ, ?Nat.sub_0_r; try done; do 2 f_equal; lia.
  - rewrite pass_item; [|done|done|done]. cbn [app]. rewrite IH; [|done|done|cbn in *; lia| |done].
    + assert (Hc : forall room', room' = fst (store_tuple room out it) ->
        match room' with Some _ => rev (concat (map tuple (it' :: l))) ++ snd (store_tuple room out it)
                       | None => snd (store_tuple room out it) end =
        match room with Some _ => rev (concat (map tuple (it :: it' :: l))) ++ out | None => out end).
      { intros room' ->. destruct room as [n|]; [|done]. cbn [store_tuple fst snd].
        change (concat (map tuple (it :: it' :: l))) with (tuple it ++ concat (map tuple (it' :: l))).
        by rewrite rev_app_distr, <- app_assoc. }
      rewrite (Hc _ eq_refl). destruct r as [|c r].
      * do 2 f_equal. lia.
      * cbn [length]. rewrite Nat.sub_succ. f_equal; [lia|]. destruct room; [|done]. cbn. f_equal. rewrite zlen_cons. lia.
    + intros n En. destruct room as [m|]; [|done]. injection En as <-. specialize (Hroom m eq_refl). rewrite zlen_cons in Hroom. lia.
Qed.

Lemma print_item_ne it : item_ok it -> print_item it <> [].
Proof.
  destruct it as [n|a b]; cbn [item_ok print_item]; [apply format_dec_ne|].
  intros [Ha _]. pose proof (format_dec_ne a Ha). by destruct (format_int 10 a).
Qed.

Lemma length_list l : Forall item_ok l -> (length l <= length (print_list l))%nat.
Proof.
  induction 1 as [|it l Hit Hl IH]; [done|]. rewrite print_cons, length_app. pose proof (print_item_ne it Hit) as Hne.
  assert (1 <= length (print_item it))%nat by (destruct (print_item it); [done|]; cbn; lia).
  destruct l; cbn [length] in *; lia.
Qed.

Lemma parse_list l : Forall item_ok l ->
  string_parse_range_list true (Some (print_list l)) = Ok (concat (map tuple l)).
Proof.
  intros Hok. destruct (decide (l = [])) as [->|Hne]; [done|]. pose proof (length_list l Hok).
  assert (0 < zlen l) by (destruct l; [done|]; rewrite zlen_cons; pose proof (zlen_nonneg l); lia).
  assert (Hpass : forall room, (forall n, room = Some n -> 2 * zlen l <= n) ->
    range_pass (S (length (print_list l))) (print_list l) 0 room [] =
      Ok (zlen l, match room with Some _ => rev (concat (map tuple l)) | None => [] end)).
  { intros room Hroom. pose proof (pass_list l (S (length (print_list l))) 0 room [] [] Hne Hok ltac:(lia) Hroom I) as E.
    rewrite !app_nil_r in E. exact E. }
  unfold string_parse_range_list. rewrite Hpass by done. cbn [mbind res_bind].
  rewrite bool_decide_eq_false_2 by lia. cbn [negb]. rewrite Hpass by (intros n [= <-]; lia).
  cbn [mbind res_bind]. by rewrite rev_involutive.
Qed.

(** Every list of numbers and ranges is parsed to the tuples it denotes, low bound
    first. *)
Lemma range_list_parses l : Forall item_ok l ->
  string_parse_range_list true (Some (print_list l)) = Ok (concat (map tuple l)).
Proof. apply parse_list. Qed.


(** The item after the last semicolon. *)
Lemma pass_empty fuel index room out : range_pass (S fuel) [] index room out =
  match room with
  | None => Ok (index, out)
  | Some n => if bool_decide (n < 2) then UB else Ok (index, 0 :: 0 :: out)
  end.
Proof. destruct room as [n|]; [|done]. cbn [range_pass strtol skip_spaces sign prefix digits mbind res_bind]. by destruct (bool_decide (n < 2)). Qed.

(** A semicolon at the end of a list that is not empty makes the parser store one
    tuple more than it counted, past the end of the memory it allocated. *)
Lemma range_list_overflow l : l <> [] -> Forall item_ok l ->
  string_parse_range_list true (Some (print_list l ++ [ch_semi])) = UB.
Proof.
  intros Hne Hok. pose proof (length_list l Hok).
  assert (0 < zlen l) by (destruct l; [done|]; rewrite zlen_cons; pose proof (zlen_nonneg l); lia).
  assert (Hpass : forall room, (forall n, room = Some n -> 2 * zlen l <= n) ->
    range_pass (S (length (print_list l ++ [ch_semi]))) (print_list l ++ [ch_semi]) 0 room [] =
      match room with
      | None => Ok (zlen l, [])
      | Some n => if bool_decide (n - 2 * zlen l < 2) then UB
                  else Ok (zlen l, 0 :: 0 :: rev (concat (map tuple l)) ++ [])
      end).
  { intros room Hroom. rewrite length_app. cbn [length]. rewrite pass_list by (done || lia).
    destruct (S (length (print_list l) + 1) - length l)%nat as [|fuel] eqn:E; [lia|]. rewrite pass_empty. by destruct room. }
  unfold string_parse_range_list. rewrite Hpass by done. cbn [mbind res_bind].
  rewrite bool_decide_eq_false_2 by lia. cbn [negb]. rewrite Hpass by (intros n [= <-]; lia).
  by rewrite bool_decide_eq_true_2 by lia.
Qed.

End UtilInt.
