(* ===== verification/UtilKey.v ===== *)
(** * Comparing, searching and taking apart strings (src/util_string.c)

    The second half of the string utilities: comparison with and without case, search
    and removal, schemes, lists of keys and values, and names of services.  Pointers
    into a string are the characters from there on. *)
From Stdlib Require Import Ascii String.
From stdpp Require Import base option list numbers.
From S2P Require Import Prelude PrxTypes UtilString UtilInt.
Import PrxTypes UtilString UtilInt.
Open Scope Z_scope.

Module UtilKey.

(** A string literal. *)
Fixpoint str (s : string) : bytes :=
  match s with EmptyString => [] | String c s => Z.of_N (N_of_ascii c) :: str s end.

(** ** Comparison *)

Definition tolower (c : Z) : Z := if bool_decide (65 <= c <= 90) then c + 32 else c.

(** [strcmp] and [strcasecmp] with [f] the identity or [tolower]: the difference of the
    first characters that differ, the terminator being 0. *)
Fixpoint compare_by (f : Z -> Z) (a b : bytes) : Z :=
  match a, b with
  | [], [] => 0
  | [], y :: _ => - f y
  | x :: _, [] => f x
  | x :: a, y :: b => if bool_decide (f x = f y) then compare_by f a b else f x - f y
  end.

(** [strncmp] and [strncasecmp]. *)
Definition compare_n (f : Z -> Z) (a b : bytes) (n : Z) : Z :=
  compare_by f (take (Z.to_nat n) a) (take (Z.to_nat n) b).

Definition string_compare (val to : option bytes) : Z :=
  match val, to with
  | None, _ => -1
  | _, None => 1
  | Some val, Some to => compare_by id val to
  end.

Definition string_compare_nocase (val to : option bytes) : Z :=
  match val, to with
  | None, _ => -1
  | _, None => 1
  | Some val, Some to => compare_by tolower val to
  end.

Definition string_is_equal (val : option bytes) (len : Z) (to : option bytes) : bool :=
  match val, to with
  | None, None => true
  | Some val, Some to => bool_decide (len = zlen to) && bool_decide (compare_n id val to len = 0)
  | _, _ => false
  end.

Definition string_is_equal_nocase (val : option bytes) (len : Z) (to : option bytes) : bool :=
  match val, to with
  | None, None => true
  | Some val, Some to => bool_decide (len = zlen to) && bool_decide (compare_n tolower val to len = 0)
  | _, _ => false
  end.

(** [chk_arg_fault_return] makes a comparison with NULL unequal. *)
Definition STRING_compare_c_str (string : option bytes) (compare_to : option bytes) : Z :=
  match string with None => error_value er_fault | Some s => string_compare (Some s) compare_to end.
Definition STRING_compare_c_str_nocase (string : option bytes) (compare_to : option bytes) : Z :=
  match string with None => error_value er_fault | Some s => string_compare_nocase (Some s) compare_to end.
Definition STRING_compare_nocase (string compare_to : option bytes) : Z :=
  match compare_to with
  | None => error_value er_fault
  | Some to => STRING_compare_c_str_nocase string (Some to)
  end.

Definition string_starts_with_nocase (val find : option bytes) : bool :=
  match val, find with
  | Some val, Some find =>
      if bool_decide (zlen find > zlen val) then false
      else string_is_equal_nocase (Some val) (zlen find) (Some find)
  | _, _ => false
  end.

(** ** Search *)

(** The loop of the search functions, from [next] on. *)
Fixpoint find_loop (equal : option bytes -> Z -> option bytes -> bool) (next find : bytes) : option bytes :=
  if bool_decide (zlen find <= zlen next) then
    if equal (Some next) (zlen find) (Some find) then Some next
    else match next with [] => None | _ :: next => find_loop equal next find end
  else None.

Definition find_by (equal : option bytes -> Z -> option bytes -> bool) (value find : option bytes) : option bytes :=
  match value, find with
  | Some value, Some find =>
      if bool_decide (zlen value = 0) || bool_decide (zlen find = 0) then None else find_loop equal value find
  | _, _ => None
  end.

Definition string_find : option bytes -> option bytes -> option bytes := find_by string_is_equal.
Definition string_find_nocase : option bytes -> option bytes -> option bytes := find_by string_is_equal_nocase.

(** The functions on STRING handles check for NULL and call those on strings. *)
Definition STRING_find_c_str (string to_find : option bytes) : option bytes :=
  match string with None => None | Some s => string_find (Some s) to_find end.
Definition STRING_find_c_str_nocase (string to_find : option bytes) : option bytes :=
  match string with None => None | Some s => string_find_nocase (Some s) to_find end.
Definition STRING_find (string to_find : option bytes) : option bytes :=
  match string, to_find with Some s, Some f => STRING_find_c_str (Some s) (Some f) | _, _ => None end.
Definition STRING_find_nocase (string to_find : option bytes) : option bytes :=
  match string, to_find with Some s, Some f => STRING_find_c_str_nocase (Some s) (Some f) | _, _ => None end.

(** ** Removal *)

(** The loop of [string_remove_nocase]: [mem] is the block the string is in, [next] an
    offset into it. *)
Fixpoint remove_loop (remain : nat) (mem find : bytes) (next val_len : Z) : res (bytes * Z) :=
  match remain with
  | O => Ok (mem, val_len)
  | S remain' =>
      if bool_decide (zlen find <= Z.of_nat remain) then
        if string_is_equal_nocase (Some (cstr (drop (Z.to_nat next) mem))) (zlen find) (Some find) then
          let val_len := val_len - zlen find in
          moved ← chk (mem_read mem (next + zlen find) val_len);
          mem ← chk (mem_write mem next moved);
          remove_loop remain' mem find next val_len
        else remove_loop remain' mem find (next + 1) val_len
      else Ok (mem, val_len)
  end.

(** The block after the function; NULL arguments leave it alone. *)
Definition string_remove_nocase (mem : option bytes) (find : option bytes) : res (option bytes) :=
  match mem, find with
  | Some mem, Some find =>
      let val_len := zlen (cstr mem) in
      if bool_decide (val_len = 0) || bool_decide (zlen find = 0) then Ok (Some mem)
      else
        '(mem, val_len) ← remove_loop (Z.to_nat val_len) mem find 0 val_len;
        mem ← chk (mem_write mem val_len [0]);
        Ok (Some mem)
  | _, _ => Ok mem
  end.

(** ** Schemes *)

Definition delim : bytes := str "://".
(** The size of the pointer [delim], not of the string. *)
Definition sizeof_delim : Z := 8.

Fixpoint scheme_loop (n : nat) (host_name : bytes) : option bytes :=
  match n with
  | O => None
  | S n =>
      if bool_decide (take 3 host_name = delim) then Some (drop 3 host_name)
      else scheme_loop n (drop 1 host_name)
  end.

(** The string without its scheme, and its length. *)
Definition string_trim_scheme (host_name : option bytes) (name_len : option Z) : option (bytes * Z) :=
  match host_name with
  | None => None
  | Some h =>
      let len := default (zlen h) name_len in
      if bool_decide (len < sizeof_delim) then Some (h, len)
      else match scheme_loop (Z.to_nat (len - sizeof_delim)) h with
           | Some rest => Some (rest, len - (zlen h - zlen rest))
           | None => Some (h, len)
           end
  end.

(** ** Keys and values *)

Definition ch_eq : Z := 61.

(** The characters before the first [d], and those from it on. *)
Fixpoint scan (d : Z) (s : bytes) : bytes * bytes :=
  match s with
  | [] => ([], [])
  | c :: s' => if bool_decide (c = d) then ([], s) else let '(a, r) := scan d s' in (c :: a, r)
  end.

Section Parser.
Context {C : Type}.
(** The visitor, which may change its context. *)
Variable visitor : C -> bytes -> bytes -> prx_error * C.
Variable d : Z.

Fixpoint key_value_loop (fuel : nat) (cstr : bytes) (ctx : C) : res (prx_error * C) :=
  match fuel with
  | O => UB
  | S fuel =>
      let '(key, r) := scan ch_eq cstr in
      match r with
      | [] | [_] => Ok (visitor ctx key [])
      | _ :: v =>
          let '(val, r) := scan d v in
          let '(result, ctx) := visitor ctx key val in
          if bool_decide (result <> er_ok) then Ok (result, ctx)
          else match r with
               | [] | [_] => Ok (result, ctx)
               | _ :: cstr => key_value_loop fuel cstr ctx
               end
      end
  end.

(** Every turn consumes a character. *)
Definition string_key_value_parser (cstr : option bytes) (ctx : C) : res (prx_error * C) :=
  match cstr with
  | None => Ok (er_fault, ctx)
  | Some s => key_value_loop (S (length s)) s ctx
  end.
End Parser.

(** ** Copies *)

(** [alloc]: whether there is memory. *)
Definition string_clone (alloc : bool) (string : option bytes) : res bytes :=
  match string with
  | None => Err er_fault
  | Some s => if alloc then Ok s else Err er_out_of_memory
  end.

(** The string in a buffer of [len] bytes that need not be terminated; NULL when there
    is no memory. *)
Definition STRING_safe_construct_n (alloc : bool) (buffer : option bytes) (len : Z) : option bytes :=
  match buffer with
  | None => None
  | Some b => if alloc then Some (cstr (take (Z.to_nat len) b)) else None
  end.

Definition STRING_construct_trim (alloc : bool) (val trim_chars : option bytes) : option bytes :=
  match val with
  | None => None
  | Some v =>
      if negb alloc then None
      else match trim_chars with
           | None | Some [] => Some v
           | Some _ => string_trim_back (string_trim_front (Some v) trim_chars) trim_chars
           end
  end.

Definition STRING_concat_n (alloc concat : bool) (string buffer : option bytes) (len : Z) : res bytes :=
  match string, buffer with
  | Some s, Some b =>
      match STRING_safe_construct_n alloc (Some b) len with
      | None => Err er_out_of_memory
      | Some tmp => if concat then Ok (s ++ tmp) else Err er_out_of_memory
      end
  | _, _ => Err er_fault
  end.

Definition STRING_concat_int (concat : bool) (string : option bytes) (value radix : Z) : res bytes :=
  match string with
  | None => Err er_fault
  | Some s =>
      b ← string_from_int value radix 32;
      if concat then Ok (s ++ b) else Err er_out_of_memory
  end.

(** ** Names of services *)

Definition ch_dot : Z := 46.
Definition ch_underscore : Z := 95.

(** Characters are stored while there is room for them and the terminator; [out]: what was
    stored, last first. *)
Fixpoint put_chars (s : bytes) (size : Z) (out : bytes) : option (Z * bytes) :=
  match s with
  | [] => Some (size, out)
  | c :: s => if bool_decide (size - 1 = 0) then None else put_chars s (size - 1) (c :: out)
  end.

Definition ends_with_dot (s : bytes) : bool := match rev s with c :: _ => bool_decide (c = ch_dot) | [] => false end.

Definition string_copy_service_full_name (service_name service_type domain : option bytes) (full_size : Z) : res bytes :=
  if bool_decide (service_name <> None /\ domain <> None /\ service_type = None) then Err er_arg
  else if bool_decide (full_size <= 1) then Err er_arg
  else
    let domain := if bool_decide ((service_name <> None \/ service_type <> None) /\ domain = None)
                  then Some (str "local") else domain in
    let name := default [] service_name in
    let type := default [] service_type in
    let domain := default [] domain in
    let r :=
      '(size, out) ← put_chars (if bool_decide (name = []) then [] else name ++ [ch_dot]) full_size [];
      '(size, out) ← put_chars (if bool_decide (type = []) || ends_with_dot type then type else type ++ [ch_dot]) size out;
      put_chars domain size out in
    match r with
    | None => Err er_fault
    | Some (_, out) =>
        (** A dot was the last character that one of the loops stored. *)
        let trailing := if bool_decide (domain <> []) then ends_with_dot domain
                        else bool_decide (name <> []) || bool_decide (type <> []) in
        Ok (rev (if trailing then tail out else out))
    end.

(** The first dot in [s] whose next character has [p], and what is around it. *)
Fixpoint split_dot (p : Z -> bool) (s : bytes) : option (bytes * bytes) :=
  match s with
  | [] => None
  | c :: s' =>
      match s' with
      | n :: _ => if bool_decide (c = ch_dot) && p n then Some ([], s')
                  else '(a, b) ← split_dot p s'; Some (c :: a, b)
      | [] => None
      end
  end.

(** As [split_dot], from the second character on. *)
Definition split_after (p : Z -> bool) (s : bytes) : option (bytes * bytes) :=
  match s with
  | [] => None
  | c :: s => '(a, b) ← split_dot p s; Some (c :: a, b)
  end.

(** Service name, service type and domain. *)
Definition string_parse_service_full_name (full_name : bytes) : option bytes * option bytes * option bytes :=
  let full := default [] (string_trim_back (Some full_name) (Some [ch_dot])) in
  let type_and_domain name t :=
    match split_after (fun c => bool_decide (c <> ch_underscore)) t with
    | Some (t, d) => (name, Some t, Some d)
    | None => (name, Some t, Some (str "local"))
    end in
  match full with
  | [] => (None, None, None)
  | c :: _ =>
      if bool_decide (c = ch_underscore) then type_and_domain None full
      else match split_after (fun c => bool_decide (c = ch_underscore)) full with
           | Some (name, t) => type_and_domain (Some name) t
           | None => (None, None, Some full)
           end
  end.

(** ** Search is the first occurrence *)

(** Equal characters, as far as [f] tells. *)
Lemma compare_by_eq f a b : (forall c, 0 < c -> 0 < f c) -> wf_cstr a -> wf_cstr b ->
  compare_by f a b = 0 <-> map f a = map f b.
Proof.
  intros Hf Ha. revert b. induction Ha as [|x a Hx Ha IH]; intros b Hb; destruct Hb as [|y b Hy Hb]; cbn.
  - done.
  - pose proof (Hf y ltac:(lia)). split; [lia|done].
  - pose proof (Hf x ltac:(lia)). split; [lia|done].
  - case_bool_decide as E.
    + rewrite IH by done. rewrite E. split; [by intros ->|by intros [= ->]].
    + split; [lia|]. by intros [= ? _].
Qed.

Lemma wf_take n s : wf_cstr s -> wf_cstr (take n s).
Proof. apply Forall_take. Qed.

Lemma tolower_pos c : 0 < c -> 0 < tolower c.
Proof. unfold tolower. case_bool_decide; lia. Qed.

(** The bounded comparisons: one string begins with the other. *)
Lemma compare_n_prefix f v t : (forall c, 0 < c -> 0 < f c) -> wf_cstr v -> wf_cstr t ->
  compare_n f v t (zlen t) = 0 <-> map f t `prefix_of` map f v.
Proof.
  intros Hf Hv Ht. unfold compare_n. rewrite compare_by_eq by auto using wf_take.
  rewrite take_zlen. unfold zlen. rewrite Nat2Z.id. split.
  - intros E. exists (map f (drop (length t) v)). by rewrite <- E, <- map_app, take_drop.
  - intros [k E]. rewrite <- firstn_map, E. rewrite take_app_le by (by rewrite length_map).
    rewrite take_ge; [done|]. by rewrite length_map.
Qed.

Fixpoint suffixes (s : bytes) : list bytes := s :: match s with [] => [] | _ :: s => suffixes s end.

(** The first suffix that begins with the string to find, up to [f]. *)
Definition first_occurrence (f : Z -> Z) (value find : bytes) : option bytes :=
  head (filter (fun r => map f find `prefix_of` map f r) (suffixes value)).

Lemma find_loop_first f equal v t : wf_cstr v -> 0 < zlen t ->
  (forall v, wf_cstr v -> equal (Some v) (zlen t) (Some t) = bool_decide (map f t `prefix_of` map f v)) ->
  find_loop equal v t = first_occurrence f v t.
Proof.
  intros Hv Hlen Heq. unfold first_occurrence.
  assert (Hshort : forall v, zlen v < zlen t -> filter (fun r => map f t `prefix_of` map f r) (suffixes v) = []).
  { clear. intros v. induction v as [|c v IH]; intros Hv; cbn [suffixes];
      (rewrite filter_cons_False; [|intros Hp%prefix_length; rewrite !length_map in Hp; unfold zlen in Hv; lia]).
    - done.
    - apply IH. rewrite zlen_cons in Hv. lia. }
  induction Hv as [|c v Hc Hv IH]; cbn [find_loop].
  - rewrite bool_decide_eq_false_2 by (rewrite zlen_nil; lia). by rewrite Hshort by (rewrite zlen_nil; lia).
  - destruct (bool_decide_reflect (zlen t <= zlen (c :: v))) as [Hl|Hl]; [|by rewrite Hshort by lia].
    rewrite Heq by (by constructor). cbn [suffixes]. destruct (bool_decide_reflect (map f t `prefix_of` map f (c :: v))).
    + by rewrite filter_cons_True.
    + rewrite filter_cons_False by done. apply IH.
Qed.

Lemma find_by_first f equal v t : wf_cstr v -> t <> [] ->
  (forall v, wf_cstr v -> equal (Some v) (zlen t) (Some t) = bool_decide (map f t `prefix_of` map f v)) ->
  find_by equal (Some v) (Some t) = first_occurrence f v t.
Proof.
  intros Hv Hne Heq. unfold find_by.
  assert (Hlen : 0 < zlen t) by (destruct t; [done|]; rewrite zlen_cons; pose proof (zlen_nonneg t); lia).
  rewrite (bool_decide_eq_false_2 (zlen t = 0)) by lia. rewrite orb_false_r, <- (find_loop_first f equal v t) by done.
  case_bool_decide as Hz; [|done]. destruct v; [|rewrite zlen_cons in Hz; pose proof (zlen_nonneg v); lia].
  cbn [find_loop]. by rewrite bool_decide_eq_false_2 by (rewrite zlen_nil; lia).
Qed.

Lemma equal_prefix f v t : (forall c, 0 < c -> 0 < f c) -> wf_cstr v -> wf_cstr t ->
  bool_decide (zlen t = zlen t) && bool_decide (compare_n f v t (zlen t) = 0) = bool_decide (map f t `prefix_of` map f v).
Proof. intros Hf Hv Ht. rewrite bool_decide_eq_true_2 by done. cbn [andb]. by apply bool_decide_ext, compare_n_prefix. Qed.

(** The two search functions return the first place where the string occurs, as it is
    or up to the case of letters, and NULL if there is none. *)
Lemma find_is_first v t : wf_cstr v -> wf_cstr t -> t <> [] ->
  string_find (Some v) (Some t) = first_occurrence id v t /\
  string_find_nocase (Some v) (Some t) = first_occurrence tolower v t.
Proof.
  intros Hv Ht Hne. split; (apply find_by_first; [done|done|]); intros v' Hv'; apply equal_prefix; try done. apply tolower_pos.
Qed.


(** ** Keys and values that are written down *)

Section Pairs.
Context {C : Type} (visitor : C -> bytes -> bytes -> prx_error * C) (d : Z).

(** The visitor for one pair after the other, up to the first that fails. *)
Fixpoint visit_pairs (l : list (bytes * bytes)) (ctx : C) : prx_error * C :=
  match l with
  | [] => (er_ok, ctx)
  | (k, v) :: l =>
      let '(result, ctx) := visitor ctx k v in
      if bool_decide (result <> er_ok) then (result, ctx) else visit_pairs l ctx
  end.

Definition print_pair (x : bytes * bytes) : bytes := fst x ++ [ch_eq] ++ snd x.
Fixpoint print_pairs (l : list (bytes * bytes)) : bytes :=
  match l with
  | [] => []
  | [x] => print_pair x
  | x :: l => print_pair x ++ [d] ++ print_pairs l
  end.

Definition pair_ok (x : bytes * bytes) : Prop := ch_eq ∉ fst x /\ d ∉ snd x.

Lemma scan_app c a r : c ∉ a -> scan c (a ++ r) = (let '(b, r) := scan c r in (a ++ b, r)).
Proof.
  induction a as [|x a IH]; intros Hc; cbn; [by destruct (scan c r)|]. apply not_elem_of_cons in Hc as [Hx Ha].
  rewrite bool_decide_eq_false_2 by done. rewrite IH by done. by destruct (scan c r).
Qed.
Lemma scan_hit c a r : c ∉ a -> scan c (a ++ c :: r) = (a, c :: r).
Proof. intros Hc. rewrite scan_app by done. cbn. rewrite bool_decide_eq_true_2 by done. by rewrite app_nil_r. Qed.
Lemma scan_miss c a : c ∉ a -> scan c a = (a, []).
Proof. intros Hc. rewrite <- (app_nil_r a) at 1. rewrite scan_app by done. cbn. by rewrite app_nil_r. Qed.

Lemma print_pairs_cons x l : l <> [] -> print_pairs (x :: l) = fst x ++ ch_eq :: (snd x ++ d :: print_pairs l).
Proof. intros Hl. destruct l; [done|]. cbn [print_pairs]. unfold print_pair. by rewrite <- !app_assoc. Qed.

Lemma print_pairs_long l : l <> [] -> (length l <= length (print_pairs l))%nat.
Proof.
  induction l as [|x l IH]; [done|]. intros _. destruct (decide (l = [])) as [->|Hl].
  - cbn. unfold print_pair. rewrite !length_app. cbn. lia.
  - rewrite print_pairs_cons by done. specialize (IH Hl). rewrite length_app. cbn. rewrite length_app. cbn. lia.
Qed.

Lemma key_value_loop_run fuel : forall l ctx, l <> [] -> Forall pair_ok l -> (length l <= fuel)%nat ->
  key_value_loop visitor d fuel (print_pairs l) ctx = Ok (visit_pairs l ctx).
Proof.
  induction fuel as [|fuel IH]; intros l ctx Hl Hok Hf; [destruct l; [done|cbn in Hf; lia]|].
  destruct l as [|[k v] l]; [done|]. inversion Hok as [|? ? [Hk Hv] Hok']; subst. cbn [fst snd] in *. cbn [key_value_loop visit_pairs].
  destruct (decide (l = [])) as [->|Hne].
  - change (print_pairs [(k, v)]) with (k ++ ch_eq :: v). rewrite scan_hit by done. destruct v as [|c v].
    + destruct (visitor ctx k []) as [result ctx']. case_bool_decide; by subst.
    + rewrite scan_miss by done. destruct (visitor ctx k (c :: v)) as [result ctx']. case_bool_decide; by subst.
  - rewrite print_pairs_cons by done. rewrite scan_hit by done. cbn [fst snd].
    destruct (v ++ d :: print_pairs l) as [|c r] eqn:E; [by destruct v|]. rewrite <- E. rewrite scan_hit by done.
    destruct (visitor ctx k v) as [result ctx']. case_bool_decide; [done|].
    destruct (print_pairs l) as [|c' r'] eqn:E'.
    + pose proof (print_pairs_long l Hne) as Hn. rewrite E' in Hn. destruct l; [done|]. cbn in Hn. lia.
    + rewrite <- E'. apply IH; [done|done|]. cbn in Hf. lia.
Qed.

(** The parser visits the pairs of a printed list. *)
Lemma key_value_pairs l ctx : l <> [] -> Forall pair_ok l ->
  string_key_value_parser visitor d (Some (print_pairs l)) ctx = Ok (visit_pairs l ctx).
Proof. intros Hl Hok. apply key_value_loop_run; [done|done|]. pose proof (print_pairs_long l Hl). lia. Qed.
End Pairs.

(** ** Names of services survive *)

(** No dot in [s] is followed by a character with [p]. *)
Fixpoint no_dot (p : Z -> bool) (s : bytes) : Prop :=
  match s with
  | [] => True
  | c :: s' => match s' with n :: _ => bool_decide (c = ch_dot) && p n = false | [] => True end /\ no_dot p s'
  end.

Lemma split_dot_app p a y b : no_dot p (a ++ [ch_dot]) -> p y = true ->
  split_dot p (a ++ ch_dot :: y :: b) = Some (a, y :: b).
Proof.
  intros Ha Hy. induction a as [|c a IH]; [cbn; by rewrite Hy|]. cbn [app split_dot no_dot] in *. destruct Ha as [Hc Ha].
  specialize (IH Ha). destruct (a ++ ch_dot :: y :: b) as [|n r] eqn:E; [by destruct a|].
  assert (Hn : bool_decide (c = ch_dot) && p n = false).
  { destruct a as [|n' a]; cbn in E; injection E as <- _; exact Hc. }
  rewrite Hn, IH. done.
Qed.

Lemma split_after_app p c a y b : no_dot p (a ++ [ch_dot]) -> p y = true ->
  split_after p (c :: a ++ ch_dot :: y :: b) = Some (c :: a, y :: b).
Proof. intros Ha Hy. cbn [split_after]. by rewrite split_dot_app. Qed.

Lemma put_chars_run s : forall size out, zlen s < size -> put_chars s size out = Some (size - zlen s, rev s ++ out).
Proof.
  induction s as [|c s IH]; intros size out Hs; cbn [put_chars].
  - rewrite zlen_nil. by rewrite Z.sub_0_r.
  - rewrite zlen_cons in *. pose proof (zlen_nonneg s). rewrite bool_decide_eq_false_2 by lia. rewrite IH by lia.
    cbn [rev]. rewrite <- app_assoc. do 2 f_equal. lia.
Qed.

(** A service name; a type such as [_ipp._tcp]; a domain. *)
Definition service_ok (n t d : bytes) : Prop :=
  match n with c :: n => c <> ch_underscore /\ no_dot (fun c => bool_decide (c = ch_underscore)) (n ++ [ch_dot]) | [] => False end /\
  match t with c :: t => c = ch_underscore /\ no_dot (fun c => bool_decide (c <> ch_underscore)) (t ++ [ch_dot]) | [] => False end /\
  match d with c :: _ => c <> ch_underscore | [] => False end /\ ends_with_dot t = false /\ ends_with_dot d = false.

Lemma copy_service_run n t d size : service_ok n t d -> zlen n + zlen t + zlen d + 2 < size ->
  string_copy_service_full_name (Some n) (Some t) (Some d) size = Ok (n ++ ch_dot :: t ++ ch_dot :: d).
Proof.
  intros (Hn & Ht & Hd & Et & Ed) Hs. unfold string_copy_service_full_name.
  pose proof (zlen_nonneg n). pose proof (zlen_nonneg t). pose proof (zlen_nonneg d).
  rewrite (bool_decide_eq_false_2 (_ /\ _ /\ _)) by naive_solver. rewrite (bool_decide_eq_false_2 (size <= 1)) by lia.
  rewrite (bool_decide_eq_false_2 (_ /\ Some d = None)) by naive_solver. cbv zeta. cbn [default id].
  destruct n as [|nc n]; [done|]. destruct t as [|tc t]; [done|]. destruct d as [|dc d]; [done|].
    rewrite (bool_decide_eq_false_2 (nc :: n = [])), (bool_decide_eq_false_2 (tc :: t = [])), Et by done. cbn [orb].
  rewrite put_chars_run by (rewrite zlen_app; change (zlen [ch_dot]) with 1; lia). cbn [mbind option_bind].
  rewrite put_chars_run by (rewrite !zlen_app; change (zlen [ch_dot]) with 1; lia). cbn [mbind option_bind].
  rewrite put_chars_run by (rewrite !zlen_app; change (zlen [ch_dot]) with 1; lia).
  rewrite bool_decide_eq_true_2 by done. rewrite Ed. f_equal.
  rewrite !app_nil_r, !rev_app_distr, !rev_involutive, <- !app_assoc. done.
Qed.

Lemma trim_back_stays s : ends_with_dot s = false -> string_trim_back (Some s) (Some [ch_dot]) = Some s.
Proof.
  intros Hs. unfold string_trim_back. case_bool_decide as Hz; [done|]. f_equal. unfold string_trim_back_len.
  rewrite take_zlen. unfold ends_with_dot in Hs. destruct (rev s) as [|c r] eqn:E.
  - apply (f_equal (@rev Z)) in E. rewrite rev_involutive in E. by subst.
  - cbn [trim_rev is_trim existsb]. rewrite Hs. cbn [orb]. rewrite <- E. unfold zlen. rewrite length_rev, Nat2Z.id. by apply firstn_all.
Qed.

(** A full service name made of its parts is taken apart into the same parts. *)
Lemma service_name_roundtrip n t d size : service_ok n t d -> zlen n + zlen t + zlen d + 2 < size -> exists s,
  string_copy_service_full_name (Some n) (Some t) (Some d) size = Ok s /\
  string_parse_service_full_name s = (Some n, Some t, Some d).
Proof.
  intros Hok Hs. eexists. split; [by apply copy_service_run|]. destruct Hok as (Hn & Ht & Hd & Et & Ed).
  unfold string_parse_service_full_name. rewrite trim_back_stays.
  2:{ unfold ends_with_dot in *. rewrite rev_app_distr. cbn [rev]. rewrite rev_app_distr. cbn [rev].
      destruct (rev d) eqn:E; [|done]. apply (f_equal (@rev Z)) in E. rewrite rev_involutive in E. by subst. }
  cbn [default id]. destruct n as [|nc n]; [done|]. destruct t as [|tc t]; [done|]. destruct d as [|dc d]; [done|].
  destruct Hn as [Hnc Hn], Ht as [-> Ht]. cbn [app]. rewrite bool_decide_eq_false_2 by done.
  rewrite split_after_app by done. rewrite split_after_app; [done|done|by apply bool_decide_eq_true_2].
Qed.

(** ** Where removal goes wrong *)

(** The characters behind a match are moved with the length of the whole string, so that
    a match that is not in front makes the function read past the end of the block. *)
Lemma remove_reads_past_end : string_remove_nocase (Some (str "abXYc" ++ [0])) (Some (str "xy")) = UB.
Proof. vm_compute. reflexivity. Qed.
End UtilKey.
