(* ===== verification/PalErr.v ===== *)
(** * Error codes of the operating system (src/pal/pal_err_posix.c)

    The names of [errno.h] as constructors, [other] for a value without a name; a case of
    the switch that only breaks gives [er_fatal].  [EWOULDBLOCK] is [EAGAIN]. *)
From stdpp Require Import base option list numbers.
From S2P Require Import Prelude.
Open Scope Z_scope.

Module PalErr.

Inductive os_error :=
| no_error
| EPERM | ENOENT | ESRCH | EINTR | EIO | ENXIO | E2BIG | ENOEXEC | EBADF | ECHILD | EAGAIN | ENOMEM | EACCES
| EFAULT | ENOTBLK | EBUSY | EEXIST | EXDEV | ENODEV | ENOTDIR | EISDIR | EINVAL | ENFILE | EMFILE | ENOTTY
| ETXTBSY | EFBIG | ENOSPC | ESPIPE | EROFS | EMLINK | EPIPE | EDOM | ERANGE | EDEADLK | ENAMETOOLONG | ENOLCK
| ENOSYS | ENOTEMPTY | ELOOP | ENOMSG | EIDRM | ECHRNG | EL2NSYNC | EL3HLT | EL3RST | ELNRNG | EUNATCH | ENOCSI
| EL2HLT | EBADE | EBADR | EXFULL | ENOANO | EBADRQC | EBADSLT | EBFONT | ENOSTR | ENODATA | ETIME | ENOSR
| ENONET | ENOPKG | EREMOTE | ENOLINK | EADV | ESRMNT | ECOMM | EPROTO | EMULTIHOP | EDOTDOT | EBADMSG
| EOVERFLOW | ENOTUNIQ | EBADFD | EREMCHG | ELIBACC | ELIBBAD | ELIBSCN | ELIBMAX | ELIBEXEC | EILSEQ
| ERESTART | ESTRPIPE | EUSERS | ENOTSOCK | EDESTADDRREQ | EMSGSIZE | EPROTOTYPE | ENOPROTOOPT
| EPROTONOSUPPORT | ESOCKTNOSUPPORT | EOPNOTSUPP | EPFNOSUPPORT | EAFNOSUPPORT | EADDRINUSE | EADDRNOTAVAIL
| ENETDOWN | ENETUNREACH | ENETRESET | ECONNABORTED | ECONNRESET | ENOBUFS | EISCONN | ENOTCONN | ESHUTDOWN
| ETOOMANYREFS | ETIMEDOUT | ECONNREFUSED | EHOSTDOWN | EHOSTUNREACH | EALREADY | EINPROGRESS | ESTALE
| EUCLEAN | ENOTNAM | ENAVAIL | EISNAM | EREMOTEIO | EDQUOT | ENOMEDIUM | EMEDIUMTYPE | ECANCELED | ENOKEY
| EKEYEXPIRED | EKEYREVOKED | EKEYREJECTED | EOWNERDEAD | ENOTRECOVERABLE
| other (n : Z).

#[export] Instance os_error_eq_dec : EqDecision os_error.
Proof. solve_decision. Defined.

Definition pal_os_to_prx_error (error : os_error) : prx_error :=
  match error with
  | no_error => er_ok | EPERM => er_permission | ENOENT => er_not_found | ESRCH => er_fatal
  | EINTR => er_aborted | EIO => er_disk_io | ENXIO => er_not_found | E2BIG => er_arg
  | ENOEXEC => er_invalid_format | EBADF => er_arg | ECHILD => er_fatal | EAGAIN => er_retry
  | ENOMEM => er_out_of_memory | EACCES => er_permission | EFAULT => er_fault | ENOTBLK => er_disk_io
  | EBUSY => er_busy | EEXIST => er_already_exists | EXDEV => er_fatal | ENODEV => er_not_found
  | ENOTDIR => er_disk_io | EISDIR => er_disk_io | EINVAL => er_arg | ENFILE => er_disk_io
  | EMFILE => er_out_of_memory | ENOTTY => er_fatal | ETXTBSY => er_disk_io | EFBIG => er_disk_io
  | ENOSPC => er_disk_io | ESPIPE => er_disk_io | EROFS => er_disk_io | EMLINK => er_disk_io
  | EPIPE => er_fatal | EDOM => er_arg | ERANGE => er_arg | EDEADLK => er_fatal | ENAMETOOLONG => er_arg
  | ENOLCK => er_fatal | ENOSYS => er_not_impl | ENOTEMPTY => er_disk_io | ELOOP => er_disk_io
  | ENOMSG => er_fatal | EIDRM => er_fatal | ECHRNG => er_arg | EL2NSYNC => er_fatal | EL3HLT => er_fatal
  | EL3RST => er_fatal | ELNRNG => er_fatal | EUNATCH => er_fatal | ENOCSI => er_fatal | EL2HLT => er_fatal
  | EBADE => er_fatal | EBADR => er_fatal | EXFULL => er_fatal | ENOANO => er_fatal | EBADRQC => er_fatal
  | EBADSLT => er_fatal | EBFONT => er_fatal | ENOSTR => er_fatal | ENODATA => er_nomore | ETIME => er_timeout
  | ENOSR => er_out_of_memory | ENONET => er_network | ENOPKG => er_fatal | EREMOTE => er_fatal
  | ENOLINK => er_fatal | EADV => er_fatal | ESRMNT => er_fatal | ECOMM => er_comm | EPROTO => er_network
  | EMULTIHOP => er_network | EDOTDOT => er_fatal | EBADMSG => er_invalid_format | EOVERFLOW => er_fault
  | ENOTUNIQ => er_fatal | EBADFD => er_bad_state | EREMCHG => er_fatal | ELIBACC => er_fatal
  | ELIBBAD => er_fatal | ELIBSCN => er_fatal | ELIBMAX => er_fatal | ELIBEXEC => er_fatal | EILSEQ => er_fatal
  | ERESTART => er_fatal | ESTRPIPE => er_fatal | EUSERS => er_fatal | ENOTSOCK => er_arg
  | EDESTADDRREQ => er_arg | EMSGSIZE => er_invalid_format | EPROTOTYPE => er_not_supported
  | ENOPROTOOPT => er_not_supported | EPROTONOSUPPORT => er_not_supported | ESOCKTNOSUPPORT => er_not_supported
  | EOPNOTSUPP => er_not_supported | EPFNOSUPPORT => er_not_supported | EAFNOSUPPORT => er_address_family
  | EADDRINUSE => er_already_exists | EADDRNOTAVAIL => er_no_address | ENETDOWN => er_network
  | ENETUNREACH => er_network | ENETRESET => er_network | ECONNABORTED => er_connecting
  | ECONNRESET => er_reset | ENOBUFS => er_out_of_memory | EISCONN => er_already_exists | ENOTCONN => er_closed
  | ESHUTDOWN => er_shutdown | ETOOMANYREFS => er_fatal | ETIMEDOUT => er_timeout | ECONNREFUSED => er_refused
  | EHOSTDOWN => er_no_host | EHOSTUNREACH => er_host_unknown | EALREADY => er_waiting
  | EINPROGRESS => er_retry | ESTALE => er_fatal | EUCLEAN => er_fatal | ENOTNAM => er_fatal
  | ENAVAIL => er_fatal | EISNAM => er_fatal | EREMOTEIO => er_fatal | EDQUOT => er_fatal
  | ENOMEDIUM => er_fatal | EMEDIUMTYPE => er_fatal | ECANCELED => er_aborted | ENOKEY => er_fatal
  | EKEYEXPIRED => er_fatal | EKEYREVOKED => er_fatal | EKEYREJECTED => er_fatal | EOWNERDEAD => er_fatal
  | ENOTRECOVERABLE => er_fatal
  | other _ => er_unknown
  end.

Definition pal_os_from_prx_error (error : prx_error) : os_error :=
  match error with
  | er_ok => no_error | er_fatal => ENOTRECOVERABLE | er_arg => EINVAL | er_fault => EFAULT
  | er_bad_state => EBADFD | er_out_of_memory => ENOMEM | er_already_exists => EEXIST | er_not_found => ENXIO
  | er_not_supported => EOPNOTSUPP | er_not_impl => ENOSYS | er_permission => EACCES | er_retry => EAGAIN
  | er_nomore => ENODATA | er_network => ENETDOWN | er_connecting => EHOSTUNREACH | er_busy => EBUSY
  | er_writing => ECOMM | er_reading => ECOMM | er_waiting => EALREADY | er_timeout => ETIME
  | er_aborted => EINTR | er_closed => ENOTCONN | er_shutdown => ESHUTDOWN | er_refused => ECONNREFUSED
  | er_no_address => EADDRNOTAVAIL | er_no_host => EHOSTDOWN | er_host_unknown => EHOSTUNREACH
  | er_address_family => EAFNOSUPPORT | er_reserved2 => other (-1) | er_bad_flags => EINVAL
  | er_invalid_format => EINVAL | er_disk_io => EIO | er_reserved1 => other (-1) | er_prop_get => EPROTO
  | er_prop_set => EPROTO | er_reset => ECONNRESET | er_undelivered => ETIMEDOUT | er_crypto => EPERM
  | er_comm => ECOMM
  | er_unknown => other (-1)
  end.

(** The value of [errno], before and after. *)
Definition pal_os_last_error_as_prx_error (errno : os_error) : prx_error := pal_os_to_prx_error errno.
Definition pal_os_set_error_as_prx_error (error : prx_error) : os_error := pal_os_from_prx_error error.

(** What is left of a code that was stored in [errno] and read again: the codes that share
    a number with another one are merged. *)
Definition settled (e : prx_error) : prx_error :=
  match e with
  | er_connecting => er_host_unknown
  | er_writing | er_reading => er_comm
  | er_bad_flags | er_invalid_format => er_arg
  | er_prop_get | er_prop_set => er_network
  | er_undelivered => er_timeout
  | er_crypto => er_permission
  | er_reserved1 | er_reserved2 => er_unknown
  | e => e
  end.

(** Error codes survive [errno].  A code that is stored in [errno] and read again is the
    same code, but for those that share a number with another: these become the other
    code, which then stays.  No failure is ever turned into success, in either direction,
    and success is never turned into a failure. *)
Lemma error_codes_settle e o :
  pal_os_last_error_as_prx_error (pal_os_set_error_as_prx_error e) = settled e /\
  settled (settled e) = settled e /\
  (pal_os_set_error_as_prx_error e = no_error <-> e = er_ok) /\
  (pal_os_last_error_as_prx_error o = er_ok <-> o = no_error).
Proof. split_and!; [by destruct e|by destruct e|by destruct e|by destruct o]. Qed.
End PalErr.
