(* ===== verification/PalNet.v ===== *)
(** * Addresses, options and names of the operating system (src/pal/pal_net_posix.c)

    Numbers of the operating system and those of the protocol are converted into each
    other.  The numbers of the system are members of [os_constants]; the laws are that
    those a switch distinguishes are different and that flags are different bits.  The
    resolver is asked. *)
From stdpp Require Import base option list numbers sets.
From S2P Require Import Prelude PrxTypes UtilString UtilInt UtilKey.
Import PrxTypes UtilString UtilInt UtilKey.
Open Scope Z_scope.

Module PalNet.

(** ** The numbers of the protocol (src/inc/prx_types.h) *)

Definition prx_socket_type_stream : Z := 1.
Definition prx_socket_type_dgram : Z := 2.
Definition prx_socket_type_raw : Z := 3.
Definition prx_socket_type_rdm : Z := 4.
Definition prx_socket_type_seqpacket : Z := 5.
Definition prx_protocol_type_unspecified : Z := 0.
Definition prx_protocol_type_icmp : Z := 1.
Definition prx_protocol_type_tcp : Z := 6.
Definition prx_protocol_type_udp : Z := 17.
Definition prx_protocol_type_icmpv6 : Z := 58.
Definition prx_ni_flag_namereqd : Z := 1.
Definition prx_ni_flag_numeric : Z := 16.
Definition prx_ai_passive : Z := 1.
Definition prx_shutdown_op_read : Z := 0.
Definition prx_shutdown_op_write : Z := 1.
Definition prx_shutdown_op_both : Z := 2.
Definition prx_msg_flag_oob : Z := 1.
Definition prx_msg_flag_peek : Z := 2.
Definition prx_msg_flag_dontroute : Z := 4.
Definition prx_msg_flag_trunc : Z := 256.
Definition prx_msg_flag_ctrunc : Z := 512.
Definition prx_so_debug : Z := 4.
Definition prx_so_acceptconn : Z := 5.
Definition prx_so_reuseaddr : Z := 6.
Definition prx_so_keepalive : Z := 7.
Definition prx_so_dontroute : Z := 8.
Definition prx_so_broadcast : Z := 9.
Definition prx_so_linger : Z := 10.
Definition prx_so_oobinline : Z := 11.
Definition prx_so_sndbuf : Z := 12.
Definition prx_so_rcvbuf : Z := 13.
Definition prx_so_sndlowat : Z := 14.
Definition prx_so_rcvlowat : Z := 15.
Definition prx_so_sndtimeo : Z := 16.
Definition prx_so_rcvtimeo : Z := 17.
Definition prx_so_error : Z := 18.
Definition prx_so_type : Z := 19.
Definition prx_so_ip_options : Z := 20.
Definition prx_so_ip_hdrincl : Z := 21.
Definition prx_so_ip_tos : Z := 22.
Definition prx_so_ip_ttl : Z := 23.
Definition prx_so_ip_multicast_ttl : Z := 24.
Definition prx_so_ip_multicast_loop : Z := 25.
Definition prx_so_ip_pktinfo : Z := 26.
Definition prx_so_ipv6_hoplimit : Z := 27.
Definition prx_so_ipv6_protection_level : Z := 28.
Definition prx_so_ipv6_v6only : Z := 29.
Definition prx_so_tcp_nodelay : Z := 30.

(** ** The numbers of the system *)

Class os_constants := {
  AF_UNSPEC : Z; AF_UNIX : Z; AF_INET : Z; AF_INET6 : Z; SOCK_DGRAM : Z;
  SOCK_STREAM : Z; SOCK_RAW : Z; SOCK_RDM : Z; SOCK_SEQPACKET : Z; IPPROTO_IP : Z;
  IPPROTO_IPV6 : Z; IPPROTO_TCP : Z; IPPROTO_UDP : Z; IPPROTO_ICMP : Z; IPPROTO_ICMPV6 : Z;
  SHUT_RD : Z; SHUT_WR : Z; SHUT_RDWR : Z; SOL_SOCKET : Z; SO_DEBUG : Z;
  SO_ACCEPTCONN : Z; SO_REUSEADDR : Z; SO_KEEPALIVE : Z; SO_DONTROUTE : Z; SO_BROADCAST : Z;
  SO_LINGER : Z; SO_OOBINLINE : Z; SO_SNDBUF : Z; SO_RCVBUF : Z; SO_SNDLOWAT : Z;
  SO_RCVLOWAT : Z; SO_SNDTIMEO : Z; SO_RCVTIMEO : Z; SO_ERROR : Z; SO_TYPE : Z;
  IP_OPTIONS : Z; IP_HDRINCL : Z; IP_TOS : Z; IP_TTL : Z; IP_MULTICAST_TTL : Z;
  IP_MULTICAST_LOOP : Z; IP_PKTINFO : Z; IPV6_HOPLIMIT : Z; IPV6_V6ONLY : Z; MSG_OOB : Z;
  MSG_PEEK : Z; MSG_DONTROUTE : Z; MSG_TRUNC : Z; MSG_CTRUNC : Z; EAI_AGAIN : Z;
  EAI_BADFLAGS : Z; EAI_FAMILY : Z; EAI_NONAME : Z; EAI_NODATA : Z; EAI_FAIL : Z;
  EAI_ADDRFAMILY : Z; HOST_NOT_FOUND : Z; TRY_AGAIN : Z; NO_RECOVERY : Z; NO_DATA : Z;
  NI_NAMEREQD : Z; NI_NUMERICHOST : Z; NI_NUMERICSERV : Z; AI_PASSIVE : Z; AI_CANONNAME : Z;
  AI_NUMERICHOST : Z; TCP_NODELAY : Z; sizeof_family : Z; sizeof_in : Z; sizeof_in6 : Z;
  sizeof_un : Z; sizeof_sun_path : Z;
}.
Class os_laws `{os_constants} : Prop := {
  families_differ : NoDup [AF_UNSPEC; AF_UNIX; AF_INET; AF_INET6];
  types_differ : NoDup [SOCK_DGRAM; SOCK_STREAM; SOCK_RAW; SOCK_RDM; SOCK_SEQPACKET];
  protocols_differ : NoDup [IPPROTO_TCP; IPPROTO_UDP; IPPROTO_ICMP; IPPROTO_ICMPV6; 0];
  shutdowns_differ : NoDup [SHUT_RD; SHUT_WR; SHUT_RDWR];
  levels_differ : NoDup [SOL_SOCKET; IPPROTO_IP; IPPROTO_IPV6; IPPROTO_TCP];
  so_differ : NoDup [SO_DEBUG; SO_ACCEPTCONN; SO_REUSEADDR; SO_KEEPALIVE; SO_DONTROUTE; SO_BROADCAST; SO_LINGER; SO_OOBINLINE; SO_SNDBUF; SO_RCVBUF; SO_SNDLOWAT; SO_RCVLOWAT; SO_SNDTIMEO; SO_RCVTIMEO; SO_ERROR; SO_TYPE];
  ip_differ : NoDup [IP_OPTIONS; IP_HDRINCL; IP_TOS; IP_TTL; IP_MULTICAST_TTL; IP_MULTICAST_LOOP; IP_PKTINFO];
  ipv6_differ : NoDup [IPV6_HOPLIMIT; IPV6_V6ONLY];
  msg_bits : exists ks, [MSG_OOB; MSG_PEEK; MSG_DONTROUTE; MSG_TRUNC; MSG_CTRUNC] = Z.pow 2 <$> ks /\ NoDup ks /\ Forall (Z.le 0) ks;
  sizes : 0 < sizeof_family < sizeof_un /\ sizeof_in <= 127 /\ sizeof_in6 <= 127 /\ sizeof_un <= 127 /\
    sizeof_family <= sizeof_in /\ sizeof_family <= sizeof_in6 /\ sizeof_sun_path = MAX_UNIX_PATH_LENGTH;
}.

(** ** Switches *)

(** A switch whose cases set a number, with an error by default. *)
Fixpoint switch (cases : list (Z * Z)) (x : Z) (e : prx_error) : res Z :=
  match cases with
  | [] => Err e
  | (c, r) :: cases => if bool_decide (x = c) then Ok r else switch cases x e
  end.

(** Flags that are tested one after the other. *)
Definition convert_flags (cases : list (Z * Z)) (flags : Z) : Z :=
  foldl (fun acc c => if bool_decide (fst c = Z.land flags (fst c)) then Z.lor acc (snd c) else acc) 0 cases.
Definition mask (l : list Z) : Z := foldr Z.lor 0 l.

Section Net.
Context `{OS : os_constants}.

Definition pal_os_to_prx_gai_error (error : Z) : prx_error :=
  if bool_decide (error = 0) then er_ok
  else if bool_decide (error = EAI_AGAIN) then er_retry
  else if bool_decide (error = EAI_BADFLAGS) then er_bad_flags
  else if bool_decide (error = EAI_FAMILY) then er_address_family
  else if bool_decide (error = EAI_NONAME) then er_host_unknown
  else if bool_decide (error = EAI_NODATA) then er_host_unknown
  else if bool_decide (error = EAI_FAIL) then er_fatal
  else if bool_decide (error = EAI_ADDRFAMILY) then er_address_family
  else er_unknown.

Definition pal_os_from_prx_gai_error (error : prx_error) : Z :=
  match error with
  | er_ok => 0
  | er_retry => EAI_AGAIN
  | er_bad_flags => EAI_BADFLAGS
  | er_address_family => EAI_FAMILY
  | er_fatal => EAI_FAIL
  | er_host_unknown => EAI_NONAME
  | _ => EAI_NONAME
  end.

Definition pal_os_to_prx_h_error (error : Z) : prx_error :=
  if bool_decide (error = HOST_NOT_FOUND) then er_no_host
  else if bool_decide (error = TRY_AGAIN) then er_retry
  else if bool_decide (error = NO_RECOVERY) then er_fatal
  else if bool_decide (error = NO_DATA) then er_no_address
  else er_unknown.

Definition pal_os_from_prx_h_error (error : prx_error) : Z :=
  match error with
  | er_retry => TRY_AGAIN
  | er_fatal => NO_RECOVERY
  | er_no_address => NO_DATA
  | er_no_host => HOST_NOT_FOUND
  | _ => HOST_NOT_FOUND
  end.

(** ** Flags *)

Definition pal_os_from_prx_client_getnameinfo_flags (flags : Z) : res Z :=
  if bool_decide (Z.land flags (Z.lnot prx_ni_flag_namereqd) <> 0) then Err er_arg
  else Ok (convert_flags [(prx_ni_flag_namereqd, NI_NAMEREQD)] flags).
Definition pal_os_to_prx_client_getnameinfo_flags (flags : Z) : res Z :=
  if bool_decide (Z.land flags (Z.lnot NI_NAMEREQD) <> 0) then Err er_not_supported
  else Ok (convert_flags [(NI_NAMEREQD, prx_ni_flag_namereqd)] flags).

Definition pal_os_from_prx_message_flags (flags : Z) : res Z :=
  if bool_decide (Z.land flags (Z.lnot (mask [prx_msg_flag_oob; prx_msg_flag_peek; prx_msg_flag_dontroute;
                                               prx_msg_flag_trunc; prx_msg_flag_ctrunc])) <> 0) then Err er_arg
  else Ok (convert_flags [(prx_msg_flag_oob, MSG_OOB); (prx_msg_flag_peek, MSG_PEEK); (prx_msg_flag_dontroute, MSG_DONTROUTE);
                          (prx_msg_flag_trunc, MSG_TRUNC); (prx_msg_flag_ctrunc, MSG_CTRUNC)] flags).
Definition pal_os_to_prx_message_flags (flags : Z) : res Z :=
  if bool_decide (Z.land flags (Z.lnot (mask [MSG_OOB; MSG_PEEK; MSG_DONTROUTE; MSG_TRUNC; MSG_CTRUNC])) <> 0) then Err er_not_supported
  else Ok (convert_flags [(MSG_OOB, prx_msg_flag_oob); (MSG_PEEK, prx_msg_flag_peek); (MSG_DONTROUTE, prx_msg_flag_dontroute);
                          (MSG_TRUNC, prx_msg_flag_trunc); (MSG_CTRUNC, prx_msg_flag_ctrunc)] flags).

Definition pal_os_to_prx_client_getaddrinfo_flags (flags : Z) : res Z :=
  if bool_decide (Z.land flags (Z.lnot (mask [AI_CANONNAME; AI_PASSIVE])) <> 0) then Err er_not_supported
  else Ok (convert_flags [(AI_PASSIVE, prx_ai_passive)] flags).
Definition pal_os_from_prx_client_getaddrinfo_flags (flags : Z) : res Z :=
  if bool_decide (Z.land flags (Z.lnot prx_ai_passive) <> 0) then Err er_arg
  else Ok (convert_flags [(prx_ai_passive, AI_PASSIVE)] flags).

(** ** Enumerations *)

Definition pal_os_to_prx_shutdown_op (op : Z) : res Z :=
  switch [(SHUT_RD, prx_shutdown_op_read); (SHUT_WR, prx_shutdown_op_write); (SHUT_RDWR, prx_shutdown_op_both)] op er_arg.
Definition pal_os_from_prx_shutdown_op (op : Z) : res Z :=
  switch [(prx_shutdown_op_read, SHUT_RD); (prx_shutdown_op_write, SHUT_WR); (prx_shutdown_op_both, SHUT_RDWR)] op er_arg.

Definition pal_os_to_prx_address_family (af : Z) : res Z :=
  switch [(AF_UNSPEC, prx_address_family_unspec); (AF_UNIX, prx_address_family_unix); (AF_INET, prx_address_family_inet);
          (AF_INET6, prx_address_family_inet6)] af er_not_supported.
Definition pal_os_from_prx_address_family (af : Z) : res Z :=
  switch [(prx_address_family_unspec, AF_UNSPEC); (prx_address_family_unix, AF_UNIX); (prx_address_family_inet, AF_INET);
          (prx_address_family_inet6, AF_INET6)] af er_arg.

Definition pal_os_to_prx_protocol_type (proto : Z) : res Z :=
  switch [(IPPROTO_TCP, prx_protocol_type_tcp); (IPPROTO_UDP, prx_protocol_type_udp); (IPPROTO_ICMP, prx_protocol_type_icmp);
          (IPPROTO_ICMPV6, prx_protocol_type_icmpv6); (0, prx_protocol_type_unspecified)] proto er_not_supported.
Definition pal_os_from_prx_protocol_type (proto : Z) : res Z :=
  switch [(prx_protocol_type_tcp, IPPROTO_TCP); (prx_protocol_type_udp, IPPROTO_UDP); (prx_protocol_type_icmp, IPPROTO_ICMP);
          (prx_protocol_type_icmpv6, IPPROTO_ICMPV6); (prx_protocol_type_unspecified, 0)] proto er_arg.

Definition pal_os_to_prx_socket_type (type : Z) : res Z :=
  switch [(SOCK_DGRAM, prx_socket_type_dgram); (SOCK_STREAM, prx_socket_type_stream); (SOCK_RAW, prx_socket_type_raw);
          (SOCK_RDM, prx_socket_type_rdm); (SOCK_SEQPACKET, prx_socket_type_seqpacket)] type er_not_supported.
Definition pal_os_from_prx_socket_type (type : Z) : res Z :=
  switch [(prx_socket_type_dgram, SOCK_DGRAM); (prx_socket_type_stream, SOCK_STREAM); (prx_socket_type_raw, SOCK_RAW);
          (prx_socket_type_rdm, SOCK_RDM); (prx_socket_type_seqpacket, SOCK_SEQPACKET)] type er_arg.

(** ** Socket options *)

(** The switches on the names, by level. *)
Definition so_cases : list (Z * Z) :=
  [(SO_DEBUG, prx_so_debug); (SO_ACCEPTCONN, prx_so_acceptconn); (SO_REUSEADDR, prx_so_reuseaddr); (SO_KEEPALIVE, prx_so_keepalive); (SO_DONTROUTE, prx_so_dontroute); (SO_BROADCAST, prx_so_broadcast); (SO_LINGER, prx_so_linger); (SO_OOBINLINE, prx_so_oobinline); (SO_SNDBUF, prx_so_sndbuf); (SO_RCVBUF, prx_so_rcvbuf); (SO_SNDLOWAT, prx_so_sndlowat); (SO_RCVLOWAT, prx_so_rcvlowat); (SO_SNDTIMEO, prx_so_sndtimeo); (SO_RCVTIMEO, prx_so_rcvtimeo); (SO_ERROR, prx_so_error); (SO_TYPE, prx_so_type)].
Definition ip_cases : list (Z * Z) :=
  [(IP_OPTIONS, prx_so_ip_options); (IP_HDRINCL, prx_so_ip_hdrincl); (IP_TOS, prx_so_ip_tos); (IP_TTL, prx_so_ip_ttl); (IP_MULTICAST_TTL, prx_so_ip_multicast_ttl); (IP_MULTICAST_LOOP, prx_so_ip_multicast_loop); (IP_PKTINFO, prx_so_ip_pktinfo)].
Definition ipv6_cases : list (Z * Z) := [(IPV6_HOPLIMIT, prx_so_ipv6_hoplimit); (IPV6_V6ONLY, prx_so_ipv6_v6only)].
Definition tcp_cases : list (Z * Z) := [(TCP_NODELAY, prx_so_tcp_nodelay)].

Definition pal_os_to_prx_socket_option (opt_lvl opt_name : Z) : res Z :=
  if bool_decide (opt_lvl = SOL_SOCKET) then switch so_cases opt_name er_not_supported
  else if bool_decide (opt_lvl = IPPROTO_IP) then switch ip_cases opt_name er_not_supported
  else if bool_decide (opt_lvl = IPPROTO_IPV6) then switch ipv6_cases opt_name er_not_supported
  else if bool_decide (opt_lvl = IPPROTO_TCP) then switch tcp_cases opt_name er_not_supported
  else Err er_not_supported.

(** The switches in the other direction, tried one after the other. *)
Definition from_so : list (Z * Z) :=
  [(prx_so_debug, SO_DEBUG); (prx_so_acceptconn, SO_ACCEPTCONN); (prx_so_reuseaddr, SO_REUSEADDR); (prx_so_keepalive, SO_KEEPALIVE); (prx_so_dontroute, SO_DONTROUTE); (prx_so_broadcast, SO_BROADCAST); (prx_so_linger, SO_LINGER); (prx_so_oobinline, SO_OOBINLINE); (prx_so_sndbuf, SO_SNDBUF); (prx_so_rcvbuf, SO_RCVBUF); (prx_so_sndlowat, SO_SNDLOWAT); (prx_so_rcvlowat, SO_RCVLOWAT); (prx_so_sndtimeo, SO_SNDTIMEO); (prx_so_rcvtimeo, SO_RCVTIMEO); (prx_so_error, SO_ERROR); (prx_so_type, SO_TYPE)].
Definition from_ip : list (Z * Z) :=
  [(prx_so_ip_options, IP_OPTIONS); (prx_so_ip_hdrincl, IP_HDRINCL); (prx_so_ip_tos, IP_TOS); (prx_so_ip_ttl, IP_TTL); (prx_so_ip_multicast_ttl, IP_MULTICAST_TTL); (prx_so_ip_multicast_loop, IP_MULTICAST_LOOP); (prx_so_ip_pktinfo, IP_PKTINFO)].
Definition from_ipv6 : list (Z * Z) := [(prx_so_ipv6_hoplimit, IPV6_HOPLIMIT); (prx_so_ipv6_v6only, IPV6_V6ONLY)].
Definition from_tcp : list (Z * Z) := [(prx_so_tcp_nodelay, TCP_NODELAY)].

Definition pal_os_from_prx_socket_option (socket_option : Z) : res (Z * Z) :=
  match switch from_so socket_option er_not_supported with
  | Ok opt_name => Ok (SOL_SOCKET, opt_name)
  | _ =>
      match switch from_ip socket_option er_not_supported with
      | Ok opt_name => Ok (IPPROTO_IP, opt_name)
      | _ =>
          match switch from_ipv6 socket_option er_not_supported with
          | Ok opt_name => Ok (IPPROTO_IPV6, opt_name)
          | _ => opt_name ← switch from_tcp socket_option er_not_supported; Ok (IPPROTO_TCP, opt_name)
          end
      end
  end.

(** ** Socket addresses *)

(** [struct sockaddr]: the structures of the families; ports are in network byte order.
    [os_family]: only the family is there. *)
Inductive sockaddr :=
| sockaddr_in (sin_port : Z) (s_addr : bytes)
| sockaddr_in6 (sin6_port sin6_flowinfo sin6_scope_id : Z) (s6_addr : bytes)
| sockaddr_un (sun_path : bytes)
| os_family (sa_family : Z).
Definition sa_family (sa : sockaddr) : Z :=
  match sa with
  | sockaddr_in _ _ => AF_INET
  | sockaddr_in6 _ _ _ _ => AF_INET6
  | sockaddr_un _ => AF_UNIX
  | os_family f => f
  end.

Definition swap_16 (s : Z) : Z := Z.lor (Z.land (Z.shiftr s 8) 255) (Z.land (Z.shiftl s 8) 65280).

(** The address and its length. *)
Definition pal_os_from_prx_socket_address (prx_address : option prx_socket_address) (sa_len : Z) : res (sockaddr * Z) :=
  match prx_address with
  | None => Err er_fault
  | Some a =>
      let family := un_family a in
      if bool_decide (family = prx_address_family_inet) then
        if bool_decide (sa_len < sizeof_in) then Err er_fault
        else Ok (sockaddr_in (swap_16 (ip_port (as_ip a))) (as_in4 (ip_un (as_ip a))), sizeof_in)
      else if bool_decide (family = prx_address_family_inet6) then
        if bool_decide (sa_len < sizeof_in6) then Err er_fault
        else Ok (sockaddr_in6 (swap_16 (ip_port (as_ip a))) (ip_flow (as_ip a)) (as_scope_id (ip_un (as_ip a)))
                   (as_in6 (ip_un (as_ip a))), sizeof_in6)
      else if bool_decide (family = prx_address_family_unix) then
        if bool_decide (sa_len = sizeof_family /\ head (as_ux a) = Some 0) then Ok (os_family AF_UNIX, sa_len)
        else if bool_decide (sa_len < sizeof_un) then Err er_fault
        else if bool_decide (sizeof_sun_path <= zlen (cstr (as_ux a))) then Err er_arg
        else Ok (sockaddr_un (char_array sizeof_sun_path (cstr (as_ux a))), sizeof_un)
      else Err er_not_supported
  end.

(** [strcpy] over the bytes that are in the array. *)
Definition copy_over (old s : bytes) : bytes := s ++ [0] ++ drop (S (length s)) old.

(** The members that are not set keep what was in the structure, [old]. *)
Definition pal_os_to_prx_socket_address (sa : sockaddr) (sa_len : Z) (old : prx_socket_address) : res prx_socket_address :=
  if bool_decide (sa_len < sizeof_family) then Err er_fault
  else
    family ← pal_os_to_prx_address_family (sa_family sa);
    if bool_decide (family = prx_address_family_inet) then
      if bool_decide (sa_len < sizeof_in) then Err er_fault
      else match sa with
           | sockaddr_in port addr => Ok (sa_ip {| ip_family := family; ip_port := swap_16 port; ip_flow := 0; ip_un := in4 addr |})
           | _ => UB
           end
    else if bool_decide (family = prx_address_family_inet6) then
      if bool_decide (sa_len < sizeof_in6) then Err er_fault
      else match sa with
           | sockaddr_in6 port flow scope addr =>
               Ok (sa_ip {| ip_family := family; ip_port := swap_16 port; ip_flow := flow; ip_un := in6 addr scope |})
           | _ => UB
           end
    else if bool_decide (family = prx_address_family_unix) then
      if bool_decide (sa_len = sizeof_family) then Ok (sa_ux (0 :: drop 1 (as_ux old)))
      else if bool_decide (sa_len < sizeof_un) then Err er_fault
      else match sa with
           | sockaddr_un path =>
               if bool_decide (MAX_UNIX_PATH_LENGTH <= zlen (cstr path)) then Err er_arg
               else Ok (sa_ux (copy_over (as_ux old) (cstr path)))
           | _ => UB
           end
    else Err er_not_supported.

(** ** The resolver *)

(** [struct addrinfo]. *)
Record addrinfo := Addrinfo { ai_addr : sockaddr; ai_addrlen : Z; ai_canonname : option bytes }.

(** [getaddrinfo], given how often it was called: an error, or a list.  [getnameinfo]: an
    error, or the names. *)
Variable getaddrinfo : nat -> option bytes -> option bytes -> Z -> Z -> Z * list addrinfo.
Variable getnameinfo : sockaddr -> Z -> Z -> Z * (bytes * bytes).

Definition GAI_MAX_ATTEMPTS : Z := 3.

(** The loop around [getaddrinfo]: again with the other family, and again up to three
    times when the resolver asks for it.  [None]: out of fuel. *)
Fixpoint gai_loop (fuel : nat) (calls : nat) (address service : option bytes) (family flags attempt : Z) :
    option (res (list addrinfo)) :=
  match fuel with
  | O => None
  | S fuel =>
      let '(result, info) := getaddrinfo calls address service family flags in
      if bool_decide (result = 0) then Some (Ok info)
      else if bool_decide ((result = EAI_ADDRFAMILY \/ result = EAI_FAMILY) /\ family = AF_INET)
      then gai_loop fuel (S calls) address service AF_INET6 flags attempt
      else if bool_decide (result <> EAI_AGAIN \/ attempt >= GAI_MAX_ATTEMPTS) then Some (Err (pal_os_to_prx_gai_error result))
      else gai_loop fuel (S calls) address service family flags (attempt + 1)
  end.

(** Whether a name can be copied, given which. *)
Variable mem : nat -> bool.

(** The slot of the array, whose bytes [old] are those a failed conversion left. *)
Definition pal_os_to_prx_addrinfo (i : nat) (ai : addrinfo) (old : prx_socket_address) :
    res (prx_socket_address * option bytes) :=
  address ← pal_os_to_prx_socket_address (ai_addr ai) (ai_addrlen ai) old;
  name ← (match ai_canonname ai with Some n => if mem i then Ok (Some n) else Err er_out_of_memory | None => Ok None end);
  Ok (address, name).

(** What a conversion that failed leaves in the slot: the family is written before the
    lengths are checked. *)
Definition with_family (family : Z) (old : prx_socket_address) : prx_socket_address :=
  if bool_decide (family = prx_address_family_unspec) then sa_unspec
  else if bool_decide (family = prx_address_family_unix) then sa_ux (as_ux old)
  else sa_ip {| ip_family := family; ip_port := ip_port (as_ip old); ip_flow := ip_flow (as_ip old); ip_un := ip_un (as_ip old) |}.
Definition failed_slot (ai : addrinfo) (old : prx_socket_address) : prx_socket_address :=
  match pal_os_to_prx_socket_address (ai_addr ai) (ai_addrlen ai) old with
  | Ok a => a
  | _ => if bool_decide (ai_addrlen ai < sizeof_family) then old
         else match pal_os_to_prx_address_family (sa_family (ai_addr ai)) with Ok family => with_family family old | _ => old end
  end.

(** The elements that were copied, the slot after them, and the result of the last. *)
Fixpoint copy_addrinfos (i : nat) (l : list addrinfo) (result : prx_error) (out : list (prx_addrinfo (option bytes)))
    (slot : prx_socket_address) : res (prx_error * list (prx_addrinfo (option bytes)) * prx_socket_address) :=
  match l with
  | [] => Ok (result, out, slot)
  | ai :: l =>
      match pal_os_to_prx_addrinfo i ai slot with
      | Ok (address, name) => copy_addrinfos (S i) l er_ok (out ++ [mk_addrinfo address 1 name]) sa_unspec
      | Err e => copy_addrinfos (S i) l e out (failed_slot ai slot)
      | UB => UB
      end
  end.

Definition null_addrinfo (address : prx_socket_address) : prx_addrinfo (option bytes) := mk_addrinfo address 0 None.

(** The array and how many of its elements are set; [alloc]: whether there is memory
    for the array. *)
Definition pal_getaddrinfo (fuel : nat) (alloc : bool) (address service : option bytes) (family flags : Z) :
    option (res (list (prx_addrinfo (option bytes)) * nat)) :=
  match pal_os_from_prx_address_family family with
  | Ok family =>
      match pal_os_from_prx_client_getaddrinfo_flags flags with
      | Ok flags =>
          match gai_loop fuel 0 address service family (Z.lor flags AI_CANONNAME) 0 with
          | None => None
          | Some (Ok info) =>
              Some (if bool_decide (info = []) then Err er_not_found
                    else if negb alloc then Err er_out_of_memory
                    else
                      '(result, out, slot) ← copy_addrinfos 0 info er_ok [] sa_unspec;
                      if bool_decide (out = []) then Err (if bool_decide (result <> er_ok) then result else er_not_found)
                      else Ok (out ++ null_addrinfo slot :: replicate (length info - length out) (null_addrinfo sa_unspec),
                               length out))
          | Some (Err e) => Some (Err e)
          | Some UB => Some UB
          end
      | Err e => Some (Err e)
      | UB => Some UB
      end
  | Err e => Some (Err e)
  | UB => Some UB
  end.

(** The names that are freed; the array is read up to the first element that is not
    set. *)
Fixpoint pal_freeaddrinfo (info : list (prx_addrinfo (option bytes))) : res (list bytes) :=
  match info with
  | [] => UB
  | ai :: info =>
      if bool_decide (ai_reserved ai = 0) then Ok []
      else names ← pal_freeaddrinfo info; Ok (match ai_name ai with Some n => n :: names | None => names end)
  end.

Definition MAX_SOCKET_ADDRESS_BYTES : Z := 127.

Definition pal_getnameinfo (address : option prx_socket_address) (flags : Z) : res (bytes * bytes) :=
  match address with
  | None => Err er_fault
  | Some address =>
      '(sa, sa_len) ← pal_os_from_prx_socket_address (Some address) MAX_SOCKET_ADDRESS_BYTES;
      plat_flags ← (if bool_decide (flags = prx_ni_flag_numeric) then Ok (Z.lor NI_NUMERICHOST NI_NUMERICSERV)
                    else pal_os_from_prx_client_getnameinfo_flags flags);
      let '(result, names) := getnameinfo sa sa_len plat_flags in
      if bool_decide (result <> 0) then Err (pal_os_to_prx_gai_error result) else Ok names
  end.

(** The first address of the list. *)
Definition pal_pton (addr_string : option bytes) (old : prx_socket_address) : res prx_socket_address :=
  match addr_string with
  | None => Err er_fault
  | Some s =>
      let '(result, info) := getaddrinfo 0 (Some s) None AF_UNSPEC AI_NUMERICHOST in
      if bool_decide (result <> 0) then Err (pal_os_to_prx_gai_error result)
      else match info with
           | ai :: _ => pal_os_to_prx_socket_address (ai_addr ai) (ai_addrlen ai) old
           | [] => UB
           end
  end.

Definition pal_ntop (address : option prx_socket_address) : res bytes :=
  '(addr_string, _) ← pal_getnameinfo address prx_ni_flag_numeric; Ok addr_string.

(** ** Numbers *)

Definition flip (cases : list (Z * Z)) : list (Z * Z) := prod_swap <$> cases.

(** The two numbers of a case are found from each other. *)
Lemma switch_flip cases x y e e' : NoDup (snd <$> cases) ->
  switch cases x e = Ok y -> switch (flip cases) y e' = Ok x.
Proof.
  induction cases as [|[c r] cases IH]; [done|]. cbn. intros [Hr Hd]%list.NoDup_cons.
  case_bool_decide as Hx; [intros [= ->]; subst; by rewrite bool_decide_eq_true_2|].
  intros E. rewrite bool_decide_eq_false_2; [by apply IH|]. intros ->. apply Hr. clear -E.
  induction cases as [|[c' r'] cases IH]; [done|]. cbn in E |- *. case_bool_decide; set_solver.
Qed.

Lemma switch_in cases x y e : switch cases x e = Ok y -> (x, y) ∈ cases.
Proof.
  induction cases as [|[c r] cases IH]; [done|]. cbn. case_bool_decide; [|set_solver].
  intros [= ->]. subst. set_solver.
Qed.

Lemma pow2_bit k n : 0 <= k -> 0 <= n -> Z.testbit (2 ^ k) n = bool_decide (n = k).
Proof.
  intros Hk Hn. case_bool_decide as E; [subst; by apply Z.pow2_bits_true|]. by apply Z.pow2_bits_false.
Qed.

Lemma has_flag f k : 0 <= k -> bool_decide (2 ^ k = Z.land f (2 ^ k)) = Z.testbit f k.
Proof.
  intros Hk. destruct (Z.testbit f k) eqn:E.
  - apply bool_decide_eq_true_2. apply Z.bits_inj'. intros n Hn. rewrite Z.land_spec, pow2_bit by done.
    case_bool_decide; [|by destruct (Z.testbit f n)]. by subst; rewrite E.
  - apply bool_decide_eq_false_2. intros H. apply (f_equal (fun x => Z.testbit x k)) in H.
    rewrite Z.land_spec, Z.pow2_bits_true, E in H; done.
Qed.

(** Flags of the given bits. *)
Definition bits (ks : list (Z * Z)) : list (Z * Z) := (fun k => (2 ^ fst k, 2 ^ snd k)) <$> ks.
Definition wf_bits (ks : list (Z * Z)) : Prop :=
  Forall (fun k => 0 <= fst k /\ 0 <= snd k) ks /\ NoDup (fst <$> ks) /\ NoDup (snd <$> ks).

Lemma convert_bit ks f n : Forall (fun k => 0 <= fst k /\ 0 <= snd k) ks -> 0 <= n ->
  Z.testbit (convert_flags (bits ks) f) n = true <-> exists a, (a, n) ∈ ks /\ Z.testbit f a = true.
Proof.
  intros Hk Hn. unfold convert_flags.
  enough (forall acc, Z.testbit (foldl (fun acc c => if bool_decide (fst c = Z.land f (fst c)) then Z.lor acc (snd c) else acc) acc (bits ks)) n = true <->
    Z.testbit acc n = true \/ exists a, (a, n) ∈ ks /\ Z.testbit f a = true) as ->.
  { rewrite Z.bits_0. naive_solver. }
  induction Hk as [|[a b] ks [Ha Hb] Hk IH]; intros acc; cbn -[Z.pow]; [set_solver|].
  rewrite IH, has_flag by done. cbn in Ha, Hb. setoid_rewrite elem_of_cons. destruct (Z.testbit f a) eqn:E.
  - rewrite Z.lor_spec, orb_true_iff, pow2_bit, bool_decide_eq_true by done. naive_solver.
  - split; [naive_solver|]. intros [?|(x & [[= -> ->]|?] & ?)]; [by left|congruence|]. right; eauto.
Qed.

Lemma mask_bit ks n : Forall (Z.le 0) ks -> 0 <= n -> Z.testbit (mask (Z.pow 2 <$> ks)) n = bool_decide (n ∈ ks).
Proof.
  intros Hk Hn. induction Hk as [|k ks Hk1 Hk IH]; cbn -[Z.pow]; [by rewrite Z.bits_0|].
  fold (mask (Z.pow 2 <$> ks)). rewrite Z.lor_spec, IH, pow2_bit by done.
  apply eq_true_iff_eq. rewrite orb_true_iff, !bool_decide_eq_true. set_solver.
Qed.

Lemma no_other_bit ks f n : Forall (Z.le 0) ks -> 0 <= n ->
  Z.land f (Z.lnot (mask (Z.pow 2 <$> ks))) = 0 -> Z.testbit f n = true -> n ∈ ks.
Proof.
  intros Hk Hn H0 Hb. apply (f_equal (fun x => Z.testbit x n)) in H0.
  rewrite Z.land_spec, Z.lnot_spec, mask_bit, Hb, Z.bits_0 in H0 by done. cbn in H0.
  apply negb_false_iff in H0. by apply bool_decide_eq_true in H0.
Qed.

Lemma flags_roundtrip ks f : wf_bits ks ->
  Z.land f (Z.lnot (mask (Z.pow 2 <$> (fst <$> ks)))) = 0 ->
  convert_flags (bits (flip ks)) (convert_flags (bits ks) f) = f /\
  Z.land (convert_flags (bits ks) f) (Z.lnot (mask (Z.pow 2 <$> (snd <$> ks)))) = 0.
Proof.
  intros (Hk & Hd & Hd') H0.
  assert (Forall (fun k => 0 <= fst k /\ 0 <= snd k) (flip ks)) as Hk'.
  { unfold flip. apply Forall_fmap. eapply Forall_impl; [exact Hk|]. by intros [] []. }
  split.
  - apply Z.bits_inj'. intros n Hn. apply eq_true_iff_eq. rewrite convert_bit by done. split.
    + intros (b & Hin & Hb). apply list_elem_of_fmap in Hin as ([a b'] & [= -> ->] & Hin).
      apply convert_bit in Hb as (a' & Hin' & Ha); [|done|].
      2:{ rewrite Forall_forall in Hk. by apply (Hk (a, b')). }
      enough (a = a') by congruence.
      apply list_elem_of_lookup in Hin as (i & Hi), Hin' as (j & Hj).
      assert (i = j) as <-; [|congruence].
      eapply NoDup_lookup; [exact Hd'|by rewrite list_lookup_fmap, Hi|by rewrite list_lookup_fmap, Hj].
    + intros Hb. assert (n ∈ fst <$> ks) as Hin.
      { eapply no_other_bit; eauto. apply Forall_fmap. eapply Forall_impl; [exact Hk|]. by intros [] []. }
      apply list_elem_of_fmap in Hin as ([a b] & -> & Hin). exists b. split.
      { unfold flip. apply list_elem_of_fmap. by exists (a, b). }
      apply convert_bit; [done| |by exists a]. rewrite Forall_forall in Hk. by apply (Hk (a, b)).
  - assert (Forall (Z.le 0) (snd <$> ks)) as Hs.
    { apply Forall_fmap. eapply Forall_impl; [exact Hk|]. by intros [] []. }
    apply Z.bits_inj'. intros n Hn. rewrite Z.land_spec, Z.lnot_spec, Z.bits_0, mask_bit by done.
    apply andb_false_iff. destruct (Z.testbit _ n) eqn:E; [|by left]. right.
    apply convert_bit in E as (a & Hin & _); [|done|done]. apply negb_false_iff, bool_decide_eq_true_2.
    apply list_elem_of_fmap. by exists (a, n).
Qed.

Context {LAWS : os_laws}.

Lemma message_flags_roundtrip f g : pal_os_from_prx_message_flags f = Ok g -> pal_os_to_prx_message_flags g = Ok f.
Proof.
  destruct msg_bits as (ks & Hks & Hd & Hn).
  do 6 (destruct ks as [|? ks]; [try discriminate Hks|]); [|discriminate Hks].
  set (ks := zip [0; 1; 2; 8; 9] [z; z0; z1; z2; z3]).
  assert (wf_bits ks) as Hwf.
  { split; [|split].
    - clear -Hn. repeat (match goal with H : Forall _ (_ :: _) |- _ => apply Forall_cons_1 in H as [? ?] end).
      repeat constructor; cbn; lia.
    - repeat constructor; set_solver by lia.
    - exact Hd. }
  destruct (decide (Z.land f (Z.lnot (mask (Z.pow 2 <$> (fst <$> ks)))) = 0)) as [H0|H0].
  2:{ unfold pal_os_from_prx_message_flags. rewrite bool_decide_eq_true_2; [done|exact H0]. }
  destruct (flags_roundtrip ks f Hwf H0) as [E1 E2]. injection Hks as E3 E4 E5 E6 E7.
  unfold pal_os_from_prx_message_flags, pal_os_to_prx_message_flags. rewrite E3, E4, E5, E6, E7.
  rewrite bool_decide_eq_false_2 by (intros Hx; by apply Hx). intros [= <-].
  rewrite bool_decide_eq_false_2 by (intros Hx; by apply Hx). by f_equal.
Qed.

Lemma socket_option_roundtrip o l n : pal_os_from_prx_socket_option o = Ok (l, n) -> pal_os_to_prx_socket_option l n = Ok o.
Proof.
  unfold pal_os_from_prx_socket_option, pal_os_to_prx_socket_option. pose proof levels_differ as Hl.
  repeat match goal with H : NoDup (_ :: _) |- _ => apply list.NoDup_cons in H as [? ?] end.
  destruct (switch from_so o _) as [x| |] eqn:E1.
  { intros [= <- <-]. rewrite bool_decide_eq_true_2 by done. eapply (switch_flip from_so), E1. exact so_differ. }
  all: destruct (switch from_ip o _) as [x| |] eqn:E2.
  1,4: intros [= <- <-]; rewrite bool_decide_eq_false_2, bool_decide_eq_true_2 by set_solver;
    eapply (switch_flip from_ip), E2; exact ip_differ.
  all: destruct (switch from_ipv6 o _) as [x| |] eqn:E3.
  1,4,7,10: intros [= <- <-]; rewrite 2 bool_decide_eq_false_2, bool_decide_eq_true_2 by set_solver;
    eapply (switch_flip from_ipv6), E3; exact ipv6_differ.
  all: destruct (switch from_tcp o _) as [x| |] eqn:E4; [|done|done].
  all: intros [= <- <-]; rewrite 3 bool_decide_eq_false_2, bool_decide_eq_true_2 by set_solver;
    eapply (switch_flip from_tcp), E4; repeat constructor; set_solver.
Qed.

(** every number of the protocol that the system has a number for comes back from it:
    address families, protocols, socket types, ways to shut down, socket options with their
    level, and sets of message flags. *)
Lemma numbers_roundtrip :
  (forall a b, pal_os_from_prx_address_family a = Ok b -> pal_os_to_prx_address_family b = Ok a) /\
  (forall a b, pal_os_from_prx_protocol_type a = Ok b -> pal_os_to_prx_protocol_type b = Ok a) /\
  (forall a b, pal_os_from_prx_socket_type a = Ok b -> pal_os_to_prx_socket_type b = Ok a) /\
  (forall a b, pal_os_from_prx_shutdown_op a = Ok b -> pal_os_to_prx_shutdown_op b = Ok a) /\
  (forall o l n, pal_os_from_prx_socket_option o = Ok (l, n) -> pal_os_to_prx_socket_option l n = Ok o) /\
  (forall f g, pal_os_from_prx_message_flags f = Ok g -> pal_os_to_prx_message_flags g = Ok f).
Proof.
  split_and!; [| | | |exact socket_option_roundtrip|exact message_flags_roundtrip]; intros a b Hab;
    unfold pal_os_from_prx_address_family, pal_os_from_prx_protocol_type, pal_os_from_prx_socket_type,
      pal_os_from_prx_shutdown_op in Hab; eapply switch_flip in Hab; try exact Hab;
    [exact families_differ|exact protocols_differ|exact types_differ|exact shutdowns_differ].
Qed.

(** ** Addresses *)

(** Two addresses that differ at most after the end of the path of a unix socket. *)
Definition same_address (a b : prx_socket_address) : Prop :=
  match a, b with
  | sa_ux p, sa_ux q => cstr p = cstr q
  | _, _ => a = b
  end.

Lemma swap_bit x n : 0 <= n < 8 -> Z.testbit (swap_16 x) n = Z.testbit x (n + 8) /\ Z.testbit (swap_16 x) (n + 8) = Z.testbit x n.
Proof.
  intros Hn. unfold swap_16. change 255 with (Z.ones 8). change 65280 with (Z.shiftl (Z.ones 8) 8).
  rewrite !Z.lor_spec, !Z.land_spec, !Z.shiftr_spec, !Z.shiftl_spec by lia.
  rewrite (Z.ones_spec_low 8 n), (Z.ones_spec_high 8 (n + 8)), (Z.testbit_neg_r _ (n - 8)) by lia.
  replace (n + 8 - 8) with n by lia. rewrite (Z.ones_spec_low 8 n) by lia.
  by rewrite !andb_false_r, !andb_true_r, orb_false_r.
Qed.
Lemma swap_high x n : 16 <= n -> Z.testbit (swap_16 x) n = false.
Proof.
  intros Hn. unfold swap_16. change 255 with (Z.ones 8). change 65280 with (Z.shiftl (Z.ones 8) 8).
  rewrite !Z.lor_spec, !Z.land_spec, !Z.shiftl_spec by lia.
  by rewrite (Z.ones_spec_high 8 n), (Z.ones_spec_high 8 (n - 8)), !andb_false_r by lia.
Qed.
Lemma swap_16_twice x : in_u16 x -> swap_16 (swap_16 x) = x.
Proof.
  intros Hx. apply Z.bits_inj'. intros n Hn.
  destruct (decide (n < 8)); [|destruct (decide (n < 16))].
  - by rewrite (proj1 (swap_bit _ n ltac:(lia))), (proj2 (swap_bit _ n ltac:(lia))).
  - replace n with (n - 8 + 8) by lia. by rewrite (proj2 (swap_bit _ (n - 8) ltac:(lia))), (proj1 (swap_bit _ (n - 8) ltac:(lia))).
  - rewrite swap_high by lia. symmetry. unfold in_u16 in Hx. destruct (decide (x = 0)) as [->|]; [apply Z.bits_0|].
    apply Z.bits_above_log2; [lia|]. assert (Z.log2 x < 16) by (apply Z.log2_lt_pow2; lia). lia.
Qed.

Lemma cstr_copy s l : wf_cstr s -> cstr (s ++ 0 :: l) = s.
Proof.
  induction 1 as [|b s Hb Hs IH]; [done|]. cbn. rewrite bool_decide_eq_false_2 by lia. by rewrite IH.
Qed.

Lemma cstr_char_array n s : wf_cstr s -> zlen s < n -> cstr (char_array n s) = s.
Proof.
  unfold zlen, char_array. intros Hs Hl. destruct (Z.to_nat n - length s)%nat as [|k] eqn:E; [lia|]. by apply cstr_copy.
Qed.

Lemma to_prx_family a b : pal_os_from_prx_address_family a = Ok b -> pal_os_to_prx_address_family b = Ok a.
Proof. intros Hab. eapply switch_flip in Hab; [exact Hab|exact families_differ]. Qed.

(** Takes the branch of the first condition that is decided. *)
Ltac branch :=
  first [rewrite bool_decide_eq_true_2 by (reflexivity || lia)
        |rewrite bool_decide_eq_false_2 by (discriminate || lia || (intros [? ?]; lia))].

(** C35: an address of the internet or of a unix socket is turned into the structure of the
    system and back into the same address, whatever was in the memory it is written to. *)
Theorem socket_address_roundtrip a old : wf_socket_address a ->
  un_family a ∈ [prx_address_family_inet; prx_address_family_inet6; prx_address_family_unix] ->
  exists sa len a', pal_os_from_prx_socket_address (Some a) MAX_SOCKET_ADDRESS_BYTES = Ok (sa, len) /\
    len <= MAX_SOCKET_ADDRESS_BYTES /\ pal_os_to_prx_socket_address sa len old = Ok a' /\ same_address a a'.
Proof.
  intros Hwf Hf. pose proof sizes as (Hz1 & Hz2 & Hz3 & Hz4 & Hz5 & Hz6 & Hz7). unfold MAX_SOCKET_ADDRESS_BYTES.
  destruct a as [|[f port flow un]|path| |f]; [set_solver| | |set_solver|done].
  - destruct Hwf as (Hp & Hu & Hfl). cbn in Hp, Hu, Hfl, Hf. destruct un as [b|b sc]; cbn in Hu.
    + destruct Hu as [-> Hb]. cbn in Hfl. subst flow.
      exists (sockaddr_in (swap_16 port) b), sizeof_in. eexists. split_and!; [by cbn; repeat branch|lia| |].
      * unfold pal_os_to_prx_socket_address. branch.
        cbn [sa_family]. rewrite (to_prx_family prx_address_family_inet AF_INET eq_refl). cbn. by repeat branch.
      * cbn. by rewrite swap_16_twice.
    + destruct Hu as (-> & Hb & Hs).
      exists (sockaddr_in6 (swap_16 port) flow sc b), sizeof_in6. eexists. split_and!; [by cbn; repeat branch|lia| |].
      * unfold pal_os_to_prx_socket_address. branch.
        cbn [sa_family]. rewrite (to_prx_family prx_address_family_inet6 AF_INET6 eq_refl). cbn. by repeat branch.
      * cbn. by rewrite swap_16_twice.
  - destruct Hwf as (Hs & Hl & Hp). exists (sockaddr_un (char_array sizeof_sun_path (cstr path))), sizeof_un. eexists. split_and!.
    + unfold pal_os_from_prx_socket_address. cbn [un_family as_ux]. by repeat branch.
    + lia.
    + unfold pal_os_to_prx_socket_address. branch.
      cbn [sa_family]. rewrite (to_prx_family prx_address_family_unix AF_UNIX eq_refl). cbn.
      do 4 branch. rewrite cstr_char_array by (done || lia). by repeat branch.
    + cbn. unfold copy_over. cbn. by rewrite cstr_copy.
Qed.

(** ** The resolver *)

(** How many families are left to try. *)
Definition family_tries (family : Z) : Z := if bool_decide (family = AF_INET) then 2 else 1.

Lemma gai_loop_runs fuel : forall calls address service family flags attempt, attempt <= GAI_MAX_ATTEMPTS ->
  GAI_MAX_ATTEMPTS - attempt + family_tries family <= Z.of_nat fuel ->
  exists r, gai_loop fuel calls address service family flags attempt = Some r /\ r <> UB.
Proof.
  pose proof families_differ as Hd. repeat match goal with H : NoDup (_ :: _) |- _ => apply list.NoDup_cons in H as [? ?] end.
  induction fuel as [|fuel IH]; intros calls address service family flags attempt Ha Hf; cbn.
  { unfold family_tries in Hf. case_bool_decide; lia. }
  destruct (getaddrinfo _ _ _ _ _) as [result info]. case_bool_decide; [by eexists; split; [reflexivity|intros; discriminate]|].
  case_bool_decide as Hi; [apply IH; [done|]; destruct Hi as [_ ->]|].
  - unfold family_tries in *. rewrite bool_decide_eq_true_2 in Hf by done. rewrite bool_decide_eq_false_2 by set_solver. lia.
  - case_bool_decide as Hg; [by eexists; split; [reflexivity|intros; discriminate]|]. apply IH; lia.
Qed.

(** The names of an array's elements. *)
Definition names_of (l : list (prx_addrinfo (option bytes))) : list bytes := omap ai_name l.
Definition set_elements (l : list (prx_addrinfo (option bytes))) : Prop := Forall (fun x => ai_reserved x = 1) l.

Lemma free_array out slot l : set_elements out -> pal_freeaddrinfo (out ++ null_addrinfo slot :: l) = Ok (names_of out).
Proof.
  induction 1 as [|x out Hx Hout IH]; cbn; [done|]. rewrite bool_decide_eq_false_2 by lia.
  rewrite IH. cbn. by destruct (ai_name x).
Qed.

Lemma copy_addrinfos_set l : forall i result out slot r out' slot', set_elements out ->
  copy_addrinfos i l result out slot = Ok (r, out', slot') ->
  set_elements out' /\ (length out' <= length out + length l)%nat.
Proof.
  induction l as [|ai l IH]; intros i result out slot r out' slot' Hout; cbn; [intros [= <- <- <-]; split; [done|lia]|].
  destruct (pal_os_to_prx_addrinfo i ai slot) as [[address name]|e|]; [| |done]; intros E; apply IH in E as [? Hl].
  - split; [done|]. rewrite length_app in Hl. cbn in Hl. lia.
  - apply Forall_app; split; [done|by repeat constructor].
  - split; [done|lia].
  - done.
Qed.

(** C36: five calls of the resolver are enough: the loop ends whatever the resolver answers,
    and the array it ends with has a set element, has room for its end, and is freed with
    exactly the names in it. *)
Theorem resolve_terminates alloc address service family flags :
  exists r, pal_getaddrinfo 5 alloc address service family flags = Some r /\
  forall info count, r = Ok (info, count) ->
    (0 < count < length info)%nat /\ pal_freeaddrinfo info = Ok (names_of (take count info)).
Proof.
  unfold pal_getaddrinfo.
  destruct (pal_os_from_prx_address_family family) as [fam| |]; [|by eexists; split; [reflexivity|intros; discriminate]|by eexists; split; [reflexivity|intros; discriminate]].
  destruct (pal_os_from_prx_client_getaddrinfo_flags flags) as [fl| |]; [|by eexists; split; [reflexivity|intros; discriminate]|by eexists; split; [reflexivity|intros; discriminate]].
  destruct (gai_loop_runs 5 0 address service fam (Z.lor fl AI_CANONNAME) 0) as (r & -> & _);
    [unfold GAI_MAX_ATTEMPTS; lia|unfold family_tries, GAI_MAX_ATTEMPTS; case_bool_decide; lia|].
  destruct r as [info| |]; [|by eexists; split; [reflexivity|intros; discriminate]|by eexists; split; [reflexivity|intros; discriminate]]. eexists; split; [done|]. intros arr count.
  case_bool_decide; [done|]. destruct alloc; [|done]. cbn.
  destruct (copy_addrinfos _ _ _ _ _) as [[[result out] slot]| |] eqn:E; [|done|done]. cbn.
  apply copy_addrinfos_set in E as [Hs Hl]; [|constructor]. case_bool_decide as Ho; [done|]. intros [= <- <-].
  rewrite free_array, take_app_length by done. split; [|done]. rewrite length_app. cbn. destruct out; [done|]. cbn. lia.
Qed.

End Net.

(** ** An instance: the numbers of Linux *)

#[local] Instance linux : os_constants := {|
  AF_UNSPEC := 0; AF_UNIX := 1; AF_INET := 2; AF_INET6 := 10; SOCK_DGRAM := 2; SOCK_STREAM := 1;
  SOCK_RAW := 3; SOCK_RDM := 4; SOCK_SEQPACKET := 5; IPPROTO_IP := 0; IPPROTO_IPV6 := 41;
  IPPROTO_TCP := 6; IPPROTO_UDP := 17; IPPROTO_ICMP := 1; IPPROTO_ICMPV6 := 58; SHUT_RD := 0;
  SHUT_WR := 1; SHUT_RDWR := 2; SOL_SOCKET := 1; SO_DEBUG := 1; SO_ACCEPTCONN := 30;
  SO_REUSEADDR := 2; SO_KEEPALIVE := 9; SO_DONTROUTE := 5; SO_BROADCAST := 6; SO_LINGER := 13;
  SO_OOBINLINE := 10; SO_SNDBUF := 7; SO_RCVBUF := 8; SO_SNDLOWAT := 19; SO_RCVLOWAT := 18;
  SO_SNDTIMEO := 21; SO_RCVTIMEO := 20; SO_ERROR := 4; SO_TYPE := 3; IP_OPTIONS := 4;
  IP_HDRINCL := 3; IP_TOS := 1; IP_TTL := 2; IP_MULTICAST_TTL := 33; IP_MULTICAST_LOOP := 34;
  IP_PKTINFO := 8; IPV6_HOPLIMIT := 52; IPV6_V6ONLY := 26; MSG_OOB := 1; MSG_PEEK := 2;
  MSG_DONTROUTE := 4; MSG_TRUNC := 32; MSG_CTRUNC := 8; EAI_AGAIN := -3; EAI_BADFLAGS := -1;
  EAI_FAMILY := -6; EAI_NONAME := -2; EAI_NODATA := -5; EAI_FAIL := -4; EAI_ADDRFAMILY := -9;
  HOST_NOT_FOUND := 1; TRY_AGAIN := 2; NO_RECOVERY := 3; NO_DATA := 4; NI_NAMEREQD := 8;
  NI_NUMERICHOST := 1; NI_NUMERICSERV := 2; AI_PASSIVE := 1; AI_CANONNAME := 2;
  AI_NUMERICHOST := 4; TCP_NODELAY := 1; sizeof_family := 2; sizeof_in := 16; sizeof_in6 := 28;
  sizeof_un := 110; sizeof_sun_path := 108
|}.
#[local] Instance linux_laws : os_laws.
Proof.
  split; try (apply (bool_decide_unpack _); vm_compute; exact I).
  exists [0; 1; 2; 5; 3]. split_and!; [reflexivity| |]; apply (bool_decide_unpack _); vm_compute; exact I.
Qed.


Lemma socket_address_roundtrip_witness :
  exists sa len a', pal_os_from_prx_socket_address (Some (sa_ux (char_array 108 [47; 115]))) MAX_SOCKET_ADDRESS_BYTES = Ok (sa, len) /\
    len <= MAX_SOCKET_ADDRESS_BYTES /\ pal_os_to_prx_socket_address sa len (sa_ux (replicate 108 7)) = Ok a' /\
    same_address (sa_ux (char_array 108 [47; 115])) a'.
Proof.
  apply (socket_address_roundtrip (sa_ux (char_array 108 [47; 115]))).
  - split; [|split; [|reflexivity]]; [repeat constructor|vm_compute; reflexivity].
  - cbn. set_solver.
Defined.

(** A resolver that fails twice, wants the other family, and then has two addresses. *)
Definition slow_resolver (calls : nat) (_ _ : option bytes) (family flags : Z) : Z * list addrinfo :=
  match calls with
  | 0%nat | 1%nat => (EAI_AGAIN, [])
  | 2%nat => (EAI_FAMILY, [])
  | _ => (0, [Addrinfo (sockaddr_in 20480 [10; 0; 0; 1]) 16 (Some [104]); Addrinfo (os_family 17) 20 None])
  end.

Lemma resolve_terminates_witness :
  exists r, pal_getaddrinfo slow_resolver (fun _ => true) 5 true (Some [104]) None prx_address_family_inet 0 = Some r /\
  (exists info, r = Ok (info, 1%nat)) /\
  forall info count, r = Ok (info, count) ->
    (0 < count < length info)%nat /\ pal_freeaddrinfo info = Ok (names_of (take count info)).
Proof.
  destruct (resolve_terminates slow_resolver (fun _ => true) true (Some [104]) None prx_address_family_inet 0) as (r & Hr & Hf).
  exists r. split; [exact Hr|]. split; [|exact Hf]. vm_compute in Hr. injection Hr as <-. by eexists.
Defined.

End PalNet.
