(* ===== verification/IoToken.v ===== *)
(** * Token providers (src/io_token.c)

    Providers are reference counted objects of a heap: a provider that was freed is no
    longer in it, and touching it is undefined.  The credential store, base 64 and url
    encoding and the clock are asked. *)
From Stdlib Require Import String.
From stdpp Require Import base option list numbers sets gmap.
From S2P Require Import Prelude PrxTypes UtilString UtilInt UtilKey.
Import PrxTypes UtilString UtilInt UtilKey.
Open Scope Z_scope.

Module IoToken.

Inductive io_token_property_id := io_token_property_type | io_token_property_scope | io_token_property_policy | io_token_property_unknown.

(** The two kinds of providers. *)
Inductive token_provider :=
| sas_provider (scope policy shared_access_key : bytes) (ttl_in_seconds : Z)
| passthru_provider (shared_access_token : bytes).

(** Providers with their reference counts, the next address, and how often the outside
    was asked. *)
Record store := Store {
  providers : gmap nat (token_provider * Z);
  next : nat;
  asked : nat;
}.
Definition M (A : Type) := store -> res (A * store).
#[export] Instance token_ret : MRet M := fun A x w => Ok (x, w).
#[export] Instance token_bind : MBind M := fun A B f m w => '(x, w) ← m w; f x w.
Definition with_providers (w : store) (p : gmap nat (token_provider * Z)) : store := Store p (next w) (asked w).

Section Token.
Variable mem : nat -> bool.
Definition tick (w : store) : store := Store (providers w) (next w) (S (asked w)).
Definition try : M bool := fun w => Ok (mem (asked w), tick w).
Fixpoint tries (n : nat) : M bool :=
  match n with O => mret true | S n => ok ← try; if (ok : bool) then tries n else mret false end.
(** Calls that are all made, whatever the others gave. *)
Fixpoint try_all (n : nat) : M bool :=
  match n with O => mret true | S n => ok ← try; r ← try_all n; mret (ok && r) end.

Definition load (a : nat) : M (token_provider * Z) := fun w => match providers w !! a with Some p => Ok (p, w) | None => UB end.
Definition store_at (a : nat) (p : token_provider * Z) : M unit := fun w => Ok (tt, with_providers w (<[a := p]> (providers w))).

(** [REFCOUNT_TYPE_CREATE]: one reference. *)
Definition refcount_create (p : token_provider) : M (option nat) := fun w =>
  if mem (asked w) then Ok (Some (next w), Store (<[next w := (p, 1)]> (providers w)) (S (next w)) (S (asked w)))
  else Ok (None, tick w).

(** ** Life time *)

(** The release functions of both kinds. *)
Definition io_token_provider_release (a : nat) : M unit :=
  '(p, n) ← load a;
  if bool_decide (n - 1 = 0) then ((fun w => Ok (tt, with_providers w (delete a (providers w)))) : M unit)
  else store_at a (p, n - 1).

Definition io_token_provider_clone (a : nat) : M nat :=
  '(p, n) ← load a;
  store_at a (p, n + 1);;
  mret a.

(** ** Properties *)

Definition io_sas_token_provider_on_get_property (scope policy : bytes) (id : io_token_property_id) : option bytes :=
  match id with
  | io_token_property_type => Some (str "servicebus.windows.net:sastoken")
  | io_token_property_scope => Some scope
  | io_token_property_policy => Some policy
  | io_token_property_unknown => None
  end.
Definition io_passthru_token_provider_on_get_property (id : io_token_property_id) : option bytes := None.

Definition get_property (p : token_provider) (id : io_token_property_id) : option bytes :=
  match p with
  | sas_provider scope policy _ _ => io_sas_token_provider_on_get_property scope policy id
  | passthru_provider _ => io_passthru_token_provider_on_get_property id
  end.

(** The loop over the properties. *)
Fixpoint same_properties (ids : list io_token_property_id) (p q : token_provider) : bool :=
  match ids with
  | [] => true
  | id :: ids =>
      match get_property p id, get_property q id with
      | None, None => same_properties ids p q
      | a, b => if bool_decide (string_compare_nocase a b = 0) then same_properties ids p q else false
      end
  end.
Definition property_ids : list io_token_property_id := [io_token_property_type; io_token_property_scope; io_token_property_policy].

Definition io_token_provider_is_equivalent (that other : option nat) : M bool :=
  if bool_decide (that = other) then mret true
  else match that, other with
       | Some a, Some b =>
           '(p, _) ← load a;
           '(q, _) ← load b;
           mret (same_properties property_ids p q)
       | _, _ => mret false
       end.

(** ** Tokens *)

Variables (pal_cred_hmac_sha256 : bytes -> bytes -> bytes + prx_error) (base64 URL_Encode : bytes -> bytes) (get_time : nat -> Z).

(** A 32 bit sum or product, undefined when it overflows. *)
Definition int32 (x : Z) : res Z := if bool_decide (- 2 ^ 31 <= x < 2 ^ 31) then Ok x else UB.
Definition lift {A} (r : res A) : M A := fun w => match r with Ok x => Ok (x, w) | Err e => Err e | UB => UB end.

(** The text that is signed: the scope, a line feed, and the time the token expires. *)
Definition signed_text (scope : bytes) (expiry : bytes) : bytes := scope ++ [10] ++ expiry.
Definition token_text (scope keyname expiry hmac : bytes) : bytes :=
  str "SharedAccessSignature sr=" ++ scope ++ str "&sig=" ++ URL_Encode (base64 hmac) ++ str "&se=" ++ expiry ++ str "&skn=" ++ keyname.

Definition io_sas_token_create (key_or_handle scope keyname : bytes) (expiry : Z) : M (bytes + prx_error) :=
  expiry ← lift (string_from_int expiry 10 32);
  ok ← tries 4;
  if negb ok then mret (inr er_out_of_memory)
  else match pal_cred_hmac_sha256 key_or_handle (signed_text scope expiry) with
       | inr e => mret (inr e)
       | inl hmac =>
           ok ← tries 10;
           mret (if (ok : bool) then inl (token_text scope keyname expiry hmac) else inr er_out_of_memory)
       end.

(** The token and the time in milliseconds after which it is renewed. *)
Definition io_token_provider_on_new_iothub_token (scope policy key : bytes) (ttl_in_seconds : Z) : M (bytes * Z + prx_error) :=
  now ← ((fun w => Ok (i32 (get_time (asked w)), tick w)) : M Z);
  expiry ← lift (int32 (now + ttl_in_seconds));
  r ← io_sas_token_create key scope policy expiry;
  match r with
  | inr e => mret (inr e)
  | inl token => ttl ← lift (int32 (ttl_in_seconds * 800)); mret (inl (token, ttl))
  end.

Definition io_passthru_token_provider_on_new_token (token : bytes) : M (bytes * Z + prx_error) :=
  ok ← try;
  mret (if (ok : bool) then inl (token, 16777215) else inr er_out_of_memory).

Definition io_token_provider_new_token (a : nat) : M (bytes * Z + prx_error) :=
  '(p, _) ← load a;
  match p with
  | sas_provider scope policy key ttl => io_token_provider_on_new_iothub_token scope policy key ttl
  | passthru_provider token => io_passthru_token_provider_on_new_token token
  end.

(** ** Creation *)

Definition io_passthru_token_provider_create (shared_access_token : bytes) : M (nat + prx_error) :=
  a ← refcount_create (passthru_provider shared_access_token);
  match a with
  | None => mret (inr er_out_of_memory)
  | Some a =>
      ok ← try;
      if (ok : bool) then mret (inl a) else io_token_provider_release a;; mret (inr er_out_of_memory)
  end.

(** [token_ttl]: what is configured, eight hours unless it is. *)
Definition io_iothub_token_provider_create (token_ttl : Z) (policy : option bytes) (key_or_handle scope : bytes) : M (nat + prx_error) :=
  a ← refcount_create (sas_provider scope (default [] policy) key_or_handle token_ttl);
  match a with
  | None => mret (inr er_out_of_memory)
  | Some a =>
      ok ← try_all 3;
      if (ok : bool) then mret (inl a) else io_token_provider_release a;; mret (inr er_out_of_memory)
  end.

Lemma token_bind_eq {A B} (c : M A) (f : A -> M B) w x w1 : c w = Ok (x, w1) -> (c ≫= f) w = f x w1.
Proof. unfold mbind, token_bind. by intros ->. Qed.

(** ** Which providers count as the same *)

(** Providers of ready made tokens have no properties: any two are equivalent. *)
Lemma passthru_equivalent a b t1 t2 n1 n2 w : providers w !! a = Some (passthru_provider t1, n1) ->
  providers w !! b = Some (passthru_provider t2, n2) -> io_token_provider_is_equivalent (Some a) (Some b) w = Ok (true, w).
Proof.
  intros Ha Hb. unfold io_token_provider_is_equivalent. case_bool_decide; [done|].
  unfold load, mbind, token_bind. rewrite Ha. cbn. by rewrite Hb.
Qed.

(** ** New tokens *)

Hypothesis mem_ok : forall n, mem n = true.

Lemma tries_mem n : forall w, exists k, tries n w = Ok (true, Store (providers w) (next w) k).
Proof.
  induction n as [|n IH]; intros w; cbn [tries]; [exists (asked w); by destruct w|].
  unfold try, mbind, token_bind. cbn. rewrite mem_ok. destruct (IH (tick w)) as (k & E). by exists k.
Qed.

(** A number as [STRING_concat_int] appends it. *)
Definition decimal (n : Z) : bytes := take 31 (format_int 10 n).

Lemma sas_create_run key scope policy expiry hmac w : pal_cred_hmac_sha256 key (signed_text scope (decimal expiry)) = inl hmac ->
  exists k, io_sas_token_create key scope policy expiry w = Ok (inl (token_text scope policy (decimal expiry) hmac), Store (providers w) (next w) k).
Proof.
  intros Hmac. unfold io_sas_token_create. rewrite (token_bind_eq _ _ _ (decimal expiry) w) by done.
  destruct (tries_mem 4 w) as (k1 & E1). rewrite (token_bind_eq _ _ _ _ _ E1). cbn [negb]. rewrite Hmac.
  destruct (tries_mem 10 (Store (providers w) (next w) k1)) as (k & E). rewrite (token_bind_eq _ _ _ _ _ E). by exists k.
Qed.

(** The token of a hub is signed and renewed before it expires, for a configured life
    time of up to 2684354 seconds (31 days).  Then [io_token_provider_new_token] gives the
    text with scope, signature, time of expiry and policy, the signature being that of the
    scope and the same time, and a time to renewal of 80 % of the life time.  Beyond that
    the product in the 32 bit arithmetic of the code overflows, although the option has no
    such bound. *)
Lemma token_lifetime a scope policy key ttl n hmac w :
  providers w !! a = Some (sas_provider scope policy key ttl, n) -> 0 <= ttl ->
  - 2 ^ 31 <= i32 (get_time (asked w)) + ttl < 2 ^ 31 ->
  pal_cred_hmac_sha256 key (signed_text scope (decimal (i32 (get_time (asked w)) + ttl))) = inl hmac ->
  if bool_decide (ttl <= 2684354)
  then exists w' renew, io_token_provider_new_token a w =
         Ok (inl (token_text scope policy (decimal (i32 (get_time (asked w)) + ttl)) hmac, renew), w') /\
       providers w' = providers w /\ 100 * renew = 80 * (1000 * ttl)
  else io_token_provider_new_token a w = UB.
Proof.
  intros Ha Httl Hexp Hmac. set (expiry := i32 (get_time (asked w)) + ttl) in *.
  unfold io_token_provider_new_token. rewrite (token_bind_eq (load a) _ w (sas_provider scope policy key ttl, n) w) by (unfold load; by rewrite Ha).
  unfold io_token_provider_on_new_iothub_token. erewrite token_bind_eq by reflexivity. fold expiry.
  erewrite token_bind_eq by (unfold int32; rewrite (bool_decide_eq_true_2 (_ <= expiry < _)) by exact Hexp; reflexivity).
  destruct (sas_create_run key scope policy expiry hmac (tick w) Hmac) as (k & E). rewrite (token_bind_eq _ _ _ _ _ E).
  case_bool_decide as Ht.
  - eexists _, _. rewrite (token_bind_eq _ _ _ (ttl * 800) (Store (providers w) (next w) k)); [split_and!; [reflexivity|done|lia]|].
    unfold int32. by rewrite bool_decide_eq_true_2 by lia.
  - unfold int32. rewrite bool_decide_eq_false_2 by lia. done.
Qed.
End Token.

(** A provider with a life time of an hour, and one of a year. *)
Definition two_providers : store :=
  Store {[0%nat := (sas_provider (str "hub") (str "pol") (str "key") 3600, 1); 1%nat := (sas_provider (str "hub") (str "pol") (str "key") 31536000, 1)]} 2 0.
End IoToken.
