(* ===== verification/IoUrl.v ===== *)
(** * Urls of brokers (src/io_url.c)

    A url holds strings and a reference to a token provider of IoToken. *)
From Stdlib Require Import String.
From stdpp Require Import base option list numbers sets gmap.
From S2P Require Import Prelude PrxTypes UtilString UtilInt UtilKey IoToken.
Import PrxTypes UtilString UtilInt UtilKey IoToken.
Open Scope Z_scope.

Module IoUrl.

Record io_url := Url {
  scheme : option bytes;
  host_name : option bytes;
  port : Z;
  path : option bytes;
  user_name : option bytes;
  password : option bytes;
  token_provider : option nat;
}.

Section Url.
Variable mem : nat -> bool.

(** Two optional strings: both there and equal but for case, or both NULL. *)
Definition same_string (a b : option bytes) : bool :=
  match a, b with
  | Some a, Some b => bool_decide (STRING_compare_nocase (Some a) (Some b) = 0)
  | None, None => true
  | _, _ => false
  end.

Definition io_url_equals (that other : option io_url) : M bool :=
  match that, other with
  | None, None => mret true
  | Some that, Some other =>
      if bool_decide (port that <> port other) then mret false
      else if negb (same_string (scheme that) (scheme other)) then mret false
      else if negb (same_string (host_name that) (host_name other)) then mret false
      else if negb (same_string (path that) (path other)) then mret false
      else if negb (same_string (user_name that) (user_name other)) then mret false
      else if negb (same_string (password that) (password other)) then mret false
      else io_token_provider_is_equivalent (token_provider that) (token_provider other)
  | _, _ => mret false
  end.

(** The strings are plain memory; the provider loses a reference. *)
Definition io_url_free (address : option io_url) : M unit :=
  match address with
  | None => mret tt
  | Some address => match token_provider address with Some a => io_token_provider_release a | None => mret tt end
  end.

(** The port of a scheme, when none is given. *)
Definition default_port (scheme : bytes) : option Z :=
  if bool_decide (string_compare_nocase (Some scheme) (Some (str "wss")) = 0) then Some 443
  else if bool_decide (string_compare_nocase (Some scheme) (Some (str "amqps")) = 0) then Some 5671
  else if bool_decide (string_compare_nocase (Some scheme) (Some (str "https")) = 0) then Some 443
  else if bool_decide (string_compare_nocase (Some scheme) (Some (str "mqtts")) = 0) then Some 8883
  else None.

(** A string that is copied if it is there: whether that worked. *)
Definition copy (s : option bytes) : M bool := match s with None => mret true | Some _ => try mem end.

Definition io_url_create (scheme host_name : option bytes) (port : Z) (path user_name password : option bytes) : M (io_url + prx_error) :=
  match host_name with
  | None => mret (inr er_fault)
  | Some host_name =>
      ok ← tries mem 2;
      if negb ok then mret (inr er_out_of_memory)
      else
        let rest port :=
          ok ← copy scheme;
          if negb ok then mret (inr er_out_of_memory)
          else
            ok ← copy path;
            if negb ok then mret (inr er_out_of_memory)
            else
              ok ← copy user_name;
              if negb ok then mret (inr er_out_of_memory)
              else
                ok ← copy password;
                mret (if (ok : bool) then inl (Url scheme (Some host_name) port path user_name password None) else inr er_out_of_memory) in
        match scheme with
        | Some s =>
            if bool_decide (port = 0)
            then match default_port s with Some port => rest port | None => mret (inr er_invalid_format) end
            else rest port
        | None => rest port
        end
  end.

(** All strings are cloned before the results are looked at. *)
Definition io_url_clone (address : option io_url) : M (io_url + prx_error) :=
  match address with
  | None => mret (inr er_fault)
  | Some address =>
      ok ← try mem;
      if negb ok then mret (inr er_out_of_memory)
      else
        s ← copy (scheme address); h ← copy (host_name address); p ← copy (path address);
        u ← copy (user_name address); w ← copy (password address);
        if negb (s && h && p && u && w) then mret (inr er_out_of_memory)
        else
          t ← (match token_provider address with Some a => c ← io_token_provider_clone a; mret (Some c) | None => mret None end);
          mret (inl (Url (scheme address) (host_name address) (port address) (path address) (user_name address) (password address) t))
  end.

(** ** Copies of urls *)

Implicit Types (w : store) (u : io_url).

Lemma compare_by_refl f s : compare_by f s s = 0.
Proof. induction s as [|c s IH]; cbn; [done|]. by rewrite bool_decide_eq_true_2. Qed.
Lemma same_string_refl s : same_string s s = true.
Proof. destruct s as [s|]; cbn; [|done]. rewrite compare_by_refl. done. Qed.

Lemma copy_run s w : exists ok n, copy s w = Ok (ok, Store (providers w) (IoToken.next w) n).
Proof. destruct s; [by eexists _, _|exists true, (asked w); by destruct w]. Qed.

Lemma equals_refl u v w : port v = port u -> scheme v = scheme u -> host_name v = host_name u -> path v = path u ->
  user_name v = user_name u -> password v = password u ->
  io_url_equals (Some u) (Some v) w = io_token_provider_is_equivalent (token_provider u) (token_provider v) w.
Proof.
  intros H1 H2 H3 H4 H5 H6. cbn [io_url_equals]. rewrite H1, H2, H3, H4, H5, H6. rewrite bool_decide_eq_false_2 by (intros Hn; by apply Hn). by rewrite !same_string_refl.
Qed.

(** The provider of a url is alive. *)
Definition provider_ok u w : Prop :=
  match token_provider u with Some a => exists p n, providers w !! a = Some (p, n) /\ 0 < n | None => True end.

(** Urls own a reference to their token provider.  A copy of a url either fails for lack
    of memory and leaves all reference counts alone, or it is equal to the url, and freeing
    it gives back exactly the reference it took: the url and its provider are as before. *)
Lemma url_clone_counts u w : provider_ok u w -> exists r w', io_url_clone (Some u) w = Ok (r, w') /\
  match r with
  | inr e => e = er_out_of_memory /\ providers w' = providers w
  | inl v => io_url_equals (Some u) (Some v) w' = Ok (true, w') /\
      exists w'', io_url_free (Some v) w' = Ok (tt, w'') /\ providers w'' = providers w
  end.
Proof.
  intros Hp. cbn [io_url_clone]. erewrite token_bind_eq by reflexivity. destruct (mem (asked w)); cbn [negb]; [|by eexists _, _].
  destruct (copy_run (scheme u) (tick w)) as (o1 & n1 & E1). rewrite (token_bind_eq _ _ _ _ _ E1).
  destruct (copy_run (host_name u) (Store (providers w) (IoToken.next w) n1)) as (o2 & n2 & E2). rewrite (token_bind_eq _ _ _ _ _ E2).
  destruct (copy_run (path u) (Store (providers w) (IoToken.next w) n2)) as (o3 & n3 & E3). rewrite (token_bind_eq _ _ _ _ _ E3).
  destruct (copy_run (user_name u) (Store (providers w) (IoToken.next w) n3)) as (o4 & n4 & E4). rewrite (token_bind_eq _ _ _ _ _ E4).
  destruct (copy_run (password u) (Store (providers w) (IoToken.next w) n4)) as (o5 & n5 & E5). rewrite (token_bind_eq _ _ _ _ _ E5).
  cbn [providers IoToken.next]. destruct (o1 && o2 && o3 && o4 && o5); cbn [negb]; [|by eexists _, _].
  unfold provider_ok in Hp. destruct (token_provider u) as [a|] eqn:Et.
  - destruct Hp as (p & n & Ha & Hn). unfold io_token_provider_clone.
    set (w5 := Store _ _ _). assert (El : load a w5 = Ok ((p, n), w5)) by (unfold load; cbn; by rewrite Ha).
    erewrite token_bind_eq.
    2: { erewrite token_bind_eq; [reflexivity|]. erewrite token_bind_eq by exact El. reflexivity. }
    eexists _, _. split; [reflexivity|]. cbv beta iota. split.
    + rewrite equals_refl by done. cbn [token_provider]. rewrite Et. unfold io_token_provider_is_equivalent. by rewrite bool_decide_eq_true_2.
    + cbn [io_url_free token_provider]. unfold io_token_provider_release.
      erewrite token_bind_eq by (unfold load; cbn; rewrite lookup_insert_eq; reflexivity). cbv beta iota.
      rewrite bool_decide_eq_false_2 by lia. eexists. split; [reflexivity|]. cbn. rewrite insert_insert_eq.
      replace (n + 1 - 1) with n by lia. by apply insert_id.
  - erewrite token_bind_eq by reflexivity. eexists _, _. split; [reflexivity|]. cbv beta iota. split.
    + rewrite equals_refl by done. cbn [token_provider]. rewrite Et. done.
    + eexists. split; [reflexivity|]. done.
Qed.
End Url.

(** ** A url with a provider *)

Definition url1 : io_url := Url (Some (str "wss")) (Some (str "hub")) 443 None None None (Some 0%nat).
Definition store1 : store := Store {[0%nat := (passthru_provider (str "tok"), 1)]} 1 0.
End IoUrl.
