(* ===== verification/IoMqtt.v ===== *)
(** * Mqtt connections (src/io_mqtt.c)

    A connection to a broker with a queue of messages to publish and a list of
    subscriptions.  It is a state machine: the mqtt client and the user call into it, and
    what these calls cause runs as tasks of the scheduler of the connection.  Model: a
    state monad over the connection, its subscriptions, the tasks that are queued, the
    clock and a trace of the calls to the outside, whose answers an environment
    chooses. *)
From Stdlib Require Import String.
From stdpp Require Import base option list numbers sets gmap.
From S2P Require Import Prelude PrxTypes UtilString UtilInt UtilKey IoToken IoUrl.
Import PrxTypes UtilString UtilInt UtilKey IoUrl.
Open Scope Z_scope.

Module IoMqtt.

(** ** Topics *)

Definition ch_slash : Z := 47.
Definition ch_hash : Z := 35.
Definition ch_plus : Z := 43.
Definition ch_amp : Z := 38.
Definition ch_quest : Z := 63.

(** The character at an index of a C string; reading behind its end is undefined. *)
Definition char_at (s : bytes) (i : nat) : res Z :=
  if bool_decide (i < length s)%nat then Ok (nth i s 0)
  else if bool_decide (i = length s) then Ok 0 else UB.

(** The inner loop: the index of the next '/' or of the end; [s]: what follows. *)
Fixpoint skip_level (s : bytes) (i : nat) : nat :=
  match s with
  | [] => i
  | c :: s => if bool_decide (c = ch_slash) then i else skip_level s (S i)
  end.

(** [Some r]: the topic matches and [r] is what is left of it. *)
Fixpoint topic_loop (fuel : nat) (topic pat : bytes) (i : nat) : res (option bytes) :=
  match fuel with
  | O => UB
  | S fuel =>
      t ← char_at topic i;
      m ← char_at pat i;
      if bool_decide (t = 0 /\ m = 0) then Ok (Some (drop i topic))
      else if bool_decide (t <> m) then Ok None
      else if bool_decide (t = ch_slash) then
        w ← char_at pat (S i);
        if bool_decide (w = ch_hash) then Ok (Some (drop i topic))
        else if bool_decide (w = ch_plus) then
          let i := skip_level (drop (S i) topic) (S i) in
          t ← char_at topic i;
          if bool_decide (t = 0) then Ok (Some (drop i topic)) else topic_loop fuel topic pat (S i)
        else topic_loop fuel topic pat (S i)
      else topic_loop fuel topic pat (S i)
  end.

Definition io_mqtt_topic_matches (topic pat : bytes) : res (option bytes) :=
  topic_loop (S (length topic)) topic pat 0.

(** ** Properties: a string of pairs *)

(** [None] is a NULL pointer, the flags the results of the allocations. *)
Definition io_mqtt_properties_create (alloc : bool) : res bytes := if alloc then Ok [] else Err er_out_of_memory.

(** The bag is changed in place: returned with the result.  [n]: how many of the
    four concatenations succeed. *)
Definition io_mqtt_properties_add (n : nat) (properties key value : option bytes) : prx_error * option bytes :=
  match properties, key, value with
  | Some properties, Some key, Some value =>
      if bool_decide (length value = 0)%nat then (er_arg, Some properties)
      else if bool_decide (4 <= n)%nat then (er_ok, Some (properties ++ [ch_amp] ++ key ++ [ch_eq] ++ value))
      else (er_out_of_memory, Some (properties ++ concat (take n [[ch_amp]; key; [ch_eq]; value])))
  | p, _, _ => (er_fault, p)
  end.

(** The text up to the next '&' or the end. *)
Fixpoint value_of (s : bytes) : bytes :=
  match s with [] => [] | c :: s => if bool_decide (c = ch_amp) then [] else c :: value_of s end.

(** The value; the buffer holds it with its terminator. *)
Definition io_mqtt_properties_get (properties key : option bytes) (value_buf : bool) (value_len : Z) : res bytes :=
  match properties, key with
  | Some properties, Some k =>
      if negb value_buf || bool_decide (value_len = 0) then Err er_fault
      else
        match string_find_nocase (Some properties) key with
        | None => Err er_not_found
        | Some found =>
            let found := drop (length k) found in
            match found with
            | c :: found =>
                if bool_decide (c <> ch_eq) then Err er_not_found
                else
                  let v := value_of found in
                  if bool_decide (value_len <= zlen v) then Err er_arg else Ok v
            | [] => Err er_not_found
            end
        end
  | _, _ => Err er_fault
  end.

(** ** State *)

Inductive io_mqtt_status :=
| io_mqtt_status_reset
| io_mqtt_status_connecting
| io_mqtt_status_connected
| io_mqtt_status_disconnecting
| io_mqtt_status_closing.

#[export] Instance io_mqtt_status_eq_dec : EqDecision io_mqtt_status.
Proof. solve_decision. Defined.

(** [msg_handle]: the topic and the body given to the mqtt library; [msg_cb]: the
    context of the callback, if there is one. *)
Record io_mqtt_message := Message {
  msg_handle : bytes * bytes;
  pkt_id : Z;
  published : bool;
  attempted : Z;
  buf_len : Z;
  msg_cb : option Z;
}.

(** [receiver_cb]: the context of the receiver, if there is one. *)
Record io_mqtt_subscription := Sub {
  uri : bytes;
  subscribed : bool;
  pktid : Z;
  receiver_cb : option Z;
}.

Definition subscription_subscribing (s : io_mqtt_subscription) : bool := bool_decide (pktid s <> 0) && negb (subscribed s).
Definition subscription_subscribed (s : io_mqtt_subscription) : bool := bool_decide (pktid s = 0) && subscribed s.
Definition subscription_unsubscribing (s : io_mqtt_subscription) : bool := bool_decide (pktid s <> 0) && subscribed s.
Definition subscription_unsubscribed (s : io_mqtt_subscription) : bool := bool_decide (pktid s = 0) && negb (subscribed s).

(** The handles of the library and of the scheduler: whether they are set.
    [subscriptions]: the addresses of the subscriptions; [reconnect_cb]: its context. *)
Record io_mqtt_connection := Conn {
  address : io_url;
  is_websocket : bool;
  expiry : Z;
  scheduler : bool;
  socket_io : bool;
  client_id : option bytes;
  client : bool;
  pkt_counter : Z;
  keep_alive_interval : Z;
  send_queue : list io_mqtt_message;
  subscriptions : list Z;
  status : io_mqtt_status;
  last_success : Z;
  last_activity : Z;
  reconnect_cb : option Z;
  back_off_in_seconds : Z;
}.

Definition set_is_websocket (v : bool) (c : io_mqtt_connection) : io_mqtt_connection := Conn
  (address c) v (expiry c) (scheduler c) (socket_io c) (client_id c) (client c) (pkt_counter c)
  (keep_alive_interval c) (send_queue c) (subscriptions c) (status c) (last_success c)
  (last_activity c) (reconnect_cb c) (back_off_in_seconds c).
Definition set_expiry (v : Z) (c : io_mqtt_connection) : io_mqtt_connection := Conn (address c)
  (is_websocket c) v (scheduler c) (socket_io c) (client_id c) (client c) (pkt_counter c)
  (keep_alive_interval c) (send_queue c) (subscriptions c) (status c) (last_success c)
  (last_activity c) (reconnect_cb c) (back_off_in_seconds c).
Definition set_socket_io (v : bool) (c : io_mqtt_connection) : io_mqtt_connection := Conn (address
  c) (is_websocket c) (expiry c) (scheduler c) v (client_id c) (client c) (pkt_counter c)
  (keep_alive_interval c) (send_queue c) (subscriptions c) (status c) (last_success c)
  (last_activity c) (reconnect_cb c) (back_off_in_seconds c).
Definition set_client (v : bool) (c : io_mqtt_connection) : io_mqtt_connection := Conn (address c)
  (is_websocket c) (expiry c) (scheduler c) (socket_io c) (client_id c) v (pkt_counter c)
  (keep_alive_interval c) (send_queue c) (subscriptions c) (status c) (last_success c)
  (last_activity c) (reconnect_cb c) (back_off_in_seconds c).
Definition set_pkt_counter (v : Z) (c : io_mqtt_connection) : io_mqtt_connection := Conn (address c)
  (is_websocket c) (expiry c) (scheduler c) (socket_io c) (client_id c) (client c) v
  (keep_alive_interval c) (send_queue c) (subscriptions c) (status c) (last_success c)
  (last_activity c) (reconnect_cb c) (back_off_in_seconds c).
Definition set_send_queue (v : list io_mqtt_message) (c : io_mqtt_connection) : io_mqtt_connection
  := Conn (address c) (is_websocket c) (expiry c) (scheduler c) (socket_io c) (client_id c) (client
  c) (pkt_counter c) (keep_alive_interval c) v (subscriptions c) (status c) (last_success c)
  (last_activity c) (reconnect_cb c) (back_off_in_seconds c).
Definition set_subscriptions (v : list Z) (c : io_mqtt_connection) : io_mqtt_connection := Conn
  (address c) (is_websocket c) (expiry c) (scheduler c) (socket_io c) (client_id c) (client c)
  (pkt_counter c) (keep_alive_interval c) (send_queue c) v (status c) (last_success c)
  (last_activity c) (reconnect_cb c) (back_off_in_seconds c).
Definition set_status (v : io_mqtt_status) (c : io_mqtt_connection) : io_mqtt_connection := Conn
  (address c) (is_websocket c) (expiry c) (scheduler c) (socket_io c) (client_id c) (client c)
  (pkt_counter c) (keep_alive_interval c) (send_queue c) (subscriptions c) v (last_success c)
  (last_activity c) (reconnect_cb c) (back_off_in_seconds c).
Definition set_last_success (v : Z) (c : io_mqtt_connection) : io_mqtt_connection := Conn (address
  c) (is_websocket c) (expiry c) (scheduler c) (socket_io c) (client_id c) (client c) (pkt_counter
  c) (keep_alive_interval c) (send_queue c) (subscriptions c) (status c) v (last_activity c)
  (reconnect_cb c) (back_off_in_seconds c).
Definition set_last_activity (v : Z) (c : io_mqtt_connection) : io_mqtt_connection := Conn (address
  c) (is_websocket c) (expiry c) (scheduler c) (socket_io c) (client_id c) (client c) (pkt_counter
  c) (keep_alive_interval c) (send_queue c) (subscriptions c) (status c) (last_success c) v
  (reconnect_cb c) (back_off_in_seconds c).
Definition set_reconnect_cb (v : option Z) (c : io_mqtt_connection) : io_mqtt_connection := Conn
  (address c) (is_websocket c) (expiry c) (scheduler c) (socket_io c) (client_id c) (client c)
  (pkt_counter c) (keep_alive_interval c) (send_queue c) (subscriptions c) (status c) (last_success
  c) (last_activity c) v (back_off_in_seconds c).
Definition set_back_off_in_seconds (v : Z) (c : io_mqtt_connection) : io_mqtt_connection := Conn
  (address c) (is_websocket c) (expiry c) (scheduler c) (socket_io c) (client_id c) (client c)
  (pkt_counter c) (keep_alive_interval c) (send_queue c) (subscriptions c) (status c) (last_success
  c) (last_activity c) (reconnect_cb c) v.

(** ** Calls and tasks *)

Inductive task :=
| t_free
| t_subscribe_all
| t_unsubscribe_all
| t_publish_message
| t_monitor
| t_begin_disconnect
| t_reconnect
| t_hard_reset
| t_soft_reset
| t_subscription_free (s : Z).

#[export] Instance task_eq_dec : EqDecision task.
Proof. solve_decision. Defined.

(** The transport below the client: a websocket with its resource, or tls. *)
Inductive xio_config :=
| ws_config (hostname : option bytes) (port : Z) (resource_name : option bytes)
| tls_config (hostname : option bytes) (port : Z).

(** What the client sends to the broker when it connects; the user name is that of the
    token provider when the url has none. *)
Record mqtt_options := Options {
  o_client_id : option bytes;
  o_keep_alive : Z;
  o_username : option bytes;
  o_password : option bytes;
}.

Inductive call : Type -> Type :=
| c_alloc : call bool
| c_task_entry : call bool
| c_random_string : call (option bytes)
| c_url_clone (url : io_url) : call prx_error
| c_url_free (url : io_url) : call unit
| c_scheduler_create : call prx_error
| c_scheduler_release : call unit
| c_pal_caps_wsclient : call bool
| c_new_token (provider : nat) : call (bytes * Z + prx_error)
| c_token_policy (provider : nat) : call (option bytes)
| c_client_init : call bool
| c_client_connect (options : mqtt_options) : call Z
| c_client_disconnect (client : bool) : call Z
| c_client_deinit : call unit
| c_client_subscribe (client : bool) (id : Z) (topics : list bytes) : call Z
| c_client_unsubscribe (client : bool) (id : Z) (topics : list bytes) : call Z
| c_client_publish (client : bool) (id : Z) (handle : bytes * bytes) : call Z
| c_codec_ping : call bool
| c_message_create (id : Z) (handle : bytes * bytes) : call bool
| c_xio_create (config : xio_config) : call bool
| c_xio_trusted_certs : call unit
| c_xio_set_scheduler : call Z
| c_xio_send_ping (io : bool) : call unit
| c_xio_destroy : call unit
| c_on_reconnect (ctx : Z) : call bool
| c_on_receive (ctx : Z) (properties : option bytes) (body : bytes) : call unit
| c_on_complete (ctx : Z) (result : prx_error) : call unit.

Inductive event := ev (A : Type) (c : call A) (a : A).
Arguments ev {A}.

(** [w_conn]: [None] before it is created and once it was freed; [w_subs]: the
    subscriptions by address, [w_next_sub] the next address; [w_now], [w_later]: the tasks
    that are queued, the latter with their deadlines. *)
Record world := World {
  w_conn : option io_mqtt_connection;
  w_subs : gmap Z io_mqtt_subscription;
  w_next_sub : Z;
  w_now : list task;
  w_later : list (Z * task);
  w_clock : Z;
  w_trace : list event;
}.

Definition with_conn (c : option io_mqtt_connection) (w : world) : world :=
  World c (w_subs w) (w_next_sub w) (w_now w) (w_later w) (w_clock w) (w_trace w).
Definition with_subs (m : gmap Z io_mqtt_subscription) (n : Z) (w : world) : world :=
  World (w_conn w) m n (w_now w) (w_later w) (w_clock w) (w_trace w).
Definition with_tasks (now : list task) (later : list (Z * task)) (w : world) : world :=
  World (w_conn w) (w_subs w) (w_next_sub w) now later (w_clock w) (w_trace w).
Definition with_clock (t : Z) (w : world) : world :=
  World (w_conn w) (w_subs w) (w_next_sub w) (w_now w) (w_later w) t (w_trace w).
Definition with_trace (tr : list event) (w : world) : world :=
  World (w_conn w) (w_subs w) (w_next_sub w) (w_now w) (w_later w) (w_clock w) tr.

Definition M (A : Type) := world -> res (A * world).
#[export] Instance M_ret : MRet M := fun A a w => Ok (a, w).
#[export] Instance M_bind : MBind M := fun A B f m w => '(a, w) ← m w; f a w.

Definition get_conn : M io_mqtt_connection := fun w => c ← chk (w_conn w); Ok (c, w).
Definition mod_conn (f : io_mqtt_connection -> io_mqtt_connection) : M unit := fun w =>
  c ← chk (w_conn w); Ok (tt, with_conn (Some (f c)) w).
Definition put_conn (c : option io_mqtt_connection) : M unit := fun w => Ok (tt, with_conn c w).
Definition get_sub (a : Z) : M io_mqtt_subscription := fun w => s ← chk (w_subs w !! a); Ok (s, w).
Definition put_sub (a : Z) (s : io_mqtt_subscription) : M unit := fun w =>
  Ok (tt, with_subs (<[a := s]> (w_subs w)) (w_next_sub w) w).
Definition del_sub (a : Z) : M unit := fun w => Ok (tt, with_subs (delete a (w_subs w)) (w_next_sub w) w).
Definition new_sub (s : io_mqtt_subscription) : M Z := fun w =>
  Ok (w_next_sub w, with_subs (<[w_next_sub w := s]> (w_subs w)) (w_next_sub w + 1) w).
Definition ticks_get : M Z := fun w => Ok (w_clock w, w).

(** A task is one of the connection, or one of a subscription. *)
Definition of_connection (t : task) : bool := match t with t_subscription_free _ => false | _ => true end.

(** As in the scheduler: timers are kept in the order of their deadlines. *)
Fixpoint insert_later (d : Z) (t : task) (l : list (Z * task)) : list (Z * task) :=
  match l with
  | [] => [(d, t)]
  | x :: l' => if bool_decide (d < fst x) then (d, t) :: l else x :: insert_later d t l'
  end.

Section Model.
Variable env : forall A, list event -> call A -> A.

Definition do_call {A} (c : call A) : M A := fun w =>
  let x := env A (w_trace w) c in Ok (x, with_trace (w_trace w ++ [ev c x]) w).

(** [prx_scheduler_queue] and [prx_scheduler_clear]. *)
Definition queue (t : task) (delay : Z) : M unit :=
  c ← get_conn;
  if negb (scheduler c) then mret tt
  else
    ok ← do_call c_task_entry;
    if negb ok then mret tt
    else fun w =>
      if bool_decide (delay = 0) then Ok (tt, with_tasks (w_now w ++ [t]) (w_later w) w)
      else Ok (tt, with_tasks (w_now w) (insert_later (w_clock w + delay) t (w_later w)) w).
Definition clear (p : task -> bool) : M unit := fun w =>
  Ok (tt, with_tasks (filter (fun t => p t = false) (w_now w)) (filter (fun x => p (snd x) = false) (w_later w)) w).

Definition do_next (t : task) : M unit := queue t 0.
Definition do_later (t : task) (delay : Z) : M unit :=
  clear (fun u => bool_decide (u = t));; queue t delay.

(** ** Operations of the connection *)

Definition io_mqtt_connection_clear_failures : M unit :=
  now ← ticks_get;
  mod_conn (fun c => set_back_off_in_seconds 0 (set_last_activity now (set_last_success now c))).

Definition io_mqtt_connection_next_pkt_id : M Z :=
  c ← get_conn;
  let id := u16 (pkt_counter c + 1) in
  if bool_decide (id <> 0) then mod_conn (set_pkt_counter id);; mret id
  else mod_conn (set_pkt_counter (u16 (id + 1)));; mret (u16 (id + 1)).

(** The loops over the list of subscriptions: the topics of those with [p], and a
    change of those with [p]. *)
Fixpoint topics_of (p : io_mqtt_subscription -> bool) (l : list Z) : M (list bytes) :=
  match l with
  | [] => mret []
  | a :: l => s ← get_sub a; r ← topics_of p l; mret (if p s then uri s :: r else r)
  end.
Fixpoint change_subs (p : io_mqtt_subscription -> bool) (f : io_mqtt_subscription -> io_mqtt_subscription) (l : list Z) : M unit :=
  match l with
  | [] => mret tt
  | a :: l => s ← get_sub a; (if p s then put_sub a (f s) else mret tt);; change_subs p f l
  end.

Definition set_sub (b : bool) (id : Z) (s : io_mqtt_subscription) : io_mqtt_subscription := Sub (uri s) b id (receiver_cb s).

Definition io_mqtt_connection_subscribe_all : M unit :=
  c ← get_conn;
  l ← topics_of subscription_unsubscribed (subscriptions c);
  if bool_decide (length l = 0)%nat then mret tt
  else
    payload ← do_call c_alloc;
    if negb payload then do_next t_hard_reset
    else
      id ← io_mqtt_connection_next_pkt_id;
      result ← do_call (c_client_subscribe (client c) id l);
      if bool_decide (result <> 0) then do_next t_hard_reset
      else change_subs subscription_unsubscribed (set_sub true id) (subscriptions c).

Definition io_mqtt_connection_unsubscribe_all : M unit :=
  c ← get_conn;
  l ← topics_of subscription_subscribed (subscriptions c);
  if bool_decide (length l = 0)%nat then
    if bool_decide (status c = io_mqtt_status_disconnecting \/ status c = io_mqtt_status_closing)
    then do_next t_begin_disconnect else mret tt
  else
    topics ← do_call c_alloc;
    if negb topics then do_next t_hard_reset
    else
      id ← io_mqtt_connection_next_pkt_id;
      result ← do_call (c_client_unsubscribe (client c) id l);
      if bool_decide (result <> 0) then do_next t_hard_reset
      else change_subs subscription_subscribed (set_sub false id) (subscriptions c).

Definition set_attempt (b : bool) (t : Z) (m : io_mqtt_message) : io_mqtt_message :=
  Message (msg_handle m) (pkt_id m) b t (buf_len m) (msg_cb m).

Definition io_mqtt_connection_publish_message : M unit :=
  c ← get_conn;
  if bool_decide (status c <> io_mqtt_status_connected) then mret tt
  else
    match list_find (fun m => published m = false) (send_queue c) with
    | None => mret tt
    | Some (i, message) =>
        now ← ticks_get;
        mod_conn (fun c => set_send_queue (<[i := set_attempt true now message]> (send_queue c)) c);;
        r ← do_call (c_client_publish (client c) (pkt_id message) (msg_handle message));
        if bool_decide (0 <> r) then
          mod_conn (fun c => set_send_queue (<[i := set_attempt false now message]> (send_queue c)) c);;
          do_next t_soft_reset
        else mret tt
    end.

(** The part behind the test of the token: whether there was activity. *)
Definition monitor_wait (now : Z) : M unit :=
  c ← get_conn;
  let time_diff := u32 (now - last_activity c) in
  let later time_to_wait :=
    let time_to_wait :=
      if bool_decide (expiry c <> 0) then Z.min time_to_wait (u32 (expiry c - now)) else time_to_wait in
    do_later t_monitor time_to_wait in
  if bool_decide (time_diff >= keep_alive_interval c) then
    if existsb (fun m => bool_decide (u32 (now - attempted m) > u32 (2 * keep_alive_interval c))) (send_queue c)
    then do_next t_hard_reset
    else if bool_decide (time_diff >= u32 (6 * keep_alive_interval c) \/ status c = io_mqtt_status_connecting)
    then do_next t_hard_reset
    else
      ping ← do_call c_codec_ping;
      (if ping : bool then do_call (c_xio_send_ping (socket_io c)) else mret tt);;
      later (keep_alive_interval c)
  else later (keep_alive_interval c - time_diff).

(** Without a scheme, the transport alternates when it reconnects: it is switched here
    so that the next one is the same. *)
Definition toggle_websocket (c : io_mqtt_connection) : io_mqtt_connection :=
  match scheme (address c) with None => set_is_websocket (negb (is_websocket c)) c | Some _ => c end.

Definition io_mqtt_connection_monitor : M unit :=
  now ← ticks_get;
  c ← get_conn;
  if bool_decide (expiry c <> 0 /\ expiry c < now) then
    mod_conn toggle_websocket;;
    io_mqtt_connection_clear_failures;;
    do_next t_soft_reset
  else monitor_wait now.

(** ** Callbacks of the mqtt client *)

(** The loop that looks for the subscription of a topic. *)
Fixpoint find_subscription (topic : bytes) (l : list Z) : M (option (io_mqtt_subscription * bytes)) :=
  match l with
  | [] => mret None
  | a :: l =>
      s ← get_sub a;
      if negb (subscribed s) then find_subscription topic l
      else
        fun w =>
          match io_mqtt_topic_matches topic (uri s) with
          | Ok (Some props) => Ok (Some (s, props), w)
          | Ok None => find_subscription topic l w
          | Err e => Err e
          | UB => UB
          end
  end.

Definition io_mqtt_connection_receive_message (topic body : bytes) : M unit :=
  c ← get_conn;
  (if bool_decide (status c = io_mqtt_status_connecting)
   then mod_conn (set_status io_mqtt_status_connected) else mret tt);;
  if bool_decide (status c = io_mqtt_status_closing) then mret tt
  else
    found ← find_subscription topic (subscriptions c);
    match found with
    | None => mret tt
    | Some (s, props) =>
        match receiver_cb s with
        | None => mret tt
        | Some ctx =>
            ok ← do_call c_alloc;
            do_call (c_on_receive ctx (if ok : bool then Some props else None) body);;
            io_mqtt_connection_clear_failures
        end
    end.

(** Completes a message: its callback, then its memory is freed. *)
Definition complete (m : io_mqtt_message) (result : prx_error) : M unit :=
  match msg_cb m with Some ctx => do_call (c_on_complete ctx result) | None => mret tt end.

Definition io_mqtt_connection_handle_PUBLISH_ACK (puback : option Z) : M prx_error :=
  match puback with
  | None => mret er_arg
  | Some packetId =>
      c ← get_conn;
      match list_find (fun m => pkt_id m = packetId) (send_queue c) with
      | None => mret er_not_found
      | Some (i, message) =>
          mod_conn (set_send_queue (delete i (send_queue c)));;
          io_mqtt_connection_clear_failures;;
          complete message er_ok;;
          (if bool_decide (status c = io_mqtt_status_connected) then do_next t_publish_message else mret tt);;
          mret er_ok
      end
  end.

(** The acknowledgement: the id of the packet and for each topic whether it failed. *)
Definition io_mqtt_connection_handle_SUBSCRIBE_ACK (suback : option (Z * list bool)) : M prx_error :=
  match suback with
  | None => mret er_arg
  | Some (packetId, failures) =>
      if existsb id failures then mret er_connecting
      else
        c ← get_conn;
        change_subs (fun s => bool_decide (pktid s = packetId)) (set_sub true 0) (subscriptions c);;
        do_next t_subscribe_all;;
        mret er_ok
  end.

Definition io_mqtt_connection_handle_UNSUBSCRIBE_ACK (unsuback : option Z) : M prx_error :=
  match unsuback with
  | None => mret er_arg
  | Some packetId =>
      c ← get_conn;
      change_subs (fun s => bool_decide (pktid s = packetId)) (fun s => set_sub (subscribed s) 0 s) (subscriptions c);;
      (if bool_decide (status c = io_mqtt_status_disconnecting) then do_next t_unsubscribe_all else mret tt);;
      mret er_ok
  end.

(** Whether the broker accepted the connection. *)
Definition io_mqtt_connection_handle_CONNECT_ACK (connack : option bool) : M prx_error :=
  match connack with
  | None => mret er_arg
  | Some true =>
      mod_conn (set_status io_mqtt_status_connected);;
      do_next t_subscribe_all;;
      do_next t_publish_message;;
      do_next t_monitor;;
      mret er_ok
  | Some false => mret er_refused
  end.

Inductive operation :=
| on_connack (a : option bool)
| on_publish_comp (a : option Z)
| on_publish_ack (a : option Z)
| on_publish_recv
| on_publish_rel
| on_subscribe_ack (a : option (Z * list bool))
| on_unsubscribe_ack (a : option Z)
| on_disconnect
| on_ping_response
| on_other.

(** What the callback does with the result of the handler. *)
Definition operation_done (result : prx_error) : M unit :=
  if bool_decide (result = er_ok) then now ← ticks_get; mod_conn (set_last_activity now)
  else do_next t_hard_reset.

Definition io_mqtt_connection_operation_callback (o : operation) : M unit :=
  match o with
  | on_connack a => result ← io_mqtt_connection_handle_CONNECT_ACK a; operation_done result
  | on_publish_comp a | on_publish_ack a => result ← io_mqtt_connection_handle_PUBLISH_ACK a; operation_done result
  | on_publish_recv | on_publish_rel => mret tt
  | on_subscribe_ack a => result ← io_mqtt_connection_handle_SUBSCRIBE_ACK a; operation_done result
  | on_unsubscribe_ack a => result ← io_mqtt_connection_handle_UNSUBSCRIBE_ACK a; operation_done result
  | on_disconnect =>
      c ← get_conn;
      do_next (if bool_decide (status c = io_mqtt_status_closing) then t_free else t_hard_reset);;
      operation_done er_ok
  | on_ping_response => operation_done er_ok
  | on_other => operation_done er_fatal
  end.

(** Whatever the error is. *)
Definition io_mqtt_connection_error_callback : M unit := do_next t_hard_reset.

(** ** Disconnecting and connecting *)

Definition io_mqtt_connection_begin_disconnect : M unit :=
  c ← get_conn;
  l ← topics_of subscription_subscribed (subscriptions c);
  if bool_decide (length l <> 0)%nat then do_next t_unsubscribe_all
  else _ ← do_call (c_client_disconnect (client c)); mret tt.

Definition io_mqtt_connection_complete_disconnect : M unit :=
  c ← get_conn;
  (if socket_io c then do_call c_xio_destroy;; mod_conn (set_socket_io false) else mret tt);;
  (if client c then do_call c_client_deinit;; mod_conn (set_client false) else mret tt);;
  mod_conn (fun c => set_send_queue (map (set_attempt false 0) (send_queue c)) c);;
  change_subs (fun _ => true) (set_sub false 0) (subscriptions c);;
  clear of_connection.

Definition default_to (port default : Z) : Z := if bool_decide (port <> 0) then port else default.

(** The part of [io_mqtt_connection_reconnect] that creates the transport; [false]:
    [break]. *)
Definition reconnect_io : M bool :=
  mod_conn toggle_websocket;;
  c ← get_conn;
  ws ← (if is_websocket c then do_call c_pal_caps_wsclient else mret false);
  ok ← (if ws : bool then
      do_call (c_xio_create (ws_config (host_name (address c)) (default_to (port (address c)) 443) (path (address c))))
    else
      ok ← do_call (c_xio_create (tls_config (host_name (address c)) (default_to (port (address c)) 8883)));
      (if ok : bool then do_call c_xio_trusted_certs else mret tt);;
      mret ok);
  if negb ok then mret false
  else
    mod_conn (set_socket_io true);;
    r ← do_call c_xio_set_scheduler;
    mret (bool_decide (0 = r)).

(** And the part that connects the client with the user name and the password. *)
Definition reconnect_client : M bool :=
  c ← get_conn;
  login ← match token_provider (address c) with
    | None => mret (Some (None, None))
    | Some provider =>
        t ← do_call (c_new_token provider);
        match t with
        | inr _ => mret None
        | inl (token, ttl) =>
            now ← ticks_get;
            mod_conn (set_expiry (now + ttl));;
            user ← do_call (c_token_policy provider);
            mret (Some (user, Some token))
        end
    end;
  match login with
  | None => mret false
  | Some (user, pass) =>
      let user := match user_name (address c) with Some u => Some u | None => user end in
      let pass := match password (address c) with Some p => Some p | None => pass end in
      r ← do_call (c_client_connect (Options (client_id c) 240 user pass));
      mret (bool_decide (r = 0))
  end.

Definition io_mqtt_connection_reconnect : M unit :=
  c ← get_conn;
  ok ← (if client c then mret true
        else ok ← do_call c_client_init; (if ok : bool then mod_conn (set_client true) else mret tt);; mret ok);
  ok ← (if negb ok then mret false
        else if socket_io c then mret true
        else ok ← reconnect_io; if negb ok then mret false else reconnect_client);
  if negb ok then do_next t_hard_reset
  else
    now ← ticks_get;
    mod_conn (fun c => set_status io_mqtt_status_connecting (set_last_activity now c));;
    do_later t_monitor 30000.

(** The delay of the next attempt, in seconds. *)
Definition next_back_off (b : Z) : Z :=
  let b := u32 ((if bool_decide (b = 0) then 1 else b) * 2) in
  if bool_decide (b > 24 * 60 * 60) then 24 * 60 * 60 else b.

Definition io_mqtt_connection_hard_reset : M unit :=
  c ← get_conn;
  if bool_decide (status c = io_mqtt_status_closing) then do_next t_free
  else
    mod_conn (set_status io_mqtt_status_reset);;
    io_mqtt_connection_complete_disconnect;;
    again ← match reconnect_cb c with Some ctx => do_call (c_on_reconnect ctx) | None => mret true end;
    if negb again then mret tt
    else
      c ← get_conn;
      do_later t_reconnect (u32 (back_off_in_seconds c * 1000));;
      mod_conn (set_back_off_in_seconds (next_back_off (back_off_in_seconds c))).

Definition io_mqtt_connection_soft_reset : M unit :=
  mod_conn (set_status io_mqtt_status_disconnecting);;
  do_next t_begin_disconnect.

Definition io_mqtt_connection_free : M unit :=
  io_mqtt_connection_complete_disconnect;;
  c ← get_conn;
  do_call (c_url_free (address c));;
  (if scheduler c then do_call c_scheduler_release else mret tt);;
  put_conn None.

(** ** Subscriptions *)

(** The link is taken out of the list of the connection, which must be there. *)
Definition io_mqtt_subscription_free (a : Z) : M unit :=
  s ← get_sub a;
  mod_conn (fun c => set_subscriptions (filter (fun b => b <> a) (subscriptions c)) c);;
  (if subscription_subscribed s then
     id ← io_mqtt_connection_next_pkt_id;
     c ← get_conn;
     _ ← do_call (c_client_unsubscribe (client c) id [uri s]); mret tt
   else mret tt);;
  del_sub a.

Definition io_mqtt_subscription_release (a : Z) : M unit :=
  s ← get_sub a;
  _ ← get_conn;
  put_sub a (Sub (uri s) (subscribed s) (pktid s) None);;
  do_next (t_subscription_free a).

Definition io_mqtt_connection_subscribe (topic : bytes) (cb : option Z) : M (Z + prx_error) :=
  ok ← do_call c_alloc;
  if negb ok then mret (inr er_out_of_memory)
  else
    ok ← do_call c_alloc;
    if negb ok then mret (inr er_out_of_memory)
    else
      a ← new_sub (Sub topic false 0 cb);
      mod_conn (fun c => set_subscriptions (subscriptions c ++ [a]) c);;
      c ← get_conn;
      (if bool_decide (status c = io_mqtt_status_connected) then do_next t_subscribe_all else mret tt);;
      mret (inl a).

(** ** Operations of the user *)

(** The topic of a message: its first property follows a '?'.  [concat]: whether the
    text could be added, which is not checked. *)
Definition topic_name (topic : bytes) (properties : option bytes) (concat : bool) : bytes :=
  match properties with
  | Some p =>
      let p := match p with c :: r => (if bool_decide (c = ch_amp) then ch_quest else c) :: r | [] => [] end in
      if concat then topic ++ p else topic
  | None => topic
  end.

Definition io_mqtt_connection_publish (topic : bytes) (properties : option bytes) (buffer : bytes) (cb : option Z) : M prx_error :=
  _ ← get_conn;
  ok ← do_call c_alloc;
  if negb ok then mret er_out_of_memory
  else
    id ← io_mqtt_connection_next_pkt_id;
    let fail := complete (Message ([], []) id false 0 (zlen buffer) cb) er_out_of_memory;; mret er_out_of_memory in
    ok ← do_call c_alloc;
    if negb ok then fail
    else
      cat ← match properties with Some _ => do_call c_alloc | None => mret true end;
      let handle := (topic_name topic properties cat, buffer) in
      ok ← do_call (c_message_create id handle);
      if negb ok then fail
      else
        do_next t_publish_message;;
        mod_conn (fun c => set_send_queue (send_queue c ++ [Message handle id false 0 (zlen buffer) cb]) c);;
        mret er_ok.

(** Takes the messages off the queue one after the other. *)
Fixpoint abort_messages (l : list io_mqtt_message) : M unit :=
  match l with
  | [] => mret tt
  | m :: l => mod_conn (set_send_queue l);; complete m er_aborted;; abort_messages l
  end.

Definition io_mqtt_connection_close : M unit :=
  c ← get_conn;
  mod_conn (fun c => set_reconnect_cb None (set_status io_mqtt_status_closing c));;
  abort_messages (send_queue c);;
  if bool_decide (status c <> io_mqtt_status_reset)
  then do_next t_begin_disconnect;; do_later t_free 30000
  else do_next t_free.

Definition io_mqtt_connection_connect (cb : option Z) : M prx_error :=
  mod_conn (set_reconnect_cb cb);;
  do_next t_reconnect;;
  mret er_ok.

(** A connection as [mem_zalloc] and the first assignments leave it. *)
Definition new_connection (url : io_url) (id : option bytes) (ws sched : bool) : io_mqtt_connection :=
  Conn url ws 0 sched false id false 0 10000 [] [] io_mqtt_status_reset 0 0 None 0.

Definition io_mqtt_connection_create (url : io_url) (id : option bytes) : M prx_error :=
  ok ← do_call c_alloc;
  if negb ok then mret er_out_of_memory
  else
    let fail id result :=
      put_conn (Some (new_connection url id false false));;
      io_mqtt_connection_close;; mret result in
    id ← match id with
      | Some s => ok ← do_call c_alloc; mret (if ok : bool then Some s else None)
      | None => do_call c_random_string
      end;
    match id with
    | None => fail None er_out_of_memory
    | Some id =>
        r ← do_call (c_url_clone url);
        if bool_decide (r <> er_ok) then fail (Some id) r
        else
          let ws := match scheme url with
            | None => true
            | Some s => bool_decide (STRING_compare_c_str_nocase (Some s) (Some (str "wss")) = 0)
            end in
          r ← do_call c_scheduler_create;
          if bool_decide (r <> er_ok) then fail (Some id) r
          else put_conn (Some (new_connection url (Some id) ws true));; mret er_ok
    end.

(** ** The scheduler and the steps of a connection *)

Definition run_task (t : task) : M unit :=
  match t with
  | t_free => io_mqtt_connection_free
  | t_subscribe_all => io_mqtt_connection_subscribe_all
  | t_unsubscribe_all => io_mqtt_connection_unsubscribe_all
  | t_publish_message => io_mqtt_connection_publish_message
  | t_monitor => io_mqtt_connection_monitor
  | t_begin_disconnect => io_mqtt_connection_begin_disconnect
  | t_reconnect => io_mqtt_connection_reconnect
  | t_hard_reset => io_mqtt_connection_hard_reset
  | t_soft_reset => io_mqtt_connection_soft_reset
  | t_subscription_free s => io_mqtt_subscription_free s
  end.

(** The task the scheduler takes next: a timer that is due, then the oldest task. *)
Definition take_next (w : world) : option (task * world) :=
  let run_now :=
    match w_now w with [] => None | t :: l => Some (t, with_tasks l (w_later w) w) end in
  match w_later w with
  | (d, t) :: l => if bool_decide (d <= w_clock w) then Some (t, with_tasks (w_now w) l w) else run_now
  | [] => run_now
  end.

Definition work : M unit := fun w =>
  match take_next w with None => Ok (tt, w) | Some (t, w) => run_task t w end.

(** What happens to a connection: calls of the user, of the mqtt client, of the
    scheduler, and time. *)
Inductive input :=
| i_connect (cb : option Z)
| i_publish (topic : bytes) (properties : option bytes) (buffer : bytes) (cb : option Z)
| i_subscribe (topic : bytes) (cb : option Z)
| i_release (s : Z)
| i_close
| i_operation (o : operation)
| i_error
| i_receive (topic body : bytes)
| i_tick (d : Z)
| i_work.

Definition step (i : input) : M unit :=
  match i with
  | i_connect cb => _ ← io_mqtt_connection_connect cb; mret tt
  | i_publish t p b cb => _ ← io_mqtt_connection_publish t p b cb; mret tt
  | i_subscribe t cb => _ ← io_mqtt_connection_subscribe t cb; mret tt
  | i_release s => io_mqtt_subscription_release s
  | i_close => io_mqtt_connection_close
  | i_operation o => io_mqtt_connection_operation_callback o
  | i_error => io_mqtt_connection_error_callback
  | i_receive t b => io_mqtt_connection_receive_message t b
  | i_tick d => fun w => Ok (tt, with_clock (w_clock w + d) w)
  | i_work => work
  end.

Fixpoint run (l : list input) : M unit :=
  match l with [] => mret tt | i :: l => step i;; run l end.

End Model.
End IoMqtt.
