(* ===== verification/IoMqttTopic.v ===== *)
(** * Topics and properties of mqtt connections (src/io_mqtt.c)

    For patterns without a single level wildcard the comparison of topics is what the
    wildcard '#' means, for every topic; a pattern with '+' is read behind its end. *)
From Stdlib Require Import String.
From stdpp Require Import base option list numbers sets gmap.
From S2P Require Import Prelude PrxTypes UtilString UtilInt UtilKey IoToken IoUrl IoMqtt.
Import PrxTypes UtilString UtilInt UtilKey IoMqtt.
Open Scope Z_scope.

Module IoMqttTopic.

(** ** Reference *)

(** The text in front of the first occurrence of the characters [c] [d]. *)
Fixpoint before (c d : Z) (l : bytes) : option bytes :=
  match l with
  | [] => None
  | x :: r => if bool_decide (x = c /\ head r = Some d) then Some [] else cons x <$> before c d r
  end.

(** With '/#' the topic has to go on with a '/' there, and the rest is returned from
    that '/' on; otherwise the topic has to be the pattern. *)
Definition topic_spec (topic pat : bytes) : option bytes :=
  match before ch_slash ch_hash pat with
  | Some p => if bool_decide (p ++ [ch_slash] `prefix_of` topic) then Some (drop (length p) topic) else None
  | None => if bool_decide (topic = pat) then Some [] else None
  end.

(** ** Lemmas *)

Definition char_of (s : bytes) : Z := match s with [] => 0 | c :: _ => c end.

Lemma char_at_app a s : char_at (a ++ s) (length a) = Ok (char_of s).
Proof.
  unfold char_at. destruct s as [|c s].
  - rewrite app_nil_r, bool_decide_eq_false_2, bool_decide_eq_true_2 by lia. done.
  - rewrite bool_decide_eq_true_2 by (rewrite length_app; cbn; lia).
    rewrite app_nth2, Nat.sub_diag by lia. done.
Qed.

Lemma char_at_app_S a c s : char_at (a ++ c :: s) (S (length a)) = Ok (char_of s).
Proof.
  replace (a ++ c :: s) with ((a ++ [c]) ++ s) by by rewrite <- app_assoc.
  replace (S (length a)) with (length (a ++ [c])) by (rewrite length_app; cbn; lia). apply char_at_app.
Qed.

Lemma char_at_over s i : (length s < i)%nat -> char_at s i = UB.
Proof. intros. unfold char_at. by rewrite !bool_decide_eq_false_2 by lia. Qed.

Lemma topic_spec_cons c t m : head m <> Some ch_hash \/ c <> ch_slash ->
  topic_spec (c :: t) (c :: m) = topic_spec t m.
Proof.
  intros Hm. unfold topic_spec. cbn [before].
  rewrite bool_decide_eq_false_2 by naive_solver.
  destruct (before ch_slash ch_hash m) as [p|]; cbn.
  - erewrite bool_decide_ext; [done|]. split; [apply prefix_cons_inv_2|by apply prefix_cons].
  - erewrite bool_decide_ext; [done|]. naive_solver.
Qed.

Lemma topic_spec_ne c d t m : c <> d -> topic_spec (c :: t) (d :: m) = None.
Proof.
  intros Hc. unfold topic_spec. cbn [before].
  case_bool_decide as Hm; [|destruct (before ch_slash ch_hash m) as [p|]; cbn].
  - rewrite bool_decide_eq_false_2; [done|]. intros ?%prefix_cons_inv_1. cbn in *. naive_solver.
  - rewrite bool_decide_eq_false_2; [done|]. by intros ?%prefix_cons_inv_1.
  - rewrite bool_decide_eq_false_2; [done|]. naive_solver.
Qed.

Lemma topic_spec_nil_l d m : topic_spec [] (d :: m) = None.
Proof.
  unfold topic_spec. destruct (before ch_slash ch_hash (d :: m)) as [p|]; [|done].
  rewrite bool_decide_eq_false_2; [done|]. intros ?%prefix_nil_inv. by destruct p.
Qed.

Lemma topic_spec_hash t q : topic_spec (ch_slash :: t) (ch_slash :: ch_hash :: q) = Some (ch_slash :: t).
Proof.
  unfold topic_spec. cbn [before]. rewrite (bool_decide_eq_true_2 (_ /\ _)) by done.
  rewrite bool_decide_eq_true_2; [done|]. by apply prefix_cons, prefix_nil.
Qed.

Lemma before_tail c d x m : before c d (x :: m) = None -> before c d m = None.
Proof. cbn. case_bool_decide; [done|]. by destruct (before c d m). Qed.

(** The loop after [length a] equal characters. *)
Lemma topic_loop_spec t : forall fuel a b m, (length t < fuel)%nat -> length a = length b ->
  wf_cstr t -> wf_cstr m -> before ch_slash ch_plus m = None ->
  topic_loop fuel (a ++ t) (b ++ m) (length a) = Ok (topic_spec t m).
Proof.
  induction t as [|c t IH]; intros fuel a b m Hf Hl Ht Hm Hp; (destruct fuel as [|fuel]; [cbn in Hf; lia|]);
    cbn [topic_loop]; rewrite char_at_app, Hl, char_at_app; cbn [char_of mbind res_bind].
  - destruct m as [|d m].
    + rewrite bool_decide_eq_true_2 by done. by rewrite <- Hl, drop_app_length.
    + assert (d <> 0) by (inversion Hm; lia). cbn [char_of].
      rewrite topic_spec_nil_l, bool_decide_eq_false_2, bool_decide_eq_true_2 by naive_solver. done.
  - assert (c <> 0) by (inversion Ht; lia).
    rewrite bool_decide_eq_false_2 by naive_solver. destruct m as [|d m]; cbn [char_of].
    + by rewrite bool_decide_eq_true_2 by done.
    + destruct (decide (c = d)) as [<-|Hcd]; [|by rewrite bool_decide_eq_true_2, topic_spec_ne].
      rewrite bool_decide_eq_false_2 by tauto.
      assert (Hgo : topic_loop fuel (a ++ c :: t) (b ++ c :: m) (S (length b)) = Ok (topic_spec t m)).
      { replace (a ++ c :: t) with ((a ++ [c]) ++ t) by by rewrite <- app_assoc.
        replace (b ++ c :: m) with ((b ++ [c]) ++ m) by by rewrite <- app_assoc.
        replace (S (length b)) with (length (a ++ [c])) by (rewrite length_app; cbn; lia).
        apply IH; [cbn in Hf; lia|rewrite !length_app; cbn; lia| | |by eapply before_tail].
        - by inversion Ht. - by inversion Hm. }
      rewrite char_at_app_S. cbn [mbind res_bind].
      destruct (decide (c = ch_slash)) as [->|Hc].
      * rewrite (bool_decide_eq_true_2 (ch_slash = _)) by done.
        destruct (decide (head m = Some ch_hash)) as [Hh|Hh].
        -- destruct m as [|? m]; [done|]. injection Hh as ->. cbn [char_of].
           by rewrite bool_decide_eq_true_2, topic_spec_hash, <- Hl, drop_app_length.
        -- rewrite (bool_decide_eq_false_2 (char_of m = ch_hash)), (bool_decide_eq_false_2 (char_of m = ch_plus)).
           ++ rewrite topic_spec_cons by tauto. done.
           ++ destruct m; [done|]. cbn in *. intros ->. by rewrite bool_decide_eq_true_2 in Hp.
           ++ destruct m; [done|]. cbn in *. congruence.
      * rewrite (bool_decide_eq_false_2 (c = _)) by done. rewrite topic_spec_cons by tauto. done.
Qed.

Lemma topic_matches_ok topic pat : wf_cstr topic -> wf_cstr pat -> before ch_slash ch_plus pat = None ->
  io_mqtt_topic_matches topic pat = Ok (topic_spec topic pat).
Proof. intros. unfold io_mqtt_topic_matches. apply (topic_loop_spec topic (S (length topic)) [] [] pat); [lia|done..]. Qed.

(** C34: For every topic and every pattern without the wildcard '+', the comparison ends,
    reads neither string behind its end, and returns what the pattern says: with '/#' the
    part of the topic from that level on if the levels before are the same, without it
    the empty rest if the topic is the pattern, and no match otherwise. *)
Theorem topic_matches_spec topic pat : wf_cstr topic -> wf_cstr pat -> before ch_slash ch_plus pat = None ->
  io_mqtt_topic_matches topic pat = Ok (topic_spec topic pat).
Proof. apply topic_matches_ok. Qed.

Lemma topic_matches_spec_witness :
  wf_cstr (str "a/b/c") /\ wf_cstr (str "a/#") /\ before ch_slash ch_plus (str "a/#") = None /\
  io_mqtt_topic_matches (str "a/b/c") (str "a/#") = Ok (Some (str "/b/c")).
Proof.
  assert (wf_cstr (str "a/b/c")) by (repeat constructor; done).
  assert (wf_cstr (str "a/#")) by (repeat constructor; done).
  split_and!; [done|done|done|].
  rewrite (topic_matches_spec (str "a/b/c") (str "a/#")) by done. done.
Defined.

(** ** The wildcard '+' *)

Lemma skip_level_app lvl t i : ch_slash ∉ lvl -> skip_level (lvl ++ ch_slash :: t) i = (i + length lvl)%nat.
Proof.
  revert i. induction lvl as [|c l IH]; intros i Hn; cbn [app skip_level length];
    [rewrite bool_decide_eq_true_2 by done; lia|].
  apply not_elem_of_cons in Hn as [Hc Hn]. rewrite bool_decide_eq_false_2 by done. rewrite IH by done. lia.
Qed.

(** Up to the wildcard the characters are compared one by one. *)
Lemma topic_loop_common fuel p : forall a b t m, length a = length b -> wf_cstr p ->
  before ch_slash ch_plus (p ++ [ch_slash]) = None -> before ch_slash ch_hash (p ++ [ch_slash]) = None ->
  head m = Some ch_slash ->
  topic_loop (length p + fuel) (a ++ p ++ t) (b ++ p ++ m) (length a) =
  topic_loop fuel ((a ++ p) ++ t) ((b ++ p) ++ m) (length (a ++ p)).
Proof.
  induction p as [|c p IH]; intros a b t m Hl Hw Hp Hh Hm; [by rewrite !app_nil_r|].
  cbn [length Nat.add topic_loop app]. rewrite char_at_app, Hl, char_at_app. cbn [char_of mbind res_bind].
  assert (c <> 0) by (inversion Hw; lia).
  rewrite bool_decide_eq_false_2, bool_decide_eq_false_2 by naive_solver. rewrite char_at_app_S. cbn [mbind res_bind].
  assert (Hnext : forall d, before ch_slash d (c :: p ++ [ch_slash]) = None -> c = ch_slash -> d <> ch_slash ->
    char_of (p ++ m) <> d).
  { intros d Hd -> Hne. cbn in Hd. case_bool_decide as Hc; [done|]. destruct p as [|e p].
    - destruct m; cbn in *; naive_solver. - cbn in *. naive_solver. }
  replace (a ++ c :: p ++ t) with ((a ++ [c]) ++ p ++ t) by by rewrite <- !app_assoc.
  replace (b ++ c :: p ++ m) with ((b ++ [c]) ++ p ++ m) by by rewrite <- !app_assoc.
  replace (S (length b)) with (length (a ++ [c])) by (rewrite length_app; cbn; lia).
  replace (a ++ c :: p) with ((a ++ [c]) ++ p) by by rewrite <- app_assoc.
  replace (b ++ c :: p) with ((b ++ [c]) ++ p) by by rewrite <- app_assoc.
  rewrite <- (IH (a ++ [c]) (b ++ [c]) t m); [|rewrite !length_app; cbn; lia|by inversion Hw|by eapply before_tail|by eapply before_tail|done].
  case_bool_decide as Hc; [|done]. rewrite !bool_decide_eq_false_2; [done|by apply Hnext..].
Qed.

(** A pattern with the wildcard '+' is read behind its end, whenever the level of the
    topic in its place is longer than what follows the wildcard and is not the last:
    the index of the topic is used for the pattern, too. *)
Lemma topic_plus_overrun p lvl t q :
  wf_cstr p -> before ch_slash ch_plus (p ++ [ch_slash]) = None -> before ch_slash ch_hash (p ++ [ch_slash]) = None ->
  ch_slash ∉ lvl -> (length q < length lvl)%nat ->
  io_mqtt_topic_matches (p ++ ch_slash :: lvl ++ ch_slash :: t) (p ++ ch_slash :: ch_plus :: q) = UB.
Proof.
  intros Hw Hp Hh Hl Hq. unfold io_mqtt_topic_matches.
  set (t1 := ch_slash :: lvl ++ ch_slash :: t). set (m1 := ch_slash :: ch_plus :: q).
  replace (S (length (p ++ t1))) with (length p + S (S (length lvl + S (length t))))%nat
    by (unfold t1; rewrite length_app; cbn; rewrite length_app; cbn; lia).
  rewrite (topic_loop_common _ p [] [] t1 m1) by done. cbn [app].
  cbn [topic_loop]. rewrite !char_at_app. cbn [char_of t1 m1 mbind res_bind].
  rewrite bool_decide_eq_false_2, bool_decide_eq_false_2, bool_decide_eq_true_2 by naive_solver.
  replace (char_at (p ++ m1) (S (length p))) with (Ok ch_plus) by (unfold m1; by rewrite char_at_app_S).
  cbn [mbind res_bind]. rewrite bool_decide_eq_false_2, bool_decide_eq_true_2 by done.
  replace (drop (S (length p)) (p ++ t1)) with (lvl ++ ch_slash :: t)
    by (unfold t1; by rewrite drop_app_ge, Nat.sub_succ_l, Nat.sub_diag by lia).
  rewrite skip_level_app by done.
  replace (p ++ t1) with ((p ++ ch_slash :: lvl) ++ ch_slash :: t) by (unfold t1; by rewrite <- app_assoc).
  replace (S (length p) + length lvl)%nat with (length (p ++ ch_slash :: lvl)) by (rewrite length_app; cbn; lia).
  rewrite char_at_app. cbn [char_of mbind res_bind]. rewrite bool_decide_eq_false_2 by done.
  rewrite char_at_app_S. cbn [mbind res_bind].
  rewrite (char_at_over _ (S (length (p ++ ch_slash :: lvl)))); [done|].
  unfold m1. rewrite !length_app. cbn. lia.
Qed.


(** ** Properties *)

(** The value of a property that was added is found, and so is the value of a property
    whose name only ends with the name that is asked for. *)
Lemma property_suffix_found :
  let bag := io_mqtt_properties_add 4 (Some []) (Some (str "rid")) (Some (str "5")) in
  bag = (er_ok, Some (str "&rid=5")) /\
  io_mqtt_properties_get (snd bag) (Some (str "rid")) true 8 = Ok (str "5") /\
  io_mqtt_properties_get (snd bag) (Some (str "id")) true 8 = Ok (str "5").
Proof. done. Qed.

End IoMqttTopic.
