(* ===== verification/IoMqttSpec.v ===== *)
(** * What mqtt connections guarantee (src/io_mqtt.c)

    For every sequence of calls of the user, of the mqtt client and of the scheduler:
    nothing that was freed is used, every message that was accepted is completed once, a
    connection that is up is monitored and publishes what it has, and a connection that
    is closed is freed, unless the close is undone. *)
From Stdlib Require Import String.
From stdpp Require Import base option list numbers sets gmap.
From S2P Require Import Prelude PrxTypes UtilString UtilInt UtilKey IoToken IoUrl IoMqtt IoMqttTopic.
Import PrxTypes UtilString UtilInt UtilKey IoUrl IoMqtt IoMqttTopic.
Open Scope Z_scope.

Module IoMqttSpec.

(** ** Worlds as the operations build them *)

Definition setc (c : io_mqtt_connection) (w : world) : world := with_conn (Some c) w.
Definition push (t : task) (w : world) : world := with_tasks (w_now w ++ [t]) (w_later w) w.
Definition push_later (t : task) (delay : Z) (w : world) : world :=
  with_tasks (w_now w) (insert_later (w_clock w + delay) t (w_later w)) w.
Definition cleared (p : task -> bool) (w : world) : world :=
  with_tasks (filter (fun t => p t = false) (w_now w)) (filter (fun x => p (snd x) = false) (w_later w)) w.
Definition logged {A} (k : call A) (x : A) (w : world) : world := with_trace (w_trace w ++ [ev k x]) w.
Definition resub (m : gmap Z io_mqtt_subscription) (w : world) : world := with_subs m (w_next_sub w) w.

(** ** Ghost state and contract *)

(** [g_closed]: whether the user closed the connection; [g_free]: the time at which it
    has to be freed, if nothing is there that could undo the close; [g_accepted]: the
    contexts of the messages that were accepted. *)
Record ghost := Ghost { g_closed : bool; g_free : option Z; g_accepted : list Z }.

Definition pend (t : task) (w : world) : Prop := t ∈ w_now w \/ t ∈ (w_later w).*2.
#[export] Instance pend_dec t w : Decision (pend t w).
Proof. unfold pend. apply _. Defined.

(** The subscriptions that are to be freed. *)
Definition frees (l : list task) : list Z :=
  omap (fun t => match t with t_subscription_free a => Some a | _ => None end) l.

Arguments frees : simpl never.

Definition pattern_ok (s : bytes) : Prop := wf_cstr s /\ before ch_slash ch_plus s = None.

Definition is_status (w : world) (s : io_mqtt_status) : Prop := exists c, w_conn w = Some c /\ status c = s.

(** No timer that frees the connection is due at time [t]. *)
Definition no_free_due (t : Z) (w : world) : Prop := Forall (fun x => snd x = t_free -> t < fst x) (w_later w).
#[export] Instance no_free_due_dec t w : Decision (no_free_due t w).
Proof. unfold no_free_due. apply _. Defined.

(** What the user, the mqtt client and the clock do.  The user makes no call after the
    close, subscribes with patterns without '+', and releases a subscription once.  The
    mqtt client calls while there is a connection that has it; a message does not come before the
    broker accepted the connection.  Time may pass, but the timer that frees a closed
    connection, 30 seconds after the close, does not come due while a released subscription
    still waits for its task: the scheduler gets to the task in time. *)
Definition allowed (g : ghost) (w : world) (i : input) : Prop :=
  match i with
  | i_connect _ | i_publish _ _ _ _ | i_close => g_closed g = false
  | i_subscribe topic _ => g_closed g = false /\ pattern_ok topic
  | i_release a => g_closed g = false /\ is_Some (w_subs w !! a) /\ a ∉ frees (w_now w)
  | i_operation _ | i_error => exists c, w_conn w = Some c /\ client c = true
  | i_receive topic _ => wf_cstr topic /\ exists c, w_conn w = Some c /\ client c = true /\
      status c <> io_mqtt_status_connecting
  | i_tick d => 0 <= d /\ (frees (w_now w) = [] \/ no_free_due (w_clock w + d) w)
  | i_work => True
  end.

(** A token that does not expire before [t]. *)
Definition token_until (c : io_mqtt_connection) (t : Z) : Prop := expiry c = 0 \/ t <= expiry c.
#[export] Instance token_until_dec c t : Decision (token_until c t).
Proof. unfold token_until. apply _. Defined.

(** A connection that is closed without pending resets: it is freed after 30 seconds. *)
Definition clean_close (w : world) : option Z :=
  match w_conn w with
  | Some c =>
      if bool_decide (status c <> io_mqtt_status_reset /\ ~ pend t_soft_reset w /\ ~ pend t_reconnect w /\
                      token_until c (w_clock w))
      then Some (w_clock w + 30000) else None
  | None => None
  end.

Section Spec.
Variable env : forall A, list event -> call A -> A.

(** How the ghost state follows the inputs: a publish is accepted when it returns
    [er_ok]; a late acceptance by the broker and a token that expires disturb the close. *)
Definition ghost_step (g : ghost) (w : world) (i : input) : ghost :=
  match i with
  | i_close => Ghost true (clean_close w) (g_accepted g)
  | i_publish t p b (Some ctx) =>
      match io_mqtt_connection_publish env t p b (Some ctx) w with
      | Ok (er_ok, _) => Ghost (g_closed g) (g_free g) (g_accepted g ++ [ctx])
      | _ => g
      end
  | i_operation (on_connack (Some true)) => Ghost (g_closed g) None (g_accepted g)
  | i_tick d =>
      match w_conn w with
      | Some c => if bool_decide (token_until c (w_clock w + d)) then g else Ghost (g_closed g) None (g_accepted g)
      | None => g
      end
  | _ => g
  end.

(** A connection that was created, and what can happen to it. *)
Inductive reach : ghost -> world -> Prop :=
| reach_create url id w w' : w_subs w = ∅ -> w_now w = [] -> w_later w = [] -> w_trace w = [] ->
    io_mqtt_connection_create env url id w = Ok (er_ok, w') -> reach (Ghost false None []) w'
| reach_step g w i w' : reach g w -> allowed g w i -> step env i w = Ok (tt, w') -> reach (ghost_step g w i) w'.

(** ** Invariant *)

(** The contexts that were called back with the outcome of an accepted message. *)
Definition outcome (e : event) : option Z :=
  match e with
  | ev (c_on_complete ctx r) _ => if bool_decide (r = er_ok \/ r = er_aborted) then Some ctx else None
  | _ => None
  end.
Definition settled (tr : list event) : list Z := omap outcome tr.
Definition queued (q : list io_mqtt_message) : list Z := omap msg_cb q.

Arguments settled : simpl never. Arguments queued : simpl never.

(** No subscription is freed after the connection. *)
Fixpoint order (l : list task) : Prop :=
  match l with [] => True | t :: l => (t = t_free -> frees l = []) /\ order l end.

Record core (g : ghost) (c : io_mqtt_connection) (w : world) : Prop := {
  k_conn : w_conn w = Some c;
  k_sched : scheduler c = true;
  k_keep : keep_alive_interval c = 10000;
  k_subs a : a ∈ subscriptions c <-> is_Some (w_subs w !! a);
  k_uri a s : w_subs w !! a = Some s -> pattern_ok (uri s);
  k_fresh a : is_Some (w_subs w !! a) -> a < w_next_sub w;
  k_frees a : a ∈ frees (w_now w) -> a ∈ subscriptions c;
  k_once : NoDup (frees (w_now w));
  k_later : frees (w_later w).*2 = [];
  k_order : order (w_now w);
  k_due d : (d, t_free) ∈ w_later w -> d <= w_clock w -> frees (w_now w) = [];
  k_open : g_closed g = false -> ~ pend t_free w;
  k_settled : g_accepted g ≡ₚ settled (w_trace w) ++ queued (send_queue c);
  k_closed : g_closed g = true -> send_queue c = [];
  k_closing : status c = io_mqtt_status_closing -> g_closed g = true;
  k_free d : g_free g = Some d -> g_closed g = true /\ status c = io_mqtt_status_closing /\ (d, t_free) ∈ w_later w /\
    ~ pend t_soft_reset w /\ ~ pend t_reconnect w /\ token_until c (w_clock w);
}.

(** [x]: the task that is running. *)
Definition pending (x : option task) (t : task) (w : world) : Prop := x = Some t \/ pend t w.
Definition resetting (x : option task) (w : world) : Prop := pending x t_hard_reset w \/ pending x t_soft_reset w.

Definition monitored (x : option task) (c : io_mqtt_connection) (w : world) : Prop :=
  status c = io_mqtt_status_connecting \/ status c = io_mqtt_status_connected ->
  pending x t_monitor w \/ resetting x w.

Definition publishing (x : option task) (c : io_mqtt_connection) (w : world) : Prop :=
  status c = io_mqtt_status_connected -> Exists (fun m => published m = false) (send_queue c) ->
  pending x t_publish_message w \/ Exists (fun m => published m = true) (send_queue c) \/ resetting x w.

Definition live x c w : Prop := monitored x c w /\ publishing x c w.

Definition good (g : ghost) (w : world) : Prop :=
  match w_conn w with
  | Some c => core g c w /\ live None c w
  | None => w_now w = [] /\ w_later w = [] /\ g_closed g = true /\ g_accepted g ≡ₚ settled (w_trace w)
  end.

(** ** Lists of tasks *)

Lemma frees_app l k : frees (l ++ k) = frees l ++ frees k.
Proof. apply omap_app. Qed.

Lemma frees_conn t : of_connection t = true -> frees [t] = [].
Proof. by destruct t. Qed.

Lemma frees_filter p l : (forall t, p t = true -> of_connection t = true) ->
  frees (filter (fun t => p t = false) l) = frees l.
Proof.
  intros Hp. induction l as [|t l IH]; [done|]. rewrite filter_cons. case_decide as Ht.
  - change (frees ([t] ++ filter (fun t => p t = false) l) = frees ([t] ++ l)). by rewrite !frees_app, IH.
  - rewrite IH. change (frees (t :: l)) with (frees ([t] ++ l)). rewrite frees_app, frees_conn; [done|].
    apply Hp. by destruct (p t).
Qed.

Lemma filter_later p (l : list (Z * task)) :
  (filter (fun x => p (snd x) = false) l).*2 = filter (fun t => p t = false) l.*2.
Proof.
  induction l as [|[d t] l IH]; [done|]. rewrite filter_cons. cbn [fmap list_fmap snd]. rewrite filter_cons.
  destruct (decide (p t = false)); cbn [fmap list_fmap snd]; by rewrite IH.
Qed.

Lemma order_app l t : order l -> of_connection t = true -> order (l ++ [t]).
Proof.
  induction l as [|u l IH]; cbn [order app]; intros H Ht; [done|]. destruct H as [Hu Hl]. split; [|auto].
  intros Eu. by rewrite frees_app, Hu, frees_conn.
Qed.

Lemma order_no_free l : t_free ∉ l -> order l.
Proof. induction l as [|u l IH]; [done|]. rewrite not_elem_of_cons. intros [Hu Hl]. split; [|auto]. intros ->. done. Qed.

Lemma order_filter p l : (forall t, p t = true -> of_connection t = true) -> order l -> order (filter (fun t => p t = false) l).
Proof.
  intros Hp. induction l as [|u l IH]; [done|]. intros [Hu Hl]. rewrite filter_cons. case_decide; [|auto].
  split; [|auto]. intros Eu. rewrite frees_filter by done. auto.
Qed.

Lemma elem_of_insert_later x d t l : x ∈ insert_later d t l <-> x = (d, t) \/ x ∈ l.
Proof.
  induction l as [|y l IH]; cbn; [set_solver|]. case_bool_decide; set_solver.
Qed.
Lemma frees_insert_later d t l : of_connection t = true -> frees (insert_later d t l).*2 = frees l.*2.
Proof.
  intros Ht. induction l as [|[e u] l IH]; cbn [insert_later fmap list_fmap]; [by apply frees_conn|].
  case_bool_decide.
  - cbn [fmap list_fmap snd]. change (t :: u :: l.*2) with ([t] ++ u :: l.*2). by rewrite frees_app, frees_conn.
  - cbn [fmap list_fmap snd]. change (u :: (insert_later d t l).*2) with ([u] ++ (insert_later d t l).*2).
    change (u :: l.*2) with ([u] ++ l.*2). by rewrite !frees_app, IH.
Qed.

(** ** What is pending *)

Lemma pend_push u t w : pend u (push t w) <-> pend u w \/ u = t.
Proof. unfold pend, push. cbn. set_solver. Qed.
Lemma pend_push_later u t d w : pend u (push_later t d w) <-> pend u w \/ u = t.
Proof.
  unfold pend, push_later. cbn. rewrite !list_elem_of_fmap. setoid_rewrite elem_of_insert_later. split.
  - intros [?|([e v] & -> & [[= -> ->]|?])]; eauto 6.
  - intros [[?|([e v] & -> & ?)]| ->]; [auto|right; exists (e, v); auto|]. right. exists (w_clock w + d, t). auto.
Qed.
Lemma pend_cleared u p w : pend u (cleared p w) <-> pend u w /\ p u = false.
Proof. unfold pend, cleared. cbn. rewrite filter_later, !list_elem_of_filter. tauto. Qed.

Definition push_d (t : task) (d : Z) (w : world) : world :=
  with_tasks (if bool_decide (d = 0) then w_now w ++ [t] else w_now w)
    (if bool_decide (d = 0) then w_later w else insert_later (w_clock w + d) t (w_later w)) w.
Lemma push_d_cases t d w : push_d t d w = if bool_decide (d = 0) then push t w else push_later t d w.
Proof. unfold push_d. by case_bool_decide. Qed.

Lemma pend_push_d u t d w : pend u (push_d t d w) <-> pend u w \/ u = t.
Proof. rewrite push_d_cases. case_bool_decide; [apply pend_push|apply pend_push_later]. Qed.

(** ** The invariant and the primitive steps *)

Section Core.
Context (g : ghost) (c : io_mqtt_connection) (w : world).

Lemma core_logged {A} (k : call A) x : core g c w -> outcome (ev k x) = None -> core g c (logged k x w).
Proof.
  intros [] Ho. split; try done. unfold settled in *. cbn [logged with_trace w_trace].
  rewrite omap_app. assert (omap outcome [ev k x] = []) as -> by (cbn -[outcome]; by rewrite Ho). by rewrite app_nil_r.
Qed.

Lemma core_setc c' : core g c w -> scheduler c' = scheduler c -> keep_alive_interval c' = keep_alive_interval c -> subscriptions c' = subscriptions c ->
  queued (send_queue c') = queued (send_queue c) -> (send_queue c = [] -> send_queue c' = []) ->
  (status c' = io_mqtt_status_closing -> g_closed g = true) ->
  (g_free g <> None -> status c' = status c /\ expiry c' = expiry c) -> core g c' (setc c' w).
Proof.
  intros [] Hs Hk Hu Hq Hq0 Hc Hf. split; cbn; rewrite ?Hs, ?Hk, ?Hu, ?Hq; try done.
  - auto.
  - intros d Hd. destruct Hf as [-> He]; [congruence|]. unfold token_until. rewrite He. by apply k_free0.
Qed.

Definition queueable (t : task) : Prop :=
  of_connection t = true /\ (t = t_free -> g_closed g = true) /\
  (g_free g <> None -> t <> t_soft_reset /\ t <> t_reconnect).

Lemma core_push t : core g c w -> queueable t -> core g c (push t w).
Proof.
  intros [] (Ht & Hf & Hg). assert (E : frees (w_now w ++ [t]) = frees (w_now w)) by by rewrite frees_app, frees_conn, app_nil_r.
  split; cbn; rewrite ?E; try done.
  - by apply order_app.
  - intros Hc. rewrite pend_push. intros [?| <-]; [by apply k_open0|]. by rewrite Hf in Hc.
  - intros d Hd. rewrite !pend_push. destruct (k_free0 d Hd) as (?&?&?&?&?&?). destruct Hg; [congruence|].
    split_and!; try done; intros [?|?]; congruence.
Qed.

Lemma core_push_later t d : core g c w -> queueable t -> 0 < d -> core g c (push_later t d w).
Proof.
  intros [] (Ht & Hf & Hg) Hd0. split; cbn; rewrite ?frees_insert_later by done; try done.
  - intros e [[= -> <-]|?]%elem_of_insert_later; [lia|eauto].
  - intros Hc. rewrite pend_push_later. intros [?| <-]; [by apply k_open0|]. by rewrite Hf in Hc.
  - intros e He. rewrite !pend_push_later, elem_of_insert_later. destruct (k_free0 e He) as (?&?&?&?&?&?). destruct Hg; [congruence|].
    split_and!; try done; try (by right); intros [?|?]; congruence.
Qed.

Lemma core_push_d t d : core g c w -> queueable t -> 0 <= d -> core g c (push_d t d w).
Proof. intros. rewrite push_d_cases. case_bool_decide; [by apply core_push|apply core_push_later; [done|done|lia]]. Qed.

Lemma core_cleared p : core g c w -> (forall t, p t = true -> of_connection t = true) ->
  (g_free g <> None -> p t_free = false) -> core g c (cleared p w).
Proof.
  intros [] Hp Hf. split; cbn; rewrite ?filter_later, ?frees_filter by done; try done.
  - by apply order_filter.
  - intros d [_ ?]%list_elem_of_filter. eauto.
  - intros Hc. rewrite pend_cleared. intros [? _]. by apply k_open0.
  - intros d Hd. rewrite !pend_cleared, list_elem_of_filter. destruct (k_free0 d Hd) as (?&?&?&?&?&?).
    split_and!; try done; try tauto. cbn. apply Hf. congruence.
Qed.

(** Subscriptions that change all but their topics. *)
Definition same_topics (m m' : gmap Z io_mqtt_subscription) : Prop := forall a, uri <$> m' !! a = uri <$> m !! a.

Lemma same_topics_is_Some m m' a : same_topics m m' -> is_Some (m' !! a) <-> is_Some (m !! a).
Proof. intros H. by rewrite <- (fmap_is_Some uri (m' !! a)), H, fmap_is_Some. Qed.

Lemma core_resub m : core g c w -> same_topics (w_subs w) m -> core g c (resub m w).
Proof.
  intros [] Hm. split; cbn; try done.
  - intros a. rewrite same_topics_is_Some by done. auto.
  - intros a s Hs. specialize (Hm a). rewrite Hs in Hm. destruct (w_subs w !! a) as [s'|] eqn:E; [|done].
    injection Hm as ->. eauto.
  - intros a. rewrite same_topics_is_Some by done. auto.
Qed.

Lemma core_not_closing : core g c w -> status c <> io_mqtt_status_closing -> g_free g = None.
Proof. intros [] Hs. destruct (g_free g) as [d|] eqn:E; [|done]. by destruct (k_free0 d eq_refl) as (_&?&_). Qed.
Lemma core_open : core g c w -> g_closed g = false -> g_free g = None.
Proof. intros [] Hs. destruct (g_free g) as [d|] eqn:E; [|done]. destruct (k_free0 d eq_refl) as (?&_). congruence. Qed.
End Core.

Lemma good_intro g c w : core g c w -> live None c w -> good g w.
Proof. intros Hc Hl. unfold good. by rewrite (k_conn _ _ _ Hc). Qed.

Lemma live_reset c w : pend t_hard_reset w \/ pend t_soft_reset w -> live None c w.
Proof. intros H. assert (resetting None w) by (unfold resetting, pending; tauto). split; intros ?; auto. Qed.
Lemma live_down c w : status c <> io_mqtt_status_connecting -> status c <> io_mqtt_status_connected -> live None c w.
Proof. intros ??. split; [intros [?|?]|intros ?]; congruence. Qed.
Lemma live_keep x c w c' w' : live x c w -> status c' = status c -> send_queue c' = send_queue c ->
  (forall u, u ∈ [t_monitor; t_publish_message; t_hard_reset; t_soft_reset] -> pending x u w -> pend u w') -> live None c' w'.
Proof.
  intros [Hm Hp] Hs Hq Hu. assert (Hr : resetting x w -> resetting None w').
  { intros [?|?]; [left|right]; right; apply Hu; set_solver. }
  split; intros Hst; rewrite Hs in Hst.
  - destruct (Hm Hst) as [?|?]; [left; right; apply Hu; set_solver|auto].
  - rewrite Hq. intros He. destruct (Hp Hst He) as [?|[?|?]]; [left; right; apply Hu; set_solver|auto|auto].
Qed.

(** ** Runs *)

Definition wp {A} (m : M A) (Q : A -> world -> Prop) (w : world) : Prop :=
  match m w with Ok (a, w') => Q a w' | _ => False end.

Lemma wp_ret {A} (a : A) Q w : Q a w -> wp (mret a) Q w.
Proof. done. Qed.
Lemma wp_bind {A B} (m : M A) (f : A -> M B) Q w : wp m (fun a w => wp (f a) Q w) w -> wp (m ≫= f) Q w.
Proof. unfold wp, mbind, M_bind, mbind, res_bind. by destruct (m w) as [[]| |]. Qed.
Lemma wp_mono {A} (m : M A) (P Q : A -> world -> Prop) w : wp m P w -> (forall a w', P a w' -> Q a w') -> wp m Q w.
Proof. unfold wp. destruct (m w) as [[]| |]; auto. Qed.
Lemma wp_call {A} (k : call A) Q w : (forall x, Q x (logged k x w)) -> wp (do_call env k) Q w.
Proof. intros H. apply H. Qed.
Lemma wp_get c Q w : w_conn w = Some c -> Q c w -> wp get_conn Q w.
Proof. intros E H. unfold wp, get_conn. by rewrite E. Qed.
Lemma wp_mod c f Q w : w_conn w = Some c -> Q tt (setc (f c) w) -> wp (mod_conn f) Q w.
Proof. intros E H. unfold wp, mod_conn. by rewrite E. Qed.
Lemma wp_toggle c Q w : w_conn w = Some c -> (forall b, Q tt (setc (set_is_websocket b c) w)) -> wp (mod_conn toggle_websocket) Q w.
Proof.
  intros E H. eapply wp_mod; [done|]. unfold toggle_websocket. destruct (scheme (address c)); [|apply H].
  replace c with (set_is_websocket (is_websocket c) c) by by destruct c. apply H.
Qed.
Lemma wp_ticks Q w : Q (w_clock w) w -> wp ticks_get Q w.
Proof. done. Qed.
Lemma wp_clear p Q w : Q tt (cleared p w) -> wp (clear p) Q w.
Proof. done. Qed.

(** The scheduler has an entry for every task. *)
Hypothesis entries : forall tr, env bool tr c_task_entry = true.

Lemma wp_queue t d c Q w : w_conn w = Some c -> scheduler c = true ->
  Q tt (push_d t d (logged c_task_entry true w)) -> wp (queue env t d) Q w.
Proof.
  intros E Hs H. unfold queue. apply wp_bind. eapply wp_get; [done|]. rewrite Hs. cbn [negb].
  unfold wp, mbind, M_bind, do_call. cbn [mbind res_bind]. rewrite entries. cbn [negb].
  rewrite push_d_cases in H. by case_bool_decide.
Qed.
Lemma wp_next t c Q w : w_conn w = Some c -> scheduler c = true ->
  Q tt (push t (logged c_task_entry true w)) -> wp (do_next env t) Q w.
Proof. intros E Hs H. by apply (wp_queue t 0 c). Qed.
Lemma wp_later t d c Q w : w_conn w = Some c -> scheduler c = true ->
  Q tt (push_d t d (logged c_task_entry true (cleared (fun u => bool_decide (u = t)) w))) -> wp (do_later env t d) Q w.
Proof. intros E Hs H. unfold do_later. apply wp_bind, wp_clear. by eapply wp_queue. Qed.

Lemma wp_topics p l Q : forall w, (forall a, a ∈ l -> is_Some (w_subs w !! a)) -> (forall ts, Q ts w) -> wp (topics_of p l) Q w.
Proof.
  revert Q. induction l as [|a l IH]; intros Q w Hl HQ; cbn [topics_of]; [apply HQ|].
  apply wp_bind. destruct (Hl a) as [s Hs]; [set_solver|]. unfold wp at 1, get_sub. rewrite Hs. cbn [chk mbind res_bind].
  apply wp_bind, IH; [set_solver|]. intros ts. apply HQ.
Qed.

Lemma wp_change p f l Q : (forall s, uri (f s) = uri s) -> forall w, (forall a, a ∈ l -> is_Some (w_subs w !! a)) ->
  (forall m, same_topics (w_subs w) m -> Q tt (resub m w)) -> wp (change_subs p f l) Q w.
Proof.
  intros Hf. induction l as [|a l IH]; intros w Hl HQ; cbn [change_subs].
  { apply wp_ret. replace w with (resub (w_subs w) w) by by destruct w. by apply HQ. }
  apply wp_bind. destruct (Hl a) as [s Hs]; [set_solver|]. unfold wp at 1, get_sub. rewrite Hs. cbn [chk mbind res_bind].
  apply wp_bind. destruct (p s).
  - assert (Hm : same_topics (w_subs w) (<[a := f s]> (w_subs w))).
    { intros b. destruct (decide (a = b)) as [<-|?]; [by rewrite lookup_insert_eq, Hs; cbn; rewrite Hf|by rewrite lookup_insert_ne]. }
    unfold wp at 1, put_sub. apply IH; cbn.
    + intros b Hb. rewrite same_topics_is_Some by done. set_solver.
    + intros m Hm'. apply (HQ m). intros b. by rewrite Hm', Hm.
  - apply wp_ret, IH; [set_solver|done].
Qed.

Lemma wp_next_pkt_id c Q w : w_conn w = Some c -> (forall id n, Q id (setc (set_pkt_counter n c) w)) ->
  wp io_mqtt_connection_next_pkt_id Q w.
Proof.
  intros E H. unfold io_mqtt_connection_next_pkt_id. apply wp_bind. eapply wp_get; [done|]. cbv zeta.
  case_bool_decide; apply wp_bind; (eapply wp_mod; [done|]); apply wp_ret, H.
Qed.

Lemma wp_clear_failures c Q w : w_conn w = Some c ->
  Q tt (setc (set_back_off_in_seconds 0 (set_last_activity (w_clock w) (set_last_success (w_clock w) c))) w) ->
  wp io_mqtt_connection_clear_failures Q w.
Proof.
  intros E H. unfold io_mqtt_connection_clear_failures. apply wp_bind, wp_ticks. by eapply wp_mod.
Qed.

Lemma wp_find topic l Q : wf_cstr topic -> forall w,
  (forall a, a ∈ l -> exists s, w_subs w !! a = Some s /\ pattern_ok (uri s)) -> (forall r, Q r w) -> wp (find_subscription topic l) Q w.
Proof.
  intros Ht. induction l as [|a l IH]; intros w Hl HQ; cbn [find_subscription]; [apply HQ|].
  apply wp_bind. destruct (Hl a) as (s & Hs & Hw & Hp); [set_solver|]. unfold wp at 1, get_sub. rewrite Hs. cbn [chk mbind res_bind].
  destruct (negb (subscribed s)); [apply IH; set_solver|]. unfold wp. rewrite topic_matches_ok by done.
  destruct (topic_spec topic (uri s)); [apply HQ|apply IH; set_solver].
Qed.

Ltac conn := first [reflexivity | eassumption].
Ltac wstep :=
  match goal with
  | |- wp (mret _) _ _ => apply wp_ret
  | |- wp (_ ≫= _) _ _ => apply wp_bind
  | |- wp (do_call _ _) _ _ => apply wp_call; intros ?
  | |- wp get_conn _ _ => eapply wp_get; [conn|]
  | |- wp (mod_conn toggle_websocket) _ _ => eapply wp_toggle; [conn|intros ?]
  | |- wp (mod_conn _) _ _ => eapply wp_mod; [conn|]
  | |- wp ticks_get _ _ => apply wp_ticks
  | |- wp (clear _) _ _ => apply wp_clear
  | |- wp (do_next _ _) _ _ => eapply wp_next; [conn|solve [eassumption | cbn; eassumption]|]
  | |- wp (do_later _ _ _) _ _ => eapply wp_later; [conn|solve [eassumption | cbn; eassumption]|]
  | |- wp io_mqtt_connection_next_pkt_id _ _ => eapply wp_next_pkt_id; [conn|intros ??]
  | |- wp io_mqtt_connection_clear_failures _ _ => eapply wp_clear_failures; [conn|]
  | |- wp (if bool_decide ?P then _ else _) _ _ => destruct (decide P) as [?H|?H];
      [rewrite (bool_decide_eq_true_2 P) by done|rewrite (bool_decide_eq_false_2 P) by done]
  | |- wp (if ?b then _ else _) _ _ => destruct b eqn:?
  | |- wp (match ?x with _ => _ end) _ _ => destruct x eqn:?
  end; cbn [negb]; cbv beta iota zeta.
Ltac wsteps := repeat wstep.

(** Proves [core] of a world that was built by the steps above. *)
Ltac core1 :=
  match goal with
  | |- core _ _ (logged _ _ _) => eapply core_logged; [|reflexivity]
  | |- core _ _ (push _ _) => eapply core_push
  | |- core _ _ (push_d _ _ _) => eapply core_push_d
  | |- core _ _ (cleared _ _) => eapply core_cleared
  | |- core _ _ (resub _ _) => eapply core_resub
  | |- core _ _ (setc _ _) => eapply core_setc
  | |- core _ _ _ => eassumption
  end.

(** The tasks of the connection other than those that the ghost state excludes. *)
Definition plain (t : task) : bool :=
  match t with t_free | t_soft_reset | t_reconnect | t_subscription_free _ => false | _ => true end.
Lemma queueable_plain g t : plain t = true -> queueable g t.
Proof. intros Ht. split_and!; [by destruct t|by intros ->|]. intros _. by destruct t. Qed.
Lemma queueable_open g t : g_free g = None -> of_connection t = true -> (t = t_free -> g_closed g = true) -> queueable g t.
Proof. intros Hg Ht Hf. split_and!; [done|done|]. by rewrite Hg. Qed.

Lemma queued_cons m q : queued (m :: q) = option_list (msg_cb m) ++ queued q.
Proof. unfold queued. cbn. by destruct (msg_cb m). Qed.
Lemma queued_app q q' : queued (q ++ q') = queued q ++ queued q'.
Proof. apply omap_app. Qed.
Lemma queued_map f q : (forall m, msg_cb (f m) = msg_cb m) -> queued (map f q) = queued q.
Proof. intros Hf. induction q as [|m q IH]; [done|]. cbn [map]. by rewrite !queued_cons, Hf, IH. Qed.
Lemma queued_replace q i m m' : q !! i = Some m -> msg_cb m' = msg_cb m -> queued (<[i := m']> q) = queued q.
Proof.
  revert i. induction q as [|n q IH]; intros [|i] Hi Hm; try done; cbn in Hi.
  - injection Hi as ->. change (queued (m' :: q) = queued (m :: q)). by rewrite !queued_cons, Hm.
  - change (queued (n :: <[i := m']> q) = queued (n :: q)). by rewrite !queued_cons, (IH i).
Qed.
Lemma queued_delete q i m : q !! i = Some m -> queued q ≡ₚ option_list (msg_cb m) ++ queued (delete i q).
Proof.
  revert i. induction q as [|n q IH]; intros [|i] Hi; try done; cbn in Hi.
  - injection Hi as ->. by rewrite queued_cons.
  - change (queued (n :: q) ≡ₚ option_list (msg_cb m) ++ queued (n :: delete i q)).
    rewrite !queued_cons, (IH i) by done. solve_Permutation.
Qed.

Lemma subs_there g c w : core g c w -> forall a, a ∈ subscriptions c -> is_Some (w_subs w !! a).
Proof. intros K a. apply (k_subs _ _ _ K). Qed.

Lemma pend_logged u {A} (k : call A) x w : pend u (logged k x w) <-> pend u w.
Proof. done. Qed.
Lemma pend_setc u c w : pend u (setc c w) <-> pend u w.
Proof. done. Qed.
Lemma pend_resub u m w : pend u (resub m w) <-> pend u w.
Proof. done. Qed.

Definition completed (m : io_mqtt_message) (r : prx_error) (w : world) : world :=
  match msg_cb m with Some ctx => logged (c_on_complete ctx r) tt w | None => w end.

Lemma completed_setc m r c w : completed m r (setc c w) = setc c (completed m r w).
Proof. unfold completed. by destruct (msg_cb m). Qed.
Lemma pend_completed u m r w : pend u (completed m r w) <-> pend u w.
Proof. unfold completed. by destruct (msg_cb m). Qed.

Ltac pends := repeat first [rewrite pend_push | rewrite pend_push_d | rewrite pend_cleared
  | rewrite pend_logged | rewrite pend_setc | rewrite pend_resub | rewrite pend_completed].

(** The side conditions of [core]: the invariant of the start is in the context. *)
Ltac core_side :=
  match goal with
  | |- queueable _ _ => first [by apply queueable_plain | by apply queueable_open]
  | |- forall t, _ = true -> of_connection t = true => by (intros []; cbn; first [done | case_bool_decide])
  | |- _ = io_mqtt_status_closing -> g_closed _ = true => cbn; first [discriminate | eassumption | eapply k_closing; eassumption]
  | |- _ <> None -> _ => cbn; first [done | congruence]
  | |- _ => cbn; first [done | eassumption | lia]
  end.
Ltac core_tac := repeat core1; try core_side.

Ltac live_tac :=
  first
  [ apply live_reset; pends; tauto
  | by (apply live_down; cbn; congruence)
  | by (eapply live_keep; [eassumption|reflexivity|reflexivity|]; intros u Hu;
      repeat (apply elem_of_cons in Hu as [->|Hu]); [..|by apply not_elem_of_nil in Hu]; intros [[=]|?]; pends;
      intuition (first [done | auto])) ].

Ltac start K := pose proof (k_conn _ _ _ K) as Hc; pose proof (k_sched _ _ _ K) as Hs.
Ltac finish := eapply good_intro; [core_tac|live_tac].

Lemma subscribe_all_ok g c w : core g c w -> live (Some t_subscribe_all) c w ->
  wp (io_mqtt_connection_subscribe_all env) (fun _ => good g) w.
Proof.
  intros K L. start K. unfold io_mqtt_connection_subscribe_all. do 3 wstep. apply wp_topics; [exact (subs_there _ _ _ K)|].
  intros l. wsteps; [finish..|]. apply wp_change; [done|exact (subs_there _ _ _ K)|]. intros m Hm. finish.
Qed.

Lemma unsubscribe_all_ok g c w : core g c w -> live (Some t_unsubscribe_all) c w ->
  wp (io_mqtt_connection_unsubscribe_all env) (fun _ => good g) w.
Proof.
  intros K L. start K. unfold io_mqtt_connection_unsubscribe_all. do 3 wstep. apply wp_topics; [exact (subs_there _ _ _ K)|].
  intros l. wsteps; [finish..|]. apply wp_change; [done|exact (subs_there _ _ _ K)|]. intros m Hm. finish.
Qed.

Lemma begin_disconnect_ok g c w : core g c w -> live (Some t_begin_disconnect) c w ->
  wp (io_mqtt_connection_begin_disconnect env) (fun _ => good g) w.
Proof.
  intros K L. start K. unfold io_mqtt_connection_begin_disconnect. do 3 wstep. apply wp_topics; [exact (subs_there _ _ _ K)|].
  intros l. wsteps; finish.
Qed.

Lemma soft_reset_ok g c w : core g c w -> g_free g = None -> wp (io_mqtt_connection_soft_reset env) (fun _ => good g) w.
Proof. intros K Hf. start K. unfold io_mqtt_connection_soft_reset. wsteps; finish. Qed.

Lemma monitor_ok g c w : core g c w -> live (Some t_monitor) c w ->
  wp (io_mqtt_connection_monitor env) (fun _ => good g) w.
Proof.
  intros K L. start K. assert (Hk := k_keep _ _ _ K). unfold io_mqtt_connection_monitor, monitor_wait.
  assert (Hpos : forall z, 0 <= u32 z) by (intros; apply Z.mod_pos_bound; lia).
  wsteps; [|finish..| | |]; try (eapply good_intro; [|live_tac]; core_tac; pose proof (Hpos (expiry c - w_clock w)); case_bool_decide; lia).
  finish. apply queueable_open; [|done|done]. destruct (g_free g) as [d|] eqn:E; [|done].
  destruct (k_free _ _ _ K d E) as (_&_&_&_&_&[?|?]); lia.
Qed.

Lemma monitored_keep x c w c' w' : live x c w -> status c' = status c ->
  (forall u, u ∈ [t_monitor; t_hard_reset; t_soft_reset] -> pending x u w -> pend u w') -> monitored None c' w'.
Proof.
  intros [Hm _] Hs Hu Hst. rewrite Hs in Hst. destruct (Hm Hst) as [?|[?|?]]; [left|right; left|right; right];
    right; apply Hu; set_solver.
Qed.
Ltac monitor_tac := eapply monitored_keep; [eassumption|reflexivity|]; intros u Hu;
  repeat (apply elem_of_cons in Hu as [->|Hu]); [..|by apply not_elem_of_nil in Hu]; intros [[=]|?]; pends; intuition (first [done | auto]).

Lemma publish_message_ok g c w : core g c w -> live (Some t_publish_message) c w ->
  wp (io_mqtt_connection_publish_message env) (fun _ => good g) w.
Proof.
  intros K L. start K. unfold io_mqtt_connection_publish_message. do 2 wstep. wstep.
  { wsteps. eapply good_intro; [done|]. split; [monitor_tac|by intros ?]. }
  assert (Hst : status c = io_mqtt_status_connected) by by apply dec_stable.
  assert (Hf : g_free g = None) by (eapply core_not_closing; [done|congruence]).
  destruct (list_find _ _) as [[i m]|] eqn:E.
  - apply list_find_Some in E as (Hi & Hm & _).
    assert (forall b t, queued (<[i := set_attempt b t m]> (send_queue c)) = queued (send_queue c)) by (intros; by eapply queued_replace).
    wsteps; (eapply good_intro; [core_tac|]); try (by intros E; rewrite E in Hi).
    + cbn. rewrite list_insert_insert_eq. congruence.
    + cbn. by intros ->.
    + live_tac.
    + split; [monitor_tac|]. intros _ _. right. left. cbn. apply Exists_exists. exists (set_attempt true (w_clock w) m).
      split; [|done]. apply list_elem_of_insert. by eapply lookup_lt_Some.
  - wsteps. eapply good_intro; [done|]. split; [monitor_tac|]. intros _ [x [Hx Hp]]%Exists_exists.
    apply list_find_None in E. rewrite list.Forall_forall in E. by destruct (E x).
Qed.

Lemma filter_conn l : frees l = [] -> filter (fun t => of_connection t = false) l = [].
Proof.
  induction l as [|t l IH]; [done|]. change (t :: l) with ([t] ++ l). rewrite frees_app. intros [Ht Hl]%app_nil.
  rewrite filter_app, IH by done. by destruct t.
Qed.
Lemma filter_conn_later (l : list (Z * task)) : frees l.*2 = [] -> filter (fun x => of_connection (snd x) = false) l = [].
Proof. intros H%filter_conn. rewrite <- (filter_later of_connection) in H. by apply fmap_nil_inv in H. Qed.

Lemma complete_disconnect_ok g c w Q : core g c w -> g_free g = None ->
  (forall c' w', core g c' w' -> status c' = status c -> back_off_in_seconds c' = back_off_in_seconds c ->
     w_now w' = filter (fun t => of_connection t = false) (w_now w) -> w_later w' = [] -> Q tt w') ->
  wp (io_mqtt_connection_complete_disconnect env) Q w.
Proof.
  intros K Hf HQ. start K. unfold io_mqtt_connection_complete_disconnect.
  assert (queued (map (set_attempt false 0) (send_queue c)) = queued (send_queue c)) by by apply queued_map.
  wsteps; (apply wp_change; [done|exact (subs_there _ _ _ K)|intros m Hm]; wstep;
    eapply HQ; [core_tac; cbn; try done; by intros ->|reflexivity|reflexivity|reflexivity|]; cbn;
    apply filter_conn_later, (k_later _ _ _ K)).
Qed.

Lemma free_ok g c w : core g c w -> g_closed g = true -> g_free g = None -> frees (w_now w) = [] ->
  wp (io_mqtt_connection_free env) (fun _ w' => w_conn w' = None /\ good g w') w.
Proof.
  intros K Hg Hf Hn. unfold io_mqtt_connection_free. wstep. eapply complete_disconnect_ok; [done|done|].
  intros c' w' K' _ _ En El. start K'.
  wstep. wstep. wstep. wstep. rewrite Hs. wstep. wstep. unfold wp, put_conn, good. cbn. split; [done|].
  rewrite En, El, filter_conn by done. split_and!; [done..|].
  rewrite (k_settled _ _ _ K'), (k_closed _ _ _ K'), app_nil_r by done. unfold settled. by rewrite !omap_app, !app_nil_r.
Qed.

Lemma hard_reset_ok g c w : core g c w -> wp (io_mqtt_connection_hard_reset env) (fun _ => good g) w.
Proof.
  intros K. start K. unfold io_mqtt_connection_hard_reset. do 2 wstep. wstep.
  - wsteps. eapply good_intro; [core_tac|apply live_down; congruence]. split_and!; [done| |done].
    intros _. by eapply k_closing.
  - assert (Hf : g_free g = None) by by eapply core_not_closing.
    wstep. wstep. wstep. eapply complete_disconnect_ok; [core_tac|done|].
    clear Hc Hs. intros c' w' K' Hst _ En El. start K'. cbn in Hst.
    wsteps.
    all: (eapply good_intro; [core_tac|apply live_down; cbn; congruence]).
    all: try (apply Z.mod_pos_bound; lia).
Qed.

Lemma live_monitor c w : status c = io_mqtt_status_connecting -> pend t_monitor w -> live None c w.
Proof. intros Hs H. split; [intros _; left; by right|]. intros ?. congruence. Qed.

Lemma reconnect_io_ok g c w Q : core g c w -> g_free g = None -> (forall b c' w', core g c' w' -> Q b w') ->
  wp (reconnect_io env) Q w.
Proof. intros K Hf HQ. start K. unfold reconnect_io. wsteps; (eapply HQ; core_tac). Qed.
Lemma reconnect_client_ok g c w Q : core g c w -> g_free g = None -> (forall b c' w', core g c' w' -> Q b w') ->
  wp (reconnect_client env) Q w.
Proof. intros K Hf HQ. start K. unfold reconnect_client. wsteps; (eapply HQ; core_tac). Qed.

Lemma reconnect_ok g c w : core g c w -> g_free g = None ->
  wp (io_mqtt_connection_reconnect env) (fun _ => good g) w.
Proof.
  intros K Hf. start K. unfold io_mqtt_connection_reconnect.
  assert (Hend : forall b c' w', core g c' w' -> wp (if negb b then do_next env t_hard_reset
    else now ← ticks_get; mod_conn (fun c => set_status io_mqtt_status_connecting (set_last_activity now c));;
      do_later env t_monitor 30000) (fun _ => good g) w').
  { clear Hc Hs. intros b c' w' K'. start K'. wsteps; (eapply good_intro; [core_tac|]).
    - live_tac. - apply live_monitor; [done|]. pends. tauto. }
  wstep. wstep. wstep. eapply wp_mono with (P := fun _ w' => exists c', core g c' w' /\ socket_io c' = socket_io c).
  { wsteps; (eexists; split; [core_tac|done]). }
  clear K Hc Hs. intros ok w1 (c1 & K & _). start K. wstep. destruct ok; cbn [negb]; [|wstep; exact (Hend false _ _ K)].
  wstep; [wstep; exact (Hend true _ _ K)|]. wstep. eapply reconnect_io_ok; [done|done|]. intros b c2 w2 K2.
  destruct b; cbn [negb]; [|wstep; exact (Hend false _ _ K2)]. eapply reconnect_client_ok; [done|done|].
  intros b c3 w3 K3. exact (Hend b _ _ K3).
Qed.

(** ** Subscriptions *)

Definition removed (a : Z) (c : io_mqtt_connection) (w : world) : world :=
  resub (delete a (w_subs w)) (setc (set_subscriptions (filter (fun b => b <> a) (subscriptions c)) c) w).

Lemma core_removed g c w a : core g c w -> a ∉ frees (w_now w) ->
  core g (set_subscriptions (filter (fun b => b <> a) (subscriptions c)) c) (removed a c w).
Proof.
  intros [] Ha. split; cbn; try done.
  - intros b. rewrite list_elem_of_filter, lookup_delete_is_Some, k_subs0. naive_solver.
  - intros b s [_ Hs]%lookup_delete_Some. eauto.
  - intros b [_ Hs]%lookup_delete_is_Some. auto.
  - intros b Hb. rewrite list_elem_of_filter. split; [congruence|auto].
Qed.

Lemma subscription_free_ok g c w a : core g c w -> live (Some (t_subscription_free a)) c w ->
  a ∈ subscriptions c -> a ∉ frees (w_now w) ->
  wp (io_mqtt_subscription_free env a) (fun _ => good g) w.
Proof.
  intros K L Ha Hn. start K. pose proof (core_removed _ _ _ _ K Hn) as KR.
  unfold io_mqtt_subscription_free. wstep.
  destruct (proj1 (k_subs _ _ _ K a) Ha) as [s Es]. unfold wp at 1, get_sub. rewrite Es. cbn [chk mbind res_bind].
  wsteps; unfold wp, del_sub.
  - match goal with |- good _ (with_subs _ _ (logged ?k ?x (setc ?c2 _))) =>
      change (good g (logged k x (setc c2 (removed a c w)))) end. finish.
  - change (good g (removed a c w)). finish.
Qed.

Lemma core_released g c w a : core g c w -> g_closed g = false -> a ∈ subscriptions c -> a ∉ frees (w_now w) ->
  core g c (push (t_subscription_free a) w).
Proof.
  intros [] Hg Ha Hn. assert (E : frees (w_now w ++ [t_subscription_free a]) = frees (w_now w) ++ [a]) by by rewrite frees_app.
  assert (Hf : ~ pend t_free w) by auto.
  split; cbn; rewrite ?E; try done.
  - intros b. rewrite elem_of_app, list_elem_of_singleton. intros [?| ->]; auto.
  - apply NoDup_app. split_and!; [done| |apply NoDup_singleton]. intros b Hb. rewrite list_elem_of_singleton. congruence.
  - apply order_no_free. rewrite not_elem_of_app. unfold pend in Hf. split; [tauto|]. by rewrite list_elem_of_singleton.
  - intros d Hd. exfalso. apply Hf. right. apply list_elem_of_fmap. by exists (d, t_free).
  - intros _. rewrite pend_push. naive_solver.
  - intros d Hd. rewrite !pend_push. destruct (k_free0 d Hd) as (?&_). congruence.
Qed.

Lemma release_ok g c w a : core g c w -> live None c w -> g_closed g = false -> is_Some (w_subs w !! a) ->
  a ∉ frees (w_now w) -> wp (io_mqtt_subscription_release env a) (fun _ => good g) w.
Proof.
  intros K L Hg [s Es] Hn. start K. unfold io_mqtt_subscription_release. wstep.
  unfold wp at 1, get_sub. rewrite Es. cbn [chk mbind res_bind]. wstep. wstep. wstep. unfold wp at 1, put_sub.
  assert (Hm : same_topics (w_subs w) (<[a := Sub (uri s) (subscribed s) (pktid s) None]> (w_subs w))).
  { intros b. destruct (decide (a = b)) as [<-|?]; [by rewrite lookup_insert_eq, Es|by rewrite lookup_insert_ne]. }
  pose proof (core_resub _ _ _ _ K Hm) as K1. eapply wp_next; [eassumption|done|].
  eapply good_intro; [apply core_released; [core_tac; exact K1|done|by apply (k_subs _ _ _ K)|done]|].
  eapply live_keep; [exact L|done|done|]. intros u _ [?|?]; [done|]. rewrite pend_push. auto.
Qed.

Definition added (topic : bytes) (cb : option Z) (c : io_mqtt_connection) (w : world) : world :=
  setc (set_subscriptions (subscriptions c ++ [w_next_sub w]) c)
    (with_subs (<[w_next_sub w := Sub topic false 0 cb]> (w_subs w)) (w_next_sub w + 1) w).

Lemma core_added g c w topic cb : core g c w -> pattern_ok topic ->
  core g (set_subscriptions (subscriptions c ++ [w_next_sub w]) c) (added topic cb c w).
Proof.
  intros [] Hp. split; cbn; try done.
  - intros b. rewrite elem_of_app, list_elem_of_singleton, lookup_insert_is_Some, k_subs0.
    destruct (decide (b = w_next_sub w)) as [->|]; naive_solver.
  - intros b s. rewrite lookup_insert_Some. intros [[_ <-]|[_ ?]]; [done|eauto].
  - intros b. rewrite lookup_insert_is_Some. intros [<-|[_ H]]; [lia|]. specialize (k_fresh0 b H). lia.
  - intros b Hb. rewrite elem_of_app. auto.
Qed.

Lemma subscribe_ok g c w topic cb : core g c w -> live None c w -> pattern_ok topic ->
  wp (io_mqtt_connection_subscribe env topic cb) (fun _ => good g) w.
Proof.
  intros K L Hp. start K. unfold io_mqtt_connection_subscribe. wstep. wstep. wstep; [wsteps; finish|].
  wstep. wstep. wstep; [wsteps; finish|]. wstep. unfold wp at 1, new_sub.
  match goal with |- wp _ _ (with_subs _ _ ?w1) => assert (K1 : core g c w1) by core_tac; set (w2 := w1) in * end.
  pose proof (core_added _ _ _ topic cb K1 Hp) as K2. wstep. wstep.
  match goal with |- wp _ _ ?w3 => change w3 with (added topic cb c w2) end.
  assert (L2 : live None (set_subscriptions (subscriptions c ++ [w_next_sub w2]) c) (added topic cb c w2)).
  { eapply live_keep; [exact L|done|done|]. by intros u _ [?|?]. }
  wsteps; finish.
Qed.

(** ** Callbacks of the mqtt client *)

Lemma wp_complete m r Q w : Q tt (completed m r w) -> wp (complete env m r) Q w.
Proof.
  intros H. unfold complete, completed in *. destruct (msg_cb m); [|by apply wp_ret]. apply wp_call. by intros [].
Qed.

Lemma settled_completed m r w : r = er_ok \/ r = er_aborted ->
  settled (w_trace (completed m r w)) = settled (w_trace w) ++ option_list (msg_cb m).
Proof.
  intros Hr. unfold completed. destruct (msg_cb m); [|by rewrite app_nil_r]. cbn. unfold settled. rewrite omap_app.
  cbn. by rewrite bool_decide_eq_true_2.
Qed.

Lemma core_acked g c w i m : core g c w -> send_queue c !! i = Some m ->
  core g (set_send_queue (delete i (send_queue c)) c) (completed m er_ok (setc (set_send_queue (delete i (send_queue c)) c) w)).
Proof.
  intros [] Hi. set (c' := set_send_queue _ c).
  assert (E : forall B (f : world -> B), (forall k (x : unit) w, f (logged k x w) = f w) -> f (completed m er_ok (setc c' w)) = f (setc c' w)).
  { intros B f Hf. unfold completed. by destruct (msg_cb m). }
  assert (Ep : forall t, pend t (completed m er_ok (setc c' w)) <-> pend t w) by (intros; unfold completed; by destruct (msg_cb m)).
  split; try setoid_rewrite Ep; rewrite ?(E _ w_conn), ?(E _ w_subs), ?(E _ w_now), ?(E _ w_later), ?(E _ w_clock), ?(E _ w_next_sub) by done; try done.
  - rewrite settled_completed by auto. cbn. rewrite k_settled0, (queued_delete _ _ _ Hi). by rewrite (assoc (++)).
  - intros Hg. cbn. by rewrite (k_closed0 Hg) in Hi.
Qed.

Lemma operation_done_ok g c w r : core g c w -> live None c w -> wp (operation_done env r) (fun _ => good g) w.
Proof. intros K L. start K. unfold operation_done. wsteps; finish. Qed.

(** A connection that is there. *)
Definition alive (g : ghost) (w : world) : Prop := exists c, core g c w /\ live None c w.
Ltac finish_alive := eexists; split; [core_tac|live_tac].

Lemma publish_ack_ok g c w p : core g c w -> live None c w ->
  wp (io_mqtt_connection_handle_PUBLISH_ACK env p) (fun _ => alive g) w.
Proof.
  intros K L. start K. unfold io_mqtt_connection_handle_PUBLISH_ACK. destruct p as [id|]; [|wsteps; finish_alive].
  wstep. wstep. destruct (list_find _ _) as [[i m]|] eqn:E; [|wsteps; finish_alive].
  apply list_find_Some in E as (Hi & _ & _). pose proof (core_acked _ _ _ _ _ K Hi) as K1.
  wstep. wstep. wstep. wstep. wstep. apply wp_complete. rewrite (completed_setc _ _ (set_back_off_in_seconds _ _)).
  wsteps; (eexists; split; [core_tac|]); (split; [monitor_tac|]).
  - intros _ _. left. right. rewrite pend_push. auto.
  - by intros ?.
Qed.

Lemma subscribe_ack_ok g c w p : core g c w -> live None c w ->
  wp (io_mqtt_connection_handle_SUBSCRIBE_ACK env p) (fun _ => alive g) w.
Proof.
  intros K L. start K. unfold io_mqtt_connection_handle_SUBSCRIBE_ACK. destruct p as [[id fs]|]; [|wsteps; finish_alive].
  wstep; [wsteps; finish_alive|]. wstep. wstep. wstep. apply wp_change; [done|exact (subs_there _ _ _ K)|]. intros m Hm. wsteps; finish_alive.
Qed.

Lemma unsubscribe_ack_ok g c w p : core g c w -> live None c w ->
  wp (io_mqtt_connection_handle_UNSUBSCRIBE_ACK env p) (fun _ => alive g) w.
Proof.
  intros K L. start K. unfold io_mqtt_connection_handle_UNSUBSCRIBE_ACK. destruct p as [id|]; [|wsteps; finish_alive].
  wstep. wstep. wstep. apply wp_change; [done|exact (subs_there _ _ _ K)|]. intros m Hm. wsteps; finish_alive.
Qed.

Lemma connect_ack_ok g c w p : core g c w -> live None c w -> (p = Some true -> g_free g = None) ->
  wp (io_mqtt_connection_handle_CONNECT_ACK env p) (fun _ => alive g) w.
Proof.
  intros K L Hf. start K. unfold io_mqtt_connection_handle_CONNECT_ACK. destruct p as [[]|]; [|wsteps; finish_alive..].
  specialize (Hf eq_refl). wsteps. eexists; split; [core_tac|].
  split; [intros _; left; right; pends; auto|]. intros _ _. left. right. pends. auto.
Qed.

Lemma operation_ok g c w o : core g c w -> live None c w -> (o = on_connack (Some true) -> g_free g = None) ->
  wp (io_mqtt_connection_operation_callback env o) (fun _ => good g) w.
Proof.
  intros K L Hf. start K.
  assert (Hd : forall r w', alive g w' -> wp (operation_done env r) (fun _ => good g) w').
  { intros r w' (c' & K' & L'). by eapply operation_done_ok. }
  unfold io_mqtt_connection_operation_callback. destruct o; try (by apply Hd; exists c); try (wstep; eapply wp_mono; [|apply Hd]).
  - eapply connect_ack_ok; [done|done|]. intros ->. auto.
  - by eapply publish_ack_ok.
  - by eapply publish_ack_ok.
  - wsteps. finish.
  - wsteps. finish.
  - by eapply subscribe_ack_ok.
  - by eapply unsubscribe_ack_ok.
  - wstep. wstep. wstep. wstep. apply Hd. exists c.
    destruct (decide (status c = io_mqtt_status_closing)) as [Es|Es].
    + rewrite bool_decide_eq_true_2 by done. split; [core_tac|live_tac]. split_and!; [done| |done].
      intros _. by eapply k_closing.
    + rewrite bool_decide_eq_false_2 by done. split; [core_tac|live_tac].
Qed.

Lemma receive_ok g c w topic body : core g c w -> live None c w -> wf_cstr topic -> status c <> io_mqtt_status_connecting ->
  wp (io_mqtt_connection_receive_message env topic body) (fun _ => good g) w.
Proof.
  intros K L Ht Hst. start K. unfold io_mqtt_connection_receive_message. wstep. wstep. wstep. wstep; [done|]. wstep.
  wstep; [wsteps; finish|]. wstep. apply wp_find; [done| |].
  - intros a Ha. destruct (subs_there _ _ _ K a Ha) as [s Hs']. exists s. split; [done|]. by eapply k_uri.
  - intros [[s props]|]; wsteps; finish.
Qed.

(** ** Operations of the user *)

Lemma core_accepted g c w m : core g c w -> g_closed g = false ->
  core (Ghost (g_closed g) (g_free g) (g_accepted g ++ option_list (msg_cb m)))
    (set_send_queue (send_queue c ++ [m]) c) (setc (set_send_queue (send_queue c ++ [m]) c) w).
Proof.
  intros [] Hg. split; cbn; try done.
  - rewrite k_settled0, queued_app, queued_cons, <- (assoc (++)). by rewrite app_nil_r.
  - congruence.
Qed.

Lemma publish_ok g c w topic props buffer cb : core g c w -> live None c w -> g_closed g = false ->
  wp (io_mqtt_connection_publish env topic props buffer cb)
    (fun r => good (if bool_decide (r = er_ok) then Ghost (g_closed g) (g_free g) (g_accepted g ++ option_list cb) else g)) w.
Proof.
  intros K L Hg. start K. unfold io_mqtt_connection_publish.
  assert (Hfail : forall c' w' id n, core g c' w' -> live None c' w' ->
    wp (complete env (Message ([], []) id false 0 n cb) er_out_of_memory;; mret er_out_of_memory)
      (fun r => good (if bool_decide (r = er_ok) then Ghost (g_closed g) (g_free g) (g_accepted g ++ option_list cb) else g)) w').
  { clear. intros c' w' id n K L. start K. wstep. apply wp_complete. wstep. unfold completed. cbn [msg_cb].
    destruct cb; finish. }
  wstep. wstep. wstep. wstep. wstep; [wstep; finish|]. wstep. wstep. wstep. wstep. wstep.
  { eapply Hfail; [core_tac|live_tac]. }
  wstep. apply wp_mono with (P := fun _ w' => exists c', core g c' w' /\ live None c' w').
  { wsteps; finish_alive. }
  clear Hc Hs K L. intros cat w1 (c1 & K & L). start K. wstep. wstep. wstep; [eapply Hfail; [core_tac|live_tac]|].
  wsteps. rewrite bool_decide_eq_true_2 by done.
  eapply good_intro; [eapply (core_accepted g _ _ (Message _ _ _ _ _ cb)); [core_tac|done]|].
  split; [monitor_tac|]. intros _ _. left. right. pends. auto.
Qed.

Lemma wp_abort l Q : forall c w, w_conn w = Some c -> send_queue c = l ->
  (forall tr, settled tr = settled (w_trace w) ++ queued l -> Q tt (with_trace tr (setc (set_send_queue [] c) w))) ->
  wp (abort_messages env l) Q w.
Proof.
  induction l as [|m l IH]; intros c w Hc Hl HQ; cbn [abort_messages].
  - apply wp_ret. specialize (HQ (w_trace w)). rewrite app_nil_r in HQ. specialize (HQ eq_refl).
    replace w with (with_trace (w_trace w) (setc (set_send_queue [] c) w)); [done|].
    unfold setc. rewrite <- Hl. destruct w, c. cbn in *. by rewrite Hc.
  - wstep. wstep. wstep. apply wp_complete. rewrite completed_setc.
    eapply IH; [reflexivity|done|]. intros tr Htr. specialize (HQ tr).
    replace (with_trace tr (setc (set_send_queue [] (set_send_queue l c)) (setc (set_send_queue l c) (completed m er_aborted w))))
      with (with_trace tr (setc (set_send_queue [] c) w)) by by unfold completed; destruct (msg_cb m).
    apply HQ. rewrite Htr. cbn. rewrite settled_completed by auto. by rewrite queued_cons, (assoc (++)).
Qed.

Lemma core_close g c w tr : core g c w -> settled tr = settled (w_trace w) ++ queued (send_queue c) ->
  let c' := set_send_queue [] (set_reconnect_cb None (set_status io_mqtt_status_closing c)) in
  core (Ghost true None (g_accepted g)) c' (with_trace tr (setc c' w)).
Proof.
  intros [] Ht c'. split; cbn; try done. by rewrite Ht, k_settled0, app_nil_r.
Qed.

Lemma core_clean l c w d : core (Ghost true None l) c w -> status c = io_mqtt_status_closing -> (d, t_free) ∈ w_later w ->
  ~ pend t_soft_reset w -> ~ pend t_reconnect w -> token_until c (w_clock w) -> core (Ghost true (Some d) l) c w.
Proof. intros [] ?????. split; try done. intros e [= <-]. done. Qed.

Lemma close_ok g c w : core g c w -> wp (io_mqtt_connection_close env)
    (fun _ => good (Ghost true (clean_close w) (g_accepted g))) w.
Proof.
  intros K. start K. unfold io_mqtt_connection_close. wstep. wstep. wstep. wstep. wstep.
  eapply wp_abort; [reflexivity|done|]. intros tr Htr. pose proof (core_close _ _ _ _ K Htr) as K1. cbv zeta in K1.
  set (c1 := set_send_queue [] _) in *. change (with_trace tr _) with (with_trace tr (setc c1 w)).
  assert (Hs1 : scheduler c1 = true) by done. assert (Hc1 := k_conn _ _ _ K1). unfold clean_close. rewrite Hc.
  assert (Hp : forall t, pend t (with_trace tr (setc c1 w)) <-> pend t w) by done. wstep.
  - wsteps. eapply good_intro with (c := c1); [|by apply live_down].
    match goal with |- core (Ghost _ _ ?l) _ ?W => assert (K2 : core (Ghost true None l) c1 W) by core_tac end.
    case_bool_decide as Hcl; [|done]. destruct Hcl as (_ & Hsoft & Hrec & Htok).
    apply core_clean; [done|done| |pends|pends|done].
    + cbn. rewrite (bool_decide_eq_false_2 (30000 = 0)) by done. apply elem_of_insert_later. by left.
    + rewrite Hp. naive_solver.
    + rewrite Hp. naive_solver.
  - apply dec_stable in H. wsteps. eapply good_intro with (c := c1); [|by apply live_down].
    rewrite bool_decide_eq_false_2 by tauto. core_tac.
Qed.

Lemma connect_ok g c w cb : core g c w -> live None c w -> g_closed g = false ->
  wp (io_mqtt_connection_connect env cb) (fun _ => good g) w.
Proof.
  intros K L Hg. start K. pose proof (core_open _ _ _ K Hg). unfold io_mqtt_connection_connect. wsteps; finish.
Qed.

Lemma error_ok g c w : core g c w -> live None c w -> wp (io_mqtt_connection_error_callback env) (fun _ => good g) w.
Proof. intros K L. start K. unfold io_mqtt_connection_error_callback. wsteps; finish. Qed.

Lemma core_forget g c w : core g c w -> core (Ghost (g_closed g) None (g_accepted g)) c w.
Proof. intros []. by split. Qed.

Lemma core_tick g c w d : core g c w -> 0 <= d ->
  frees (w_now w) = [] \/ no_free_due (w_clock w + d) w -> (g_free g <> None -> token_until c (w_clock w + d)) ->
  core g c (with_clock (w_clock w + d) w).
Proof.
  intros [] Hd Hn Ht. split; cbn; try done.
  - intros e He Hc. destruct Hn as [?|Hn]; [done|]. pose proof (proj1 (Forall_forall _ _) Hn _ He eq_refl) as H. cbn in H. lia.
  - intros e He. destruct (k_free0 e He) as (?&?&?&?&?&?). split_and!; try done. apply Ht. congruence.
Qed.

(** ** The scheduler *)

(** A world without the task [t] that was taken. *)
Lemma take_next_cases w t w' : take_next w = Some (t, w') ->
  (exists l, w_now w = t :: l /\ w' = with_tasks l (w_later w) w) \/
  (exists d l, w_later w = (d, t) :: l /\ d <= w_clock w /\ w' = with_tasks (w_now w) l w).
Proof.
  unfold take_next. destruct (w_later w) as [|[d u] l]; [|case_bool_decide].
  - destruct (w_now w); [done|]. intros [= -> <-]. eauto.
  - intros [= -> <-]. right. eauto.
  - destruct (w_now w); [done|]. intros [= -> <-]. eauto.
Qed.

Lemma core_fewer g c w now later : core g c w ->
  (exists l, w_now w = l ++ now) -> (exists l, w_later w = l ++ later) ->
  (forall d, g_free g = Some d -> (d, t_free) ∈ later) -> core g c (with_tasks now later w).
Proof.
  intros [] [l1 E1] [l2 E2] Hf. unfold pend in *. rewrite E1, E2 in *. rewrite fmap_app, frees_app in *.
  apply NoDup_app in k_once0 as (_&_&?). apply app_nil in k_later0 as [_ ?].
  assert (order now) by (clear - k_order0; induction l1 as [|t l IH]; [done|]; destruct k_order0; auto).
  split; unfold pend; cbn; try done.
  - set_solver.
  - intros d Hd Hc. destruct (app_nil (frees l1) (frees now)) as [H' _]. apply H'. apply (k_due0 d); [set_solver|done].
  - intros Hg. specialize (k_open0 Hg). set_solver.
  - intros d Hd. destruct (k_free0 d Hd) as (?&?&_&?&?&?). split_and!; auto; set_solver.
Qed.

Lemma core_taken g c w t w' : core g c w -> take_next w = Some (t, w') ->
  core (if decide (t = t_free) then Ghost (g_closed g) None (g_accepted g) else g) c w'.
Proof.
  intros K H. apply take_next_cases in H as [(l & El & ->)|(d & l & El & Hd & ->)]; case_decide as Ht;
    (apply core_fewer; [first [by apply core_forget | done]| | |]); eauto; try (by exists []); try (rewrite El; by eexists [_]); try done.
  - intros e He. by apply (k_free _ _ _ K).
  - intros e He. apply (k_free _ _ _ K) in He as (_&_&He&_). rewrite El in He. set_solver.
Qed.

Lemma taken_facts g c w t w' : core g c w -> take_next w = Some (t, w') ->
  pend t w /\
  (t = t_free -> g_closed g = true /\ frees (w_now w') = []) /\
  (t = t_soft_reset \/ t = t_reconnect -> g_free g = None) /\
  (forall a, t = t_subscription_free a -> a ∈ subscriptions c /\ a ∉ frees (w_now w')).
Proof.
  intros K H. assert (Hp : pend t w).
  { apply take_next_cases in H as [(l & El & _)|(d & l & El & _ & _)]; unfold pend; rewrite El; [left|right]; cbn; set_solver. }
  split_and!; [done| | |].
  - intros ->. assert (g_closed g = true) by (destruct (g_closed g) eqn:E; [done|]; by destruct (k_open _ _ _ K E)).
    split; [done|]. apply take_next_cases in H as [(l & El & ->)|(d & l & El & Hd & ->)]; cbn.
    + pose proof (k_order _ _ _ K) as Ho. rewrite El in Ho. by apply Ho.
    + apply (k_due _ _ _ K d); [rewrite El; set_solver|done].
  - intros Ht. destruct (g_free g) as [d|] eqn:E; [|done]. destruct (k_free _ _ _ K d E) as (_&_&_&?&?&_). naive_solver.
  - intros a ->. apply take_next_cases in H as [(l & El & ->)|(d & l & El & Hd & ->)]; cbn.
    + split; [apply (k_frees _ _ _ K); rewrite El; set_solver|]. pose proof (k_once _ _ _ K) as Ho. rewrite El in Ho.
      by apply list.NoDup_cons in Ho as [? _].
    + exfalso. pose proof (k_later _ _ _ K) as Hl. by rewrite El in Hl.
Qed.

Lemma live_taken c w t w' : live None c w -> take_next w = Some (t, w') -> live (Some t) c w'.
Proof.
  intros [Hm Hp] H.
  assert (Hu : forall u, pending None u w -> pending (Some t) u w').
  { intros u [?|Hu]; [done|]. unfold pending, pend in *.
    apply take_next_cases in H as [(l & El & ->)|(d & l & El & _ & ->)]; cbn; rewrite El in Hu; cbn in Hu.
    - set_solver. - set_solver. }
  assert (Hr : resetting None w -> resetting (Some t) w') by (intros [?|?]; [left|right]; auto).
  split; intros Hs; [destruct (Hm Hs); auto|]. intros He. destruct (Hp Hs He) as [?|[?|?]]; auto.
Qed.

Lemma work_ok g w : good g w -> wp (work env) (fun _ => good g) w.
Proof.
  intros G. unfold wp, work. destruct (take_next w) as [[t w']|] eqn:E; [|done].
  unfold good in G. destruct (w_conn w) as [c|] eqn:Hc.
  2: { destruct G as (En & El & _). unfold take_next in E. by rewrite En, El in E. }
  destruct G as [K L]. pose proof (core_taken _ _ _ _ _ K E) as K'. pose proof (live_taken _ _ _ _ L E) as L'.
  destruct (taken_facts _ _ _ _ _ K E) as (_ & Hfree & Hnone & Hsub). change (wp (run_task env t) (fun _ => good g) w').
  case_decide as Ht.
  - subst t. destruct (Hfree eq_refl). eapply wp_mono; [by eapply free_ok|]. intros ? w1 [E1 G1]. unfold good in *.
    by rewrite E1 in *.
  - destruct t; cbn [run_task].
    + done.
    + by eapply subscribe_all_ok.
    + by eapply unsubscribe_all_ok.
    + by eapply publish_message_ok.
    + by eapply monitor_ok.
    + by eapply begin_disconnect_ok.
    + eapply reconnect_ok; [done|auto].
    + by eapply hard_reset_ok.
    + eapply soft_reset_ok; [done|auto].
    + destruct (Hsub s eq_refl). by eapply subscription_free_ok.
Qed.

Lemma good_live g c w : w_conn w = Some c -> good g w -> core g c w /\ live None c w.
Proof. unfold good. by intros ->. Qed.
Lemma good_conn g w : good g w -> g_closed g = false -> exists c, core g c w /\ live None c w.
Proof. unfold good. destruct (w_conn w); [eauto|]. intros (_&_&?&_). congruence. Qed.

Lemma step_ok g w i : good g w -> allowed g w i -> wp (step env i) (fun _ => good (ghost_step g w i)) w.
Proof.
  intros G A. destruct i as [cb|topic props buffer cb|topic cb|a| |o| |topic body|d|]; cbn [step ghost_step]; cbn [allowed] in A.
  - destruct (good_conn _ _ G A) as (c & K & L). wstep. eapply wp_mono; [by eapply connect_ok|]. intros ? w' G'. by apply wp_ret.
  - destruct (good_conn _ _ G A) as (c & K & L). wstep.
    pose proof (publish_ok _ _ _ topic props buffer cb K L A) as HP. unfold wp in HP |- *.
    destruct (io_mqtt_connection_publish env topic props buffer cb w) as [[r w']| |] eqn:E; [|done..]. cbn.
    destruct cb as [ctx|]; [rewrite E|].
    + case_bool_decide as Hr; [by subst r|]. by destruct r.
    + rewrite app_nil_r in HP. by case_bool_decide; destruct g.
  - destruct A as [A Hp]. destruct (good_conn _ _ G A) as (c & K & L). wstep. eapply wp_mono; [by eapply subscribe_ok|]. intros ? w' G'. by apply wp_ret.
  - destruct A as (A & Hs & Hn). destruct (good_conn _ _ G A) as (c & K & L). by eapply release_ok.
  - destruct (good_conn _ _ G A) as (c & K & L). by eapply close_ok.
  - destruct A as (c & Hc & _). destruct (good_live _ _ _ Hc G) as [K L].
    destruct o as [[[]|]|a|a| | |a|a| | |]; first [by eapply operation_ok | eapply operation_ok; [by apply core_forget|done|done]].
  - destruct A as (c & Hc & _). destruct (good_live _ _ _ Hc G) as [K L]. by eapply error_ok.
  - destruct A as (Ht & c & Hc & _ & Hs). destruct (good_live _ _ _ Hc G) as [K L]. by eapply receive_ok.
  - destruct A as [Hd Hn]. unfold wp, good in *. cbn. destruct (w_conn w) as [c|] eqn:Hc; [|done]. destruct G as [K L].
    case_bool_decide as Ht; (split; [|done]).
    + by apply core_tick.
    + by apply core_tick; [apply core_forget|..].
  - by apply work_ok.
Qed.

(** ** Reachable states *)

Lemma run_bind_ok {A B} (m : M A) (f : A -> M B) w b w' : (m ≫= f) w = Ok (b, w') ->
  exists a w1, m w = Ok (a, w1) /\ f a w1 = Ok (b, w').
Proof. unfold mbind, M_bind, mbind, res_bind. destruct (m w) as [[a w1]| |] eqn:E; [|done..]. eauto. Qed.

Lemma new_good url id ws w : w_subs w = ∅ -> w_now w = [] -> w_later w = [] -> settled (w_trace w) = [] ->
  good (Ghost false None []) (setc (new_connection url id ws true) w).
Proof.
  intros Hm Hn Hl Ht. apply (good_intro _ (new_connection url id ws true)); [|by apply live_down]. unfold new_connection.
  destruct w; cbn in *; subst. split; cbn; unfold pend; cbn; try done; try (by intros ? ?%elem_of_nil).
  - intros a. rewrite elem_of_nil, lookup_empty. split; [done|by intros []].
  - intros a. rewrite lookup_empty. by intros [].
  - constructor.
  - set_solver.
  - by rewrite Ht.
Qed.

Lemma create_good url id w w' : w_subs w = ∅ -> w_now w = [] -> w_later w = [] -> w_trace w = [] ->
  io_mqtt_connection_create env url id w = Ok (er_ok, w') -> good (Ghost false None []) w'.
Proof.
  intros Hm Hn Hl Ht H. unfold io_mqtt_connection_create in H.
  assert (Hf : forall w1 w2 c r, r <> er_ok -> (put_conn c;; io_mqtt_connection_close env;; mret r) w1 = Ok (er_ok, w2) -> False).
  { intros w1 w2 c r Hr (?&?&_&H1)%run_bind_ok. apply run_bind_ok in H1 as (?&?&_&[= -> _]). done. }
  apply run_bind_ok in H as (ok & w1 & [= _ <-] & H). case_match; [done|].
  apply run_bind_ok in H as (id' & w2 & E & H).
  assert (E2 : exists tr, w2 = with_trace tr w /\ settled tr = []).
  { destruct id; [apply run_bind_ok in E as (?&?&[= <- <-]&[= _ <-])|injection E as <- <-];
      (eexists; split; [reflexivity|]); cbn; by rewrite Ht. }
  destruct E2 as (tr & -> & Es). destruct id' as [i|]; [|exfalso; by eapply Hf].
  apply run_bind_ok in H as (r & w3 & [= _ <-] & H). case_bool_decide as Hr; [destruct (Hf _ _ _ _ Hr H)|]; clear Hr.
  apply run_bind_ok in H as (r2 & w4 & [= _ <-] & H). case_bool_decide as Hr; [destruct (Hf _ _ _ _ Hr H)|]; clear Hr.
  apply run_bind_ok in H as (? & ? & [= <- <-] & [= <-]). eapply new_good; [done..|].
  unfold settled in *. cbn. by rewrite !omap_app, Es.
Qed.

Lemma reach_good g w : reach g w -> good g w.
Proof.
  induction 1 as [url id w w' Hm Hn Hl Ht H|g w i w' _ IH A H]; [by eapply create_good|].
  pose proof (step_ok _ _ _ IH A) as W. unfold wp in W. by rewrite H in W.
Qed.


(** C31: In every state that allowed calls of the user, of the mqtt client and of the
    scheduler lead to, the next allowed call is defined: the tasks, timers and callbacks of a
    connection use neither the connection nor a subscription after it was freed, whatever the
    libraries answer, and topics are compared inside their strings.  Allowed ([allowed]):
    the user makes no call after the close, releases a subscription once and subscribes
    with patterns without '+'; the mqtt client calls while the connection has it; the
    scheduler gets to the task of a released subscription before the timer is due that frees a
    closed connection 30 seconds after the close.  Queueing a task does not fail. *)
Theorem mqtt_safe g w i : reach g w -> allowed g w i -> exists w', step env i w = Ok (tt, w').
Proof.
  intros R A. pose proof (step_ok _ _ _ (reach_good _ _ R) A) as W. unfold wp in W.
  destruct (step env i w) as [[[] w']| |]; [by exists w'|done..].
Qed.

(** C30: Every message that was accepted is completed exactly once, when the broker
    acknowledged it or the connection was closed, or is still in the queue; resets and
    reconnects neither lose a message nor complete one twice, and nothing is left in the
    queue when the connection is freed. *)
Theorem mqtt_settled g w : reach g w ->
  g_accepted g ≡ₚ settled (w_trace w) ++ (match w_conn w with Some c => queued (send_queue c) | None => [] end).
Proof.
  intros R%reach_good. unfold good in R. destruct (w_conn w) as [c|].
  - apply R. - rewrite app_nil_r. apply R.
Qed.

(** C32: A connection that connects or is connected is never forgotten: its monitor or a
    reset is queued.  And while it is connected and has a message that was not sent, a
    task that sends is queued, or the acknowledgement of another message, or a reset,
    is to come and will queue one. *)
Theorem mqtt_never_stalls g w c : reach g w -> w_conn w = Some c ->
  (status c = io_mqtt_status_connecting \/ status c = io_mqtt_status_connected ->
   pend t_monitor w \/ pend t_hard_reset w \/ pend t_soft_reset w) /\
  (status c = io_mqtt_status_connected -> Exists (fun m => published m = false) (send_queue c) ->
   pend t_publish_message w \/ Exists (fun m => published m = true) (send_queue c) \/
   pend t_hard_reset w \/ pend t_soft_reset w).
Proof.
  intros R%reach_good Hc. destruct (good_live _ _ _ Hc R) as [_ [Hm Hp]]. unfold monitored, publishing, resetting, pending in *.
  split; [intros H; specialize (Hm H)|intros H1 H2; specialize (Hp H1 H2)]; naive_solver.
Qed.

Lemma free_due g w d : reach g w -> g_free g = Some d -> d <= w_clock w ->
  (forall e t, (e, t) ∈ w_later w -> w_clock w < e) -> w_conn w = None.
Proof.
  intros R%reach_good Hf Hd Hl. unfold good in R. destruct (w_conn w) as [c|]; [|done]. destruct R as [K _].
  destruct (k_free _ _ _ K d Hf) as (_&_&Hin&_). specialize (Hl _ _ Hin). lia.
Qed.

(** The broker does not accept the connection now, and its token does not expire. *)
Definition quiet (w : world) (i : input) : Prop :=
  match i with
  | i_operation (on_connack (Some true)) => False
  | i_tick d => forall c, w_conn w = Some c -> token_until c (w_clock w + d)
  | _ => True
  end.

(** Calls that are allowed and quiet. *)
Inductive quiet_run : ghost -> world -> ghost -> world -> Prop :=
| quiet_refl g w : quiet_run g w g w
| quiet_step g w i w1 g' w' : allowed g w i -> quiet w i -> step env i w = Ok (tt, w1) ->
    quiet_run (ghost_step g w i) w1 g' w' -> quiet_run g w g' w'.

Lemma quiet_ghost g w i : g_closed g = true -> allowed g w i -> quiet w i ->
  g_closed (ghost_step g w i) = true /\ g_free (ghost_step g w i) = g_free g.
Proof.
  intros Hg A Q. destruct i as [| | | | |o| | |d|]; cbn in A, Q |- *; try done; try (destruct A; congruence); try congruence.
  - destruct o as [[[]|]| | | | | | | | |]; done.
  - destruct (w_conn w) as [c|] eqn:Hc; [|done]. rewrite bool_decide_eq_true_2; auto.
Qed.

Lemma quiet_reach g w g' w' : quiet_run g w g' w' -> reach g w -> g_closed g = true -> reach g' w' /\ g_free g' = g_free g.
Proof.
  induction 1 as [|g w i w1 g' w' A Q E _ IH]; [done|]. intros R Hg. destruct (quiet_ghost g w i Hg A Q) as [Hc Hf].
  rewrite <- Hf. apply IH; [|done]. by eapply reach_step.
Qed.

(** C33: A connection that is closed while it is not in a reset, no soft reset or reconnect is
    queued and its token is not expired is freed within 30 seconds: if from then on the broker
    does not accept the connection and the token does not expire, the
    connection is gone once 30 seconds have passed and the scheduler ran the timers that
    are due, whatever else happens.  Without these conditions a close can be undone
    ([mqtt_close_undone]). *)
Theorem mqtt_close_frees g w c w1 g' w' : reach g w -> g_closed g = false -> w_conn w = Some c ->
  status c <> io_mqtt_status_reset -> ~ pend t_soft_reset w -> ~ pend t_reconnect w -> token_until c (w_clock w) ->
  step env i_close w = Ok (tt, w1) -> quiet_run (ghost_step g w i_close) w1 g' w' ->
  w_clock w + 30000 <= w_clock w' -> (forall e t, (e, t) ∈ w_later w' -> w_clock w' < e) -> w_conn w' = None.
Proof.
  intros R Hg Hc Hs H1 H2 Ht E Q Hd Hl. assert (R1 : reach (ghost_step g w i_close) w1) by by eapply reach_step.
  destruct (quiet_reach _ _ _ _ Q R1 eq_refl) as [R' Hf]. apply (free_due g' w' (w_clock w + 30000) R'); [|exact Hd|exact Hl].
  rewrite Hf. cbn. unfold clean_close. rewrite Hc. by rewrite bool_decide_eq_true_2.
Qed.

(** Without tasks, time changes nothing. *)
Lemma idle_run l : forall w, w_now w = [] -> w_later w = [] ->
  Forall (fun i => i = i_work \/ exists d, i = i_tick d) l ->
  exists w', run env l w = Ok (tt, w') /\ w_conn w' = w_conn w.
Proof.
  induction l as [|i l IH]; intros w Hn Hl Hf; [by exists w|]. inversion_clear Hf as [|?? Hi Hf'].
  destruct Hi as [->|[d ->]]; cbn [run]; unfold mbind, M_bind; cbn.
  - unfold work, take_next. rewrite Hl, Hn. cbn. auto.
  - apply (IH (with_clock (w_clock w + d) w)); done.
Qed.

End Spec.

(** ** Runs *)

(** An environment in which everything succeeds; tokens last for [ttl]. *)
Definition fine (ttl : Z) : forall A, list event -> call A -> A := fun A _ k =>
  match k in call A return A with
  | c_alloc | c_task_entry | c_pal_caps_wsclient | c_client_init | c_codec_ping | c_message_create _ _
  | c_xio_create _ | c_on_reconnect _ => true
  | c_random_string => Some []
  | c_url_clone _ | c_scheduler_create => er_ok
  | c_url_free _ | c_scheduler_release | c_client_deinit | c_xio_trusted_certs | c_xio_send_ping _ | c_xio_destroy
  | c_on_receive _ _ _ | c_on_complete _ _ => tt
  | c_new_token _ => inl ([], ttl)
  | c_token_policy _ => None
  | c_client_connect _ | c_client_disconnect _ | c_client_subscribe _ _ _ | c_client_unsubscribe _ _ _
  | c_client_publish _ _ _ | c_xio_set_scheduler => 0
  end.

Definition a_url : io_url := Url None (Some (str "h")) 0 None None None (Some 1%nat).
Definition a_world : world := World None ∅ 1 [] [] 0 [].

#[local] Instance allowed_dec g w i : Decision (allowed g w i).
Proof.
  assert (Hd : forall P : io_mqtt_connection -> Prop, (forall c, Decision (P c)) -> Decision (exists c, w_conn w = Some c /\ P c)).
  { intros P HP. destruct (w_conn w) as [c|]; [destruct (decide (P c)) as [H|H]; [left; by exists c|right; naive_solver]|right; naive_solver]. }
  destruct i; cbn; unfold pattern_ok, wf_cstr; try apply _; apply and_dec; try apply _; apply Hd; apply _.
Defined.

(** Plays inputs that are allowed. *)
Fixpoint play env (l : list input) (g : ghost) (w : world) : option (ghost * world) :=
  match l with
  | [] => Some (g, w)
  | i :: l =>
      if decide (allowed g w i) then
        match step env i w with Ok (_, w') => play env l (ghost_step env g w i) w' | _ => None end
      else None
  end.

Lemma play_reach env l : forall g w g' w', reach env g w -> play env l g w = Some (g', w') -> reach env g' w'.
Proof.
  induction l as [|i l IH]; intros g w g' w' R H; cbn in H; [by injection H as <- <-|].
  case_decide; [|done]. destruct (step env i w) as [[[] w1]| |] eqn:E; [|done..]. eapply IH; [|done]. by eapply reach_step.
Qed.

#[local] Instance quiet_dec w i : Decision (quiet w i).
Proof.
  destruct i as [| | | | |o| | |d|]; cbn; try apply _; [destruct o as [[[]|]| | | | | | | | |]; apply _|].
  destruct (w_conn w) as [c|]; [|left; done]. destruct (decide (token_until c (w_clock w + d))) as [H|H].
  - left. by intros ? [= <-]. - right. naive_solver.
Defined.

(** Plays inputs that are allowed and quiet. *)
Fixpoint play_quiet env (l : list input) (g : ghost) (w : world) : option (ghost * world) :=
  match l with
  | [] => Some (g, w)
  | i :: l =>
      if decide (allowed g w i /\ quiet w i) then
        match step env i w with Ok (_, w') => play_quiet env l (ghost_step env g w i) w' | _ => None end
      else None
  end.

Lemma play_quiet_run env l : forall g w g' w', play_quiet env l g w = Some (g', w') -> quiet_run env g w g' w'.
Proof.
  induction l as [|i l IH]; intros g w g' w' H; cbn in H; [injection H as <- <-; constructor|].
  case_decide as A; [|done]. destruct (step env i w) as [[[] w1]| |] eqn:E; [|done..].
  eapply quiet_step; [apply A|apply A|exact E|by apply IH].
Qed.

Definition created env : ghost * world :=
  match io_mqtt_connection_create env a_url (Some (str "id")) a_world with
  | Ok (_, w) => (Ghost false None [], w)
  | _ => (Ghost false None [], a_world)
  end.
Definition played env (l : list input) : ghost * world := from_option id (created env) (play env l (created env).1 (created env).2).

Lemma played_reach ttl l : is_Some (play (fine ttl) l (created (fine ttl)).1 (created (fine ttl)).2) ->
  reach (fine ttl) (played (fine ttl) l).1 (played (fine ttl) l).2.
Proof.
  intros [[g w] E]. unfold played. rewrite E. cbn. eapply play_reach; [|exact E].
  by eapply (reach_create (fine ttl) a_url (Some (str "id")) a_world).
Qed.

(** Up to a connection that has one message to send and one subscription. *)
Definition connected : list input :=
  [i_subscribe (str "a/#") (Some 3); i_publish (str "t") None [1] (Some 7); i_connect None; i_work; i_work;
   i_operation (on_connack (Some true)); i_work; i_work; i_work].

(** The token expires, the user closes the connection before the soft reset runs, and the
    broker answers. *)
Definition undone : list input :=
  [i_connect None; i_work; i_operation (on_connack (Some true)); i_work; i_work; i_work;
   i_tick 10001; i_work; i_close; i_work; i_work; i_work; i_operation on_disconnect; i_work; i_work;
   i_operation (on_connack (Some true)); i_work; i_work; i_work].

(** The token expires and nothing is heard any more. *)
Definition expired : list input :=
  [i_connect None; i_work; i_operation (on_connack (Some true)); i_work; i_work; i_work; i_tick 10001; i_work; i_work; i_work].

Definition closed : list input := connected ++ [i_close; i_work; i_tick 30000; i_work; i_work; i_work].

(** The user releases the subscription, closes the connection, and no task runs. *)
Definition released : list input := connected ++ [i_release 1; i_close].

Lemma fine_entries ttl tr : fine ttl bool tr c_task_entry = true.
Proof. done. Qed.

Ltac play_tac := apply played_reach; vm_compute; by eexists.

Lemma mqtt_safe_witness : exists w', step (fine 100000) i_work (played (fine 100000) connected).2 = Ok (tt, w').
Proof. apply (mqtt_safe _ (fine_entries 100000) (played (fine 100000) connected).1); [play_tac|done]. Defined.

Lemma mqtt_settled_witness : g_accepted (played (fine 100000) closed).1 ≡ₚ [7] /\ w_conn (played (fine 100000) closed).2 = None.
Proof.
  split; [|done]. rewrite (mqtt_settled _ (fine_entries 100000) (played (fine 100000) closed).1 (played (fine 100000) closed).2) by play_tac.
  done.
Defined.

Lemma mqtt_never_stalls_witness : exists c, w_conn (played (fine 100000) connected).2 = Some c /\
  status c = io_mqtt_status_connected /\ pend t_monitor (played (fine 100000) connected).2.
Proof.
  destruct (w_conn (played (fine 100000) connected).2) as [c|] eqn:E; [|vm_compute in E; discriminate].
  exists c. assert (Hs : status c = io_mqtt_status_connected) by (vm_compute in E; injection E as <-; reflexivity).
  split_and!; [done|done|].
  destruct (mqtt_never_stalls _ (fine_entries 100000) (played (fine 100000) connected).1 (played (fine 100000) connected).2 c) as [H _]; [play_tac|done|].
  destruct (H (or_intror Hs)) as [?|[H'|H']]; [done|exfalso; revert H'|exfalso; revert H'];
    (apply (bool_decide_unpack (~ _)); vm_compute; exact I).
Defined.

Definition a_close : list input := [i_work; i_tick 30000; i_work; i_work; i_work].
Lemma mqtt_close_frees_witness : let g := (played (fine 100000) connected).1 in let w := (played (fine 100000) connected).2 in
  exists w1 g' w', step (fine 100000) i_close w = Ok (tt, w1) /\
  quiet_run (fine 100000) (ghost_step (fine 100000) g w i_close) w1 g' w' /\ w_clock w' = 30000 /\ w_conn w' = None.
Proof.
  intros g w. assert (R : reach (fine 100000) g w) by play_tac.
  assert (Hc : (match w_conn w with Some c => bool_decide (status c <> io_mqtt_status_reset /\ token_until c (w_clock w)) | None => false end) = true)
    by (vm_compute; reflexivity).
  assert (Hr : (match step (fine 100000) i_close w with
                | Ok (_, w1) => (fun x => (w_clock x.2, w_later x.2)) <$> play_quiet (fine 100000) a_close (ghost_step (fine 100000) g w i_close) w1
                | _ => None
                end) = Some (30000, [])) by (vm_compute; reflexivity).
  assert (Hg : g_closed g = false) by (vm_compute; reflexivity).
  assert (H1 : ~ pend t_soft_reset w) by (apply (bool_decide_unpack (~ _)); vm_compute; exact I).
  assert (H2 : ~ pend t_reconnect w) by (apply (bool_decide_unpack (~ _)); vm_compute; exact I).
  assert (Hw : w_clock w = 0) by (vm_compute; reflexivity).
  clearbody g w. destruct (w_conn w) as [c|] eqn:Ec; [|discriminate Hc]. apply bool_decide_eq_true_1 in Hc as [Hs Ht].
  destruct (step (fine 100000) i_close w) as [[[] w1]| |] eqn:E; [|discriminate Hr..].
  destruct (play_quiet _ _ _ w1) as [[g' w']|] eqn:Eq; [|discriminate Hr]. apply play_quiet_run in Eq as Q.
  injection Hr as Hw1 Hw2. cbn in Hw1, Hw2. exists w1, g', w'. split_and!; [reflexivity|exact Q|exact Hw1|].
  apply (mqtt_close_frees _ (fine_entries 100000) g w c w1 g' w' R Hg Ec Hs H1 H2 Ht E Q); [lia|].
  rewrite Hw2. by intros e t ?%elem_of_nil.
Defined.

(** The condition on the scheduler is needed: timers that are due run before the tasks that
    are queued, so that when the scheduler stalls for 30 seconds after a release and a
    close, the connection is freed first and the subscription's task uses it. *)
Lemma mqtt_release_dangles : exists g w, reach (fine 100000) g w /\ g_closed g = true /\
  run (fine 100000) [i_tick 30000; i_work; i_work; i_work] w = UB.
Proof.
  exists (played (fine 100000) released).1, (played (fine 100000) released).2.
  split_and!; [play_tac|reflexivity|vm_compute; reflexivity].
Qed.

(** A close can be undone: there are runs in which the user closes the connection and it
    is afterwards connected again, with nothing queued that would free it.  The soft reset
    that was queued before the close takes the state closing away, and the hard reset
    that follows clears the task that frees the connection. *)
Lemma mqtt_close_undone : exists g w c, reach (fine 10000) g w /\ g_closed g = true /\
  w_conn w = Some c /\ status c = io_mqtt_status_connected /\ w_now w = [] /\ (w_later w).*2 = [t_monitor].
Proof.
  exists (played (fine 10000) undone).1, (played (fine 10000) undone).2. eexists. split; [play_tac|].
  split_and!; [vm_compute; reflexivity..].
Qed.

(** A graceful disconnect has no timer: when the token expires, the connection can get to
    a state in which it waits for the broker and nothing is queued, so that no amount of
    time or work of the scheduler lets it reconnect. *)
Lemma mqtt_disconnect_stalls : exists g w, reach (fine 10000) g w /\ is_status w io_mqtt_status_disconnecting /\
  forall l, Forall (fun i => i = i_work \/ exists d, i = i_tick d) l ->
    exists w', run (fine 10000) l w = Ok (tt, w') /\ is_status w' io_mqtt_status_disconnecting.
Proof.
  exists (played (fine 10000) expired).1, (played (fine 10000) expired).2.
  assert (Hs : is_status (played (fine 10000) expired).2 io_mqtt_status_disconnecting) by (eexists; vm_compute; done).
  split_and!; [play_tac|exact Hs|]. intros l Hl.
  destruct (idle_run (fine 10000) l (played (fine 10000) expired).2) as (w' & Hr & Hc); [vm_compute; reflexivity..|exact Hl|].
  exists w'. split; [exact Hr|]. destruct Hs as (c & E & Es). exists c. split; [|exact Es]. by transitivity (w_conn (played (fine 10000) expired).2).
Qed.

End IoMqttSpec.
