(* ===== verification/IoCs.v ===== *)
(** * Connection strings (src/io_cs.c)

    A connection string is a list of keys and values; the structure has one string for
    each key.  Reading some entries computes and caches others, so that the functions
    change the structure they are given.  Whether an allocation succeeds is told by
    [mem], asked with the number of allocations made before. *)
From Stdlib Require Import Ascii String.
From stdpp Require Import base option list numbers sets.
From S2P Require Import Prelude PrxTypes UtilString UtilInt UtilKey.
Import PrxTypes UtilString UtilInt UtilKey.
Open Scope Z_scope.

Module IoCs.

Inductive io_cs_entry :=
| io_cs_entry_host_name
| io_cs_entry_hub_name
| io_cs_entry_device_id
| io_cs_entry_shared_access_key_name
| io_cs_entry_shared_access_key
| io_cs_entry_endpoint
| io_cs_entry_consumer_group
| io_cs_entry_partition_count
| io_cs_entry_entity
| io_cs_entry_endpoint_name
| io_cs_entry_shared_access_token
| io_cs_entry_shared_access_key_handle.

#[export] Instance io_cs_entry_eq_dec : EqDecision io_cs_entry.
Proof. solve_decision. Defined.

(** The array [entries]. *)
Definition io_cs := io_cs_entry -> option bytes.
Definition empty_cs : io_cs := fun _ => None.
Definition set_entry (cs : io_cs) (e : io_cs_entry) (v : option bytes) : io_cs :=
  fun e' => if decide (e' = e) then v else cs e'.

(** ** Validation *)

Definition is_digit (c : Z) : bool := bool_decide (48 <= c <= 57).
Definition is_lower (c : Z) : bool := bool_decide (97 <= c <= 122).
Definition is_upper (c : Z) : bool := bool_decide (65 <= c <= 90).

(** The loop over the hub name: [None] for an invalid character, else whether one of them
    is no digit. *)
Fixpoint hub_name_loop (s : bytes) (char_found : bool) : option bool :=
  match s with
  | [] => Some char_found
  | c :: s =>
      if is_digit c then hub_name_loop s char_found
      else if is_lower c || is_upper c || bool_decide (c = ch_dash) then hub_name_loop s true
      else None
  end.

Definition io_cs_validate_host_name (host_name : bytes) : prx_error :=
  let '(hub, rest) := scan ch_dot host_name in
  if bool_decide (rest = []) then er_invalid_format
  else
    let count := zlen hub in
    if bool_decide (count < 3 \/ count > 50) then er_invalid_format
    else if bool_decide (head host_name = Some ch_dash) then er_invalid_format
    else match hub_name_loop hub false with
         | Some true => er_ok
         | _ => er_invalid_format
         end.

Definition valid_chars : bytes := str "-:.+%_#*?!(),=@;$'".

Definition io_cs_validate_device_id (device_id : bytes) : prx_error :=
  if bool_decide (zlen device_id >= 128) then er_invalid_format
  else if forallb (fun c => is_lower c || is_upper c || is_digit c || is_trim valid_chars c) device_id then er_ok
  else er_invalid_format.

(** ** Parsing *)

Section Cs.
Variable mem : nat -> bool.

(** The structure and the number of allocations made. *)
Definition M (A : Type) := io_cs * nat -> res (A * (io_cs * nat)).
#[export] Instance M_ret : MRet M := fun A x s => Ok (x, s).
#[export] Instance M_bind : MBind M := fun A B f m s => '(x, s) ← m s; f x s.

Definition ub {A} : M A := fun _ => UB.
Definition get : M io_cs := fun s => Ok (fst s, s).
Definition put (e : io_cs_entry) (v : option bytes) : M unit := fun s => Ok (tt, (set_entry (fst s) e v, snd s)).
Definition alloc : M bool := fun s => Ok (mem (snd s), (fst s, S (snd s))).

(** A new string with these characters, NULL without memory. *)
Definition STRING_construct (s : bytes) : M (option bytes) :=
  ok ← alloc; mret (if (ok : bool) then Some s else None).
(** [STRING_concat]: the string, and whether it has grown. *)
Definition STRING_concat (s x : bytes) : M (bool * bytes) :=
  ok ← alloc; mret (if (ok : bool) then (true, s ++ x) else (false, s)).

Definition io_cs_get_entry (id : io_cs_entry) : M (option bytes) := cs ← get; mret (cs id).

Definition io_cs_get_device_id : M (option bytes) := io_cs_get_entry io_cs_entry_device_id.
Definition io_cs_get_entity : M (option bytes) := io_cs_get_entry io_cs_entry_entity.
Definition io_cs_get_endpoint : M (option bytes) := io_cs_get_entry io_cs_entry_endpoint.
Definition io_cs_get_shared_access_token : M (option bytes) := io_cs_get_entry io_cs_entry_shared_access_token.
Definition io_cs_get_shared_access_key_name : M (option bytes) := io_cs_get_entry io_cs_entry_shared_access_key_name.

Definition ch_slash : Z := 47.

(** The part of the endpoint before its first slash, if there is one. *)
Definition io_cs_get_host_name : M (option bytes) :=
  cs ← get;
  match cs io_cs_entry_host_name with
  | Some h => mret (Some h)
  | None =>
      val ← io_cs_get_endpoint;
      match val with
      | None => mret None
      | Some val =>
          match string_trim_scheme (Some val) (Some (zlen val)) with
          | None => ub
          | Some (val, _) =>
              let '(host, rest) := scan ch_slash val in
              if bool_decide (rest = []) then mret None
              else
                h ← STRING_construct host;
                put io_cs_entry_host_name h;;
                io_cs_get_entry io_cs_entry_host_name
          end
      end
  end.

Definition io_cs_get_hub_name : M (option bytes) :=
  cs ← get;
  match cs io_cs_entry_hub_name with
  | Some h => mret (Some h)
  | None =>
      val ← io_cs_get_host_name;
      match val with
      | None => ub
      | Some val =>
          let '(hub, rest) := scan ch_dot val in
          (if bool_decide (rest = []) then mret tt
           else h ← STRING_construct hub; put io_cs_entry_hub_name h);;
          io_cs_get_entry io_cs_entry_hub_name
      end
  end.

Definition io_cs_get_endpoint_name : M (option bytes) :=
  r ← io_cs_get_entry io_cs_entry_endpoint_name;
  match r with Some r => mret (Some r) | None => io_cs_get_hub_name end.

Definition io_cs_get_consumer_group : M (option bytes) :=
  r ← io_cs_get_entry io_cs_entry_consumer_group;
  e ← io_cs_get_endpoint;
  mret (match r, e with None, Some _ => Some (str "$default") | _, _ => r end).

(** [atoi] is [strtol] without an end. *)
Definition io_cs_get_partition_count : M Z :=
  r ← io_cs_get_entry io_cs_entry_partition_count;
  match r with
  | None => e ← io_cs_get_endpoint; mret (match e with Some _ => 4 | None => 0 end)
  | Some r => mret (i32 (fst (strtol 10 r)))
  end.

(** ** The outside *)

Variables (cred_caps : bool) (policy_import : bool).
(** [pal_cred_import]: the handle of a key, given its name, the key and whether to keep it. *)
Variable pal_cred_import : bytes -> bytes -> bool -> bytes + prx_error.
Variable Base64_Decoder : bytes -> option bytes.
Variable SASToken_Validate : bytes -> bool.

Definition string_base64_to_byte_array (val : bytes) : M (bytes + prx_error) :=
  match Base64_Decoder val with
  | None => mret (inr er_out_of_memory)
  | Some b => ok ← alloc; mret (if (ok : bool) then inl b else inr er_out_of_memory)
  end.

Definition io_cs_validate : M prx_error :=
  val ← io_cs_get_host_name;
  match val with
  | None => mret er_invalid_format
  | Some val =>
      if bool_decide (val = []) then mret er_invalid_format
      else if bool_decide (io_cs_validate_host_name val <> er_ok) then mret (io_cs_validate_host_name val)
      else
        cs ← get;
        match cs io_cs_entry_device_id with
        | None => mret er_ok
        | Some val =>
            if bool_decide (val = []) then mret er_invalid_format
            else if bool_decide (io_cs_validate_device_id val <> er_ok) then mret (io_cs_validate_device_id val)
            else match cs io_cs_entry_shared_access_token with
                 | Some t => mret (if SASToken_Validate t then er_ok else er_invalid_format)
                 | None => mret er_ok
                 end
        end
  end.

(** Concatenations up to the first that fails. *)
Fixpoint concat_all (s : bytes) (l : list bytes) : M (bool * bytes) :=
  match l with
  | [] => mret (true, s)
  | x :: l => '(ok, s) ← STRING_concat s x; if (ok : bool) then concat_all s l else mret (false, s)
  end.

(** [<policy>@<hostname>] or [device:<device>@<hostname>]. *)
Definition io_cs_get_unique_key_name : M (bytes + prx_error) :=
  id ← io_cs_get_shared_access_key_name;
  key_name ← STRING_construct (default [] id);
  match key_name with
  | None => mret (inr er_out_of_memory)
  | Some key_name =>
      r ← (match id with
           | Some _ => mret (inl key_name)
           | None =>
               device ← io_cs_get_device_id;
               match device with
               | None => mret (inr er_not_found)
               | Some device =>
                   '(ok, s) ← concat_all key_name [str "device:"; device];
                   mret (if (ok : bool) then inl s else inr er_out_of_memory)
               end
           end);
      match r with
      | inr e => mret (inr e)
      | inl key_name =>
          host ← io_cs_get_host_name;
          match host with
          | None => mret (inl key_name)
          | Some host =>
              '(ok, s) ← concat_all key_name [str "@"; host];
              mret (if (ok : bool) then inl s else inr er_out_of_memory)
          end
      end
  end.

Definition io_cs_import_key : M prx_error :=
  cs ← get;
  match cs io_cs_entry_shared_access_key with
  | None => mret er_ok
  | Some key_val =>
      if negb cred_caps then mret er_ok
      else
        key_name ← io_cs_get_unique_key_name;
        match key_name with
        | inr e => mret e
        | inl key_name =>
            key ← string_base64_to_byte_array key_val;
            match key with
            | inr e => mret e
            | inl key =>
                policy ← io_cs_get_shared_access_key_name;
                let persist := match policy with None => true | Some _ => policy_import end in
                match pal_cred_import key_name key persist with
                | inr e => mret e
                | inl handle =>
                    (if bool_decide (key_name <> handle) then put io_cs_entry_shared_access_key_handle (Some handle)
                     else mret tt);;
                    put io_cs_entry_shared_access_key None;;
                    mret er_ok
                end
            end
        end
  end.

Definition io_cs_get_key_handle : M (option bytes) :=
  cs ← get;
  match cs io_cs_entry_shared_access_key_handle with
  | Some h => mret (Some h)
  | None =>
      r ← io_cs_get_unique_key_name;
      match r with
      | inl h => put io_cs_entry_shared_access_key_handle (Some h);; mret (Some h)
      | inr _ => mret None
      end
  end.

(** The keys, in the order in which they are tried; [None]: a key that is not used. *)
Definition keys : list (bytes * option io_cs_entry) :=
  [(str "HostName", Some io_cs_entry_host_name); (str "DeviceId", Some io_cs_entry_device_id);
   (str "SharedAccessKeyName", Some io_cs_entry_shared_access_key_name);
   (str "SharedAccessKey", Some io_cs_entry_shared_access_key);
   (str "ConsumerGroup", Some io_cs_entry_consumer_group); (str "Partitions", Some io_cs_entry_partition_count);
   (str "Endpoint", Some io_cs_entry_endpoint); (str "EntityPath", Some io_cs_entry_entity);
   (str "EndpointName", Some io_cs_entry_endpoint_name);
   (str "SharedAccessToken", Some io_cs_entry_shared_access_token);
   (str "SharedAccessKeyHandle", Some io_cs_entry_shared_access_key_handle);
   (str "GatewayHostName", None)].

Fixpoint key_entry (l : list (bytes * option io_cs_entry)) (key : bytes) : option (option io_cs_entry) :=
  match l with
  | [] => None
  | (name, e) :: l => if string_is_equal_nocase (Some key) (zlen key) (Some name) then Some e else key_entry l key
  end.

Definition io_cs_parser_callback (s : io_cs * nat) (key val : bytes) : prx_error * (io_cs * nat) :=
  let '(cs, n) := s in
  match key_entry keys key with
  | None => (er_invalid_format, s)
  | Some None => (er_ok, s)
  | Some (Some e) =>
      match cs e with
      | Some _ => (er_invalid_format, s)
      | None =>
          match STRING_safe_construct_n (mem n) (Some val) (zlen val) with
          | None => (er_out_of_memory, (cs, S n))
          | Some v => (er_ok, (set_entry cs e (Some v), S n))
          end
      end
  end.

(** The steps after the structure was allocated. *)
Definition create_steps (c_string : bytes) : M prx_error :=
  result ← (fun s => string_key_value_parser io_cs_parser_callback ch_semi (Some c_string) s);
  if bool_decide (result <> er_ok) then mret result
  else
    result ← io_cs_import_key;
    if bool_decide (result <> er_ok) then mret result else io_cs_validate.

(** A new structure, with [n] allocations made before. *)
Definition io_cs_create_from_string (c_string : option bytes) (n : nat) : res (io_cs * nat) :=
  match c_string with
  | None => Err er_fault
  | Some s =>
      if negb (mem n) then Err er_out_of_memory
      else
        '(result, (cs, n)) ← create_steps s (empty_cs, S n);
        if bool_decide (result = er_ok) then Ok (cs, n) else Err result
  end.

(** An optional entry of a new structure. *)
Definition init_entry (e : io_cs_entry) (v : option bytes) : M bool :=
  match v with
  | None => mret true
  | Some v => s ← STRING_construct v; put e s;; mret (match s with Some _ => true | None => false end)
  end.

Definition io_cs_create (host_name device_id shared_access_key_name shared_access_key : option bytes) (n : nat) :
    res ((io_cs + prx_error) * nat) :=
  match host_name with
  | None => Ok (inr er_fault, n)
  | Some host_name =>
      if negb (mem n) then Ok (inr er_out_of_memory, S n)
      else
        '(result, (cs, n)) ←
          (h ← init_entry io_cs_entry_host_name (Some host_name);
           if negb h then mret er_out_of_memory
           else
             d ← init_entry io_cs_entry_device_id device_id;
             if negb d then mret er_out_of_memory
             else
               k ← init_entry io_cs_entry_shared_access_key_name shared_access_key_name;
               if negb k then mret er_out_of_memory
               else
                 k ← init_entry io_cs_entry_shared_access_key shared_access_key;
                 if negb k then mret er_out_of_memory
                 else
                   result ← io_cs_import_key;
                   if bool_decide (result <> er_ok) then mret result else io_cs_validate) (empty_cs, S n);
        Ok (if bool_decide (result = er_ok) then inl cs else inr result, n)
  end.

Definition all_entries : list io_cs_entry :=
  [io_cs_entry_host_name; io_cs_entry_hub_name; io_cs_entry_device_id; io_cs_entry_shared_access_key_name;
   io_cs_entry_shared_access_key; io_cs_entry_endpoint; io_cs_entry_consumer_group; io_cs_entry_partition_count;
   io_cs_entry_entity; io_cs_entry_endpoint_name; io_cs_entry_shared_access_token;
   io_cs_entry_shared_access_key_handle].

Fixpoint clone_loop (orig : io_cs) (l : list io_cs_entry) : M prx_error :=
  match l with
  | [] => mret er_ok
  | e :: l =>
      match orig e with
      | None => clone_loop orig l
      | Some v =>
          s ← STRING_construct v;
          put e s;;
          match s with Some _ => clone_loop orig l | None => mret er_out_of_memory end
      end
  end.

Definition io_cs_clone (orig : option io_cs) (n : nat) : res ((io_cs + prx_error) * nat) :=
  match orig with
  | None => Ok (inr er_fault, n)
  | Some orig =>
      if negb (mem n) then Ok (inr er_out_of_memory, S n)
      else
        '(result, (cs, n)) ← clone_loop orig all_entries (empty_cs, S n);
        Ok (if bool_decide (result = er_ok) then inl cs else inr result, n)
  end.

(** ** Printing *)

Definition io_cs_append_entry_to_STRING (entry : io_cs_entry) (name c_string : bytes) : M (prx_error * bytes) :=
  cs ← get;
  match cs entry with
  | None => mret (er_ok, c_string)
  | Some v =>
      '(ok, c_string) ← (if bool_decide (zlen c_string > 0) then STRING_concat c_string [ch_semi] else mret (true, c_string));
      if negb ok then mret (er_out_of_memory, c_string)
      else
        '(ok, c_string) ← concat_all c_string [name; v];
        mret (if (ok : bool) then er_ok else er_out_of_memory, c_string)
  end.

(** The names and entries, in the order in which they are written. *)
Definition printed : list (io_cs_entry * bytes) :=
  [(io_cs_entry_host_name, str "HostName="); (io_cs_entry_device_id, str "DeviceId=");
   (io_cs_entry_endpoint, str "Endpoint="); (io_cs_entry_entity, str "EntityPath=");
   (io_cs_entry_shared_access_key_name, str "SharedAccessKeyName=");
   (io_cs_entry_shared_access_key, str "SharedAccessKey="); (io_cs_entry_consumer_group, str "ConsumerGroup=");
   (io_cs_entry_partition_count, str "Partitions="); (io_cs_entry_endpoint_name, str "EndpointName=");
   (io_cs_entry_shared_access_token, str "SharedAccessToken=");
   (io_cs_entry_shared_access_key_handle, str "SharedAccessKeyHandle=")].

Fixpoint append_all (l : list (io_cs_entry * bytes)) (c_string : bytes) : M (prx_error * bytes) :=
  match l with
  | [] => mret (er_ok, c_string)
  | (e, name) :: l =>
      '(result, c_string) ← io_cs_append_entry_to_STRING e name c_string;
      if bool_decide (result <> er_ok) then mret (result, c_string) else append_all l c_string
  end.

Definition io_cs_append_to_STRING (c_string : bytes) : M (prx_error * bytes) := append_all printed c_string.

Definition io_cs_to_STRING : M (option bytes) :=
  s ← STRING_construct [];
  match s with
  | None => mret None
  | Some s =>
      '(result, s) ← io_cs_append_to_STRING s;
      mret (if bool_decide (result = er_ok) then Some s else None)
  end.

(** ** Changes *)

(** The handle the key storage is told to remove. *)
Definition io_cs_remove_keys : M (option bytes) :=
  cs ← get;
  match cs io_cs_entry_shared_access_key_handle with
  | None => mret None
  | Some h => put io_cs_entry_shared_access_key_handle None;; mret (Some h)
  end.

Definition io_cs_set_entry (id : io_cs_entry) (entry : option bytes) : M prx_error :=
  match entry with
  | None => put id None;; mret er_ok
  | Some v =>
      s ← STRING_construct v;
      put id s;;
      mret (match s with Some _ => er_ok | None => er_out_of_memory end)
  end.

Definition io_cs_set_host_name (host_name : option bytes) : M prx_error :=
  match host_name with
  | None => mret er_fault
  | Some h =>
      if bool_decide (io_cs_validate_host_name h <> er_ok) then mret (io_cs_validate_host_name h)
      else
        ok ← alloc;
        let s := STRING_construct_trim ok (Some h) (Some (str "/\ ")) in
        put io_cs_entry_host_name s;;
        mret (match s with Some _ => er_ok | None => er_out_of_memory end)
  end.

Definition io_cs_set_device_id (device_id : option bytes) : M prx_error :=
  match device_id with
  | Some d =>
      if bool_decide (io_cs_validate_device_id d <> er_ok) then mret (io_cs_validate_device_id d)
      else io_cs_set_entry io_cs_entry_device_id device_id
  | None => io_cs_set_entry io_cs_entry_device_id None
  end.

Definition io_cs_set_endpoint (endpoint : option bytes) : M prx_error :=
  match endpoint with
  | None => io_cs_set_entry io_cs_entry_endpoint None
  | Some e =>
      match string_trim_scheme (Some e) (Some (zlen e)) with
      | None => ub
      | Some (e, len) =>
          let len := string_trim_back_len (Some e) len (Some (str "/\ ")) in
          ok ← alloc;
          let s := STRING_safe_construct_n ok (Some e) len in
          put io_cs_entry_endpoint s;;
          mret (match s with Some _ => er_ok | None => er_out_of_memory end)
      end
  end.

Definition io_cs_set_endpoint_name : option bytes -> M prx_error := io_cs_set_entry io_cs_entry_endpoint_name.
Definition io_cs_set_consumer_group : option bytes -> M prx_error := io_cs_set_entry io_cs_entry_consumer_group.
Definition io_cs_set_entity : option bytes -> M prx_error := io_cs_set_entry io_cs_entry_entity.

Definition io_cs_set_partition_count (count : Z) : M prx_error :=
  if bool_decide (count = 0) then io_cs_set_entry io_cs_entry_partition_count None
  else match string_from_int count 10 32 with
       | UB => ub
       | Err e => mret e
       | Ok buf => io_cs_set_entry io_cs_entry_partition_count (Some buf)
       end.

(** ** Token providers *)

(** What a provider is created from: a fixed token, or the name of the policy, the key and
    the scope. *)
Inductive provider := passthru (token : bytes) | iothub (policy : option bytes) (key scope : bytes).
(** The result of creating it (io_token.c). *)
Variable create_provider : provider -> prx_error.

Definition scope_of (val : option bytes) (scope delim : bytes) : M (option bytes) :=
  match val with
  | None => mret (Some scope)
  | Some val => '(ok, s) ← concat_all scope [delim; val]; mret (if (ok : bool) then Some s else None)
  end.

Definition io_cs_create_token_provider : M (provider + prx_error) :=
  let create p := mret (if bool_decide (create_provider p = er_ok) then inl p else inr (create_provider p)) in
  cs ← get;
  match cs io_cs_entry_shared_access_token with
  | Some token => create (passthru token)
  | None =>
      val ← io_cs_get_endpoint;
      val ← (match val with Some v => mret (Some v) | None => io_cs_get_host_name end);
      match val with
      | None => mret (inr er_invalid_format)
      | Some val =>
          scope ← STRING_construct val;
          match scope with
          | None => mret (inr er_out_of_memory)
          | Some scope =>
              device ← io_cs_get_device_id;
              scope ← (match device with
                       | Some d => scope_of (Some d) scope (str "/devices/")
                       | None =>
                           entity ← io_cs_get_entity;
                           v ← (match entity with Some e => mret (Some e) | None => io_cs_get_endpoint_name end);
                           scope_of v scope (str "/")
                       end);
              match scope with
              | None => mret (inr er_out_of_memory)
              | Some scope =>
                  key ← (if cred_caps then io_cs_get_key_handle else io_cs_get_entry io_cs_entry_shared_access_key);
                  match key with
                  | None => mret (inr er_invalid_format)
                  | Some key =>
                      policy ← io_cs_get_shared_access_key_name;
                      create (iothub policy key scope)
                  end
              end
          end
      end
  end.

(** ** What is printed is parsed *)

Implicit Types (cs : io_cs) (e : io_cs_entry) (v : bytes).
Hypothesis mem_ok : forall n, mem n = true.

(** A value that can be printed and parsed. *)
Definition clean v : Prop := (0 ∉ v) /\ (ch_semi ∉ v).

(** The names and values printed for the entries [l]. *)
Definition pairs cs (l : list (io_cs_entry * bytes)) : list (bytes * bytes) :=
  omap (fun x => v ← cs (fst x); Some (removelast (snd x), v)) l.
(** A name ends with the sign and is the key of its entry. *)
Definition named (x : io_cs_entry * bytes) : Prop :=
  snd x = removelast (snd x) ++ [ch_eq] /\ (ch_eq ∉ removelast (snd x)) /\ key_entry keys (removelast (snd x)) = Some (Some (fst x)).

Lemma printed_named : Forall named printed.
Proof. repeat (constructor; [split_and!; [reflexivity|apply (bool_decide_unpack _); vm_compute; exact I|vm_compute; reflexivity]|]). constructor. Qed.
Lemma printed_nodup : NoDup (fst <$> printed).
Proof. apply (bool_decide_unpack _). vm_compute. exact I. Qed.
Lemma printed_all e : e <> io_cs_entry_hub_name -> e ∈ fst <$> printed.
Proof. intros He. apply (bool_decide_unpack _). by destruct e. Qed.

Lemma concat_all_ok l : forall s cs n, exists n', concat_all s l (cs, n) = Ok ((true, s ++ mjoin l), (cs, n')).
Proof.
  induction l as [|x l IH]; intros s cs n; cbn [concat_all]; [exists n; by rewrite app_nil_r|].
  unfold STRING_concat, alloc, mret, M_ret, mbind, M_bind. cbn. rewrite mem_ok.
  destruct (IH (s ++ x) cs (S n)) as (n' & ->). exists n'. by rewrite <- app_assoc.
Qed.

(** The text [c] and the pairs [l] after it. *)
Definition join (c : bytes) (l : list (bytes * bytes)) : bytes :=
  match l with [] => c | _ => if bool_decide (c = []) then print_pairs ch_semi l else c ++ ch_semi :: print_pairs ch_semi l end.

Lemma join_nil l : l <> [] -> join [] l = print_pairs ch_semi l.
Proof. by destruct l. Qed.
Lemma join_cons c x l : join c (x :: l) = join (join c [x]) l.
Proof.
  assert (Hne : join c [x] <> []). { cbn. unfold print_pair. by case_bool_decide; destruct c, (fst x). }
  destruct l as [|y l]; [done|]. set (r := join c [x]) in *. cbn [join]. rewrite (bool_decide_eq_false_2 (r = [])) by done.
  rewrite print_pairs_cons by done. subst r. cbn. unfold print_pair. case_bool_decide; rewrite <- !app_assoc; cbn; rewrite <- ?app_assoc; done.
Qed.

Lemma append_entry_run x cs c n : named x -> exists n',
  io_cs_append_entry_to_STRING (fst x) (snd x) c (cs, n) = Ok ((er_ok, join c (pairs cs [x])), (cs, n')).
Proof.
  intros (Hname & _). unfold io_cs_append_entry_to_STRING, STRING_concat, alloc, get, mret, M_ret, mbind, M_bind, pairs. cbn -[concat_all].
  destruct (cs (fst x)) as [v|]; [|by exists n]. cbn -[concat_all]. unfold print_pair. cbn [fst snd].
  destruct (decide (c = [])) as [->|Hc].
  - rewrite bool_decide_eq_false_2 by (rewrite zlen_nil; lia). rewrite bool_decide_eq_true_2 by done. cbn -[concat_all].
    destruct (concat_all_ok [snd x; v] [] cs n) as (n' & ->). exists n'. rewrite Hname at 1. cbn. by rewrite app_nil_r, <- app_assoc.
  - rewrite bool_decide_eq_true_2 by (destruct c; [done|rewrite zlen_cons; pose proof (zlen_nonneg c); lia]).
    rewrite bool_decide_eq_false_2 by done. cbn -[concat_all]. rewrite mem_ok. cbn -[concat_all].
    destruct (concat_all_ok [snd x; v] (c ++ [ch_semi]) cs (S n)) as (n' & ->). exists n'. rewrite Hname at 1. cbn.
    by rewrite app_nil_r, <- !app_assoc.
Qed.

Lemma append_all_run l : Forall named l -> forall c cs n, exists n',
  append_all l c (cs, n) = Ok ((er_ok, join c (pairs cs l)), (cs, n')).
Proof.
  induction 1 as [|[e name] l Hx Hl IH]; intros c cs n; cbn [append_all]; [by exists n|].
  destruct (append_entry_run (e, name) cs c n Hx) as (n1 & E). cbn [fst snd] in E. unfold mbind, M_bind. cbn -[pairs join]. rewrite E. cbn -[pairs join]. rewrite bool_decide_eq_false_2 by (intros Hn; by apply Hn).
  destruct (IH (join c (pairs cs [(e, name)])) cs n1) as (n' & ->). exists n'. do 3 f_equal.
  unfold pairs. cbn. destruct (cs e) as [v|]; [|done]. cbn [omap]. symmetry. apply join_cons.
Qed.

Lemma cstr_clean v : 0 ∉ v -> cstr v = v.
Proof. induction v as [|b v IH]; [done|]. intros Hb. cbn. rewrite bool_decide_eq_false_2 by set_solver. f_equal. apply IH. set_solver. Qed.

Lemma cstr_no_zero v : 0 ∉ cstr v.
Proof. induction v as [|b v IH]; cbn; [set_solver|]. case_bool_decide; set_solver. Qed.
Lemma cstr_elem v c : c ∈ cstr v -> c ∈ v.
Proof. induction v as [|b v IH]; cbn; [done|]. case_bool_decide; set_solver. Qed.
Lemma key_entry_hub key : key_entry keys key <> Some (Some io_cs_entry_hub_name).
Proof. unfold keys, key_entry. by repeat case_match. Qed.

Lemma cs_visit_run l : Forall named l -> NoDup (fst <$> l) -> forall cs cs0 n,
  (forall e v, cs e = Some v -> 0 ∉ v) -> (forall e, e ∈ fst <$> l -> cs0 e = None) -> exists cs1 n1,
  visit_pairs io_cs_parser_callback (pairs cs l) (cs0, n) = (er_ok, (cs1, n1)) /\
  forall e, cs1 e = if decide (e ∈ fst <$> l) then cs e else cs0 e.
Proof.
  induction 1 as [|[e name] l (_ & _ & Hkey) Hl IH]; intros Hnd cs cs0 n Hz Hnone.
  { exists cs0, n. split; [done|]. intros e. by rewrite decide_False by set_solver. }
  cbn [fmap list_fmap fst snd] in *. apply NoDup_cons in Hnd as [Hne Hnd].
  unfold pairs. cbn. destruct (cs e) as [v|] eqn:Ev; cbn -[keys].
  - rewrite Hkey, (Hnone e) by set_solver. rewrite mem_ok. unfold zlen. rewrite Nat2Z.id, firstn_all, cstr_clean by eauto. cbn -[keys].
    destruct (IH Hnd cs (set_entry cs0 e (Some v)) (S n)) as (cs1 & n1 & E & Hcs); [done| |].
    { intros e' He'. unfold set_entry. rewrite decide_False by (intros ->; done). set_solver. }
    exists cs1, n1. split; [exact E|]. intros e'. rewrite Hcs. unfold set_entry. repeat case_decide; subst; set_solver.
  - destruct (IH Hnd cs cs0 n) as (cs1 & n1 & E & Hcs); [done|set_solver|]. exists cs1, n1. split; [exact E|].
    intros e'. rewrite Hcs. destruct (decide (e' = e)) as [->|]; [|repeat case_decide; set_solver].
    rewrite decide_False, decide_True by set_solver. rewrite Ev. set_solver.
Qed.

(** ** What parsing and validation establish *)

Definition clean_cs cs : Prop :=
  (forall e v, e <> io_cs_entry_shared_access_key_handle -> cs e = Some v -> clean v) /\ cs io_cs_entry_hub_name = None.

(** No entry changes but a host name that was not there, and values stay clean. *)
Definition host_changed (s s' : io_cs * nat) : Prop :=
  (forall e, e <> io_cs_entry_host_name -> fst s' e = fst s e) /\
  (forall h, fst s io_cs_entry_host_name = Some h -> fst s' io_cs_entry_host_name = Some h) /\ (clean_cs (fst s) -> clean_cs (fst s')).
Lemma host_changed_refl s : host_changed s s.
Proof. done. Qed.
Definition host_only {A} (c : M A) : Prop := forall s x s', c s = Ok (x, s') -> host_changed s s'.

Lemma host_only_same {A} (c : M A) : (forall s x s', c s = Ok (x, s') -> fst s' = fst s) -> host_only c.
Proof. intros Hc s x s' E. unfold host_changed. by rewrite (Hc s x s' E). Qed.
Lemma host_only_ret {A} (x : A) : host_only (mret x).
Proof. apply host_only_same. by intros s y s' [= _ <-]. Qed.
Lemma host_only_ub {A} : host_only (@ub A).
Proof. by intros s x s'. Qed.
Lemma host_only_get : host_only get.
Proof. apply host_only_same. by intros s y s' [= _ <-]. Qed.
Lemma host_only_alloc : host_only alloc.
Proof. apply host_only_same. by intros s y s' [= _ <-]. Qed.
Lemma host_only_bind {A B} (c : M A) (f : A -> M B) : host_only c -> (forall x, host_only (f x)) -> host_only (c ≫= f).
Proof.
  intros Hc Hf s y s' E. unfold mbind, M_bind in E. destruct (c s) as [[x s1]| |] eqn:E1; [|done..].
  destruct (Hc _ _ _ E1) as (A1 & A2 & A3). destruct (Hf x _ _ _ E) as (B1 & B2 & B3). split_and!; auto.
  intros e He. by rewrite B1, A1.
Qed.

Create HintDb host_only.
#[local] Hint Resolve host_only_ret host_only_ub host_only_get host_only_alloc : host_only.
Ltac host_tac := repeat first
  [ solve [eauto 2 with host_only] | apply host_only_bind; [|intros] | progress case_match | progress cbv zeta ].

Lemma host_only_construct s : host_only (STRING_construct s).
Proof. unfold STRING_construct. host_tac. Qed.
Lemma host_only_concat s l : host_only (concat_all s l).
Proof. revert s. induction l as [|x l IH]; intros s; cbn [concat_all]; unfold STRING_concat; host_tac. Qed.
Lemma host_only_entry e : host_only (io_cs_get_entry e).
Proof. unfold io_cs_get_entry. host_tac. Qed.
#[local] Hint Resolve host_only_construct host_only_concat host_only_entry : host_only.

Lemma scan_elem d s a r c : scan d s = (a, r) -> (c ∈ a -> c ∈ s) /\ (c ∈ r -> c ∈ s) /\ d ∉ a.
Proof.
  revert a r. induction s as [|x s IH]; intros a r; cbn [scan].
  - intros [= <- <-]. set_solver.
  - case_bool_decide as Hx; [intros [= <- <-]; set_solver|]. destruct (scan d s) as [a' r'] eqn:E. intros [= <- <-].
    destruct (IH a' r' eq_refl) as (H1 & H2 & H3). set_solver.
Qed.

Lemma scheme_loop_elem n : forall h r c, scheme_loop n h = Some r -> c ∈ r -> c ∈ h.
Proof.
  induction n as [|n IH]; intros h r c; cbn [scheme_loop]; [done|]. case_bool_decide.
  - intros [= <-] Hc. rewrite <- (take_drop 3 h). set_solver.
  - intros E Hc. rewrite <- (take_drop 1 h). apply elem_of_app. right. by eapply IH.
Qed.

Lemma trim_scheme_elem h n r n' c : string_trim_scheme (Some h) n = Some (r, n') -> c ∈ r -> c ∈ h.
Proof.
  unfold string_trim_scheme. case_bool_decide; [by intros [= <- <-]|].
  destruct (scheme_loop _ h) eqn:E; intros [= <- <-]; [|done]. by eapply scheme_loop_elem.
Qed.

Lemma host_only_host : host_only io_cs_get_host_name.
Proof.
  intros [cs n] x s'. pose proof (host_changed_refl (cs, n)) as Hsame.
  unfold io_cs_get_host_name, io_cs_get_endpoint, io_cs_get_entry, STRING_construct, alloc, put, get, mret, M_ret, mbind, M_bind.
  cbn -[string_trim_scheme].
  destruct (cs io_cs_entry_host_name) as [h|] eqn:Eh; [intros [= _ <-]; done|]. cbn [fst].
  destruct (cs io_cs_entry_endpoint) as [ep|] eqn:Eep; [|intros [= _ <-]; done].
  destruct (string_trim_scheme _ _) as [[val len]|] eqn:Et; [|done]. destruct (scan ch_slash val) as [host rest] eqn:Esc.
  case_bool_decide; [intros [= _ <-]; done|]. cbn. intros [= _ <-]. split_and!; cbn [fst].
  - intros e He. unfold set_entry. by rewrite decide_False.
  - by rewrite Eh.
  - intros [Hc Hh]. split; [|done]. intros e v He. unfold set_entry. case_decide; [|by apply Hc].
    destruct (mem n); intros [= <-]. destruct (Hc io_cs_entry_endpoint ep) as [Z0 Zs]; [done|done|].
    split; intros Hin; [apply Z0|apply Zs]; (eapply trim_scheme_elem; [exact Et|]); exact (proj1 (scan_elem _ _ _ _ _ Esc) Hin).
Qed.
#[local] Hint Resolve host_only_host : host_only.

Lemma host_only_key_name : host_only io_cs_get_unique_key_name.
Proof. unfold io_cs_get_unique_key_name, io_cs_get_device_id, io_cs_get_shared_access_key_name. host_tac. Qed.
Lemma host_only_base64 val : host_only (string_base64_to_byte_array val).
Proof. unfold string_base64_to_byte_array. host_tac. Qed.

Lemma parse_clean fuel : forall s ctx r ctx', clean_cs (fst ctx) ->
  key_value_loop io_cs_parser_callback ch_semi fuel s ctx = Ok (r, ctx') -> clean_cs (fst ctx').
Proof.
  assert (Hvisit : forall ctx key val r ctx', clean_cs (fst ctx) -> ch_semi ∉ val ->
            io_cs_parser_callback ctx key val = (r, ctx') -> clean_cs (fst ctx')).
  { intros [cs n] key val r ctx' [Hc Hh] Hval. unfold io_cs_parser_callback.
    destruct (key_entry keys key) as [[e|]|] eqn:Ek; [|by intros [= _ <-]..].
    destruct (cs e); [by intros [= _ <-]|]. unfold STRING_safe_construct_n. destruct (mem n); [|by intros [= _ <-]].
    intros [= _ <-]. split; cbn [fst].
    - intros e' v' He'. unfold set_entry. case_decide; [|by apply Hc]. intros [= <-]. split.
      + apply cstr_no_zero.
      + intros Hin. apply cstr_elem in Hin. apply Hval. rewrite <- (take_drop (Z.to_nat (zlen val)) val). set_solver.
    - unfold set_entry. case_decide as He; [|done]. subst e. by apply key_entry_hub in Ek. }
  induction fuel as [|fuel IH]; intros s ctx r ctx' Hctx; [done|]. cbn [key_value_loop].
  destruct (scan ch_eq s) as [key rest]. destruct rest as [|x [|y w]].
  1, 2: intros E; injection E as E; eapply Hvisit; [done| |exact E]; set_solver.
  destruct (scan ch_semi (y :: w)) as [val rest'] eqn:Es. destruct (io_cs_parser_callback ctx key val) as [r1 ctx1] eqn:Ev.
  assert (Hc1 : clean_cs (fst ctx1)). { eapply Hvisit; [exact Hctx| |exact Ev]. by apply (scan_elem _ _ _ _ 0 Es). }
  case_bool_decide; [by intros [= _ <-]|]. destruct rest' as [|x' [|y' w']]; [by intros [= _ <-]..|]. by apply IH.
Qed.

Lemma host_name_cached s h s' : io_cs_get_host_name s = Ok (Some h, s') -> fst s' io_cs_entry_host_name = Some h.
Proof.
  destruct s as [cs n]. unfold io_cs_get_host_name, io_cs_get_endpoint, io_cs_get_entry, STRING_construct, alloc, put, get, mret, M_ret, mbind, M_bind.
  cbn -[string_trim_scheme]. destruct (cs io_cs_entry_host_name) as [h'|] eqn:Eh; [by intros [= <- <-]|]. cbn [fst].
  destruct (cs io_cs_entry_endpoint) as [ep|]; [|done].
  destruct (string_trim_scheme _ _) as [[val len]|]; [|done]. destruct (scan ch_slash val) as [host rest].
  case_bool_decide; [done|]. cbn. intros E. injection E as E <-. exact E.
Qed.

Lemma bind_ok {A B} (c : M A) (f : A -> M B) s y s' : (c ≫= f) s = Ok (y, s') ->
  exists x s1, c s = Ok (x, s1) /\ f x s1 = Ok (y, s').
Proof. unfold mbind, M_bind. destruct (c s) as [[x s1]| |] eqn:E; [|done..]. intros E'. by exists x, s1. Qed.
Lemma bind_eq {A B} (c : M A) (f : A -> M B) s x s1 : c s = Ok (x, s1) -> (c ≫= f) s = f x s1.
Proof. unfold mbind, M_bind. by intros ->. Qed.
Lemma clean_host_only {A} (c : M A) s x s' : host_only c -> c s = Ok (x, s') -> clean_cs (fst s) ->
  clean_cs (fst s') /\ fst s' io_cs_entry_shared_access_key = fst s io_cs_entry_shared_access_key.
Proof. intros Hc E. destruct (Hc _ _ _ E) as (H1 & _ & H3). split; [by apply H3|by apply H1]. Qed.

(** A failure is no success. *)
Hypothesis import_fails : forall name key persist, pal_cred_import name key persist <> inr er_ok.
Lemma key_name_fails s s' : io_cs_get_unique_key_name s <> Ok (inr er_ok, s').
Proof.
  intros E. unfold io_cs_get_unique_key_name in E. apply bind_ok in E as (id & s1 & _ & E). apply bind_ok in E as (k & s2 & _ & E).
  destruct k as [k|]; [|done]. apply bind_ok in E as (r & s3 & E3 & E). destruct r as [r|e].
  - apply bind_ok in E as (host & s4 & _ & E). destruct host; [|done]. apply bind_ok in E as ([[] x] & s5 & _ & E); done.
  - injection E as -> _. destruct id; [done|]. apply bind_ok in E3 as (d & s4 & _ & E). destruct d; [|done].
    apply bind_ok in E as ([[] x] & s5 & _ & E); done.
Qed.
Lemma base64_fails val s s' : string_base64_to_byte_array val s <> Ok (inr er_ok, s').
Proof.
  intros E. unfold string_base64_to_byte_array in E. destruct (Base64_Decoder val); [|done].
  apply bind_ok in E as ([] & s1 & _ & E); done.
Qed.

(** After the import there is no key left to import, if there is a storage for keys. *)
Lemma import_clean s s' : io_cs_import_key s = Ok (er_ok, s') -> clean_cs (fst s) ->
  clean_cs (fst s') /\ (fst s' io_cs_entry_shared_access_key = None \/ cred_caps = false).
Proof.
  intros E Hs. unfold io_cs_import_key in E. apply bind_ok in E as (cs & s1 & [= <- <-] & E).
  destruct (fst s io_cs_entry_shared_access_key) as [k|] eqn:Ek; [|injection E as <-; by split; [|left]].
  destruct cred_caps; cbn [negb] in E; [|injection E as <-; by split; [|right]].
  apply bind_ok in E as (kn & s1 & E1 & E). destruct (clean_host_only _ _ _ _ host_only_key_name E1 Hs) as [C1 _].
  destruct kn as [kn|e]; [|injection E as -> _; by apply key_name_fails in E1].
  apply bind_ok in E as (b & s2 & E2 & E). destruct (clean_host_only _ _ _ _ (host_only_base64 k) E2 C1) as [C2 _].
  destruct b as [b|e]; [|injection E as -> _; by apply base64_fails in E2].
  apply bind_ok in E as (p & s3 & [= <- <-] & E). cbn [fst snd] in E.
  destruct (pal_cred_import _ _ _) as [h|e] eqn:Ep; [|injection E as -> _; by apply import_fails in Ep].
  apply bind_ok in E as ([] & s4 & E4 & E). apply bind_ok in E as ([] & s5 & [= <-] & [= <-]).
  assert (C4 : clean_cs (fst s4)).
  { case_bool_decide; [|by injection E4 as <-]. injection E4 as <-. destruct C2 as [Hc Hh]. split; [|exact Hh].
    intros e v He. cbn [fst]. unfold set_entry. rewrite decide_False by done. by apply Hc. }
  split; [|left; done]. destruct C4 as [Hc Hh]. split; [|exact Hh]. intros e v He. cbn [fst]. unfold set_entry. destruct (decide _); [discriminate|by apply Hc].
Qed.

Lemma validate_run s s' : io_cs_validate s = Ok (er_ok, s') -> clean_cs (fst s) ->
  clean_cs (fst s') /\ fst s' io_cs_entry_shared_access_key = fst s io_cs_entry_shared_access_key /\
  (exists h, fst s' io_cs_entry_host_name = Some h) /\
  forall cs n, (forall e, cs e = fst s' e) -> io_cs_validate (cs, n) = Ok (er_ok, (cs, n)).
Proof.
  intros E Hs. unfold io_cs_validate in E. apply bind_ok in E as (h & s1 & E1 & E).
  destruct (clean_host_only _ _ _ _ host_only_host E1 Hs) as [C1 K1]. destruct h as [h|]; [|done].
  pose proof (host_name_cached _ _ _ E1) as Hh.
  case_bool_decide as B1; [done|]. case_bool_decide as B2; [injection E as E _; by rewrite E in B2|].
  apply bind_ok in E as (cs & s2 & [= <- <-] & E).
  assert (s' = s1) as ->. { repeat case_match; by injection E. }
  split_and!; [done..|by exists h|]. intros cs n Hcs. unfold io_cs_validate, io_cs_get_host_name, get, mret, M_ret, mbind, M_bind. cbn [fst snd res_bind].
  cbn. rewrite (Hcs io_cs_entry_host_name), Hh. cbn. rewrite (bool_decide_eq_false_2 (h = [])) by done.
  rewrite bool_decide_eq_false_2 by (intros Hn; by apply Hn). cbn. rewrite !Hcs. unfold mret, M_ret in E.
  repeat case_match; try done; injection E; congruence.
Qed.

Lemma create_steps_clean s m s' : create_steps s (empty_cs, m) = Ok (er_ok, s') ->
  clean_cs (fst s') /\ (fst s' io_cs_entry_shared_access_key = None \/ cred_caps = false) /\
  (exists h, fst s' io_cs_entry_host_name = Some h) /\
  forall cs n, (forall e, cs e = fst s' e) -> io_cs_validate (cs, n) = Ok (er_ok, (cs, n)).
Proof.
  unfold create_steps. intros E. apply bind_ok in E as (r & s1 & E1 & E). case_bool_decide as B1; [by injection E|].
  assert (C1 : clean_cs (fst s1)). { eapply parse_clean; [|exact E1]. done. }
  apply bind_ok in E as (r2 & s2 & E2 & E). case_bool_decide as B2; [by injection E|]. subst r2.
  destruct (import_clean _ _ E2 C1) as [C2 K2]. destruct (validate_run _ _ E C2) as (C3 & K3 & Hh & Hv).
  rewrite K3. auto.
Qed.

(** ** Printing and creating *)

Lemma pairs_ok cs l : Forall named l -> (forall e v, cs e = Some v -> clean v) -> Forall (pair_ok ch_semi) (pairs cs l).
Proof.
  intros Hl Hc. unfold pairs. induction Hl as [|[e name] l (_ & Hk & _) Hl IH]; [constructor|]. cbn.
  destruct (cs e) as [v|] eqn:Ev; [|exact IH]. constructor; [|exact IH]. split; [exact Hk|]. by apply (Hc e v).
Qed.

Lemma print_parse cs n h : (forall e v, cs e = Some v -> clean v) -> cs io_cs_entry_hub_name = None ->
  cs io_cs_entry_host_name = Some h -> exists text n',
  io_cs_to_STRING (cs, n) = Ok (Some text, (cs, n')) /\
  forall m, exists cs1 m1, string_key_value_parser io_cs_parser_callback ch_semi (Some text) (empty_cs, m) = Ok (er_ok, (cs1, m1)) /\
    forall e, cs1 e = cs e.
Proof.
  intros Hc Hhub Hh. destruct (append_all_run printed printed_named [] cs (S n)) as (n' & E).
  assert (Hne : pairs cs printed <> []). { unfold pairs. cbn. by rewrite Hh. }
  exists (print_pairs ch_semi (pairs cs printed)), n'. split; [|intros m].
  { unfold io_cs_to_STRING, io_cs_append_to_STRING, STRING_construct, alloc, mret, M_ret, mbind, M_bind. cbn -[append_all].
    rewrite mem_ok, E. cbn -[pairs printed join]. by rewrite (join_nil (pairs cs printed)) by done. }
  destruct (cs_visit_run printed printed_named printed_nodup cs empty_cs m) as (cs1 & m1 & Ev & Hcs); [|done|].
  { intros e v Ev. by apply (Hc e v). }
  exists cs1, m1. split; [rewrite <- Ev; apply key_value_pairs; [done|apply pairs_ok; [apply printed_named|done]]|]. intros e. rewrite Hcs. case_decide as He; [done|]. destruct (decide (e = io_cs_entry_hub_name)) as [->|Hn].
  - by rewrite Hhub.
  - by apply printed_all in Hn.
Qed.

Lemma import_none cs n : cs io_cs_entry_shared_access_key = None \/ cred_caps = false -> io_cs_import_key (cs, n) = Ok (er_ok, (cs, n)).
Proof.
  intros Hk. unfold io_cs_import_key, get, mret, M_ret, mbind, M_bind. cbn.
  destruct (cs io_cs_entry_shared_access_key); [|done]. by destruct Hk as [?| ->].
Qed.

(** C28: A connection string that was accepted can be written and read back.  When
    [io_cs_create_from_string] makes the structure [cs] of a text, then [io_cs_to_STRING]
    prints [cs], unchanged, as a text of which [io_cs_create_from_string] makes a structure
    with the same entries: the keys that are found are those that were written, no value is
    cut or joined to another, and the new structure passes the validation and needs no
    import of its key.  There is memory throughout, and the handle under which the platform
    keeps the key has no semicolon and no 0. *)
Theorem cs_roundtrip s m cs n : io_cs_create_from_string (Some s) m = Ok (cs, n) ->
  (forall v, cs io_cs_entry_shared_access_key_handle = Some v -> clean v) ->
  exists text n', io_cs_to_STRING (cs, n) = Ok (Some text, (cs, n')) /\
  forall m, exists cs' m', io_cs_create_from_string (Some text) m = Ok (cs', m') /\ forall e, cs' e = cs e.
Proof.
  intros E Hhandle. unfold io_cs_create_from_string in E. rewrite mem_ok in E. cbn -[create_steps] in E.
  destruct (create_steps s (empty_cs, S m)) as [[r [cs0 n0]]| |] eqn:Es; [|done..]. cbn -[create_steps] in E.
  case_bool_decide; [|done]. injection E as -> ->. subst r.
  destruct (create_steps_clean _ _ _ Es) as ([Hc Hhub] & Hkey & (h & Hh) & Hv). cbn [fst] in *.
  destruct (print_parse cs n h) as (text & n' & Ep & Hparse); [|done|done|].
  { intros e v Ev. destruct (decide (e = io_cs_entry_shared_access_key_handle)) as [->|He]; [by apply Hhandle|by apply (Hc e v)]. }
  exists text, n'. split; [exact Ep|]. intros m'. destruct (Hparse (S m')) as (cs1 & m1 & E1 & Hcs).
  exists cs1, m1. split; [|done]. unfold io_cs_create_from_string. rewrite mem_ok. cbn [negb].
  assert (create_steps text (empty_cs, S m') = Ok (er_ok, (cs1, m1))) as ->; [|done]. unfold create_steps. erewrite bind_eq by exact E1.
  rewrite bool_decide_eq_false_2 by (intros Hn; by apply Hn). erewrite bind_eq by (apply import_none; by rewrite Hcs).
  rewrite bool_decide_eq_false_2 by (intros Hn; by apply Hn). by apply Hv.
Qed.
End Cs.

(** A key that is imported under a handle of its own, and a host name taken from the
    endpoint. *)
Definition text1 : bytes := str "DeviceId=dev;Endpoint=amqp://hub1.azure.net/x;sharedaccesskey=QUJD".
Definition import1 (name key : bytes) (persist : bool) : bytes + prx_error := inl (str "h/7").
Lemma cs_roundtrip_witness : exists cs n text n',
  io_cs_create_from_string (fun _ => true) true false import1 Some (fun _ => true) (Some text1) 0 = Ok (cs, n) /\
  io_cs_to_STRING (fun _ => true) (cs, n) = Ok (Some text, (cs, n')) /\
  forall m, exists cs' m',
    io_cs_create_from_string (fun _ => true) true false import1 Some (fun _ => true) (Some text) m = Ok (cs', m') /\
    forall e, cs' e = cs e.
Proof.
  destruct (io_cs_create_from_string (fun _ => true) true false import1 Some (fun _ => true) (Some text1) 0) as [[cs n]| |] eqn:E.
  2, 3: vm_compute in E; discriminate E.
  destruct (cs_roundtrip (fun _ => true) true false import1 Some (fun _ => true) (fun _ => eq_refl) ltac:(intros; discriminate)
              text1 0 cs n E) as (text & n' & H1 & H2).
  { vm_compute in E. injection E as <- _. intros v [= <-]. split; apply (bool_decide_unpack _); vm_compute; exact I. }
  exists cs, n, text, n'. split_and!; [reflexivity|exact H1|exact H2].
Defined.
End IoCs.
