(* ===== verification/IoMem.v ===== *)
(** * Memory of a message

    Variable sized content that a decoder produces is stored behind pointers.
    A pointer is NULL, a block of its own ([mem_alloc], [crt_alloc] or the
    caller's array), or a place in the one buffer that belongs to the message
    (src/io_proto.c, [io_message_allocate_buffer]).  That buffer is resized with
    [realloc], which may move it: [p_msg g off] is only valid while the buffer is
    still in its [g]-th place. *)
From stdpp Require Import base option list numbers.
From S2P Require Import Prelude PrxTypes.
Import PrxTypes.

Module IoMem.

Inductive ptr :=
| p_null
| p_block (b : bytes)
| p_msg (gen off : Z).

(** [m_buffer]: [message->buffer], the place it is in and its contents;
    [m_alloc n]: whether an allocation of [n] bytes succeeds; [m_moves n]:
    whether growing a buffer to [n] bytes moves it. *)
Record mem := mk_mem {
  m_gen : Z;
  m_buffer : option bytes;
  m_alloc : Z -> bool;
  m_moves : Z -> bool;
}.

Definition set_buffer (mu : mem) (gen : Z) (b : bytes) : mem :=
  {| m_gen := gen; m_buffer := Some b; m_alloc := m_alloc mu; m_moves := m_moves mu |}.

(** [memcpy] of [bs] to [p + at_]. *)
Definition store (mu : mem) (p : ptr) (at_ : Z) (bs : bytes) : res (ptr * mem) :=
  match bs with
  | [] => Ok (p, mu)
  | _ =>
    match p with
    | p_null => UB
    | p_block b => b ← chk (mem_write b at_ bs); Ok (p_block b, mu)
    | p_msg g off =>
        match m_buffer mu with
        | Some b => if bool_decide (g = m_gen mu)
                    then b ← chk (mem_write b (off + at_) bs); Ok (p, set_buffer mu g b)
                    else UB
        | None => UB
        end
    end
  end.

(** The bytes from [p] to the end of the object it points into. *)
Definition object_at (mu : mem) (p : ptr) : option bytes :=
  match p with
  | p_null => None
  | p_block b => Some b
  | p_msg g off =>
      b ← m_buffer mu;
      if bool_decide (g = m_gen mu /\ 0 <= off <= zlen b)
      then Some (drop (Z.to_nat off) b) else None
  end.

(** [n] bytes read from [p]. *)
Definition load (mu : mem) (p : ptr) (n : Z) : option bytes :=
  if bool_decide (n = 0) then Some []
  else b ← object_at mu p; mem_read b 0 n.

(** The string at [p]: there must be a terminating 0. *)
Definition load_str (mu : mem) (p : ptr) : option bytes :=
  b ← object_at mu p;
  if bool_decide (zlen (cstr b) < zlen b) then Some (cstr b) else None.

(** [io_decode_allocator_t]: the memory, its size and the new state. *)
Definition allocator := Z -> mem -> res (ptr * Z * mem).

(** ** Lemmas *)

Lemma mem_write_app m off a b m' :
  mem_write m off (a ++ b) = Some m' ->
  exists m1, mem_write m off a = Some m1 /\ mem_write m1 (off + zlen a) b = Some m'.
Proof.
  unfold mem_write. case_bool_decide as H; [|done]. intros [= <-].
  rewrite length_app in H. rewrite bool_decide_eq_true_2 by lia. eexists; split; [done|].
  unfold zlen. rewrite bool_decide_eq_true_2.
  2: { rewrite !length_app, length_take, length_drop. lia. }
  f_equal. rewrite length_app.
  assert (Hl : length (take (Z.to_nat off) m ++ a) = Z.to_nat (off + Z.of_nat (length a)))
    by (rewrite length_app, length_take; lia).
  rewrite (app_assoc (take _ m) a (drop _ m)).
  rewrite take_app_length' by done.
  rewrite drop_app_ge by lia. rewrite drop_drop, <- (app_assoc (take _ m) a), <- (app_assoc a b).
  do 4 f_equal. lia.
Qed.

Lemma store_cons mu p k bs : bs <> [] ->
  store mu p k bs =
    match p with
    | p_null => UB
    | p_block b => b ← chk (mem_write b k bs); Ok (p_block b, mu)
    | p_msg g off =>
        match m_buffer mu with
        | Some b => if bool_decide (g = m_gen mu)
                    then b ← chk (mem_write b (off + k) bs); Ok (p, set_buffer mu g b)
                    else UB
        | None => UB
        end
    end.
Proof. by destruct bs. Qed.

(** A copy can be split into two that follow each other. *)
Lemma store_app mu p a b p' mu' :
  store mu p 0 (a ++ b) = Ok (p', mu') ->
  exists p1 mu1, store mu p 0 a = Ok (p1, mu1) /\ store mu1 p1 (zlen a) b = Ok (p', mu').
Proof.
  destruct (decide (a = [])) as [->|Ha]; [intros; exists p, mu; done|].
  destruct (decide (b = [])) as [->|Hb]; [rewrite app_nil_r; intros; exists p', mu'; done|].
  assert (a ++ b <> []) by (destruct a; done).
  rewrite !store_cons by done. destruct p as [|m|g off]; [done| |].
  - destruct (mem_write m 0 (a ++ b)) as [m'|] eqn:E; cbn; [|done]. intros [= <- <-].
    apply mem_write_app in E as (m1 & -> & E2). cbn. do 2 eexists; split; [done|].
    rewrite store_cons by done. rewrite Z.add_0_l in E2. rewrite E2. done.
  - destruct (m_buffer mu) as [m|]; [|done]. case_bool_decide as Hg; [|done].
    destruct (mem_write m (off + 0) (a ++ b)) as [m'|] eqn:E; cbn; [|done]. intros [= <- <-].
    apply mem_write_app in E as (m1 & -> & E2). cbn. do 2 eexists; split; [done|].
    rewrite store_cons by done. cbn. rewrite bool_decide_eq_true_2 by done.
    rewrite <- Z.add_assoc, Z.add_0_l in E2. rewrite E2. done.
Qed.

Lemma store_nil mu p k : store mu p k [] = Ok (p, mu).
Proof. done. Qed.
End IoMem.
