(* ===== verification/IoCodec.v ===== *)
(** * Document codec interface (inc/io_codec.h)

    [io_codec] is the structure of function pointers a codec implements; its
    operations are computations of the state and error monad [M], over the
    document (a stream of bytes for MessagePack), the memory of the message being
    decoded, and the current [io_codec_ctx].  The context of a nested object or
    array lives on the stack of its user: [under obj m] runs [m] on it.

    What the codecs promise to the types and messages that are encoded with
    them is stated in IoCodecSpec. *)
From stdpp Require Import base option list numbers strings.
From S2P Require Import Prelude PrxTypes IoMem.
Import PrxTypes IoMem.

Module IoCodec.

(** [const char* name], NULL for the elements of an array. *)
Abbreviation name := (option string).

Section Monad.
(** [S]: what is shared by all contexts of a document; [R]: which node of the
    document a context stands for. *)
Context {S R : Type}.

Record io_codec_ctx := mk_ctx {
  ctx_node : R;
  ctx_index : Z;
  ctx_default_allocator : option allocator;
}.

Record world := mk_world { w_doc : S; w_mem : mem }.

Definition M (A : Type) : Type := world -> io_codec_ctx -> res (A * world * io_codec_ctx).

#[global] Instance M_ret : MRet M := fun A a w c => Ok (a, w, c).
#[global] Instance M_bind : MBind M := fun A B k m w c =>
  match m w c with Ok (a, w, c) => k a w c | Err e => Err e | UB => UB end.

Definition fail {A} (e : prx_error) : M A := fun _ _ => Err e.

(** A function that does not use the document. *)
Definition lift {A} (r : res A) : M A := fun w c =>
  match r with Ok a => Ok (a, w, c) | Err e => Err e | UB => UB end.

(** Run [m] on the context [obj]; the current context is kept. *)
Definition under {A} (obj : io_codec_ctx) (m : M A) : M A := fun w c =>
  match m w obj with Ok (a, w, _) => Ok (a, w, c) | Err e => Err e | UB => UB end.

Definition get_ctx : M io_codec_ctx := fun w c => Ok (c, w, c).
Definition set_default_allocator (a : allocator) : M unit := fun w c =>
  Ok (tt, w, {| ctx_node := ctx_node c; ctx_index := ctx_index c;
                ctx_default_allocator := Some a |}).

(** Reads through pointers: undefined when the pointer is not valid. *)
Definition loads (p : ptr) (n : Z) : M bytes := fun w c =>
  b ← chk (load (w_mem w) p n); Ok (b, w, c).
Definition loads_str (p : ptr) : M bytes := fun w c =>
  b ← chk (load_str (w_mem w) p); Ok (b, w, c).
End Monad.
Arguments io_codec_ctx : clear implicits.
Arguments world : clear implicits.
Arguments M : clear implicits.

Inductive io_codec_id := io_codec_unknown | io_codec_mpack | io_codec_json.

#[export] Instance io_codec_id_eq_dec : EqDecision io_codec_id.
Proof. solve_decision. Defined.

Record io_codec (S R : Type) := mk_io_codec {
  codec_id : io_codec_id;

  enc_int : name -> Z -> M S R unit;
  enc_uint : name -> Z -> M S R unit;
  enc_decimal : name -> Z -> M S R unit;     (* a double, as its 64 bits *)
  enc_bool : name -> bool -> M S R unit;
  enc_string : name -> bytes -> M S R unit;  (* the characters before the 0 *)
  enc_bin : name -> bytes -> M S R unit;
  enc_object : name -> bool -> M S R (io_codec_ctx R);
  enc_tbegin : Z -> M S R unit;
  enc_tend : M S R unit;
  enc_array : name -> Z -> M S R (io_codec_ctx R);

  dec_int : name -> M S R Z;
  dec_uint : name -> M S R Z;
  dec_double : name -> M S R Z;
  dec_bool : name -> M S R bool;
  dec_string : name -> allocator -> M S R (ptr * Z);
  dec_bin : name -> allocator -> M S R (ptr * Z);
  dec_object : name -> bool -> M S R (bool * io_codec_ctx R);  (* is [is_null] not NULL *)
  dec_tbegin : M S R unit;
  dec_tend : M S R unit;
  dec_array : name -> M S R (Z * io_codec_ctx R);
}.
Arguments codec_id {S R}. Arguments enc_int {S R}. Arguments enc_uint {S R}.
Arguments enc_decimal {S R}. Arguments enc_bool {S R}. Arguments enc_string {S R}.
Arguments enc_bin {S R}. Arguments enc_object {S R}. Arguments enc_tbegin {S R}.
Arguments enc_tend {S R}. Arguments enc_array {S R}. Arguments dec_int {S R}.
Arguments dec_uint {S R}. Arguments dec_double {S R}. Arguments dec_bool {S R}.
Arguments dec_string {S R}. Arguments dec_bin {S R}. Arguments dec_object {S R}.
Arguments dec_tbegin {S R}. Arguments dec_tend {S R}. Arguments dec_array {S R}.

(** ** Typed access on top of the codec (io_codec.h, io_codec.c) *)
Section Typed.
Context {S R : Type} (K : io_codec S R).
Implicit Type n : name.

Definition io_encode_int64 n (v : Z) : M S R unit := enc_int K n v.
Definition io_encode_uint64 n (v : Z) : M S R unit := enc_uint K n v.

(** [#define io_encode_int32 io_encode_int64] and the like, after the cast of
    [__io_encode_value] to the named type. *)
Definition io_encode_int32 n (v : Z) : M S R unit := io_encode_int64 n (i32 v).
Definition io_encode_uint32 n (v : Z) : M S R unit := io_encode_uint64 n (u32 v).
Definition io_encode_uint16 n (v : Z) : M S R unit := io_encode_uint64 n (u16 v).
Definition io_encode_uint8 n (v : Z) : M S R unit := io_encode_uint64 n (u8 v).

(** [*val = (type)wide; return *val == wide ? er_ok : er_invalid_format] *)
Definition narrowed (cast : Z -> Z) (wide : Z) : M S R Z :=
  if bool_decide (cast wide = wide) then mret (cast wide) else fail er_invalid_format.

Definition io_decode_int64 n : M S R Z := dec_int K n.
Definition io_decode_uint64 n : M S R Z := dec_uint K n.
Definition io_decode_uint32 n : M S R Z := v ← io_decode_uint64 n; narrowed u32 v.
Definition io_decode_uint16 n : M S R Z := v ← io_decode_uint64 n; narrowed u16 v.
Definition io_decode_uint8 n : M S R Z := v ← io_decode_uint64 n; narrowed u8 v.
Definition io_decode_int32 n : M S R Z := v ← io_decode_int64 n; narrowed i32 v.
Definition io_decode_int16 n : M S R Z := v ← io_decode_int64 n; narrowed i16 v.
Definition io_decode_int8 n : M S R Z := v ← io_decode_int64 n; narrowed i8 v.

(** [mem_allocator]: a block of its own.  The contents are indeterminate
    until they are stored, 0 here. *)
Definition mem_allocator : allocator := fun size mu =>
  if bool_decide (0 < size) then
    if m_alloc mu size then Ok (p_block (zeros size), size, mu) else Err er_out_of_memory
  else Ok (p_null, size, mu).
Definition crt_allocator : allocator := fun size mu =>
  if bool_decide (0 < size) then
    if m_alloc mu size then Ok (p_block (zeros size), size, mu) else Err er_out_of_memory
  else Ok (p_null, size, mu).

(** [fixed_validator] over the caller's array [val], whose size is the initial
    [*mem_size]. *)
Definition fixed_validator (val : bytes) : allocator := fun size mu =>
  if bool_decide (size <= zlen val) then Ok (p_block val, size, mu)
  else Err er_out_of_memory.

Definition io_decode_bin_malloc n : M S R (ptr * Z) := dec_bin K n mem_allocator.

Definition io_decode_bin_default n : M S R (ptr * Z) :=
  c ← get_ctx;
  match ctx_default_allocator c with
  | None => io_decode_bin_malloc n
  | Some a => dec_bin K n a
  end.

(** The array after the call, and the size stored through [len]. *)
Definition io_decode_bin_fixed n (val : bytes) : M S R (bytes * Z) :=
  '(p, size) ← dec_bin K n (fixed_validator val);
  mret (match p with p_block b => b | _ => val end, size).

Definition io_decode_string_malloc n : M S R ptr :=
  '(p, _) ← dec_string K n crt_allocator; mret p.

(** [STRING_new_with_memory] takes the memory over; its handle is one more allocation. *)
Definition sizeof_STRING : Z := 8.
Definition io_decode_STRING_HANDLE n : M S R bytes :=
  p ← io_decode_string_malloc n;
  (fun w c => if m_alloc (w_mem w) sizeof_STRING then loads_str p w c else Err er_out_of_memory) : M S R bytes.

Definition io_decode_string_default n : M S R ptr :=
  c ← get_ctx;
  match ctx_default_allocator c with
  | None => io_decode_string_malloc n
  | Some a => '(p, _) ← dec_string K n a; mret p
  end.

Definition io_decode_string_fixed n (val : bytes) : M S R bytes :=
  '(p, _) ← dec_string K n (fixed_validator val);
  mret (match p with p_block b => b | _ => val end).

(** [is_null]: whether the caller passes a pointer for the flag; otherwise a variable of this
    function is stored to. *)
Definition io_decode_object n (is_null : bool) : M S R (bool * io_codec_ctx R) :=
  dec_object K n (if is_null then is_null else true).

(** The macros [__io_encode_object] and [__io_decode_object]: a member that
    is a structure; a null object leaves the member as it is. *)
Definition io_encode_object_m n (body : M S R unit) : M S R unit :=
  obj ← enc_object K n false; under obj body.
Definition io_decode_object_m {A} n (old : A) (body : A -> M S R A) : M S R A :=
  '(is_null, obj) ← io_decode_object n true;
  if (is_null : bool) then mret old else under obj (body old).
End Typed.

End IoCodec.
