(* ===== verification/IoCodecSpec.v ===== *)
(** * What a codec promises

    A document is a [value]; the members of a structure and the elements of an
    array are lists of [field]s.  [emits mu m fs]: the encoder [m] writes
    exactly the fields [fs]; [parses d mu m fs a mu']: given a document that goes
    on with the fields [fs], the decoder [m] consumes them, returns [a] and turns
    the memory [mu] into [mu'].  Both compose over the sequencing of the monad, so
    that a round trip is proved member by member, for every codec that satisfies
    [enc_laws] and [dec_laws]. *)
From stdpp Require Import base option list numbers strings.
From S2P Require Import Prelude PrxTypes IoMem IoCodec.
Import PrxTypes IoMem IoCodec.

Module IoCodecSpec.

Create HintDb codec discriminated.

Inductive value :=
| VInt (z : Z)
| VUint (z : Z)
| VBool (b : bool)
| VStr (s : bytes)
| VBin (b : bytes)
| VNull
| VObj (members : list (name * value))
| VArr (elements : list value).

Abbreviation field := (name * value)%type.

Definition elems (vs : list value) : list field := map (pair None) vs.

(** Ask the allocator for room for [bs] and copy it there. *)
Definition fill (a : allocator) (bs : bytes) (mu : mem) : res (ptr * Z * mem) :=
  '(p, size, mu) ← a (zlen bs) mu;
  if bool_decide (size = zlen bs)
  then '(p, mu) ← store mu p 0 bs; Ok (p, size, mu)
  else Err er_out_of_memory.

(** The binary values: an empty one is a NULL pointer. *)
Definition fill_bin (a : allocator) (bs : bytes) (mu : mem) : res (ptr * Z * mem) :=
  if bool_decide (zlen bs = 0) then Ok (p_null, 0, mu) else fill a bs mu.

Section Spec.
Context {S R : Type}.
Abbreviation ctx := (io_codec_ctx R).

(** How the documents of a codec relate to values:
    - [can_emit s c fs]: the fields [fs] can be written next at [c];
    - [stepped s r fs s']: between [s] and [s'] the fields [fs] were written at
      the node [r];
    - [can_open s c fs], [wrote_obj s r fs s']: the same for a whole structure
      with the members [fs], from before its [enc_tbegin];
    - [sees s c fs k]: what is left to read at [c] is [fs], and [k] stands for
      what follows. *)
Class enc_view := {
  can_emit : S -> ctx -> list field -> Prop;
  stepped : S -> R -> list field -> S -> Prop;
  can_open : S -> ctx -> list field -> Prop;
  wrote_obj : S -> R -> list field -> S -> Prop;
}.
Class dec_view := {
  rest : Type;
  sees : S -> ctx -> list field -> rest -> Prop;
}.

Definition same_alloc (c c' : ctx) : Prop :=
  ctx_default_allocator c' = ctx_default_allocator c.

Context `{EV : enc_view} `{DV : dec_view}.

Definition emits (mu : mem) (m : M S R unit) (fs : list field) : Prop :=
  forall s c fs', can_emit s c (fs ++ fs') ->
  exists s' c', m {| w_doc := s; w_mem := mu |} c = Ok (tt, {| w_doc := s'; w_mem := mu |}, c') /\
    stepped s (ctx_node c) fs s' /\ ctx_node c' = ctx_node c /\ can_emit s' c' fs'.

Definition emits_obj (mu : mem) (m : M S R unit) (fs : list field) : Prop :=
  forall s c, can_open s c fs ->
  exists s' c', m {| w_doc := s; w_mem := mu |} c = Ok (tt, {| w_doc := s'; w_mem := mu |}, c') /\
    wrote_obj s (ctx_node c) fs s'.

Definition parses {A} (d : option allocator) (mu : mem) (m : M S R A)
    (fs : list field) (a : A) (mu' : mem) : Prop :=
  forall s c fs' k, sees s c (fs ++ fs') k -> ctx_default_allocator c = d ->
  exists s' c', m {| w_doc := s; w_mem := mu |} c = Ok (a, {| w_doc := s'; w_mem := mu' |}, c') /\
    sees s' c' fs' k /\ ctx_default_allocator c' = d.

(** The same for a decoder that ends its context: the allocator may change. *)
Definition parses_all {A} (d : option allocator) (mu : mem) (m : M S R A)
    (fs : list field) (a : A) (mu' : mem) : Prop :=
  forall s c fs' k, sees s c (fs ++ fs') k -> ctx_default_allocator c = d ->
  exists s' c', m {| w_doc := s; w_mem := mu |} c = Ok (a, {| w_doc := s'; w_mem := mu' |}, c') /\
    sees s' c' fs' k.
End Spec.
Arguments enc_view : clear implicits.
Arguments dec_view : clear implicits.

(** ** The laws *)
Class enc_laws {S R} (K : io_codec S R) (V : enc_view S R) := {
  stepped_nil s c fs : can_emit s c fs -> stepped s (ctx_node c) [] s;
  stepped_app s r fs s' fs' s'' :
    stepped s r fs s' -> stepped s' r fs' s'' -> stepped s r (fs ++ fs') s'';

  emits_int mu n z : emits mu (enc_int K n z) [(n, VInt z)];
  emits_uint mu n z : emits mu (enc_uint K n z) [(n, VUint z)];
  emits_bool mu n b : emits mu (enc_bool K n b) [(n, VBool b)];
  emits_string mu n s : emits mu (enc_string K n s) [(n, VStr s)];
  emits_bin mu n b : emits mu (enc_bin K n b) [(n, VBin b)];
  emits_tend mu : emits mu (enc_tend K) [];
  emits_tbegin mu n (m : M S R unit) fs :
    emits mu m fs -> zlen fs = n -> emits_obj mu (enc_tbegin K n;; m) fs;
  enc_object_law mu n s c ms fs : can_emit s c ((n, VObj ms) :: fs) ->
    exists s' c' obj,
      enc_object K n false {| w_doc := s; w_mem := mu |} c
        = Ok (obj, {| w_doc := s'; w_mem := mu |}, c') /\
      ctx_node c' = ctx_node c /\ can_open s' obj ms /\
      forall s'', wrote_obj s' (ctx_node obj) ms s'' ->
        stepped s (ctx_node c) [(n, VObj ms)] s'' /\ can_emit s'' c' fs;
  enc_null_law mu n s c fs : can_emit s c ((n, VNull) :: fs) ->
    exists s' c' obj,
      enc_object K n true {| w_doc := s; w_mem := mu |} c
        = Ok (obj, {| w_doc := s'; w_mem := mu |}, c') /\
      ctx_node c' = ctx_node c /\ stepped s (ctx_node c) [(n, VNull)] s' /\ can_emit s' c' fs;
  enc_array_law mu n s c vs fs : can_emit s c ((n, VArr vs) :: fs) ->
    exists s' c' arr,
      enc_array K n (zlen vs) {| w_doc := s; w_mem := mu |} c
        = Ok (arr, {| w_doc := s'; w_mem := mu |}, c') /\
      ctx_node c' = ctx_node c /\ can_emit s' arr (elems vs) /\
      forall s'', stepped s' (ctx_node arr) (elems vs) s'' ->
        stepped s (ctx_node c) [(n, VArr vs)] s'' /\ can_emit s'' c' fs;
}.

Class dec_laws {S R} (K : io_codec S R) (V : dec_view S R) := {
  parses_int d mu n z : parses d mu (dec_int K n) [(n, VInt z)] z mu;
  parses_uint d mu n z : parses d mu (dec_uint K n) [(n, VUint z)] z mu;
  parses_bool d mu n b : parses d mu (dec_bool K n) [(n, VBool b)] b mu;
  parses_string d mu n a s p size mu' : fill a (s ++ [0]) mu = Ok (p, size, mu') ->
    parses d mu (dec_string K n a) [(n, VStr s)] (p, size) mu';
  parses_bin d mu n a b p size mu' : fill_bin a b mu = Ok (p, size, mu') ->
    parses d mu (dec_bin K n a) [(n, VBin b)] (p, size) mu';
  parses_tbegin d mu : parses d mu (dec_tbegin K) [] tt mu;
  parses_tend d mu : parses d mu (dec_tend K) [] tt mu;
  parses_enc_tend d mu : parses d mu (enc_tend K) [] tt mu;
  dec_object_law mu n s c ms fs k : sees s c ((n, VObj ms) :: fs) k ->
    exists s' c' obj k',
      dec_object K n true {| w_doc := s; w_mem := mu |} c
        = Ok ((false, obj), {| w_doc := s'; w_mem := mu |}, c') /\
      same_alloc c c' /\ same_alloc c obj /\ sees s' obj ms k' /\
      forall s'' obj'', sees s'' obj'' [] k' -> sees s'' c' fs k;
  dec_null_law mu n s c fs k : sees s c ((n, VNull) :: fs) k ->
    exists s' c' obj,
      dec_object K n true {| w_doc := s; w_mem := mu |} c
        = Ok ((true, obj), {| w_doc := s'; w_mem := mu |}, c') /\
      same_alloc c c' /\ sees s' c' fs k;
  dec_array_law mu n s c vs fs k : sees s c ((n, VArr vs) :: fs) k ->
    exists s' c' arr k',
      dec_array K n {| w_doc := s; w_mem := mu |} c
        = Ok ((zlen vs, arr), {| w_doc := s'; w_mem := mu |}, c') /\
      same_alloc c c' /\ same_alloc c arr /\ sees s' arr (elems vs) k' /\
      forall s'' arr'', sees s'' arr'' [] k' -> sees s'' c' fs k;

  (** Only the list of what is left matters, not the allocator of the context. *)
  sees_alloc s c fs k a : sees s c fs k ->
    sees s {| ctx_node := ctx_node c; ctx_index := ctx_index c; ctx_default_allocator := a |} fs k;
}.

(** ** Composition *)
Section ComposeEnc.
Context {S R : Type} {K : io_codec S R} {EV : enc_view S R} {EL : enc_laws K EV}.

Lemma emits_ret mu : emits mu (mret tt) [].
Proof. intros s c fs' H. exists s, c. split; [done|]. split; [by eapply (stepped_nil (K:=K))|done]. Qed.

Lemma emits_seq mu (m k : M S R unit) fs fs' :
  emits mu m fs -> emits mu k fs' -> emits mu (m;; k) (fs ++ fs').
Proof.
  intros Hm Hk s c fs'' H. rewrite <- app_assoc in H.
  destruct (Hm _ _ _ H) as (s1 & c1 & E1 & H1 & Hc1 & H1').
  destruct (Hk _ _ _ H1') as (s2 & c2 & E2 & H2 & Hc2 & H2').
  exists s2, c2. unfold mbind, M_bind. rewrite E1, E2. rewrite Hc1 in H2, Hc2.
  split_and!; [done| |done|done]. eapply (stepped_app (K:=K)); done.
Qed.

(** One member followed by the others. *)
Lemma emits_cons mu (m k : M S R unit) f fs :
  emits mu m [f] -> emits mu k fs -> emits mu (m;; k) (f :: fs).
Proof. apply (emits_seq mu m k [f]). Qed.

(** The end of a structure, and steps that write nothing. *)
Lemma emits_end mu (m : M S R unit) fs : emits mu m fs -> emits mu (m;; enc_tend K) fs.
Proof. intros. rewrite <- (app_nil_r fs). apply emits_seq; [done|apply emits_tend]. Qed.

Lemma emits_object mu n (body : M S R unit) ms :
  emits_obj mu body ms -> emits mu (io_encode_object_m K n body) [(n, VObj ms)].
Proof.
  intros Hb s c fs' H. destruct (enc_object_law mu n s c ms fs' H) as (s1 & c1 & obj & E1 & Hn & Ho & Hc).
  destruct (Hb _ _ Ho) as (s2 & c2 & E2 & Hw). destruct (Hc _ Hw).
  exists s2, c1. unfold io_encode_object_m, mbind, M_bind, under. rewrite E1, E2. done.
Qed.

Lemma emits_null mu n : emits mu (enc_object K n true;; mret tt) [(n, VNull)].
Proof.
  intros s c fs' H. destruct (enc_null_law mu n s c fs' H) as (s1 & c1 & obj & E1 & Ho & Hc & He).
  exists s1, c1. unfold mbind, M_bind. rewrite E1. done.
Qed.

Lemma emits_array mu n k (body : M S R unit) vs :
  k = zlen vs -> emits mu body (elems vs) ->
  emits mu (arr ← enc_array K n k; under arr body) [(n, VArr vs)].
Proof.
  intros -> Hb s c fs' H.
  destruct (enc_array_law mu n s c vs fs' H) as (s1 & c1 & arr & E1 & Hn & Ho & Hc).
  rewrite <- (app_nil_r (elems vs)) in Ho.
  destruct (Hb _ _ _ Ho) as (s2 & c2 & E2 & Hw & _). destruct (Hc _ Hw).
  exists s2, c1. unfold mbind, M_bind, under. rewrite E1, E2. done.
Qed.

Lemma emits_int32 mu n z : in_i32 z -> emits mu (io_encode_int32 K n z) [(n, VInt z)].
Proof. intros. unfold io_encode_int32. rewrite i32_id by done. apply emits_int. Qed.
Lemma emits_uint64 mu n z : emits mu (io_encode_uint64 K n z) [(n, VUint z)].
Proof. apply emits_uint. Qed.
Lemma emits_uint32 mu n z : in_u32 z -> emits mu (io_encode_uint32 K n z) [(n, VUint z)].
Proof. intros. unfold io_encode_uint32. rewrite u32_id by done. apply emits_uint. Qed.
Lemma emits_uint16 mu n z : in_u16 z -> emits mu (io_encode_uint16 K n z) [(n, VUint z)].
Proof. intros. unfold io_encode_uint16. rewrite u16_id by done. apply emits_uint. Qed.
Lemma emits_uint8 mu n z : is_u8 z -> emits mu (io_encode_uint8 K n z) [(n, VUint z)].
Proof. intros. unfold io_encode_uint8. rewrite u8_id by done. apply emits_uint. Qed.

Lemma emits_loads mu p n bs (k : bytes -> M S R unit) fs :
  load mu p n = Some bs -> emits mu (k bs) fs -> emits mu (b ← loads p n; k b) fs.
Proof.
  intros Hl Hk s c fs' H. destruct (Hk _ _ _ H) as (s1 & c1 & E1 & ?).
  exists s1, c1. unfold mbind at 1, M_bind, loads. cbn [w_mem]. rewrite Hl. done.
Qed.

Lemma emits_loads_str mu p bs (k : bytes -> M S R unit) fs :
  load_str mu p = Some bs -> emits mu (k bs) fs -> emits mu (b ← loads_str p; k b) fs.
Proof.
  intros Hl Hk s c fs' H. destruct (Hk _ _ _ H) as (s1 & c1 & E1 & ?).
  exists s1, c1. unfold mbind at 1, M_bind, loads_str. cbn [w_mem]. rewrite Hl. done.
Qed.

End ComposeEnc.

Section ComposeDec.
Context {S R : Type} {K : io_codec S R} {DV : dec_view S R} {DL : dec_laws K DV}.

Lemma parses_ret {A} d mu (a : A) : parses d mu (mret a) [] a mu.
Proof. intros s c fs' k H Hd. exists s, c. done. Qed.

Lemma parses_bind {A B} d mu (m : M S R A) (k : A -> M S R B) fs fs' a b mu1 mu2 :
  parses d mu m fs a mu1 -> parses d mu1 (k a) fs' b mu2 ->
  parses d mu (m ≫= k) (fs ++ fs') b mu2.
Proof.
  intros Hm Hk s c fs'' r H Hd. rewrite <- app_assoc in H.
  destruct (Hm _ _ _ _ H Hd) as (s1 & c1 & E1 & H1 & Hd1).
  destruct (Hk _ _ _ _ H1 Hd1) as (s2 & c2 & E2 & H2 & Hd2).
  exists s2, c2. unfold mbind, M_bind. rewrite E1, E2. done.
Qed.

Lemma parses_cons {A B} d mu (m : M S R A) (k : A -> M S R B) f fs a b mu1 mu2 :
  parses d mu m [f] a mu1 -> parses d mu1 (k a) fs b mu2 ->
  parses d mu (m ≫= k) (f :: fs) b mu2.
Proof. apply (parses_bind d mu m k [f]). Qed.

Lemma parses_nil {A B} d mu (m : M S R A) (k : A -> M S R B) fs a b mu1 mu2 :
  parses d mu m [] a mu1 -> parses d mu1 (k a) fs b mu2 ->
  parses d mu (m ≫= k) fs b mu2.
Proof. apply (parses_bind d mu m k []). Qed.

Lemma parses_begin {B} d mu (k : M S R B) fs b mu2 :
  parses d mu k fs b mu2 -> parses d mu (dec_tbegin K;; k) fs b mu2.
Proof. intros. eapply parses_nil; [apply parses_tbegin|done]. Qed.
Lemma parses_end {B} d mu (b : B) : parses d mu (dec_tend K;; mret b) [] b mu.
Proof. eapply parses_nil; [apply parses_tend|apply parses_ret]. Qed.
Lemma parses_last {A B} d mu (m : M S R A) (f : A -> B) fs a mu1 :
  parses d mu m fs a mu1 -> parses d mu (v ← m; dec_tend K;; mret (f v)) fs (f a) mu1.
Proof. intros. rewrite <- (app_nil_r fs). eapply parses_bind; [done|apply parses_end]. Qed.

(** Entering a nested context. *)
Lemma object_law f mu n s c ms fs k : sees s c ((n, VObj ms) :: fs) k ->
  exists s' c' obj k',
    io_decode_object K n f {| w_doc := s; w_mem := mu |} c
      = Ok ((false, obj), {| w_doc := s'; w_mem := mu |}, c') /\
    same_alloc c c' /\ same_alloc c obj /\ sees s' obj ms k' /\
    forall s'' obj'', sees s'' obj'' [] k' -> sees s'' c' fs k.
Proof. destruct f; apply dec_object_law. Qed.
Lemma parses_object_cps {A} d mu n f ms (k : bool * io_codec_ctx R -> M S R A) (body : M S R A) a mu' :
  (forall obj, k (false, obj) = under obj body) ->
  parses d mu body ms a mu' -> parses d mu (io_decode_object K n f ≫= k) [(n, VObj ms)] a mu'.
Proof.
  intros Hk Hb s c fs' r H Hd.
  destruct (object_law f mu n s c ms fs' r H) as (s1 & c1 & obj & r1 & E1 & Ha1 & Ha2 & Ho & Hc).
  rewrite <- (app_nil_r ms) in Ho.
  destruct (Hb _ _ _ _ Ho) as (s2 & c2 & E2 & Hn & _); [by rewrite Ha2|].
  exists s2, c1. unfold mbind, M_bind. rewrite E1, Hk. unfold under. rewrite E2.
  split_and!; [done|eauto|by rewrite Ha1].
Qed.

(** The same with members after it. *)
Lemma parses_object_bind {A B} d mu n f ms fs (body : M S R A) (k : A -> M S R B) a b mu1 mu2 :
  parses d mu body ms a mu1 -> parses d mu1 (k a) fs b mu2 ->
  parses d mu ('(_, obj) ← io_decode_object K n f; x ← under obj body; k x) ((n, VObj ms) :: fs) b mu2.
Proof.
  intros Hb Hk. pose proof (parses_cons d mu _ k (n, VObj ms) fs a b mu1 mu2
    (parses_object_cps d mu n f ms (fun '(_, obj) => under obj body) body a mu1 (fun _ => eq_refl) Hb) Hk) as Hp.
  intros s c fs' r H Hd. destruct (Hp s c fs' r H Hd) as (s' & c' & E & Hs'). exists s', c'. split; [|done].
  rewrite <- E. unfold mbind, M_bind. by destruct (io_decode_object K n f _ _) as [[[[] ?] ?]| |].
Qed.

Lemma parses_null_cps {A} d mu n f (k : bool * io_codec_ctx R -> M S R A) (body : M S R A) a mu' :
  (forall obj, k (true, obj) = body) ->
  parses d mu body [] a mu' -> parses d mu (io_decode_object K n f ≫= k) [(n, VNull)] a mu'.
Proof.
  intros Hk Hb s c fs' r H Hd.
  destruct (dec_null_law mu n s c fs' r H) as (s1 & c1 & obj & E1 & Ha1 & Ho).
  assert (E : io_decode_object K n f = dec_object K n true) by by destruct f. rewrite E.
  destruct (Hb s1 c1 fs' r Ho) as (s2 & c2 & E2 & Hn & ?); [by rewrite Ha1|].
  exists s2, c2. unfold mbind, M_bind. rewrite E1, Hk, E2. done.
Qed.

Lemma parses_object {A} d mu n ms (old : A) (body : A -> M S R A) a mu' :
  parses d mu (body old) ms a mu' ->
  parses d mu (io_decode_object_m K n old body) [(n, VObj ms)] a mu'.
Proof. intros. apply parses_object_cps with (body := body old); done. Qed.

Lemma parses_array_cps {A} d mu n vs (k : Z * io_codec_ctx R -> M S R A) (body : M S R A) a mu' :
  (forall arr, k (zlen vs, arr) = under arr body) ->
  parses d mu body (elems vs) a mu' -> parses d mu (dec_array K n ≫= k) [(n, VArr vs)] a mu'.
Proof.
  intros Hk Hb s c fs' r H Hd.
  destruct (dec_array_law mu n s c vs fs' r H) as (s1 & c1 & arr & r1 & E1 & Ha1 & Ha2 & Ho & Hc).
  rewrite <- (app_nil_r (elems vs)) in Ho.
  destruct (Hb _ _ _ _ Ho) as (s2 & c2 & E2 & Hn & _); [by rewrite Ha2|].
  exists s2, c1. unfold mbind, M_bind. rewrite E1, Hk. unfold under. rewrite E2.
  split_and!; [done|eauto|by rewrite Ha1].
Qed.

Lemma parses_all_cons {A B} d mu (m : M S R A) (k : A -> M S R B) f fs a b mu1 mu2 :
  parses d mu m [f] a mu1 -> parses_all d mu1 (k a) fs b mu2 ->
  parses_all d mu (m ≫= k) (f :: fs) b mu2.
Proof.
  intros Hm Hk s c fs'' r H Hd.
  destruct (Hm _ _ _ _ H Hd) as (s1 & c1 & E1 & H1 & Hd1).
  destruct (Hk _ _ _ _ H1 Hd1) as (s2 & c2 & E2 & H2).
  exists s2, c2. unfold mbind, M_bind. rewrite E1, E2. done.
Qed.
Lemma parses_all_begin {B} d mu (k : M S R B) fs b mu2 :
  parses_all d mu k fs b mu2 -> parses_all d mu (dec_tbegin K;; k) fs b mu2.
Proof.
  intros Hk s c fs' r H Hd.
  destruct (parses_tbegin (K:=K) d mu s c _ r H Hd) as (s1 & c1 & E1 & H1 & Hd1).
  destruct (Hk _ _ _ _ H1 Hd1) as (s2 & c2 & E2 & H2).
  exists s2, c2. unfold mbind, M_bind. rewrite E1, E2. done.
Qed.
Lemma parses_all_ret {A B} d mu (x : A) (k : A -> M S R B) fs b mu2 :
  parses_all d mu (k x) fs b mu2 -> parses_all d mu (mret x ≫= k) fs b mu2.
Proof. intros H. exact H. Qed.
Lemma parses_all_set {A B} d mu a (m : M S R A) (k : A -> M S R B) fs b mu2 :
  parses (Some a) mu (m ≫= k) fs b mu2 ->
  parses_all d mu ((set_default_allocator a;; m) ≫= k) fs b mu2.
Proof.
  intros Hk s c fs' r H Hd.
  destruct (Hk s {| ctx_node := ctx_node c; ctx_index := ctx_index c;
    ctx_default_allocator := Some a |} fs' r) as (s2 & c2 & E2 & H2 & _).
  - by apply (sees_alloc (K:=K)).
  - done.
  - exists s2, c2. split; [exact E2|done].
Qed.
Lemma parses_all_object {A} d mu n f ms (k : bool * io_codec_ctx R -> M S R A) (body : M S R A) a mu' :
  (forall obj, k (false, obj) = under obj body) ->
  parses_all d mu body ms a mu' -> parses d mu (io_decode_object K n f ≫= k) [(n, VObj ms)] a mu'.
Proof.
  intros Hk Hb s c fs' r H Hd.
  destruct (object_law f mu n s c ms fs' r H) as (s1 & c1 & obj & r1 & E1 & Ha1 & Ha2 & Ho & Hc).
  rewrite <- (app_nil_r ms) in Ho.
  destruct (Hb _ _ _ _ Ho) as (s2 & c2 & E2 & Hn); [by rewrite Ha2|].
  exists s2, c1. unfold mbind, M_bind. rewrite E1, Hk. unfold under. rewrite E2.
  split_and!; [done|eauto|by rewrite Ha1].
Qed.

(** A decoder followed by a pure function of its result. *)
Lemma parses_map {A B} d mu (m : M S R A) (k : A -> M S R B) fs a b mu1 :
  parses d mu m fs a mu1 -> k a = mret b -> parses d mu (m ≫= k) fs b mu1.
Proof.
  intros Hm Hk. rewrite <- (app_nil_r fs). eapply parses_bind; [done|].
  rewrite Hk. apply parses_ret.
Qed.

Lemma parses_narrowed d mu (cast : Z -> Z) z : cast z = z ->
  parses (S:=S) (R:=R) d mu (narrowed cast z) [] z mu.
Proof. intros E. unfold narrowed. rewrite bool_decide_eq_true_2, E by done. apply parses_ret. Qed.

Lemma parses_wide d mu (m : M S R Z) (cast : Z -> Z) f z : cast z = z ->
  parses d mu m [f] z mu -> parses d mu (v ← m; narrowed cast v) [f] z mu.
Proof. intros. eapply parses_cons; [done|]. by apply parses_narrowed. Qed.

Lemma parses_int32 d mu n z : in_i32 z -> parses d mu (io_decode_int32 K n) [(n, VInt z)] z mu.
Proof. intros. apply parses_wide; [by apply i32_id|apply parses_int]. Qed.
Lemma parses_uint64 d mu n z : parses d mu (io_decode_uint64 K n) [(n, VUint z)] z mu.
Proof. apply parses_uint. Qed.
Lemma parses_uint32 d mu n z : in_u32 z -> parses d mu (io_decode_uint32 K n) [(n, VUint z)] z mu.
Proof. intros. apply parses_wide; [by apply u32_id|apply parses_uint]. Qed.
Lemma parses_uint16 d mu n z : in_u16 z -> parses d mu (io_decode_uint16 K n) [(n, VUint z)] z mu.
Proof. intros. apply parses_wide; [by apply u16_id|apply parses_uint]. Qed.
Lemma parses_uint8 d mu n z : is_u8 z -> parses d mu (io_decode_uint8 K n) [(n, VUint z)] z mu.
Proof. intros. apply parses_wide; [by apply u8_id|apply parses_uint]. Qed.

(** Into the caller's array. *)
Lemma fill_fixed (val bs : bytes) mu : bs <> [] -> zlen bs <= zlen val ->
  fill (fixed_validator val) bs mu = Ok (p_block (bs ++ drop (length bs) val), zlen bs, mu).
Proof.
  intros Hne Hle. unfold fill, fixed_validator. rewrite bool_decide_eq_true_2 by done. cbn.
  rewrite bool_decide_eq_true_2 by done. rewrite store_cons by done.
  unfold mem_write, zlen in *. rewrite bool_decide_eq_true_2 by lia. done.
Qed.

Lemma parses_bin_fixed d mu n (val bs : bytes) : bs <> [] -> zlen bs <= zlen val ->
  parses d mu (io_decode_bin_fixed K n val) [(n, VBin bs)]
    (bs ++ drop (length bs) val, zlen bs) mu.
Proof.
  intros Hne Hle. unfold io_decode_bin_fixed.
  eapply parses_map with (a := (p_block (bs ++ drop (length bs) val), zlen bs)); [|done].
  apply (parses_bin (K:=K) d mu n _ bs (p_block (bs ++ drop (length bs) val))).
  unfold fill_bin. rewrite bool_decide_eq_false_2.
  - by apply fill_fixed.
  - destruct bs; [done|]. unfold zlen; cbn; lia.
Qed.

Lemma parses_bin_fixed_full d mu n (val bs : bytes) : zlen bs = zlen val -> 0 < zlen bs ->
  parses d mu (io_decode_bin_fixed K n val) [(n, VBin bs)] (bs, zlen bs) mu.
Proof.
  intros E H. rewrite <- (app_nil_r bs) at 2. rewrite <- (drop_ge val (length bs)).
  - apply parses_bin_fixed; [by intros ->|lia].
  - unfold zlen in E. lia.
Qed.

Lemma parses_string_fixed d mu n (val s : bytes) : zlen s < zlen val ->
  parses d mu (io_decode_string_fixed K n val) [(n, VStr s)]
    (s ++ [0] ++ drop (length s + 1) val) mu.
Proof.
  intros Hlt. unfold io_decode_string_fixed. eapply parses_map.
  - eapply (parses_string (K:=K)). apply fill_fixed; [by destruct s|].
    rewrite zlen_app, zlen_cons, zlen_nil. lia.
  - cbn. rewrite length_app, <- app_assoc. done.
Qed.
(** A block of its own. *)
Lemma fill_block (bs : bytes) mu : (forall k, m_alloc mu k = true) -> bs <> [] ->
  fill crt_allocator bs mu = Ok (p_block bs, zlen bs, mu).
Proof.
  intros Ha Hne. assert (0 < zlen bs) by (destruct bs; [done|]; unfold zlen; cbn; lia).
  unfold fill, crt_allocator. rewrite bool_decide_eq_true_2, Ha by done. cbn.
  rewrite bool_decide_eq_true_2 by done. rewrite store_cons by done. cbn.
  unfold mem_write, zeros. rewrite length_replicate, bool_decide_eq_true_2 by (unfold zlen; lia). cbn.
  rewrite drop_ge, app_nil_r; [done|]. rewrite length_replicate. unfold zlen. lia.
Qed.
(** A string of its own. *)
Lemma parses_STRING_HANDLE d mu n s : (forall k, m_alloc mu k = true) -> 0 ∉ s ->
  parses d mu (io_decode_STRING_HANDLE K n) [(n, VStr s)] s mu.
Proof.
  intros Ha Hs. unfold io_decode_STRING_HANDLE.
  assert (cstr (s ++ [0]) = s) as Hc.
  { clear Ha. induction s as [|b s IH]; [done|]. apply not_elem_of_cons in Hs as [Hb Hs].
    cbn. rewrite bool_decide_eq_false_2 by congruence. by rewrite IH. }
  pose proof (fill_block (s ++ [0]) mu Ha ltac:(by destruct s)) as Hf.
  rewrite <- (app_nil_r [(n, VStr s)]). eapply parses_bind with (a := p_block (s ++ [0])).
  - eapply parses_map; [by eapply (parses_string (K:=K))|done].
  - intros s0 c fs' k H Hd. exists s0, c. cbn. rewrite Ha. unfold loads_str. cbn.
    unfold load_str. cbn. rewrite Hc, bool_decide_eq_true_2; [done|].
    unfold zlen. rewrite length_app. cbn. lia.
Qed.

(** With the default allocator of the context. *)
Lemma parses_string_default d mu n s p size mu' :
  fill (default crt_allocator d) (s ++ [0]) mu = Ok (p, size, mu') ->
  parses d mu (io_decode_string_default K n) [(n, VStr s)] p mu'.
Proof.
  intros Hf s0 c fs' k H Hd. unfold io_decode_string_default, get_ctx.
  unfold mbind at 1, M_bind at 1. rewrite Hd.
  pose proof (parses_map d mu (dec_string K n (default crt_allocator d)) (fun '(p, _) => mret p)
    _ _ _ _ (parses_string d mu n _ s _ _ _ Hf) eq_refl _ _ _ _ H Hd) as Hp.
  by destruct d.
Qed.

Lemma parses_bin_default d mu n b p size mu' :
  fill_bin (default mem_allocator d) b mu = Ok (p, size, mu') ->
  parses d mu (io_decode_bin_default K n) [(n, VBin b)] (p, size) mu'.
Proof.
  intros Hf s0 c fs' k H Hd. unfold io_decode_bin_default, get_ctx.
  unfold mbind at 1, M_bind at 1. rewrite Hd. destruct d as [a|]; cbn in Hf.
  - by eapply (parses_bin (K:=K)).
  - by eapply (parses_bin (K:=K)).
Qed.
End ComposeDec.

(** ** Automation: one member at a time *)

#[export] Hint Resolve emits_int emits_uint emits_bool emits_string emits_bin emits_tend
  emits_int32 emits_uint64 emits_uint32 emits_uint16 emits_uint8 emits_null emits_ret : codec.
#[export] Hint Resolve parses_int parses_uint parses_bool parses_int32 parses_uint64
  parses_uint32 parses_uint16 parses_uint8 parses_tbegin parses_tend parses_enc_tend
  parses_ret : codec.

(** Ranges of constants are computed. *)
#[export] Hint Extern 3 (in_i32 _) => (apply (bool_decide_unpack _); vm_compute; exact I) : codec.

(** Conditions on constants are evaluated. *)
Ltac eval_ifs :=
  repeat match goal with
  | |- context [if ?b then _ else _] =>
      let v := eval vm_compute in b in
      match v with true => change b with true | false => change b with false end; cbv iota
  end.

(** Encoders: split off the first member until only the end is left. *)
Ltac solve_emits :=
  repeat first
    [ solve [eauto with codec]
    | eapply emits_cons; [solve [eauto with codec]|]
    | eapply emits_cons; [eapply emits_object; solve [eauto with codec]|] ].

(** Decoders: the same, with the start and the end of a structure. *)
Ltac solve_parses :=
  repeat first
    [ solve [eauto with codec]
    | apply parses_begin
    | apply parses_end
    | eapply parses_cons; [solve [eauto with codec]|]
    | eapply parses_cons; [eapply parses_object; solve [eauto with codec]|] ].
End IoCodecSpec.
