(* ===== verification/IoRef.v ===== *)
(** * References (src/io_ref.c)

    A reference is a 128 bit identifier: the 16 bytes of [un.u8]; [un.u64] and
    [un.u32] are the little endian integers at the same place.  Random numbers
    ([pal_rand_fill]) and the address parser ([pal_pton]) are parameters. *)
From stdpp Require Import base option list numbers strings.
From S2P Require Import Prelude PrxTypes UtilString IoMem IoCodec IoCodecSpec.
Import PrxTypes UtilString IoMem IoCodec IoCodecSpec.

Module IoRef.

Definition io_ref := bytes.

Definition ref_u64 (r : io_ref) (i : Z) : Z := le_int (slice (8 * i) (8 * i + 8) r).
Definition ref_u32 (r : io_ref) (i : Z) : Z := le_int (slice (4 * i) (4 * i + 4) r).

Definition io_ref_null : io_ref := zeros 16.

(** NULL arguments are [None]. *)
Definition io_ref_new (pal_rand_fill : Z -> res bytes) (ref : option io_ref) : res io_ref :=
  match ref with None => Err er_fault | Some _ => pal_rand_fill 16 end.

Definition io_ref_clear (ref : option io_ref) : option io_ref :=
  match ref with None => None | Some _ => Some (zeros 16) end.

Definition io_ref_to_string (ref : option io_ref) (len : Z) : res bytes :=
  match ref with None => Err er_fault | Some r => string_from_uuid r len end.

Definition io_ref_equals (ref1 ref2 : option io_ref) : bool :=
  match ref1, ref2 with
  | None, None => true
  | Some r1, Some r2 =>
      bool_decide (ref_u64 r1 0 = ref_u64 r2 0) && bool_decide (ref_u64 r1 1 = ref_u64 r2 1)
  | _, _ => false
  end.

(** Both halves are copied. *)
Definition io_ref_copy (src dst : option io_ref) : option io_ref :=
  match src, dst with
  | Some s, Some _ => Some (slice 0 8 s ++ slice 8 16 s)
  | _, _ => dst
  end.

Definition io_ref_swap (ref1 ref2 : option io_ref) : option io_ref * option io_ref :=
  match ref1, ref2 with
  | Some r1, Some r2 => (Some (slice 0 8 r2 ++ slice 8 16 r2), Some (slice 0 8 r1 ++ slice 8 16 r1))
  | _, _ => (ref1, ref2)
  end.

Definition io_ref_hash (r : io_ref) : Z :=
  Z.lor (Z.lxor (ref_u32 r 0)
           (Z.lor (u32 (Z.shiftl (ref_u32 r 1) 16)) (u32 (Z.shiftl (ref_u32 r 2) 24))))
        (ref_u32 r 3).

Definition io_ref_from_prx_socket_address (sa : option prx_socket_address) (ref : option io_ref)
  : res io_ref :=
  match ref, sa with
  | Some _, Some sa => Ok (as_in6 (ip_un (as_ip sa)))
  | _, _ => Err er_fault
  end.

(** The scope is not stored; the other members of [sa] stay. *)
Definition io_ref_to_prx_socket_address (ref : option io_ref) (sa : option prx_socket_address)
  : res prx_socket_address :=
  match ref, sa with
  | Some r, Some sa =>
      let ip := as_ip sa in
      Ok (sa_ip {| ip_family := prx_address_family_inet6; ip_port := ip_port ip;
                   ip_flow := ip_flow ip; ip_un := in6 r (as_scope_id (ip_un ip)) |})
  | _, _ => Err er_fault
  end.

Definition ch_lbrace : Z := 123.
Definition ch_rbrace : Z := 125.

Section Pton.
(** [pal_pton]: parse a numeric address. *)
Context (pal_pton : bytes -> res prx_socket_address).

Definition io_ref_from_string (string : option bytes) (ref : option io_ref) : res io_ref :=
  match string, ref with
  | Some string, Some ref =>
      if bool_decide (64 - 1 <= zlen string) then Err er_arg
      else
        let ptr :=
          match string with
          | c :: _ =>
              if bool_decide (c = ch_lbrace)
              then drop 1 (default [] (string_trim_back (Some string) (Some [ch_rbrace])))
              else string
          | [] => string
          end in
        match string_to_uuid ptr ref with
        | Ok r => Ok r
        | UB => UB
        | Err _ => sa ← pal_pton ptr; io_ref_from_prx_socket_address (Some sa) (Some ref)
        end
  | _, _ => Err er_fault
  end.

Section Codec.
Context {S R : Type} (K : io_codec S R).

Definition io_encode_ref (ref : io_ref) : M S R unit :=
  enc_tbegin K 1;;
  (if bool_decide (codec_id K = io_codec_json)
   then match io_ref_to_string (Some ref) UUID_PRINTABLE_STRING_LENGTH with
        | Ok str => enc_string K (Some "id"%string) str
        | _ => fail er_out_of_memory
        end
   else enc_bin K (Some "id"%string) ref);;
  enc_tend K.

Definition io_decode_ref (ref : io_ref) : M S R io_ref :=
  dec_tbegin K;;
  r ← (if bool_decide (codec_id K = io_codec_json)
       then str ← io_decode_STRING_HANDLE K (Some "id"%string);
            lift (io_ref_from_string (Some str) (Some ref))
       else '(r, _) ← io_decode_bin_fixed K (Some "id"%string) ref; mret r);
  dec_tend K;;
  mret r.
End Codec.
End Pton.

Definition wf_ref (r : io_ref) : Prop := wf_u8s 16 r.

(** ** Round trip as a string *)

(** A reference that was printed parses back to the same reference, also from
    inside braces, whatever the address parser does. *)
Lemma ref_string_roundtrip pal_pton r old len : wf_ref r -> zlen old = 16 ->
  UUID_PRINTABLE_STRING_LENGTH <= len ->
  exists s, io_ref_to_string (Some r) len = Ok s /\
    io_ref_from_string pal_pton (Some s) (Some old) = Ok r /\
    io_ref_from_string pal_pton (Some ([ch_lbrace] ++ s ++ [ch_rbrace])) (Some old) = Ok r.
Proof.
  intros [Hw Hl] Ho Hlen. assert (Hr : length r = 16%nat) by (unfold zlen in Hl; lia).
  assert (Ho' : length old = 16%nat) by (unfold zlen in Ho; lia).
  pose proof (length_print_uuid r Hr) as Hp.
  destruct (print_uuid_ends r Hr Hw) as [(c & s & Es & Hc) (c' & s' & Es' & Hc')].
  pose proof (string_uuid_roundtrip r old [] Hw Hr Ho') as Hround. rewrite app_nil_r in Hround.
  exists (print_uuid r). split; [by apply string_from_uuid_spec|]. unfold io_ref_from_string. split.
  - rewrite bool_decide_eq_false_2 by (unfold zlen; lia). rewrite Es in *.
    unfold ch_0, ch_f, ch_lbrace in *. rewrite bool_decide_eq_false_2 by lia. by rewrite Hround.
  - rewrite bool_decide_eq_false_2 by (unfold zlen; rewrite !length_app, Hp; cbn; lia).
    cbn [app]. rewrite bool_decide_eq_true_2 by done. rewrite Es' in *.
    change (ch_lbrace :: (s' ++ [c']) ++ [ch_rbrace]) with (((ch_lbrace :: s') ++ [c']) ++ [ch_rbrace]).
    rewrite trim_back_one by (unfold ch_0, ch_f, ch_rbrace in *; lia).
    change (drop 1 (default [] (Some ((ch_lbrace :: s') ++ [c'])))) with (s' ++ [c']). by rewrite Hround.
Qed.

(** ** Round trip with a codec: a string in JSON, else the bytes *)

Definition ref_value (id : io_codec_id) (r : io_ref) : value :=
  if bool_decide (id = io_codec_json) then VStr (print_uuid r) else VBin r.
Definition ref_fields (id : io_codec_id) (r : io_ref) : list field := [(Some "id"%string, ref_value id r)].

(** A string needs memory of its own while it is parsed. *)
Definition id_memory (id : io_codec_id) (mu : mem) : Prop :=
  id = io_codec_json -> forall n, m_alloc mu n = true.

Section RoundTrip.
Context (pal_pton : bytes -> res prx_socket_address).
Context {S R : Type} (K : io_codec S R).

Lemma emits_ref `{EL : !enc_laws K EV} mu r : wf_ref r ->
  emits_obj mu (io_encode_ref K r) (ref_fields (codec_id K) r).
Proof.
  intros [Hw Hl]. unfold io_encode_ref, ref_fields, ref_value. case_bool_decide as Hid.
  - unfold io_ref_to_string. rewrite string_from_uuid_spec by (unfold zlen in Hl; lia).
    apply emits_tbegin; [|done]. solve_emits.
  - apply emits_tbegin; [|done]. solve_emits.
Qed.

Lemma parses_ref `{DL : !dec_laws K DV} d mu r old : wf_ref r -> zlen old = 16 -> id_memory (codec_id K) mu ->
  parses d mu (io_decode_ref pal_pton K old) (ref_fields (codec_id K) r) r mu.
Proof.
  intros Hr Ho Hm. pose proof Hr as [Hw Hl]. unfold io_decode_ref, ref_fields, ref_value.
  eapply parses_nil; [apply parses_tbegin|]. case_bool_decide as Hid.
  - eapply parses_cons.
    + eapply parses_map; [apply parses_STRING_HANDLE; [by apply Hm|by apply print_uuid_clean]|].
      destruct (ref_string_roundtrip pal_pton r old UUID_PRINTABLE_STRING_LENGTH Hr Ho ltac:(lia)) as (s & Es & Ep & _).
      unfold io_ref_to_string in Es. rewrite string_from_uuid_spec in Es by (unfold zlen in Hl; lia).
      injection Es as <-. exact (f_equal lift Ep).
    + eapply parses_nil; [apply parses_tend|]. apply parses_ret.
  - eapply parses_cons.
    + eapply parses_map; [apply parses_bin_fixed_full; lia|done].
    + eapply parses_nil; [apply parses_tend|]. apply parses_ret.
Qed.
End RoundTrip.

(** ** Identity *)

Lemma ref_halves (r : bytes) : zlen r = 16 -> slice 0 8 r ++ slice 8 16 r = r.
Proof.
  intros Hr. rewrite <- slice_split by lia. rewrite <- (take_zlen r) at 2. rewrite Hr. done.
Qed.

Lemma ref_half_inj r1 r2 a b : wf_ref r1 -> wf_ref r2 -> 0 <= a <= b -> b <= 16 ->
  le_int (slice a b r1) = le_int (slice a b r2) -> slice a b r1 = slice a b r2.
Proof.
  intros [Hw1 Hl1] [Hw2 Hl2] Ha Hb. apply le_int_inj.
  - by apply Forall_take, Forall_drop.
  - by apply Forall_take, Forall_drop.
  - pose proof (zlen_slice a b r1 ltac:(lia) ltac:(lia)).
    pose proof (zlen_slice a b r2 ltac:(lia) ltac:(lia)). unfold zlen in *. lia.
Qed.

(** References are compared, copied and swapped as 16 byte values: the
    comparison of the two 64 bit halves is equality of all bytes, a copy equals
    its source and swapping exchanges the two. *)
Lemma ref_value_semantics r1 r2 : wf_ref r1 -> wf_ref r2 ->
  (io_ref_equals (Some r1) (Some r2) = true <-> r1 = r2) /\
  io_ref_copy (Some r1) (Some r2) = Some r1 /\
  io_ref_swap (Some r1) (Some r2) = (Some r2, Some r1).
Proof.
  intros H1 H2. pose proof H1 as [_ Hl1]. pose proof H2 as [_ Hl2]. split_and!.
  - cbn. rewrite andb_true_iff, !bool_decide_eq_true. unfold ref_u64. split; [|by intros ->].
    intros [E1 E2]. rewrite <- (ref_halves r1), <- (ref_halves r2) by done. f_equal.
    + by apply ref_half_inj.
    + by apply ref_half_inj.
  - cbn. by rewrite ref_halves.
  - cbn. by rewrite !ref_halves.
Qed.

End IoRef.
