(* ===== verification/PrxNs.v ===== *)
(** * The name service in memory (src/prx_ns.c)

    Entries of the generic registry are objects of a heap: what was freed is no longer in
    it, and reading or freeing it again is undefined.  The registry and the result sets
    hold lists of addresses, in the order of their links.  [mem] tells whether an
    allocation succeeds, given how many were made before. *)
From Stdlib Require Import String FunctionalExtensionality.
From stdpp Require Import base option list numbers sets gmap.
From S2P Require Import Prelude PrxTypes UtilString UtilInt UtilKey IoCs IoRef.
Import PrxTypes UtilString UtilInt UtilKey IoCs IoRef.
Open Scope Z_scope.

Module PrxNs.

Definition prx_ns_entry_type_hub : Z := 0.
Definition prx_ns_entry_type_host : Z := 1.
Definition prx_ns_entry_type_proxy : Z := 2.
Definition prx_ns_entry_type_startup : Z := 4.
Definition prx_ns_entry_type_link : Z := 8.
Definition prx_ns_entry_query_all : Z := 15.
Definition prx_ns_entry_type_gw : Z := Z.lor prx_ns_entry_type_startup prx_ns_entry_type_proxy.

Record generic_entry := Entry {
  e_name : option bytes;
  e_id : io_ref;
  e_cs : option io_cs;
  e_type : Z;
  e_version : Z;
}.

Record resultset := Resultset { head : list nat; count : Z }.

Record generic_registry := Registry {
  file_name : option bytes;
  entries : list nat;
  num_entries : Z;
}.

(** The entries that are allocated, the next address, the number of allocations, and what
    the file of the registry holds. *)
Record world := World {
  heap : gmap nat generic_entry;
  fresh : nat;
  allocs : nat;
  file : option (list generic_entry);
}.

Definition M (A : Type) := world -> res (A * world).
#[export] Instance M_ret : MRet M := fun A x w => Ok (x, w).
#[export] Instance M_bind : MBind M := fun A B f m w => '(x, w) ← m w; f x w.
Definition with_heap (w : world) (h : gmap nat generic_entry) : world := World h (fresh w) (allocs w) (file w).
Definition with_allocs (w : world) (n : nat) : world := World (heap w) (fresh w) n (file w).

(** The entry at an address. *)
Definition load (a : nat) : M generic_entry := fun w => match heap w !! a with Some e => Ok (e, w) | None => UB end.

(** An entry as its clients see it, [prx_ns_entry_t]. *)
Record prx_ns_entry := Itf {
  prx_ns_entry_get_addr : io_ref + prx_error;
  prx_ns_entry_get_cs : M (io_cs + prx_error);
  prx_ns_entry_get_type : Z;
  prx_ns_entry_get_name : option bytes;
  prx_ns_entry_get_id : option bytes;
  prx_ns_entry_get_version : Z;
}.

(** A relation of lists whose left members have something more. *)
Lemma Forall2_keep {A B} (P Q : A -> B -> Prop) l k : Forall2 P l k -> (forall x y, x ∈ l -> P x y -> Q x y) -> Forall2 Q l k.
Proof.
  induction 1 as [|x y l k Hx _ IH]; intros Hk; constructor; [apply Hk; [apply list_elem_of_here|done]|].
  apply IH. intros x' y' Hx'. apply Hk. by apply list_elem_of_further.
Qed.

Section Ns.
Variables (mem : nat -> bool).

Definition alloc : M bool := fun w => Ok (mem (allocs w), with_allocs w (S (allocs w))).

(** ** Result sets *)

Definition prx_ns_generic_resultset_create : M (option resultset) :=
  ok ← alloc; mret (if (ok : bool) then Some (Resultset [] 0) else None).

Definition prx_ns_generic_resultset_size (list : resultset) : Z := count list.

Definition prx_ns_generic_resultset_add (list : resultset) (entry : nat) : resultset :=
  Resultset (head list ++ [entry]) (count list + 1).

Definition prx_ns_generic_resultset_pop (list : resultset) : option nat * resultset :=
  match head list with
  | [] => (None, list)
  | x :: l => (Some x, Resultset l (count list - 1))
  end.

(** ** Entries *)

Definition prx_ns_generic_entry_free (entry : nat) : M unit := fun w =>
  match heap w !! entry with
  | None => UB
  | Some _ => Ok (tt, with_heap w (delete entry (heap w)))
  end.

(** Also the loop of [prx_ns_generic_registry_clear]. *)
Fixpoint free_all (l : list nat) : M unit :=
  match l with [] => mret tt | x :: l => prx_ns_generic_entry_free x;; free_all l end.
Definition prx_ns_generic_resultset_free (list : resultset) : M unit := free_all (head list).

Definition prx_ns_generic_resultset_concat (list add : option resultset) : M (option resultset) :=
  match add, list with
  | None, _ => mret list
  | _, None => mret add
  | Some add, Some list =>
      let result := Resultset (head list ++ head add) (count list + count add) in
      prx_ns_generic_resultset_free (Resultset [] (count add));;
      mret (Some result)
  end.

(** The random bytes, given when they are asked for. *)
Variable pal_rand_fill : nat -> Z -> res bytes.

(** [mem_zalloc_type]: a new entry, all members zero. *)
Definition zalloc_entry : M (option nat) := fun w =>
  let w1 := with_allocs w (S (allocs w)) in
  if mem (allocs w)
  then Ok (Some (fresh w), World (<[fresh w := Entry None io_ref_null None 0 0]> (heap w)) (S (fresh w)) (allocs w1) (file w))
  else Ok (None, w1).
Definition store (a : nat) (e : generic_entry) : M unit := fun w =>
  match heap w !! a with None => UB | Some _ => Ok (tt, with_heap w (<[a := e]> (heap w))) end.

Definition clone_cs (cs : option io_cs) : M (io_cs + prx_error) := fun w =>
  '(r, n) ← io_cs_clone mem cs (allocs w); Ok (r, with_allocs w n).

Definition new_ref (id : option io_ref) : M (io_ref + prx_error) := fun w =>
  match id with
  | Some id => Ok (inl (default io_ref_null (io_ref_copy (Some id) (Some io_ref_null))), w)
  | None =>
      match io_ref_new (pal_rand_fill (allocs w)) (Some io_ref_null) with
      | Ok r => Ok (inl r, w)
      | Err e => Ok (inr e, w)
      | UB => UB
      end
  end.

(** The steps between the allocation of the entry and the end of the block. *)
Definition entry_init (a : nat) (type : Z) (id : option io_ref) (name : option bytes) (version : Z) (cs : option io_cs) :
    M prx_error :=
  r ← new_ref id;
  match r with
  | inr e => mret e
  | inl id =>
      ok ← (match name with Some _ => alloc | None => mret true end);
      if negb ok then mret er_out_of_memory
      else
        store a (Entry name id None type version);;
        match cs with
        | None => mret er_ok
        | Some cs =>
            r ← clone_cs (Some cs);
            match r with
            | inr e => mret e
            | inl cs => store a (Entry name id (Some cs) type version);; mret er_ok
            end
        end
  end.

Definition prx_ns_generic_entry_create (type : Z) (id : option io_ref) (name : option bytes) (version : Z)
    (cs : option io_cs) : M (nat + prx_error) :=
  a ← zalloc_entry;
  match a with
  | None => mret (inr er_out_of_memory)
  | Some a =>
      result ← entry_init a type id name version cs;
      if bool_decide (result = er_ok) then mret (inl a)
      else prx_ns_generic_entry_free a;; mret (inr result)
  end.

Definition prx_ns_generic_entry_clone (entry : nat) : M (nat + prx_error) :=
  e ← load entry;
  prx_ns_generic_entry_create (e_type e) (Some (e_id e)) (e_name e) (e_version e) (e_cs e).

Definition prx_ns_generic_entry_get_id (e : generic_entry) : option bytes :=
  cs ← e_cs e; cs io_cs_entry_device_id.
Definition prx_ns_generic_entry_get_name (e : generic_entry) : option bytes :=
  match e_name e with Some n => Some n | None => prx_ns_generic_entry_get_id e end.

(** The functions an entry gives to its clients. *)
Definition generic_itf (e : generic_entry) : prx_ns_entry := {|
  prx_ns_entry_get_addr := inl (default io_ref_null (io_ref_copy (Some (e_id e)) (Some io_ref_null)));
  prx_ns_entry_get_cs := clone_cs (e_cs e);
  prx_ns_entry_get_type := e_type e;
  prx_ns_entry_get_name := prx_ns_generic_entry_get_name e;
  prx_ns_entry_get_id := prx_ns_generic_entry_get_id e;
  prx_ns_entry_get_version := e_version e;
|}.

Definition prx_ns_generic_entry_get_links (entry : nat) : M (resultset + prx_error) :=
  e ← load entry;
  match e_cs e with
  | None => mret (inr er_not_found)
  | Some _ =>
      links ← prx_ns_generic_resultset_create;
      match links with
      | None => mret (inr er_out_of_memory)
      | Some links =>
          r ← prx_ns_generic_entry_clone entry;
          match r with
          | inl clone => mret (inl (prx_ns_generic_resultset_add links clone))
          | inr e => prx_ns_generic_resultset_free links;; mret (inr e)
          end
      end
  end.

(** ** The registry *)

Implicit Types (registry : generic_registry).

(** Whether the file is written, given when. *)
Variable write_file : nat -> prx_error.

Fixpoint load_all (l : list nat) : M (list generic_entry) :=
  match l with [] => mret [] | x :: l => e ← load x; es ← load_all l; mret (e :: es) end.

(** The encoder visits every entry. *)
Definition prx_ns_generic_registry_save registry : M prx_error :=
  match file_name registry with
  | None => mret er_ok
  | Some _ =>
      es ← load_all (entries registry);
      (fun w =>
         let result := write_file (allocs w) in
         Ok (result, if bool_decide (result = er_ok) then World (heap w) (fresh w) (allocs w) (Some es) else w)) : M prx_error
  end.

(** The first entry with this address. *)
Fixpoint find_entry (l : list nat) (id : io_ref) : M (option nat) :=
  match l with
  | [] => mret None
  | p :: l => next ← load p; if io_ref_equals (Some (e_id next)) (Some id) then mret (Some p) else find_entry l id
  end.

Definition remove_entry (l : list nat) (a : nat) : list nat := filter (fun x => x <> a) l.

Definition prx_ns_generic_registry_clear registry : M generic_registry :=
  free_all (entries registry);; mret (Registry (file_name registry) [] 0).

(** Also the handle whose key the storage is told to remove. *)
Definition prx_ns_generic_registry_entry_delete registry (entry : prx_ns_entry) :
    M (prx_error * generic_registry * option bytes) :=
  match prx_ns_entry_get_addr entry with
  | inr e => mret (e, registry, None)
  | inl id =>
      next ← find_entry (entries registry) id;
      match next with
      | None => mret (er_not_found, registry, None)
      | Some next =>
          let registry := Registry (file_name registry) (remove_entry (entries registry) next) (num_entries registry - 1) in
          prx_ns_generic_registry_save registry;;
          e ← load next;
          let removed := cs ← e_cs e; cs io_cs_entry_shared_access_key_handle in
          prx_ns_generic_entry_free next;;
          mret (er_ok, registry, removed)
      end
  end.

(** All proxy entries locally are gw entries. *)
Definition local_type (type : Z) : Z :=
  if bool_decide (Z.land type prx_ns_entry_type_proxy <> 0) then Z.lor type prx_ns_entry_type_gw else type.

Definition prx_ns_generic_registry_entry_create registry (entry : prx_ns_entry) : M (prx_error * generic_registry) :=
  match prx_ns_entry_get_addr entry with
  | inr e => mret (e, registry)
  | inl id =>
      next ← find_entry (entries registry) id;
      match next with
      | Some _ => mret (er_already_exists, registry)
      | None =>
          cs ← prx_ns_entry_get_cs entry;
          match cs with
          | inr e => mret (e, registry)
          | inl cs =>
              r ← prx_ns_generic_entry_create (local_type (prx_ns_entry_get_type entry)) (Some id)
                    (prx_ns_entry_get_name entry) (prx_ns_entry_get_version entry) (Some cs);
              match r with
              | inr e => mret (e, registry)
              | inl next =>
                  let registry := Registry (file_name registry) (entries registry ++ [next]) (num_entries registry + 1) in
                  prx_ns_generic_registry_save registry;;
                  mret (er_ok, registry)
              end
          end
      end
  end.

(** The entry that was found is removed, inserted again and freed; the new one is not
    used. *)
Definition prx_ns_generic_registry_entry_update registry (entry : prx_ns_entry) : M (prx_error * generic_registry) :=
  match prx_ns_entry_get_addr entry with
  | inr e => mret (e, registry)
  | inl id =>
      next ← find_entry (entries registry) id;
      match next with
      | None => mret (er_not_found, registry)
      | Some next =>
          cs ← prx_ns_entry_get_cs entry;
          match cs with
          | inr e => mret (e, registry)
          | inl cs =>
              r ← prx_ns_generic_entry_create (prx_ns_entry_get_type entry) (Some id)
                    (prx_ns_entry_get_name entry) (prx_ns_entry_get_version entry) (Some cs);
              match r with
              | inr e => mret (e, registry)
              | inl update =>
                  let registry := Registry (file_name registry) (remove_entry (entries registry) next ++ [next]) (num_entries registry) in
                  prx_ns_generic_entry_free next;;
                  prx_ns_generic_registry_save registry;;
                  mret (er_ok, registry)
              end
          end
      end
  end.

Definition prx_ns_generic_registry_entry_by_addr registry (id : io_ref) : M (nat + prx_error) :=
  next ← find_entry (entries registry) id;
  match next with
  | Some next => prx_ns_generic_entry_clone next
  | None => mret (inr er_not_found)
  end.

(** The loop of the two searches: clones of the entries with [p] are added; [result] is
    what the last of them gave. *)
Fixpoint search (p : generic_entry -> bool) (l : list nat) (result : prx_error) (set : resultset) : M (prx_error * resultset) :=
  match l with
  | [] => mret (result, set)
  | x :: l =>
      next ← load x;
      if negb (p next) then search p l result set
      else
        r ← prx_ns_generic_entry_clone x;
        match r with
        | inr e => mret (e, set)
        | inl clone => search p l er_ok (prx_ns_generic_resultset_add set clone)
        end
  end.

Definition search_entries registry (p : generic_entry -> bool) : M (resultset + prx_error) :=
  set ← prx_ns_generic_resultset_create;
  match set with
  | None => mret (inr er_out_of_memory)
  | Some set =>
      '(result, set) ← search p (entries registry) er_not_found set;
      if bool_decide (result = er_ok) then mret (inl set)
      else prx_ns_generic_resultset_free set;; mret (inr result)
  end.

(** [STRING_compare_c_str_nocase] fails without a name. *)
Definition has_name (name : bytes) (e : generic_entry) : bool :=
  match e_name e with None => false | Some n => bool_decide (string_compare_nocase (Some n) (Some name) = 0) end.
Definition has_type (type : Z) (e : generic_entry) : bool := bool_decide (type = Z.land (e_type e) type).

Definition prx_ns_generic_registry_entry_by_name registry (name : bytes) : M (resultset + prx_error) :=
  search_entries registry (has_name name).
Definition prx_ns_generic_registry_entry_by_type registry (type : Z) : M (resultset + prx_error) :=
  search_entries registry (has_type type).

Definition prx_ns_generic_registry_close registry : M unit :=
  prx_ns_generic_registry_clear registry;; mret tt.

(** ** Entries of clients *)

Definition prx_ns_entry_create_from_cs (type : Z) (address : option io_ref) (cs : option io_cs) : M (nat + prx_error) :=
  match cs with
  | None => mret (inr er_fault)
  | Some cs => prx_ns_generic_entry_create type address None 0 (Some cs)
  end.

(** [strncpy] into a zeroed array of [n] bytes: a longer name is cut and not terminated. *)
Definition strncpy (n : Z) (name : bytes) : bytes := take (Z.to_nat n) (char_array n name).

Definition prx_ns_entry_to_prx_socket_address (entry : option prx_ns_entry) (family : Z) (socket_address : option prx_socket_address) :
    res prx_socket_address :=
  match entry, socket_address with
  | Some entry, Some _ =>
      let by_name (f : bytes -> prx_socket_address) : res prx_socket_address :=
        match prx_ns_entry_get_name entry with
        | Some name => Ok (f name)
        | None => match prx_ns_entry_get_id entry with Some name => Ok (f name) | None => UB end
        end in
      let by_addr (family : Z) : res prx_socket_address :=
        match prx_ns_entry_get_addr entry with
        | inr e => Err e
        | inl id =>
            io_ref_to_prx_socket_address (Some id)
              (Some (sa_ip {| ip_family := family; ip_port := 0; ip_flow := 0; ip_un := in6 (zeros 16) 0 |}))
        end in
      if bool_decide (family = prx_address_family_unix) then by_name (fun name => sa_ux (strncpy MAX_UNIX_PATH_LENGTH name))
      else if bool_decide (family = prx_address_family_proxy)
      then by_name (fun name => sa_proxy {| px_port := 0; px_flags := 0; px_itf_index := 0; px_host := strncpy MAX_HOST_LENGTH name |})
      else if bool_decide (family = prx_address_family_unspec \/ family = prx_address_family_inet6)
      then by_addr prx_address_family_inet6
      else if bool_decide (family = prx_address_family_inet) then by_addr family
      else Err er_not_supported
  | _, _ => Err er_fault
  end.

(** ** What creating and freeing entries does to the heap *)

Implicit Types (w : world) (e : generic_entry) (es : list generic_entry) (a : nat) (l : list nat).

Definition at_ w a e : Prop := heap w !! a = Some e.
(** Addresses that were not given out are free. *)
Definition heap_ok w : Prop := forall a, (fresh w <= a)%nat -> heap w !! a = None.

(** [w'] is [w] with the entries [es] at the new addresses [l]. *)
Record grown w w' l es : Prop := {
  grown_at : Forall2 (at_ w') l es;
  grown_keep : forall a, a ∉ l -> heap w' !! a = heap w !! a;
  grown_nodup : NoDup l;
  grown_new : forall a, a ∈ l -> (fresh w <= a < fresh w')%nat;
  grown_fresh : (fresh w <= fresh w')%nat;
  grown_file : file w' = file w;
}.

Lemma grown_none w w' : heap w' = heap w -> (fresh w <= fresh w')%nat -> file w' = file w -> grown w w' [] [].
Proof. intros H1 H2 H3. split; [constructor|by rewrite H1|constructor|set_solver|done|done]. Qed.
Lemma grown_ok w w' l es : grown w w' l es -> heap_ok w -> heap_ok w'.
Proof.
  intros G Hw a Ha. rewrite (grown_keep _ _ _ _ G); [apply Hw; pose proof (grown_fresh _ _ _ _ G); lia|].
  intros Hin. apply (grown_new _ _ _ _ G) in Hin. lia.
Qed.
Lemma grown_stays w w' l es a e : grown w w' l es -> heap_ok w -> at_ w a e -> at_ w' a e.
Proof.
  intros G Hw Ha. unfold at_. rewrite (grown_keep _ _ _ _ G); [done|]. intros Hin. apply (grown_new _ _ _ _ G) in Hin.
  unfold at_ in Ha. rewrite Hw in Ha by lia. done.
Qed.
Lemma grown_trans w w1 w2 l1 es1 l2 es2 : heap_ok w -> grown w w1 l1 es1 -> grown w1 w2 l2 es2 -> grown w w2 (l1 ++ l2) (es1 ++ es2).
Proof.
  intros Hw G1 G2. pose proof (grown_ok _ _ _ _ G1 Hw) as Hw1. split.
  - apply Forall2_app; [|apply (grown_at _ _ _ _ G2)]. eapply Forall2_impl; [apply (grown_at _ _ _ _ G1)|].
    intros a e. by apply (grown_stays _ _ _ _ _ _ G2).
  - intros a Ha. rewrite (grown_keep _ _ _ _ G2), (grown_keep _ _ _ _ G1) by set_solver. done.
  - apply NoDup_app. split_and!; [apply (grown_nodup _ _ _ _ G1)| |apply (grown_nodup _ _ _ _ G2)].
    intros a H1 H2. apply (grown_new _ _ _ _ G1) in H1. apply (grown_new _ _ _ _ G2) in H2. lia.
  - intros a Ha. pose proof (grown_fresh _ _ _ _ G1). pose proof (grown_fresh _ _ _ _ G2). apply elem_of_app in Ha as [Ha|Ha].
    + apply (grown_new _ _ _ _ G1) in Ha. lia.
    + apply (grown_new _ _ _ _ G2) in Ha. lia.
  - pose proof (grown_fresh _ _ _ _ G1). pose proof (grown_fresh _ _ _ _ G2). lia.
  - rewrite (grown_file _ _ _ _ G2). apply (grown_file _ _ _ _ G1).
Qed.
Lemma grown_dom w w' l es : grown w w' l es -> dom (heap w') = dom (heap w) ∪ list_to_set l.
Proof.
  intros G. apply set_eq. intros a. rewrite elem_of_union, elem_of_list_to_set, !elem_of_dom.
  destruct (decide (a ∈ l)) as [Ha|Ha].
  - split; [by right|]. intros _. apply list_elem_of_lookup in Ha as (i & Hi).
    destruct (Forall2_lookup_l _ _ _ _ _ (grown_at _ _ _ _ G) Hi) as (e & _ & He). by exists e.
  - rewrite (grown_keep _ _ _ _ G) by done. set_solver.
Qed.

(** Some allocation fails. *)
Definition short : Prop := exists n, mem n = false.

Lemma clone_loop_run orig ks : forall cs n, exists r cs' n',
  clone_loop mem orig ks (cs, n) = Ok (r, (cs', n')) /\
  (r = er_ok /\ (forall x, cs' x = if decide (x ∈ ks) then (match orig x with Some v => Some v | None => cs x end) else cs x) \/ r = er_out_of_memory /\ short).
Proof.
  induction ks as [|x ks IH]; intros cs n; cbn [clone_loop].
  { exists er_ok, cs, n. split; [done|]. left. split; [done|]. intros x. by rewrite decide_False by set_solver. }
  destruct (orig x) as [v|] eqn:Ex.
  - unfold STRING_construct, IoCs.alloc, put, mret, IoCs.M_ret, mbind, IoCs.M_bind. cbn. destruct (mem n) eqn:Em.
    + destruct (IH (set_entry cs x (Some v)) (S n)) as (r & cs' & n' & E & H). exists r, cs', n'. split; [exact E|].
      destruct H as [[-> H]|H]; [left|by right]. split; [done|]. intros y. rewrite H. unfold set_entry.
      repeat case_decide; subst; rewrite ?Ex; try done; set_solver.
    + eexists er_out_of_memory, _, _. split; [reflexivity|]. right. by split; [|exists n].
  - destruct (IH cs n) as (r & cs' & n' & E & H). exists r, cs', n'. split; [exact E|].
    destruct H as [[-> H]|H]; [left|by right]. split; [done|]. intros y. rewrite H.
    destruct (decide (y = x)) as [->|Hy]; [rewrite Ex; by repeat case_decide|]. repeat case_decide; try done; set_solver.
Qed.

(** A clone has the same entries. *)
Lemma cs_clone_run cs n : exists n', io_cs_clone mem (Some cs) n = Ok (inl cs, n') \/ io_cs_clone mem (Some cs) n = Ok (inr er_out_of_memory, n') /\ short.
Proof.
  cbn [io_cs_clone]. destruct (mem n) eqn:Em; cbn [negb]; [|exists (S n); right; by split; [|exists n]].
  destruct (clone_loop_run cs all_entries empty_cs (S n)) as (r & cs' & n' & -> & H). exists n'.
  destruct H as [[-> H]|[-> H]]; [left|by right]. cbn. do 3 f_equal. apply functional_extensionality. intros x. rewrite H.
  rewrite decide_True by (destruct x; apply (bool_decide_unpack _); exact I). by destruct (cs x).
Qed.

Lemma ns_bind_eq {A B} (c : M A) (f : A -> M B) w x w1 : c w = Ok (x, w1) -> (c ≫= f) w = f x w1.
Proof. unfold mbind, M_bind. by intros ->. Qed.
Lemma store_run a e w e0 : heap w !! a = Some e0 -> store a e w = Ok (tt, with_heap w (<[a := e]> (heap w))).
Proof. unfold store. by intros ->. Qed.
Lemma free_run a w e : heap w !! a = Some e -> prx_ns_generic_entry_free a w = Ok (tt, with_heap w (delete a (heap w))).
Proof. unfold prx_ns_generic_entry_free. by intros ->. Qed.
Lemma load_run a w e : at_ w a e -> load a w = Ok (e, w).
Proof. unfold load. by intros ->. Qed.
Lemma ref_copy id : wf_ref id -> default io_ref_null (io_ref_copy (Some id) (Some io_ref_null)) = id.
Proof. intros [_ Hl]. cbn. by apply ref_halves. Qed.

Definition same_heap w w' : Prop := heap w' = heap w /\ fresh w' = fresh w /\ file w' = file w.

Lemma clone_cs_run cs w : exists w', same_heap w w' /\
  (clone_cs (Some cs) w = Ok (inl cs, w') \/ clone_cs (Some cs) w = Ok (inr er_out_of_memory, w') /\ short).
Proof.
  unfold clone_cs. destruct (cs_clone_run cs (allocs w)) as (n' & [-> | [-> Hs]]); exists (with_allocs w n'); split; try done; [by left|by right].
Qed.

Lemma entry_init_run a type id name version cs w : wf_ref id -> is_Some (heap w !! a) -> exists r w',
  entry_init a type (Some id) name version cs w = Ok (r, w') /\
  (r = er_ok /\ heap w' = <[a := Entry name id cs type version]> (heap w) \/
   r = er_out_of_memory /\ short /\ exists e, heap w' = <[a := e]> (heap w)) /\ fresh w' = fresh w /\ file w' = file w.
Proof.
  intros Hid [e0 Ha]. unfold entry_init. erewrite ns_bind_eq by (unfold new_ref; rewrite ref_copy by done; reflexivity).
  assert (Hn : exists ok n, (match name with Some _ => alloc | None => mret true end) w = Ok (ok, with_allocs w n) /\ (ok = false -> short)).
  { destruct name; [|exists true, (allocs w); by destruct w]. eexists _, _. split; [done|]. by exists (allocs w). }
  destruct Hn as (ok & n & Hn & Hs). rewrite (ns_bind_eq _ _ _ _ _ Hn). clear Hn. destruct ok; cbn [negb].
  2: { eexists _, _. split; [reflexivity|]. split_and!; [right|done|done]. split; [done|]. split; [by apply Hs|]. exists e0. cbn. by rewrite insert_id. }
  rewrite (ns_bind_eq _ _ _ _ _ (store_run a _ (with_allocs w n) e0 Ha)). destruct cs as [cs|].
  2: { eexists _, _. split; [reflexivity|]. split_and!; [by left|done|done]. }
  set (w1 := with_heap _ _). destruct (clone_cs_run cs w1) as (w2 & (H1 & H2 & H3) & [E|[E Hs']]); rewrite (ns_bind_eq _ _ _ _ _ E).
  - erewrite ns_bind_eq by (eapply store_run; rewrite H1; apply lookup_insert_eq). eexists _, _. split; [reflexivity|].
    split_and!; [left|done|done]. split; [done|]. cbn. rewrite H1. apply insert_insert_eq.
  - eexists _, _. split; [reflexivity|]. split_and!; [right|done|done]. split; [done|]. split; [done|]. eexists. by rewrite H1.
Qed.

(** Creating an entry adds it at a new address or leaves the heap as it was. *)
Lemma entry_create_run type id name version cs w : wf_ref id -> heap_ok w -> exists w',
  prx_ns_generic_entry_create type (Some id) name version cs w = Ok (inl (fresh w), w') /\
    grown w w' [fresh w] [Entry name id cs type version] \/
  prx_ns_generic_entry_create type (Some id) name version cs w = Ok (inr er_out_of_memory, w') /\ short /\ grown w w' [] [].
Proof.
  intros Hid Hw. unfold prx_ns_generic_entry_create. destruct (mem (allocs w)) eqn:Em.
  2: { eexists. right. erewrite ns_bind_eq by (unfold zalloc_entry; rewrite Em; reflexivity). split; [reflexivity|]. split; [by exists (allocs w)|]. by apply grown_none. }
  erewrite ns_bind_eq by (unfold zalloc_entry; rewrite Em; reflexivity). set (w1 := World _ _ _ _).
  destruct (entry_init_run (fresh w) type id name version cs w1 Hid) as (r & w2 & E & H & Hf & Hfile); [cbn; by rewrite lookup_insert_eq; eexists|].
  rewrite (ns_bind_eq _ _ _ _ _ E). destruct H as [[-> H]|[-> (Hs & e & H)]]; cbn in H; rewrite insert_insert_eq in H.
  - exists w2. left. split; [done|]. split.
    + repeat constructor. unfold at_. by rewrite H, lookup_insert_eq.
    + intros a Ha. rewrite H, lookup_insert_ne by set_solver. done.
    + apply NoDup_singleton.
    + intros a ->%list_elem_of_singleton. rewrite Hf. cbn. lia.
    + rewrite Hf. cbn. lia.
    + by rewrite Hfile.
  - rewrite bool_decide_eq_false_2 by done. eexists. right.
    erewrite ns_bind_eq by (eapply free_run; rewrite H; apply lookup_insert_eq). split; [reflexivity|]. split; [done|]. rewrite H.
    apply grown_none; cbn; [|rewrite Hf; cbn; lia|by rewrite Hfile]. rewrite delete_insert_id; [done|]. by apply Hw.
Qed.

Lemma entry_clone_run a e w : wf_ref (e_id e) -> heap_ok w -> at_ w a e -> exists w',
  prx_ns_generic_entry_clone a w = Ok (inl (fresh w), w') /\ grown w w' [fresh w] [e] \/
  prx_ns_generic_entry_clone a w = Ok (inr er_out_of_memory, w') /\ short /\ grown w w' [] [].
Proof.
  intros Hid Hw Ha. unfold prx_ns_generic_entry_clone. rewrite (ns_bind_eq _ _ _ _ _ (load_run _ _ _ Ha)).
  destruct e as [name id cs type version]. cbn in Hid |- *. by apply entry_create_run.
Qed.

Lemma free_all_run l : forall w, NoDup l -> (forall a, a ∈ l -> is_Some (heap w !! a)) -> exists h,
  free_all l w = Ok (tt, with_heap w h) /\ forall a, h !! a = if decide (a ∈ l) then None else heap w !! a.
Proof.
  induction l as [|x l IH]; intros w Hnd Ha; cbn [free_all].
  { exists (heap w). split; [by destruct w|]. intros a. by rewrite decide_False by set_solver. }
  apply NoDup_cons in Hnd as [Hx Hnd]. unfold prx_ns_generic_entry_free, mbind, M_bind.
  destruct (Ha x) as [e ->]; [set_solver|]. cbn -[free_all].
  destruct (IH (with_heap w (delete x (heap w)))) as (h & E & Hh); [done| |].
  { intros a Hin. cbn. rewrite lookup_delete_ne by (intros ->; done). apply Ha. set_solver. }
  exists h. split; [exact E|]. intros a. rewrite Hh. cbn. destruct (decide (x = a)) as [->|Hxa].
  - rewrite lookup_delete_eq. by repeat case_decide; set_solver.
  - rewrite lookup_delete_ne by done. repeat case_decide; set_solver.
Qed.

(** ** The registry as a list of entries *)

Record repr w registry es : Prop := {
  repr_heap : heap_ok w;
  repr_nodup : NoDup (entries registry);
  repr_num : num_entries registry = zlen (entries registry);
  repr_at : Forall2 (at_ w) (entries registry) es;
  repr_ids : NoDup (e_id <$> es);
  repr_wf : Forall (fun e => wf_ref (e_id e)) es;
}.

Inductive op :=
| OpCreate (entry : generic_entry)
| OpDelete (entry : generic_entry)
| OpByAddr (id : io_ref)
| OpByName (name : bytes)
| OpByType (type : Z).
(** An error code, or entries the caller owns now. *)
Inductive answer := Result (e : prx_error) | Held (l : list nat).

Definition of_search registry (r : resultset + prx_error) : answer * generic_registry :=
  (match r with inl set => Held (head set) | inr e => Result e end, registry).
Definition run (o : op) registry : M (answer * generic_registry) :=
  match o with
  | OpCreate entry => '(r, registry) ← prx_ns_generic_registry_entry_create registry (generic_itf entry); mret (Result r, registry)
  | OpDelete entry => '(r, registry, _) ← prx_ns_generic_registry_entry_delete registry (generic_itf entry); mret (Result r, registry)
  | OpByAddr id => r ← prx_ns_generic_registry_entry_by_addr registry id; mret (match r with inl a => Held [a] | inr e => Result e end, registry)
  | OpByName name => r ← prx_ns_generic_registry_entry_by_name registry name; mret (of_search registry r)
  | OpByType type => r ← prx_ns_generic_registry_entry_by_type registry type; mret (of_search registry r)
  end.

(** What the registry promises: it is a list of entries with different addresses. *)
Inductive outcome := Code (e : prx_error) | Found (es : list generic_entry).
Definition created (e : generic_entry) : generic_entry :=
  Entry (prx_ns_generic_entry_get_name e) (e_id e) (e_cs e) (local_type (e_type e)) (e_version e).
Definition matches (o : op) : generic_entry -> bool :=
  match o with OpByName name => has_name name | OpByType type => has_type type | _ => fun _ => false end.
Definition is_search (o : op) : bool := match o with OpByName _ | OpByType _ => true | _ => false end.

Inductive spec_step es : op -> outcome -> list generic_entry -> Prop :=
| spec_exists e : e_id e ∈ e_id <$> es -> spec_step es (OpCreate e) (Code er_already_exists) es
| spec_no_cs e : e_id e ∉ e_id <$> es -> e_cs e = None -> spec_step es (OpCreate e) (Code er_fault) es
| spec_create e : e_id e ∉ e_id <$> es -> is_Some (e_cs e) -> spec_step es (OpCreate e) (Code er_ok) (es ++ [created e])
| spec_not_there e : e_id e ∉ e_id <$> es -> spec_step es (OpDelete e) (Code er_not_found) es
| spec_delete e es1 x es2 : es = es1 ++ x :: es2 -> e_id x = e_id e -> spec_step es (OpDelete e) (Code er_ok) (es1 ++ es2)
| spec_unknown id : id ∉ e_id <$> es -> spec_step es (OpByAddr id) (Code er_not_found) es
| spec_known e : e ∈ es -> spec_step es (OpByAddr (e_id e)) (Found [e]) es
| spec_no_match o : is_search o = true -> filter (fun e => matches o e = true) es = [] -> spec_step es o (Code er_not_found) es
| spec_search o : is_search o = true -> filter (fun e => matches o e = true) es <> [] ->
    spec_step es o (Found (filter (fun e => matches o e = true) es)) es
| spec_no_memory o : short -> (forall e, o <> OpDelete e) -> spec_step es o (Code er_out_of_memory) es.

Definition answers w (a : answer) (o : outcome) : Prop :=
  match a, o with
  | Result r, Code r' => r = r'
  | Held l, Found es => Forall2 (at_ w) l es
  | _, _ => False
  end.
Definition held (a : answer) : list nat := match a with Held l => l | Result _ => [] end.
Definition wf_op (o : op) : Prop :=
  match o with OpCreate e | OpDelete e => wf_ref (e_id e) | OpByAddr id => wf_ref id | _ => True end.

(** Nothing leaks and nothing dangles: what is allocated belongs to the registry, to the
    answer, or was not the registry's before and has not changed. *)
Record owned w registry w' registry' (l : list nat) : Prop := {
  owned_dom : dom (heap w') = (dom (heap w) ∖ list_to_set (entries registry)) ∪ list_to_set (entries registry') ∪ list_to_set l;
  owned_keep : forall a e, at_ w a e -> a ∉ entries registry -> at_ w' a e;
  owned_new : forall a, a ∈ l -> heap w !! a = None;
}.

Lemma load_all_run l es w : Forall2 (at_ w) l es -> load_all l w = Ok (es, w).
Proof.
  induction 1 as [|a e l es Ha _ IH]; [done|]. cbn [load_all]. rewrite (ns_bind_eq _ _ _ _ _ (load_run _ _ _ Ha)).
  by rewrite (ns_bind_eq _ _ _ _ _ IH).
Qed.

Lemma save_run registry w es : Forall2 (at_ w) (entries registry) es -> exists r w',
  prx_ns_generic_registry_save registry w = Ok (r, w') /\ heap w' = heap w /\ fresh w' = fresh w /\ (file w' = file w \/ file w' = Some es).
Proof.
  intros Hes. unfold prx_ns_generic_registry_save. destruct (file_name registry); [|exists er_ok, w; auto].
  rewrite (ns_bind_eq _ _ _ _ _ (load_all_run _ _ _ Hes)). eexists _, _. split; [reflexivity|]. case_bool_decide; auto.
Qed.

Lemma find_entry_run id w : wf_ref id -> forall l es, Forall2 (at_ w) l es -> Forall (fun e => wf_ref (e_id e)) es ->
  find_entry l id w = Ok (None, w) /\ id ∉ e_id <$> es \/
  exists l1 a l2 es1 e es2, find_entry l id w = Ok (Some a, w) /\ l = l1 ++ a :: l2 /\ es = es1 ++ e :: es2 /\
    e_id e = id /\ at_ w a e /\ Forall2 (at_ w) l1 es1 /\ Forall2 (at_ w) l2 es2.
Proof.
  intros Hid. induction 1 as [|a e l es Ha Hl IH]; intros Hwf; [left; split; [done|set_solver]|].
  inversion Hwf as [|? ? He Hwf']; subst. cbn [find_entry]. rewrite (ns_bind_eq _ _ _ _ _ (load_run _ _ _ Ha)).
  destruct (ref_value_semantics (e_id e) id He Hid) as [Heq _].
  destruct (io_ref_equals (Some (e_id e)) (Some id)).
  - right. exists [], a, l, [], e, es. split_and!; try done. by apply Heq.
  - destruct (IH Hwf') as [[E Hn]|(l1 & b & l2 & es1 & e' & es2 & E & -> & -> & H1 & H2 & H3 & H4)].
    + left. split; [done|]. cbn. apply not_elem_of_cons. split; [|done]. intros ->. by discriminate (proj2 Heq eq_refl).
    + right. exists (a :: l1), b, l2, (e :: es1), e', es2. split_and!; try done. by constructor.
Qed.

Lemma repr_grown w w' registry es l fs : repr w registry es -> grown w w' l fs -> repr w' registry es.
Proof.
  intros [H1 H2 H3 H4 H5 H6] G. split; try done; [by eapply grown_ok|]. eapply Forall2_impl; [exact H4|].
  intros a e. by apply (grown_stays _ _ _ _ _ _ G).
Qed.
Lemma repr_dom w registry es a : repr w registry es -> a ∈ entries registry -> a ∈ dom (heap w).
Proof.
  intros R Ha. apply list_elem_of_lookup in Ha as (i & Hi).
  destruct (Forall2_lookup_l _ _ _ _ _ (repr_at _ _ _ R) Hi) as (e & _ & He). apply elem_of_dom. by exists e.
Qed.
Lemma owned_grown w w' registry es l fs : repr w registry es -> grown w w' l fs -> owned w registry w' registry l.
Proof.
  intros R G. split.
  - rewrite (grown_dom _ _ _ _ G). apply set_eq. intros a. pose proof (repr_dom _ _ _ a R) as Ha.
    destruct (decide (a ∈ entries registry)); set_solver.
  - intros a e Ha _. eapply grown_stays; [exact G|apply (repr_heap _ _ _ R)|exact Ha].
  - intros a Ha. apply (grown_new _ _ _ _ G) in Ha. apply (repr_heap _ _ _ R). lia.
Qed.

Lemma search_run p l es : forall w r0 set, Forall2 (at_ w) l es -> Forall (fun e => wf_ref (e_id e)) es -> heap_ok w ->
  exists r set' w' new fs, search p l r0 set w = Ok ((r, set'), w') /\ head set' = head set ++ new /\ grown w w' new fs /\
    (r = er_out_of_memory /\ short \/
     fs = filter (fun e => p e = true) es /\ r = (if bool_decide (fs = []) then r0 else er_ok)).
Proof.
  intros w r0 set Hl. revert w r0 set Hl.
  induction l as [|a l IH] in es |- *; intros w r0 set Hl Hwf Hw; inversion Hl as [|? e ? es' Ha Hl' E1 E2]; subst; cbn [search].
  { exists r0, set, w, [], []. split_and!; [done|by rewrite app_nil_r|by apply grown_none|by right]. }
  inversion Hwf as [|? ? He Hwf']; subst. rewrite (ns_bind_eq _ _ _ _ _ (load_run _ _ _ Ha)).
  rewrite filter_cons. destruct (p e) eqn:Ep; cbn [negb].
  2: { rewrite decide_False by done. by apply IH. }
  rewrite decide_True by done. destruct (entry_clone_run a e w He Hw Ha) as (w1 & [[E G]|(E & Hs & G)]); rewrite (ns_bind_eq _ _ _ _ _ E).
  2: { exists er_out_of_memory, set, w1, [], []. split_and!; [done|by rewrite app_nil_r|done|by left]. }
  destruct (IH es' w1 er_ok (prx_ns_generic_resultset_add set (fresh w))) as (r & set' & w' & new & fs & E' & Hs & G' & H).
  { eapply Forall2_impl; [exact Hl'|]. intros b x. by apply (grown_stays _ _ _ _ _ _ G). }
  { done. }
  { by eapply grown_ok. }
  exists r, set', w', (fresh w :: new), (e :: fs). split_and!.
  - exact E'.
  - rewrite Hs. cbn. by rewrite <- app_assoc.
  - apply (grown_trans _ _ _ [fresh w] [e] _ _ Hw G G').
  - destruct H as [H|[-> H]]; [by left|right]. split; [done|]. rewrite bool_decide_eq_false_2 by done. by case_bool_decide.
Qed.

Definition step_ok registry w es (o : op) : Prop := exists ans registry' w' out es',
  run o registry w = Ok ((ans, registry'), w') /\ spec_step es o out es' /\ repr w' registry' es' /\ answers w' ans out /\
  owned w registry w' registry' (held ans).

(** The registry is as before, and the answer is new. *)
Lemma step_grown registry w es o ans w' out fs : repr w registry es -> run o registry w = Ok ((ans, registry), w') ->
  spec_step es o out es -> grown w w' (held ans) fs -> answers w' ans out -> step_ok registry w es o.
Proof. intros R E S G A. exists ans, registry, w', out, es. split_and!; try done; [by eapply repr_grown|by eapply owned_grown]. Qed.

Lemma free_set_run w w' l fs : heap_ok w -> grown w w' l fs -> exists w2, free_all l w' = Ok (tt, w2) /\ grown w w2 [] [].
Proof.
  intros Hw G. destruct (free_all_run l w' (grown_nodup _ _ _ _ G)) as (h & E & Hh).
  { intros a Ha. apply elem_of_dom. rewrite (grown_dom _ _ _ _ G). set_solver. }
  eexists. split; [exact E|]. apply grown_none; cbn; [|apply (grown_fresh _ _ _ _ G)|apply (grown_file _ _ _ _ G)].
  apply map_eq. intros a. rewrite Hh. case_decide as Ha; [|by apply (grown_keep _ _ _ _ G)].
  apply (grown_new _ _ _ _ G) in Ha. symmetry. apply Hw. lia.
Qed.

Lemma search_entries_run registry w es p : repr w registry es -> exists r w',
  search_entries registry p w = Ok (r, w') /\
  match r with
  | inr e => grown w w' [] [] /\ (e = er_out_of_memory /\ short \/ e = er_not_found /\ filter (fun e => p e = true) es = [])
  | inl set => grown w w' (head set) (filter (fun e => p e = true) es) /\ filter (fun e => p e = true) es <> []
  end.
Proof.
  intros R. pose proof (repr_heap _ _ _ R) as Hw. unfold search_entries, prx_ns_generic_resultset_create.
  set (w1 := with_allocs w (S (allocs w))). assert (G1 : grown w w1 [] []) by by apply grown_none.
  assert (E1 : (ok ← alloc; mret (if (ok : bool) then Some (Resultset [] 0) else None)) w = Ok (if mem (allocs w) then Some (Resultset [] 0) else None, w1)) by done.
  rewrite (ns_bind_eq _ _ _ _ _ E1). clear E1.
  destruct (mem (allocs w)) eqn:Em; [|eexists _, _; split; [reflexivity|]; split; [done|left; by split; [|exists (allocs w)]]].
  destruct (search_run p (entries registry) es w1 er_not_found (Resultset [] 0)) as (r & set & w2 & new & fs & E & Hs & G2 & H).
  { apply (repr_at _ _ _ R). } { apply (repr_wf _ _ _ R). } { done. }
  rewrite (ns_bind_eq _ _ _ _ _ E). cbn in Hs. subst new. pose proof (grown_trans _ _ _ _ _ _ _ Hw G1 G2) as G. cbn [app] in G.
  destruct (decide (r = er_ok)) as [Hr|Hr].
  - rewrite (bool_decide_eq_true_2 (r = er_ok)) by done. subst r. destruct H as [[H _]|[-> H]]; [done|]. eexists _, _. split; [reflexivity|]. split; [done|]. intros Hn. by rewrite Hn in H.
  - rewrite (bool_decide_eq_false_2 (r = er_ok)) by done. destruct (free_set_run _ _ _ _ Hw G) as (w3 & E3 & G3). rewrite (ns_bind_eq _ _ _ _ _ E3). eexists _, _. split; [reflexivity|].
    split; [done|]. destruct H as [H|[-> H]]; [by left|right]. case_bool_decide as Hf; [done|]. by subst r.
Qed.

Lemma search_step registry w es o p : repr w registry es -> is_search o = true -> (forall e, p e = matches o e) ->
  run o registry = (r ← search_entries registry p; mret (of_search registry r)) -> step_ok registry w es o.
Proof.
  intros R Ho Hp Hrun. assert (Hf : filter (fun e => p e = true) es = filter (fun e => matches o e = true) es).
  { apply list_filter_iff. intros e. by rewrite Hp. }
  destruct (search_entries_run registry w es p R) as (r & w' & E & H). rewrite Hf in H.
  assert (E' : run o registry w = Ok (of_search registry r, w')) by (rewrite Hrun; by rewrite (ns_bind_eq _ _ _ _ _ E)).
  destruct r as [set|e].
  - destruct H as [G Hne]. eapply step_grown; [done|exact E'|by apply spec_search|exact G|]. apply (grown_at _ _ _ _ G).
  - destruct H as [G H]. eapply step_grown; [done|exact E'| |exact G|]; [|by instantiate (1 := Code e)].
    destruct H as [[-> Hs]|[-> H]]; [by apply spec_no_memory; [|destruct o]|by apply spec_no_match].
Qed.

(** Only an error code comes back. *)
Lemma step_code registry w es o r w' : repr w registry es -> run o registry w = Ok ((Result r, registry), w') ->
  spec_step es o (Code r) es -> grown w w' [] [] -> step_ok registry w es o.
Proof. intros R E S G. by eapply (step_grown _ _ _ _ (Result r)). Qed.

Lemma by_addr_step registry w es id : repr w registry es -> wf_ref id -> step_ok registry w es (OpByAddr id).
Proof.
  intros R Hid. pose proof (repr_heap _ _ _ R) as Hw.
  assert (Hrun : forall r w', prx_ns_generic_registry_entry_by_addr registry id w = Ok (r, w') ->
            run (OpByAddr id) registry w = Ok ((match r with inl a => Held [a] | inr e => Result e end, registry), w')).
  { intros r w' E. cbn [run]. by rewrite (ns_bind_eq _ _ _ _ _ E). }
  unfold prx_ns_generic_registry_entry_by_addr in Hrun.
  destruct (find_entry_run id w Hid _ _ (repr_at _ _ _ R) (repr_wf _ _ _ R)) as [[E Hn]|H].
  - rewrite (ns_bind_eq _ _ _ _ _ E) in Hrun. eapply step_code; [done|exact (Hrun _ _ eq_refl)|by apply spec_unknown|by apply grown_none].
  - destruct H as (l1 & a & l2 & es1 & e & es2 & E & _ & Hes & <- & Ha & _). rewrite (ns_bind_eq _ _ _ _ _ E) in Hrun.
    destruct (entry_clone_run a e w Hid Hw Ha) as (w' & [[E' G]|(E' & Hs & G)]); apply Hrun in E'.
    + eapply step_grown; [done|exact E'|apply spec_known; set_solver|exact G|apply (grown_at _ _ _ _ G)].
    + eapply step_code; [done|exact E'|by apply spec_no_memory|exact G].
Qed.

(** A new entry at the end of the list. *)
Lemma repr_add registry w w' es a e : repr w registry es -> e_id e ∉ e_id <$> es -> wf_ref (e_id e) -> grown w w' [a] [e] ->
  let registry' := Registry (file_name registry) (entries registry ++ [a]) (num_entries registry + 1) in
  repr w' registry' (es ++ [e]) /\ owned w registry w' registry' [].
Proof.
  intros R Hid Hwf G registry'. pose proof (owned_grown _ _ _ _ _ _ R G) as [O1 O2 O3]. pose proof (repr_dom _ _ _ a R) as Ha.
  rewrite elem_of_dom, O3 in Ha by set_solver. pose proof (repr_grown _ _ _ _ _ _ R G) as [R1 R2 R3 R4 R5 R6]. split.
  - split; cbn; [done| | | | |].
    + apply NoDup_app. split_and!; [done| |apply NoDup_singleton]. intros x Hx ->%list_elem_of_singleton. by destruct (Ha Hx).
    + rewrite zlen_app, R3. done.
    + apply Forall2_app; [done|apply (grown_at _ _ _ _ G)].
    + rewrite fmap_app. apply NoDup_app. split_and!; [done| |apply NoDup_singleton]. intros x Hx ->%list_elem_of_singleton. done.
    + apply Forall_app. split; [done|]. by constructor.
  - split; [rewrite O1; cbn; set_solver|done|set_solver].
Qed.

(** Worlds with the same heap. *)
Lemma repr_same registry w w' es : heap w' = heap w -> fresh w' = fresh w -> repr w registry es -> repr w' registry es.
Proof.
  intros H1 H2 [R1 R2 R3 R4 R5 R6]. split; try done.
  - intros a Ha. rewrite H1. apply R1. by rewrite <- H2.
  - eapply Forall2_impl; [exact R4|]. intros a e. unfold at_. by rewrite H1.
Qed.
Lemma owned_same registry registry' w w1 w2 l : heap w2 = heap w1 -> owned w registry w1 registry' l -> owned w registry w2 registry' l.
Proof. intros H [O1 O2 O3]. split; [by rewrite H|unfold at_; by rewrite H|done]. Qed.

Lemma create_step registry w es entry : repr w registry es -> wf_ref (e_id entry) -> step_ok registry w es (OpCreate entry).
Proof.
  intros R Hid. pose proof (repr_heap _ _ _ R) as Hw.
  assert (Hrun : forall r registry' w', prx_ns_generic_registry_entry_create registry (generic_itf entry) w = Ok ((r, registry'), w') ->
            run (OpCreate entry) registry w = Ok ((Result r, registry'), w')).
  { intros r registry' w' E. cbn [run]. by rewrite (ns_bind_eq _ _ _ _ _ E). }
  unfold prx_ns_generic_registry_entry_create in Hrun.
  cbn [generic_itf prx_ns_entry_get_addr prx_ns_entry_get_cs prx_ns_entry_get_type prx_ns_entry_get_name prx_ns_entry_get_version] in Hrun.
  rewrite ref_copy in Hrun by done.
  destruct (find_entry_run _ w Hid _ _ (repr_at _ _ _ R) (repr_wf _ _ _ R)) as [[E Hn]|H].
  2: { destruct H as (l1 & a & l2 & es1 & e & es2 & E & _ & -> & He & _). rewrite (ns_bind_eq _ _ _ _ _ E) in Hrun.
       eapply step_code; [done|by apply Hrun|apply spec_exists; rewrite <- He; set_solver|by apply grown_none]. }
  rewrite (ns_bind_eq _ _ _ _ _ E) in Hrun. destruct (e_cs entry) as [cs|] eqn:Ecs.
  2: { assert (Ec : clone_cs None w = Ok (inr er_fault, w)) by by destruct w.
       rewrite (ns_bind_eq _ _ _ _ _ Ec) in Hrun. eapply step_code; [done|by apply Hrun|by apply spec_no_cs|by apply grown_none]. }
  destruct (clone_cs_run cs w) as (w1 & (H1 & H2 & H3) & [Ec|[Ec Hs]]); rewrite (ns_bind_eq _ _ _ _ _ Ec) in Hrun.
  all: assert (G1 : grown w w1 [] []) by (apply grown_none; rewrite ?H2; done).
  2: { eapply step_code; [done|by apply Hrun|by apply spec_no_memory|exact G1]. }
  destruct (entry_create_run (local_type (e_type entry)) (e_id entry) (prx_ns_generic_entry_get_name entry) (e_version entry) (Some cs) w1 Hid)
    as (w2 & [[En G2]|(En & Hs & G2)]); [by eapply grown_ok| |]; rewrite (ns_bind_eq _ _ _ _ _ En) in Hrun; pose proof (grown_trans _ _ _ _ _ _ _ Hw G1 G2) as G.
  2: { eapply step_code; [done|by apply Hrun|by apply spec_no_memory|exact G]. }
  cbn [app] in G. rewrite <- Ecs in G. fold (created entry) in G.
  destruct (repr_add registry w w2 es (fresh w1) (created entry) R Hn Hid G) as [R' O']. cbv zeta in Hrun. set (registry' := Registry _ _ _) in *.
  destruct (save_run registry' w2 _ (repr_at _ _ _ R')) as (rs & w3 & Es & S1 & S2 & S3). rewrite (ns_bind_eq _ _ _ _ _ Es) in Hrun.
  exists (Result er_ok), registry', w3, (Code er_ok), (es ++ [created entry]).
  split_and!; [by apply Hrun|by apply spec_create; [|exists cs]|by eapply repr_same|done|by eapply owned_same].
Qed.

Lemma remove_not_in l a : a ∉ l -> remove_entry l a = l.
Proof.
  unfold remove_entry. induction l as [|x l IH]; intros Ha; [done|]. rewrite filter_cons_True, IH by set_solver. done.
Qed.
Lemma remove_middle l1 a l2 : NoDup (l1 ++ a :: l2) -> remove_entry (l1 ++ a :: l2) a = l1 ++ l2.
Proof.
  intros Hnd. apply NoDup_app in Hnd as (_ & H1 & H2). apply NoDup_cons in H2 as [H2 _]. unfold remove_entry.
  rewrite filter_app, filter_cons_False by tauto. fold (remove_entry l1 a) (remove_entry l2 a).
  rewrite !remove_not_in; [done|done|]. intros Ha. apply (H1 a Ha). set_solver.
Qed.
Lemma nodup_middle {A} (k1 : list A) x k2 : NoDup (k1 ++ x :: k2) -> NoDup (k1 ++ k2).
Proof.
  intros Hnd. apply NoDup_app in Hnd as (H1 & H2 & H3). apply NoDup_cons in H3 as [_ H3]. apply NoDup_app.
  split_and!; [done| |done]. intros y Hy. specialize (H2 y Hy). set_solver.
Qed.

(** An entry is taken off the list and freed. *)
Lemma repr_remove w registry l1 a l2 es1 e es2 : repr w registry (es1 ++ e :: es2) -> entries registry = l1 ++ a :: l2 ->
  Forall2 (at_ w) l1 es1 -> Forall2 (at_ w) l2 es2 -> forall w', heap w' = delete a (heap w) -> fresh w' = fresh w ->
  let registry' := Registry (file_name registry) (l1 ++ l2) (num_entries registry - 1) in
  repr w' registry' (es1 ++ es2) /\ owned w registry w' registry' [].
Proof.
  intros R El F1 F2 w' Hh Hf registry'. pose proof (repr_dom _ _ _ a R) as Hdom. pose proof (fun x => repr_dom _ _ _ x R) as Hall.
  destruct R as [R1 R2 R3 R4 R5 R6]. rewrite El in *. pose proof R2 as (N1 & N2 & [N3 N4]%NoDup_cons)%NoDup_app.
  assert (Hkeep : forall x y, x <> a -> at_ w x y -> at_ w' x y). { intros x y Hx Hy. unfold at_. by rewrite Hh, lookup_delete_ne. }
  split.
  - split; cbn.
    + intros x Hx. rewrite Hh. rewrite Hf in Hx. destruct (decide (x = a)) as [->|Hne]; [apply lookup_delete_eq|].
      rewrite lookup_delete_ne by done. by apply R1.
    + by eapply nodup_middle.
    + rewrite R3, !zlen_app, zlen_cons. lia.
    + apply Forall2_app; (eapply Forall2_keep; [done|]); intros x y Hx; apply Hkeep; intros ->; [|done].
      apply (N2 a Hx). set_solver.
    + rewrite fmap_app, fmap_cons in R5. rewrite fmap_app. by eapply nodup_middle.
    + apply Forall_app in R6 as [R6 R7]. inversion R7; subst. by apply Forall_app.
  - split; cbn.
    + rewrite Hh, dom_delete_L. apply set_eq. intros x. specialize (Hall x). specialize (N2 x).
      rewrite El. destruct (decide (x ∈ l1)), (decide (x ∈ l2)), (decide (x = a)); set_solver.
    + intros x y Hx Hn. apply Hkeep; [|done]. intros ->. apply Hn. rewrite El. set_solver.
    + set_solver.
Qed.

Lemma delete_step registry w es entry : repr w registry es -> wf_ref (e_id entry) -> step_ok registry w es (OpDelete entry).
Proof.
  intros R Hid.
  assert (Hrun : forall r registry' h w', prx_ns_generic_registry_entry_delete registry (generic_itf entry) w = Ok ((r, registry', h), w') ->
            run (OpDelete entry) registry w = Ok ((Result r, registry'), w')).
  { intros r registry' h w' E. cbn [run]. by rewrite (ns_bind_eq _ _ _ _ _ E). }
  unfold prx_ns_generic_registry_entry_delete in Hrun. cbn [generic_itf prx_ns_entry_get_addr] in Hrun. rewrite ref_copy in Hrun by done.
  destruct (find_entry_run _ w Hid _ _ (repr_at _ _ _ R) (repr_wf _ _ _ R)) as [[E Hn]|H]; [rewrite (ns_bind_eq _ _ _ _ _ E) in Hrun|].
  { eapply step_code; [done|by eapply Hrun|by apply spec_not_there|by apply grown_none]. }
  destruct H as (l1 & a & l2 & es1 & e & es2 & E & El & -> & He & Ha & F1 & F2). rewrite (ns_bind_eq _ _ _ _ _ E) in Hrun.
  rewrite El, remove_middle in Hrun by (rewrite <- El; apply (repr_nodup _ _ _ R)). cbv zeta in Hrun. set (registry' := Registry _ _ _) in Hrun.
  destruct (save_run registry' w (es1 ++ es2)) as (rs & w1 & Es & S1 & S2 & S3); [by apply Forall2_app|]. rewrite (ns_bind_eq _ _ _ _ _ Es) in Hrun.
  assert (Ha1 : at_ w1 a e) by (unfold at_; by rewrite S1). rewrite (ns_bind_eq _ _ _ _ _ (load_run _ _ _ Ha1)), (ns_bind_eq _ _ _ _ _ (free_run _ _ _ Ha1)) in Hrun.
  destruct (repr_remove w registry l1 a l2 es1 e es2 R El F1 F2 (with_heap w1 (delete a (heap w1)))) as [R' O']; [cbn; by rewrite S1|done|].
  exists (Result er_ok), registry'. eexists _, (Code er_ok), (es1 ++ es2).
  split_and!; [by eapply Hrun|by eapply spec_delete|exact R'|done|exact O'].
Qed.


(** ** Updating an entry *)

Lemma load_all_freed l a w : a ∈ l -> heap w !! a = None -> load_all l w = UB.
Proof.
  intros Ha Hn. induction l as [|x l IH]; [set_solver|]. cbn [load_all]. unfold load, mbind, M_bind.
  destruct (heap w !! x) eqn:Ex; [|done]. cbn. rewrite IH; [done|]. set_solver.
Qed.
(** A search reads the entries up to the one it is for. *)
Lemma find_freed id a w l es : wf_ref id -> Forall2 (at_ w) l es -> Forall (fun e => wf_ref (e_id e)) es -> id ∉ e_id <$> es ->
  heap w !! a = None -> find_entry (l ++ [a]) id w = UB.
Proof.
  intros Hid Hl. induction Hl as [|x e l es Hx Hl IH]; intros Hwf Hn Ha; cbn [find_entry app].
  { unfold load, mbind, M_bind. by rewrite Ha. }
  rewrite (ns_bind_eq _ _ _ _ _ (load_run _ _ _ Hx)). inversion Hwf as [|? ? He Hwf']; subst.
  destruct (ref_value_semantics (e_id e) id He Hid) as [Heq _]. destruct (io_ref_equals _ _).
  - destruct Hn. rewrite <- (proj1 Heq eq_refl). set_solver.
  - apply IH; [done|set_solver|done].
Qed.
Lemma clone_cs_none w : clone_cs None w = Ok (inr er_fault, w).
Proof. by destruct w. Qed.

(** What is left when an update succeeds. *)
Lemma update_success registry w es entry registry' w' : repr w registry es -> wf_ref (e_id entry) ->
  prx_ns_generic_registry_entry_update registry (generic_itf entry) w = Ok ((er_ok, registry'), w') ->
  exists l1 a l2 es1 e es2 w2 b x, entries registry = l1 ++ a :: l2 /\ es = es1 ++ e :: es2 /\ e_id e = e_id entry /\
    Forall2 (at_ w) l1 es1 /\ Forall2 (at_ w) l2 es2 /\ grown w w2 [b] [x] /\ file_name registry = None /\
    w' = with_heap w2 (delete a (heap w2)) /\ entries registry' = (l1 ++ l2) ++ [a].
Proof.
  intros R Hid E. pose proof (repr_heap _ _ _ R) as Hw. unfold prx_ns_generic_registry_entry_update in E.
  cbn [generic_itf prx_ns_entry_get_addr prx_ns_entry_get_cs prx_ns_entry_get_type prx_ns_entry_get_name prx_ns_entry_get_version] in E.
  rewrite ref_copy in E by done.
  destruct (find_entry_run _ w Hid _ _ (repr_at _ _ _ R) (repr_wf _ _ _ R)) as [[Ef Hn]|H]; [by rewrite (ns_bind_eq _ _ _ _ _ Ef) in E|].
  destruct H as (l1 & a & l2 & es1 & e & es2 & Ef & El & -> & He & Ha & F1 & F2). rewrite (ns_bind_eq _ _ _ _ _ Ef) in E.
  destruct (e_cs entry) as [cs|]; [|by rewrite (ns_bind_eq _ _ _ _ _ (clone_cs_none w)) in E].
  destruct (clone_cs_run cs w) as (w1 & (H1 & H2 & H3) & [Ec|[Ec Hs]]); rewrite (ns_bind_eq _ _ _ _ _ Ec) in E; [|done].
  assert (G1 : grown w w1 [] []) by (apply grown_none; rewrite ?H2; done).
  destruct (entry_create_run (e_type entry) (e_id entry) (prx_ns_generic_entry_get_name entry) (e_version entry) (Some cs) w1 Hid)
    as (w2 & [[En G2]|(En & Hs & G2)]); [by eapply grown_ok| |]; rewrite (ns_bind_eq _ _ _ _ _ En) in E; [|done].
  pose proof (grown_trans _ _ _ _ _ _ _ Hw G1 G2) as G. cbn [app] in G.
  pose proof (repr_nodup _ _ _ R) as Hnd. rewrite El in Hnd. rewrite El, remove_middle in E by done. cbv zeta in E.
  set (reg := Registry _ _ _) in E. pose proof (grown_stays _ _ _ _ _ _ G Hw Ha) as Ha2.
  rewrite (ns_bind_eq _ _ _ _ _ (free_run _ _ _ Ha2)) in E. set (w3 := with_heap _ _) in E.
  unfold prx_ns_generic_registry_save in E. cbn [file_name reg] in E. destruct (file_name registry) as [fn|] eqn:Efn.
  { exfalso. unfold mbind, M_bind in E. cbn [entries reg] in E. rewrite (load_all_freed _ a w3) in E; [done|set_solver|apply lookup_delete_eq]. }
  injection E as <- <-. eexists l1, a, l2, es1, e, es2, w2, _, _. split_and!; done.
Qed.

End Ns.

(** ** Entries from a name *)

Section EntryCreate.
Variables (mem : nat -> bool) (pal_rand_fill : nat -> Z -> res bytes).
(** The arguments of [io_cs_create]: no key is imported here. *)
Variables (cred_caps policy_import : bool) (pal_cred_import : bytes -> bytes -> bool -> bytes + prx_error)
  (Base64_Decoder : bytes -> option bytes) (SASToken_Validate : bytes -> bool).

Definition create_cs (host_name id : option bytes) : M (io_cs + prx_error) := fun w =>
  '(r, n) ← io_cs_create mem cred_caps policy_import pal_cred_import Base64_Decoder SASToken_Validate
              host_name id None None (allocs w);
  Ok (r, with_allocs w n).

Definition prx_ns_entry_create (type : Z) (id name : option bytes) (version : Z) : M (nat + prx_error) :=
  match name with
  | None => mret (inr er_fault)
  | Some name =>
      r ← create_cs (Some (str "proxy.localhost")) id;
      match r with
      | inr e => mret (inr e)
      | inl cs => prx_ns_generic_entry_create mem pal_rand_fill type None (Some name) version (Some cs)
      end
  end.
End EntryCreate.

(** ** A registry with two entries *)

Definition cs1 : io_cs := set_entry empty_cs io_cs_entry_device_id (Some (str "dev")).
Definition entry1 : generic_entry := Entry (Some (str "One")) (zeros 15 ++ [1]) (Some cs1) 2 7.
Definition entry2 : generic_entry := Entry None (zeros 15 ++ [2]) (Some cs1) 1 0.
Definition world1 : world := World (<[0%nat := entry1]> (<[1%nat := entry2]> ∅)) 2 0 None.
Definition registry1 : generic_registry := Registry None [0%nat; 1%nat] 2.

Lemma repr1 : repr world1 registry1 [entry1; entry2].
Proof.
  split.
  - intros a Ha. cbn in Ha. unfold world1. cbn [heap]. rewrite !lookup_insert_ne by lia. done.
  - apply (bool_decide_unpack _). vm_compute. exact I.
  - reflexivity.
  - repeat constructor.
  - apply (bool_decide_unpack _). vm_compute. exact I.
  - constructor; [|constructor; [|constructor]]; (split; [by apply (bool_decide_unpack _); vm_compute|reflexivity]).
Qed.


(** A new version of the second entry. *)
Definition entry2' : generic_entry := Entry None (zeros 15 ++ [2]) (Some cs1) 1 1.
End PrxNs.
