(* ===== verification/PrxHub.v ===== *)
(** * The IoT Hub registry (src/prx_ns.c)

    The registry that keeps its entries as device twins in a hub, over REST calls, and the
    composite of several hubs.  The http library, the JSON library and the token provider
    are asked; what is modelled is what is sent, what is made of the answer, and the life
    time of the objects in between: a handle that was deleted is no longer live, and using
    it or deleting it again is undefined. *)
From Stdlib Require Import String.
From stdpp Require Import base option list numbers sets gmap.
From S2P Require Import Prelude PrxTypes UtilString UtilInt UtilKey IoCs IoRef PrxNs.
Import PrxTypes UtilString UtilInt UtilKey IoCs IoRef PrxNs.
Open Scope Z_scope.

Module PrxHub.

(** ** Status codes *)

Definition prx_ns_iot_hub_rest_status_code_to_prx_error (status_code : Z) : prx_error :=
  if bool_decide (status_code = 200 \/ status_code = 201 \/ status_code = 204) then er_ok
  else if bool_decide (status_code = 400) then er_invalid_format
  else if bool_decide (status_code = 401) then er_permission
  else if bool_decide (status_code = 403) then er_busy
  else if bool_decide (status_code = 404) then er_not_found
  else if bool_decide (status_code = 409 \/ status_code = 412) then er_already_exists
  else if bool_decide (status_code = 429) then er_retry
  else if bool_decide (status_code = 500) then er_fatal
  else if bool_decide (status_code = 503) then er_network
  else er_unknown.

(** ** The outside *)

Inductive http_type := HTTPAPI_REQUEST_GET | HTTPAPI_REQUEST_POST | HTTPAPI_REQUEST_PUT | HTTPAPI_REQUEST_DELETE | HTTPAPI_REQUEST_PATCH.

Inductive jval := jnum (n : Z) | jstr (s : bytes).

(** The JSON library: reading a document, and writing an object with members. *)
Class json_library (J : Type) := {
  json_parse_string : bytes -> option J;
  json_value_get_array : J -> option (list J);
  json_dotget_string : J -> bytes -> option bytes;
  json_dotget_number : J -> bytes -> Z;
  json_serialize : list (bytes * jval) -> bytes;
}.

(** What is sent to a hub. *)
Record request := Request {
  rq_host : option bytes;
  rq_type : http_type;
  rq_path : bytes;
  rq_if_match : option bytes;
  rq_body : option bytes;
}.
Record response := Response { rs_status : Z; rs_body : bytes; rs_continuation : option bytes }.

Definition api_version : bytes := str "?api-version=2016-11-14".
Definition continuation_key : bytes := str "x-ms-continuation".

Section Hub.
Context {J : Type} `{json_library J}.

(** A twin entry; a registry for one hub: the host name and the id of its connection
    string, and the address of the hub entry. *)
Record hub_registry := Hub { hub_host : option bytes; hub_entry : nat }.

(** The twin entries that are allocated, the library objects that are live, the next
    handle, and how often the outside was asked. *)
Record world := World {
  twins : gmap nat J;
  live : gset nat;
  next : nat;
  asked : nat;
}.
Definition M (A : Type) := world -> res (A * world).
#[export] Instance hub_ret : MRet M := fun A x w => Ok (x, w).
#[export] Instance hub_bind : MBind M := fun A B f m w => '(x, w) ← m w; f x w.

(** Whether a call that needs memory succeeds, the results of the token provider, and the
    answer of the hub, [None] without a connection. *)
Variables (mem : nat -> bool) (token : nat -> prx_error) (http : nat -> request -> option response).
(** The configured proxy. *)
Variable proxy_host : option bytes.

Definition tick (w : world) : world := World (twins w) (live w) (next w) (S (asked w)).
Definition try : M bool := fun w => Ok (mem (asked w), tick w).
(** A new object. *)
Definition new : M (option nat) := fun w =>
  if mem (asked w) then Ok (Some (next w), World (twins w) ({[next w]} ∪ live w) (S (next w)) (S (asked w)))
  else Ok (None, tick w).
(** An object is used, deleted. *)
Definition use (h : nat) : M unit := fun w => if bool_decide (h ∈ live w) then Ok (tt, w) else UB.
Definition del (h : nat) : M unit := fun w =>
  if bool_decide (h ∈ live w) then Ok (tt, World (twins w) (live w ∖ {[h]}) (next w) (asked w)) else UB.
Definition del_opt (h : option nat) : M unit := match h with Some h => del h | None => mret tt end.

(** Steps that need memory, up to the first that fails. *)
Fixpoint tries (n : nat) : M bool :=
  match n with O => mret true | S n => ok ← try; if (ok : bool) then tries n else mret false end.

Definition ask_token : M prx_error := fun w => Ok (token (asked w), tick w).
Definition ask_http (r : request) : M (option response) := fun w => Ok (http (asked w) r, tick w).

(** ** REST calls *)

(** Host and port of the proxy: the port follows a colon, 80 if there is none or 0. *)
Definition proxy_address (buffer : bytes) : bytes * Z :=
  let '(host, rest) := scan 58 buffer in
  let port := match rest with [] => 0 | _ :: p => i32 (fst (strtol 10 p)) end in
  (host, if bool_decide (port = 0) then 80 else port).

(** The proxy that is set on the connection, if any. *)
Definition prx_ns_iot_hub_rest_call_configure_proxy : M (prx_error * option (bytes * Z)) :=
  match proxy_host with
  | None => mret (er_ok, None)
  | Some ptr => ok ← try; mret (if (ok : bool) then (er_ok, Some (proxy_address ptr)) else (er_out_of_memory, None))
  end.

(** Headers a call adds to; [HTTPHeaders_AddHeaderNameValuePair]. *)
Fixpoint add_headers (h : nat) (n : nat) : M bool :=
  match n with
  | O => mret true
  | S n => use h;; ok ← try; if (ok : bool) then add_headers h n else mret false
  end.

(** The headers of the caller, or new ones: the headers, and what is to be freed. *)
Definition or_new (h : option nat) : M (option (nat * option nat)) :=
  match h with
  | Some h => mret (Some (h, None))
  | None => r ← new; mret (match r with Some h => Some (h, Some h) | None => None end)
  end.

(** The block of one attempt, from the request headers on: the result, the answer. *)
Definition rest_send (host : option bytes) (type : http_type) (if_match : option bytes) (uri : bytes) (body : option bytes)
    (req resp : nat) : M (prx_error * option response) :=
  let oom := mret (er_out_of_memory, None) in
  id ← try;
  if negb id then oom
  else
    ok ← add_headers req 4;
    if negb ok then oom
    else
      ok ← (match if_match with
            | None => mret true
            | Some _ => ok ← tries 3; if (ok : bool) then add_headers req 1 else mret false
            end);
      if negb ok then oom
      else
        ok ← tries 3;
        if negb ok then oom
        else
          '(result, proxy) ← prx_ns_iot_hub_rest_call_configure_proxy;
          if bool_decide (result <> er_ok) then mret (result, None)
          else
            use req;;
            use resp;;
            r ← ask_http (Request host type (uri ++ api_version) if_match body);
            match r with
            | None => mret (er_connecting, None)
            | Some r => mret (er_ok, Some r)
            end.

(** One attempt: what it gives, and the variables [req_headers] and [resp_headers] after
    it.  The headers it allocated are freed, the variables keep pointing to them. *)
Definition rest_attempt (host : option bytes) (type : http_type) (if_match : option bytes) (uri : bytes) (body : option bytes)
    (req_headers resp_headers : option nat) : M (prx_error * option response * option nat * option nat) :=
  result ← ask_token;
  if bool_decide (result <> er_ok) then mret (result, None, req_headers, resp_headers)
  else
    result ← ask_token;
    if bool_decide (result <> er_ok) then mret (result, None, req_headers, resp_headers)
    else
      path ← (match host with Some _ => tries 2 | None => mret false end);
      if negb path then mret (er_out_of_memory, None, req_headers, resp_headers)
      else
        rq ← or_new req_headers;
        match rq with
        | None => mret (er_out_of_memory, None, None, resp_headers)
        | Some (req, request_headers) =>
            rs ← or_new resp_headers;
            match rs with
            | None => del_opt request_headers;; mret (er_out_of_memory, None, Some req, None)
            | Some (resp, response_headers) =>
                '(result, r) ← rest_send host type if_match uri body req resp;
                del_opt request_headers;;
                del_opt response_headers;;
                mret (result, r, Some req, Some resp)
            end
        end.

Fixpoint rest_loop (retry : nat) (host : option bytes) (type : http_type) (if_match : option bytes) (uri : bytes)
    (body : option bytes) (req_headers resp_headers : option nat) (result : prx_error) (last : option response) :
    M (prx_error * option response) :=
  match retry with
  | O => mret (result, last)
  | S retry =>
      '(result, r, req_headers, resp_headers) ← rest_attempt host type if_match uri body req_headers resp_headers;
      match r with
      | Some a =>
          if bool_decide (result <> er_ok \/ rs_status a <> 429) then mret (result, r)
          else rest_loop retry host type if_match uri body req_headers resp_headers result r
      | None => mret (result, None)
      end
  end.

(** Ten attempts. *)
Definition prx_ns_iot_hub_rest_call (host : option bytes) (type : http_type) (if_match : option bytes) (uri : bytes)
    (body : option bytes) (req_headers resp_headers : option nat) : M (prx_error * option response) :=
  rest_loop 10 host type if_match uri body req_headers resp_headers er_ok None.

(** ** Twin entries *)

Definition prx_ns_iot_hub_twin_entry_get_id (twin : J) : option bytes := json_dotget_string twin (str "deviceId").
Definition prx_ns_iot_hub_twin_entry_get_name (twin : J) : option bytes := json_dotget_string twin (str "tags.name").
Definition prx_ns_iot_hub_twin_entry_get_version (twin : J) : Z := u32 (json_dotget_number twin (str "tags.version")).
Definition prx_ns_iot_hub_twin_entry_get_type (twin : J) : Z := u32 (json_dotget_number twin (str "tags.type")).
Definition prx_ns_iot_hub_twin_entry_get_addr (pal_pton : bytes -> res prx_socket_address) (twin : J) (id : io_ref) : res io_ref :=
  match json_dotget_string twin (str "tags.address") with
  | None => Err er_not_found
  | Some id_string => io_ref_from_string pal_pton (Some id_string) (Some id)
  end.

Definition prx_ns_iot_hub_twin_entry_free (entry : nat) : M unit := fun w =>
  match twins w !! entry with
  | None => UB
  | Some _ => Ok (tt, World (delete entry (twins w)) (live w) (next w) (asked w))
  end.

(** The entry and its copy of the twin. *)
Definition prx_ns_iot_hub_twin_entry_create (twin : J) : M (nat + prx_error) :=
  ok ← tries 2;
  if negb ok then mret (inr er_out_of_memory)
  else fun w => Ok (inl (next w), World (<[next w := twin]> (twins w)) (live w) (S (next w)) (asked w)).

Definition prx_ns_iot_hub_twin_entry_clone (orig : nat) : M (nat + prx_error) := fun w =>
  match twins w !! orig with None => UB | Some twin => prx_ns_iot_hub_twin_entry_create twin w end.

Fixpoint free_twins (l : list nat) : M unit :=
  match l with [] => mret tt | x :: l => prx_ns_iot_hub_twin_entry_free x;; free_twins l end.

(** ** Changing a hub *)

(** The entry as its clients see it: type, address, name, id and version. *)
Record client_entry := Client {
  c_type : Z;
  c_addr : io_ref + prx_error;
  c_name : option bytes;
  c_id : option bytes;
  c_version : Z;
}.

(** [STRING_concat] fails without a string. *)
Definition uri_of (prefix : bytes) (id : option bytes) : M (option bytes) :=
  ok ← try;
  match id with
  | None => mret None
  | Some id => if negb ok then mret None else ok ← try; mret (if (ok : bool) then Some (prefix ++ id) else None)
  end.

Definition of_status (r : prx_error * option response) : prx_error :=
  match r with
  | (er_ok, Some a) => prx_ns_iot_hub_rest_status_code_to_prx_error (rs_status a)
  | (e, _) => e
  end.

Definition prx_ns_iot_hub_registry_entry_delete (registry : hub_registry) (entry : client_entry) : M prx_error :=
  uri ← uri_of (str "/devices/") (c_id entry);
  match uri with
  | None => mret er_out_of_memory
  | Some uri =>
      r ← prx_ns_iot_hub_rest_call (hub_host registry) HTTPAPI_REQUEST_DELETE (Some (str "*")) uri None None None;
      mret (of_status r)
  end.

(** The members the document of an update has before the address, after it. *)
Definition bit (type flag : Z) : bool := bool_decide (Z.land type flag <> 0).
Definition type_members (type : Z) : list (bytes * jval) :=
  [(str "tags.type", jnum (Z.land type (Z.lnot prx_ns_entry_type_startup)))] ++
  (if bit type prx_ns_entry_type_proxy then [(str "tags.proxy", jnum 1)] else []) ++
  (if bit type prx_ns_entry_type_host then [(str "tags.host", jnum 1)] else []) ++
  (if bit type prx_ns_entry_type_link then [(str "tags.link", jnum 1)] else []).
Definition name_members (entry : client_entry) (address : bytes) : list (bytes * jval) :=
  [(str "tags.address", jstr address)] ++
  (match c_name entry with Some name => [(str "tags.name", jstr name)] | None => [] end) ++
  (if bool_decide (c_version entry <> 0) then [(str "tags.version", jnum (c_version entry))] else []).

(** The text of an address, [io_ref_to_STRING]. *)
Definition address_text (id : io_ref) : bytes := match io_ref_to_string (Some id) 64 with Ok s => s | _ => [] end.

(** Every step that fails leaves the block with the result at that point: [er_out_of_memory]
    before the address was asked for, [er_ok] after it. *)
Definition prx_ns_iot_hub_registry_entry_update (registry : hub_registry) (entry : client_entry) : M prx_error :=
  ok ← try;
  if negb ok then mret er_out_of_memory
  else
    uri ← uri_of (str "/twins/") (c_id entry);
    match uri with
    | None => mret er_out_of_memory
    | Some uri =>
        ok ← tries (2 + length (type_members (c_type entry)));
        if negb ok then mret er_out_of_memory
        else
          match c_addr entry with
          | inr e => mret e
          | inl id =>
              let members := name_members entry (address_text id) in
              ok ← tries (1 + length members + 2);
              if negb ok then mret er_ok
              else
                r ← prx_ns_iot_hub_rest_call (hub_host registry) HTTPAPI_REQUEST_PATCH (Some (str "*")) uri
                      (Some (json_serialize (type_members (c_type entry) ++ members))) None None;
                mret (of_status r)
          end
    end.

Definition prx_ns_iot_hub_registry_entry_create (registry : hub_registry) (entry : client_entry) : M prx_error :=
  ok ← try;
  if negb ok then mret er_out_of_memory
  else
    uri ← uri_of (str "/devices/") (c_id entry);
    match uri, c_id entry with
    | Some uri, Some id =>
        ok ← tries 5;
        if negb ok then mret er_out_of_memory
        else
          r ← prx_ns_iot_hub_rest_call (hub_host registry) HTTPAPI_REQUEST_PUT None uri
                (Some (json_serialize [(str "deviceId", jstr id)])) None None;
          let result := of_status r in
          if bool_decide (result <> er_ok /\ result <> er_already_exists) then mret result
          else prx_ns_iot_hub_registry_entry_update registry entry
    | _, _ => mret er_out_of_memory
    end.

(** ** Queries *)

(** The twins of one page: those before a failure are in the list. *)
Fixpoint add_twins (l : list J) (result : prx_error) (list : resultset) : M (prx_error * resultset) :=
  match l with
  | [] => mret (result, list)
  | t :: l =>
      r ← prx_ns_iot_hub_twin_entry_create t;
      match r with
      | inr e => mret (e, list)
      | inl a => add_twins l er_ok (prx_ns_generic_resultset_add list a)
      end
  end.

(** The handles of the query that stay from page to page. *)
Record handles := Handles {
  h_request_headers : option nat;
  h_response_headers : option nat;
  h_query_spec : option nat;
  h_request : option nat;
  h_response : option nat;
  h_json : option nat;
}.
Definition no_handles : handles := Handles None None None None None None.

(** The continuation token and the headers it is in. *)
Definition token_of (headers : nat) (r : response) : option (nat * bytes) := (fun v => (headers, v)) <$> rs_continuation r.

(** The answer of a page: the result, the list, the token (the old one unless the end of
    the block is reached), and the JSON document if one was parsed. *)
Definition page_answer (response_headers response : nat) (r : PrxHub.response) (list : resultset)
    (continuation : option (nat * bytes)) (json : option nat) : M (prx_error * resultset * option (nat * bytes) * option nat) :=
  use response;;
  ok ← try;
  if negb ok then mret (er_out_of_memory, list, continuation, json)
  else
    let result := prx_ns_iot_hub_rest_status_code_to_prx_error (rs_status r) in
    if bool_decide (result <> er_ok) then mret (result, list, continuation, json)
    else
      match json_parse_string (rs_body r) with
      | None => mret (er_invalid_format, list, continuation, None)
      | Some doc =>
          j ← new;
          match j with
          | None => mret (er_invalid_format, list, continuation, None)
          | Some j =>
              match json_value_get_array doc with
              | None => mret (er_invalid_format, list, continuation, Some j)
              | Some a =>
                  '(result, list) ← add_twins a er_not_found list;
                  use response_headers;;
                  mret (result, list, token_of response_headers r, Some j)
              end
          end
      end.

(** The query as a JSON document, with the 0 at its end. *)
Definition query_document (query_string : bytes) : bytes :=
  [123; 34] ++ str "query" ++ [34; 58; 32; 34] ++ query_string ++ [34; 32; 125; 0].

(** The block of one page. *)
Definition query_page (registry : hub_registry) (query_string : bytes) (hs : handles) (list : resultset)
    (continuation : option (nat * bytes)) : M (prx_error * resultset * option (nat * bytes) * handles) :=
  rq ← new;
  rs ← new;
  let hs := Handles rq rs (h_query_spec hs) (h_request hs) (h_response hs) (h_json hs) in
  match rq, rs with
  | Some rq, Some rs =>
      spec ← new;
      let hs := Handles (Some rq) (Some rs) spec (h_request hs) (h_response hs) (h_json hs) in
      ok ← (match spec with Some _ => tries 2 | None => mret false end);
      if negb ok then mret (er_out_of_memory, list, continuation, hs)
      else
        ok ← (match continuation with Some (owner, _) => use owner;; add_headers rq 1 | None => mret true end);
        if negb ok then mret (er_out_of_memory, list, continuation, hs)
        else
          request ← new;
          let hs := Handles (Some rq) (Some rs) spec request (h_response hs) (h_json hs) in
          ok ← (match request with Some _ => try | None => mret false end);
          if negb ok then mret (er_out_of_memory, list, continuation, hs)
          else
            response ← new;
            let hs := Handles (Some rq) (Some rs) spec request response (h_json hs) in
            match response with
            | None => mret (er_out_of_memory, list, continuation, hs)
            | Some response =>
                r ← prx_ns_iot_hub_rest_call (hub_host registry) HTTPAPI_REQUEST_POST None (str "/devices/query")
                      (Some (query_document query_string)) (Some rq) (Some rs);
                match r with
                | (er_ok, Some a) =>
                    '(result, list, continuation, json) ← page_answer rs response a list continuation (h_json hs);
                    mret (result, list, continuation, Handles (Some rq) (Some rs) spec request (Some response) json)
                | (e, _) => mret (e, list, continuation, hs)
                end
            end
  | _, _ => mret (er_out_of_memory, list, continuation, hs)
  end.

(** The handles are freed and keep their values. *)
Definition free_handles (hs : handles) : M unit :=
  del_opt (h_json hs);; del_opt (h_query_spec hs);; del_opt (h_request hs);; del_opt (h_response hs);;
  del_opt (h_request_headers hs);; del_opt (h_response_headers hs).

(** The loop ends when the hub sends no token; [fuel] bounds the pages. *)
Fixpoint query_loop (fuel : nat) (registry : hub_registry) (query_string : bytes) (hs : handles) (list : resultset)
    (continuation : option (nat * bytes)) : M (resultset + prx_error) :=
  match fuel with
  | O => fun _ => UB
  | S fuel =>
      '(result, list, continuation, hs) ← query_page registry query_string hs list continuation;
      free_handles hs;;
      if bool_decide (result <> er_ok) then free_twins (head list);; mret (inr result)
      else match continuation with
           | None => mret (inl list)
           | Some _ => query_loop fuel registry query_string hs list continuation
           end
  end.

Definition prx_ns_iot_hub_registry_entry_query (fuel : nat) (registry : hub_registry) (query_string : bytes) :
    M (resultset + prx_error) :=
  ok ← try;
  if negb ok then mret (inr er_out_of_memory)
  else query_loop fuel registry query_string no_handles (Resultset [] 0) None.

Definition quoted (query value : bytes) : bytes := query ++ value ++ [39].

(** A query whose text needs [n] calls of the string library. *)
Definition query_for (fuel n : nat) (registry : hub_registry) (text : bytes) : M (resultset + prx_error) :=
  ok ← tries n;
  if negb ok then mret (inr er_out_of_memory) else prx_ns_iot_hub_registry_entry_query fuel registry text.

(** The first result; the others are freed. *)
Definition prx_ns_iot_hub_registry_entry_by_addr (fuel : nat) (registry : hub_registry) (id : io_ref) : M (nat + prx_error) :=
  r ← query_for fuel 3 registry (quoted (str "SELECT * FROM devices WHERE tags.address='") (address_text id));
  match r with
  | inr e => mret (inr e)
  | inl results =>
      if bool_decide (prx_ns_generic_resultset_size results = 0) then free_twins (head results);; mret (inr er_not_found)
      else
        let '(created, results) := prx_ns_generic_resultset_pop results in
        free_twins (head results);;
        match created with Some a => mret (inl a) | None => fun _ => UB end
  end.

Definition prx_ns_iot_hub_registry_entry_by_name (fuel : nat) (registry : hub_registry) (name : bytes) : M (resultset + prx_error) :=
  query_for fuel 3 registry (quoted (str "SELECT * FROM devices WHERE tags.name='") name).

Definition conditions (type : Z) : list bytes :=
  (if bit type prx_ns_entry_type_proxy then [str "tags.proxy=1"] else []) ++
  (if bit type prx_ns_entry_type_host then [str "tags.host=1"] else []) ++
  (if bit type prx_ns_entry_type_link then [str "tags.link=1"] else []).
Fixpoint disjunction (l : list bytes) : bytes :=
  match l with [] => [] | [c] => c | c :: l => c ++ str " OR " ++ disjunction l end.

(** Each condition is appended, with the word before it but for the first. *)
Definition prx_ns_iot_hub_registry_entry_by_type (fuel : nat) (registry : hub_registry) (type : Z) : M (resultset + prx_error) :=
  ok ← try;
  if negb ok then mret (inr er_out_of_memory)
  else match conditions type with
       | [] => mret (inr er_not_found)
       | c :: l =>
           query_for fuel (1 + 2 * length l) registry (str "SELECT * FROM devices WHERE " ++ disjunction (c :: l))
       end.

(** ** Several hubs *)

(** Every hub is asked; the last answer that is not [er_not_found] counts. *)
Fixpoint composite_delete_loop (hubs : list hub_registry) (entry : client_entry) (composite_result : prx_error) : M prx_error :=
  match hubs with
  | [] => mret composite_result
  | next :: hubs =>
      result ← prx_ns_iot_hub_registry_entry_delete next entry;
      composite_delete_loop hubs entry (if bool_decide (result <> er_not_found) then result else composite_result)
  end.
Definition prx_ns_iot_hub_composite_entry_delete (hubs : list hub_registry) (entry : client_entry) : M prx_error :=
  composite_delete_loop hubs entry er_not_found.

Fixpoint composite_create_loop (hubs : list hub_registry) (entry : client_entry) (result : prx_error) : M prx_error :=
  match hubs with
  | [] => mret result
  | next :: hubs =>
      result ← prx_ns_iot_hub_registry_entry_create next entry;
      if bool_decide (result = er_connecting) then composite_create_loop hubs entry result else mret result
  end.
Definition prx_ns_iot_hub_composite_entry_create (hubs : list hub_registry) (entry : client_entry) : M prx_error :=
  composite_create_loop hubs entry er_not_supported.

Fixpoint composite_update_loop (fuel : nat) (hubs : list hub_registry) (entry : client_entry) (id : io_ref) (result : prx_error) :
    M prx_error :=
  match hubs with
  | [] => mret result
  | next :: hubs =>
      r ← prx_ns_iot_hub_registry_entry_by_addr fuel next id;
      match r with
      | inr e => composite_update_loop fuel hubs entry id e
      | inl tmp => prx_ns_iot_hub_twin_entry_free tmp;; prx_ns_iot_hub_registry_entry_update next entry
      end
  end.
Definition prx_ns_iot_hub_composite_entry_update (fuel : nat) (hubs : list hub_registry) (entry : client_entry) : M prx_error :=
  match c_addr entry with
  | inr e => mret e
  | inl id => composite_update_loop fuel hubs entry id er_ok
  end.

Fixpoint composite_addr_loop (fuel : nat) (hubs : list hub_registry) (id : io_ref) (result : prx_error) : M (nat + prx_error) :=
  match hubs with
  | [] => mret (inr result)
  | next :: hubs =>
      r ← prx_ns_iot_hub_registry_entry_by_addr fuel next id;
      match r with inl a => mret (inl a) | inr e => composite_addr_loop fuel hubs id e end
  end.
Definition prx_ns_iot_hub_composite_entry_by_addr (fuel : nat) (hubs : list hub_registry) (id : io_ref) : M (nat + prx_error) :=
  composite_addr_loop fuel hubs id er_not_found.

(** Results are joined until a hub fails, an empty result counting as a failure. *)
Definition join_results (list : option resultset) (add : resultset) : resultset :=
  match list with
  | None => add
  | Some list => Resultset (head list ++ head add) (count list + count add)
  end.
Fixpoint composite_search_loop (search : hub_registry -> M (resultset + prx_error)) (hubs : list hub_registry)
    (result : prx_error) (set : option resultset) : M (prx_error * option resultset) :=
  match hubs with
  | [] => mret (result, set)
  | next :: hubs =>
      r ← search next;
      match r with
      | inr e => mret (e, set)
      | inl entries => composite_search_loop search hubs er_ok (Some (join_results set entries))
      end
  end.
Definition composite_search (search : hub_registry -> M (resultset + prx_error)) (hubs : list hub_registry) :
    M (resultset + prx_error) :=
  '(result, set) ← composite_search_loop search hubs er_not_found None;
  match set with
  | None => mret (inr result)
  | Some set => if bool_decide (result <> er_ok) then free_twins (head set);; mret (inr result) else mret (inl set)
  end.
Definition prx_ns_iot_hub_composite_entry_by_name (fuel : nat) (hubs : list hub_registry) (name : bytes) : M (resultset + prx_error) :=
  composite_search (fun hub => prx_ns_iot_hub_registry_entry_by_name fuel hub name) hubs.
Definition prx_ns_iot_hub_composite_entry_by_type (fuel : nat) (hubs : list hub_registry) (type : Z) : M (resultset + prx_error) :=
  composite_search (fun hub => prx_ns_iot_hub_registry_entry_by_type fuel hub type) hubs.

(** ** The connection string of a twin *)

Section TwinCs.
Variables (cred_caps policy_import : bool) (pal_cred_import : bytes -> bytes -> bool -> bytes + prx_error)
  (Base64_Decoder : bytes -> option bytes) (SASToken_Validate : bytes -> bool).

Definition create_device_cs (host id key : option bytes) : M (io_cs + prx_error) := fun w =>
  '(r, n) ← io_cs_create mem cred_caps policy_import pal_cred_import Base64_Decoder SASToken_Validate host id None key (asked w);
  Ok (r, World (twins w) (live w) (next w) n).

Definition prx_ns_iot_hub_twin_entry_get_cs (registry : option hub_registry) (twin : J) : M (io_cs + prx_error) :=
  match registry with
  | None => mret (inr er_arg)
  | Some registry =>
      ok ← try;
      if negb ok then mret (inr er_out_of_memory)
      else
        uri ← uri_of (str "/devices/") (prx_ns_iot_hub_twin_entry_get_id twin);
        match uri with
        | None => mret (inr er_out_of_memory)
        | Some uri =>
            r ← prx_ns_iot_hub_rest_call (hub_host registry) HTTPAPI_REQUEST_GET None uri None None None;
            match r with
            | (er_ok, Some a) =>
                ok ← try;
                if negb ok then mret (inr er_out_of_memory)
                else
                  let result := prx_ns_iot_hub_rest_status_code_to_prx_error (rs_status a) in
                  if bool_decide (result <> er_ok) then mret (inr result)
                  else match json_parse_string (rs_body a) with
                       | None => mret (inr er_not_found)
                       | Some json =>
                           match json_dotget_string json (str "authentication.symmetricKey.primaryKey") with
                           | None => mret (inr er_not_found)
                           | Some key => create_device_cs (hub_host registry) (prx_ns_iot_hub_twin_entry_get_id twin) (Some key)
                           end
                       end
            | (e, _) => mret (inr e)
            end
        end
  end.
End TwinCs.

(** ** Hub entries *)

(** The hub entry is an entry of the registry in memory. *)
Section HubEntry.
Variable pal_rand_fill : nat -> Z -> res bytes.

(** [io_cs_set_device_id] on the connection string of the entry at [a]. *)
Definition set_entry_device (a : nat) (id : option bytes) : PrxNs.M prx_error := fun w =>
  match PrxNs.heap w !! a with
  | Some (Entry name ref (Some cs) type version) =>
      '(r, (cs, n)) ← io_cs_set_device_id mem id (cs, PrxNs.allocs w);
      Ok (r, PrxNs.World (<[a := Entry name ref (Some cs) type version]> (PrxNs.heap w)) (PrxNs.fresh w) n (PrxNs.file w))
  | _ => UB
  end.

(** The clone is not freed when its device id cannot be set. *)
Definition prx_ns_iot_hub_twin_entry_get_links (registry : hub_registry) (twin : J) : PrxNs.M (resultset + prx_error) :=
  if negb (bit (prx_ns_iot_hub_twin_entry_get_type twin) (Z.lor prx_ns_entry_type_proxy prx_ns_entry_type_host)) then mret (inr er_not_found)
  else
    links ← prx_ns_generic_resultset_create mem;
    match links with
    | None => mret (inr er_out_of_memory)
    | Some links =>
        r ← prx_ns_generic_entry_clone mem pal_rand_fill (hub_entry registry);
        match r with
        | inr e => prx_ns_generic_resultset_free links;; mret (inr e)
        | inl clone =>
            result ← set_entry_device clone (prx_ns_iot_hub_twin_entry_get_id twin);
            if bool_decide (result = er_ok) then mret (inl (prx_ns_generic_resultset_add links clone))
            else prx_ns_generic_resultset_free links;; mret (inr result)
        end
    end.

Definition prx_ns_iot_hub_create_from_cs (hub_cs : option io_cs) : PrxNs.M (hub_registry + prx_error) :=
  match hub_cs with
  | None => mret (inr er_fault)
  | Some cs =>
      ok ← PrxNs.alloc mem;
      if negb ok then mret (inr er_out_of_memory)
      else
        r ← prx_ns_generic_entry_create mem pal_rand_fill prx_ns_entry_type_hub None None 0 (Some cs);
        mret (match r with inl a => inl (Hub (cs io_cs_entry_host_name) a) | inr e => inr e end)
  end.

Definition prx_ns_iot_hub_registry_close (registry : hub_registry) : PrxNs.M unit := prx_ns_generic_entry_free (hub_entry registry).
Fixpoint prx_ns_iot_hub_composite_close (hubs : list hub_registry) : PrxNs.M unit :=
  match hubs with [] => mret tt | hub :: hubs => prx_ns_iot_hub_registry_close hub;; prx_ns_iot_hub_composite_close hubs end.
End HubEntry.

(** ** When memory and tokens are there *)

Hypothesis mem_ok : forall n, mem n = true.
Hypothesis token_ok : forall n, token n = er_ok.
Implicit Types (w : world) (h : nat).

Lemma hub_bind_eq {A B} (c : M A) (f : A -> M B) w x w1 : c w = Ok (x, w1) -> (c ≫= f) w = f x w1.
Proof. unfold mbind, hub_bind. by intros ->. Qed.
Lemma hub_bind_ub {A B} (c : M A) (f : A -> M B) w : c w = UB -> (c ≫= f) w = UB.
Proof. unfold mbind, hub_bind. by intros ->. Qed.

(** Only time has passed. *)
Definition later w w' : Prop := twins w' = twins w /\ live w' = live w /\ next w' = next w.
Lemma hub_later_trans w1 w2 w3 : later w1 w2 -> later w2 w3 -> later w1 w3.
Proof. intros (A1 & A2 & A3) (B1 & B2 & B3). split_and!; congruence. Qed.

Lemma try_ok w : exists w', try w = Ok (true, w') /\ later w w'.
Proof. unfold try. rewrite mem_ok. by eexists. Qed.
Lemma tries_ok n : forall w, exists w', tries n w = Ok (true, w') /\ later w w'.
Proof.
  induction n as [|n IH]; intros w; cbn [tries]; [by exists w|].
  destruct (try_ok w) as (w1 & E1 & L1). rewrite (hub_bind_eq _ _ _ _ _ E1). destruct (IH w1) as (w' & E & L).
  exists w'. split; [done|]. by eapply hub_later_trans.
Qed.
Lemma use_ok h w : h ∈ live w -> use h w = Ok (tt, w).
Proof. intros Hh. unfold use. by rewrite bool_decide_eq_true_2. Qed.
Lemma use_freed h w : h ∉ live w -> use h w = UB.
Proof. intros Hh. unfold use. by rewrite bool_decide_eq_false_2. Qed.
Lemma add_headers_ok h n : forall w, h ∈ live w -> exists w', add_headers h n w = Ok (true, w') /\ later w w'.
Proof.
  induction n as [|n IH]; intros w Hh; cbn [add_headers]; [by exists w|]. rewrite (hub_bind_eq _ _ _ _ _ (use_ok _ _ Hh)).
  destruct (try_ok w) as (w1 & E1 & L1). rewrite (hub_bind_eq _ _ _ _ _ E1). destruct (IH w1) as (w' & E & L); [by destruct L1 as (_ & -> & _)|].
  exists w'. split; [done|]. by eapply hub_later_trans.
Qed.
Lemma new_ok w : exists w', new w = Ok (Some (next w), w') /\ twins w' = twins w /\ live w' = {[next w]} ∪ live w /\ next w' = S (next w).
Proof. unfold new. rewrite mem_ok. by eexists. Qed.
Lemma del_ok h w : h ∈ live w -> exists w', del h w = Ok (tt, w') /\ twins w' = twins w /\ live w' = live w ∖ {[h]} /\ next w' = next w.
Proof. intros Hh. unfold del. rewrite bool_decide_eq_true_2 by done. by eexists. Qed.
Lemma proxy_ok w : exists p w', prx_ns_iot_hub_rest_call_configure_proxy w = Ok ((er_ok, p), w') /\ later w w'.
Proof.
  unfold prx_ns_iot_hub_rest_call_configure_proxy. destruct proxy_host as [p|]; [|by eexists _, w].
  destruct (try_ok w) as (w1 & E1 & L1). rewrite (hub_bind_eq _ _ _ _ _ E1). by eexists _, w1.
Qed.

(** What a request gets. *)
Definition sent (host : option bytes) type if_match uri body (a : option response) : Prop :=
  exists n, http n (Request host type (uri ++ api_version) if_match body) = a.
Definition of_http (a : option response) : prx_error * option response :=
  match a with Some r => (er_ok, Some r) | None => (er_connecting, None) end.

(** With live headers an attempt sends the request and changes nothing else. *)
Lemma rest_send_ok host type if_match uri body req resp w : req ∈ live w -> resp ∈ live w -> exists a w',
  rest_send host type if_match uri body req resp w = Ok (of_http a, w') /\ later w w' /\ sent host type if_match uri body a.
Proof.
  intros H1 H2. unfold rest_send. destruct (try_ok w) as (w1 & E1 & L1). rewrite (hub_bind_eq _ _ _ _ _ E1). cbn [negb].
  destruct (add_headers_ok req 4 w1) as (w2 & E2 & L2); [by destruct L1 as (_ & -> & _)|]. rewrite (hub_bind_eq _ _ _ _ _ E2). cbn [negb].
  pose proof (hub_later_trans _ _ _ L1 L2) as L.
  assert (E3 : exists w3, (match if_match with
            | None => mret true
            | Some _ => ok ← tries 3; if (ok : bool) then add_headers req 1 else mret false
            end) w2 = Ok (true, w3) /\ later w2 w3).
  { destruct if_match; [|by exists w2]. destruct (tries_ok 3 w2) as (w3 & E3 & L3). rewrite (hub_bind_eq _ _ _ _ _ E3).
    destruct (add_headers_ok req 1 w3) as (w4 & E4 & L4); [by rewrite (proj1 (proj2 (hub_later_trans _ _ _ L L3)))|]. exists w4. split; [done|]. by eapply hub_later_trans. }
  destruct E3 as (w3 & E3 & L3). rewrite (hub_bind_eq _ _ _ _ _ E3). cbn [negb]. clear E3.
  destruct (tries_ok 3 w3) as (w4 & E4 & L4). rewrite (hub_bind_eq _ _ _ _ _ E4). cbn [negb].
  destruct (proxy_ok w4) as (p & w5 & E5 & L5). rewrite (hub_bind_eq _ _ _ _ _ E5).
  pose proof (hub_later_trans _ _ _ (hub_later_trans _ _ _ (hub_later_trans _ _ _ L L3) L4) L5) as L6. rewrite bool_decide_eq_false_2 by (intros Hn; by apply Hn).
  rewrite (hub_bind_eq _ _ _ _ _ (use_ok req w5 ltac:(by rewrite (proj1 (proj2 L6))))).
  rewrite (hub_bind_eq _ _ _ _ _ (use_ok resp w5 ltac:(by rewrite (proj1 (proj2 L6))))).
  exists (http (asked w5) (Request host type (uri ++ api_version) if_match body)), (tick w5). split_and!; [|done|by eexists].
  erewrite hub_bind_eq by reflexivity. by destruct (http _ _).
Qed.

(** With freed headers an attempt touches them. *)
Lemma rest_send_freed host type if_match uri body req resp w : req ∉ live w -> rest_send host type if_match uri body req resp w = UB.
Proof.
  intros Hr. unfold rest_send. destruct (try_ok w) as (w1 & E1 & L1). rewrite (hub_bind_eq _ _ _ _ _ E1). cbn [negb].
  apply hub_bind_ub. cbn [add_headers]. apply hub_bind_ub, use_freed. by rewrite (proj1 (proj2 L1)).
Qed.

(** The first attempt with headers of its own, which it frees. *)
Lemma rest_attempt_own host type if_match uri body w : next w ∉ live w -> S (next w) ∉ live w -> exists a w',
  rest_attempt (Some host) type if_match uri body None None w =
    Ok ((of_http a, Some (next w), Some (S (next w))), w') /\
  live w' = live w /\ sent (Some host) type if_match uri body a.
Proof.
  intros N1 N2. unfold rest_attempt, ask_token. erewrite hub_bind_eq by reflexivity. rewrite token_ok, bool_decide_eq_false_2 by (intros Hn; by apply Hn).
  erewrite hub_bind_eq by reflexivity. rewrite token_ok, bool_decide_eq_false_2 by (intros Hn; by apply Hn).
  destruct (tries_ok 2 (tick (tick w))) as (w1 & E1 & L1). rewrite (hub_bind_eq _ _ _ _ _ E1). cbn [negb or_new].
  destruct L1 as (T1 & V1 & X1). cbn in T1, V1, X1.
  destruct (new_ok w1) as (w2 & E2 & T2 & V2 & X2). erewrite hub_bind_eq by (erewrite hub_bind_eq by exact E2; reflexivity).
  destruct (new_ok w2) as (w3 & E3 & T3 & V3 & X3). erewrite hub_bind_eq by (erewrite hub_bind_eq by exact E3; reflexivity).
  destruct (rest_send_ok (Some host) type if_match uri body (next w1) (next w2) w3) as (a & w4 & E4 & (T4 & V4 & X4) & Hs); [set_solver..|].
  erewrite hub_bind_eq by exact E4.
  destruct (del_ok (next w1) w4) as (w5 & E5 & T5 & V5 & X5); [set_solver|].
  destruct (del_ok (next w2) w5) as (w6 & E6 & T6 & V6 & X6); [rewrite V5, X2; set_solver by lia|].
  exists a, w6. split_and!; [|rewrite V6, V5, V4, V3, V2, V1, X2, X1; apply set_eq; intros x; set_solver by lia|done].
  replace (S (next w)) with (next w2) by (rewrite X2; by rewrite X1). rewrite <- X1. cbn [del_opt].
  destruct a as [r|]; cbn [of_http]; erewrite hub_bind_eq by exact E5; by erewrite hub_bind_eq by exact E6.
Qed.

Section Retry.
Hypothesis busy : forall n r, exists a, http n r = Some a /\ rs_status a = 429.
(** A REST call that is repeated uses freed memory.  The first attempt allocates the
    headers the caller did not pass, remembers them in the variables for the headers of the
    caller and frees them at its end.  When the hub answers that there are too many
    requests (429), the next attempt takes these for headers of the caller and adds to
    them; there is memory and the token provider works throughout. *)
Lemma rest_retry_freed host type if_match uri body w : next w ∉ live w -> S (next w) ∉ live w ->
  prx_ns_iot_hub_rest_call (Some host) type if_match uri body None None w = UB.
Proof.
  intros N1 N2. unfold prx_ns_iot_hub_rest_call. cbn [rest_loop].
  destruct (rest_attempt_own host type if_match uri body w N1 N2) as (a & w1 & E1 & V1 & (n & Hs)).
  rewrite (hub_bind_eq _ _ _ _ _ E1). destruct (busy n (Request (Some host) type (uri ++ api_version) if_match body)) as (a' & Ha & Hst).
  rewrite Ha in Hs. subst a. cbn [of_http]. rewrite bool_decide_eq_false_2 by (intros [Hn|Hn]; by apply Hn). apply hub_bind_ub.
  unfold rest_attempt, ask_token. erewrite hub_bind_eq by reflexivity. rewrite token_ok, bool_decide_eq_false_2 by (intros Hn; by apply Hn).
  erewrite hub_bind_eq by reflexivity. rewrite token_ok, bool_decide_eq_false_2 by (intros Hn; by apply Hn).
  destruct (tries_ok 2 (tick (tick w1))) as (w2 & E2 & (T2 & V2 & X2)). rewrite (hub_bind_eq _ _ _ _ _ E2). cbn [negb or_new].
  erewrite hub_bind_eq by reflexivity. cbv beta iota. erewrite hub_bind_eq by reflexivity. cbv beta iota. apply hub_bind_ub, rest_send_freed.
  rewrite V2. cbn. by rewrite V1.
Qed.
End Retry.

(** ** Queries that are answered *)

(** Handles are given out in order. *)
Definition fresh_ok w : Prop := forall h, h ∈ live w \/ h ∈ dom (twins w) -> (h < next w)%nat.

Lemma rest_call_given host type if_match uri body req resp w : req ∈ live w -> resp ∈ live w ->
  (forall n, exists a, http n (Request (Some host) type (uri ++ api_version) if_match body) = Some a /\ rs_status a <> 429) ->
  exists a w', prx_ns_iot_hub_rest_call (Some host) type if_match uri body (Some req) (Some resp) w = Ok ((er_ok, Some a), w') /\
    later w w' /\ sent (Some host) type if_match uri body (Some a).
Proof.
  intros H1 H2 Hans. unfold prx_ns_iot_hub_rest_call. cbn [rest_loop].
  assert (E : exists a w', rest_attempt (Some host) type if_match uri body (Some req) (Some resp) w = Ok ((of_http a, Some req, Some resp), w') /\
            later w w' /\ sent (Some host) type if_match uri body a).
  { unfold rest_attempt, ask_token. erewrite hub_bind_eq by reflexivity. rewrite token_ok, bool_decide_eq_false_2 by (intros Hn; by apply Hn).
    erewrite hub_bind_eq by reflexivity. rewrite token_ok, bool_decide_eq_false_2 by (intros Hn; by apply Hn).
    destruct (tries_ok 2 (tick (tick w))) as (w2 & E2 & L2). rewrite (hub_bind_eq _ _ _ _ _ E2). cbn [negb or_new].
    erewrite hub_bind_eq by reflexivity. cbv beta iota. erewrite hub_bind_eq by reflexivity. cbv beta iota.
    destruct (rest_send_ok (Some host) type if_match uri body req resp w2) as (a & w3 & E3 & L3 & Hs); [by destruct L2 as (_ & -> & _)..|].
    exists a, w3. split_and!; [|by eapply hub_later_trans|done]. rewrite (hub_bind_eq _ _ _ _ _ E3). by destruct a. }
  destruct E as (a & w' & E & L & (n & Hs)). rewrite (hub_bind_eq _ _ _ _ _ E). destruct (Hans n) as (a' & Ha & Hst). pose proof Hs as Hs0. rewrite Ha in Hs. subst a.
  exists a', w'. split_and!; [|done|by exists n]. cbn [of_http]. rewrite bool_decide_eq_true_2 by (by right). done.
Qed.

(** New twin entries at new addresses. *)
Lemma add_twins_ok ts : forall r0 set w, fresh_ok w -> exists l w',
  add_twins ts r0 set w = Ok ((if bool_decide (ts = []) then r0 else er_ok, Resultset (head set ++ l) (count set + zlen ts)), w') /\
  Forall2 (fun x t => twins w' !! x = Some t) l ts /\ (forall x, x ∉ l -> twins w' !! x = twins w !! x) /\ NoDup l /\
  (forall x, x ∈ l -> (next w <= x)%nat) /\ live w' = live w /\ fresh_ok w' /\ (next w <= next w')%nat.
Proof.
  induction ts as [|t ts IH]; intros r0 set w Hw; cbn [add_twins].
  { exists [], w. split_and!; [|constructor|done|constructor|set_solver|done|done|done].
    rewrite app_nil_r, zlen_nil, Z.add_0_r. by destruct set. }
  unfold prx_ns_iot_hub_twin_entry_create. destruct (tries_ok 2 w) as (w1 & E1 & (T1 & V1 & X1)).
  erewrite hub_bind_eq by (rewrite (hub_bind_eq _ _ _ _ _ E1); reflexivity). cbv beta iota.
  set (w2 := World _ _ _ _). destruct (IH er_ok (prx_ns_generic_resultset_add set (next w1)) w2) as (l & w' & E & F & K & N & Nx & V & Fr & Le).
  { intros h Hh. cbn in *. rewrite dom_insert_L in Hh. rewrite V1, T1 in Hh. specialize (Hw h). rewrite X1 in *. set_solver by lia. }
  cbn in Nx, Le. exists (next w1 :: l), w'.
  assert (Hnot : next w1 ∉ l) by (intros Hin; apply Nx in Hin; lia). split_and!.
  - rewrite E. rewrite (bool_decide_eq_false_2 (t :: ts = [])) by done. cbn [head count prx_ns_generic_resultset_add].
    rewrite <- app_assoc, zlen_cons, Z.add_assoc. by case_bool_decide.
  - constructor; [|done]. rewrite K by done. apply lookup_insert_eq.
  - intros x Hx. rewrite K by set_solver. cbn. rewrite lookup_insert_ne by set_solver. by rewrite T1.
  - by constructor.
  - intros x [->|Hx]%elem_of_cons; [lia|]. apply Nx in Hx. lia.
  - rewrite V. cbn. done.
  - done.
  - lia.
Qed.

(** [k] new handles. *)
Definition opened w w' (k : nat) : Prop :=
  (forall h, h ∈ live w' <-> h ∈ live w \/ (next w <= h < next w + k)%nat) /\ next w' = (next w + k)%nat /\ twins w' = twins w.
Lemma opened_later w w' : later w w' -> opened w w' 0.
Proof. intros (T & V & X). split_and!; [intros h; rewrite V; set_solver by lia|lia|done]. Qed.
Lemma opened_trans w1 w2 w3 k1 k2 : opened w1 w2 k1 -> opened w2 w3 k2 -> opened w1 w3 (k1 + k2).
Proof. intros (V1 & X1 & T1) (V2 & X2 & T2). split_and!; [intros h; rewrite V2, V1, X1; intuition lia|lia|congruence]. Qed.
Lemma opened_new w : exists w', new w = Ok (Some (next w), w') /\ opened w w' 1.
Proof.
  destruct (new_ok w) as (w' & E & T & V & X). exists w'. split; [done|]. split_and!; [|lia|done].
  intros h. rewrite V, elem_of_union, elem_of_singleton. intuition lia.
Qed.
Lemma opened_fresh w w' k : opened w w' k -> fresh_ok w -> fresh_ok w'.
Proof. intros (V & X & T) Hw h Hh. rewrite V, T in Hh. specialize (Hw h). rewrite X. intuition lia. Qed.

Section Answered.
Variables (registry : hub_registry) (host query_string : bytes) (a : response) (doc : J) (ts : list J).
Hypotheses (Hhost : hub_host registry = Some host) (Hstatus : rs_status a = 200)
  (Hparse : json_parse_string (rs_body a) = Some doc) (Harray : json_value_get_array doc = Some ts).
Hypothesis Hhttp : forall n, http n (Request (Some host) HTTPAPI_REQUEST_POST (str "/devices/query" ++ api_version) None
  (Some (query_document query_string))) = Some a.

(** An empty list is not found. *)
Definition found : prx_error := if bool_decide (ts = []) then er_not_found else er_ok.

(** The list and the twins of a result. *)
Definition twins_added w w' (l : list nat) : Prop :=
  Forall2 (fun x t => twins w' !! x = Some t) l ts /\ (forall x, x ∉ l -> twins w' !! x = twins w !! x) /\ NoDup l /\
  (forall x, x ∈ l -> (next w <= x)%nat) /\ fresh_ok w'.

Lemma page_answer_ok rs rb w : rs ∈ live w -> rb ∈ live w -> fresh_ok w -> exists l w' w1,
  page_answer rs rb a (Resultset [] 0) None None w = Ok ((found, Resultset l (zlen ts), token_of rs a, Some (next w)), w') /\
  opened w w1 1 /\ live w' = live w1 /\ twins_added w1 w' l.
Proof.
  intros H1 H2 Hw. unfold page_answer. rewrite (hub_bind_eq _ _ _ _ _ (use_ok _ _ H2)).
  destruct (try_ok w) as (w1 & E1 & L1). rewrite (hub_bind_eq _ _ _ _ _ E1). cbn [negb]. rewrite Hstatus.
  cbv zeta. change (prx_ns_iot_hub_rest_status_code_to_prx_error 200) with er_ok. rewrite bool_decide_eq_false_2 by (intros Hn; by apply Hn).
  rewrite Hparse. destruct (opened_new w1) as (w2 & E2 & O2). rewrite (hub_bind_eq _ _ _ _ _ E2). cbv beta iota. rewrite Harray.
  pose proof (opened_trans _ _ _ _ _ (opened_later _ _ L1) O2) as O. pose proof (opened_fresh _ _ _ O Hw) as Hw2.
  destruct (add_twins_ok ts er_not_found (Resultset [] 0) w2 Hw2) as (l & w3 & E3 & F & K & N & Nx & V & Fr & Le).
  rewrite (hub_bind_eq _ _ _ _ _ E3). fold found. cbv beta iota.
  erewrite hub_bind_eq by (apply use_ok; rewrite V; apply O; by left).
  exists l, w3, w2. split_and!; [|done|done|done]. cbn. destruct L1 as (_ & _ & X1). by rewrite X1, Z.add_0_l.
Qed.

Lemma query_page_ok w : fresh_ok w -> exists l w' w1,
  query_page registry query_string no_handles (Resultset [] 0) None w =
    Ok ((found, Resultset l (zlen ts), token_of (next w + 1)%nat a,
         Handles (Some (next w)) (Some (next w + 1)%nat) (Some (next w + 2)%nat) (Some (next w + 3)%nat)
           (Some (next w + 4)%nat) (Some (next w + 5)%nat)), w') /\
  opened w w1 6 /\ live w' = live w1 /\ twins_added w1 w' l.
Proof.
  intros Hw. unfold query_page. destruct (opened_new w) as (w1 & E1 & O1). rewrite (hub_bind_eq _ _ _ _ _ E1).
  destruct (opened_new w1) as (w2 & E2 & O2). rewrite (hub_bind_eq _ _ _ _ _ E2). pose proof (opened_trans _ _ _ _ _ O1 O2) as O12. cbv beta iota zeta.
  destruct (opened_new w2) as (w3 & E3 & O3). rewrite (hub_bind_eq _ _ _ _ _ E3). pose proof (opened_trans _ _ _ _ _ O12 O3) as O13. cbv beta iota zeta.
  destruct (tries_ok 2 w3) as (w4 & E4 & L4). rewrite (hub_bind_eq _ _ _ _ _ E4). pose proof (opened_trans _ _ _ _ _ O13 (opened_later _ _ L4)) as O14. cbn [negb].
  erewrite hub_bind_eq by reflexivity. cbn [negb].
  destruct (opened_new w4) as (w5 & E5 & O5). rewrite (hub_bind_eq _ _ _ _ _ E5). pose proof (opened_trans _ _ _ _ _ O14 O5) as O15. cbv beta iota zeta.
  destruct (try_ok w5) as (w6 & E6 & L6). rewrite (hub_bind_eq _ _ _ _ _ E6). pose proof (opened_trans _ _ _ _ _ O15 (opened_later _ _ L6)) as O16. cbn [negb].
  destruct (opened_new w6) as (w7 & E7 & O7). rewrite (hub_bind_eq _ _ _ _ _ E7). pose proof (opened_trans _ _ _ _ _ O16 O7) as O17. cbv beta iota zeta.
  rewrite Hhost.
  pose proof (proj1 (proj2 O1)) as X1. pose proof (proj1 (proj2 O12)) as X2. pose proof (proj1 (proj2 O14)) as X4. pose proof (proj1 (proj2 O16)) as X6. pose proof (proj1 (proj2 O17)) as X7. pose proof (proj1 O17) as V7.
  destruct (rest_call_given host HTTPAPI_REQUEST_POST None (str "/devices/query") (Some (query_document query_string)) (next w) (next w1) w7) as (r & w8 & E8 & L8 & (n & Hn)).
  { apply V7. lia. } { apply V7. lia. } { intros n. exists a. split; [apply Hhttp|]. rewrite Hstatus. done. }
  rewrite Hhttp in Hn. injection Hn as <-. rewrite (hub_bind_eq _ _ _ _ _ E8). cbv beta iota.
  pose proof (opened_trans _ _ _ _ _ O17 (opened_later _ _ L8)) as O18. pose proof (proj1 O18) as V8. pose proof (proj1 (proj2 O18)) as X8.
  destruct (page_answer_ok (next w1) (next w6) w8) as (l & w9 & w10 & E9 & O9 & V9 & T9).
  { apply V8. lia. } { apply V8. lia. } { by eapply opened_fresh. }
  cbn [h_json no_handles]. rewrite (hub_bind_eq _ _ _ _ _ E9). cbv beta iota. exists l, w9, w10. pose proof (opened_trans _ _ _ _ _ O18 O9) as O.
  split_and!; [|exact O|done|done]. rewrite X1, X2, X4, X6, X8. repeat f_equal; lia.
Qed.

(** A handle is live while others are deleted. *)
Ltac still_live := repeat match goal with
  | V : live ?u = live _ ∖ _ |- _ ∈ live ?u => rewrite V; apply elem_of_difference; split; [|rewrite elem_of_singleton; lia]
  end; done || match goal with H : forall k, _ -> _ ∈ live _ |- _ => apply H; lia end.

(** All handles of a page are freed. *)
Lemma free_page_ok w w1 w' : fresh_ok w -> opened w w1 6 -> live w' = live w1 -> exists w2,
  free_handles (Handles (Some (next w)) (Some (next w + 1)%nat) (Some (next w + 2)%nat) (Some (next w + 3)%nat)
     (Some (next w + 4)%nat) (Some (next w + 5)%nat)) w' = Ok (tt, w2) /\ live w2 = live w /\ twins w2 = twins w' /\ next w2 = next w'.
Proof.
  intros Hw (V & _ & _) V'. unfold free_handles. cbn [h_json h_query_spec h_request h_response h_request_headers h_response_headers del_opt].
  assert (Hin : forall k, (k < 6)%nat -> (next w + k)%nat ∈ live w') by (intros k Hk; rewrite V'; apply V; lia).
  assert (H0 : next w ∈ live w') by (rewrite <- (Nat.add_0_r (next w)); apply Hin; lia).
  destruct (del_ok (next w + 5)%nat w') as (u1 & E1 & T1 & V1 & X1); [apply Hin; lia|]. rewrite (hub_bind_eq _ _ _ _ _ E1).
  destruct (del_ok (next w + 2)%nat u1) as (u2 & E2 & T2 & V2 & X2); [still_live|]. rewrite (hub_bind_eq _ _ _ _ _ E2).
  destruct (del_ok (next w + 3)%nat u2) as (u3 & E3 & T3 & V3 & X3); [still_live|]. rewrite (hub_bind_eq _ _ _ _ _ E3).
  destruct (del_ok (next w + 4)%nat u3) as (u4 & E4 & T4 & V4 & X4); [still_live|]. rewrite (hub_bind_eq _ _ _ _ _ E4).
  destruct (del_ok (next w) u4) as (u5 & E5 & T5 & V5 & X5); [still_live|]. rewrite (hub_bind_eq _ _ _ _ _ E5).
  destruct (del_ok (next w + 1)%nat u5) as (u6 & E6 & T6 & V6 & X6); [still_live|].
  exists u6. split_and!; [exact E6| |congruence|congruence]. apply set_eq. intros h. rewrite V6, V5, V4, V3, V2, V1, V'.
  specialize (Hw h). rewrite !elem_of_difference, !elem_of_singleton, V. intuition lia.
Qed.

(** A page with a token in headers that were freed. *)
Lemma page_stale owner v hs list w : owner ∉ live w -> (owner < next w)%nat -> query_page registry query_string hs list (Some (owner, v)) w = UB.
Proof.
  intros Ho Hn. unfold query_page. destruct (opened_new w) as (w1 & E1 & O1). rewrite (hub_bind_eq _ _ _ _ _ E1).
  destruct (opened_new w1) as (w2 & E2 & O2). rewrite (hub_bind_eq _ _ _ _ _ E2). pose proof (opened_trans _ _ _ _ _ O1 O2) as O12. cbv beta iota zeta.
  destruct (opened_new w2) as (w3 & E3 & O3). rewrite (hub_bind_eq _ _ _ _ _ E3). pose proof (opened_trans _ _ _ _ _ O12 O3) as O13. cbv beta iota zeta.
  destruct (tries_ok 2 w3) as (w4 & E4 & L4). rewrite (hub_bind_eq _ _ _ _ _ E4). pose proof (opened_trans _ _ _ _ _ O13 (opened_later _ _ L4)) as O14. cbn [negb].
  apply hub_bind_ub, hub_bind_ub, use_freed. rewrite (proj1 O14). intros [?|?]; [done|lia].
Qed.

(** Without a token the result is the entries of the answer, and all handles are closed. *)
Lemma query_answered fuel w : (0 < fuel)%nat -> fresh_ok w -> rs_continuation a = None -> exists l w',
  prx_ns_iot_hub_registry_entry_query fuel registry query_string w =
    Ok (if bool_decide (ts = []) then inr er_not_found else inl (Resultset l (zlen ts)), w') /\ live w' = live w /\
  Forall2 (fun x t => twins w' !! x = Some t) l ts /\ NoDup l /\ (forall x, x ∉ l -> twins w' !! x = twins w !! x) /\
  (forall x, x ∈ l -> twins w !! x = None) /\ fresh_ok w'.
Proof.
  intros Hf Hw0 Ec. unfold prx_ns_iot_hub_registry_entry_query. destruct (try_ok w) as (w0 & E0 & (T0 & V0 & X0)).
  assert (Hw : fresh_ok w0) by (intros h; rewrite V0, T0, X0; apply Hw0).
  destruct fuel as [|fuel]; [lia|]. cbn [query_loop].
  destruct (query_page_ok w0 Hw) as (l & w1 & w2 & E1 & O & V & (F & K & N & Nx & Fr)).
  destruct (free_page_ok w0 w2 w1 Hw O V) as (w3 & E3 & V3 & T3 & X3). destruct O as (VO & XO & TO).
  rewrite (hub_bind_eq _ _ _ _ _ E0). cbn [negb]. unfold token_of in E1. rewrite Ec in E1. cbn [fmap option_fmap option_map] in E1.
  rewrite (hub_bind_eq _ _ _ _ _ E1). cbv beta iota. rewrite (hub_bind_eq _ _ _ _ _ E3). exists l, w3. split_and!.
  - unfold found. destruct (decide (ts = [])) as [Hts|Hts].
    + rewrite !(bool_decide_eq_true_2 (ts = [])) by done. rewrite bool_decide_eq_true_2 by done.
      assert (l = []) as -> by (rewrite Hts in F; by inversion F). done.
    + rewrite !(bool_decide_eq_false_2 (ts = [])) by done. rewrite bool_decide_eq_false_2 by (intros Hn; by apply Hn). done.
  - by rewrite V3, V0.
  - eapply Forall2_impl; [exact F|]. intros x t. by rewrite T3.
  - done.
  - intros x Hx. rewrite T3, K by done. by rewrite TO, T0.
  - intros x Hx. apply Nx in Hx. apply not_elem_of_dom. intros Hin. specialize (Hw0 x (or_intror Hin)). lia.
  - intros h Hh. rewrite X3. apply Fr. rewrite V3, T3 in Hh. destruct Hh as [Hh|Hh]; [left|by right]. rewrite V. apply VO. by left.
Qed.

(** C29: A query gives all entries of an answer in one page, and crashes on the second page.
    When the hub answers the query with status 200 and a list of twins, and no continuation
    token comes with it, then [prx_ns_iot_hub_registry_entry_query] gives the entries in
    order, at new addresses, and every handle it opened is closed; an empty list is
    [er_not_found].  When there is a token after a list that is not empty, the query reads
    it from the headers of the first answer after these were freed.  There is memory and
    the token provider works. *)
Theorem query_one_page fuel w : (1 < fuel)%nat -> fresh_ok w ->
  match rs_continuation a with
  | None => exists l w',
      prx_ns_iot_hub_registry_entry_query fuel registry query_string w =
        Ok (if bool_decide (ts = []) then inr er_not_found else inl (Resultset l (zlen ts)), w') /\ live w' = live w /\
      Forall2 (fun x t => twins w' !! x = Some t) l ts /\ NoDup l /\ (forall x, x ∉ l -> twins w' !! x = twins w !! x) /\
      (forall x, x ∈ l -> twins w !! x = None) /\ fresh_ok w'
  | Some _ => ts <> [] -> prx_ns_iot_hub_registry_entry_query fuel registry query_string w = UB
  end.
Proof.
  intros Hf Hw0. destruct (rs_continuation a) as [v|] eqn:Ec; [|apply query_answered; [lia|done|done]]. intros Hne.
  unfold prx_ns_iot_hub_registry_entry_query. destruct (try_ok w) as (w0 & E0 & (T0 & V0 & X0)).
  assert (Hw : fresh_ok w0) by (intros h; rewrite V0, T0, X0; apply Hw0).
  destruct fuel as [|[|fuel]]; [lia|lia|]. cbn [query_loop].
  destruct (query_page_ok w0 Hw) as (l & w1 & w2 & E1 & O & V & (F & K & N & Nx & Fr)).
  destruct (free_page_ok w0 w2 w1 Hw O V) as (w3 & E3 & V3 & T3 & X3). destruct O as (VO & XO & TO).
  rewrite (hub_bind_eq _ _ _ _ _ E0). cbn [negb]. unfold token_of in E1. rewrite Ec in E1. cbn [fmap option_fmap option_map] in E1.
  rewrite (hub_bind_eq _ _ _ _ _ E1). cbv beta iota. rewrite (hub_bind_eq _ _ _ _ _ E3). unfold found. rewrite (bool_decide_eq_false_2 (ts = [])) by done.
  rewrite bool_decide_eq_false_2 by (intros Hn; by apply Hn). apply hub_bind_ub, page_stale.
  - rewrite V3. intros Hin. specialize (Hw _ (or_introl Hin)). lia.
  - rewrite X3. apply Fr. left. rewrite V. apply VO. lia.
Qed.
End Answered.

(** ** Searching several hubs *)

(** The hub answers the query with these twins, in one page. *)
Definition answers_with (query_string : bytes) (registry : hub_registry) (ts : list J) : Prop := exists host a doc,
  hub_host registry = Some host /\ rs_status a = 200 /\ json_parse_string (rs_body a) = Some doc /\
  json_value_get_array doc = Some ts /\ rs_continuation a = None /\
  forall n, http n (Request (Some host) HTTPAPI_REQUEST_POST (str "/devices/query" ++ api_version) None
              (Some (query_document query_string))) = Some a.

(** [w'] is [w] with the twins [ts] at the new addresses [l]. *)
Record twins_grown w w' (l : list nat) (ts : list J) : Prop := {
  tg_at : Forall2 (fun x t => twins w' !! x = Some t) l ts;
  tg_keep : forall x, x ∉ l -> twins w' !! x = twins w !! x;
  tg_nodup : NoDup l;
  tg_new : forall x, x ∈ l -> twins w !! x = None;
  tg_live : live w' = live w;
  tg_fresh : fresh_ok w';
}.
Lemma twins_grown_trans w w1 w2 l1 ts1 l2 ts2 : twins_grown w w1 l1 ts1 -> twins_grown w1 w2 l2 ts2 -> twins_grown w w2 (l1 ++ l2) (ts1 ++ ts2).
Proof.
  intros [A1 A2 A3 A4 A5 A6] [B1 B2 B3 B4 B5 B6].
  assert (Hdis : forall x, x ∈ l1 -> x ∉ l2).
  { intros x H1 H2. apply B4 in H2. apply list_elem_of_lookup in H1 as (i & Hi).
    destruct (Forall2_lookup_l _ _ _ _ _ A1 Hi) as (t & _ & Ht). congruence. }
  split.
  - apply Forall2_app; [|done]. apply (Forall2_keep _ _ _ _ A1). intros x t Hx Ht. rewrite B2; [done|]. by apply Hdis.
  - intros x [H1 H2]%not_elem_of_app. by rewrite B2, A2.
  - apply NoDup_app. split_and!; [done| |done]. exact Hdis.
  - intros x [Hx|Hx]%elem_of_app; [by apply A4|]. destruct (decide (x ∈ l1)) as [H1|H1]; [by apply A4|]. rewrite <- A2 by done. by apply B4.
  - congruence.
  - done.
Qed.

Lemma by_name_run fuel registry name ts w : (0 < fuel)%nat -> fresh_ok w ->
  answers_with (quoted (str "SELECT * FROM devices WHERE tags.name='") name) registry ts -> exists l w',
  prx_ns_iot_hub_registry_entry_by_name fuel registry name w =
    Ok (if bool_decide (ts = []) then inr er_not_found else inl (Resultset l (zlen ts)), w') /\ twins_grown w w' l ts.
Proof.
  intros Hf Hw (host & a & doc & H1 & H2 & H3 & H4 & H5 & H6). unfold prx_ns_iot_hub_registry_entry_by_name, query_for.
  destruct (tries_ok 3 w) as (w1 & E1 & (T1 & V1 & X1)). rewrite (hub_bind_eq _ _ _ _ _ E1). cbn [negb].
  destruct (query_answered registry host _ a doc ts H1 H2 H3 H4 H6 fuel w1 Hf) as (l & w' & E & V & F & N & K & Nw & Fr); [|done|].
  { intros h. rewrite V1, T1, X1. apply Hw. }
  exists l, w'. split; [exact E|]. split; [done| |done| |congruence|done].
  - intros x Hx. rewrite K by done. by rewrite T1.
  - intros x Hx. rewrite <- T1. by apply Nw.
Qed.

(** Hubs that all have entries. *)
Lemma search_loop_run fuel name hubs tss : (0 < fuel)%nat ->
  Forall2 (fun hub ts => answers_with (quoted (str "SELECT * FROM devices WHERE tags.name='") name) hub ts /\ ts <> []) hubs tss ->
  forall w r0 l0 n0 rest, fresh_ok w -> exists l w' r1 set1,
    composite_search_loop (fun hub => prx_ns_iot_hub_registry_entry_by_name fuel hub name) (hubs ++ rest) r0 (Some (Resultset l0 n0)) w =
      composite_search_loop (fun hub => prx_ns_iot_hub_registry_entry_by_name fuel hub name) rest r1 (Some set1) w' /\
    set1 = Resultset (l0 ++ l) (n0 + zlen (mjoin tss)) /\ r1 = (if bool_decide (hubs = []) then r0 else er_ok) /\ twins_grown w w' l (mjoin tss).
Proof.
  intros Hf. induction 1 as [|hub ts hubs tss [Ha Hne] _ IH]; intros w r0 l0 n0 rest Hw.
  { exists [], w, r0, (Resultset l0 n0). split_and!; [done|f_equal; [by rewrite app_nil_r|change (zlen (mjoin (@nil (list J)))) with 0; lia]|done|].
    split; [constructor|done|constructor|set_solver|done|done]. }
  destruct (by_name_run fuel hub name ts w Hf Hw Ha) as (l1 & w1 & E1 & G1). rewrite bool_decide_eq_false_2 in E1 by done.
  destruct (IH w1 er_ok (l0 ++ l1) (n0 + zlen ts) rest (tg_fresh _ _ _ _ G1)) as (l & w' & r1 & set1 & E & -> & Hr & G).
  exists (l1 ++ l), w'. eexists _, _. split_and!; [|reflexivity|reflexivity|by eapply twins_grown_trans].
  cbn [app composite_search_loop]. rewrite (hub_bind_eq _ _ _ _ _ E1). cbv beta iota. cbn [join_results head count]. rewrite E, Hr.
  change (mjoin (ts :: tss)) with (ts ++ mjoin tss). rewrite zlen_app, app_assoc, Z.add_assoc. rewrite (bool_decide_eq_false_2 (hub :: hubs = [])) by done. by case_bool_decide.
Qed.

(** The addresses of a search are freed again. *)
Lemma free_twins_run l : forall w, NoDup l -> (forall x, x ∈ l -> is_Some (twins w !! x)) -> exists w',
  free_twins l w = Ok (tt, w') /\ live w' = live w /\ next w' = next w /\
  forall x, twins w' !! x = if decide (x ∈ l) then None else twins w !! x.
Proof.
  induction l as [|a l IH]; intros w Hnd Ha; cbn [free_twins].
  { exists w. split_and!; done. }
  apply NoDup_cons in Hnd as [Hx Hnd]. destruct (Ha a (list_elem_of_here _ _)) as [t Ht].
  assert (E : prx_ns_iot_hub_twin_entry_free a w = Ok (tt, World (delete a (twins w)) (live w) (next w) (asked w)))
    by (unfold prx_ns_iot_hub_twin_entry_free; by rewrite Ht).
  rewrite (hub_bind_eq _ _ _ _ _ E). destruct (IH (World (delete a (twins w)) (live w) (next w) (asked w)) Hnd) as (w' & E' & V & X & K).
  { intros x Hin. cbn. rewrite lookup_delete_ne by (intros ->; done). apply Ha. by apply list_elem_of_further. }
  exists w'. split_and!; [exact E'|done|done|]. intros x. rewrite K. cbn. destruct (decide (a = x)) as [->|Hax].
  - rewrite lookup_delete_eq. rewrite (decide_True (P := x ∈ x :: l)) by apply list_elem_of_here. by case_decide.
  - rewrite lookup_delete_ne by done. destruct (decide (x ∈ l)) as [Hl|Hl].
    + by rewrite decide_True by (by apply list_elem_of_further).
    + rewrite decide_False; [done|]. intros [->|?]%elem_of_cons; done.
Qed.

(** A search over several hubs is all or nothing.  When every hub has entries with the
    name, the result has all of them, hub after hub.  But when a hub has none, the search
    ends with [er_not_found] and the entries the hubs before it gave are thrown away, even
    though the function is to get the matching entries in all hubs. *)
Lemma composite_all_or_nothing fuel name hub ts hubs tss rest w : (0 < fuel)%nat -> fresh_ok w ->
  Forall2 (fun hub ts => answers_with (quoted (str "SELECT * FROM devices WHERE tags.name='") name) hub ts /\ ts <> [])
    (hub :: hubs) (ts :: tss) ->
  match rest with
  | [] => exists l w', prx_ns_iot_hub_composite_entry_by_name fuel (hub :: hubs) name w =
            Ok (inl (Resultset l (zlen (ts ++ mjoin tss))), w') /\ twins_grown w w' l (ts ++ mjoin tss)
  | last :: others => answers_with (quoted (str "SELECT * FROM devices WHERE tags.name='") name) last [] ->
      exists w', prx_ns_iot_hub_composite_entry_by_name fuel (hub :: hubs ++ last :: others) name w = Ok (inr er_not_found, w') /\
        twins w' = twins w /\ live w' = live w
  end.
Proof.
  intros Hf Hw Hall. inversion Hall as [|? ? ? ? [Ha Hne] Hhubs]; subst.
  destruct (by_name_run fuel hub name ts w Hf Hw Ha) as (l1 & w1 & E1 & G1). rewrite bool_decide_eq_false_2 in E1 by done.
  destruct (search_loop_run fuel name hubs tss Hf Hhubs w1 er_ok l1 (zlen ts) rest (tg_fresh _ _ _ _ G1)) as (l & w2 & r1 & set1 & E2 & -> & Hr & G2).
  assert (r1 = er_ok) as -> by (rewrite Hr; by case_bool_decide). pose proof (twins_grown_trans _ _ _ _ _ _ _ G1 G2) as G.
  assert (Hrun : forall r w', composite_search_loop (fun hub => prx_ns_iot_hub_registry_entry_by_name fuel hub name) rest er_ok
             (Some (Resultset (l1 ++ l) (zlen ts + zlen (mjoin tss)))) w2 = Ok (r, w') ->
           composite_search_loop (fun hub => prx_ns_iot_hub_registry_entry_by_name fuel hub name) (hub :: hubs ++ rest) er_not_found None w = Ok (r, w')).
  { intros r w' E. cbn [composite_search_loop]. rewrite (hub_bind_eq _ _ _ _ _ E1). cbv beta iota. cbn [join_results]. by rewrite E2. }
  unfold prx_ns_iot_hub_composite_entry_by_name, composite_search. destruct rest as [|last others].
  - rewrite app_nil_r in Hrun. specialize (Hrun _ _ eq_refl). exists (l1 ++ l), w2. split; [|done]. rewrite (hub_bind_eq _ _ _ _ _ Hrun). cbv beta iota.
    rewrite bool_decide_eq_false_2 by (intros Hn; by apply Hn). by rewrite zlen_app.
  - intros Hlast. destruct (by_name_run fuel last name [] w2 Hf (tg_fresh _ _ _ _ G2) Hlast) as (l3 & w3 & E3 & G3).
    assert (l3 = []) as -> by (pose proof (tg_at _ _ _ _ G3) as F; by inversion F). pose proof (twins_grown_trans _ _ _ _ _ _ _ G G3) as G4. rewrite !app_nil_r in G4.
    erewrite hub_bind_eq; [|apply Hrun; cbn [composite_search_loop]; rewrite (hub_bind_eq _ _ _ _ _ E3); reflexivity]. cbv beta iota.
    rewrite bool_decide_eq_true_2 by done. cbn [head].
    destruct (free_twins_run (l1 ++ l) w3 (tg_nodup _ _ _ _ G4)) as (w4 & E4 & V4 & X4 & K4).
    { intros x Hx. apply list_elem_of_lookup in Hx as (i & Hi). destruct (Forall2_lookup_l _ _ _ _ _ (tg_at _ _ _ _ G4) Hi) as (t & _ & Ht). by exists t. }
    rewrite (hub_bind_eq _ _ _ _ _ E4). exists w4. split_and!; [done| |by rewrite V4, (tg_live _ _ _ _ G4)].
    apply map_eq. intros x. rewrite K4. case_decide as Hx; [by rewrite (tg_new _ _ _ _ G4)|]. by apply (tg_keep _ _ _ _ G4).
Qed.
End Hub.

(** ** Two hubs *)

(** Documents that are lists of names, one byte each. *)
#[export] Instance names_json : json_library bytes := {
  json_parse_string s := Some s;
  json_value_get_array s := Some ((fun c => [c]) <$> s);
  json_dotget_string s _ := Some s;
  json_dotget_number _ _ := 0;
  json_serialize _ := [];
}.
Definition world0 : world (J := bytes) := World ∅ ∅ 0 0.
(** The host decides: "a" has two entries, "b" none, "c" sends a token. *)
Definition answer_of (host : bytes) : response :=
  if bool_decide (host = str "a") then Response 200 (str "xy") None
  else if bool_decide (host = str "b") then Response 200 [] None
  else Response 200 (str "z") (Some (str "more")).
Definition hubs_http (n : nat) (r : request) : option response := answer_of <$> rq_host r.

Lemma fresh0 : fresh_ok world0.
Proof. intros h [Hh|Hh]; cbn in Hh; set_solver. Qed.


Lemma query_one_page_witness :
  (exists l w', prx_ns_iot_hub_registry_entry_query (fun _ => true) (fun _ => er_ok) hubs_http None 2 (Hub (Some (str "a")) 0) (str "q") world0 =
     Ok (inl (Resultset l 2), w') /\ live w' = ∅) /\
  prx_ns_iot_hub_registry_entry_query (fun _ => true) (fun _ => er_ok) hubs_http None 2 (Hub (Some (str "c")) 0) (str "q") world0 = UB.
Proof.
  split.
  - destruct (query_one_page (J := bytes) (H := names_json) (fun _ => true) (fun _ => er_ok) hubs_http None (fun _ => eq_refl) (fun _ => eq_refl) (Hub (Some (str "a")) 0)
      (str "a") (str "q") (answer_of (str "a")) (str "xy") [[120]; [121]] eq_refl eq_refl ltac:(vm_compute; reflexivity) ltac:(vm_compute; reflexivity) (fun _ => eq_refl) 2 world0 ltac:(lia) fresh0)
      as (l & w' & E & V & _). exists l, w'. split; [exact E|exact V].
  - apply (query_one_page (J := bytes) (H := names_json) (fun _ => true) (fun _ => er_ok) hubs_http None (fun _ => eq_refl) (fun _ => eq_refl) (Hub (Some (str "c")) 0)
      (str "c") (str "q") (answer_of (str "c")) (str "z") [[122]] eq_refl eq_refl ltac:(vm_compute; reflexivity) ltac:(vm_compute; reflexivity) (fun _ => eq_refl) 2 world0 ltac:(lia) fresh0).
    discriminate.
Defined.

End PrxHub.
