(* ===== verification/IoTypes.v ===== *)
(** * Encoding of the platform types (src/io_types.c)

    One encoder and one decoder per type, in the order in which they call each
    other.  A decoder gets the structure it stores into and returns the updated
    one.  The functions are defined over any codec [K]; that decoding inverts
    encoding is proved from the laws of the codec (IoCodecSpec): [..._fields] is
    the document a value is encoded as, [emits_...] and [parses_...] relate both
    directions to it.

    A value that holds pointers is related to its contents with [..._den mu],
    where [mu] is the memory the pointers are read in. *)
From stdpp Require Import base option list numbers strings.
From S2P Require Import Prelude PrxTypes IoMem IoCodec IoCodecSpec.
Import PrxTypes IoMem IoCodec IoCodecSpec.

Module IoTypes.

Section Functions.
Context {S R : Type} (K : io_codec S R).
Local Open Scope string_scope.

(** ** Socket addresses *)

Definition io_encode_prx_socket_address_inet (prx_sa : prx_socket_address_inet) : M S R unit :=
  enc_tbegin K (if bool_decide (ip_family prx_sa = prx_address_family_inet) then 3 else 5);;
  io_encode_int32 K (Some "family") (ip_family prx_sa);;
  io_encode_uint16 K (Some "port") (ip_port prx_sa);;
  (if bool_decide (ip_family prx_sa = prx_address_family_inet) then
     enc_bin K (Some "addr") (as_in4 (ip_un prx_sa))
   else
     io_encode_uint32 K (Some "flow") (ip_flow prx_sa);;
     enc_bin K (Some "addr") (as_in6 (ip_un prx_sa));;
     io_encode_uint32 K (Some "scope_id") (as_scope_id (ip_un prx_sa)));;
  enc_tend K.

(** The header and the family were already decoded. *)
Definition io_decode_prx_socket_address_inet (prx_sa : prx_socket_address_inet)
  : M S R prx_socket_address_inet :=
  port ← io_decode_uint16 K (Some "port");
  sa ← (if bool_decide (ip_family prx_sa = prx_address_family_inet) then
     '(addr, _) ← io_decode_bin_fixed K (Some "addr") (as_in4 (ip_un prx_sa));
     mret {| ip_family := ip_family prx_sa; ip_port := port; ip_flow := 0;
             ip_un := in4 addr |}
   else
     flow ← io_decode_uint32 K (Some "flow");
     '(addr, _) ← io_decode_bin_fixed K (Some "addr") (as_in6 (ip_un prx_sa));
     scope_id ← io_decode_uint32 K (Some "scope_id");
     mret {| ip_family := ip_family prx_sa; ip_port := port; ip_flow := flow;
             ip_un := in6 addr scope_id |});
  dec_tend K;;
  mret sa.

Definition io_encode_prx_socket_address_proxy (prx_sa : prx_socket_address_proxy) : M S R unit :=
  enc_tbegin K 5;;
  io_encode_int32 K (Some "family") prx_address_family_proxy;;
  io_encode_uint16 K (Some "port") (px_port prx_sa);;
  io_encode_uint16 K (Some "flags") (px_flags prx_sa);;
  io_encode_int32 K (Some "itf_index") (px_itf_index prx_sa);;
  enc_string K (Some "host") (cstr (px_host prx_sa));;
  enc_tend K.

Definition io_decode_prx_socket_address_proxy (prx_sa : prx_socket_address_proxy)
  : M S R prx_socket_address_proxy :=
  port ← io_decode_uint16 K (Some "port");
  flags ← io_decode_uint16 K (Some "flags");
  itf_index ← io_decode_int32 K (Some "itf_index");
  host ← io_decode_string_fixed K (Some "host") (px_host prx_sa);
  dec_tend K;;
  mret {| px_port := port; px_flags := flags; px_itf_index := itf_index; px_host := host |}.

Definition io_encode_prx_socket_address_unix (path : bytes) : M S R unit :=
  enc_tbegin K 2;;
  io_encode_int32 K (Some "family") prx_address_family_unix;;
  enc_string K (Some "path") (cstr path);;
  enc_tend K.

Definition io_decode_prx_socket_address_unix (path : bytes) : M S R bytes :=
  path ← io_decode_string_fixed K (Some "path") path;
  dec_tend K;;
  mret path.

Definition io_encode_prx_socket_address (prx_sa : prx_socket_address) : M S R unit :=
  let family := un_family prx_sa in
  if bool_decide (family = prx_address_family_unspec) then
    enc_tbegin K 1;;
    io_encode_int32 K (Some "family") family;;
    enc_tend K
  else if bool_decide (family = prx_address_family_inet \/ family = prx_address_family_inet6) then
    io_encode_prx_socket_address_inet (as_ip prx_sa)
  else if bool_decide (family = prx_address_family_proxy) then
    io_encode_prx_socket_address_proxy (as_proxy prx_sa)
  else if bool_decide (family = prx_address_family_unix) then
    io_encode_prx_socket_address_unix (as_ux prx_sa)
  else fail er_arg.

Definition io_decode_prx_socket_address (prx_sa : prx_socket_address) : M S R prx_socket_address :=
  dec_tbegin K;;
  family ← io_decode_int32 K (Some "family");
  if bool_decide (family = prx_address_family_unspec) then
    dec_tend K;; mret sa_unspec
  else if bool_decide (family = prx_address_family_inet \/ family = prx_address_family_inet6) then
    let ip := as_ip prx_sa in
    ip ← io_decode_prx_socket_address_inet
           {| ip_family := family; ip_port := ip_port ip; ip_flow := ip_flow ip; ip_un := ip_un ip |};
    mret (sa_ip ip)
  else if bool_decide (family = prx_address_family_proxy) then
    p ← io_decode_prx_socket_address_proxy (as_proxy prx_sa);
    mret (sa_proxy p)
  else if bool_decide (family = prx_address_family_unix) then
    p ← io_decode_prx_socket_address_unix (as_ux prx_sa);
    mret (sa_ux p)
  else fail er_invalid_format.

(** ** Address, interface and file information *)

(** A name that is NULL is sent as the empty string. *)
Definition loads_name (name : ptr) : M S R bytes :=
  match name with p_null => mret [] | _ => loads_str name end.

Definition io_encode_prx_addrinfo (prx_ai : prx_addrinfo ptr) : M S R unit :=
  enc_tbegin K 2;;
  io_encode_object_m K (Some "address") (io_encode_prx_socket_address (ai_address prx_ai));;
  (s ← loads_name (ai_name prx_ai); enc_string K (Some "name") s);;
  enc_tend K.

Definition io_decode_prx_addrinfo (prx_ai : prx_addrinfo ptr) : M S R (prx_addrinfo ptr) :=
  dec_tbegin K;;
  address ← io_decode_object_m K (Some "address") (ai_address prx_ai) io_decode_prx_socket_address;
  name ← io_decode_string_default K (Some "name");
  dec_tend K;;
  mret {| ai_address := address; ai_reserved := 0; ai_name := name |}.

Definition io_encode_prx_ifaddrinfo (prx_ifa : prx_ifaddrinfo) : M S R unit :=
  enc_tbegin K 6;;
  io_encode_object_m K (Some "address") (io_encode_prx_socket_address (ifa_address prx_ifa));;
  io_encode_uint8 K (Some "prefix") (ifa_prefix prx_ifa);;
  io_encode_uint8 K (Some "flags") (ifa_flags prx_ifa);;
  enc_string K (Some "name") (cstr (ifa_name prx_ifa));;
  io_encode_int32 K (Some "index") (ifa_index prx_ifa);;
  io_encode_object_m K (Some "broadcast_addr")
    (io_encode_prx_socket_address (ifa_broadcast_addr prx_ifa));;
  enc_tend K.

Definition io_decode_prx_ifaddrinfo (prx_ifa : prx_ifaddrinfo) : M S R prx_ifaddrinfo :=
  dec_tbegin K;;
  address ← io_decode_object_m K (Some "address") (ifa_address prx_ifa)
              io_decode_prx_socket_address;
  prefix ← io_decode_uint8 K (Some "prefix");
  flags ← io_decode_uint8 K (Some "flags");
  name ← io_decode_string_fixed K (Some "name") (ifa_name prx_ifa);
  index ← io_decode_int32 K (Some "index");
  broadcast_addr ← io_decode_object_m K (Some "broadcast_addr") (ifa_broadcast_addr prx_ifa)
                     io_decode_prx_socket_address;
  dec_tend K;;
  mret {| ifa_address := address; ifa_prefix := prefix; ifa_flags := flags; ifa_reserved := 0;
          ifa_name := name; ifa_index := index; ifa_broadcast_addr := broadcast_addr |}.

Definition io_encode_prx_file_info (prx_fi : prx_file_info) : M S R unit :=
  enc_tbegin K 6;;
  io_encode_uint64 K (Some "inode_number") (fi_inode_number prx_fi);;
  io_encode_uint64 K (Some "device_id") (fi_device_id prx_fi);;
  io_encode_int32 K (Some "type") (fi_type prx_fi);;
  io_encode_uint64 K (Some "total_size") (fi_total_size prx_fi);;
  io_encode_uint64 K (Some "last_atime") (fi_last_atime prx_fi);;
  io_encode_uint64 K (Some "last_mtime") (fi_last_mtime prx_fi);;
  enc_tend K.

Definition io_decode_prx_file_info : M S R prx_file_info :=
  dec_tbegin K;;
  inode_number ← io_decode_uint64 K (Some "inode_number");
  device_id ← io_decode_uint64 K (Some "device_id");
  type ← io_decode_int32 K (Some "type");
  total_size ← io_decode_uint64 K (Some "total_size");
  last_atime ← io_decode_uint64 K (Some "last_atime");
  last_mtime ← io_decode_uint64 K (Some "last_mtime");
  dec_tend K;;
  mret {| fi_inode_number := inode_number; fi_device_id := device_id; fi_type := type;
          fi_total_size := total_size; fi_last_atime := last_atime;
          fi_last_mtime := last_mtime |}.

(** ** Multicast options and properties *)

Definition io_encode_prx_multicast_option (prx_mo : prx_multicast_option) : M S R unit :=
  enc_tbegin K 3;;
  io_encode_int32 K (Some "family") (mo_family prx_mo);;
  io_encode_int32 K (Some "itf_index") (mo_itf_index prx_mo);;
  (if bool_decide (mo_family prx_mo = prx_address_family_inet) then
     enc_bin K (Some "addr") (as_in4 (mo_addr prx_mo))
   else if bool_decide (mo_family prx_mo = prx_address_family_inet6) then
     enc_bin K (Some "addr") (as_in6 (mo_addr prx_mo))
   else fail er_invalid_format);;
  enc_tend K.

(** The source ends this decoder with [__io_encode_type_end]. *)
Definition io_decode_prx_multicast_option (prx_mo : prx_multicast_option)
  : M S R prx_multicast_option :=
  dec_tbegin K;;
  family ← io_decode_int32 K (Some "family");
  itf_index ← io_decode_int32 K (Some "itf_index");
  addr ← (if bool_decide (family = prx_address_family_inet) then
     '(addr, _) ← io_decode_bin_fixed K (Some "addr") (as_in4 (mo_addr prx_mo));
     mret (in4 addr)
   else if bool_decide (family = prx_address_family_inet6) then
     '(addr, _) ← io_decode_bin_fixed K (Some "addr") (as_in6 (mo_addr prx_mo));
     mret (in6 addr (u32 itf_index))
   else fail er_invalid_format);
  enc_tend K;;
  mret {| mo_family := family; mo_itf_index := itf_index; mo_addr := addr |}.

(** The three branches on the type of a property. *)
Definition is_object_type (t : Z) : bool :=
  bool_decide (t = prx_so_ip_multicast_join \/ t = prx_so_ip_multicast_leave \/
               t >= prx_property_type_file_info).
Definition is_record_type (t : Z) : bool :=
  bool_decide (t >= prx_record_type_default /\ t < prx_record_max).
Definition is_socket_option (t : Z) : bool :=
  bool_decide (t > prx_so_unknown /\ t < prx_so_max).

Definition io_encode_prx_property (prx_prop : prx_property ptr) : M S R unit :=
  let t := prop_type prx_prop in
  enc_tbegin K 2;;
  io_encode_int32 K (Some "type") t;;
  (if is_object_type t then
     obj ← enc_object K (Some "property") false;
     under obj
       (if bool_decide (t = prx_so_ip_multicast_join \/ t = prx_so_ip_multicast_leave) then
          io_encode_prx_multicast_option (as_mcast (prop_un prx_prop))
        else if bool_decide (t = prx_property_type_addrinfo) then
          io_encode_prx_addrinfo (as_addr_info p_null (prop_un prx_prop))
        else if bool_decide (t = prx_property_type_ifaddrinfo) then
          io_encode_prx_ifaddrinfo (as_itf_info (prop_un prx_prop))
        else if bool_decide (t = prx_property_type_file_info) then
          io_encode_prx_file_info (as_file_info (prop_un prx_prop))
        else fail er_writing)
   else if is_record_type t then
     let '(value, size) := as_bin p_null (prop_un prx_prop) in
     b ← loads value size; enc_bin K (Some "property") b
   else if is_socket_option t then
     io_encode_uint64 K (Some "property") (as_value (prop_un prx_prop))
   else fail er_writing);;
  enc_tend K.

Definition io_decode_prx_property (prx_prop : prx_property ptr) : M S R (prx_property ptr) :=
  dec_tbegin K;;
  t ← io_decode_int32 K (Some "type");
  un ← (if is_object_type t then
     '(is_null, obj) ← io_decode_object K (Some "property") true;
     if (is_null : bool) then fail er_invalid_format else
     under obj
       (if bool_decide (t = prx_so_ip_multicast_join \/ t = prx_so_ip_multicast_leave) then
          m ← io_decode_prx_multicast_option (as_mcast (prop_un prx_prop)); mret (pv_mcast m)
        else if bool_decide (t = prx_property_type_addrinfo) then
          a ← io_decode_prx_addrinfo (as_addr_info p_null (prop_un prx_prop)); mret (pv_addr_info a)
        else if bool_decide (t = prx_property_type_ifaddrinfo) then
          i ← io_decode_prx_ifaddrinfo (as_itf_info (prop_un prx_prop)); mret (pv_itf_info i)
        else if bool_decide (t = prx_property_type_file_info) then
          f ← io_decode_prx_file_info; mret (pv_file_info f)
        else fail er_invalid_format)
   else if is_record_type t then
     '(value, size) ← io_decode_bin_default K (Some "property"); mret (pv_bin value size)
   else if is_socket_option t then
     v ← io_decode_uint64 K (Some "property"); mret (pv_value v)
   else fail er_invalid_format);
  dec_tend K;;
  mret {| prop_type := t; prop_un := un |}.

(** ** Socket properties *)

Definition is_set (p : prx_property ptr) : bool := is_socket_option (prop_type p).

Fixpoint io_encode_options (options : list (prx_property ptr)) : M S R unit :=
  match options with
  | [] => mret tt
  | o :: options =>
      if is_set o
      then (obj ← enc_object K None false; under obj (io_encode_prx_property o));;
           io_encode_options options
      else io_encode_options options
  end.

Definition count_options (options : list (prx_property ptr)) : Z :=
  zlen (filter (fun o => is_set o = true) options).

Definition io_encode_prx_socket_properties (prx_sp : prx_socket_properties ptr) : M S R unit :=
  enc_tbegin K 7;;
  io_encode_int32 K (Some "family") (sp_family prx_sp);;
  io_encode_int32 K (Some "sock_type") (sp_sock_type prx_sp);;
  io_encode_int32 K (Some "proto_type") (sp_proto_type prx_sp);;
  io_encode_uint32 K (Some "flags") (sp_flags prx_sp);;
  io_encode_uint64 K (Some "timeout") (sp_timeout prx_sp);;
  io_encode_object_m K (Some "address") (io_encode_prx_socket_address (sp_address prx_sp));;
  (arr ← enc_array K (Some "options") (count_options (sp_options prx_sp));
   under arr (io_encode_options (sp_options prx_sp)));;
  enc_tend K.

(** An option that is set is copied to the index of its type. *)
Definition set_option {P} (options : list (prx_property P)) (option : prx_property P) : list (prx_property P) :=
  if is_socket_option (prop_type option) then <[Z.to_nat (prop_type option) := option]> options else options.

(** [option] is a variable of the function: what one iteration leaves in it is
    there in the next. *)
Fixpoint io_decode_options (size : nat) (option : prx_property ptr)
    (options : list (prx_property ptr)) : M S R (list (prx_property ptr)) :=
  match size with
  | O => mret options
  | Datatypes.S size =>
      '(_, obj) ← io_decode_object K None false;
      option ← under obj (io_decode_prx_property
                            {| prop_type := 0; prop_un := prop_un option |});
      io_decode_options size option
        (set_option options option)
  end.

Definition no_option {P} : prx_property P := {| prop_type := 0; prop_un := pv_value 0 |}.
Definition no_options {P} : list (prx_property P) := replicate (Z.to_nat prx_so_max) no_option.

(** [option]: what the variable holds before it is first stored to. *)
Definition io_decode_prx_socket_properties (option : prx_property ptr)
    (prx_sp : prx_socket_properties ptr) : M S R (prx_socket_properties ptr) :=
  dec_tbegin K;;
  family ← io_decode_int32 K (Some "family");
  sock_type ← io_decode_int32 K (Some "sock_type");
  proto_type ← io_decode_int32 K (Some "proto_type");
  flags ← io_decode_uint32 K (Some "flags");
  timeout ← io_decode_uint64 K (Some "timeout");
  address ← io_decode_object_m K (Some "address") (sp_address prx_sp) io_decode_prx_socket_address;
  options ← ('(size, arr) ← dec_array K (Some "options");
             under arr (io_decode_options (Z.to_nat size) option no_options));
  dec_tend K;;
  mret {| sp_family := family; sp_sock_type := sock_type; sp_proto_type := proto_type;
          sp_flags := flags; sp_timeout := timeout; sp_address := address;
          sp_options := options |}.
End Functions.

(** ** The documents *)
Local Open Scope string_scope.

Definition sa_fields (sa : prx_socket_address) : list field :=
  match sa with
  | sa_unspec => [(Some "family", VInt prx_address_family_unspec)]
  | sa_ip ip =>
      match ip_un ip with
      | in4 a => [(Some "family", VInt (ip_family ip)); (Some "port", VUint (ip_port ip));
                  (Some "addr", VBin a)]
      | in6 a scope => [(Some "family", VInt (ip_family ip)); (Some "port", VUint (ip_port ip));
                        (Some "flow", VUint (ip_flow ip)); (Some "addr", VBin a);
                        (Some "scope_id", VUint scope)]
      end
  | sa_ux p => [(Some "family", VInt prx_address_family_unix); (Some "path", VStr (cstr p))]
  | sa_proxy p => [(Some "family", VInt prx_address_family_proxy); (Some "port", VUint (px_port p));
                   (Some "flags", VUint (px_flags p)); (Some "itf_index", VInt (px_itf_index p));
                   (Some "host", VStr (cstr (px_host p)))]
  | sa_other _ => []
  end.

Definition addrinfo_fields (a : prx_addrinfo bytes) : list field :=
  [(Some "address", VObj (sa_fields (ai_address a))); (Some "name", VStr (ai_name a))].

Definition ifaddrinfo_fields (i : prx_ifaddrinfo) : list field :=
  [(Some "address", VObj (sa_fields (ifa_address i))); (Some "prefix", VUint (ifa_prefix i));
   (Some "flags", VUint (ifa_flags i)); (Some "name", VStr (cstr (ifa_name i)));
   (Some "index", VInt (ifa_index i));
   (Some "broadcast_addr", VObj (sa_fields (ifa_broadcast_addr i)))].

Definition file_info_fields (f : prx_file_info) : list field :=
  [(Some "inode_number", VUint (fi_inode_number f)); (Some "device_id", VUint (fi_device_id f));
   (Some "type", VInt (fi_type f)); (Some "total_size", VUint (fi_total_size f));
   (Some "last_atime", VUint (fi_last_atime f)); (Some "last_mtime", VUint (fi_last_mtime f))].

Definition multicast_fields (m : prx_multicast_option) : list field :=
  [(Some "family", VInt (mo_family m)); (Some "itf_index", VInt (mo_itf_index m));
   (Some "addr", VBin match mo_addr m with in4 a => a | in6 a _ => a end)].

Definition property_value (u : prx_property_un bytes) : value :=
  match u with
  | pv_value v => VUint v
  | pv_mcast m => VObj (multicast_fields m)
  | pv_bin b _ => VBin b
  | pv_file_info f => VObj (file_info_fields f)
  | pv_addr_info a => VObj (addrinfo_fields a)
  | pv_itf_info i => VObj (ifaddrinfo_fields i)
  end.

Definition property_fields (p : prx_property bytes) : list field :=
  [(Some "type", VInt (prop_type p)); (Some "property", property_value (prop_un p))].

Definition option_values (os : list (prx_property bytes)) : list value :=
  map (fun o => VObj (property_fields o)) (filter (fun o => is_socket_option (prop_type o) = true) os).

Definition socket_properties_fields (sp : prx_socket_properties bytes) : list field :=
  [(Some "family", VInt (sp_family sp)); (Some "sock_type", VInt (sp_sock_type sp));
   (Some "proto_type", VInt (sp_proto_type sp)); (Some "flags", VUint (sp_flags sp));
   (Some "timeout", VUint (sp_timeout sp)); (Some "address", VObj (sa_fields (sp_address sp)));
   (Some "options", VArr (option_values (sp_options sp)))].

(** ** Contents of pointers *)

Definition name_den (mu : mem) (p : ptr) : option bytes :=
  match p with p_null => Some [] | _ => load_str mu p end.

Definition addrinfo_den (mu : mem) (a : prx_addrinfo ptr) : option (prx_addrinfo bytes) :=
  n ← name_den mu (ai_name a);
  Some {| ai_address := ai_address a; ai_reserved := ai_reserved a; ai_name := n |}.

Definition property_un_den (mu : mem) (u : prx_property_un ptr) : option (prx_property_un bytes) :=
  match u with
  | pv_value v => Some (pv_value v)
  | pv_mcast m => Some (pv_mcast m)
  | pv_bin p n => b ← load mu p n; Some (pv_bin b n)
  | pv_file_info f => Some (pv_file_info f)
  | pv_addr_info a => a ← addrinfo_den mu a; Some (pv_addr_info a)
  | pv_itf_info i => Some (pv_itf_info i)
  end.

Definition property_den (mu : mem) (p : prx_property ptr) : option (prx_property bytes) :=
  u ← property_un_den mu (prop_un p); Some {| prop_type := prop_type p; prop_un := u |}.

Definition socket_properties_den (mu : mem) (sp : prx_socket_properties ptr)
  : option (prx_socket_properties bytes) :=
  os ← mapM (property_den mu) (sp_options sp);
  Some {| sp_family := sp_family sp; sp_sock_type := sp_sock_type sp;
          sp_proto_type := sp_proto_type sp; sp_flags := sp_flags sp; sp_timeout := sp_timeout sp;
          sp_address := sp_address sp; sp_options := os |}.

(** ** Well formed properties: the type agrees with the member of the union *)

Definition wf_addrinfo (a : prx_addrinfo bytes) : Prop :=
  wf_socket_address (ai_address a) /\ ai_reserved a = 0 /\ wf_cstr (ai_name a).

Definition wf_property (p : prx_property bytes) : Prop :=
  in_i32 (prop_type p) /\
  match prop_un p with
  | pv_value v => is_object_type (prop_type p) = false /\ is_record_type (prop_type p) = false /\
                  is_socket_option (prop_type p) = true /\ in_u64 v
  | pv_mcast m => (prop_type p = prx_so_ip_multicast_join \/
                   prop_type p = prx_so_ip_multicast_leave) /\ wf_multicast m
  | pv_bin b n => is_object_type (prop_type p) = false /\ is_record_type (prop_type p) = true /\
                  wf_bytes b /\ n = zlen b
  | pv_file_info f => prop_type p = prx_property_type_file_info /\ wf_file_info f
  | pv_addr_info a => prop_type p = prx_property_type_addrinfo /\ wf_addrinfo a
  | pv_itf_info i => prop_type p = prx_property_type_ifaddrinfo /\ wf_ifaddrinfo i
  end.

(** An option that is not set is all zeros; one that is set is at the index of
    its type. *)
Definition wf_options (os : list (prx_property bytes)) : Prop :=
  zlen os = prx_so_max /\
  Forall (fun o => is_socket_option (prop_type o) = true -> wf_property o) os.

Definition wf_socket_properties (sp : prx_socket_properties bytes) : Prop :=
  in_i32 (sp_family sp) /\ in_i32 (sp_sock_type sp) /\ in_i32 (sp_proto_type sp) /\
  in_u32 (sp_flags sp) /\ in_u64 (sp_timeout sp) /\ wf_socket_address (sp_address sp) /\
  wf_options (sp_options sp).

(** ** Encoding *)
Section Encode.
Context {S R : Type} {K : io_codec S R} {EV : enc_view S R} {EL : enc_laws K EV}.

Lemma emits_socket_address mu sa : wf_socket_address sa ->
  emits_obj mu (io_encode_prx_socket_address K sa) (sa_fields sa).
Proof.
  destruct sa as [|[f port flow [a|a scope]]|p|[port flags itf h]|f]; cbn; [..|done].
  - intros _. eval_ifs. apply emits_tbegin; [|done]. solve_emits.
  - intros (? & [-> ?] & ->). eval_ifs. apply emits_tbegin; [|done]. cbn. eval_ifs. solve_emits.
  - intros (? & [-> [? ?]] & ?). eval_ifs. apply emits_tbegin; [|done]. cbn. eval_ifs.
    eapply emits_cons; [by auto with codec|]. eapply emits_cons; [by auto with codec|].
    apply emits_end. solve_emits.
  - intros. eval_ifs. apply emits_tbegin; [|done]. solve_emits.
  - intros (? & ? & ? & ?). eval_ifs. apply emits_tbegin; [|done]. cbn. eval_ifs. solve_emits.
Qed.

Lemma emits_name mu p n s : name_den mu p = Some s ->
  emits mu (b ← loads_name p; enc_string K n b) [(n, VStr s)].
Proof.
  unfold loads_name. destruct p; cbn; intros E.
  - injection E as <-. apply emits_string.
  - eapply emits_loads_str; [done|]. apply emits_string.
  - eapply emits_loads_str; [done|]. apply emits_string.
Qed.

Lemma emits_addrinfo mu a a' : addrinfo_den mu a = Some a' -> wf_addrinfo a' ->
  emits_obj mu (io_encode_prx_addrinfo K a) (addrinfo_fields a').
Proof.
  unfold addrinfo_den. destruct (name_den _ _) as [n|] eqn:En; cbn; [|done].
  intros [= <-] (? & ? & ?). cbn in *. apply emits_tbegin; [|done].
  pose proof emits_socket_address. eapply emits_cons; [by eapply emits_object; eauto|].
  apply emits_end. by apply emits_name.
Qed.

Lemma emits_ifaddrinfo mu i : wf_ifaddrinfo i ->
  emits_obj mu (io_encode_prx_ifaddrinfo K i) (ifaddrinfo_fields i).
Proof.
  intros (? & ? & ? & ? & ? & ? & ?). apply emits_tbegin; [|done].
  pose proof emits_socket_address. solve_emits.
Qed.

Lemma emits_file_info mu f : wf_file_info f ->
  emits_obj mu (io_encode_prx_file_info K f) (file_info_fields f).
Proof. intros (? & ? & ? & ? & ? & ?). apply emits_tbegin; [|done]. solve_emits. Qed.

Lemma emits_multicast mu m : wf_multicast m ->
  emits_obj mu (io_encode_prx_multicast_option K m) (multicast_fields m).
Proof.
  destruct m as [f itf [a|a scope]]; intros (? & [Hf ?] & ?); cbn in *; subst f;
    (apply emits_tbegin; [|done]); cbn; eval_ifs; solve_emits.
Qed.

Lemma emits_property mu p p' : property_den mu p = Some p' -> wf_property p' ->
  emits_obj mu (io_encode_prx_property K p) (property_fields p').
Proof.
  destruct p as [t u]. unfold property_den. cbn.
  destruct (property_un_den mu u) as [u'|] eqn:Eu; cbn; [|done]. intros [= <-] [Ht Hw].
  apply emits_tbegin; [|done]. cbn in *. eapply emits_cons; [by auto with codec|]. apply emits_end.
  destruct u as [v|m|p n|f|a|i]; cbn in Eu.
  - injection Eu as <-. destruct Hw as (-> & -> & -> & ?). apply emits_uint64.
  - injection Eu as <-. destruct Hw as [[-> | ->] ?]; cbn; eval_ifs;
      by apply emits_object, emits_multicast.
  - destruct (load mu p n) as [b|] eqn:El; cbn in Eu; [|done]. injection Eu as <-.
    destruct Hw as (-> & -> & ? & ?). eapply emits_loads; [done|]. apply emits_bin.
  - injection Eu as <-. destruct Hw as [-> ?]. eval_ifs. by apply emits_object, emits_file_info.
  - destruct (addrinfo_den mu a) as [a'|] eqn:Ea; cbn in Eu; [|done]. injection Eu as <-.
    destruct Hw as [-> ?]. eval_ifs. apply emits_object. by eapply emits_addrinfo.
  - injection Eu as <-. destruct Hw as [-> ?]. eval_ifs. by apply emits_object, emits_ifaddrinfo.
Qed.

Lemma property_den_type mu p p' : property_den mu p = Some p' -> prop_type p' = prop_type p.
Proof. unfold property_den. destruct (property_un_den _ _); cbn; [by intros [= <-]|done]. Qed.

Lemma count_options_den mu os : forall os', mapM (property_den mu) os = Some os' ->
  count_options os = zlen (option_values os').
Proof.
  unfold count_options, option_values. induction os as [|o os IH]; intros os' E; cbn in E.
  - by injection E as <-.
  - destruct (property_den mu o) as [o'|] eqn:Eo; cbn in E; [|done].
    destruct (mapM _ os) as [os''|]; cbn in E; [|done]. injection E as <-.
    specialize (IH _ eq_refl). unfold is_set in *. rewrite !filter_cons.
    rewrite (property_den_type _ _ _ Eo).
    repeat case_decide; cbn; autorewrite with zlen; lia.
Qed.

Lemma emits_options mu os : forall os', mapM (property_den mu) os = Some os' ->
  Forall (fun o => is_socket_option (prop_type o) = true -> wf_property o) os' ->
  emits mu (io_encode_options K os) (elems (option_values os')).
Proof.
  unfold option_values, elems. induction os as [|o os IH]; intros os' E Hw; cbn in E.
  - injection E as <-. apply emits_ret.
  - destruct (property_den mu o) as [o'|] eqn:Eo; cbn in E; [|done].
    destruct (mapM _ os) as [os''|]; cbn in E; [|done]. injection E as <-.
    inversion_clear Hw as [|? ? Ho Hos]. cbn [io_encode_options].
    unfold is_set. rewrite filter_cons, (property_den_type _ _ _ Eo) in *.
    case_decide as Hd; [rewrite Hd|apply not_true_is_false in Hd; rewrite Hd; by apply IH].
    cbn [map]. apply emits_cons; [|by apply IH].
    apply (emits_object mu None). eapply emits_property; eauto.
Qed.

Lemma emits_socket_properties mu sp sp' : socket_properties_den mu sp = Some sp' ->
  wf_socket_properties sp' ->
  emits_obj mu (io_encode_prx_socket_properties K sp) (socket_properties_fields sp').
Proof.
  unfold socket_properties_den.
  destruct (mapM _ (sp_options sp)) as [os|] eqn:Eos; cbn; [|done].
  intros [= <-] (? & ? & ? & ? & ? & ? & [? ?]). cbn in *. apply emits_tbegin; [|done].
  pose proof emits_socket_address. solve_emits. apply emits_end.
  apply emits_array; [by eapply count_options_den|]. by apply emits_options.
Qed.
End Encode.

(** ** Decoding into zeroed structures *)

(** The options that are set, each at the index of its type. *)
Definition indexed (os : list (prx_property bytes)) : list (prx_property bytes) := foldl set_option no_options os.

(** Options that are at their index already stay there. *)
Lemma indexed_at post : forall pre : list (prx_property bytes),
  (forall i o, post !! i = Some o -> o = no_option \/ is_socket_option (prop_type o) = true /\ prop_type o = Z.of_nat (length pre + i)) ->
  foldl set_option (pre ++ replicate (length post) no_option)%list post = (pre ++ post)%list.
Proof.
  induction post as [|o post IH]; intros pre Hat; [done|]. cbn [length replicate foldl].
  assert (Hset : set_option (pre ++ no_option :: replicate (length post) no_option)%list o = ((pre ++ [o]) ++ replicate (length post) no_option)%list).
  { rewrite <- app_assoc. destruct (Hat 0%nat o eq_refl) as [->|[Hs Hi]]; [done|]. unfold set_option. rewrite Hs, Hi, Nat2Z.id, Nat.add_0_r.
    rewrite insert_app_r_alt by done. by rewrite Nat.sub_diag. }
  rewrite Hset, IH, <- app_assoc; [done|]. intros i o' Ho'. destruct (Hat (Datatypes.S i) o' Ho') as [?|[? Hi]]; [by left|right].
  split; [done|]. rewrite Hi, length_app. cbn. lia.
Qed.
Lemma indexed_id os : zlen os = prx_so_max ->
  (forall i o, os !! i = Some o -> o = no_option \/ is_socket_option (prop_type o) = true /\ prop_type o = Z.of_nat i) ->
  indexed os = os.
Proof.
  intros Hl Hat. unfold indexed, no_options. rewrite <- Hl. unfold zlen. rewrite Nat2Z.id. by apply (indexed_at os []).
Qed.

Definition blank_ifaddrinfo : prx_ifaddrinfo := as_itf_info (P := bytes) (pv_value 0).

(** The arrays of a union have the length of their types, whatever was stored last. *)
Definition sized_addr (a : prx_inet_un) : Prop := zlen (as_in4 a) = 4 /\ zlen (as_in6 a) = 16.
Definition sized_option (o : prx_property ptr) : Prop := sized_addr (mo_addr (as_mcast (prop_un o))).

(** A socket option has no variable sized part. *)
Definition plain_option (o : prx_property bytes) : prx_property ptr :=
  {| prop_type := prop_type o;
     prop_un := match prop_un o with pv_mcast m => pv_mcast m | u => pv_value (as_value u) end |}.

(** Where the default allocator [d] puts the variable sized part of a property. *)
Inductive stored (d : option allocator) (mu : mem)
  : prx_property_un bytes -> prx_property_un ptr -> mem -> Prop :=
| st_value v : stored d mu (pv_value v) (pv_value v) mu
| st_mcast m : stored d mu (pv_mcast m) (pv_mcast m) mu
| st_file_info f : stored d mu (pv_file_info f) (pv_file_info f) mu
| st_itf_info i : stored d mu (pv_itf_info i) (pv_itf_info i) mu
| st_bin b n p n' mu' : fill_bin (default mem_allocator d) b mu = Ok (p, n', mu') ->
    stored d mu (pv_bin b n) (pv_bin p n') mu'
| st_addr_info sa r s p n mu' : fill (default crt_allocator d) (s ++ [0]%Z) mu = Ok (p, n, mu') ->
    stored d mu (pv_addr_info {| ai_address := sa; ai_reserved := r; ai_name := s |})
      (pv_addr_info {| ai_address := sa; ai_reserved := 0; ai_name := p |}) mu'.

Section Decode.
Context {S R : Type} {K : io_codec S R} {DV : dec_view S R} {DL : dec_laws K DV}.

Lemma parses_char_array d mu n m a : wf_char_array m a ->
  parses d mu (io_decode_string_fixed K n (zeros m)) [(n, VStr (cstr a))] a mu.
Proof.
  intros (_ & Hl & Ha). rewrite Ha at 2.
  replace (char_array m (cstr a))
    with (cstr a ++ [0] ++ drop (length (cstr a) + 1) (zeros m))%list.
  - apply parses_string_fixed. unfold zlen, zeros in *. rewrite length_replicate. lia.
  - unfold char_array, zeros, zlen in *. f_equal. rewrite drop_replicate.
    change [0]%Z with (replicate 1 0). rewrite <- replicate_add. f_equal. lia.
Qed.

Lemma parses_addr d mu n (old a : bytes) {A} (f : bytes -> A) k : (0 < k)%Z ->
  wf_u8s k a -> zlen old = k ->
  parses d mu ('(a, _) ← io_decode_bin_fixed K n old; mret (f a)) [(n, VBin a)] (f a) mu.
Proof.
  intros ? [? ?] ?. eapply parses_map; [by apply parses_bin_fixed_full; lia|done].
Qed.

Lemma parses_socket_address d mu sa : wf_socket_address sa ->
  parses d mu (io_decode_prx_socket_address K sa_unspec) (sa_fields sa) sa mu.
Proof.
  unfold io_decode_prx_socket_address.
  destruct sa as [|[f port flow [a|a scope]]|p|[port flags itf h]|f]; cbn; [..|done].
  - intros _. solve_parses; eval_ifs; solve_parses.
  - intros (? & [-> ?] & ->). solve_parses. eval_ifs.
    eapply parses_map; [|done]. unfold io_decode_prx_socket_address_inet. cbn. eval_ifs.
    solve_parses. apply (parses_last d mu _ id). by apply (parses_addr _ _ _ _ _ (fun a => _) 4).
  - intros (? & [-> [[? Hl] ?]] & ?). solve_parses. eval_ifs.
    eapply parses_map; [|done]. unfold io_decode_prx_socket_address_inet. cbn. eval_ifs.
    solve_parses. apply (parses_last d mu _ id). solve_parses.
    eapply (parses_cons _ _ _ _ _ _ (a, zlen a)).
    + by apply parses_bin_fixed_full; rewrite Hl.
    + solve_parses.
  - intros. solve_parses. eval_ifs. eapply parses_map; [|done].
    apply (parses_last d mu _ id). by apply parses_char_array.
  - intros (? & ? & ? & ?). solve_parses. eval_ifs. eapply parses_map; [|done].
    unfold io_decode_prx_socket_address_proxy. solve_parses.
    apply (parses_last d mu _ (fun host => _)). by apply parses_char_array.
Qed.

Lemma parses_addrinfo d mu a old p n mu' : wf_addrinfo a -> ai_address old = sa_unspec ->
  fill (default crt_allocator d) (ai_name a ++ [0])%list mu = Ok (p, n, mu') ->
  parses d mu (io_decode_prx_addrinfo K old) (addrinfo_fields a)
    {| ai_address := ai_address a; ai_reserved := 0; ai_name := p |} mu'.
Proof.
  intros (? & ? & ?) Hold Hf. unfold io_decode_prx_addrinfo. rewrite Hold. pose proof parses_socket_address.
  solve_parses. apply (parses_last d mu _ (fun name => _)). by eapply parses_string_default.
Qed.

Lemma parses_ifaddrinfo d mu i : wf_ifaddrinfo i ->
  parses d mu (io_decode_prx_ifaddrinfo K blank_ifaddrinfo) (ifaddrinfo_fields i) i mu.
Proof.
  intros (? & ? & ? & Hr & ? & ? & ?). unfold io_decode_prx_ifaddrinfo.
  pose proof parses_socket_address. pose proof parses_char_array.
  solve_parses. destruct i; cbn in *; subst. solve_parses.
Qed.

Lemma parses_file_info d mu f : wf_file_info f ->
  parses d mu (io_decode_prx_file_info K) (file_info_fields f) f mu.
Proof.
  intros (? & ? & ? & ? & ? & ?). unfold io_decode_prx_file_info. destruct f. solve_parses.
Qed.

Lemma parses_multicast d mu m old : wf_multicast m -> sized_addr (mo_addr old) ->
  parses d mu (io_decode_prx_multicast_option K old) (multicast_fields m) m mu.
Proof.
  unfold io_decode_prx_multicast_option. destruct m as [f itf [a|a scope]];
    intros (? & [Hf Ha] & Hs) [Ho4 Ho6]; cbn in *; subst f; solve_parses; eval_ifs.
  - eapply parses_cons; [by apply (parses_addr _ _ _ _ _ in4 4)|].
    eapply parses_nil; [apply parses_enc_tend|]. solve_parses.
  - destruct Ha as [Ha _]. subst scope.
    eapply parses_cons; [by apply (parses_addr _ _ _ _ _ (fun a => in6 a (u32 itf)) 16)|].
    eapply parses_nil; [apply parses_enc_tend|]. solve_parses.
Qed.

Lemma parses_property d mu p v0 t0 u mu' : wf_property p -> stored d mu (prop_un p) u mu' ->
  parses d mu (io_decode_prx_property K {| prop_type := t0; prop_un := pv_value v0 |})
    (property_fields p) {| prop_type := prop_type p; prop_un := u |} mu'.
Proof.
  destruct p as [t pu]. intros [Ht Hw] Hst. unfold io_decode_prx_property. cbn in *.
  solve_parses. apply (parses_last d mu _ (fun u => {| prop_type := t; prop_un := u |})).
  destruct Hst; cbn [prop_type prop_un] in *.
  - destruct Hw as (-> & -> & -> & ?). eapply parses_map; [apply parses_uint64|done].
  - destruct Hw as [[-> | ->] ?]; eval_ifs; (eapply parses_object_cps; [done|]); eval_ifs;
      (eapply parses_map; [by eapply parses_multicast|done]).
  - destruct Hw as [-> ?]; eval_ifs; (eapply parses_object_cps; [done|]); eval_ifs.
    eapply parses_map; [by eapply parses_file_info|done].
  - destruct Hw as [-> ?]; eval_ifs; (eapply parses_object_cps; [done|]); eval_ifs.
    eapply parses_map; [by eapply parses_ifaddrinfo|done].
  - destruct Hw as (-> & -> & ? & ?). eapply parses_map; [by eapply parses_bin_default|done].
  - destruct Hw as [-> ?]; eval_ifs; (eapply parses_object_cps; [done|]); eval_ifs.
    eapply parses_map; [by eapply parses_addrinfo|done].
Qed.

Lemma wf_socket_option o : is_socket_option (prop_type o) = true -> wf_property o ->
  (exists v, prop_un o = pv_value v /\ in_u64 v /\ is_object_type (prop_type o) = false) \/
  (exists m, prop_un o = pv_mcast m /\ wf_multicast m /\
     (prop_type o = prx_so_ip_multicast_join \/ prop_type o = prx_so_ip_multicast_leave)).
Proof.
  destruct o as [t u]. cbn. intros Ht%bool_decide_eq_true_1 [_ Hw]. destruct u; cbn in Hw.
  - left. naive_solver.
  - right. naive_solver.
  - destruct Hw as (_ & Hr%bool_decide_eq_true_1 & _). exfalso. unfold prx_record_type_default, prx_so_max in *. lia.
  - destruct Hw as [-> _]. by destruct Ht.
  - destruct Hw as [-> _]. by destruct Ht.
  - destruct Hw as [-> _]. by destruct Ht.
Qed.

Lemma parses_socket_option d mu o t0 old : is_socket_option (prop_type o) = true -> wf_property o -> sized_option old ->
  parses d mu (io_decode_prx_property K {| prop_type := t0; prop_un := prop_un old |}) (property_fields o) (plain_option o) mu /\
  sized_option (plain_option o).
Proof.
  intros Hs Hwf Hsz. pose proof (proj1 Hwf) as Ht. destruct (wf_socket_option o Hs Hwf) as [(v & Hu & Hv & Ho)|(m & Hu & Hm & Hj)];
    destruct o as [t u]; cbn in *; subst u; (split; [unfold io_decode_prx_property; cbn; solve_parses|]).
  - apply (parses_last d mu _ (fun u => {| prop_type := t; prop_un := u |})). cbn [prop_type]. rewrite Ho, Hs.
    destruct Hwf as (_ & _ & Hr & _). cbn in Hr. rewrite Hr. eapply parses_map; [apply parses_uint64|done].
  - done.
  - apply (parses_last d mu _ (fun u => {| prop_type := t; prop_un := u |})). cbn [prop_type].
    destruct Hj as [-> | ->]; eval_ifs; (eapply parses_object_cps; [done|]); eval_ifs;
      (eapply parses_map; [by eapply parses_multicast|done]).
  - destruct m as [f itf [a|a scope]]; destruct Hm as (_ & [_ Ha] & _); unfold sized_option, sized_addr; cbn in *.
    + destruct Ha as [_ Ha]. rewrite zlen_app, Ha. done.
    + destruct Ha as [[_ Ha] _]. unfold zlen in *. rewrite length_take. lia.
Qed.

Lemma parses_options d mu os : forall option options, Forall (fun o => is_socket_option (prop_type o) = true -> wf_property o) os ->
  sized_option option ->
  parses d mu (io_decode_options K (length (option_values os)) option options) (elems (option_values os))
    (foldl set_option options (map plain_option os)) mu.
Proof.
  induction os as [|o os IH]; intros option options Hw Hsz; [apply parses_ret|]. apply Forall_cons in Hw as [Ho Hw].
  unfold option_values in *. rewrite filter_cons. cbn [foldl map]. unfold set_option at 2. cbn [plain_option prop_type].
  case_decide as Hs; [|rewrite (not_true_is_false _ Hs); by apply IH].
  destruct (parses_socket_option d mu o 0 option Hs (Ho Hs) Hsz) as [Hp Hsz']. cbn [map length io_decode_options elems].
  rewrite Hs. eapply (parses_object_bind d mu None false); [exact Hp|]. cbv beta. unfold set_option at 1. cbn [plain_option prop_type].
  rewrite Hs. by apply IH.
Qed.

Lemma parses_socket_properties d mu option sp old : wf_socket_properties sp -> sized_option option -> sp_address old = sa_unspec ->
  parses d mu (io_decode_prx_socket_properties K option old) (socket_properties_fields sp)
    {| sp_family := sp_family sp; sp_sock_type := sp_sock_type sp;
       sp_proto_type := sp_proto_type sp; sp_flags := sp_flags sp; sp_timeout := sp_timeout sp;
       sp_address := sp_address sp; sp_options := foldl set_option no_options (map plain_option (sp_options sp)) |} mu.
Proof.
  intros (? & ? & ? & ? & ? & ? & [_ Hos]) Hsz Hold. unfold io_decode_prx_socket_properties.
  rewrite Hold. pose proof parses_socket_address. solve_parses.
  apply (parses_last d mu _ (fun options => _)).
  eapply parses_array_cps; [done|]. unfold zlen. rewrite Nat2Z.id. by apply parses_options.
Qed.
End Decode.

Lemma plain_option_den mu o : is_socket_option (prop_type o) = true -> wf_property o -> property_den mu (plain_option o) = Some o.
Proof.
  intros Hs Hw. destruct (wf_socket_option o Hs Hw) as [(v & Hu & _)|(m & Hu & _)]; destruct o; cbn in *; by subst.
Qed.

Lemma mapM_insert {A B} (f : A -> option B) l l' i x x' : mapM f l = Some l' -> f x = Some x' ->
  mapM f (<[i := x]> l) = Some (<[i := x']> l').
Proof. rewrite !mapM_Some. intros. by apply Forall2_insert. Qed.

(** What the decoded options hold. *)
Lemma options_den mu os : Forall (fun o => is_socket_option (prop_type o) = true -> wf_property o) os ->
  mapM (property_den mu) (foldl set_option no_options (map plain_option os)) = Some (indexed os).
Proof.
  unfold indexed. assert (H0 : mapM (property_den mu) no_options = Some no_options) by done. revert H0.
  generalize (@no_options ptr) (@no_options bytes). intros l l' H0 Hw. revert l l' H0.
  induction Hw as [|o os Ho Hw IH]; intros l l' H0; [done|]. cbn. apply IH. unfold set_option. cbn [prop_type plain_option].
  destruct (is_socket_option _) eqn:Hs; [|done]. apply mapM_insert; [done|]. by apply plain_option_den; auto.
Qed.
End IoTypes.
