(* ===== verification/Mpack.v ===== *)
(** * The MessagePack codec (src/io_codec.c, mpack_... functions)

    The byte format is implemented by the cmp library, which is not part of the
    repository: [cmp_ops] holds the functions of it that the codec calls, over
    any reader and writer callback, and [cmp_laws] what is documented of them: a
    value written is the value read back.  [cmp_stream_read] and
    [cmp_stream_write] are the callbacks; [mpack_codec] is the codec, shown here
    to satisfy [enc_laws] and [dec_laws] over every stream that keeps the
    contract of IoStream.

    Modelled is the release build, where [dbg_assert] is empty. *)
From stdpp Require Import base option list numbers strings.
From S2P Require Import Prelude PrxTypes IoStream IoMem IoCodec IoCodecSpec.
Import PrxTypes IoStream IoMem IoCodec IoCodecSpec.

Module Mpack.

(** ** The cmp library *)

(** [cmp_ctx_t]: the user's buffer and the last error. *)
Record cmp_ctx (St : Type) := mk_cmp_ctx { cmp_buf : St; cmp_error : Z }.
Arguments mk_cmp_ctx {St}. Arguments cmp_buf {St}. Arguments cmp_error {St}.

(** The types of an object that the codec tells apart. *)
Inductive cmp_type :=
| CMP_TYPE_NIL
| CMP_TYPE_FIXARRAY | CMP_TYPE_ARRAY16 | CMP_TYPE_ARRAY32
| CMP_TYPE_FIXMAP | CMP_TYPE_MAP16 | CMP_TYPE_MAP32
| CMP_TYPE_other.

Record cmp_object := mk_cmp_object { obj_type : cmp_type; obj_array_size : Z }.

(** The callbacks: bytes written, and whether all that was asked for was read. *)
Definition cmp_writer (St : Type) := cmp_ctx St -> bytes -> res (cmp_ctx St * Z).
Definition cmp_reader (St : Type) := cmp_ctx St -> Z -> res (cmp_ctx St * bool * bytes).

Class cmp_ops := {
  cmp_write_integer {St} : cmp_writer St -> Z -> cmp_ctx St -> res (cmp_ctx St * bool);
  cmp_write_uinteger {St} : cmp_writer St -> Z -> cmp_ctx St -> res (cmp_ctx St * bool);
  cmp_write_decimal {St} : cmp_writer St -> Z -> cmp_ctx St -> res (cmp_ctx St * bool);
  cmp_write_bool {St} : cmp_writer St -> bool -> cmp_ctx St -> res (cmp_ctx St * bool);
  cmp_write_nil {St} : cmp_writer St -> cmp_ctx St -> res (cmp_ctx St * bool);
  cmp_write_str {St} : cmp_writer St -> bytes -> Z -> cmp_ctx St -> res (cmp_ctx St * bool);
  cmp_write_bin {St} : cmp_writer St -> bytes -> Z -> cmp_ctx St -> res (cmp_ctx St * bool);
  cmp_write_array {St} : cmp_writer St -> Z -> cmp_ctx St -> res (cmp_ctx St * bool);

  cmp_read_integer {St} : cmp_reader St -> cmp_ctx St -> res (cmp_ctx St * bool * Z);
  cmp_read_uinteger {St} : cmp_reader St -> cmp_ctx St -> res (cmp_ctx St * bool * Z);
  cmp_read_decimal {St} : cmp_reader St -> cmp_ctx St -> res (cmp_ctx St * bool * Z);
  cmp_read_bool {St} : cmp_reader St -> cmp_ctx St -> res (cmp_ctx St * bool * bool);
  cmp_read_nil {St} : cmp_reader St -> cmp_ctx St -> res (cmp_ctx St * bool);
  cmp_read_str_size {St} : cmp_reader St -> cmp_ctx St -> res (cmp_ctx St * bool * Z);
  cmp_read_bin_size {St} : cmp_reader St -> cmp_ctx St -> res (cmp_ctx St * bool * Z);
  cmp_read_array {St} : cmp_reader St -> cmp_ctx St -> res (cmp_ctx St * bool * Z);
  cmp_read_object {St} : cmp_reader St -> cmp_ctx St -> res (cmp_ctx St * bool * cmp_object);
}.

(** Callbacks over an output with room, and over an input. *)
Definition wrote {St} (out : St -> bytes) (room : St -> Z) (s : St) (bs : bytes) (s' : St) : Prop :=
  out s' = out s ++ bs /\ room s - zlen bs <= room s'.

Definition writer_ok {St} (wr : cmp_writer St) (out : St -> bytes) (room : St -> Z) : Prop :=
  forall d bs, zlen bs <= room (cmp_buf d) ->
  exists d', wr d bs = Ok (d', zlen bs) /\ wrote out room (cmp_buf d) bs (cmp_buf d').

Definition reader_ok {St} (rd : cmp_reader St) (inp : St -> bytes) : Prop :=
  forall d n, 0 <= n <= zlen (inp (cmp_buf d)) ->
  exists d', rd d n = Ok (d', true, take (Z.to_nat n) (inp (cmp_buf d))) /\
    inp (cmp_buf d') = drop (Z.to_nat n) (inp (cmp_buf d)).

(** [op] appends [bs]; [op] consumes [bs] and returns [a]. *)
Definition puts {St} (wr : cmp_writer St) (op : cmp_ctx St -> res (cmp_ctx St * bool))
    (bs : bytes) : Prop :=
  forall out room d, writer_ok wr out room -> zlen bs <= room (cmp_buf d) ->
  exists d', op d = Ok (d', true) /\ wrote out room (cmp_buf d) bs (cmp_buf d').

Definition gets {St A} (rd : cmp_reader St) (op : cmp_ctx St -> res (cmp_ctx St * bool * A))
    (bs : bytes) (a : A) : Prop :=
  forall inp d k, reader_ok rd inp -> inp (cmp_buf d) = bs ++ k ->
  exists d', op d = Ok (d', true, a) /\ inp (cmp_buf d') = k.

Definition is_array_type (t : cmp_type) : Prop :=
  t = CMP_TYPE_FIXARRAY \/ t = CMP_TYPE_ARRAY16 \/ t = CMP_TYPE_ARRAY32.

Class cmp_laws (C : cmp_ops) := {
  fmt_int : Z -> bytes;
  fmt_uint : Z -> bytes;
  fmt_bool : bool -> bytes;
  fmt_nil : bytes;
  fmt_str : Z -> bytes;     (* the headers; the contents follow *)
  fmt_bin : Z -> bytes;
  fmt_array : Z -> bytes;

  puts_integer {St} (wr : cmp_writer St) z : in_i64 z -> puts wr (cmp_write_integer wr z) (fmt_int z);
  puts_uinteger {St} (wr : cmp_writer St) z :
    in_u64 z -> puts wr (cmp_write_uinteger wr z) (fmt_uint z);
  puts_bool {St} (wr : cmp_writer St) b : puts wr (cmp_write_bool wr b) (fmt_bool b);
  puts_nil {St} (wr : cmp_writer St) : puts wr (cmp_write_nil wr) fmt_nil;
  puts_str {St} (wr : cmp_writer St) s :
    in_u32 (zlen s) -> puts wr (cmp_write_str wr s (zlen s)) (fmt_str (zlen s) ++ s);
  puts_bin {St} (wr : cmp_writer St) b :
    in_u32 (zlen b) -> puts wr (cmp_write_bin wr b (zlen b)) (fmt_bin (zlen b) ++ b);
  puts_array {St} (wr : cmp_writer St) n : in_u32 n -> puts wr (cmp_write_array wr n) (fmt_array n);

  gets_integer {St} (rd : cmp_reader St) z : in_i64 z -> gets rd (cmp_read_integer rd) (fmt_int z) z;
  gets_uinteger {St} (rd : cmp_reader St) z :
    in_u64 z -> gets rd (cmp_read_uinteger rd) (fmt_uint z) z;
  gets_bool {St} (rd : cmp_reader St) b : gets rd (cmp_read_bool rd) (fmt_bool b) b;
  gets_nil {St} (rd : cmp_reader St) :
    gets rd (fun d => '(d, ok) ← cmp_read_nil rd d; Ok (d, ok, tt)) fmt_nil tt;
  gets_str_size {St} (rd : cmp_reader St) n :
    in_u32 n -> gets rd (cmp_read_str_size rd) (fmt_str n) n;
  gets_bin_size {St} (rd : cmp_reader St) n :
    in_u32 n -> gets rd (cmp_read_bin_size rd) (fmt_bin n) n;
  gets_array {St} (rd : cmp_reader St) n : in_u32 n -> gets rd (cmp_read_array rd) (fmt_array n) n;
  gets_object_nil {St} (rd : cmp_reader St) :
    exists n, gets rd (cmp_read_object rd) fmt_nil {| obj_type := CMP_TYPE_NIL; obj_array_size := n |};
  gets_object_array {St} (rd : cmp_reader St) n : in_u32 n ->
    exists t, is_array_type t /\
      gets rd (cmp_read_object rd) (fmt_array n) {| obj_type := t; obj_array_size := n |};
}.

(** ** Errors *)

Definition cmp_out_of_memory_error : Z := 255.

Definition cmp_ctx_get_err {St} (ctx : cmp_ctx St) : prx_error :=
  let e := cmp_error ctx in
  if bool_decide (e = 0) then er_ok
  else if bool_decide (e = 1 \/ e = 2 \/ e = 3 \/ e = 4 \/ e = 5) then er_arg
  else if bool_decide (e = 6) then er_writing
  else if bool_decide (e = 7) then er_invalid_format
  else if bool_decide (e = 8) then er_writing
  else if bool_decide (e = 9) then er_invalid_format
  else if bool_decide (e = 10) then er_writing
  else if bool_decide (e = 11) then er_invalid_format
  else if bool_decide (e = 12) then er_writing
  else if bool_decide (e = 13) then er_arg
  else if bool_decide (e = 14) then er_invalid_format
  else if bool_decide (e = 15) then er_writing
  else if bool_decide (e = 16 \/ e = 17) then er_fault
  else if bool_decide (e = cmp_out_of_memory_error) then er_out_of_memory
  else er_unknown.

Definition cmp_ctx_set_err {St} (ctx : cmp_ctx St) (error : prx_error) : cmp_ctx St * bool :=
  let set e := {| cmp_buf := cmp_buf ctx; cmp_error := e |} in
  match error with
  | er_ok => (set 0, true)
  | er_arg => (set 1, false)
  | er_writing => (set 10, false)
  | er_reading => (set 9, false)
  | er_invalid_format => (set 7, false)
  | er_out_of_memory => (set cmp_out_of_memory_error, false)
  | er_fault => (set 16, false)
  | _ => (set 99, false)
  end.

(** ** Callbacks *)
Section Callbacks.
Context {St : Type} (stream : io_stream St).

Definition cmp_stream_read : cmp_reader St := fun ctx limit =>
  let '(s, result, data) := io_stream_read stream (cmp_buf ctx) limit in
  let result := if bool_decide (result = er_ok /\ zlen data <> limit) then er_reading else result in
  let '(ctx, ok) := cmp_ctx_set_err {| cmp_buf := s; cmp_error := cmp_error ctx |} result in
  Ok (ctx, ok, data).

Definition cmp_stream_write : cmp_writer St := fun ctx data =>
  let '(s, result) := io_stream_write stream (cmp_buf ctx) data in
  let ctx := {| cmp_buf := s; cmp_error := cmp_error ctx |} in
  match result with
  | UB => UB
  | Ok _ => let '(ctx, _) := cmp_ctx_set_err ctx er_ok in Ok (ctx, zlen data)
  | Err e => let '(ctx, ok) := cmp_ctx_set_err ctx e in
             Ok (ctx, if (ok : bool) then zlen data else 0)
  end.

Lemma cmp_stream_write_ok `{!stream_writes stream} : writer_ok cmp_stream_write sout sroom.
Proof.
  intros d bs H. destruct (io_stream_write_spec (cmp_buf d) bs H) as (s' & E & Ho & Hr).
  unfold cmp_stream_write. rewrite E. eexists. split; [done|]. cbn. split; [done|lia].
Qed.

Lemma cmp_stream_read_ok `{!stream_reads stream} : reader_ok cmp_stream_read sin.
Proof.
  intros d n H. destruct (io_stream_read_spec (cmp_buf d) n) as (s' & E & Hi); [lia|].
  unfold cmp_stream_read. rewrite E.
  rewrite bool_decide_eq_false_2; [eexists; done|].
  unfold zlen in *. rewrite length_take. lia.
Qed.
End Callbacks.

(** ** The functions of the codec

    All contexts of a document share its [cmp_ctx]; [ctx_index] counts the items
    left to write or to read. *)
Section Codec.
Context {C : cmp_ops} {St : Type} (stream : io_stream St).
Abbreviation D := (cmp_ctx St).
Abbreviation MD := (M D unit).
Implicit Type n : name.

(** [if (!op(...)) return cmp_ctx_get_err(cmp_ctx);] and then [k].  [early]: the
    out parameters at that return, should no error be recorded. *)
Definition on_cmp {A B} (op : D -> res (D * bool * A)) (early : A -> B) (k : A -> MD B) : MD B :=
  fun w c =>
  match op (w_doc w) with
  | UB => UB
  | Err e => Err e
  | Ok (d, ok, a) =>
      let w := {| w_doc := d; w_mem := w_mem w |} in
      if (ok : bool) then k a w c
      else match cmp_ctx_get_err d with er_ok => Ok (early a, w, c) | e => Err e end
  end.

Definition noval (op : D -> res (D * bool)) : D -> res (D * bool * unit) := fun d =>
  '(d, ok) ← op d; Ok (d, ok, tt).

Definition set_index (i : Z) : MD unit := fun w c =>
  Ok (tt, w, {| ctx_node := ctx_node c; ctx_index := i;
                ctx_default_allocator := ctx_default_allocator c |}).

Definition mpack_write_complete : MD unit :=
  c ← get_ctx; set_index (u64 (ctx_index c - 1)).

Abbreviation wr := (cmp_stream_write stream).
Abbreviation rd := (cmp_stream_read stream).

Definition mpack_write (op : D -> res (D * bool)) : MD unit :=
  on_cmp (noval op) id (fun _ => mpack_write_complete).

Definition mpack_write_integer n (value : Z) : MD unit := mpack_write (cmp_write_integer wr value).
Definition mpack_write_uinteger n (value : Z) : MD unit := mpack_write (cmp_write_uinteger wr value).
Definition mpack_write_decimal n (value : Z) : MD unit := mpack_write (cmp_write_decimal wr value).
Definition mpack_write_bool n (value : bool) : MD unit := mpack_write (cmp_write_bool wr value).
Definition mpack_write_string n (value : bytes) : MD unit :=
  mpack_write (cmp_write_str wr value (u32 (zlen value))).
Definition mpack_write_bin n (value : bytes) : MD unit :=
  mpack_write (cmp_write_bin wr value (u32 (zlen value))).

(** The context of a nested object or array; the index of an object is only
    set by its [mpack_write_type_begin]. *)
Definition sub_ctx (index : Z) : MD (io_codec_ctx unit) :=
  c ← get_ctx;
  mret {| ctx_node := tt; ctx_index := index; ctx_default_allocator := ctx_default_allocator c |}.

Definition mpack_write_object n (is_null : bool) : MD (io_codec_ctx unit) :=
  object ← sub_ctx 0;
  if is_null then on_cmp (noval (cmp_write_nil wr)) (fun _ => object)
                    (fun _ => mpack_write_complete;; mret object)
  else mpack_write_complete;; mret object.

Definition mpack_write_type_begin (members : Z) : MD unit :=
  on_cmp (noval (cmp_write_array wr (u32 (u32 members + 1)))) id (fun _ =>
  on_cmp (noval (cmp_write_nil wr)) id (fun _ =>
  set_index members)).

Definition mpack_write_type_end : MD unit := mret tt.

Definition mpack_write_array n (size : Z) : MD (io_codec_ctx unit) :=
  array ← sub_ctx size;
  on_cmp (noval (cmp_write_array wr (u32 size))) (fun _ => array)
    (fun _ => mpack_write_complete;; mret array).

(** The item after the last one is an error. *)
Definition read_begin (index : Z) : MD Z :=
  if bool_decide (index = 0) then fail er_invalid_format else mret (u64 (index - 1)).
Definition mpack_read_begin : MD unit :=
  c ← get_ctx; i ← read_begin (ctx_index c); set_index i.

Definition mpack_read {A} (op : D -> res (D * bool * A)) : MD A :=
  mpack_read_begin;; on_cmp op id mret.

Definition mpack_read_integer n : MD Z := mpack_read (cmp_read_integer rd).
Definition mpack_read_uinteger n : MD Z := mpack_read (cmp_read_uinteger rd).
Definition mpack_read_decimal n : MD Z := mpack_read (cmp_read_decimal rd).
Definition mpack_read_bool n : MD bool := mpack_read (cmp_read_bool rd).

Definition allocate (allocator : allocator) (size : Z) : MD (ptr * Z) := fun w c =>
  '(p, size, mu) ← allocator size (w_mem w);
  Ok ((p, size), {| w_doc := w_doc w; w_mem := mu |}, c).

Definition stores (p : ptr) (at_ : Z) (bs : bytes) : MD ptr := fun w c =>
  '(p, mu) ← store (w_mem w) p at_ bs; Ok (p, {| w_doc := w_doc w; w_mem := mu |}, c).

(** [cmp_ctx->read(cmp_ctx, *value, len)] *)
Definition reads (p : ptr) (len : Z) : MD (ptr * bool) := fun w c =>
  '(d, ok, data) ← rd (w_doc w) len;
  match stores p 0 data {| w_doc := d; w_mem := w_mem w |} c with
  | Ok (p, w, c) => Ok ((p, ok), w, c) | Err e => Err e | UB => UB
  end.

(** [len32 + 1] is computed with 32 bits. *)
Definition mpack_read_string n (allocator : allocator) : MD (ptr * Z) :=
  mpack_read_begin;;
  on_cmp (cmp_read_str_size rd) (fun _ => (p_null, 0)) (fun len32 =>
  '(value, size) ← allocate allocator (u32 (len32 + 1));
  if bool_decide (size <> u32 (len32 + 1)) then fail er_out_of_memory
  else
    '(value, ok) ← reads value len32;
    if (ok : bool) then value ← stores value len32 [0]; mret (value, size)
    else fail er_reading).

Definition mpack_read_bin n (allocator : allocator) : MD (ptr * Z) :=
  mpack_read_begin;;
  on_cmp (cmp_read_bin_size rd) (fun _ => (p_null, 0)) (fun len32 =>
  if bool_decide (len32 = 0) then mret (p_null, 0)
  else
    '(value, size) ← allocate allocator len32;
    if bool_decide (size <> len32) then fail er_out_of_memory
    else
      '(value, ok) ← reads value len32;
      if (ok : bool) then mret (value, size) else fail er_reading).

(** [*is_null = ...]: undefined when the pointer is NULL. *)
Definition store_flag (valid : bool) : MD unit := lift (if valid then Ok tt else UB).

Definition mpack_read_object n (valid : bool) : MD (bool * io_codec_ctx unit) :=
  mpack_read_begin;;
  null ← sub_ctx 0;
  on_cmp (cmp_read_object rd) (fun _ => (false, null)) (fun obj =>
  match obj_type obj with
  | CMP_TYPE_NIL =>
      store_flag valid;;
      mret (true, null)
  | CMP_TYPE_FIXARRAY | CMP_TYPE_ARRAY16 | CMP_TYPE_ARRAY32 =>
      store_flag valid;;
      i ← read_begin (obj_array_size obj);
      object ← sub_ctx i;
      on_cmp (noval (cmp_read_nil rd)) (fun _ => (false, object)) (fun _ =>
      mret (false, object))
  | CMP_TYPE_FIXMAP | CMP_TYPE_MAP16 | CMP_TYPE_MAP32 => fail er_invalid_format
  | CMP_TYPE_other => fail er_invalid_format
  end).

Definition mpack_read_type_begin : MD unit := mret tt.
Definition mpack_read_type_end : MD unit := mret tt.

Definition mpack_read_array n : MD (Z * io_codec_ctx unit) :=
  mpack_read_begin;;
  null ← sub_ctx 0;
  on_cmp (cmp_read_array rd) (fun _ => (0, null)) (fun arr_size =>
  array ← sub_ctx arr_size;
  mret (arr_size, array)).

(** A context for the whole document: one item. *)
Definition mpack_init_ctx (s : St) : D * io_codec_ctx unit :=
  ({| cmp_buf := s; cmp_error := 0 |},
   {| ctx_node := tt; ctx_index := 1; ctx_default_allocator := None |}).

Definition mpack_codec : io_codec D unit := {|
  codec_id := io_codec_mpack;

  enc_int := mpack_write_integer;
  enc_uint := mpack_write_uinteger;
  enc_decimal := mpack_write_decimal;
  enc_bool := mpack_write_bool;
  enc_string := mpack_write_string;
  enc_bin := mpack_write_bin;
  enc_object := mpack_write_object;
  enc_tbegin := mpack_write_type_begin;
  enc_tend := mpack_write_type_end;
  enc_array := mpack_write_array;

  dec_int := mpack_read_integer;
  dec_uint := mpack_read_uinteger;
  dec_double := mpack_read_decimal;
  dec_bool := mpack_read_bool;
  dec_string := mpack_read_string;
  dec_bin := mpack_read_bin;
  dec_object := mpack_read_object;
  dec_tbegin := mpack_read_type_begin;
  dec_tend := mpack_read_type_end;
  dec_array := mpack_read_array;
|}.
End Codec.

(** ** The codec keeps the laws *)

(** Values that have an encoding: integers of 64 bits, lengths of 32 bits. *)
Fixpoint wf_value (v : value) : Prop :=
  match v with
  | VInt z => in_i64 z
  | VUint z => in_u64 z
  | VBool _ | VNull => True
  | VStr s => in_u32 (zlen s + 1)
  | VBin b => in_u32 (zlen b)
  | VObj ms => in_u32 (zlen ms + 1) /\ foldr (fun f P => wf_value (snd f) /\ P) True ms
  | VArr vs => in_u32 (zlen vs) /\ foldr (fun v P => wf_value v /\ P) True vs
  end.

Section Laws.
Context {C : cmp_ops} {CL : cmp_laws C} {St : Type} (stream : io_stream St).
Abbreviation D := (cmp_ctx St).
Abbreviation ctx := (io_codec_ctx unit).

(** The bytes of a value; an object is an array that starts with a nil. *)
Fixpoint ser (v : value) : bytes :=
  match v with
  | VInt z => fmt_int z
  | VUint z => fmt_uint z
  | VBool b => fmt_bool b
  | VStr s => fmt_str (zlen s) ++ s
  | VBin b => fmt_bin (zlen b) ++ b
  | VNull => fmt_nil
  | VObj ms => fmt_array (zlen ms + 1) ++ fmt_nil ++ concat (map (fun f => ser (snd f)) ms)
  | VArr vs => fmt_array (zlen vs) ++ concat (map ser vs)
  end.

Definition ser_fields (fs : list field) : bytes := concat (map (fun f => ser (snd f)) fs).
Definition wf_fields (fs : list field) : Prop := Forall (fun f => wf_value (snd f)) fs.

Lemma ser_fields_app fs fs' : ser_fields (fs ++ fs') = ser_fields fs ++ ser_fields fs'.
Proof. unfold ser_fields. by rewrite map_app, concat_app. Qed.
Lemma ser_fields_cons f fs : ser_fields (f :: fs) = ser (snd f) ++ ser_fields fs.
Proof. done. Qed.
Lemma ser_obj ms : ser (VObj ms) = fmt_array (zlen ms + 1) ++ fmt_nil ++ ser_fields ms.
Proof. done. Qed.
Lemma ser_arr vs : ser (VArr vs) = fmt_array (zlen vs) ++ ser_fields (elems vs).
Proof. unfold ser_fields, elems. cbn. by rewrite map_map. Qed.

Lemma wf_obj ms : wf_value (VObj ms) <-> in_u32 (zlen ms + 1) /\ wf_fields ms.
Proof.
  cbn. assert (foldr (fun (f : field) P => wf_value (snd f) /\ P) True ms <-> wf_fields ms) as ->; [|done].
  unfold wf_fields. induction ms as [|f ms IH]; cbn; [split; constructor|].
  rewrite IH, Forall_cons. done.
Qed.
Lemma wf_arr vs : wf_value (VArr vs) <-> in_u32 (zlen vs) /\ wf_fields (elems vs).
Proof.
  cbn. assert (foldr (fun v P => wf_value v /\ P) True vs <-> wf_fields (elems vs)) as ->; [|done].
  unfold wf_fields, elems. induction vs as [|v vs IH]; cbn; [split; constructor|].
  rewrite IH, Forall_cons. done.
Qed.

Lemma sub_ctx_bind {B} i (k : ctx -> M D unit B) w c :
  (sub_ctx i ≫= k) w c
  = k {| ctx_node := tt; ctx_index := i; ctx_default_allocator := ctx_default_allocator c |} w c.
Proof. done. Qed.

Lemma ret_bind {A B} (x : A) (k : A -> M D unit B) w c : (mret x ≫= k) w c = k x w c.
Proof. done. Qed.

(** *** Writing *)
Section Enc.
Context `{SW : !stream_writes stream}.

Definition put_bytes (d : D) (bs : bytes) (d' : D) : Prop :=
  wrote sout sroom (cmp_buf d) bs (cmp_buf d').

#[export] Instance mpack_enc_view : enc_view D unit := {|
  can_emit d c fs := zlen (ser_fields fs) <= sroom (cmp_buf d) /\ wf_fields fs;
  stepped d _ fs d' := put_bytes d (ser_fields fs) d';
  can_open d c ms := zlen (ser (VObj ms)) <= sroom (cmp_buf d) /\ wf_value (VObj ms);
  wrote_obj d _ ms d' := put_bytes d (ser (VObj ms)) d';
|}.

Lemma stepped_one d r n v d' : put_bytes d (ser v) d' -> stepped d r [(n, v)] d'.
Proof. unfold stepped, mpack_enc_view, ser_fields. cbn [map concat snd]. by rewrite app_nil_r. Qed.

Lemma put_bytes_app d a d' b d'' :
  put_bytes d a d' -> put_bytes d' b d'' -> put_bytes d (a ++ b) d''.
Proof.
  intros [E1 H1] [E2 H2]. split; [by rewrite E2, E1, app_assoc|].
  rewrite zlen_app. lia.
Qed.

Lemma on_cmp_puts {B} op bs mu d c (early : unit -> B) (k : unit -> M D unit B) :
  puts (cmp_stream_write stream) op bs -> zlen bs <= sroom (cmp_buf d) ->
  exists d', on_cmp (noval op) early k {| w_doc := d; w_mem := mu |} c
               = k tt {| w_doc := d'; w_mem := mu |} c /\ put_bytes d bs d'.
Proof.
  intros Hp Hr. destruct (Hp sout sroom d (cmp_stream_write_ok stream) Hr) as (d' & E & Hw).
  exists d'. unfold on_cmp, noval. cbn. rewrite E. done.
Qed.

(** After some of the bytes there is room for the others. *)
Lemma room_after d a b d' : put_bytes d a d' -> zlen (a ++ b) <= sroom (cmp_buf d) ->
  zlen a <= sroom (cmp_buf d) /\ zlen b <= sroom (cmp_buf d').
Proof. intros [_ H]. rewrite zlen_app. pose proof (zlen_nonneg b). pose proof (zlen_nonneg a). lia. Qed.

Lemma room_first d (a b : bytes) : zlen (a ++ b) <= sroom (cmp_buf d) -> zlen a <= sroom (cmp_buf d).
Proof. rewrite zlen_app. pose proof (zlen_nonneg b). lia. Qed.

Ltac next_put pf d' H :=
  match goal with
  | |- context [on_cmp (noval ?op) ?early ?k {| w_doc := ?d; w_mem := ?mu |} ?c] =>
      let E := fresh in
      destruct (on_cmp_puts op _ mu d c early k pf) as (d' & E & H);
      [by eapply room_first|rewrite E; clear E]
  end.

Lemma emits_write mu op n v : (wf_value v -> puts (cmp_stream_write stream) op (ser v)) ->
  emits mu (mpack_write op) [(n, v)].
Proof.
  intros Hp d c fs' [Hroom Hwf]. cbn [app] in *. rewrite ser_fields_cons in Hroom.
  inversion_clear Hwf as [|? ? Hv Hfs]. cbn [snd] in *.
  destruct (on_cmp_puts op (ser v) mu d c id (fun _ => mpack_write_complete)) as (d' & E & Hput);
    [by apply Hp|by eapply room_first|].
  unfold mpack_write. rewrite E. do 2 eexists. split; [done|].
  destruct (room_after _ _ _ _ Hput Hroom). split; [by apply stepped_one|done].
Qed.

Lemma mpack_emits_tbegin mu n (m : M D unit unit) fs : emits mu m fs -> zlen fs = n ->
  emits_obj mu (mpack_write_type_begin stream n;; m) fs.
Proof.
  intros Hm Hn d c [Hroom Hwf]. rewrite ser_obj in Hroom. apply wf_obj in Hwf as [Hl Hwf].
  unfold mpack_write_type_begin. rewrite Hn in *.
  assert (Hlen : u32 (u32 n + 1) = n + 1).
  { unfold in_u32 in Hl. rewrite (u32_id n), u32_id; unfold in_u32;
      pose proof (zlen_nonneg fs); lia. }
  rewrite Hlen. unfold mbind at 1, M_bind at 1.
  next_put (puts_array (cmp_stream_write stream) _ Hl) d1 H1.
  destruct (room_after _ _ _ _ H1 Hroom) as [_ Hroom1].
  next_put (puts_nil (cmp_stream_write stream)) d2 H2.
  destruct (room_after _ _ _ _ H2 Hroom1) as [_ Hroom2]. cbn.
  destruct (Hm d2 {| ctx_node := ctx_node c; ctx_index := n;
    ctx_default_allocator := ctx_default_allocator c |} []) as (d3 & c3 & E3 & H3 & _ & _).
  { rewrite app_nil_r. done. }
  rewrite E3. do 2 eexists. split; [done|].
  change (put_bytes d (ser (VObj fs)) d3). rewrite ser_obj, Hn. eapply put_bytes_app; [done|]. by eapply put_bytes_app.
Qed.

Lemma mpack_enc_object_law mu n d c ms fs : can_emit d c ((n, VObj ms) :: fs) ->
  exists d' c' obj, mpack_write_object stream n false {| w_doc := d; w_mem := mu |} c
      = Ok (obj, {| w_doc := d'; w_mem := mu |}, c') /\ ctx_node c' = ctx_node c /\ can_open d' obj ms /\
    forall d'', wrote_obj d' (ctx_node obj) ms d'' -> stepped d (ctx_node c) [(n, VObj ms)] d'' /\ can_emit d'' c' fs.
Proof.
  intros [Hroom Hwf]. rewrite ser_fields_cons in Hroom. inversion_clear Hwf as [|? ? Hv Hfs].
  do 3 eexists. split; [done|]. split; [done|]. split; [split; [by eapply room_first|done]|].
  intros d'' Hw. destruct (room_after _ _ _ _ Hw Hroom). split; [by apply stepped_one|done].
Qed.

Lemma mpack_enc_null_law mu n d c fs : can_emit d c ((n, VNull) :: fs) ->
  exists d' c' obj, mpack_write_object stream n true {| w_doc := d; w_mem := mu |} c
      = Ok (obj, {| w_doc := d'; w_mem := mu |}, c') /\
    ctx_node c' = ctx_node c /\ stepped d (ctx_node c) [(n, VNull)] d' /\ can_emit d' c' fs.
Proof.
  intros [Hroom Hwf]. rewrite ser_fields_cons in Hroom. inversion_clear Hwf as [|? ? Hv Hfs].
  unfold mpack_write_object. rewrite sub_ctx_bind.
  next_put (puts_nil (cmp_stream_write stream)) d' Hput. do 3 eexists. split; [done|].
  destruct (room_after _ _ _ _ Hput Hroom). split; [done|]. split; [by apply stepped_one|done].
Qed.

Lemma mpack_enc_array_law mu n d c vs fs : can_emit d c ((n, VArr vs) :: fs) ->
  exists d' c' arr, mpack_write_array stream n (zlen vs) {| w_doc := d; w_mem := mu |} c
      = Ok (arr, {| w_doc := d'; w_mem := mu |}, c') /\ ctx_node c' = ctx_node c /\ can_emit d' arr (elems vs) /\
    forall d'', stepped d' (ctx_node arr) (elems vs) d'' -> stepped d (ctx_node c) [(n, VArr vs)] d'' /\ can_emit d'' c' fs.
Proof.
  intros [Hroom Hwf]. rewrite ser_fields_cons in Hroom. inversion_clear Hwf as [|? ? Hv Hfs].
  cbn -[ser] in Hv, Hroom. apply wf_arr in Hv as [Hl Hvs]. rewrite ser_arr, <- app_assoc in Hroom.
  unfold mpack_write_array. rewrite u32_id by done.
  rewrite sub_ctx_bind.
  next_put (puts_array (cmp_stream_write stream) _ Hl) d' Hput. destruct (room_after _ _ _ _ Hput Hroom) as [_ Hroom1].
  do 3 eexists. split; [done|]. split; [done|]. split; [split; [by eapply room_first|done]|].
  intros d'' Hw. destruct (room_after _ _ _ _ Hw Hroom1). split; [|done].
  apply stepped_one. rewrite ser_arr. by eapply put_bytes_app.
Qed.

#[export] Instance mpack_enc_laws : enc_laws (mpack_codec stream) mpack_enc_view.
Proof.
  constructor.
  - intros s c fs _. split; [by rewrite app_nil_r|unfold zlen; cbn; lia].
  - intros s r fs s' fs' s'' ? ?. cbn in *. rewrite ser_fields_app. by eapply put_bytes_app.
  - intros. apply emits_write. apply puts_integer.
  - intros. apply emits_write. apply puts_uinteger.
  - intros. apply emits_write. intros. apply puts_bool.
  - intros mu n s. apply emits_write. cbn. intros H.
    assert (in_u32 (zlen s)) by (unfold in_u32 in *; pose proof (zlen_nonneg s); lia).
    rewrite u32_id by done. by apply puts_str.
  - intros mu n b. apply emits_write. cbn. intros H. rewrite u32_id by done. by apply puts_bin.
  - intros mu d c fs' H. do 2 eexists. split; [done|]. split; [|done].
    split; [by rewrite app_nil_r|unfold zlen; cbn; lia].
  - apply mpack_emits_tbegin.
  - apply mpack_enc_object_law.
  - apply mpack_enc_null_law.
  - apply mpack_enc_array_law.
Qed.
End Enc.

(** *** Reading *)
Section Dec.
Context `{SR : !stream_reads stream}.

(** What is left is the fields and then [k]; there are items left for them. *)
#[export] Instance mpack_dec_view : dec_view D unit := {|
  rest := bytes;
  sees d c fs k := sin (cmp_buf d) = ser_fields fs ++ k /\ wf_fields fs /\
    zlen fs <= ctx_index c < 2 ^ 64;
|}.

Lemma read_begin_bind {B} f (fs : list field) (c : ctx) (k : unit -> M D unit B) w :
  zlen (f :: fs) <= ctx_index c < 2 ^ 64 ->
  exists c', (mpack_read_begin ≫= k) w c = k tt w c' /\
    zlen fs <= ctx_index c' < 2 ^ 64 /\ same_alloc c c'.
Proof.
  rewrite zlen_cons. intros Hi. pose proof (zlen_nonneg fs).
  exists {| ctx_node := ctx_node c; ctx_index := ctx_index c - 1;
            ctx_default_allocator := ctx_default_allocator c |}.
  split; [|cbn; split; [lia|done]].
  unfold mpack_read_begin, read_begin, mbind, M_bind, get_ctx.
  rewrite bool_decide_eq_false_2 by lia. cbn. rewrite u64_id by (unfold in_u64; lia). done.
Qed.

Lemma on_cmp_gets {A B} op bs (a : A) mu d c (early : A -> B) (k : A -> M D unit B) r :
  gets (cmp_stream_read stream) op bs a -> sin (cmp_buf d) = bs ++ r ->
  exists d', on_cmp op early k {| w_doc := d; w_mem := mu |} c
               = k a {| w_doc := d'; w_mem := mu |} c /\ sin (cmp_buf d') = r.
Proof.
  intros Hp Hr. destruct (Hp sin d r (cmp_stream_read_ok stream) Hr) as (d' & E & Hw).
  exists d'. unfold on_cmp. cbn [w_doc w_mem]. rewrite E. done.
Qed.

Ltac next_item Hi c' Hi' Ha :=
  match goal with
  | |- context [(mpack_read_begin ≫= ?k) ?w ?c] =>
      let E := fresh in
      destruct (read_begin_bind _ _ c k w Hi) as (c' & E & Hi' & Ha); rewrite E; clear E
  end.

Ltac next_get pf Hs d' H :=
  match goal with
  | |- context [on_cmp ?op ?early ?k {| w_doc := ?d; w_mem := ?mu |} ?c] =>
      let E := fresh in
      destruct (on_cmp_gets op _ _ mu d c early k _ pf Hs) as (d' & E & H);
      rewrite E; clear E
  end.

Lemma parses_read {A} d mu (op : D -> res (D * bool * A)) n v a :
  (wf_value v -> gets (cmp_stream_read stream) op (ser v) a) ->
  parses d mu (mpack_read op) [(n, v)] a mu.
Proof.
  intros Hg s c fs' k (Hs & Hwf & Hi) Hd. cbn [app] in *. rewrite ser_fields_cons in Hs.
  inversion_clear Hwf as [|? ? Hv Hfs]. rewrite <- app_assoc in Hs. specialize (Hg Hv).
  unfold mpack_read. next_item Hi c' Hi' Ha.
  next_get Hg Hs s' Hs'. exists s', c'. split; [done|]. split; [done|]. by rewrite Ha.
Qed.

(** A read into memory that was allocated for it. *)
Lemma reads_ok bs mu mu' p p' d c r : sin (cmp_buf d) = bs ++ r ->
  store mu p 0 bs = Ok (p', mu') ->
  exists d', reads stream p (zlen bs) {| w_doc := d; w_mem := mu |} c
      = Ok ((p', true), {| w_doc := d'; w_mem := mu' |}, c) /\ sin (cmp_buf d') = r.
Proof.
  intros Hs Hst. destruct (cmp_stream_read_ok stream d (zlen bs)) as (d' & E & Hd').
  { rewrite Hs, zlen_app. pose proof (zlen_nonneg bs). pose proof (zlen_nonneg r). lia. }
  exists d'. unfold reads. cbn [w_doc w_mem]. rewrite E. cbn. unfold stores. cbn.
  unfold zlen in *. rewrite Nat2Z.id, Hs in *.
  rewrite take_app_length, drop_app_length in *. rewrite Hst. done.
Qed.

Lemma mpack_parses_string d mu n a s p size mu' : fill a (s ++ [0]) mu = Ok (p, size, mu') ->
  parses d mu (mpack_read_string stream n a) [(n, VStr s)] (p, size) mu'.
Proof.
  intros Hf s0 c fs' k (Hs & Hwf & Hi) Hd. cbn [app] in *. rewrite ser_fields_cons in Hs.
  inversion_clear Hwf as [|? ? Hv Hfs]. cbn in Hv. rewrite <- app_assoc in Hs.
  unfold mpack_read_string. next_item Hi c' Hi' Ha.
  assert (Hl : in_u32 (zlen s)) by (unfold in_u32 in *; pose proof (zlen_nonneg s); lia).
  cbn [snd ser] in Hs. rewrite <- app_assoc in Hs.
  next_get (gets_str_size (cmp_stream_read stream) _ Hl) Hs s1 Hs1.
  rewrite u32_id by done. unfold fill in Hf. rewrite zlen_app in Hf. change (zlen [0]) with 1 in Hf.
  unfold mbind at 1, M_bind at 1, allocate. cbn [w_doc w_mem].
  destruct (a (zlen s + 1) mu) as [[[p1 size1] mu1]| |]; cbn in Hf |- *; [|done|done].
  revert Hf. case_bool_decide as Hsz; [|done]. intros Hf.
  destruct (store mu1 p1 0 (s ++ [0])) as [[p2 mu2]| |] eqn:Est; cbn in Hf; [|done|done].
  injection Hf as <- <- <-. rewrite bool_decide_eq_false_2 by tauto.
  apply store_app in Est as (p3 & mu3 & Est1 & Est2).
  destruct (reads_ok s mu1 mu3 p1 p3 s1 c' _ Hs1 Est1) as (s2 & Er & Hs2).
  unfold mbind at 1, M_bind at 1. rewrite Er.
  unfold mbind at 1, M_bind at 1, stores. cbn [w_doc w_mem]. rewrite Est2. cbn.
  exists s2, c'. split; [done|]. split; [done|]. by rewrite Ha.
Qed.

Lemma mpack_parses_bin d mu n a b p size mu' : fill_bin a b mu = Ok (p, size, mu') ->
  parses d mu (mpack_read_bin stream n a) [(n, VBin b)] (p, size) mu'.
Proof.
  intros Hf s0 c fs' k (Hs & Hwf & Hi) Hd. cbn [app] in *. rewrite ser_fields_cons in Hs.
  inversion_clear Hwf as [|? ? Hv Hfs]. cbn in Hv. rewrite <- app_assoc in Hs.
  unfold mpack_read_bin. next_item Hi c' Hi' Ha.
  cbn [snd ser] in Hs. rewrite <- app_assoc in Hs.
  next_get (gets_bin_size (cmp_stream_read stream) _ Hv) Hs s1 Hs1.
  unfold fill_bin in Hf. destruct (bool_decide (zlen b = 0)) eqn:Hz.
  { injection Hf as <- <- <-. apply bool_decide_eq_true_1 in Hz.
    destruct b as [|x b]; [|rewrite zlen_cons in Hz; pose proof (zlen_nonneg b); lia].
    cbn [app] in Hs1. exists s1, c'. split; [done|]. split; [done|]. by rewrite Ha. }
  unfold fill in Hf. unfold mbind at 1, M_bind at 1, allocate. cbn [w_doc w_mem].
  destruct (a (zlen b) mu) as [[[p1 size1] mu1]| |]; cbn in Hf |- *; [|done|done].
  destruct (decide (size1 = zlen b)) as [Hsz|Hsz];
    [rewrite bool_decide_eq_true_2 in Hf by done|by rewrite bool_decide_eq_false_2 in Hf].
  destruct (store mu1 p1 0 b) as [[p2 mu2]| |] eqn:Est; cbn in Hf; [|done|done].
  injection Hf as <- <- <-. rewrite bool_decide_eq_false_2 by tauto.
  destruct (reads_ok b mu1 mu2 p1 p2 s1 c' _ Hs1 Est) as (s2 & Er & Hs2).
  unfold mbind at 1, M_bind at 1. rewrite Er. cbn.
  exists s2, c'. split; [done|]. split; [done|]. by rewrite Ha.
Qed.

(** The head of an object or array. *)
Lemma read_object_nil mu n d c fs k : sees d c ((n, VNull) :: fs) k ->
  exists d' c', same_alloc c c' /\ sees d' c' fs k /\
    forall valid, mpack_read_object stream n valid {| w_doc := d; w_mem := mu |} c
      = (store_flag valid;; null ← sub_ctx 0; mret (true, null)) {| w_doc := d'; w_mem := mu |} c'.
Proof.
  intros (Hs & Hwf & Hi). rewrite ser_fields_cons, <- app_assoc in Hs.
  inversion_clear Hwf as [|? ? Hv Hfs]. unfold mpack_read_object.
  destruct (gets_object_nil (cmp_stream_read stream)) as [sz Hg].
  edestruct (read_begin_bind (B:=unit) _ _ c (fun _ => mret tt) {| w_doc := d; w_mem := mu |} Hi)
    as (c' & E & Hi' & Ha).
  destruct (Hg sin d _ (cmp_stream_read_ok stream) Hs) as (d' & Ed & Hs').
  exists d', c'. split; [done|]. split; [done|]. intros valid.
  unfold mbind at 1, M_bind at 1. unfold mbind at 1, M_bind at 1 in E.
  destruct (mpack_read_begin _ c) as [[[u w1] c1]| |]; [|done|done].
  injection E as -> ->. rewrite sub_ctx_bind. unfold on_cmp. cbn [w_doc w_mem].
  rewrite Ed. cbn [obj_type]. destruct valid; reflexivity.
Qed.

Lemma read_object_array mu n d c ms fs k : sees d c ((n, VObj ms) :: fs) k ->
  exists d' c', same_alloc c c' /\ sin (cmp_buf d') = fmt_nil ++ ser_fields ms ++ ser_fields fs ++ k /\
    wf_fields ms /\ wf_fields fs /\ in_u32 (zlen ms + 1) /\
    zlen fs <= ctx_index c' < 2 ^ 64 /\
    forall valid, mpack_read_object stream n valid {| w_doc := d; w_mem := mu |} c
      = (store_flag valid;; i ← read_begin (zlen ms + 1); object ← sub_ctx i;
         on_cmp (noval (cmp_read_nil (cmp_stream_read stream))) (fun _ => (false, object))
           (fun _ => mret (false, object))) {| w_doc := d'; w_mem := mu |} c'.
Proof.
  intros (Hs & Hwf & Hi). rewrite ser_fields_cons in Hs. cbn [snd] in Hs.
  rewrite ser_obj, <- !app_assoc in Hs.
  inversion_clear Hwf as [|? ? Hv Hfs]. apply wf_obj in Hv as [Hl Hms].
  unfold mpack_read_object.
  destruct (gets_object_array (cmp_stream_read stream) _ Hl) as (t & Ht & Hg).
  edestruct (read_begin_bind (B:=unit) _ _ c (fun _ => mret tt) {| w_doc := d; w_mem := mu |} Hi)
    as (c' & E & Hi' & Ha).
  destruct (Hg sin d _ (cmp_stream_read_ok stream) Hs) as (d' & Ed & Hs').
  exists d', c'. split_and!; try done || lia. intros valid.
  unfold mbind at 1, M_bind at 1. unfold mbind at 1, M_bind at 1 in E.
  destruct (mpack_read_begin _ c) as [[[u w1] c1]| |]; [|done|done].
  injection E as -> ->. rewrite sub_ctx_bind. unfold on_cmp at 1. cbn [w_doc w_mem].
  rewrite Ed. cbn [obj_type]. by destruct Ht as [-> |[-> | ->]].
Qed.

Lemma mpack_dec_object_law mu n d c ms fs k : sees d c ((n, VObj ms) :: fs) k ->
  exists d' c' obj k', mpack_read_object stream n true {| w_doc := d; w_mem := mu |} c
      = Ok ((false, obj), {| w_doc := d'; w_mem := mu |}, c') /\
    same_alloc c c' /\ same_alloc c obj /\ sees d' obj ms k' /\
    forall d'' obj'', sees d'' obj'' [] k' -> sees d'' c' fs k.
Proof.
  intros H. destruct (read_object_array mu n d c ms fs k H)
    as (d' & c' & Ha & Hs & Hms & Hfs & Hl & Hi & E).
  rewrite E. unfold store_flag, lift, read_begin. unfold mbind at 1, M_bind at 1.
  pose proof (zlen_nonneg ms). rewrite bool_decide_eq_false_2 by lia.
  rewrite ret_bind, sub_ctx_bind.
  next_get (gets_nil (cmp_stream_read stream)) Hs d1 Hs1.
  unfold in_u32 in Hl. rewrite u64_id by (unfold in_u64; lia).
  do 4 eexists. split; [done|]. split; [done|]. split; [exact Ha|].
  split; [split; [done|split; [done|cbn; lia]]|].
  intros d'' obj'' (Hs'' & _). split; [done|done].
Qed.

Lemma mpack_dec_null_law mu n d c fs k : sees d c ((n, VNull) :: fs) k ->
  exists d' c' obj, mpack_read_object stream n true {| w_doc := d; w_mem := mu |} c
      = Ok ((true, obj), {| w_doc := d'; w_mem := mu |}, c') /\ same_alloc c c' /\ sees d' c' fs k.
Proof.
  intros H. destruct (read_object_nil mu n d c fs k H) as (d' & c' & Ha & Hs & E).
  rewrite E. do 3 eexists. split; [done|done].
Qed.

Lemma mpack_dec_array_law mu n d c vs fs k : sees d c ((n, VArr vs) :: fs) k ->
  exists d' c' arr k', mpack_read_array stream n {| w_doc := d; w_mem := mu |} c
      = Ok ((zlen vs, arr), {| w_doc := d'; w_mem := mu |}, c') /\
    same_alloc c c' /\ same_alloc c arr /\ sees d' arr (elems vs) k' /\
    forall d'' arr'', sees d'' arr'' [] k' -> sees d'' c' fs k.
Proof.
  intros (Hs & Hwf & Hi). rewrite ser_fields_cons in Hs. cbn [snd] in Hs.
  rewrite ser_arr, <- !app_assoc in Hs.
  inversion_clear Hwf as [|? ? Hv Hfs]. apply wf_arr in Hv as [Hl Hvs].
  unfold mpack_read_array. next_item Hi c' Hi' Ha. rewrite sub_ctx_bind.
  next_get (gets_array (cmp_stream_read stream) _ Hl) Hs d1 Hs1. rewrite sub_ctx_bind.
  do 4 eexists. split; [done|]. split; [done|]. split; [exact Ha|].
  split; [split; [done|split; [done|]]|].
  - cbn. unfold elems, in_u32, zlen in *. rewrite length_map. lia.
  - intros d'' arr'' (Hs'' & _). split; [done|done].
Qed.

#[export] Instance mpack_dec_laws : dec_laws (mpack_codec stream) mpack_dec_view.
Proof.
  constructor.
  - intros. apply parses_read. apply gets_integer.
  - intros. apply parses_read. apply gets_uinteger.
  - intros. apply parses_read. intros. apply gets_bool.
  - apply mpack_parses_string.
  - apply mpack_parses_bin.
  - intros d mu s c fs' k ? ?. exists s, c. done.
  - intros d mu s c fs' k ? ?. exists s, c. done.
  - intros d mu s c fs' k ? ?. exists s, c. done.
  - apply mpack_dec_object_law.
  - apply mpack_dec_null_law.
  - apply mpack_dec_array_law.
  - intros s c fs k a (? & ? & ?). done.
Qed.
End Dec.
End Laws.

(** ** Claims *)

(** Errors of a stream through the cmp context: the codes that
    [cmp_ctx_set_err] knows come back from [cmp_ctx_get_err] as they were, a read
    error as a format error and every other one as [er_unknown]; only [er_ok]
    comes back as [er_ok], so no failure is reported as success. *)
Lemma cmp_error_roundtrip {St} (ctx : cmp_ctx St) e :
  cmp_ctx_get_err (fst (cmp_ctx_set_err ctx e)) =
    match e with
    | er_ok | er_arg | er_writing | er_invalid_format | er_out_of_memory | er_fault => e
    | er_reading => er_invalid_format
    | _ => er_unknown
    end /\
  snd (cmp_ctx_set_err ctx e) = bool_decide (e = er_ok).
Proof. by destruct e. Qed.

(** C40: A string of length 2^32 - 1 overflows the caller's array: [len32 + 1] wraps
    to 0, the size check passes, and the data that follows is copied into an array
    of any size up to 2^32 - 2 that it does not fit into. *)
Theorem mpack_string_overflow {C : cmp_ops} {CL : cmp_laws C} {St} (stream : io_stream St)
    `{SR : !stream_reads stream} (n : name) (val data : bytes) mu d c :
  ctx_index c <> 0 -> sin (cmp_buf d) = fmt_str (2 ^ 32 - 1) ++ data ->
  zlen val < zlen data -> zlen val < 2 ^ 32 - 1 ->
  io_decode_string_fixed (mpack_codec stream) n val {| w_doc := d; w_mem := mu |} c = UB.
Proof.
  remember (2 ^ 32 - 1) as len eqn:Hlen.
  intros Hi Hs Hl Hm. unfold io_decode_string_fixed. cbn [dec_string mpack_codec].
  unfold mbind at 1, M_bind at 1.
  enough (mpack_read_string stream n (fixed_validator val) {| w_doc := d; w_mem := mu |} c = UB)
    as -> by done.
  unfold mpack_read_string, mpack_read_begin, read_begin.
  unfold mbind at 1, M_bind at 1. unfold mbind at 1, M_bind at 1, get_ctx.
  unfold mbind at 1, M_bind at 1. rewrite bool_decide_eq_false_2 by done. cbn [mret M_ret set_index].
  unfold mret, M_ret, set_index.
  assert (Hu : in_u32 len) by (unfold in_u32; lia).
  assert (Hwrap : u32 (len + 1) = 0) by (by rewrite Hlen).
  destruct (gets_str_size (cmp_stream_read stream) _ Hu sin d data (cmp_stream_read_ok stream) Hs)
    as (d1 & E1 & Hs1).
  unfold on_cmp. cbn [w_doc w_mem]. rewrite E1, Hwrap.
  pose proof (zlen_nonneg val) as Hv.
  unfold mbind at 1, M_bind at 1, allocate, fixed_validator. rewrite bool_decide_eq_true_2 by done.
  cbn [mbind res_bind w_mem w_doc]. rewrite bool_decide_eq_false_2 by (intros Hf; by apply Hf).
  unfold mbind at 1, M_bind at 1, reads, cmp_stream_read. cbn [w_doc w_mem].
  destruct (io_stream_read_spec (cmp_buf d1) len) as (s2 & -> & _); [lia|].
  rewrite Hs1. set (got := take (Z.to_nat len) data).
  assert (Hgot : zlen val < zlen got).
  { unfold got, zlen in *. rewrite length_take. lia. }
  destruct (cmp_ctx_set_err _ _) as [d2 ok]. cbn [mbind res_bind]. unfold stores. cbn [w_mem w_doc].
  assert (Hne : got <> []) by (intros Hg; rewrite Hg in Hgot; unfold zlen in Hgot; cbn in Hgot; lia).
  rewrite store_cons by done. unfold mem_write, zlen in *.
  rewrite bool_decide_eq_false_2 by lia. done.
Qed.
End Mpack.
