(* ===== verification/Msgpack.v ===== *)
(** * A reference implementation of the cmp functions

    Shows that [cmp_laws] can be met: MessagePack with the widest encoding of
    every kind (int 64, uint 64, str 32, bin 32, array 32).  The examples of the
    other files run on it. *)
From stdpp Require Import base option list numbers.
From S2P Require Import Prelude IoStream IoMem IoCodec Mpack.
Import IoStream IoMem IoCodec Mpack.

Module Msgpack.

(** ** Integers as bytes, most significant first *)

Fixpoint le_bytes (w : nat) (z : Z) : bytes :=
  match w with O => [] | S w => z mod 2 ^ 8 :: le_bytes w (z / 2 ^ 8) end.

Definition be_bytes (w : nat) (z : Z) : bytes := rev (le_bytes w z).
Definition be_int (bs : bytes) : Z := le_int (rev bs).

Lemma length_le_bytes w : forall z, length (le_bytes w z) = w.
Proof. induction w as [|w IH]; intros z; cbn; [done|by rewrite IH]. Qed.

Lemma zlen_be_bytes w z : zlen (be_bytes w z) = Z.of_nat w.
Proof. unfold be_bytes, zlen. rewrite length_rev, length_le_bytes. done. Qed.

Lemma le_int_le_bytes w : forall z, 0 <= z < 2 ^ (8 * Z.of_nat w) -> le_int (le_bytes w z) = z.
Proof.
  induction w as [|w IH]; intros z Hz; cbn [le_bytes le_int]; [change (2 ^ (8 * Z.of_nat 0)) with 1 in Hz; lia|].
  replace (8 * Z.of_nat (S w)) with (8 + 8 * Z.of_nat w) in Hz by lia.
  rewrite Z.pow_add_r in Hz by lia.
  rewrite IH; [pose proof (Z.div_mod z (2 ^ 8)); lia|].
  split; [apply Z.div_pos; lia|apply Z.div_lt_upper_bound; lia].
Qed.

Lemma be_int_be_bytes w z : 0 <= z < 2 ^ (8 * Z.of_nat w) -> be_int (be_bytes w z) = z.
Proof. intros. unfold be_int, be_bytes. rewrite rev_involutive. by apply le_int_le_bytes. Qed.

Lemma i64_u64 z : in_i64 z -> i64 (u64 z) = z.
Proof.
  unfold in_i64, i64, sgn, u64. change (2 ^ (64 - 1)) with (2 ^ 63). intros H.
  rewrite Zplus_mod_idemp_l. rewrite Z.mod_small; lia.
Qed.

(** ** Writing and reading *)

Definition with_error {St} (d : cmp_ctx St) (e : Z) : cmp_ctx St :=
  {| cmp_buf := cmp_buf d; cmp_error := e |}.

Definition put {St} (wr : cmp_writer St) (bs : bytes) (d : cmp_ctx St) : res (cmp_ctx St * bool) :=
  '(d, n) ← wr d bs;
  Ok (if bool_decide (n = zlen bs) then (d, true) else (with_error d 10, false)).

(** The marker selects how to go on. *)
Definition get {St A} (rd : cmp_reader St) (dflt : A)
    (on_marker : Z -> option (Z * (bytes -> A))) (d : cmp_ctx St) : res (cmp_ctx St * bool * A) :=
  '(d, ok, m) ← rd d 1;
  match (ok : bool), m with
  | true, [m] =>
      match on_marker m with
      | Some (n, conv) =>
          if bool_decide (n = 0) then Ok (d, true, conv [])
          else
            '(d, ok, bs) ← rd d n;
            if (ok : bool) then Ok (d, true, conv bs) else Ok (with_error d 9, false, dflt)
      | None => Ok (with_error d 13, false, dflt)
      end
  | _, _ => Ok (with_error d 7, false, dflt)
  end.

Definition only {A} (marker n : Z) (conv : bytes -> A) (m : Z) : option (Z * (bytes -> A)) :=
  if bool_decide (m = marker) then Some (n, conv) else None.

Definition m_nil := 192.
Definition m_false := 194.
Definition m_true := 195.
Definition m_bin32 := 198.
Definition m_double := 203.
Definition m_uint64 := 207.
Definition m_int64 := 211.
Definition m_str32 := 219.
Definition m_array32 := 221.

Definition of_int (z : Z) : bytes := m_int64 :: be_bytes 8 (u64 z).
Definition of_uint (z : Z) : bytes := m_uint64 :: be_bytes 8 (u64 z).
Definition of_bool (b : bool) : bytes := [if b then m_true else m_false].
Definition of_str (n : Z) : bytes := m_str32 :: be_bytes 4 (u32 n).
Definition of_bin (n : Z) : bytes := m_bin32 :: be_bytes 4 (u32 n).
Definition of_array (n : Z) : bytes := m_array32 :: be_bytes 4 (u32 n).

Definition on_bool (m : Z) : option (Z * (bytes -> bool)) :=
  if bool_decide (m = m_true) then Some (0, fun _ => true)
  else if bool_decide (m = m_false) then Some (0, fun _ => false) else None.

Definition on_object (m : Z) : option (Z * (bytes -> cmp_object)) :=
  if bool_decide (m = m_nil)
  then Some (0, fun _ => {| obj_type := CMP_TYPE_NIL; obj_array_size := 0 |})
  else if bool_decide (m = m_array32)
  then Some (4, fun bs => {| obj_type := CMP_TYPE_ARRAY32; obj_array_size := be_int bs |})
  else Some (0, fun _ => {| obj_type := CMP_TYPE_other; obj_array_size := 0 |}).

#[export] Instance msgpack : cmp_ops := {|
  cmp_write_integer _ wr z := put wr (of_int z);
  cmp_write_uinteger _ wr z := put wr (of_uint z);
  cmp_write_decimal _ wr z := put wr (m_double :: be_bytes 8 (u64 z));
  cmp_write_bool _ wr b := put wr (of_bool b);
  cmp_write_nil _ wr := put wr [m_nil];
  cmp_write_str _ wr s n := put wr (of_str n ++ take (Z.to_nat n) s);
  cmp_write_bin _ wr s n := put wr (of_bin n ++ take (Z.to_nat n) s);
  cmp_write_array _ wr n := put wr (of_array n);

  cmp_read_integer _ rd := get rd 0 (only m_int64 8 (fun bs => i64 (be_int bs)));
  cmp_read_uinteger _ rd := get rd 0 (only m_uint64 8 be_int);
  cmp_read_decimal _ rd := get rd 0 (only m_double 8 be_int);
  cmp_read_bool _ rd := get rd false on_bool;
  cmp_read_nil _ rd d := '(d, ok, _) ← get rd tt (only m_nil 0 (fun _ => tt)) d; Ok (d, ok);
  cmp_read_str_size _ rd := get rd 0 (only m_str32 4 be_int);
  cmp_read_bin_size _ rd := get rd 0 (only m_bin32 4 be_int);
  cmp_read_array _ rd := get rd 0 (only m_array32 4 be_int);
  cmp_read_object _ rd := get rd {| obj_type := CMP_TYPE_other; obj_array_size := 0 |} on_object;
|}.

(** ** The laws *)

Lemma puts_put {St} (wr : cmp_writer St) bs : puts wr (put wr bs) bs.
Proof.
  intros out room d Hwr Hr. destruct (Hwr d bs Hr) as (d' & E & Hw).
  exists d'. unfold put. rewrite E. cbn. by rewrite bool_decide_eq_true_2.
Qed.

Lemma gets_get {St A} (rd : cmp_reader St) (dflt : A) on_marker m bs conv :
  on_marker m = Some (zlen bs, conv) -> gets rd (get rd dflt on_marker) (m :: bs) (conv bs).
Proof.
  intros Hm inp d k Hrd Hin. unfold get.
  destruct (Hrd d 1) as (d1 & -> & Hin1).
  { rewrite Hin. cbn [app]. rewrite zlen_cons. pose proof (zlen_nonneg (bs ++ k)). lia. }
  rewrite Hin in *. change (Z.to_nat 1) with 1%nat in *. cbn. rewrite Hm. cbn in Hin1. rewrite ?drop_0 in Hin1. case_bool_decide as Hz.
  - exists d1. split; [|destruct bs; [done|rewrite zlen_cons in Hz; pose proof (zlen_nonneg bs); lia]].
    destruct bs; [done|rewrite zlen_cons in Hz; pose proof (zlen_nonneg bs); lia].
  - destruct (Hrd d1 (zlen bs)) as (d2 & -> & Hin2).
    { rewrite Hin1, zlen_app. pose proof (zlen_nonneg bs). pose proof (zlen_nonneg k). lia. }
    rewrite Hin1 in *. unfold zlen in *. rewrite Nat2Z.id in *.
    rewrite take_app_length, drop_app_length in *. exists d2. done.
Qed.

Lemma gets_int {St A} (rd : cmp_reader St) (dflt : A) tag w z conv :
  0 <= z < 2 ^ (8 * Z.of_nat w) ->
  gets rd (get rd dflt (only tag (Z.of_nat w) conv)) (tag :: be_bytes w z) (conv (be_bytes w z)).
Proof.
  intros Hz. apply gets_get. unfold only. rewrite bool_decide_eq_true_2, zlen_be_bytes by done. done.
Qed.

#[export] Instance msgpack_laws : cmp_laws msgpack.
Proof.
  refine {| fmt_int := of_int; fmt_uint := of_uint; fmt_bool := of_bool; fmt_nil := [m_nil];
            fmt_str := of_str; fmt_bin := of_bin; fmt_array := of_array |}.
  - intros. apply puts_put.
  - intros. apply puts_put.
  - intros. apply puts_put.
  - intros. apply puts_put.
  - intros St wr s _. cbn. rewrite take_zlen. apply puts_put.
  - intros St wr s _. cbn. rewrite take_zlen. apply puts_put.
  - intros. apply puts_put.
  - intros St rd z Hz. assert (0 <= u64 z < 2 ^ 64) by (apply Z.mod_pos_bound; lia).
    pose proof (gets_int rd 0 m_int64 8 (u64 z) (fun bs => i64 (be_int bs)) ltac:(done)) as Hg.
    cbn beta in Hg. rewrite be_int_be_bytes, i64_u64 in Hg by done. exact Hg.
  - intros St rd z Hz. pose proof (gets_int rd 0 m_uint64 8 z be_int ltac:(done)) as Hg.
    rewrite be_int_be_bytes in Hg by done. cbn. unfold of_uint. rewrite u64_id by done. exact Hg.
  - intros St rd b. destruct b; [exact (gets_get rd false on_bool m_true [] (fun _ => true) eq_refl)
      |exact (gets_get rd false on_bool m_false [] (fun _ => false) eq_refl)].
  - intros St rd inp d k Hrd Hin.
    destruct (gets_get rd tt (only m_nil 0 (fun _ => tt)) m_nil [] (fun _ => tt) eq_refl inp d k Hrd Hin)
      as (d' & E & Hin').
    exists d'. cbn. rewrite E. done.
  - intros St rd z Hz. pose proof (gets_int rd 0 m_str32 4 z be_int ltac:(done)) as Hg.
    rewrite be_int_be_bytes in Hg by done. cbn. unfold of_str. rewrite u32_id by done. exact Hg.
  - intros St rd z Hz. pose proof (gets_int rd 0 m_bin32 4 z be_int ltac:(done)) as Hg.
    rewrite be_int_be_bytes in Hg by done. cbn. unfold of_bin. rewrite u32_id by done. exact Hg.
  - intros St rd z Hz. pose proof (gets_int rd 0 m_array32 4 z be_int ltac:(done)) as Hg.
    rewrite be_int_be_bytes in Hg by done. cbn. unfold of_array. rewrite u32_id by done. exact Hg.
  - intros St rd. exists 0. exact (gets_get rd _ on_object m_nil []
      (fun _ => {| obj_type := CMP_TYPE_NIL; obj_array_size := 0 |}) eq_refl).
  - intros St rd n Hn. exists CMP_TYPE_ARRAY32. split; [by right; right|].
    cbn. unfold of_array. rewrite u32_id by done.
    pose proof (gets_get rd {| obj_type := CMP_TYPE_other; obj_array_size := 0 |} on_object m_array32
      (be_bytes 4 n) (fun bs => {| obj_type := CMP_TYPE_ARRAY32; obj_array_size := be_int bs |})) as Hg.
    rewrite zlen_be_bytes in Hg. specialize (Hg eq_refl). cbn beta in Hg.
    rewrite be_int_be_bytes in Hg by done. exact Hg.
Defined.

(** ** The length of a string wraps: a 10 byte document overflows a 4 byte array *)
Lemma mpack_string_overflow_witness :
  io_decode_string_fixed (mpack_codec fixed_itf) None [0; 0; 0; 0]
    {| w_doc := {| cmp_buf := {| fb_in := of_str (2 ^ 32 - 1) ++ [1; 2; 3; 4; 5];
                                 fb_written := []; fb_out_len := 0 |}; cmp_error := 0 |};
       w_mem := {| m_gen := 0; m_buffer := None; m_alloc := fun _ => true; m_moves := fun _ => false |} |}
    {| ctx_node := tt; ctx_index := 1; ctx_default_allocator := None |} = UB.
Proof.
  apply (mpack_string_overflow fixed_itf None [0; 0; 0; 0] [1; 2; 3; 4; 5]).
  - discriminate.
  - reflexivity.
  - vm_compute. reflexivity.
  - vm_compute. reflexivity.
Defined.
End Msgpack.
