(* ===== verification/IoProto.v ===== *)
(** * Protocol messages (inc/io_proto.h, src/io_proto.c)

    The message with its union of contents, the memory a message owns, the
    encoders and decoders of every content and of the message.  At the end, for
    every codec that keeps its laws and for every kind of message: what one side
    encodes, the other side decodes.

    A structure that holds pointers is a record over [P] as in PrxTypes. *)
From stdpp Require Import base option list numbers strings.
From S2P Require Import Prelude PrxTypes IoMem IoCodec IoCodecSpec IoRef IoTypes.
Import PrxTypes IoMem IoCodec IoCodecSpec IoRef IoTypes.

Module IoProto.

Definition MODULE_VER_NUM : Z := 131328. (* 0x00020100 *)

Definition io_message_type_ping : Z := 10.
Definition io_message_type_link : Z := 12.
Definition io_message_type_setopt : Z := 13.
Definition io_message_type_getopt : Z := 14.
Definition io_message_type_open : Z := 20.
Definition io_message_type_close : Z := 21.
Definition io_message_type_data : Z := 30.
Definition io_message_type_poll : Z := 31.

(** ** Contents *)

Record io_ping_response := mk_ping_response {
  prs_address : prx_socket_address;
  prs_physical_address : bytes;   (* uint8_t[8] *)
  prs_time_ms : Z;
}.

Record io_link_request (P : Type) := mk_link_request {
  lrq_version : Z;
  lrq_props : prx_socket_properties P;
}.
Arguments mk_link_request {P}. Arguments lrq_version {P}. Arguments lrq_props {P}.

Record io_link_response := mk_link_response {
  lrs_link_id : io_ref;
  lrs_local_address : prx_socket_address;
  lrs_peer_address : prx_socket_address;
}.

Record io_open_request (P : Type) := mk_open_request {
  or_stream_id : io_ref;
  or_type : Z;
  or_connection_string : P;
  or_polled : bool;
  or_max_send : Z;
  or_max_recv : Z;
}.
Arguments mk_open_request {P}. Arguments or_stream_id {P}. Arguments or_type {P}.
Arguments or_connection_string {P}. Arguments or_polled {P}. Arguments or_max_send {P}.
Arguments or_max_recv {P}.

Record io_poll_message := mk_poll_message { pm_sequence_number : Z; pm_timeout : Z }.

Record io_data_message (P : Type) := mk_data_message {
  dm_sequence_number : Z;
  dm_source_address : prx_socket_address;
  dm_control_buffer_length : Z;
  dm_control_buffer : P;
  dm_buffer_length : Z;
  dm_buffer : P;
}.
Arguments mk_data_message {P}. Arguments dm_sequence_number {P}. Arguments dm_source_address {P}.
Arguments dm_control_buffer_length {P}. Arguments dm_control_buffer {P}.
Arguments dm_buffer_length {P}. Arguments dm_buffer {P}.

Record io_close_response := mk_close_response {
  cr_time_open : Z;
  cr_bytes_sent : Z;
  cr_bytes_received : Z;
  cr_error_code : Z;
}.

(** The union; [ct_zero]: all bytes 0, as in a new message. *)
Inductive io_content (P : Type) :=
| ct_zero
| ping_request (address : prx_socket_address)
| ping_response (r : io_ping_response)
| link_request (r : io_link_request P)
| link_response (r : io_link_response)
| setopt_request (so_val : prx_property P)
| getopt_request (so_opt : Z)
| getopt_response (so_val : prx_property P)
| open_request (r : io_open_request P)
| poll_message (m : io_poll_message)
| data_message (m : io_data_message P)
| close_response (r : io_close_response).
Arguments ct_zero {P}. Arguments ping_request {P}. Arguments ping_response {P}.
Arguments link_request {P}. Arguments link_response {P}. Arguments setopt_request {P}.
Arguments getopt_request {P}. Arguments getopt_response {P}. Arguments open_request {P}.
Arguments poll_message {P}. Arguments data_message {P}. Arguments close_response {P}.

(** [io_message_t] without its owner and list link; its buffer is in [mem]. *)
Record io_message (P : Type) := mk_message {
  source_id : io_ref;
  proxy_id : io_ref;
  target_id : io_ref;
  error_code : Z;
  is_response : bool;
  type : Z;
  content : io_content P;
  correlation_id : Z;
}.
Arguments mk_message {P}. Arguments source_id {P}. Arguments proxy_id {P}. Arguments target_id {P}.
Arguments error_code {P}. Arguments is_response {P}. Arguments type {P}. Arguments content {P}.
Arguments correlation_id {P}.

(** Reading a member of the union. *)
Section Views.
Context {P : Type} (null : P) (c : io_content P).
Definition zero_property : prx_property P := {| prop_type := 0; prop_un := pv_value 0 |}.
Definition zero_properties : prx_socket_properties P :=
  {| sp_family := 0; sp_sock_type := 0; sp_proto_type := 0; sp_flags := 0; sp_timeout := 0;
     sp_address := sa_unspec; sp_options := replicate (Z.to_nat prx_so_max) zero_property |}.
Definition as_ping_request : prx_socket_address :=
  match c with ping_request a => a | _ => sa_unspec end.
Definition as_ping_response : io_ping_response :=
  match c with ping_response r => r
  | _ => {| prs_address := sa_unspec; prs_physical_address := zeros 8; prs_time_ms := 0 |} end.
Definition as_link_request : io_link_request P :=
  match c with link_request r => r
  | _ => {| lrq_version := 0; lrq_props := zero_properties |} end.
Definition as_link_response : io_link_response :=
  match c with link_response r => r
  | _ => {| lrs_link_id := zeros 16; lrs_local_address := sa_unspec;
            lrs_peer_address := sa_unspec |} end.
Definition as_setopt_request : prx_property P :=
  match c with setopt_request v => v | _ => zero_property end.
Definition as_getopt_request : Z := match c with getopt_request v => v | _ => 0 end.
Definition as_getopt_response : prx_property P :=
  match c with getopt_response v => v | _ => zero_property end.
Definition as_open_request : io_open_request P :=
  match c with open_request r => r
  | _ => {| or_stream_id := zeros 16; or_type := 0; or_connection_string := null;
            or_polled := false; or_max_send := 0; or_max_recv := 0 |} end.
Definition as_poll_message : io_poll_message :=
  match c with poll_message m => m
  | _ => {| pm_sequence_number := 0; pm_timeout := 0 |} end.
Definition as_data_message : io_data_message P :=
  match c with data_message m => m
  | _ => {| dm_sequence_number := 0; dm_source_address := sa_unspec;
            dm_control_buffer_length := 0; dm_control_buffer := null;
            dm_buffer_length := 0; dm_buffer := null |} end.
Definition as_close_response : io_close_response :=
  match c with close_response r => r
  | _ => {| cr_time_open := 0; cr_bytes_sent := 0; cr_bytes_received := 0;
            cr_error_code := 0 |} end.
End Views.

(** ** The memory of a message *)

(** [current_size + size] bytes; growing may move the buffer.  The bytes that
    are new are indeterminate, 0 here. *)
Definition io_message_allocate_buffer (size : Z) (mu : mem) : res (ptr * mem) :=
  if bool_decide (size = 0) then Ok (p_null, mu)
  else match m_buffer mu with
  | None =>
      if m_alloc mu size
      then Ok (p_msg (m_gen mu) 0, set_buffer mu (m_gen mu) (zeros size))
      else Err er_out_of_memory
  | Some b =>
      let new_size := u64 (zlen b + size) in
      if m_alloc mu new_size then
        let gen := if m_moves mu new_size then m_gen mu + 1 else m_gen mu in
        Ok (p_msg gen (zlen b),
            set_buffer mu gen (take (Z.to_nat new_size) b
                               ++ zeros (new_size - zlen b)))
      else Err er_out_of_memory
  end.

Definition io_message_allocator : allocator := fun size mu =>
  '(p, mu) ← io_message_allocate_buffer size mu; Ok (p, size, mu).

(** ** Creation *)

(** [pool]: whether the message pool serves the request. *)
Definition io_message_create_empty (pool : bool) : res (io_message ptr) :=
  if pool then Ok {| source_id := zeros 16; proxy_id := zeros 16; target_id := zeros 16;
                     error_code := 0; is_response := false; type := 0; content := ct_zero;
                     correlation_id := 0 |}
  else Err er_out_of_memory.

Definition io_message_create (pool : bool) (t : Z) (source target : option io_ref)
  : res (io_message ptr) :=
  match source, target with
  | Some s, Some d =>
      m ← io_message_create_empty pool;
      match io_ref_copy (Some s) (Some (source_id m)), io_ref_copy (Some d) (Some (target_id m)) with
      | Some s, Some d =>
          Ok {| source_id := s; proxy_id := proxy_id m; target_id := d; error_code := error_code m;
                is_response := is_response m; type := u32 t; content := content m;
                correlation_id := correlation_id m |}
      | _, _ => UB
      end
  | _, _ => Err er_fault
  end.

Definition io_message_as_response {P} (m : io_message P) : io_message P :=
  let '(s, d) := io_ref_swap (Some (source_id m)) (Some (target_id m)) in
  {| source_id := default (source_id m) s; proxy_id := proxy_id m;
     target_id := default (target_id m) d; error_code := error_code m; is_response := true;
     type := type m; content := ct_zero; correlation_id := correlation_id m |}.

Definition io_message_type_as_string (t : Z) : string :=
  if bool_decide (t = io_message_type_ping) then "PING"
  else if bool_decide (t = io_message_type_link) then "LINK"
  else if bool_decide (t = io_message_type_setopt) then "SETOPT"
  else if bool_decide (t = io_message_type_getopt) then "GETOPT"
  else if bool_decide (t = io_message_type_open) then "OPEN"
  else if bool_decide (t = io_message_type_data) then "DATA"
  else if bool_decide (t = io_message_type_close) then "CLOSE"
  else if bool_decide (t = io_message_type_poll) then "POLL"
  else "UNKNOWN".

(** ** Encoders and decoders *)
Section Functions.
Context (pal_pton : bytes -> res prx_socket_address).
Context {S R : Type} (K : io_codec S R).
Local Open Scope string_scope.

Definition io_encode_ping_request (address : prx_socket_address) : M S R unit :=
  enc_tbegin K 1;;
  io_encode_object_m K (Some "address") (io_encode_prx_socket_address K address);;
  enc_tend K.

Definition io_decode_ping_request (address : prx_socket_address) : M S R prx_socket_address :=
  dec_tbegin K;;
  address ← io_decode_object_m K (Some "address") address (io_decode_prx_socket_address K);
  dec_tend K;;
  mret address.

Definition io_encode_ping_response (response : io_ping_response) : M S R unit :=
  enc_tbegin K 3;;
  io_encode_object_m K (Some "address") (io_encode_prx_socket_address K (prs_address response));;
  enc_bin K (Some "physical_address") (prs_physical_address response);;
  io_encode_uint32 K (Some "time_ms") (prs_time_ms response);;
  enc_tend K.

Definition io_decode_ping_response (response : io_ping_response) : M S R io_ping_response :=
  dec_tbegin K;;
  address ← io_decode_object_m K (Some "address") (prs_address response)
              (io_decode_prx_socket_address K);
  '(physical_address, _) ← io_decode_bin_fixed K (Some "physical_address")
                             (prs_physical_address response);
  time_ms ← io_decode_uint32 K (Some "time_ms");
  dec_tend K;;
  mret {| prs_address := address; prs_physical_address := physical_address;
          prs_time_ms := time_ms |}.

Definition io_encode_link_request (request : io_link_request ptr) : M S R unit :=
  enc_tbegin K 2;;
  io_encode_uint8 K (Some "version") (lrq_version request);;
  io_encode_object_m K (Some "props") (io_encode_prx_socket_properties K (lrq_props request));;
  enc_tend K.

(** [option]: what the decoder of the properties finds on its stack. *)
Definition io_decode_link_request (option : prx_property ptr) (request : io_link_request ptr)
  : M S R (io_link_request ptr) :=
  dec_tbegin K;;
  version ← io_decode_uint8 K (Some "version");
  props ← io_decode_object_m K (Some "props") (lrq_props request)
            (io_decode_prx_socket_properties K option);
  dec_tend K;;
  mret {| lrq_version := version; lrq_props := props |}.

Definition io_encode_link_response (response : io_link_response) : M S R unit :=
  enc_tbegin K 3;;
  io_encode_object_m K (Some "link_id") (io_encode_ref K (lrs_link_id response));;
  io_encode_object_m K (Some "local_address")
    (io_encode_prx_socket_address K (lrs_local_address response));;
  io_encode_object_m K (Some "peer_address")
    (io_encode_prx_socket_address K (lrs_peer_address response));;
  enc_tend K.

Definition io_decode_link_response (response : io_link_response) : M S R io_link_response :=
  dec_tbegin K;;
  link_id ← io_decode_object_m K (Some "link_id") (lrs_link_id response)
              (io_decode_ref pal_pton K);
  local_address ← io_decode_object_m K (Some "local_address") (lrs_local_address response)
              (io_decode_prx_socket_address K);
  peer_address ← io_decode_object_m K (Some "peer_address") (lrs_peer_address response)
              (io_decode_prx_socket_address K);
  dec_tend K;;
  mret {| lrs_link_id := link_id; lrs_local_address := local_address;
          lrs_peer_address := peer_address |}.

Definition io_encode_setopt_request (so_val : prx_property ptr) : M S R unit :=
  enc_tbegin K 1;;
  io_encode_object_m K (Some "so_val") (io_encode_prx_property K so_val);;
  enc_tend K.

Definition io_decode_setopt_request (so_val : prx_property ptr) : M S R (prx_property ptr) :=
  dec_tbegin K;;
  so_val ← io_decode_object_m K (Some "so_val") so_val (io_decode_prx_property K);
  dec_tend K;;
  mret so_val.

Definition io_encode_getopt_request (so_opt : Z) : M S R unit :=
  enc_tbegin K 1;;
  io_encode_int32 K (Some "so_opt") so_opt;;
  enc_tend K.

Definition io_decode_getopt_request : M S R Z :=
  dec_tbegin K;;
  so_opt ← io_decode_int32 K (Some "so_opt");
  dec_tend K;;
  mret so_opt.

Definition io_encode_getopt_response (so_val : prx_property ptr) : M S R unit :=
  enc_tbegin K 1;;
  io_encode_object_m K (Some "so_val") (io_encode_prx_property K so_val);;
  enc_tend K.

Definition io_decode_getopt_response (so_val : prx_property ptr) : M S R (prx_property ptr) :=
  dec_tbegin K;;
  so_val ← io_decode_object_m K (Some "so_val") so_val (io_decode_prx_property K);
  dec_tend K;;
  mret so_val.

(** [max_send] is not part of the document. *)
Definition io_encode_open_request (request : io_open_request ptr) : M S R unit :=
  enc_tbegin K 5;;
  io_encode_object_m K (Some "stream_id") (io_encode_ref K (or_stream_id request));;
  io_encode_int32 K (Some "type") (or_type request);;
  (s ← loads_str (or_connection_string request); enc_string K (Some "connection-string") s);;
  enc_bool K (Some "polled") (or_polled request);;
  io_encode_uint32 K (Some "max_recv") (or_max_recv request);;
  enc_tend K.

Definition io_decode_open_request (request : io_open_request ptr) : M S R (io_open_request ptr) :=
  dec_tbegin K;;
  stream_id ← io_decode_object_m K (Some "stream_id") (or_stream_id request)
                (io_decode_ref pal_pton K);
  type ← io_decode_int32 K (Some "type");
  connection_string ← io_decode_string_default K (Some "connection-string");
  polled ← dec_bool K (Some "polled");
  max_recv ← io_decode_uint32 K (Some "max_recv");
  dec_tend K;;
  mret {| or_stream_id := stream_id; or_type := type;
          or_connection_string := connection_string; or_polled := polled;
          or_max_send := or_max_send request; or_max_recv := max_recv |}.

Definition io_encode_poll_message (message : io_poll_message) : M S R unit :=
  enc_tbegin K 2;;
  io_encode_uint64 K (Some "sequence_number") (pm_sequence_number message);;
  io_encode_uint64 K (Some "timeout") (pm_timeout message);;
  enc_tend K.

Definition io_decode_poll_message : M S R io_poll_message :=
  dec_tbegin K;;
  sequence_number ← io_decode_uint64 K (Some "sequence_number");
  timeout ← io_decode_uint64 K (Some "timeout");
  dec_tend K;;
  mret {| pm_sequence_number := sequence_number; pm_timeout := timeout |}.

Definition io_encode_data_message (message : io_data_message ptr) : M S R unit :=
  enc_tbegin K 4;;
  io_encode_uint64 K (Some "sequence_number") (dm_sequence_number message);;
  io_encode_object_m K (Some "source_address")
    (io_encode_prx_socket_address K (dm_source_address message));;
  (b ← loads (dm_buffer message) (u32 (dm_buffer_length message));
   enc_bin K (Some "buffer") b);;
  (b ← loads (dm_control_buffer message) (u32 (dm_control_buffer_length message));
   enc_bin K (Some "control_buffer") b);;
  enc_tend K.

Definition io_decode_data_message (message : io_data_message ptr) : M S R (io_data_message ptr) :=
  dec_tbegin K;;
  sequence_number ← io_decode_uint64 K (Some "sequence_number");
  source_address ← io_decode_object_m K (Some "source_address") (dm_source_address message)
                     (io_decode_prx_socket_address K);
  '(buffer, buffer_length) ← io_decode_bin_default K (Some "buffer");
  '(control_buffer, control_buffer_length) ← io_decode_bin_default K (Some "control_buffer");
  dec_tend K;;
  mret {| dm_sequence_number := sequence_number; dm_source_address := source_address;
          dm_control_buffer_length := control_buffer_length; dm_control_buffer := control_buffer;
          dm_buffer_length := buffer_length; dm_buffer := buffer |}.

Definition io_encode_close_response (response : io_close_response) : M S R unit :=
  enc_tbegin K 4;;
  io_encode_uint64 K (Some "time_open") (cr_time_open response);;
  io_encode_uint64 K (Some "bytes_received") (cr_bytes_received response);;
  io_encode_uint64 K (Some "bytes_sent") (cr_bytes_sent response);;
  io_encode_int32 K (Some "error_code") (cr_error_code response);;
  enc_tend K.

Definition io_decode_close_response : M S R io_close_response :=
  dec_tbegin K;;
  time_open ← io_decode_uint64 K (Some "time_open");
  bytes_received ← io_decode_uint64 K (Some "bytes_received");
  bytes_sent ← io_decode_uint64 K (Some "bytes_sent");
  error_code ← io_decode_int32 K (Some "error_code");
  dec_tend K;;
  mret {| cr_time_open := time_open; cr_bytes_sent := bytes_sent;
          cr_bytes_received := bytes_received; cr_error_code := error_code |}.

(** *** The content, by type and direction *)

Definition io_encode_null : M S R unit := enc_object K (Some "content") true;; mret tt.
Definition io_encode_content (body : M S R unit) : M S R unit :=
  obj ← enc_object K (Some "content") false; under obj body.

Definition io_encode_message_content (msg : io_message ptr) : M S R unit :=
  let t := type msg in
  let c := content msg in
  if is_response msg then
    if bool_decide (t = io_message_type_data) then
      io_encode_content (io_encode_data_message (as_data_message p_null c))
    else if bool_decide (t = io_message_type_close) then
      io_encode_content (io_encode_close_response (as_close_response c))
    else if bool_decide (t = io_message_type_ping) then
      io_encode_content (io_encode_ping_response (as_ping_response c))
    else if bool_decide (t = io_message_type_poll) then io_encode_null
    else if bool_decide (t = io_message_type_link) then
      io_encode_content (io_encode_link_response (as_link_response c))
    else if bool_decide (t = io_message_type_open) then io_encode_null
    else if bool_decide (t = io_message_type_setopt) then io_encode_null
    else if bool_decide (t = io_message_type_getopt) then
      io_encode_content (io_encode_getopt_response (as_getopt_response c))
    else fail er_not_supported
  else
    if bool_decide (t = io_message_type_data) then
      io_encode_content (io_encode_data_message (as_data_message p_null c))
    else if bool_decide (t = io_message_type_close) then io_encode_null
    else if bool_decide (t = io_message_type_ping) then
      io_encode_content (io_encode_ping_request (as_ping_request c))
    else if bool_decide (t = io_message_type_poll) then
      io_encode_content (io_encode_poll_message (as_poll_message c))
    else if bool_decide (t = io_message_type_link) then
      io_encode_content (io_encode_link_request (as_link_request c))
    else if bool_decide (t = io_message_type_open) then
      io_encode_content (io_encode_open_request (as_open_request p_null c))
    else if bool_decide (t = io_message_type_setopt) then
      io_encode_content (io_encode_setopt_request (as_setopt_request c))
    else if bool_decide (t = io_message_type_getopt) then
      io_encode_content (io_encode_getopt_request (as_getopt_request c))
    else fail er_not_supported.

Definition io_decode_null (c : io_content ptr) : M S R (io_content ptr) :=
  '(is_null, _) ← io_decode_object K (Some "content") true;
  if (is_null : bool) then mret c else fail er_invalid_format.
Definition io_decode_content {A} (f : A -> io_content ptr) (body : M S R A)
  : M S R (io_content ptr) :=
  '(is_null, obj) ← io_decode_object K (Some "content") true;
  if (is_null : bool) then fail er_invalid_format else under obj (a ← body; mret (f a)).

(** Returns the new content of [msg]. *)
Definition io_decode_content_by_type (option : prx_property ptr) (msg : io_message ptr)
  : M S R (io_content ptr) :=
  let t := type msg in
  let c := content msg in
  if is_response msg then
    if bool_decide (t = io_message_type_data) then
      io_decode_content data_message (io_decode_data_message (as_data_message p_null c))
    else if bool_decide (t = io_message_type_close) then
      io_decode_content close_response io_decode_close_response
    else if bool_decide (t = io_message_type_ping) then
      io_decode_content ping_response (io_decode_ping_response (as_ping_response c))
    else if bool_decide (t = io_message_type_poll) then io_decode_null c
    else if bool_decide (t = io_message_type_link) then
      io_decode_content link_response (io_decode_link_response (as_link_response c))
    else if bool_decide (t = io_message_type_open) then io_decode_null c
    else if bool_decide (t = io_message_type_setopt) then io_decode_null c
    else if bool_decide (t = io_message_type_getopt) then
      io_decode_content getopt_response (io_decode_getopt_response (as_getopt_response c))
    else fail er_not_supported
  else
    if bool_decide (t = io_message_type_data) then
      io_decode_content data_message (io_decode_data_message (as_data_message p_null c))
    else if bool_decide (t = io_message_type_close) then io_decode_null c
    else if bool_decide (t = io_message_type_ping) then
      io_decode_content ping_request (io_decode_ping_request (as_ping_request c))
    else if bool_decide (t = io_message_type_poll) then
      io_decode_content poll_message io_decode_poll_message
    else if bool_decide (t = io_message_type_link) then
      io_decode_content link_request (io_decode_link_request option (as_link_request c))
    else if bool_decide (t = io_message_type_open) then
      io_decode_content open_request (io_decode_open_request (as_open_request p_null c))
    else if bool_decide (t = io_message_type_setopt) then
      io_decode_content setopt_request (io_decode_setopt_request (as_setopt_request c))
    else if bool_decide (t = io_message_type_getopt) then
      io_decode_content getopt_request io_decode_getopt_request
    else fail er_not_supported.

(** All memory is taken from the message. *)
Definition io_decode_message_content (option : prx_property ptr) (msg : io_message ptr)
  : M S R (io_content ptr) :=
  set_default_allocator io_message_allocator;; io_decode_content_by_type option msg.

(** *** The message *)

Definition io_encode_message (msg : io_message ptr) : M S R unit :=
  enc_tbegin K 8;;
  io_encode_uint32 K (Some "version") MODULE_VER_NUM;;
  io_encode_object_m K (Some "source_id") (io_encode_ref K (source_id msg));;
  io_encode_object_m K (Some "proxy_id") (io_encode_ref K (proxy_id msg));;
  io_encode_object_m K (Some "target_id") (io_encode_ref K (target_id msg));;
  io_encode_int32 K (Some "error_code") (error_code msg);;
  enc_bool K (Some "is_response") (is_response msg);;
  io_encode_uint32 K (Some "type") (type msg);;
  io_encode_message_content msg;;
  enc_tend K.

(** Only the upper half of the version has to agree. *)
Definition version_ok (version : Z) : bool :=
  bool_decide (Z.land version 4294901760 = Z.land MODULE_VER_NUM 4294901760). (* 0xffff0000 *)

Definition io_decode_message (option : prx_property ptr) (msg : io_message ptr)
  : M S R (io_message ptr) :=
  dec_tbegin K;;
  version ← io_decode_uint32 K (Some "version");
  (if version_ok version then mret tt else fail er_invalid_format);;
  source_id ← io_decode_object_m K (Some "source_id") (source_id msg) (io_decode_ref pal_pton K);
  proxy_id ← io_decode_object_m K (Some "proxy_id") (proxy_id msg) (io_decode_ref pal_pton K);
  target_id ← io_decode_object_m K (Some "target_id") (target_id msg) (io_decode_ref pal_pton K);
  error_code ← io_decode_int32 K (Some "error_code");
  is_response ← dec_bool K (Some "is_response");
  type ← io_decode_uint32 K (Some "type");
  let msg := {| source_id := source_id; proxy_id := proxy_id; target_id := target_id;
                error_code := error_code; is_response := is_response; type := type;
                content := content msg; correlation_id := correlation_id msg |} in
  content ← io_decode_message_content option msg;
  dec_tend K;;
  mret {| source_id := source_id; proxy_id := proxy_id; target_id := target_id;
          error_code := error_code; is_response := is_response; type := type;
          content := content; correlation_id := correlation_id msg |}.
End Functions.

(** ** What the pointers of a message refer to *)

Definition link_request_den (mu : mem) (r : io_link_request ptr) : option (io_link_request bytes) :=
  sp ← socket_properties_den mu (lrq_props r);
  Some {| lrq_version := lrq_version r; lrq_props := sp |}.

Definition open_request_den (mu : mem) (r : io_open_request ptr) : option (io_open_request bytes) :=
  s ← load_str mu (or_connection_string r);
  Some {| or_stream_id := or_stream_id r; or_type := or_type r; or_connection_string := s;
          or_polled := or_polled r; or_max_send := or_max_send r; or_max_recv := or_max_recv r |}.

Definition data_message_den (mu : mem) (m : io_data_message ptr) : option (io_data_message bytes) :=
  b ← load mu (dm_buffer m) (dm_buffer_length m);
  cb ← load mu (dm_control_buffer m) (dm_control_buffer_length m);
  Some {| dm_sequence_number := dm_sequence_number m; dm_source_address := dm_source_address m;
          dm_control_buffer_length := dm_control_buffer_length m; dm_control_buffer := cb;
          dm_buffer_length := dm_buffer_length m; dm_buffer := b |}.

Definition content_den (mu : mem) (c : io_content ptr) : option (io_content bytes) :=
  match c with
  | ct_zero => Some ct_zero
  | ping_request a => Some (ping_request a)
  | ping_response r => Some (ping_response r)
  | link_request r => r ← link_request_den mu r; Some (link_request r)
  | link_response r => Some (link_response r)
  | setopt_request v => v ← property_den mu v; Some (setopt_request v)
  | getopt_request o => Some (getopt_request o)
  | getopt_response v => v ← property_den mu v; Some (getopt_response v)
  | open_request r => r ← open_request_den mu r; Some (open_request r)
  | poll_message m => Some (poll_message m)
  | data_message m => m ← data_message_den mu m; Some (data_message m)
  | close_response r => Some (close_response r)
  end.

Definition with_content {P Q} (m : io_message P) (c : io_content Q) : io_message Q :=
  {| source_id := source_id m; proxy_id := proxy_id m; target_id := target_id m;
     error_code := error_code m; is_response := is_response m; type := type m;
     content := c; correlation_id := correlation_id m |}.

Definition message_den (mu : mem) (m : io_message ptr) : option (io_message bytes) :=
  c ← content_den mu (content m); Some (with_content m c).

(** ** Documents *)
Section Fields.
Local Open Scope string_scope.

Definition content_value (id : io_codec_id) (c : io_content bytes) : value :=
  match c with
  | ct_zero => VNull
  | ping_request a => VObj [(Some "address", VObj (sa_fields a))]
  | ping_response r =>
      VObj [(Some "address", VObj (sa_fields (prs_address r)));
            (Some "physical_address", VBin (prs_physical_address r));
            (Some "time_ms", VUint (prs_time_ms r))]
  | link_request r =>
      VObj [(Some "version", VUint (lrq_version r));
            (Some "props", VObj (socket_properties_fields (lrq_props r)))]
  | link_response r =>
      VObj [(Some "link_id", VObj (ref_fields id (lrs_link_id r)));
            (Some "local_address", VObj (sa_fields (lrs_local_address r)));
            (Some "peer_address", VObj (sa_fields (lrs_peer_address r)))]
  | setopt_request v => VObj [(Some "so_val", VObj (property_fields v))]
  | getopt_request o => VObj [(Some "so_opt", VInt o)]
  | getopt_response v => VObj [(Some "so_val", VObj (property_fields v))]
  | open_request r =>
      VObj [(Some "stream_id", VObj (ref_fields id (or_stream_id r)));
            (Some "type", VInt (or_type r));
            (Some "connection-string", VStr (or_connection_string r));
            (Some "polled", VBool (or_polled r)); (Some "max_recv", VUint (or_max_recv r))]
  | poll_message m => VObj [(Some "sequence_number", VUint (pm_sequence_number m));
                            (Some "timeout", VUint (pm_timeout m))]
  | data_message m =>
      VObj [(Some "sequence_number", VUint (dm_sequence_number m));
            (Some "source_address", VObj (sa_fields (dm_source_address m)));
            (Some "buffer", VBin (dm_buffer m)); (Some "control_buffer", VBin (dm_control_buffer m))]
  | close_response r =>
      VObj [(Some "time_open", VUint (cr_time_open r));
            (Some "bytes_received", VUint (cr_bytes_received r));
            (Some "bytes_sent", VUint (cr_bytes_sent r)); (Some "error_code", VInt (cr_error_code r))]
  end.

Definition message_fields (id : io_codec_id) (m : io_message bytes) : list field :=
  [(Some "version", VUint MODULE_VER_NUM);
   (Some "source_id", VObj (ref_fields id (source_id m)));
   (Some "proxy_id", VObj (ref_fields id (proxy_id m)));
   (Some "target_id", VObj (ref_fields id (target_id m)));
   (Some "error_code", VInt (error_code m)); (Some "is_response", VBool (is_response m));
   (Some "type", VUint (type m)); (Some "content", content_value id (content m))].
End Fields.

(** ** Well formed messages: every field in its range, and the content the one
    that goes with the type and the direction *)
Definition wf_content (response : bool) (t : Z) (c : io_content bytes) : Prop :=
  match c with
  | ct_zero =>
      if response then t = io_message_type_poll \/ t = io_message_type_open \/
                       t = io_message_type_setopt
      else t = io_message_type_close
  | ping_request a => response = false /\ t = io_message_type_ping /\ wf_socket_address a
  | ping_response r => response = true /\ t = io_message_type_ping /\
      wf_socket_address (prs_address r) /\ wf_u8s 8 (prs_physical_address r) /\ in_u32 (prs_time_ms r)
  | link_request r => response = false /\ t = io_message_type_link /\ is_u8 (lrq_version r) /\
      wf_socket_properties (lrq_props r)
  | link_response r => response = true /\ t = io_message_type_link /\ wf_ref (lrs_link_id r) /\
      wf_socket_address (lrs_local_address r) /\ wf_socket_address (lrs_peer_address r)
  | setopt_request v => response = false /\ t = io_message_type_setopt /\ wf_property v
  | getopt_request o => response = false /\ t = io_message_type_getopt /\ in_i32 o
  | getopt_response v => response = true /\ t = io_message_type_getopt /\ wf_property v
  | open_request r => response = false /\ t = io_message_type_open /\ wf_ref (or_stream_id r) /\
      in_i32 (or_type r) /\ wf_cstr (or_connection_string r) /\ in_u32 (or_max_recv r)
  | poll_message m => response = false /\ t = io_message_type_poll /\
      in_u64 (pm_sequence_number m) /\ in_u64 (pm_timeout m)
  | data_message m => t = io_message_type_data /\ in_u64 (dm_sequence_number m) /\
      wf_socket_address (dm_source_address m) /\
      dm_buffer_length m = zlen (dm_buffer m) /\ in_u32 (zlen (dm_buffer m)) /\
      dm_control_buffer_length m = zlen (dm_control_buffer m) /\ in_u32 (zlen (dm_control_buffer m))
  | close_response r => response = true /\ t = io_message_type_close /\ in_u64 (cr_time_open r) /\
      in_u64 (cr_bytes_sent r) /\ in_u64 (cr_bytes_received r) /\ in_i32 (cr_error_code r)
  end.

Definition wf_message (m : io_message bytes) : Prop :=
  wf_ref (source_id m) /\ wf_ref (proxy_id m) /\ wf_ref (target_id m) /\ in_i32 (error_code m) /\
  in_u32 (type m) /\ wf_content (is_response m) (type m) (content m).

(** ** Encoding *)
Section Encode.
Context {S R : Type} {K : io_codec S R}.
Context {EV : enc_view S R} {EL : enc_laws K EV}.

Hint Resolve emits_socket_address emits_ref emits_property emits_socket_properties : codec.

Lemma emits_content mu m c : content_den mu (content m) = Some c ->
  wf_content (is_response m) (type m) c ->
  emits mu (io_encode_message_content K m) [(Some "content"%string, content_value (codec_id K) c)].
Proof.
  unfold io_encode_message_content. destruct m as [si pi ti ec resp t ct ci]. cbn.
  destruct ct as [|a|r|r|r|v|o|v|r|pm|dm|r]; cbn; intros Hd Hw.
  - injection Hd as <-. cbn in Hw.
    destruct resp; [destruct Hw as [-> |[-> | ->]]|rewrite Hw]; eval_ifs; apply emits_null.
  - injection Hd as <-. destruct Hw as (-> & -> & ?). eval_ifs.
    apply emits_object, emits_tbegin; [|done]. solve_emits.
  - injection Hd as <-. destruct Hw as (-> & -> & ? & ? & ?). eval_ifs.
    apply emits_object, emits_tbegin; [|done]. solve_emits.
  - destruct (link_request_den mu r) as [r'|] eqn:Er; cbn in Hd; [|done]. injection Hd as <-.
    destruct Hw as (-> & -> & ? & ?). eval_ifs. unfold link_request_den in Er.
    destruct (socket_properties_den _ _) eqn:Esp; cbn in Er; [|done]. injection Er as <-.
    apply emits_object, emits_tbegin; [|done]. solve_emits.
  - injection Hd as <-. destruct Hw as (-> & -> & ? & ? & ?). eval_ifs.
    apply emits_object, emits_tbegin; [|done]. solve_emits.
  - destruct (property_den mu v) as [v'|] eqn:Ev; cbn in Hd; [|done]. injection Hd as <-.
    destruct Hw as (-> & -> & ?). eval_ifs.
    apply emits_object, emits_tbegin; [|done]. solve_emits.
  - injection Hd as <-. destruct Hw as (-> & -> & ?). eval_ifs.
    apply emits_object, emits_tbegin; [|done]. solve_emits.
  - destruct (property_den mu v) as [v'|] eqn:Ev; cbn in Hd; [|done]. injection Hd as <-.
    destruct Hw as (-> & -> & ?). eval_ifs.
    apply emits_object, emits_tbegin; [|done]. solve_emits.
  - destruct (open_request_den mu r) as [r'|] eqn:Er; cbn in Hd; [|done]. injection Hd as <-.
    destruct Hw as (-> & -> & ? & ? & ? & ?). eval_ifs. unfold open_request_den in Er.
    destruct (load_str _ _) eqn:Esp; cbn in Er; [|done]. injection Er as <-. cbn in *.
    apply emits_object, emits_tbegin; [|done]. solve_emits.
    eapply emits_cons; [eapply emits_loads_str; [done|apply emits_string]|]. solve_emits.
  - injection Hd as <-. destruct Hw as (-> & -> & ? & ?). eval_ifs.
    apply emits_object, emits_tbegin; [|done]. solve_emits.
  - destruct (data_message_den mu dm) as [dm'|] eqn:Edm; cbn in Hd; [|done]. injection Hd as <-.
    destruct Hw as (-> & ? & ? & Hl & Hu & Hl' & Hu'). eval_ifs. unfold data_message_den in Edm.
    destruct (load mu (dm_buffer dm) _) as [b|] eqn:Eb; cbn in Edm; [|done].
    destruct (load mu (dm_control_buffer dm) _) as [b0|] eqn:Ecb; cbn in Edm; [|done].
    injection Edm as <-. cbn in *. rewrite <- Hl in Hu. rewrite <- Hl' in Hu'.
    assert (emits_obj mu (io_encode_data_message K dm)
      [(Some "sequence_number"%string, VUint (dm_sequence_number dm));
       (Some "source_address"%string, VObj (sa_fields (dm_source_address dm)));
       (Some "buffer"%string, VBin b); (Some "control_buffer"%string, VBin b0)]).
    { apply emits_tbegin; [|done]. rewrite !u32_id by done. solve_emits.
      eapply emits_cons; [eapply emits_loads; [done|apply emits_bin]|].
      eapply emits_cons; [eapply emits_loads; [done|apply emits_bin]|]. solve_emits. }
    destruct resp; by apply emits_object.
  - injection Hd as <-. destruct Hw as (-> & -> & ? & ? & ? & ?). eval_ifs.
    apply emits_object, emits_tbegin; [|done]. solve_emits.
Qed.

Lemma emits_message mu m m' : message_den mu m = Some m' -> wf_message m' ->
  emits_obj mu (io_encode_message K m) (message_fields (codec_id K) m').
Proof.
  unfold message_den. destruct (content_den mu (content m)) as [c|] eqn:Ec; cbn; [|done].
  intros [= <-] (? & ? & ? & ? & ? & ?). cbn in *. apply emits_tbegin; [|done].
  pose proof emits_content.
  eapply emits_cons; [apply emits_uint32; by apply (bool_decide_unpack _)|]. solve_emits.
Qed.
End Encode.

(** ** Decoding into the memory of a new message *)

(** No buffer yet, and the pools serve every request. *)
Definition fresh (mu : mem) : Prop := m_buffer mu = None /\ forall n, m_alloc mu n = true.

Lemma fresh_id id mu : fresh mu -> id_memory id mu.
Proof. by intros [_ H] _. Qed.

Lemma mem_write_all (bs : bytes) : mem_write (zeros (zlen bs)) 0 bs = Some bs.
Proof.
  unfold mem_write, zeros, zlen. rewrite length_replicate. rewrite bool_decide_eq_true_2 by lia.
  cbn. rewrite drop_ge, app_nil_r; [done|]. rewrite length_replicate. lia.
Qed.

Lemma mem_write_end (b bs : bytes) : mem_write (b ++ zeros (zlen bs)) (zlen b) bs = Some (b ++ bs).
Proof.
  unfold mem_write, zeros, zlen. rewrite length_app, length_replicate.
  rewrite bool_decide_eq_true_2 by lia. rewrite Nat2Z.id, take_app_length.
  rewrite drop_ge, app_nil_r; [done|]. rewrite length_app, length_replicate. lia.
Qed.

(** The first allocation and one that grows the buffer in place. *)
Lemma fill_first bs mu : bs <> [] -> fresh mu ->
  fill io_message_allocator bs mu = Ok (p_msg (m_gen mu) 0, zlen bs, set_buffer mu (m_gen mu) bs).
Proof.
  intros Hne [Hb Ha]. assert (0 < zlen bs) by (destruct bs; [done|]; rewrite zlen_cons;
    pose proof (zlen_nonneg bs); lia).
  unfold fill, io_message_allocator, io_message_allocate_buffer.
  rewrite bool_decide_eq_false_2 by lia. rewrite Hb, Ha. cbn.
  rewrite bool_decide_eq_true_2 by done. rewrite store_cons by done. cbn.
  rewrite bool_decide_eq_true_2 by done. rewrite mem_write_all. done.
Qed.

Lemma fill_next bs b mu : bs <> [] -> m_buffer mu = Some b -> zlen b + zlen bs < 2 ^ 64 ->
  m_alloc mu (zlen b + zlen bs) = true ->
  let gen := if m_moves mu (zlen b + zlen bs) then m_gen mu + 1 else m_gen mu in
  fill io_message_allocator bs mu = Ok (p_msg gen (zlen b), zlen bs, set_buffer mu gen (b ++ bs)).
Proof.
  intros Hne Hb Hl Ha gen. assert (0 < zlen bs) by (destruct bs; [done|]; rewrite zlen_cons;
    pose proof (zlen_nonneg bs); lia). pose proof (zlen_nonneg b).
  unfold fill, io_message_allocator, io_message_allocate_buffer.
  rewrite bool_decide_eq_false_2 by lia. rewrite Hb, u64_id, Ha by (unfold in_u64; lia). cbn.
  rewrite bool_decide_eq_true_2 by done. rewrite store_cons by done. cbn. fold gen.
  rewrite bool_decide_eq_true_2 by done.
  replace (zlen b + zlen bs - zlen b) with (zlen bs) by lia.
  rewrite take_ge by (unfold zlen; lia). rewrite Z.add_0_r, mem_write_end. done.
Qed.

Lemma load_msg mu g b off n : 0 <= off -> 0 <= n -> off + n <= zlen b ->
  load (set_buffer mu g b) (p_msg g off) n = Some (slice off (off + n) b).
Proof.
  intros Ho Hn Hl. unfold load. case_bool_decide as Hz; [subst; by rewrite slice_nil by lia|].
  cbn. rewrite bool_decide_eq_true_2 by lia. cbn. unfold zlen in *.
  rewrite mem_read_slice by (unfold zlen; rewrite ?length_drop; lia). f_equal. unfold slice.
  change (Z.to_nat 0) with 0%nat. rewrite drop_0. f_equal. lia.
Qed.

Lemma slice_app_l {A} (a b : list A) n : n = zlen a -> slice 0 n (a ++ b) = a.
Proof.
  intros ->. unfold slice, zlen. change (Z.to_nat 0) with 0%nat. rewrite drop_0.
  rewrite take_app_length' by lia. done.
Qed.
Lemma slice_app_r {A} (a b : list A) m n : m = zlen a -> n = m + zlen b -> slice m n (a ++ b) = b.
Proof.
  intros -> ->. unfold slice, zlen. rewrite drop_app_length' by lia. apply take_ge. lia.
Qed.

Lemma load_str_msg mu g s : wf_cstr s -> load_str (set_buffer mu g (s ++ [0])) (p_msg g 0) = Some s.
Proof.
  intros Hs. unfold load_str, object_at. cbn. rewrite bool_decide_eq_true_2.
  2: { rewrite zlen_app. pose proof (zlen_nonneg s). unfold zlen at 2. cbn. lia. }
  cbn. change (Z.to_nat 0) with 0%nat. rewrite drop_0, cstr_app by done.
  rewrite bool_decide_eq_true_2; [done|]. rewrite zlen_app. unfold zlen. cbn. lia.
Qed.

(** A property decoded into a new message denotes the property. *)
Lemma stored_fresh mu p : fresh mu -> wf_property p ->
  exists u mu', stored (Some io_message_allocator) mu (prop_un p) u mu' /\
    property_un_den mu' u = Some (prop_un p).
Proof.
  intros Hf [_ Hw]. destruct (prop_un p) as [v|m|b n|f|[sa r nm]|i].
  - eexists _, _. split; [constructor|done].
  - eexists _, _. split; [constructor|done].
  - destruct Hw as (_ & _ & _ & ->). destruct (decide (b = [])) as [->|Hne].
    + eexists _, _. split; [by constructor|done].
    + do 2 eexists. split.
      * constructor. unfold fill_bin. rewrite bool_decide_eq_false_2; [by apply fill_first|].
        destruct b; [done|]. rewrite zlen_cons. pose proof (zlen_nonneg b). lia.
      * cbn. pose proof (zlen_nonneg b). rewrite load_msg by lia. cbn. do 2 f_equal.
        rewrite <- (app_nil_r b) at 2. rewrite slice_app_l; [done|lia].
  - eexists _, _. split; [constructor|done].
  - destruct Hw as (_ & _ & Hr & Hn). cbn in *. subst r. do 2 eexists. split.
    + econstructor. apply fill_first; [by destruct nm|done].
    + cbn [property_un_den]. unfold addrinfo_den. cbn [name_den ai_name]. by rewrite load_str_msg.
  - eexists _, _. split; [constructor|done].
Qed.

(** What arrives of a content: [max_send] is not sent, socket options arrive at the
    index of their type, where they are in a well formed array ([indexed_id]). *)
Definition received_content (c : io_content bytes) : io_content bytes :=
  match c with
  | open_request r =>
      open_request {| or_stream_id := or_stream_id r; or_type := or_type r;
                      or_connection_string := or_connection_string r; or_polled := or_polled r;
                      or_max_send := 0; or_max_recv := or_max_recv r |}
  | link_request r =>
      let sp := lrq_props r in
      link_request {| lrq_version := lrq_version r;
        lrq_props := {| sp_family := sp_family sp; sp_sock_type := sp_sock_type sp;
          sp_proto_type := sp_proto_type sp; sp_flags := sp_flags sp; sp_timeout := sp_timeout sp;
          sp_address := sp_address sp;
          sp_options := indexed (sp_options sp) |} |}
  | c => c
  end.

(** The correlation id is not part of the document. *)
Definition received (m : io_message bytes) : io_message bytes :=
  {| source_id := source_id m; proxy_id := proxy_id m; target_id := target_id m;
     error_code := error_code m; is_response := is_response m; type := type m;
     content := received_content (content m); correlation_id := 0 |}.

(** Both buffers of a data message are not empty. *)
Definition two_buffers (c : io_content bytes) : bool :=
  match c with
  | data_message m => bool_decide (dm_buffer m <> [] /\ dm_control_buffer m <> [])
  | _ => false
  end.

Section Decode.
Context (pal_pton : bytes -> res prx_socket_address).
Context {S R : Type} {K : io_codec S R}.
Context {DV : dec_view S R} {DL : dec_laws K DV}.
Abbreviation al := (Some io_message_allocator).

Hint Resolve parses_socket_address parses_ref : codec.

(** Where the two buffers of a data message end up. *)
Definition data_stored (mu : mem) (b cb : bytes) (pb : ptr) (pcb : ptr) (mu' : mem) : Prop :=
  exists mu1, fill_bin io_message_allocator b mu = Ok (pb, zlen b, mu1) /\
              fill_bin io_message_allocator cb mu1 = Ok (pcb, zlen cb, mu').

Lemma fill_bin_ne bs mu : bs <> [] -> fill_bin io_message_allocator bs mu = fill io_message_allocator bs mu.
Proof.
  intros. unfold fill_bin. rewrite bool_decide_eq_false_2; [done|]. destruct bs; [done|].
  rewrite zlen_cons. pose proof (zlen_nonneg bs). lia.
Qed.

Lemma data_stored_ok mu b cb : fresh mu -> in_u32 (zlen b) -> in_u32 (zlen cb) ->
  (b = [] \/ cb = [] \/ forall n, m_moves mu n = false) ->
  exists pb pcb mu', data_stored mu b cb pb pcb mu' /\
    load mu' pb (zlen b) = Some b /\ load mu' pcb (zlen cb) = Some cb.
Proof.
  intros Hf Hb Hcb Hmv. pose proof (zlen_nonneg b). pose proof (zlen_nonneg cb).
  destruct (decide (b = [])) as [->|Hne].
  - destruct (decide (cb = [])) as [->|Hne'].
    + exists p_null, p_null, mu. split; [by exists mu|done].
    + exists p_null, (p_msg (m_gen mu) 0), (set_buffer mu (m_gen mu) cb). split.
      * exists mu. split; [done|]. rewrite fill_bin_ne by done. by apply fill_first.
      * split; [done|]. rewrite load_msg by lia. f_equal. rewrite <- (app_nil_r cb) at 2.
        apply slice_app_l. lia.
  - exists (p_msg (m_gen mu) 0). destruct (decide (cb = [])) as [->|Hne'].
    + exists p_null, (set_buffer mu (m_gen mu) b). split.
      * exists (set_buffer mu (m_gen mu) b). rewrite fill_bin_ne by done. split; [by apply fill_first|done].
      * split; [|done]. rewrite load_msg by lia. f_equal. rewrite <- (app_nil_r b) at 2.
        apply slice_app_l. lia.
    + destruct Hmv as [?|[?|Hmv]]; [done|done|].
      exists (p_msg (m_gen mu) (zlen b)), (set_buffer mu (m_gen mu) (b ++ cb)).
      unfold in_u32 in *. split.
      * exists (set_buffer mu (m_gen mu) b). rewrite !fill_bin_ne by done. split; [by apply fill_first|].
        rewrite (fill_next cb b) by (done || lia || apply Hf). cbn. by rewrite Hmv.
      * rewrite !load_msg by (rewrite ?zlen_app; lia). split; f_equal.
        -- apply slice_app_l. lia.
        -- apply slice_app_r; lia.
Qed.

Lemma parses_data_message mu dm pb pcb mu' old : dm_source_address old = sa_unspec ->
  in_u64 (dm_sequence_number dm) -> wf_socket_address (dm_source_address dm) ->
  data_stored mu (dm_buffer dm) (dm_control_buffer dm) pb pcb mu' ->
  parses al mu (io_decode_data_message K old)
    [(Some "sequence_number"%string, VUint (dm_sequence_number dm));
     (Some "source_address"%string, VObj (sa_fields (dm_source_address dm)));
     (Some "buffer"%string, VBin (dm_buffer dm));
     (Some "control_buffer"%string, VBin (dm_control_buffer dm))]
    {| dm_sequence_number := dm_sequence_number dm; dm_source_address := dm_source_address dm;
       dm_control_buffer_length := zlen (dm_control_buffer dm); dm_control_buffer := pcb;
       dm_buffer_length := zlen (dm_buffer dm); dm_buffer := pb |} mu'.
Proof.
  intros Hold ? ? (mu1 & H1 & H2). unfold io_decode_data_message. rewrite Hold. solve_parses.
  eapply parses_cons; [by apply (parses_bin_default al)|].
  eapply parses_cons; [by apply (parses_bin_default al)|]. solve_parses.
Qed.

Lemma parses_content_m {A} mu ms (f : A -> io_content ptr) (body : M S R A) a mu' :
  parses al mu body ms a mu' ->
  parses al mu (io_decode_content K f body) [(Some "content"%string, VObj ms)] (f a) mu'.
Proof. intros Hb. eapply parses_object_cps; [done|]. by eapply parses_map. Qed.

Lemma parses_one {A} mu f (m : M S R A) a mu' :
  parses al mu m [f] a mu' -> parses al mu (dec_tbegin K;; v ← m; dec_tend K;; mret v) [f] a mu'.
Proof. intros. apply parses_begin. by apply (parses_last al mu m id). Qed.

Lemma parses_content mu option msg c : fresh mu -> content msg = ct_zero ->
  wf_content (is_response msg) (type msg) c -> sized_option option ->
  (two_buffers c = true -> forall n, m_moves mu n = false) ->
  exists c' mu',
    parses al mu (io_decode_content_by_type pal_pton K option msg)
      [(Some "content"%string, content_value (codec_id K) c)] c' mu' /\
    content_den mu' c' = Some (received_content c).
Proof.
  intros Hf Hz Hw Hsz Hmv. pose proof (fresh_id (codec_id K) mu Hf). unfold io_decode_content_by_type. rewrite Hz.
  destruct msg as [si pi ti ec resp t ct ci]. cbn in Hw |- *.
  destruct c as [|a|r|r|r|v|o|v|r|pm|dm|r]; cbn in Hw, Hmv.
  - exists ct_zero, mu. split; [|done]. cbn.
    destruct resp; [destruct Hw as [-> |[-> | ->]]|rewrite Hw]; eval_ifs;
      (eapply parses_null_cps; [done|apply parses_ret]).
  - destruct Hw as (-> & -> & ?). exists (ping_request a), mu. split; [|done]. eval_ifs.
    apply parses_content_m, parses_one. by apply parses_object, parses_socket_address.
  - destruct Hw as (-> & -> & ? & [? Hl] & ?). exists (ping_response r), mu. split; [|done]. eval_ifs.
    apply parses_content_m. unfold io_decode_ping_response. solve_parses.
    eapply parses_cons; [by apply parses_bin_fixed_full; rewrite Hl|]. cbn.
    destruct r. solve_parses.
  - destruct Hw as (-> & -> & ? & Hsp). eexists _, mu. split.
    + eval_ifs. apply parses_content_m. unfold io_decode_link_request. solve_parses.
      eapply parses_cons; [by apply parses_object, parses_socket_properties|]. solve_parses.
    + cbn. unfold socket_properties_den. cbn. rewrite options_den; [done|by apply Hsp].
  - destruct Hw as (-> & -> & ? & ? & ?). exists (link_response r), mu. split; [|done]. eval_ifs.
    apply parses_content_m. unfold io_decode_link_response. destruct r. solve_parses.
  - destruct Hw as (-> & -> & ?). destruct (stored_fresh mu v Hf) as (u & mu' & Hs & Hd); [done|].
    eexists _, mu'. split.
    + eval_ifs. apply parses_content_m, parses_one. by apply parses_object, parses_property.
    + cbn. unfold property_den. cbn. rewrite Hd. by destruct v.
  - destruct Hw as (-> & -> & ?). exists (getopt_request o), mu. split; [|done]. eval_ifs.
    apply parses_content_m. unfold io_decode_getopt_request. solve_parses.
  - destruct Hw as (-> & -> & ?). destruct (stored_fresh mu v Hf) as (u & mu' & Hs & Hd); [done|].
    eexists _, mu'. split.
    + eval_ifs. apply parses_content_m, parses_one. by apply parses_object, parses_property.
    + cbn. unfold property_den. cbn. rewrite Hd. by destruct v.
  - destruct Hw as (-> & -> & ? & ? & ? & ?). do 2 eexists. split.
    + eval_ifs. apply parses_content_m. unfold io_decode_open_request. solve_parses.
      eapply parses_cons.
      { eapply (parses_string_default al). apply fill_first; [by destruct (or_connection_string r)|done]. }
      solve_parses.
    + cbn [content_den]. unfold open_request_den. cbn [or_connection_string].
      by rewrite load_str_msg.
  - destruct Hw as (-> & -> & ? & ?). exists (poll_message pm), mu. split; [|done]. eval_ifs.
    apply parses_content_m. unfold io_decode_poll_message. destruct pm. solve_parses.
  - destruct Hw as (-> & ? & ? & Hl & Hu & Hl' & Hu').
    destruct (data_stored_ok mu (dm_buffer dm) (dm_control_buffer dm)) as (pb & pcb & mu' & Hst & Hb & Hcb);
      try done.
    { destruct (decide (dm_buffer dm = [])); [by left|].
      destruct (decide (dm_control_buffer dm = [])); [by right; left|].
      right; right. apply Hmv. by apply bool_decide_eq_true_2. }
    eexists _, mu'. split.
    + eval_ifs. destruct resp; apply parses_content_m; by apply parses_data_message.
    + cbn [content_den]. unfold data_message_den. cbn [dm_buffer dm_buffer_length
        dm_control_buffer dm_control_buffer_length]. rewrite Hb. cbn. rewrite Hcb. cbn.
      rewrite <- Hl, <- Hl'. by destruct dm.
  - destruct Hw as (-> & -> & ? & ? & ? & ?). exists (close_response r), mu. split; [|done]. eval_ifs.
    apply parses_content_m. unfold io_decode_close_response. destruct r. solve_parses.
Qed.

Definition empty_message : io_message ptr :=
  {| source_id := zeros 16; proxy_id := zeros 16; target_id := zeros 16;
     error_code := 0; is_response := false; type := 0; content := ct_zero; correlation_id := 0 |}.

(** The members before the content. *)
Definition head_of (m : io_message bytes) : io_message ptr :=
  {| source_id := source_id m; proxy_id := proxy_id m; target_id := target_id m;
     error_code := error_code m; is_response := is_response m; type := type m;
     content := ct_zero; correlation_id := 0 |}.

Lemma parses_message_content d mu option m c' mu' : wf_message m -> id_memory (codec_id K) mu ->
  parses al mu (io_decode_content_by_type pal_pton K option (head_of m))
    [(Some "content"%string, content_value (codec_id K) (content m))] c' mu' ->
  parses_all d mu (io_decode_message pal_pton K option empty_message) (message_fields (codec_id K) m)
    (with_content (head_of m) c') mu'.
Proof.
  intros (? & ? & ? & ? & ? & Hw) ? Hp. unfold io_decode_message. apply parses_all_begin.
  eapply parses_all_cons; [apply parses_uint32; by apply (bool_decide_unpack _)|]. eval_ifs.
  apply parses_all_ret.
  do 3 (eapply parses_all_cons; [apply parses_object; by apply parses_ref|]).
  do 3 (eapply parses_all_cons; [by eauto with codec|]).
  apply parses_all_set. eapply parses_cons; [exact Hp|]. apply parses_end.
Qed.

Lemma parses_message d mu option m : fresh mu -> wf_message m -> sized_option option ->
  (two_buffers (content m) = true -> forall n, m_moves mu n = false) ->
  exists m' mu',
    parses_all d mu (io_decode_message pal_pton K option empty_message) (message_fields (codec_id K) m) m' mu' /\
    message_den mu' m' = Some (received m).
Proof.
  intros Hf Hm Hno Hmv. pose proof Hm as (? & ? & ? & ? & ? & Hw).
  destruct (parses_content mu option (head_of m) (content m) Hf eq_refl Hw Hno Hmv)
    as (c' & mu' & Hp & Hd).
  exists (with_content (head_of m) c'), mu'. split; [apply parses_message_content; [done|by apply fresh_id|done]|].
  unfold message_den, with_content. cbn. rewrite Hd. done.
Qed.

(** A document of another version is refused. *)
Lemma version_refused mu option msg s c v fs k :
  sees s c ((Some "version"%string, VUint v) :: fs) k -> in_u32 v -> version_ok v = false ->
  io_decode_message pal_pton K option msg {| w_doc := s; w_mem := mu |} c = Err er_invalid_format.
Proof.
  intros Hs Hv Hno. unfold io_decode_message.
  destruct (parses_tbegin (K:=K) (ctx_default_allocator c) mu s c _ k Hs eq_refl)
    as (s1 & c1 & E1 & Hs1 & Hd1).
  unfold mbind at 1, M_bind at 1. rewrite E1.
  destruct (parses_uint32 (K:=K) (ctx_default_allocator c) mu _ v Hv s1 c1 fs k Hs1 Hd1)
    as (s2 & c2 & E2 & _).
  unfold mbind at 1, M_bind at 1. rewrite E2, Hno. done.
Qed.

(** *** The two buffers of a data message when growing moves the memory *)

(** The pointer to the first buffer is to the old place of the memory. *)
Lemma data_stored_moved mu b cb : fresh mu -> b <> [] -> cb <> [] ->
  in_u32 (zlen b) -> in_u32 (zlen cb) -> m_moves mu (zlen b + zlen cb) = true ->
  exists pb pcb mu', data_stored mu b cb pb pcb mu' /\ load mu' pb (zlen b) = None.
Proof.
  intros Hf Hb Hcb Hlb Hlcb Hmv. unfold in_u32 in *.
  assert (0 < zlen b) by (destruct b; [done|]; rewrite zlen_cons; pose proof (zlen_nonneg b); lia).
  do 3 eexists. split.
  - exists (set_buffer mu (m_gen mu) b). rewrite !fill_bin_ne by done. split; [by apply fill_first|].
    rewrite (fill_next cb b) by (done || lia || apply Hf). cbn. rewrite Hmv. done.
  - unfold load. rewrite bool_decide_eq_false_2 by lia. cbn.
    rewrite bool_decide_eq_false_2 by lia. done.
Qed.

Lemma parses_message_moved d mu option m dm : fresh mu -> wf_message m ->
  content m = data_message dm -> dm_buffer dm <> [] -> dm_control_buffer dm <> [] ->
  m_moves mu (zlen (dm_buffer dm) + zlen (dm_control_buffer dm)) = true ->
  exists m' mu' dm',
    parses_all d mu (io_decode_message pal_pton K option empty_message) (message_fields (codec_id K) m) m' mu' /\
    content m' = data_message dm' /\ dm_buffer_length dm' = zlen (dm_buffer dm) /\
    load mu' (dm_buffer dm') (dm_buffer_length dm') = None.
Proof.
  intros Hf Hm Hc Hb Hcb Hmv. pose proof Hm as (? & ? & ? & ? & ? & Hw). rewrite Hc in Hw.
  destruct Hw as (Ht & ? & ? & Hl & Hu & Hl' & Hu').
  destruct (data_stored_moved mu _ _ Hf Hb Hcb Hu Hu' Hmv) as (pb & pcb & mu' & Hst & Hload).
  set (dm' := {| dm_sequence_number := dm_sequence_number dm;
    dm_source_address := dm_source_address dm;
    dm_control_buffer_length := zlen (dm_control_buffer dm); dm_control_buffer := pcb;
    dm_buffer_length := zlen (dm_buffer dm); dm_buffer := pb |}).
  exists (with_content (head_of m) (data_message dm')), mu', dm'. split; [|done].
  apply parses_message_content; [done|by apply fresh_id|]. rewrite Hc. unfold io_decode_content_by_type.
  cbn [type is_response content head_of]. rewrite Ht. eval_ifs.
  destruct (is_response m); apply parses_content_m; by apply parses_data_message.
Qed.
End Decode.

Lemma version_differs v : in_u32 v -> Z.shiftr v 16 <> Z.shiftr MODULE_VER_NUM 16 ->
  version_ok v = false.
Proof.
  intros Hv Hne. apply bool_decide_eq_false_2. intros E. apply Hne.
  change 4294901760 with (Z.shiftl (Z.ones 16) 16) in E.
  apply (f_equal (fun z => Z.shiftr z 16)) in E. rewrite !Z.shiftr_land in E.
  change (Z.shiftr (Z.shiftl (Z.ones 16) 16) 16) with (Z.ones 16) in E.
  rewrite !Z.land_ones in E by lia. rewrite Z.mod_small in E; [exact E|].
  rewrite Z.shiftr_div_pow2 by lia. unfold in_u32 in Hv. split; [apply Z.div_pos; lia|].
  apply Z.div_lt_upper_bound; lia.
Qed.

(** ** Responses *)

Lemma io_message_as_response_spec {P} (m : io_message P) :
  zlen (source_id m) = 16 -> zlen (target_id m) = 16 ->
  io_message_as_response m =
    {| source_id := target_id m; proxy_id := proxy_id m; target_id := source_id m;
       error_code := error_code m; is_response := true; type := type m; content := ct_zero;
       correlation_id := correlation_id m |}.
Proof.
  intros Hs Ht. unfold io_message_as_response, io_ref_swap. cbn.
  rewrite <- !slice_split by lia.
  assert (Hall : forall r : bytes, zlen r = 16 -> slice 0 16 r = r).
  { intros r Hr. rewrite <- (app_nil_r r) at 1. apply slice_app_l. lia. }
  by rewrite !Hall.
Qed.
End IoProto.
