(* ===== verification/IoTransport.v ===== *)
(** * Messages over a websocket (src/io_transport.c)

    The two handlers of the websocket transport that turn a protocol message into
    the bytes of a stream and back, on top of the MessagePack codec.  This is where
    the components meet: streams, codec, types, references and messages. *)
From stdpp Require Import base option list numbers strings.
From S2P Require Import Prelude PrxTypes IoStream IoMem IoCodec IoCodecSpec IoRef IoTypes Mpack IoProto Msgpack.
Import PrxTypes IoStream IoMem IoCodec IoCodecSpec IoRef IoTypes Mpack IoProto Msgpack.

Module IoTransport.

Section Handlers.
Context {C : cmp_ops} (pal_pton : bytes -> res prx_socket_address).

(** [codec_alloc]: whether the context of the codec can be allocated.  Returns
    the stream as it is after the call; after an error it was reset. *)
Definition io_iot_hub_ws_connection_send_handler {St} (stream : io_stream St)
    (codec_alloc : bool) (message : io_message ptr) (mu : mem) (s : St) : res St :=
  if codec_alloc then
    let '(d, ctx) := mpack_init_ctx s in
    '(_, w, _) ← (obj ← enc_object (mpack_codec stream) None false;
                  under obj (io_encode_message (mpack_codec stream) message))
                 {| w_doc := d; w_mem := mu |} ctx;
    Ok (cmp_buf (w_doc w))
  else Err er_out_of_memory.

(** The message handed to the callback of the connection, with its memory, and
    the stream as it is then.  [mu]: the memory of a new message. *)
Definition io_iot_hub_ws_connection_receive_handler {St} (stream : io_stream St)
    (codec_alloc pool : bool) (option : prx_property ptr) (mu : mem) (s : St)
  : res (io_message ptr * mem * St) :=
  if codec_alloc then
    let '(d, ctx) := mpack_init_ctx s in
    message ← io_message_create_empty pool;
    '(m, w, _) ← ('(is_null, obj) ← io_decode_object (mpack_codec stream) None true;
                  if (is_null : bool) then fail er_invalid_format
                  else under obj (io_decode_message pal_pton (mpack_codec stream) option message))
                 {| w_doc := d; w_mem := mu |} ctx;
    Ok (m, w_mem w, cmp_buf (w_doc w))
  else Err er_out_of_memory.
End Handlers.

(** ** Both directions *)
Section Proofs.
Context {C : cmp_ops} {CL : cmp_laws C} (pal_pton : bytes -> res prx_socket_address).

(** The bytes of a message. *)
Definition message_bytes (m : io_message bytes) : bytes := ser (VObj (message_fields io_codec_mpack m)).

Lemma send_handler_spec {St} (stream : io_stream St) `{SW : !stream_writes stream} msg mu m s :
  message_den mu msg = Some m -> wf_message m -> wf_value (VObj (message_fields io_codec_mpack m)) ->
  zlen (message_bytes m) <= sroom s ->
  exists s', io_iot_hub_ws_connection_send_handler stream true msg mu s = Ok s' /\
    sout s' = sout s ++ message_bytes m.
Proof.
  intros Hd Hw Hv Hroom. unfold io_iot_hub_ws_connection_send_handler, mpack_init_ctx.
  pose proof (emits_object mu None _ _ (emits_message mu msg m Hd Hw)) as He.
  destruct (He {| cmp_buf := s; cmp_error := 0 |}
    {| ctx_node := (); ctx_index := 1; ctx_default_allocator := None |} []) as (d & c & E & Hst & _).
  { split; [|by constructor]. unfold ser_fields, message_bytes in *.
    cbn [app map concat snd]. by rewrite app_nil_r. }
  unfold io_encode_object_m in E. cbn [mbind] in E. rewrite E. cbn. eexists. split; [done|].
  destruct Hst as [Ho _]. unfold ser_fields in Ho. cbn [map concat snd] in Ho.
  rewrite app_nil_r in Ho. done.
Qed.

Lemma receive_handler_spec {St} (stream : io_stream St) `{SR : !stream_reads stream} option mu m s k :
  fresh mu -> wf_message m -> wf_value (VObj (message_fields io_codec_mpack m)) ->
  sized_option option ->
  (two_buffers (content m) = true -> forall n, m_moves mu n = false) ->
  sin s = message_bytes m ++ k ->
  exists m' mu' s',
    io_iot_hub_ws_connection_receive_handler pal_pton stream true true option mu s = Ok (m', mu', s') /\
    message_den mu' m' = Some (received m) /\ sin s' = k.
Proof.
  intros Hf Hw Hv Hsz Hmv Hs. unfold io_iot_hub_ws_connection_receive_handler, mpack_init_ctx.
  destruct (parses_message pal_pton None mu option m Hf Hw Hsz Hmv)
    as (m' & mu' & Hp & Hd).
  unfold io_message_create_empty. cbn [mbind res_bind].
  pose proof (parses_all_object (K := mpack_codec stream) None mu None true (message_fields io_codec_mpack m)
    (fun '(is_null, obj) => if (is_null : bool) then fail er_invalid_format
      else under obj (io_decode_message pal_pton (mpack_codec stream) option empty_message))
    _ m' mu' (fun _ => eq_refl) Hp) as Ho.
  destruct (Ho {| cmp_buf := s; cmp_error := 0 |}
    {| ctx_node := (); ctx_index := 1; ctx_default_allocator := None |} [] k)
    as (d & c & E & (Hs' & _) & _).
  - split; [|split; [by constructor|done]]. unfold ser_fields.
    cbn [app map concat snd cmp_buf]. by rewrite app_nil_r.
  - done.
  - unfold empty_message in E. rewrite E. cbn. exists m', mu', (cmp_buf d). done.
Qed.

(** The receiver of a document that starts with [fs]. *)
Lemma receive_object {St} (stream : io_stream St) `{SR : !stream_reads stream} option mu s fs k :
  wf_value (VObj fs) -> sin s = ser (VObj fs) ++ k ->
  exists d c k', sees (S := cmp_ctx St) d c fs k' /\ ctx_default_allocator c = None /\
    io_iot_hub_ws_connection_receive_handler pal_pton stream true true option mu s =
      ('(m, w, _) ← io_decode_message pal_pton (mpack_codec stream) option empty_message
                     {| w_doc := d; w_mem := mu |} c;
       Ok (m, w_mem w, cmp_buf (w_doc w))).
Proof.
  intros Hv Hs.
  destruct (mpack_dec_object_law stream mu None {| cmp_buf := s; cmp_error := 0 |}
    {| ctx_node := (); ctx_index := 1; ctx_default_allocator := None |} fs [] k)
    as (d & c & obj & k' & E & Ha & Ha' & Hsee & _).
  { split; [|split; [by constructor|done]]. unfold ser_fields.
    cbn [map concat snd cmp_buf]. by rewrite app_nil_r. }
  exists d, obj, k'. split; [done|]. split; [exact Ha'|].
  unfold io_iot_hub_ws_connection_receive_handler, mpack_init_ctx, io_message_create_empty.
  change (mpack_read_object stream None true) with (io_decode_object (mpack_codec stream) None true) in E.
  unfold mbind, M_bind, res_bind. rewrite E.
  unfold under, empty_message.
  destruct (io_decode_message _ _ _ _ _ _) as [[[m w] c']| |]; done.
Qed.
End Proofs.

(** ** Claims *)

(** C1: Messages survive the websocket transport: for every kind of message and
    every well formed content, the bytes the send handler writes to a stream with
    enough room are turned by the receive handler on the other side into a
    message with the same contents ([received]: only [max_send] and the local
    correlation id are not sent, socket options go to the index of their type), and
    nothing after them is consumed.  Growing the memory of the received message must
    not move it if a data message carries two buffers.  [option]: what was on the stack. *)
Theorem ws_message_roundtrip {C : cmp_ops} {CL : cmp_laws C} pal_pton
    {St St'} (out_stream : io_stream St) (in_stream : io_stream St')
    `{SW : !stream_writes out_stream} `{SR : !stream_reads in_stream}
    option msg mu m mu0 s :
  message_den mu msg = Some m -> wf_message m -> wf_value (VObj (message_fields io_codec_mpack m)) ->
  sized_option option -> zlen (message_bytes m) <= sroom s ->
  fresh mu0 -> (two_buffers (content m) = true -> forall n, m_moves mu0 n = false) ->
  exists s' bs, io_iot_hub_ws_connection_send_handler out_stream true msg mu s = Ok s' /\
    sout s' = sout s ++ bs /\
    forall t k, sin t = bs ++ k ->
    exists m' mu' t',
      io_iot_hub_ws_connection_receive_handler pal_pton in_stream true true option mu0 t
        = Ok (m', mu', t') /\
      message_den mu' m' = Some (received m) /\ sin t' = k.
Proof.
  intros Hd Hw Hv Hsz Hroom Hf Hmv.
  destruct (send_handler_spec out_stream msg mu m s Hd Hw Hv Hroom) as (s' & E & Ho).
  exists s', (message_bytes m). split; [done|]. split; [done|]. intros t k Ht.
  by apply receive_handler_spec.
Qed.

(** C2: Versions: whatever else a received document holds, if the upper half of
    its version differs from this module's it is refused with
    [er_invalid_format]. *)
Theorem ws_version_refused {C : cmp_ops} {CL : cmp_laws C} pal_pton
    {St} (stream : io_stream St) `{SR : !stream_reads stream} option mu s v fs k :
  wf_value (VObj ((Some "version"%string, VUint v) :: fs)) -> in_u32 v ->
  Z.shiftr v 16 <> Z.shiftr MODULE_VER_NUM 16 ->
  sin s = ser (VObj ((Some "version"%string, VUint v) :: fs)) ++ k ->
  io_iot_hub_ws_connection_receive_handler pal_pton stream true true option mu s
    = Err er_invalid_format.
Proof.
  intros Hv Hu Hno Hs. destruct (receive_object pal_pton stream option mu s _ k Hv Hs)
    as (d & c & k' & Hsee & _ & ->).
  rewrite (version_refused pal_pton mu option empty_message d c v fs k' Hsee Hu); [done|].
  by apply version_differs.
Qed.

(** C3: The buffer of a data message can be lost: if it also has a control buffer,
    and growing the memory of the received message moves it, the message handed
    on has a buffer pointer into the memory that was given back. *)
Theorem ws_two_buffers_dangle {C : cmp_ops} {CL : cmp_laws C} pal_pton
    {St} (stream : io_stream St) `{SR : !stream_reads stream} option mu m dm s k :
  wf_message m -> wf_value (VObj (message_fields io_codec_mpack m)) -> content m = data_message dm ->
  dm_buffer dm <> [] -> dm_control_buffer dm <> [] -> fresh mu ->
  m_moves mu (zlen (dm_buffer dm) + zlen (dm_control_buffer dm)) = true ->
  sin s = message_bytes m ++ k ->
  exists m' mu' s' dm',
    io_iot_hub_ws_connection_receive_handler pal_pton stream true true option mu s = Ok (m', mu', s') /\
    content m' = data_message dm' /\ dm_buffer_length dm' = zlen (dm_buffer dm) /\
    load mu' (dm_buffer dm') (dm_buffer_length dm') = None.
Proof.
  intros Hw Hv Hc Hb Hcb Hf Hmv Hs.
  destruct (receive_object pal_pton stream option mu s (message_fields io_codec_mpack m) k Hv Hs)
    as (d & c & k' & Hsee & Ha & ->).
  destruct (parses_message_moved pal_pton None mu option m dm Hf Hw Hc Hb Hcb Hmv)
    as (m' & mu' & dm' & Hp & Hm & Hl & Hload).
  rewrite <- (app_nil_r (message_fields io_codec_mpack m)) in Hsee.
  destruct (Hp _ _ _ _ Hsee Ha) as (d' & c' & E & _). rewrite E. cbn. eauto 10.
Qed.

(** A data message as the server sends it. *)
Definition sample_message : io_message ptr :=
  {| source_id := zeros 15 ++ [1]; proxy_id := zeros 16; target_id := zeros 15 ++ [2];
     error_code := 0; is_response := false; type := io_message_type_data;
     content := data_message
       {| dm_sequence_number := 7;
          dm_source_address := sa_ip {| ip_family := prx_address_family_inet; ip_port := 4840;
                                        ip_flow := 0; ip_un := in4 [10; 0; 0; 1] |};
          dm_control_buffer_length := 0; dm_control_buffer := p_null;
          dm_buffer_length := 3; dm_buffer := p_block [1; 2; 3] |};
     correlation_id := 0 |}.

Definition new_memory (moves : Z -> bool) : mem :=
  {| m_gen := 0; m_buffer := None; m_alloc := fun _ => true; m_moves := moves |}.

Definition no_pton (_ : bytes) : res prx_socket_address := Err er_invalid_format.

(** What it holds. *)
Definition sample_contents : io_message bytes :=
  with_content sample_message (data_message
    {| dm_sequence_number := 7;
       dm_source_address := sa_ip {| ip_family := prx_address_family_inet; ip_port := 4840;
                                     ip_flow := 0; ip_un := in4 [10; 0; 0; 1] |};
       dm_control_buffer_length := 0; dm_control_buffer := [];
       dm_buffer_length := 3; dm_buffer := [1; 2; 3] |}).

Definition no_properties : prx_property ptr := {| prop_type := 0; prop_un := pv_value 0 |}.

Lemma sample_wf : wf_message sample_contents.
Proof.
  unfold wf_message; cbn. unfold wf_ref, wf_u8s. split_and!; try done;
    by apply (bool_decide_unpack _); vm_compute.
Qed.

Lemma ws_message_roundtrip_witness :
  exists s' bs, io_iot_hub_ws_connection_send_handler fixed_itf true sample_message
      (new_memory (fun _ => true)) {| fb_in := []; fb_written := []; fb_out_len := 1024 |} = Ok s' /\
    sout s' = sout {| fb_in := []; fb_written := []; fb_out_len := 1024 |} ++ bs /\
    forall t k, sin t = bs ++ k ->
    exists m' mu' t',
      io_iot_hub_ws_connection_receive_handler no_pton fixed_itf true true
        no_properties (new_memory (fun _ => true)) t = Ok (m', mu', t') /\
      message_den mu' m' = Some (received sample_contents) /\ sin t' = k.
Proof.
  apply (ws_message_roundtrip no_pton fixed_itf fixed_itf no_properties sample_message
    (new_memory (fun _ => true)) sample_contents (new_memory (fun _ => true))
    {| fb_in := []; fb_written := []; fb_out_len := 1024 |}).
  - reflexivity.
  - exact sample_wf.
  - vm_compute; repeat split; discriminate.
  - done.
  - vm_compute. discriminate.
  - done.
  - done.
Defined.

(** A link request that asks for a socket with one option set. *)
Definition sample_link : io_message bytes :=
  with_content (P := ptr) {| source_id := zeros 16; proxy_id := zeros 16; target_id := zeros 16;
     error_code := 0; is_response := false; type := io_message_type_link; content := ct_zero;
     correlation_id := 0 |}
    (link_request {| lrq_version := 7; lrq_props :=
      {| sp_family := prx_address_family_inet; sp_sock_type := 1; sp_proto_type := 6; sp_flags := 0;
         sp_timeout := 0; sp_address := sa_unspec;
         sp_options := <[5%nat := {| prop_type := 5; prop_un := pv_value 1 |}]>
                         (replicate 34 {| prop_type := 0; prop_un := pv_value 0 |}) |} |}).

Definition input (bs : bytes) : io_fixed_buffer_stream :=
  {| fb_in := bs; fb_written := []; fb_out_len := 0 |}.

(** The option arrives where it was. *)
Example link_option_arrives : exists m' mu' t',
  io_iot_hub_ws_connection_receive_handler no_pton fixed_itf true true no_properties
    (new_memory (fun _ => true)) (input (message_bytes sample_link ++ [9])) = Ok (m', mu', t') /\
  message_den mu' m' = Some sample_link /\ sin t' = [9].
Proof.
  change sample_link with (received sample_link) at 2. apply receive_handler_spec.
  - done.
  - unfold wf_message; cbn. unfold wf_ref, wf_u8s.
    split_and!; try done; try (by apply (bool_decide_unpack _); vm_compute).
    unfold wf_socket_properties, wf_options. cbn.
    split_and!; try done; try (by apply (bool_decide_unpack _); vm_compute).
    repeat (apply Forall_cons; split; [try (vm_compute; discriminate)|]); [|by apply Forall_nil].
    intros _. unfold wf_property. cbn. split; [by apply (bool_decide_unpack _); vm_compute|].
    split_and!; done.
  - vm_compute; repeat split; discriminate.
  - done.
  - done.
  - done.
Qed.

Lemma ws_version_refused_witness :
  io_iot_hub_ws_connection_receive_handler no_pton fixed_itf true true no_properties
    (new_memory (fun _ => true))
    (input (ser (VObj [(Some "version"%string, VUint 65536)]) ++ [9])) = Err er_invalid_format.
Proof.
  eapply (ws_version_refused no_pton fixed_itf no_properties (new_memory (fun _ => true)) _ 65536 []).
  - vm_compute; repeat split; discriminate.
  - by apply (bool_decide_unpack _); vm_compute.
  - vm_compute. discriminate.
  - reflexivity.
Defined.

(** A data message with a control buffer. *)
Definition sample_control : io_data_message bytes :=
  {| dm_sequence_number := 7; dm_source_address := sa_unspec;
     dm_control_buffer_length := 1; dm_control_buffer := [5];
     dm_buffer_length := 3; dm_buffer := [1; 2; 3] |}.

Lemma ws_two_buffers_dangle_witness :
  exists m' mu' s' dm',
    io_iot_hub_ws_connection_receive_handler no_pton fixed_itf true true no_properties
      (new_memory (fun _ => true))
      (input (message_bytes (with_content sample_message (data_message sample_control)) ++ [9]))
      = Ok (m', mu', s') /\
    content m' = data_message dm' /\ dm_buffer_length dm' = 3 /\
    load mu' (dm_buffer dm') (dm_buffer_length dm') = None.
Proof.
  eapply (ws_two_buffers_dangle no_pton fixed_itf no_properties (new_memory (fun _ => true))
    (with_content sample_message (data_message sample_control)) sample_control).
  - unfold wf_message; cbn. unfold wf_ref, wf_u8s.
    split_and!; try done; by apply (bool_decide_unpack _); vm_compute.
  - vm_compute; repeat split; discriminate.
  - reflexivity.
  - discriminate.
  - discriminate.
  - done.
  - reflexivity.
  - reflexivity.
Defined.
End IoTransport.
