(* ===== verification/IoBrowse.v ===== *)
(** * Browse protocol (src/io_browse.c, inc/io_browse.h)

    Requests and responses of the browse server: their structures, encoders and decoders over
    any codec, and as documents of the MessagePack codec on a stream. *)
From stdpp Require Import base option list numbers strings.
From S2P Require Import Prelude PrxTypes IoStream IoMem IoCodec IoCodecSpec IoRef IoTypes Mpack Msgpack IoTransport.
Import PrxTypes IoStream IoMem IoCodec IoCodecSpec IoRef IoTypes Mpack Msgpack IoTransport.
Open Scope Z_scope.

Module IoBrowse.

(** [io_browse_request_type_t] *)
Definition io_browse_request_cancel : Z := 0.
Definition io_browse_request_resolve : Z := 1.
Definition io_browse_request_service : Z := 2.
Definition io_browse_request_dirpath : Z := 3.

(** [io_browse_response_flags_t] *)
Definition io_browse_response_eos : Z := 1.
Definition io_browse_response_removed : Z := 2.
Definition io_browse_response_allfornow : Z := 4.
Definition io_browse_response_empty : Z := 8.

Definition PRX_BROWSE_VERSION : Z := 1.

Record io_browse_request := mk_request {
  brq_handle : io_ref;
  brq_version : Z;
  brq_type : Z;
  brq_flags : Z;
  brq_item : prx_socket_address;
}.

(** [brs_props]: the array that [props] points to. *)
Record io_browse_response (P : Type) := mk_response {
  brs_handle : io_ref;
  brs_flags : Z;
  brs_error_code : Z;
  brs_item : prx_socket_address;
  brs_props_size : Z;
  brs_props : list (prx_property P);
}.
Arguments mk_response {P}. Arguments brs_handle {P}. Arguments brs_flags {P}. Arguments brs_error_code {P}.
Arguments brs_item {P}. Arguments brs_props_size {P}. Arguments brs_props {P}.

Section Functions.
Context (pal_pton : bytes -> res prx_socket_address) {S R : Type} (K : io_codec S R).
(** [sizeof(prx_property_t)], and what memory of the default allocator of the context, which is not set to zero, holds. *)
Context (sizeof_property : Z) (garbage : prx_property ptr).
Local Open Scope string_scope.

Definition io_encode_browse_request (prx_br : io_browse_request) : M S R unit :=
  enc_tbegin K 5;;
  io_encode_object_m K (Some "handle") (io_encode_ref K (brq_handle prx_br));;
  io_encode_uint8 K (Some "version") (brq_version prx_br);;
  if bool_decide (brq_version prx_br > PRX_BROWSE_VERSION)%Z then fail er_invalid_format
  else
    io_encode_int32 K (Some "type") (brq_type prx_br);;
    io_encode_uint32 K (Some "flags") (brq_flags prx_br);;
    io_encode_object_m K (Some "item") (io_encode_prx_socket_address K (brq_item prx_br));;
    enc_tend K.

Definition io_decode_browse_request (prx_br : io_browse_request) : M S R io_browse_request :=
  dec_tbegin K;;
  handle ← io_decode_object_m K (Some "handle") (brq_handle prx_br) (io_decode_ref pal_pton K);
  version ← io_decode_uint8 K (Some "version");
  type ← io_decode_int32 K (Some "type");
  flags ← io_decode_uint32 K (Some "flags");
  item ← io_decode_object_m K (Some "item") (brq_item prx_br) (io_decode_prx_socket_address K);
  dec_tend K;;
  mret (mk_request handle version type flags item).

(** The elements of the array [props]; it is undefined to read past it. *)
Fixpoint io_encode_props (size : nat) (props : list (prx_property ptr)) : M S R unit :=
  match size with
  | O => mret tt
  | Datatypes.S size =>
      match props with
      | [] => fun _ _ => UB
      | p :: props =>
          (obj ← enc_object K None false; under obj (io_encode_prx_property K p));;
          io_encode_props size props
      end
  end.

Definition io_encode_browse_response (prx_br : io_browse_response ptr) : M S R unit :=
  enc_tbegin K 5;;
  io_encode_object_m K (Some "handle") (io_encode_ref K (brs_handle prx_br));;
  io_encode_uint32 K (Some "flags") (brs_flags prx_br);;
  io_encode_int32 K (Some "error_code") (brs_error_code prx_br);;
  io_encode_object_m K (Some "item") (io_encode_prx_socket_address K (brs_item prx_br));;
  (arr ← enc_array K (Some "props") (brs_props_size prx_br);
   under arr (io_encode_props (Z.to_nat (brs_props_size prx_br)) (brs_props prx_br)));;
  enc_tend K.

(** Memory for [props]: from the default allocator of the context, or of its own and set to zero.  Returns what an
    element holds. *)
Definition allocate_props (size : Z) : M S R (prx_property ptr) := fun w c =>
  match ctx_default_allocator c with
  | Some a => '(_, _, mu) ← a size (w_mem w); Ok (garbage, {| w_doc := w_doc w; w_mem := mu |}, c)
  | None => if m_alloc (w_mem w) size then Ok (no_option, w, c) else Err er_out_of_memory
  end.

Fixpoint io_decode_props (size : nat) (old : prx_property ptr) : M S R (list (prx_property ptr)) :=
  match size with
  | O => mret []
  | Datatypes.S size =>
      '(_, obj) ← io_decode_object K None false;
      p ← under obj (io_decode_prx_property K old);
      ps ← io_decode_props size old;
      mret (p :: ps)
  end.

(** The member [props]. *)
Definition decode_props : M S R (Z * list (prx_property ptr)) :=
  '(props_size, arr) ← dec_array K (Some "props");
  if bool_decide (props_size = 0)%Z then mret (props_size, [])
  else
    old ← allocate_props (u64 ((props_size + 1) * sizeof_property));
    props ← under arr (io_decode_props (Z.to_nat props_size) old);
    mret (props_size, props).

Definition io_decode_browse_response (prx_br : io_browse_response ptr) : M S R (io_browse_response ptr) :=
  dec_tbegin K;;
  handle ← io_decode_object_m K (Some "handle") (brs_handle prx_br) (io_decode_ref pal_pton K);
  flags ← io_decode_uint32 K (Some "flags");
  error_code ← io_decode_int32 K (Some "error_code");
  item ← io_decode_object_m K (Some "item") (brs_item prx_br) (io_decode_prx_socket_address K);
  '(props_size, props) ← decode_props;
  dec_tend K;;
  mret (mk_response handle flags error_code item props_size props).
End Functions.

(** ** Documents *)

Local Open Scope string_scope.
Definition browse_request_fields (id : io_codec_id) (r : io_browse_request) : list field :=
  [(Some "handle", VObj (ref_fields id (brq_handle r))); (Some "version", VUint (brq_version r));
   (Some "type", VInt (brq_type r)); (Some "flags", VUint (brq_flags r)); (Some "item", VObj (sa_fields (brq_item r)))].
Definition browse_response_fields (id : io_codec_id) (r : io_browse_response bytes) : list field :=
  [(Some "handle", VObj (ref_fields id (brs_handle r))); (Some "flags", VUint (brs_flags r));
   (Some "error_code", VInt (brs_error_code r)); (Some "item", VObj (sa_fields (brs_item r)));
   (Some "props", VArr (map (fun p => VObj (property_fields p)) (brs_props r)))].
Local Close Scope string_scope.

Definition wf_request (r : io_browse_request) : Prop :=
  wf_ref (brq_handle r) /\ is_u8 (brq_version r) /\ brq_version r <= PRX_BROWSE_VERSION /\ in_i32 (brq_type r) /\
  in_u32 (brq_flags r) /\ wf_socket_address (brq_item r).
Definition wf_response (r : io_browse_response bytes) : Prop :=
  wf_ref (brs_handle r) /\ in_u32 (brs_flags r) /\ in_i32 (brs_error_code r) /\ wf_socket_address (brs_item r) /\
  brs_props_size r = zlen (brs_props r) /\ Forall wf_property (brs_props r).

(** What the pointers of a response refer to. *)
Definition response_den (mu : mem) (r : io_browse_response ptr) : option (io_browse_response bytes) :=
  ps ← mapM (property_den mu) (brs_props r);
  Some (mk_response (brs_handle r) (brs_flags r) (brs_error_code r) (brs_item r) (brs_props_size r) ps).

Section Encode.
Context {S R : Type} {K : io_codec S R} {EV : enc_view S R} {EL : enc_laws K EV}.
Local Hint Resolve emits_socket_address emits_ref : codec.

Lemma emits_browse_request mu r : wf_request r ->
  emits_obj mu (io_encode_browse_request K r) (browse_request_fields (codec_id K) r).
Proof.
  intros (? & ? & Hv & ? & ? & ?). unfold io_encode_browse_request. apply emits_tbegin; [|done].
  do 2 (eapply emits_cons; [first [solve [eauto with codec]|eapply emits_object; solve [eauto with codec]]|]).
  rewrite bool_decide_eq_false_2 by lia. solve_emits.
Qed.

Lemma emits_props mu ps : forall ps', mapM (property_den mu) ps = Some ps' -> Forall wf_property ps' ->
  emits mu (io_encode_props K (length ps') ps) (elems (map (fun p => VObj (property_fields p)) ps')).
Proof.
  induction ps as [|p ps IH]; intros ps' E Hw; cbn in E.
  - injection E as <-. apply emits_ret.
  - destruct (property_den mu p) as [p'|] eqn:Ep; cbn in E; [|done].
    destruct (mapM _ ps) as [ps''|]; cbn in E; [|done]. injection E as <-. inversion_clear Hw.
    cbn. apply emits_cons; [|by apply IH]. apply (emits_object mu None). eapply emits_property; eauto.
Qed.

Lemma emits_browse_response mu r r' : response_den mu r = Some r' -> wf_response r' ->
  emits_obj mu (io_encode_browse_response K r) (browse_response_fields (codec_id K) r').
Proof.
  unfold response_den. destruct (mapM _ (brs_props r)) as [ps|] eqn:Eps; cbn; [|done].
  intros [= <-] (? & ? & ? & ? & Hn & Hps). cbn in *. unfold io_encode_browse_response. apply emits_tbegin; [|done].
  do 4 (eapply emits_cons; [first [solve [eauto with codec]|eapply emits_object; solve [eauto with codec]]|]).
  apply emits_end. apply emits_array; [unfold zlen in *; by rewrite length_map|].
  rewrite Hn. unfold zlen. rewrite Nat2Z.id. by apply emits_props.
Qed.
End Encode.

Section Decode.
Context (pal_pton : bytes -> res prx_socket_address) (sizeof_property : Z) (garbage : prx_property ptr).
Context {S R : Type} {K : io_codec S R} {DV : dec_view S R} {DL : dec_laws K DV}.
Local Hint Resolve parses_socket_address parses_ref : codec.

Lemma parses_browse_request d mu r old : wf_request r -> zlen (brq_handle old) = 16 -> brq_item old = sa_unspec ->
  id_memory (codec_id K) mu ->
  parses d mu (io_decode_browse_request pal_pton K old) (browse_request_fields (codec_id K) r) r mu.
Proof.
  intros (? & ? & _ & ? & ? & ?) Ho Hi Hm. unfold io_decode_browse_request. rewrite Hi. destruct r. solve_parses.
Qed.

(** The variable sized part of a property, in a block of its own. *)
Lemma stored_block mu p : (forall k, m_alloc mu k = true) -> wf_property p ->
  exists u, stored None mu (prop_un p) u mu /\ property_un_den mu u = Some (prop_un p).
Proof.
  intros Ha [_ Hw]. destruct (prop_un p) as [v|m|b n|f|[sa r nm]|i]; try (eexists; split; [constructor|done]).
  - destruct Hw as (_ & _ & _ & ->). destruct (decide (b = [])) as [->|Hne]; [by eexists; split; [by constructor|]|].
    pose proof (zlen_nonneg b) as Hb. assert (zlen b <> 0) by (destruct b; [done|]; unfold zlen; cbn; lia).
    exists (pv_bin (p_block b) (zlen b)). split.
    + constructor. unfold fill_bin. rewrite bool_decide_eq_false_2 by done. exact (fill_block b mu Ha Hne).
    + cbn. unfold load. rewrite bool_decide_eq_false_2 by done. cbn. unfold mem_read.
      rewrite bool_decide_eq_true_2 by (unfold zlen in *; lia). cbn. rewrite drop_0, take_ge by (unfold zlen; lia). done.
  - destruct Hw as (_ & _ & Hr & Hn). cbn in *. subst r. eexists. split.
    + econstructor. apply (fill_block _ mu Ha). by destruct nm.
    + cbn. unfold addrinfo_den. cbn. unfold load_str. cbn. rewrite cstr_app, bool_decide_eq_true_2; [done| |done].
      unfold zlen. rewrite length_app. cbn. lia.
Qed.

Lemma parses_props mu ps : (forall k, m_alloc mu k = true) -> Forall wf_property ps ->
  exists ps', parses None mu (io_decode_props K (length ps) no_option) (elems (map (fun p => VObj (property_fields p)) ps)) ps' mu /\
    mapM (property_den mu) ps' = Some ps.
Proof.
  intros Ha. induction 1 as [|p ps Hp _ (ps' & IH & Hd)]; [exists []; split; [apply parses_ret|done]|].
  destruct (stored_block mu p Ha Hp) as (u & Hst & Hu). eexists. split.
  - cbn. eapply (parses_object_bind None mu None false); [by apply parses_property|].
    rewrite <- (app_nil_r (elems _)). eapply parses_bind; [exact IH|apply parses_ret].
  - assert (Ed : property_den mu {| prop_type := prop_type p; prop_un := u |} = Some p) by (unfold property_den; cbn; rewrite Hu; by destruct p).
    cbn [mapM]. rewrite Ed. cbn. by rewrite Hd.
Qed.

Lemma parses_decode_props mu ps : (forall k, m_alloc mu k = true) -> Forall wf_property ps ->
  exists ps', parses None mu (decode_props K sizeof_property garbage) [(Some "props"%string, VArr (map (fun p => VObj (property_fields p)) ps))]
      (zlen ps, ps') mu /\ mapM (property_den mu) ps' = Some ps.
Proof.
  intros Ha Hps. destruct (parses_props mu ps Ha Hps) as (ps' & Hp & Hd). exists ps'. split; [|done].
  intros s c fs k Hs Hal. unfold decode_props. unfold mbind at 1, M_bind at 1.
  destruct (dec_array_law mu _ s c _ _ k Hs) as (s1 & c1 & arr & k1 & -> & Ha1 & Ha2 & Hsee & Hend).
  assert (Hl : zlen (map (fun p => VObj (property_fields p)) ps) = zlen ps) by (unfold zlen; by rewrite length_map). rewrite Hl.
  rewrite <- (app_nil_r (elems _)) in Hsee. destruct (Hp _ _ _ _ Hsee) as (s2 & c2 & E & Hs2 & _); [by rewrite Ha2|].
  unfold same_alloc in Ha1. case_bool_decide as Hz.
  - destruct ps; [|unfold zlen in Hz; cbn in Hz; lia]. cbn in Hd. destruct ps' as [|]; [|by apply mapM_Some_1 in Hd; inversion Hd].
    exists s1, c1. split; [done|]. split; [|by rewrite Ha1]. eapply Hend. rewrite app_nil_r in Hsee. exact Hsee.
  - unfold mbind at 1, M_bind at 1, allocate_props. rewrite Ha1, Hal, Ha. unfold mbind, M_bind, under. unfold zlen at 1.
    rewrite Nat2Z.id, E. exists s2, c1. split; [done|]. split; [by eapply Hend|by rewrite Ha1].
Qed.

Lemma parses_browse_response mu r old : wf_response r -> zlen (brs_handle old) = 16 -> brs_item old = sa_unspec ->
  id_memory (codec_id K) mu -> (forall k, m_alloc mu k = true) ->
  exists r', parses None mu (io_decode_browse_response pal_pton K sizeof_property garbage old) (browse_response_fields (codec_id K) r) r' mu /\
    response_den mu r' = Some r.
Proof.
  intros (? & ? & ? & ? & Hn & Hps) Ho Hi Hm Ha. destruct (parses_decode_props mu (brs_props r) Ha Hps) as (ps' & Hp & Hd).
  exists (mk_response (brs_handle r) (brs_flags r) (brs_error_code r) (brs_item r) (zlen (brs_props r)) ps'). split.
  - unfold io_decode_browse_response. rewrite Hi. unfold browse_response_fields. apply parses_begin.
    do 4 (eapply parses_cons; [first [solve [eauto with codec]|eapply parses_object; solve [eauto with codec]]|]).
    eapply parses_cons; [exact Hp|]. cbv beta iota. apply parses_end.
  - unfold response_den. cbn. rewrite Hd. cbn. rewrite <- Hn. by destruct r.
Qed.
End Decode.

(** ** Documents of the MessagePack codec *)
Section Documents.
Context {C : cmp_ops} (pal_pton : bytes -> res prx_socket_address) (sizeof_property : Z) (garbage : prx_property ptr).

(** A structure as an object of a new document: what the users of [io_codec_ctx_init] do.
    [codec_alloc]: whether the context of the codec can be allocated. *)
Definition write_object {St} (stream : io_stream St) (codec_alloc : bool)
    (body : M (cmp_ctx St) unit unit) (mu : mem) (s : St) : res St :=
  if codec_alloc then
    let '(d, ctx) := mpack_init_ctx s in
    '(_, w, _) ← (obj ← enc_object (mpack_codec stream) None false; under obj body) {| w_doc := d; w_mem := mu |} ctx;
    Ok (cmp_buf (w_doc w))
  else Err er_out_of_memory.
Definition read_object {St A} (stream : io_stream St) (codec_alloc : bool)
    (body : M (cmp_ctx St) unit A) (mu : mem) (s : St) : res (A * mem * St) :=
  if codec_alloc then
    let '(d, ctx) := mpack_init_ctx s in
    '(x, w, _) ← ('(is_null, obj) ← io_decode_object (mpack_codec stream) None true;
                  if (is_null : bool) then fail er_invalid_format else under obj body)
                 {| w_doc := d; w_mem := mu |} ctx;
    Ok (x, w_mem w, cmp_buf (w_doc w))
  else Err er_out_of_memory.

Definition write_request {St} (stream : io_stream St) (r : io_browse_request) (mu : mem) (s : St) : res St :=
  write_object stream true (io_encode_browse_request (mpack_codec stream) r) mu s.
Definition write_response {St} (stream : io_stream St) (r : io_browse_response ptr) (mu : mem) (s : St) : res St :=
  write_object stream true (io_encode_browse_response (mpack_codec stream) r) mu s.
Definition read_request {St} (stream : io_stream St) (old : io_browse_request) (mu : mem) (s : St) : res (io_browse_request * mem * St) :=
  read_object stream true (io_decode_browse_request pal_pton (mpack_codec stream) old) mu s.
Definition read_response {St} (stream : io_stream St) (old : io_browse_response ptr) (mu : mem) (s : St)
    : res (io_browse_response ptr * mem * St) :=
  read_object stream true (io_decode_browse_response pal_pton (mpack_codec stream) sizeof_property garbage old) mu s.
End Documents.

(** Structures that were set to zero. *)
Definition zero_request : io_browse_request := mk_request (zeros 16) 0 0 0 sa_unspec.
Definition zero_response : io_browse_response ptr := mk_response (zeros 16) 0 0 sa_unspec 0 [].

Section Proofs.
Context {C : cmp_ops} {CL : cmp_laws C} (pal_pton : bytes -> res prx_socket_address) (sizeof_property : Z).

Lemma write_object_spec {St} (stream : io_stream St) `{SW : !stream_writes stream} body mu fs s :
  emits_obj (S := cmp_ctx St) mu body fs -> wf_value (VObj fs) -> zlen (ser (VObj fs)) <= sroom s ->
  exists s', write_object stream true body mu s = Ok s' /\ sout s' = sout s ++ ser (VObj fs).
Proof.
  intros Hb Hv Hroom. unfold write_object, mpack_init_ctx.
  destruct (emits_object mu None _ _ Hb {| cmp_buf := s; cmp_error := 0 |}
    {| ctx_node := (); ctx_index := 1; ctx_default_allocator := None |} []) as (d & c & E & [Ho _] & _).
  { split; [|by constructor]. unfold ser_fields. cbn [app map concat snd]. by rewrite app_nil_r. }
  unfold io_encode_object_m in E. cbn [mbind] in E. rewrite E. cbn. eexists. split; [done|].
  unfold ser_fields in Ho. cbn [map concat snd] in Ho. by rewrite app_nil_r in Ho.
Qed.

Lemma opens_object {St} (stream : io_stream St) `{SR : !stream_reads stream} {A} (body : M (cmp_ctx St) unit A) mu fs s k :
  wf_value (VObj fs) -> sin s = ser (VObj fs) ++ k ->
  exists d c k' c', sees (S := cmp_ctx St) d c fs k' /\ ctx_default_allocator c = None /\
    (forall s'' obj'', sees (S := cmp_ctx St) s'' obj'' [] k' -> sees (S := cmp_ctx St) s'' c' [] k) /\
    read_object stream true body mu s =
      ('(x, w, _) ← body {| w_doc := d; w_mem := mu |} c; Ok (x, w_mem w, cmp_buf (w_doc w))).
Proof.
  intros Hv Hs.
  destruct (mpack_dec_object_law stream mu None {| cmp_buf := s; cmp_error := 0 |}
    {| ctx_node := (); ctx_index := 1; ctx_default_allocator := None |} fs [] k)
    as (d & c & obj & k' & E & Ha & Ha' & Hsee & Hend).
  { split; [|split; [by constructor|done]]. unfold ser_fields. cbn [map concat snd cmp_buf]. by rewrite app_nil_r. }
  exists d, obj, k', c. split; [done|]. split; [exact Ha'|]. split; [exact Hend|].
  unfold read_object, mpack_init_ctx. change (mpack_read_object stream None true) with (io_decode_object (mpack_codec stream) None true) in E.
  unfold mbind, M_bind, res_bind. rewrite E. unfold under. destruct (body _ _) as [[[x w] c'']| |]; done.
Qed.

Lemma read_object_spec {St} (stream : io_stream St) `{SR : !stream_reads stream} {A} (body : M (cmp_ctx St) unit A) mu mu' fs x s k :
  parses (S := cmp_ctx St) None mu body fs x mu' -> wf_value (VObj fs) -> sin s = ser (VObj fs) ++ k ->
  exists s', read_object stream true body mu s = Ok (x, mu', s') /\ sin s' = k.
Proof.
  intros Hp Hv Hs. destruct (opens_object stream body mu fs s k Hv Hs) as (d & c & k' & c' & Hsee & Ha & Hend & ->).
  rewrite <- (app_nil_r fs) in Hsee. destruct (Hp _ _ _ _ Hsee Ha) as (d' & c2 & E & Hs' & _). rewrite E. cbn.
  eexists. split; [done|]. apply Hend in Hs'. destruct Hs' as (Hs' & _). exact Hs'.
Qed.
End Proofs.

(** ** Claims *)

(** C11: The requests and responses of the browse protocol survive their way: what the encoder writes for a well formed
    request or response, whatever properties the response has, to a stream with enough room is read by the decoder, into a
    structure that was set to zero and with memory for the properties, as a request or response with the same contents, and
    nothing after it is consumed. *)
Theorem browse_roundtrip {C : cmp_ops} {CL : cmp_laws C} pal_pton sizeof_property garbage
    {St St'} (out_stream : io_stream St) (in_stream : io_stream St') `{SW : !stream_writes out_stream} `{SR : !stream_reads in_stream} rq rs rs0 mu mu0 s :
  wf_request rq -> wf_value (VObj (browse_request_fields io_codec_mpack rq)) ->
  response_den mu rs = Some rs0 -> wf_response rs0 -> wf_value (VObj (browse_response_fields io_codec_mpack rs0)) ->
  zlen (ser (VObj (browse_request_fields io_codec_mpack rq))) <= sroom s ->
  zlen (ser (VObj (browse_response_fields io_codec_mpack rs0))) <= sroom s -> (forall n, m_alloc mu0 n = true) ->
  (exists s' bs, write_request out_stream rq mu s = Ok s' /\ sout s' = sout s ++ bs /\
    forall t k, sin t = bs ++ k -> exists t', read_request pal_pton in_stream zero_request mu0 t = Ok (rq, mu0, t') /\ sin t' = k) /\
  (exists s' bs, write_response out_stream rs mu s = Ok s' /\ sout s' = sout s ++ bs /\
    forall t k, sin t = bs ++ k -> exists rs' t', read_response pal_pton sizeof_property garbage in_stream zero_response mu0 t = Ok (rs', mu0, t') /\
      response_den mu0 rs' = Some rs0 /\ sin t' = k).
Proof.
  intros Hq Hvq Hden Hs Hvs Hrq Hrs Ha. split.
  - destruct (write_object_spec out_stream _ mu _ s (emits_browse_request (K := mpack_codec out_stream) mu rq Hq) Hvq Hrq) as (s' & E & Ho).
    exists s', (ser (VObj (browse_request_fields io_codec_mpack rq))). split; [exact E|]. split; [done|]. intros t k Ht.
    eapply read_object_spec; [|exact Hvq|exact Ht]. by apply (parses_browse_request pal_pton (K := mpack_codec in_stream)).
  - destruct (write_object_spec out_stream _ mu _ s (emits_browse_response (K := mpack_codec out_stream) mu rs rs0 Hden Hs) Hvs Hrs) as (s' & E & Ho).
    exists s', (ser (VObj (browse_response_fields io_codec_mpack rs0))). split; [exact E|]. split; [done|]. intros t k Ht.
    destruct (parses_browse_response pal_pton sizeof_property garbage (K := mpack_codec in_stream) mu0 rs0 zero_response Hs) as (rs' & Hp & Hd); [done..|].
    destruct (read_object_spec in_stream _ mu0 mu0 _ rs' t k Hp Hvs Ht) as (t' & E' & Ht'). exists rs', t'. done.
Qed.

(** ** Examples *)

Definition ex_request : io_browse_request :=
  mk_request (zeros 15 ++ [7]) 1 io_browse_request_service 0
    (sa_proxy {| px_port := 0; px_flags := 0; px_itf_index := 0; px_host := char_array MAX_HOST_LENGTH [95; 111; 112; 99] |}).
(** A file, and the records of a service. *)
Definition ex_props {P} (text : P) : list (prx_property P) :=
  [{| prop_type := prx_property_type_file_info;
      prop_un := pv_file_info {| fi_inode_number := 1; fi_device_id := 2; fi_type := 1; fi_total_size := 10; fi_last_atime := 3; fi_last_mtime := 4 |} |};
   {| prop_type := prx_record_type_default; prop_un := pv_bin text 2 |}].
Definition ex_response {P} (text : P) : io_browse_response P := mk_response (zeros 15 ++ [7]) 0 0 sa_unspec 2 (ex_props text).

Lemma browse_roundtrip_witness :
  let s := {| fb_in := []; fb_written := []; fb_out_len := 2048 |} in
  let mu := new_memory (fun _ => true) in
  (exists s' bs, write_request fixed_itf ex_request mu s = Ok s' /\ sout s' = sout s ++ bs /\
    forall t k, sin t = bs ++ k -> exists t', read_request no_pton fixed_itf zero_request mu t = Ok (ex_request, mu, t') /\ sin t' = k) /\
  (exists s' bs, write_response fixed_itf (ex_response (p_block [104; 105])) mu s = Ok s' /\ sout s' = sout s ++ bs /\
    forall t k, sin t = bs ++ k -> exists rs' t', read_response no_pton 64 no_option fixed_itf zero_response mu t = Ok (rs', mu, t') /\
      response_den mu rs' = Some (ex_response [104; 105]) /\ sin t' = k).
Proof.
  apply (browse_roundtrip no_pton 64 no_option fixed_itf fixed_itf ex_request (ex_response (p_block [104; 105])) (ex_response [104; 105])
    (new_memory (fun _ => true)) (new_memory (fun _ => true)) {| fb_in := []; fb_written := []; fb_out_len := 2048 |}).
  - unfold wf_request; cbn. unfold wf_ref, wf_u8s. split_and!; try done; try (by apply (bool_decide_unpack _); vm_compute).
  - vm_compute; repeat split; discriminate.
  - reflexivity.
  - unfold wf_response; cbn. unfold wf_ref, wf_u8s. split_and!; try done; try (by apply (bool_decide_unpack _); vm_compute).
    unfold ex_props. repeat (apply Forall_cons; split); [..|by apply Forall_nil]; unfold wf_property; cbn;
      (split; [by apply (bool_decide_unpack _); vm_compute|]).
    + split; [done|]. unfold wf_file_info. cbn. split_and!; by apply (bool_decide_unpack _); vm_compute.
    + split_and!; try reflexivity. by apply (bool_decide_unpack _); vm_compute.
  - vm_compute; repeat split; discriminate.
  - vm_compute. discriminate.
  - vm_compute. discriminate.
  - reflexivity.
Defined.
End IoBrowse.
