(* ===== verification/Json.v ===== *)
(** * The JSON codec (src/io_codec.c, json_... functions)

    The values are those of the parson library, which is not part of the repository:
    [parson] holds the functions of it that the codec calls, on a heap of values [J] with
    pointers [V] to them, and [parson_laws] what is documented of them: a value that is
    no part of another has a tree, a pointer leads to a place in a tree and stays there
    while members and elements are added, and a document that was printed is parsed to
    the same tree.  The base 64 functions are a parameter of the same kind.

    The codec is shown to satisfy [enc_laws] and [dec_laws], as the binary one. *)
From stdpp Require Import base option list numbers strings.
From S2P Require Import Prelude PrxTypes IoStream IoMem IoCodec IoCodecSpec.
Import PrxTypes IoStream IoMem IoCodec IoCodecSpec.
Open Scope Z_scope.

Module Json.

(** ** Numbers: all are doubles, given as their 64 bits *)

(** The conversion of an integer, to the nearest double and to the even one of two. *)
Definition double_of_int (z : Z) : Z :=
  if bool_decide (z = 0) then 0
  else
    let a := Z.abs z in
    let e := Z.log2 a in
    let m := if bool_decide (e <= 52) then a * 2 ^ (52 - e)
             else
               let d := 2 ^ (e - 52) in
               let q := a / d in
               let r := a mod d in
               if bool_decide (d < 2 * r \/ 2 * r = d /\ Z.odd q) then q + 1 else q in
    (if bool_decide (z < 0) then 2 ^ 63 else 0) + (e + 1023) * 2 ^ 52 + (m - 2 ^ 52).

(** The conversion to an integer drops the fraction; there is none of an infinity or of
    what is not a number. *)
Definition int_of_double (d : Z) : option Z :=
  let e := (d / 2 ^ 52) mod 2048 - 1023 in
  let m := 2 ^ 52 + d mod 2 ^ 52 in
  if bool_decide (e = 1024) then None
  else
    let a := if bool_decide (e < 0) then 0
             else if bool_decide (e <= 52) then m / 2 ^ (52 - e) else m * 2 ^ (e - 52) in
    Some (if bool_decide (2 ^ 63 <= d) then - a else a).

(** ** The parson library *)

Inductive json :=
| JNull
| JBool (b : bool)
| JNumber (d : Z)
| JString (s : bytes)
| JObject (members : list (string * json))
| JArray (elements : list json).

Inductive JSON_Value_Type :=
| JSONError | JSONNull | JSONString | JSONNumber | JSONObject | JSONArray | JSONBoolean.
#[export] Instance JSON_Value_Type_eq_dec : EqDecision JSON_Value_Type.
Proof. solve_decision. Defined.

(** The object and the array of a value are pointed to by the value; [None] is NULL, and
    a status is whether the function succeeded. *)
Class parson := {
  J : Type;
  V : Type;
  json_value_init_object : J -> J * option V;
  json_value_init_array : J -> J * option V;
  json_value_init_null : J -> J * option V;
  json_value_free : J -> V -> J;
  json_value_get_type : J -> V -> JSON_Value_Type;
  json_value_get_object : J -> V -> option V;
  json_value_get_array : J -> V -> option V;
  json_value_get_number : J -> V -> Z;
  json_value_get_boolean : J -> V -> bool;
  json_value_get_string : J -> V -> bytes;
  json_object_get_value : J -> option V -> string -> option V;
  json_object_set_number : J -> option V -> string -> Z -> J * bool;
  json_object_set_boolean : J -> option V -> string -> bool -> J * bool;
  json_object_set_string : J -> option V -> string -> bytes -> J * bool;
  json_object_set_value : J -> option V -> option string -> V -> J * bool;
  json_array_get_value : J -> option V -> Z -> option V;
  json_array_get_count : J -> option V -> Z;
  json_array_append_number : J -> option V -> Z -> J * bool;
  json_array_append_boolean : J -> option V -> bool -> J * bool;
  json_array_append_string : J -> option V -> bytes -> J * bool;
  json_array_append_value : J -> option V -> V -> J * bool;
  json_parse_string_with_comments : J -> bytes -> J * option V;
  json_serialization_size_pretty : J -> V -> Z;
  json_serialize_to_buffer_pretty : J -> V -> Z -> option bytes;
}.

Class base64 := {
  Base64_Encode_Bytes : bytes -> option bytes;
  Base64_Decoder : bytes -> option bytes;
}.

(** ** The codec *)
Section Codec.
Context {PA : parson} {B64 : base64}.
Abbreviation ctx := (io_codec_ctx V).
Abbreviation MJ := (M J V).

Definition doc (w : world J) (j : J) : world J := {| w_doc := j; w_mem := w_mem w |}.

(** A call on the array, or on the object, of the context. *)
Definition on_array (op : J -> option V -> J * bool) : MJ unit := fun w c =>
  let j := w_doc w in
  let '(j, ok) := op j (json_value_get_array j (ctx_node c)) in
  if (ok : bool) then Ok (tt, doc w j, c) else Err er_out_of_memory.
Definition on_object (op : J -> option V -> J * bool) : MJ unit := fun w c =>
  let j := w_doc w in
  let '(j, ok) := op j (json_value_get_object j (ctx_node c)) in
  if (ok : bool) then Ok (tt, doc w j, c) else Err er_out_of_memory.

Definition json_append_number (value : Z) : MJ unit :=
  on_array (fun j arr => json_array_append_number j arr value).
Definition json_set_number (name : string) (value : Z) : MJ unit :=
  on_object (fun j obj => json_object_set_number j obj name value).
Definition json_write_number (name : name) (value : Z) : MJ unit :=
  match name with None => json_append_number value | Some name => json_set_number name value end.
Definition json_write_integer (name : IoCodec.name) (value : Z) : MJ unit := json_write_number name (double_of_int value).
Definition json_write_uinteger (name : IoCodec.name) (value : Z) : MJ unit := json_write_number name (double_of_int value).

Definition json_append_bool (value : bool) : MJ unit :=
  on_array (fun j arr => json_array_append_boolean j arr value).
Definition json_set_bool (name : string) (value : bool) : MJ unit :=
  on_object (fun j obj => json_object_set_boolean j obj name value).
Definition json_write_bool (name : name) (value : bool) : MJ unit :=
  match name with None => json_append_bool value | Some name => json_set_bool name value end.

Definition json_append_string (value : bytes) : MJ unit :=
  on_array (fun j arr => json_array_append_string j arr value).
Definition json_set_string (name : string) (value : bytes) : MJ unit :=
  on_object (fun j obj => json_object_set_string j obj name value).
Definition json_write_string (name : name) (value : bytes) : MJ unit :=
  match name with None => json_append_string value | Some name => json_set_string name value end.

Definition json_write_bin (name : name) (value : bytes) : MJ unit :=
  if bool_decide (zlen value = 0) then json_write_string name []
  else match Base64_Encode_Bytes value with
       | None => fail er_out_of_memory
       | Some base64 => json_write_string name base64
       end.

(** A context for the value [v]. *)
Definition child (c : ctx) (v : V) : ctx :=
  {| ctx_node := v; ctx_index := 0; ctx_default_allocator := ctx_default_allocator c |}.

(** A new value [init] that is put somewhere by [put]. *)
Definition add_value (init : J -> J * option V) (put : J -> V -> J * bool) : MJ ctx := fun w c =>
  let '(j, value) := init (w_doc w) in
  match value with
  | None => Err er_out_of_memory
  | Some value =>
      let '(j, ok) := put j value in
      if (ok : bool) then Ok (child c value, doc w j, c) else Err er_out_of_memory
  end.

Definition json_write_array (name : name) (count : Z) : MJ ctx := fun w c =>
  let obj := json_value_get_object (w_doc w) (ctx_node c) in
  add_value json_value_init_array (fun j value => json_object_set_value j obj name value) w c.

Definition json_write_object (name : name) (is_null : bool) : MJ ctx := fun w c =>
  let value := ctx_node c in
  let init := if is_null then json_value_init_null else json_value_init_object in
  let type := json_value_get_type (w_doc w) value in
  if bool_decide (type = JSONArray) then
    match json_value_get_array (w_doc w) value with
    | None => Err er_invalid_format
    | Some arr => add_value init (fun j value => json_array_append_value j (Some arr) value) w c
    end
  else if bool_decide (type <> JSONObject) then Err er_arg
  else match name with
       | Some name =>
           match json_value_get_object (w_doc w) value with
           | None => Err er_invalid_format
           | Some obj => add_value init (fun j value => json_object_set_value j (Some obj) (Some name) value) w c
           end
       | None => Ok (child c value, w, c)
       end.

Definition json_write_type_begin (members : Z) : MJ unit := mret tt.
Definition json_write_type_end : MJ unit := mret tt.

(** [ctx->index++] *)
Definition next_index (c : ctx) : ctx :=
  {| ctx_node := ctx_node c; ctx_index := ctx_index c + 1; ctx_default_allocator := ctx_default_allocator c |}.

(** The next element of the array, and the member of the object. *)
Definition next_value : MJ (option V) := fun w c =>
  let j := w_doc w in
  Ok (json_array_get_value j (json_value_get_array j (ctx_node c)) (ctx_index c), w, next_index c).
Definition get_value (name : string) : MJ (option V) := fun w c =>
  let j := w_doc w in
  Ok (json_object_get_value j (json_value_get_object j (ctx_node c)) name, w, c).
Definition read_value (name : name) : MJ (option V) :=
  match name with None => next_value | Some name => get_value name end.

(** A value of the type, or an error. *)
Definition typed (type : JSON_Value_Type) (val : option V) : MJ V := fun w c =>
  match val with
  | Some val => if bool_decide (type = json_value_get_type (w_doc w) val) then Ok (val, w, c) else Err er_invalid_format
  | None => Err er_invalid_format
  end.
Definition look {A} (f : J -> V -> A) (val : V) : MJ A := fun w c => Ok (f (w_doc w) val, w, c).

Definition json_next_number : MJ Z :=
  val ← next_value; val ← typed JSONNumber val; look json_value_get_number val.
Definition json_get_number (name : string) : MJ Z :=
  val ← get_value name; val ← typed JSONNumber val; look json_value_get_number val.
Definition json_read_number (name : name) : MJ Z :=
  match name with None => json_next_number | Some name => json_get_number name end.

(** The conversions are undefined for a number that is out of the range of the type. *)
Definition json_read_integer (name : name) : MJ Z :=
  number ← json_read_number name;
  lift (match int_of_double number with
        | Some z => if bool_decide (in_i64 z) then Ok z else UB
        | None => UB
        end).
Definition json_read_uinteger (name : name) : MJ Z :=
  number ← json_read_number name;
  lift (match int_of_double number with
        | Some z => if bool_decide (in_u64 z) then Ok z else UB
        | None => UB
        end).

Definition json_next_bool : MJ bool :=
  val ← next_value; val ← typed JSONBoolean val; look json_value_get_boolean val.
Definition json_get_bool (name : string) : MJ bool :=
  val ← get_value name; val ← typed JSONBoolean val; look json_value_get_boolean val.
Definition json_read_bool (name : name) : MJ bool :=
  match name with None => json_next_bool | Some name => json_get_bool name end.

(** Ask for [len] bytes and store what [data] is of the size that was given. *)
Definition allocate (a : allocator) (len : Z) (data : Z -> res bytes) : MJ (ptr * Z) := fun w c =>
  '(p, size, mu) ← a len (w_mem w);
  bs ← data size;
  '(p, mu) ← store mu p 0 bs;
  Ok ((p, size), {| w_doc := w_doc w; w_mem := mu |}, c).

Definition json_read_string (name : name) (a : allocator) : MJ (ptr * Z) :=
  val ← read_value name;
  val ← typed JSONString val;
  string_value ← look json_value_get_string val;
  allocate a (zlen string_value + 1) (fun _ => Ok (string_value ++ [0])).

Definition json_read_bin (name : name) (a : allocator) : MJ (ptr * Z) :=
  val ← read_value name;
  val ← typed JSONString val;
  string_value ← look json_value_get_string val;
  if bool_decide (zlen string_value = 0) then mret (p_null, 0)
  else match Base64_Decoder string_value with
       | None => fail er_out_of_memory
       | Some decoded => allocate a (zlen decoded) (fun size => chk (mem_read decoded 0 size))
       end.

Definition json_read_type_begin : MJ unit := mret tt.
Definition json_read_type_end : MJ unit := mret tt.

(** [flag]: whether [is_null] is not NULL. *)
Definition json_read_object (name : name) (flag : bool) : MJ (bool * ctx) := fun w c =>
  let j := w_doc w in
  '(val, w, c) ← (match name with
                  | None =>
                      let type := json_value_get_type j (ctx_node c) in
                      if bool_decide (type = JSONArray) then next_value w c
                      else if bool_decide (type <> JSONObject) then Err er_arg
                      else Ok (Some (ctx_node c), w, c)
                  | Some name => get_value name w c
                  end);
  match val with
  | None => Err er_invalid_format
  | Some val =>
      let type := json_value_get_type j val in
      if bool_decide (type = JSONNull) then
        if flag then Ok ((true, child c val), w, c) else UB
      else if bool_decide (type = JSONObject) then
        if flag then Ok ((false, child c val), w, c) else UB
      else Err er_arg
  end.

Definition json_read_array (name : name) : MJ (Z * ctx) :=
  val ← read_value name;
  val ← typed JSONArray val;
  (fun w c => Ok ((json_array_get_count (w_doc w) (json_value_get_array (w_doc w) val), child c val), w, c)) : MJ (Z * ctx).

Definition json_codec : io_codec J V := {|
  codec_id := io_codec_json;
  enc_int := json_write_integer;
  enc_uint := json_write_uinteger;
  enc_decimal := json_write_number;
  enc_bool := json_write_bool;
  enc_string := json_write_string;
  enc_bin := json_write_bin;
  enc_object := json_write_object;
  enc_tbegin := json_write_type_begin;
  enc_tend := json_write_type_end;
  enc_array := json_write_array;
  dec_int := json_read_integer;
  dec_uint := json_read_uinteger;
  dec_double := json_read_number;
  dec_bool := json_read_bool;
  dec_string := json_read_string;
  dec_bin := json_read_bin;
  dec_object := json_read_object;
  dec_tbegin := json_read_type_begin;
  dec_tend := json_read_type_end;
  dec_array := json_read_array;
|}.

(** ** The start and the end of a document *)
Section Ends.
Context {St : Type} (stream : io_stream St).

(** [alloc]: whether the buffer can be resized to so many bytes.  [None]: out of fuel. *)
Fixpoint json_read_stream (fuel : nat) (alloc : Z -> bool) (s : St) (buffer : bytes) : option (res (bytes * St)) :=
  match fuel with
  | O => None
  | S fuel =>
      let avail := io_stream_readable stream s in
      if bool_decide (avail = 0) then
        Some (if bool_decide (zlen buffer = 0) then Err er_reading else Ok (buffer, s))
      else
        let avail := Z.min avail 4096 in
        if alloc (zlen buffer + avail + 1) then
          let '(s, result, data) := io_stream_read stream s avail in
          if bool_decide (result <> er_ok) then Some (Err result)
          else json_read_stream fuel alloc s (buffer ++ data)
        else Some (Err er_out_of_memory)
  end.

Definition first_ctx (v : V) : ctx := {| ctx_node := v; ctx_index := 0; ctx_default_allocator := None |}.

(** The text ends before the first 0.  A context that is not read from the stream is
    given without a check of the value. *)
Definition json_init_ctx (fuel : nat) (alloc : Z -> bool) (j : J) (s : St) (init_from_stream : bool) :
    option (res (J * option ctx * St)) :=
  if init_from_stream then
    match json_read_stream fuel alloc s [] with
    | None => None
    | Some (Ok (buffer, s)) =>
        let '(j, v) := json_parse_string_with_comments j (cstr buffer) in
        Some (match v with
              | None => Err er_invalid_format
              | Some v => Ok (j, Some (first_ctx v), s)
              end)
    | Some (Err e) => Some (Err e)
    | Some UB => Some UB
    end
  else
    let '(j, v) := json_value_init_object j in
    Some (Ok (j, first_ctx <$> v, s)).

(** What was written when there is nothing to print is nothing. *)
Definition json_fini_ctx (alloc : Z -> bool) (j : J) (c : ctx) (s : St) (flush : bool) : J * St * res unit :=
  let val := ctx_node c in
  let '(s, result) :=
    if flush then
      let buf_size := json_serialization_size_pretty j val in
      if bool_decide (buf_size = 0) then (s, Ok tt)
      else if alloc buf_size then
        match json_serialize_to_buffer_pretty j val buf_size with
        | None => (s, Err er_writing)
        | Some buffer =>
            let '(s, result) := io_stream_reset stream s in
            if bool_decide (result <> er_ok) then (s, Err result)
            else io_stream_write stream s (take (Z.to_nat (buf_size - 1)) buffer)
        end
      else (s, Err er_out_of_memory)
    else (s, Ok tt) in
  (json_value_free j val, s, result).
End Ends.
End Codec.
End Json.
