(* ===== verification/JsonSpec.v ===== *)
(** * The JSON codec keeps the promises of a codec

    What is documented of the parson library ([parson_laws]) and of base 64
    ([base64_laws]); the documents that JSON can hold ([ok]: numbers of at most 53 bits,
    strings that are text, members with different names); and the laws of IoCodecSpec for
    the codec of Json. *)
From stdpp Require Import base option list numbers strings sets.
From S2P Require Import Prelude PrxTypes IoStream IoMem IoCodec IoCodecSpec Json.
Import PrxTypes IoStream IoMem IoCodec IoCodecSpec Json.
Open Scope Z_scope.

Module JsonSpec.

(** ** Numbers *)

Lemma double_parts s e f : 0 <= s <= 1 -> 0 <= e < 2048 -> 0 <= f < 2 ^ 52 ->
  let d := s * 2 ^ 63 + e * 2 ^ 52 + f in
  (d / 2 ^ 52) mod 2048 = e /\ d mod 2 ^ 52 = f /\ (2 ^ 63 <= d <-> s = 1).
Proof.
  intros Hs He Hf. cbv zeta. replace (s * 2 ^ 63 + e * 2 ^ 52 + f) with (f + (s * 2048 + e) * 2 ^ 52) by lia.
  split_and!; [| |lia].
  - rewrite Z.div_add, (Z.div_small f), Z.add_0_l, Z.add_comm, Z.mod_add, Z.mod_small by lia. done.
  - rewrite Z.mod_add, Z.mod_small by lia. done.
Qed.

(** Integers of up to 53 bits are doubles. *)
Lemma double_exact z : - 2 ^ 53 <= z <= 2 ^ 53 -> int_of_double (double_of_int z) = Some z.
Proof.
  intros Hz. unfold double_of_int. case_bool_decide as H0; [by subst|].
  set (s := if bool_decide (z < 0) then 1 else 0).
  assert (Hs : 0 <= s <= 1) by (unfold s; case_bool_decide; lia).
  assert (Hsz : (if bool_decide (s = 1) then - Z.abs z else Z.abs z) = z).
  { unfold s. destruct (decide (z < 0)).
    - rewrite (bool_decide_eq_true_2 (z < 0)), bool_decide_eq_true_2 by done. lia.
    - rewrite (bool_decide_eq_false_2 (z < 0)), bool_decide_eq_false_2 by done. lia. }
  replace (if bool_decide (z < 0) then 2 ^ 63 else 0) with (s * 2 ^ 63) by (unfold s; by destruct (bool_decide (z < 0))).
  clearbody s. set (a := Z.abs z) in *. assert (Ha : 0 < a <= 2 ^ 53) by lia.
  destruct (Z.log2_spec a ltac:(lia)) as [Hl Hu]. pose proof (Z.log2_nonneg a) as Hn.
  cbv zeta. set (e := Z.log2 a) in *. clearbody e a.
  assert (He : e <= 53).
  { destruct (decide (e <= 53)); [done|]. assert (2 ^ 54 <= 2 ^ e) by (apply Z.pow_le_mono_r; lia). lia. }
  rewrite Z.pow_succ_r in Hu by lia. destruct (decide (e <= 52)) as [Hc|Hc];
    [rewrite (bool_decide_eq_true_2 (e <= 52)) by done|rewrite (bool_decide_eq_false_2 (e <= 52)) by done].
  - assert (Hp : 2 ^ 52 = 2 ^ e * 2 ^ (52 - e)) by (rewrite <- Z.pow_add_r by lia; f_equal; lia).
    set (m := a * 2 ^ (52 - e)). assert (0 < 2 ^ (52 - e)) by (apply Z.pow_pos_nonneg; lia).
    assert (Hm : 2 ^ 52 <= m < 2 * 2 ^ 52) by (unfold m; nia).
    destruct (double_parts s (e + 1023) (m - 2 ^ 52)) as (E1 & E2 & E3); [done|lia|lia|].
    unfold int_of_double. rewrite E1, E2. rewrite bool_decide_eq_false_2 by lia.
    replace (e + 1023 - 1023) with e by lia. rewrite (bool_decide_eq_false_2 (e < 0)), (bool_decide_eq_true_2 (e <= 52)) by lia.
    replace (2 ^ 52 + (m - 2 ^ 52)) with m by lia. unfold m. rewrite Z.div_mul by lia.
    f_equal. rewrite (bool_decide_ext _ _ E3). done.
  - assert (e = 53) as -> by lia. assert (a = 2 ^ 53) as -> by lia.
    change (2 ^ 53 / 2 ^ (53 - 52)) with (2 ^ 52). change (2 ^ 53 mod 2 ^ (53 - 52)) with 0.
    rewrite bool_decide_eq_false_2 by (intros [?|[? ?]]; [lia|done]).
    destruct (double_parts s (53 + 1023) (2 ^ 52 - 2 ^ 52)) as (E1 & E2 & E3); [done|lia|lia|].
    unfold int_of_double. rewrite E1, E2. change (53 + 1023 - 1023) with 53. 
    rewrite (bool_decide_eq_false_2 (53 = 1024)), (bool_decide_eq_false_2 (53 < 0)), (bool_decide_eq_false_2 (53 <= 52)) by lia. f_equal. rewrite (bool_decide_ext _ _ E3). done.
Qed.

(** ** Places in a tree *)

Inductive step := key (n : string) | elem (i : nat).
#[export] Instance step_eq_dec : EqDecision step.
Proof. solve_decision. Defined.
Abbreviation path := (list step).

Fixpoint jlookup (n : string) (ms : list (string * json)) : option json :=
  match ms with
  | [] => None
  | (k, v) :: ms => if bool_decide (k = n) then Some v else jlookup n ms
  end.
Fixpoint jalter (f : json -> json) (n : string) (ms : list (string * json)) : list (string * json) :=
  match ms with
  | [] => []
  | (k, v) :: ms => if bool_decide (k = n) then (k, f v) :: ms else (k, v) :: jalter f n ms
  end.

Fixpoint json_at (t : json) (p : path) : option json :=
  match p with
  | [] => Some t
  | key n :: p => match t with JObject ms => jlookup n ms ≫= fun u => json_at u p | _ => None end
  | elem i :: p => match t with JArray vs => vs !! i ≫= fun u => json_at u p | _ => None end
  end.
Fixpoint json_set (p : path) (x t : json) : json :=
  match p with
  | [] => x
  | key n :: p => match t with JObject ms => JObject (jalter (json_set p x) n ms) | _ => t end
  | elem i :: p => match t with JArray vs => JArray (alter (json_set p x) i vs) | _ => t end
  end.

Lemma jlookup_alter f n ms : jlookup n (jalter f n ms) = f <$> jlookup n ms.
Proof.
  induction ms as [|[k v] ms IH]; cbn; [done|]. destruct (decide (k = n)) as [->|Hk].
  - rewrite bool_decide_eq_true_2 by done. cbn. by rewrite bool_decide_eq_true_2.
  - rewrite !(bool_decide_eq_false_2 (k = n)) by done. cbn. by rewrite bool_decide_eq_false_2.
Qed.
Lemma jalter_alter f g n ms : jalter f n (jalter g n ms) = jalter (f ∘ g) n ms.
Proof.
  induction ms as [|[k v] ms IH]; cbn; [done|]. destruct (decide (k = n)) as [->|Hk].
  - rewrite !(bool_decide_eq_true_2 (n = n)) by done. cbn. by rewrite bool_decide_eq_true_2.
  - rewrite !(bool_decide_eq_false_2 (k = n)) by done. cbn. rewrite bool_decide_eq_false_2 by done. by rewrite IH.
Qed.
Lemma jalter_ext f g n ms u : jlookup n ms = Some u -> f u = g u -> jalter f n ms = jalter g n ms.
Proof.
  induction ms as [|[k v] ms IH]; cbn; [done|]. case_bool_decide; [intros [= ->] ->; done|].
  intros E1 E2. f_equal. by apply IH.
Qed.
Lemma jalter_id n ms : jalter id n ms = ms.
Proof. induction ms as [|[k v] ms IH]; cbn; [done|]. case_bool_decide; [done|]. by f_equal. Qed.
Lemma jlookup_new n t ms : n ∉ ms.*1 -> jlookup n (ms ++ [(n, t)]) = Some t.
Proof.
  induction ms as [|[k v] ms IH]; cbn; [by rewrite bool_decide_eq_true_2|]. intros Hn.
  rewrite bool_decide_eq_false_2 by set_solver. apply IH. set_solver.
Qed.
Lemma jalter_new f n t ms : n ∉ ms.*1 -> jalter f n (ms ++ [(n, t)]) = ms ++ [(n, f t)].
Proof.
  induction ms as [|[k v] ms IH]; cbn; [by rewrite bool_decide_eq_true_2|]. intros Hn.
  rewrite bool_decide_eq_false_2 by set_solver. f_equal. apply IH. set_solver.
Qed.
Lemma jlookup_in n t ms : NoDup ms.*1 -> (n, t) ∈ ms -> jlookup n ms = Some t.
Proof.
  induction ms as [|[k v] ms IH]; cbn; [set_solver|]. intros [Hk Hd]%list.NoDup_cons Hin.
  apply elem_of_cons in Hin as [[= -> ->]|Hin]; [by rewrite bool_decide_eq_true_2|].
  rewrite bool_decide_eq_false_2; [by apply IH|]. intros ->. apply Hk. apply list_elem_of_fmap. by exists (n, t).
Qed.

Lemma json_at_app t p q : json_at t (p ++ q) = json_at t p ≫= fun u => json_at u q.
Proof.
  revert t. induction p as [|[n|i] p IH]; intros t; cbn; [done| |].
  - destruct t as [| | | |ms|vs]; cbn; try done. destruct (jlookup n ms); cbn; [apply IH|done].
  - destruct t as [| | | |ms|vs]; cbn; try done. destruct (vs !! i); cbn; [apply IH|done].
Qed.
Lemma at_set p x : forall t u, json_at t p = Some u -> json_at (json_set p x t) p = Some x.
Proof.
  induction p as [|[n|i] p IH]; intros t u; cbn; [done| |].
  - destruct t as [| | | |ms|vs]; cbn; try done. rewrite jlookup_alter. destruct (jlookup n ms); cbn; [apply IH|done].
  - destruct t as [| | | |ms|vs]; cbn; try done. rewrite list_lookup_alter_eq. destruct (vs !! i); cbn; [apply IH|done].
Qed.
Lemma set_app p q x : forall t u, json_at t p = Some u -> json_set p (json_set q x u) t = json_set (p ++ q) x t.
Proof.
  induction p as [|[n|i] p IH]; intros t u; cbn; [by intros [= ->]| |].
  - destruct t as [| | | |ms|vs]; cbn; try done. destruct (jlookup n ms) as [v|] eqn:E; cbn; [|done].
    intros Hu. f_equal. eapply jalter_ext; [done|]. by apply IH.
  - destruct t as [| | | |ms|vs]; cbn; try done. destruct (vs !! i) as [v|] eqn:E; cbn; [|done].
    intros Hu. f_equal. apply list_eq. intros k. destruct (decide (i = k)) as [<-|Hk].
    + rewrite !list_lookup_alter_eq, E. cbn. f_equal. by apply IH.
    + by rewrite !list_lookup_alter_ne.
Qed.
Lemma set_set p x y : forall t u, json_at t p = Some u -> json_set p y (json_set p x t) = json_set p y t.
Proof.
  induction p as [|[n|i] p IH]; intros t u; cbn; [done| |].
  - destruct t as [| | | |ms|vs]; cbn; try done. destruct (jlookup n ms) as [v|] eqn:E; cbn; [|done].
    intros Hu. f_equal. rewrite jalter_alter. eapply jalter_ext; [done|]. cbn. by eapply IH.
  - destruct t as [| | | |ms|vs]; cbn; try done. destruct (vs !! i) as [v|] eqn:E; cbn; [|done].
    intros Hu. f_equal. apply list_eq. intros k. destruct (decide (i = k)) as [<-|Hk].
    + rewrite !list_lookup_alter_eq, E. cbn. f_equal. by eapply IH.
    + by rewrite !list_lookup_alter_ne.
Qed.
Lemma set_same p : forall t u, json_at t p = Some u -> json_set p u t = t.
Proof.
  induction p as [|[n|i] p IH]; intros t u; cbn; [by intros [= ->]| |].
  - destruct t as [| | | |ms|vs]; cbn; try done. destruct (jlookup n ms) as [v|] eqn:E; cbn; [|done].
    intros Hu. f_equal. rewrite <- (jalter_id n ms) at 2. eapply jalter_ext; [done|]. cbn. by apply IH.
  - destruct t as [| | | |ms|vs]; cbn; try done. destruct (vs !! i) as [v|] eqn:E; cbn; [|done].
    intros Hu. f_equal. apply list_eq. intros k. destruct (decide (i = k)) as [<-|Hk].
    + rewrite !list_lookup_alter_eq, E. cbn. f_equal. by apply IH.
    + by rewrite !list_lookup_alter_ne.
Qed.

(** ** What is documented of the libraries *)

Definition type_of (t : json) : JSON_Value_Type :=
  match t with
  | JNull => JSONNull | JBool _ => JSONBoolean | JNumber _ => JSONNumber | JString _ => JSONString
  | JObject _ => JSONObject | JArray _ => JSONArray
  end.

(** [tree j r]: the tree of a value that is no part of another; [at_path j r p v]: the
    pointer [v] is to the place [p] in the tree of [r]; [enough]: memory is not exhausted;
    [text]: the strings that can be stored. *)
Class parson_view {PA : parson} := {
  tree : J -> V -> option json;
  at_path : J -> V -> path -> V -> Prop;
  enough : J -> Prop;
  text : bytes -> Prop;
}.

Section Words.
Context `{PV : parson_view}.

Definition node (j : J) (r : V) (p : path) (v : V) (t : json) : Prop :=
  at_path j r p v /\ exists T, tree j r = Some T /\ json_at T p = Some t.

(** The place [p] under [r] was set to [x]; pointers stay where they were. *)
Definition updates (j j' : J) (r : V) (p : path) (x : json) : Prop :=
  enough j' /\ (forall T, tree j r = Some T -> tree j' r = Some (json_set p x T)) /\
  (forall q v, at_path j r q v -> at_path j' r q v).

Definition allocates (init : J -> J * option V) (t : json) : Prop :=
  forall j, enough j -> exists j' v, init j = (j', Some v) /\ enough j' /\ tree j' v = Some t /\
    (forall r T, tree j r = Some T -> r <> v /\ tree j' r = Some T) /\
    (forall r q w, at_path j r q w -> at_path j' r q w).

(** A member is added to an object, and an element to an array. *)
Definition sets {X} (set : J -> option V -> string -> X -> J * bool) (x : X) (t : json) : Prop :=
  forall j r p v ms n, enough j -> node j r p v (JObject ms) -> n ∉ ms.*1 ->
  exists j', set j (Some v) n x = (j', true) /\ updates j j' r p (JObject (ms ++ [(n, t)])).
Definition appends {X} (app : J -> option V -> X -> J * bool) (x : X) (t : json) : Prop :=
  forall j r p v vs, enough j -> node j r p v (JArray vs) ->
  exists j', app j (Some v) x = (j', true) /\ updates j j' r p (JArray (vs ++ [t])).

(** Trees that are printed as they are: integers of up to 53 bits, and text. *)
Fixpoint plain (t : json) : Prop :=
  match t with
  | JNull | JBool _ => True
  | JNumber d => exists z, - 2 ^ 53 <= z <= 2 ^ 53 /\ d = double_of_int z
  | JString s => text s
  | JObject ms => foldr (fun f P => plain (snd f) /\ P) True ms /\ NoDup (ms.*1)
  | JArray vs => foldr (fun v P => plain v /\ P) True vs
  end.
End Words.

Class parson_laws {PA : parson} {PV : parson_view} := {
  text_clean s : text s -> 0 ∉ s;
  text_ascii s : Forall (fun b => 0 < b < 128) s -> text s;
  at_root j r T : tree j r = Some T -> at_path j r [] r;
  at_unique j r p r' p' v : at_path j r p v -> at_path j r' p' v -> r = r' /\ p = p';
  init_object_law : allocates json_value_init_object (JObject []);
  init_array_law : allocates json_value_init_array (JArray []);
  init_null_law : allocates json_value_init_null JNull;
  get_type_law j r p v t : node j r p v t -> json_value_get_type j v = type_of t;
  get_object_law j r p v ms : node j r p v (JObject ms) -> json_value_get_object j v = Some v;
  get_array_law j r p v vs : node j r p v (JArray vs) -> json_value_get_array j v = Some v;
  get_number_law j r p v d : node j r p v (JNumber d) -> json_value_get_number j v = d;
  get_boolean_law j r p v b : node j r p v (JBool b) -> json_value_get_boolean j v = b;
  get_string_law j r p v s : node j r p v (JString s) -> json_value_get_string j v = s;
  get_member_law j r p v ms n t : node j r p v (JObject ms) -> jlookup n ms = Some t ->
    exists w, json_object_get_value j (Some v) n = Some w /\ at_path j r (p ++ [key n]) w;
  get_element_law j r p v vs i t : node j r p v (JArray vs) -> vs !! i = Some t ->
    exists w, json_array_get_value j (Some v) (Z.of_nat i) = Some w /\ at_path j r (p ++ [elem i]) w;
  get_count_law j r p v vs : node j r p v (JArray vs) -> json_array_get_count j (Some v) = zlen vs;
  set_number_law d : sets json_object_set_number d (JNumber d);
  set_boolean_law b : sets json_object_set_boolean b (JBool b);
  set_string_law s : text s -> sets json_object_set_string s (JString s);
  append_number_law d : appends json_array_append_number d (JNumber d);
  append_boolean_law b : appends json_array_append_boolean b (JBool b);
  append_string_law s : text s -> appends json_array_append_string s (JString s);
  (** A value that is no part of another becomes a part. *)
  set_value_law j r p v ms n w t : enough j -> node j r p v (JObject ms) -> n ∉ ms.*1 ->
    tree j w = Some t -> w <> r ->
    exists j', json_object_set_value j (Some v) (Some n) w = (j', true) /\
      updates j j' r p (JObject (ms ++ [(n, t)])) /\ at_path j' r (p ++ [key n]) w;
  append_value_law j r p v vs w t : enough j -> node j r p v (JArray vs) ->
    tree j w = Some t -> w <> r ->
    exists j', json_array_append_value j (Some v) w = (j', true) /\
      updates j j' r p (JArray (vs ++ [t])) /\ at_path j' r (p ++ [elem (length vs)]) w;
  (** What is printed is parsed to the same tree. *)
  print_law j v T : enough j -> tree j v = Some T -> plain T ->
    exists bs, bs <> [] /\ 0 ∉ bs /\ json_serialization_size_pretty j v = zlen bs + 1 /\
      json_serialize_to_buffer_pretty j v (zlen bs + 1) = Some (bs ++ [0]) /\
      forall j0, enough j0 -> exists j1 w, json_parse_string_with_comments j0 bs = (j1, Some w) /\
        enough j1 /\ tree j1 w = Some T;
}.

Class base64_laws {B64 : base64} {PA : parson} {PV : parson_view} := {
  base64_roundtrip b : b <> [] -> wf_bytes b ->
    exists s, Base64_Encode_Bytes b = Some s /\ s <> [] /\ text s /\ Base64_Decoder s = Some b;
}.

(** ** Documents as trees *)

Abbreviation names fs := (omap (M := list) fst fs).

Section Trees.
Context {PA : parson} {PV : parson_view} {B64 : base64}.

Definition b64 (b : bytes) : bytes := if bool_decide (zlen b = 0) then [] else default [] (Base64_Encode_Bytes b).

(** The members a field gives: the object without a name is the document itself. *)
Definition entry (n : name) (t : json) : list (string * json) :=
  match n, t with
  | Some n, t => [(n, t)]
  | None, JObject ms => ms
  | None, _ => []
  end.

Fixpoint json_of (v : value) : json :=
  match v with
  | VInt z | VUint z => JNumber (double_of_int z)
  | VBool b => JBool b
  | VStr s => JString s
  | VBin b => JString (b64 b)
  | VNull => JNull
  | VObj ms => JObject (flat_map (fun f => entry (fst f) (json_of (snd f))) ms)
  | VArr vs => JArray (map json_of vs)
  end.
Definition members (fs : list field) : list (string * json) := flat_map (fun f => entry (fst f) (json_of (snd f))) fs.

Definition not_array (v : value) : Prop := match v with VArr _ => False | _ => True end.

(** What can be stored. *)
Fixpoint ok (v : value) : Prop :=
  match v with
  | VInt z => - 2 ^ 53 <= z <= 2 ^ 53
  | VUint z => 0 <= z <= 2 ^ 53
  | VBool _ | VNull => True
  | VStr s => text s
  | VBin b => wf_bytes b
  | VObj ms => foldr (fun f P => (fst f <> None /\ ok (snd f)) /\ P) True ms /\ NoDup (names ms)
  | VArr vs => foldr (fun v P => (not_array v /\ ok v) /\ P) True vs
  end.

Definition ok_member (f : field) : Prop := fst f <> None /\ ok (snd f).
Definition ok_element (f : field) : Prop := fst f = None /\ not_array (snd f) /\ ok (snd f).

Lemma ok_obj ms : ok (VObj ms) <-> Forall ok_member ms /\ NoDup (names ms).
Proof.
  cbn. assert (foldr (fun f P => (fst f <> None /\ ok (snd f)) /\ P) True ms <-> Forall ok_member ms) as ->; [|done].
  induction ms as [|f ms IH]; cbn; [split; constructor|]. by rewrite IH, Forall_cons.
Qed.
Lemma ok_arr vs : ok (VArr vs) <-> Forall ok_element (elems vs).
Proof.
  cbn. unfold elems. induction vs as [|v vs IH]; cbn; [split; constructor|]. rewrite IH, Forall_cons.
  unfold ok_element at 2. cbn. naive_solver.
Qed.

Lemma members_names fs : Forall ok_member fs -> (members fs).*1 = names fs.
Proof.
  induction 1 as [|[[n|] v] fs [Hn _] Hfs IH]; cbn; [done| |done]. unfold members in IH. by rewrite IH.
Qed.
Lemma members_app fs fs' : members (fs ++ fs') = members fs ++ members fs'.
Proof. apply flat_map_app. Qed.
Lemma members_in fs n v : Forall ok_member fs -> (Some n, v) ∈ fs -> (n, json_of v) ∈ members fs.
Proof.
  intros _. induction fs as [|[m w] fs IH]; [set_solver|]. intros Hin. unfold members. cbn.
  apply elem_of_app. apply elem_of_cons in Hin as [[= <- <-]|Hin]; [left; cbn; set_solver|right; by apply IH].
Qed.
End Trees.

(** ** Writing *)
Section Enc.
Context {PA : parson} {PV : parson_view} {B64 : base64} {PL : parson_laws} {BL : base64_laws}.
Abbreviation ctx := (io_codec_ctx V).

(** The tree of an object or an array after the fields were added. *)
Definition extend (t : json) (fs : list field) : json :=
  match t with
  | JObject ms => JObject (ms ++ members fs)
  | JArray vs => JArray (vs ++ map (json_of ∘ snd) fs)
  | t => t
  end.

Definition fits (ms : list (string * json)) (fs : list field) : Prop :=
  Forall ok_member fs /\ NoDup (ms.*1 ++ names fs).

(** Whether fields can be added: members with new names, elements, or the one object of
    the document. *)
Definition accepts (t : json) (fs : list field) : Prop :=
  match t with
  | JObject ms => fits ms fs \/ exists ms', fs = [(None, VObj ms')] /\ fits ms ms'
  | JArray _ => Forall ok_element fs
  | _ => False
  end.

#[export] Instance json_enc_view : enc_view J V := {|
  can_emit j c fs := enough j /\ exists r p t, node j r p (ctx_node c) t /\ accepts t fs;
  stepped j v fs j' := exists r p t, node j r p v t /\ updates j j' r p (extend t fs);
  can_open j c fs := enough j /\ exists r p ms, node j r p (ctx_node c) (JObject ms) /\ fits ms fs;
  wrote_obj j v fs j' := exists r p t, node j r p v t /\ updates j j' r p (extend t fs);
|}.

Lemma extend_nil t : extend t [] = t.
Proof. destruct t; cbn; by rewrite ?app_nil_r. Qed.
Lemma extend_app t fs fs' : extend (extend t fs) fs' = extend t (fs ++ fs').
Proof. destruct t; cbn; try done; rewrite <- app_assoc; f_equal; [by rewrite members_app|by rewrite map_app]. Qed.

Lemma node_unique j r p v t r' p' t' : node j r p v t -> node j r' p' v t' -> r = r' /\ p = p' /\ t = t'.
Proof.
  intros [H1 (T & E1 & E2)] [H2 (T' & E3 & E4)]. destruct (at_unique j r p r' p' v H1 H2) as [<- <-]. split_and!; congruence.
Qed.

Lemma updates_node j j' r p v t x : node j r p v t -> updates j j' r p x -> node j' r p v x.
Proof.
  intros [Ha (T & E1 & E2)] (_ & Ht & Hk). split; [by apply Hk|]. exists (json_set p x T). split; [by apply Ht|]. by eapply at_set.
Qed.
Lemma updates_trans j j1 j2 r p v t x y : node j r p v t -> updates j j1 r p x -> updates j1 j2 r p y -> updates j j2 r p y.
Proof.
  intros [Ha (T & E1 & E2)] (_ & Ht & Hk) (He & Ht' & Hk'). split_and!; [done| |eauto]. intros T' E'.
  assert (T' = T) as -> by congruence. rewrite (Ht' _ (Ht _ E1)). f_equal. by eapply set_set.
Qed.
Lemma updates_refl j r p v t : enough j -> node j r p v t -> updates j j r p t.
Proof.
  intros He [Ha (T & E1 & E2)]. split_and!; [done| |done]. intros T' E'. assert (T' = T) as -> by congruence.
  rewrite E1. f_equal. symmetry. by apply set_same.
Qed.

(** The rest of the fields fits after the first was added. *)
Lemma fits_cons ms n v fs : fits ms ((Some n, v) :: fs) ->
  n ∉ ms.*1 /\ ok v /\ fits (ms ++ [(n, json_of v)]) fs.
Proof.
  intros [[[_ Hv] Hf]%Forall_cons Hd]. cbn in Hv, Hd. split_and!; [|done|split; [done|]].
  - intros Hin. apply NoDup_app in Hd as (_ & Hd & _). apply (Hd n Hin). set_solver.
  - rewrite fmap_app. cbn. rewrite <- app_assoc. done.
Qed.

(** What there is before a field is added, and after. *)
Lemma accepts_field j c n v fs : can_emit j c ((n, v) :: fs) ->
  enough j /\ exists r p t, node j r p (ctx_node c) t /\
  ((exists ms nm, t = JObject ms /\ n = Some nm /\ nm ∉ ms.*1 /\ ok v) \/
   (exists vs, t = JArray vs /\ n = None /\ ok v) \/
   (exists ms ms', t = JObject ms /\ n = None /\ v = VObj ms' /\ fs = [] /\ fits ms ms')) /\
  (forall j' c', ctx_node c' = ctx_node c -> updates j j' r p (extend t [(n, v)]) ->
     stepped j (ctx_node c) [(n, v)] j' /\ can_emit j' c' fs).
Proof.
  intros [He (r & p & t & Hn & Ha)]. split; [done|]. exists r, p, t. split; [done|].
  assert (forall j' c', ctx_node c' = ctx_node c -> updates j j' r p (extend t [(n, v)]) ->
    accepts (extend t [(n, v)]) fs -> stepped j (ctx_node c) [(n, v)] j' /\ can_emit j' c' fs) as Hnext.
  { intros j' c' Hc Hu Hacc. split; [by exists r, p, t|]. split; [by destruct Hu|].
    exists r, p, (extend t [(n, v)]). split; [rewrite Hc; by eapply updates_node|done]. }
  destruct t as [| | | |ms|vs]; try done.
  - destruct Ha as [Hf|(ms' & [= -> -> ->] & Hf)].
    + destruct n as [nm|]; [|by destruct Hf as [[[? _] _]%Forall_cons _]].
      apply fits_cons in Hf as (H1 & H2 & H3). split; [left; eauto 10|].
      intros j' c' Hc Hu. apply Hnext; [done|done|]. cbn. by left.
    + split; [right; right; by exists ms, ms'|]. intros j' c' Hc Hu. apply Hnext; [done|done|]. cbn. left.
      destruct Hf as [Hf Hd]. split; [constructor|]. cbn. rewrite !app_nil_r, fmap_app.
      fold (members ms'). by rewrite members_names.
  - apply Forall_cons in Ha as [(Hn' & _ & Hv) Hf]. cbn in Hn'. subst n. split; [right; left; eauto|].
    intros j' c' Hc Hu. by apply Hnext.
Qed.

(** A number, a boolean or a string. *)
Lemma emits_scalar {X} mu (set : J -> option V -> string -> X -> J * bool) (app : J -> option V -> X -> J * bool) (x : X) n v t :
  json_of v = t -> (forall ms, v <> VObj ms) -> (ok v -> sets set x t /\ appends app x t) ->
  emits mu (match n with None => on_array (fun j a => app j a x) | Some n => on_object (fun j o => set j o n x) end) [(n, v)].
Proof.
  intros <- Hv Hl j c fs' Hc. apply accepts_field in Hc as (He & r & p & t & Hn & Hcase & Hnext).
  destruct Hcase as [(ms & nm & -> & -> & Hnm & Hok)|[(vs & -> & -> & Hok)|(ms & ms' & _ & _ & Hvo & _)]];
    [| |by destruct (Hv ms')]; destruct (Hl Hok) as [Hset Happ].
  - destruct (Hset j r p (ctx_node c) ms nm He Hn Hnm) as (j' & E & Hu). exists j', c.
    unfold on_object. cbn [w_doc]. rewrite (get_object_law j r p _ ms Hn), E. cbn. split; [done|].
    edestruct (Hnext j' c eq_refl) as [? ?]; [exact Hu|done].
  - destruct (Happ j r p (ctx_node c) vs He Hn) as (j' & E & Hu). exists j', c.
    unfold on_array. cbn [w_doc]. rewrite (get_array_law j r p _ vs Hn), E. cbn. split; [done|].
    edestruct (Hnext j' c eq_refl) as [? ?]; [exact Hu|done].
Qed.

(** *** New objects and arrays *)

(** A value is put at the place [p ++ q] as [u], and later set to [y]. *)
Definition nested (j j' : J) (r : V) (p : path) (w : V) (t0 : json) (whole : json -> json) : Prop :=
  updates j j' r p (whole t0) /\ enough j' /\ exists q, node j' r (p ++ q) w t0 /\
  forall j'' y, updates j' j'' r (p ++ q) y -> updates j j'' r p (whole y).

Lemma nested_intro j j' r p v t w t0 q (whole : json -> json) : node j r p v t ->
  updates j j' r p (whole t0) -> at_path j' r (p ++ q) w ->
  json_at (whole t0) q = Some t0 -> (forall y, json_set q y (whole t0) = whole y) ->
  nested j j' r p w t0 whole.
Proof.
  intros Hn Hu Hw Hat Hset. split; [done|]. split; [by destruct Hu|]. exists q.
  pose proof (updates_node _ _ _ _ _ _ _ Hn Hu) as [_ (T' & E1 & E2)]. split.
  - split; [done|]. exists T'. split; [done|]. by rewrite json_at_app, E2.
  - intros j'' y (He & Ht & Hk). destruct Hn as [_ (T & E3 & E4)]. destruct Hu as (_ & Ht' & Hk').
    split_and!; [done| |eauto]. intros T0 E0. assert (T0 = T) as -> by congruence.
    rewrite (Ht _ E1). rewrite <- (set_app p q y T' _ E2), Hset. f_equal.
    assert (T' = json_set p (whole t0) T) as -> by (specialize (Ht' _ E3); congruence). by eapply set_set.
Qed.

Lemma add_member init t0 mu j c r p ms nm : allocates init t0 -> enough j ->
  node j r p (ctx_node c) (JObject ms) -> nm ∉ ms.*1 ->
  exists j' w, add_value init (fun j value => json_object_set_value j (Some (ctx_node c)) (Some nm) value)
      {| w_doc := j; w_mem := mu |} c = Ok (child c w, {| w_doc := j'; w_mem := mu |}, c) /\
    nested j j' r p w t0 (fun y => JObject (ms ++ [(nm, y)])).
Proof.
  intros Hi He Hn Hnm. destruct (Hi j He) as (j1 & w & E1 & He1 & Ht1 & Hkt & Hka).
  pose proof Hn as [Ha (T & E2 & E3)]. destruct (Hkt r T E2) as [Hne Ht2].
  destruct (set_value_law j1 r p (ctx_node c) ms nm w t0) as (j2 & E4 & (He2 & Hu & Hk) & Hw); try done.
  { split; [by apply Hka|]. by exists T. }
  exists j2, w. unfold add_value. cbn [w_doc]. rewrite E1, E4. split; [done|].
  eapply nested_intro with (q := [key nm]); [exact Hn| |done| |].
  - split_and!; [done| |eauto]. intros T' ET. apply Hu. congruence.
  - cbn. by rewrite jlookup_new.
  - intros y. cbn. by rewrite jalter_new.
Qed.

Lemma add_element init t0 mu j c r p vs : allocates init t0 -> enough j ->
  node j r p (ctx_node c) (JArray vs) ->
  exists j' w, add_value init (fun j value => json_array_append_value j (Some (ctx_node c)) value)
      {| w_doc := j; w_mem := mu |} c = Ok (child c w, {| w_doc := j'; w_mem := mu |}, c) /\
    nested j j' r p w t0 (fun y => JArray (vs ++ [y])).
Proof.
  intros Hi He Hn. destruct (Hi j He) as (j1 & w & E1 & He1 & Ht1 & Hkt & Hka).
  pose proof Hn as [Ha (T & E2 & E3)]. destruct (Hkt r T E2) as [Hne Ht2].
  destruct (append_value_law j1 r p (ctx_node c) vs w t0) as (j2 & E4 & (He2 & Hu & Hk) & Hw); try done.
  { split; [by apply Hka|]. by exists T. }
  exists j2, w. unfold add_value. cbn [w_doc]. rewrite E1, E4. split; [done|].
  eapply nested_intro with (q := [elem (length vs)]); [exact Hn| |done| |].
  - split_and!; [done| |eauto]. intros T' ET. apply Hu. congruence.
  - cbn. rewrite lookup_app_r by lia. by rewrite Nat.sub_diag.
  - intros y. cbn. f_equal. apply list_eq. intros k. destruct (decide (k = length vs)) as [->|Hk'].
    + rewrite list_lookup_alter_eq, !lookup_app_r by lia. by rewrite Nat.sub_diag.
    + rewrite list_lookup_alter_ne by done. destruct (decide (k < length vs)%nat).
      * by rewrite !lookup_app_l by lia.
      * rewrite !lookup_app_r by lia. destruct (k - length vs)%nat eqn:E; [lia|done].
Qed.

(** What [json_write_object] does: the value with the members written, or null. *)
Lemma write_object mu is_null j c n v fs : can_emit j c ((n, v) :: fs) ->
  (if is_null : bool then v = VNull else exists ms, v = VObj ms) ->
  exists j' obj, json_write_object n is_null {| w_doc := j; w_mem := mu |} c
      = Ok (obj, {| w_doc := j'; w_mem := mu |}, c) /\ enough j' /\
    exists r p t, node j' r p (ctx_node obj) t /\
      (forall ms, v = VObj ms -> exists ms0, t = JObject ms0 /\ fits ms0 ms) /\
      (v = VNull -> t = JNull) /\
      forall j'', updates j' j'' r p (match v with VObj ms => extend t ms | _ => t end) ->
        stepped j (ctx_node c) [(n, v)] j'' /\ can_emit j'' c fs.
Proof.
  intros Hc Hv. apply accepts_field in Hc as (He & r & p & t & Hn & Hcase & Hnext).
  set (init := if is_null then json_value_init_null else json_value_init_object).
  set (t0 := if is_null then JNull else JObject []).
  assert (Hi : allocates init t0) by (unfold init, t0; destruct is_null; [apply init_null_law|apply init_object_law]).
  assert (Hval : match v with VObj ms => extend t0 ms | _ => t0 end = json_of v).
  { unfold t0. destruct is_null; [by subst|]. by destruct Hv as (ms & ->). }
  assert (Hfit : ok v -> forall ms, v = VObj ms -> exists ms0, t0 = JObject ms0 /\ fits ms0 ms).
  { intros Hok ms ->. unfold t0. destruct is_null; [done|]. exists []. split; [done|]. apply ok_obj in Hok as [? ?]. by split. }
  assert (Hnull : v = VNull -> t0 = JNull) by (intros ->; unfold t0; destruct is_null; [done|by destruct Hv]).
  unfold json_write_object. cbn [w_doc]. rewrite (get_type_law _ _ _ _ _ Hn). fold init.
  destruct Hcase as [(ms & nm & -> & -> & Hnm & Hok)|[(vs & -> & -> & Hok)|(ms & ms' & -> & -> & -> & -> & Hf)]];
    cbn [type_of].
  - destruct (add_member init t0 mu j c r p ms nm Hi He Hn Hnm) as (j' & w & E & Hu & He' & q & Hw & Hnest).
    exists j', (child c w). rewrite (get_object_law _ _ _ _ _ Hn). cbn -[add_value]. split; [exact E|]. split; [done|].
    exists r, (p ++ q), t0. split_and!; [done|by apply Hfit|done|]. intros j'' Hj. rewrite Hval in Hj.
    apply (Hnext j'' c eq_refl). cbn. by apply (Hnest j'').
  - destruct (add_element init t0 mu j c r p vs Hi He Hn) as (j' & w & E & Hu & He' & q & Hw & Hnest).
    exists j', (child c w). rewrite (get_array_law _ _ _ _ _ Hn). cbn -[add_value]. split; [exact E|]. split; [done|].
    exists r, (p ++ q), t0. split_and!; [done|by apply Hfit|done|]. intros j'' Hj. rewrite Hval in Hj.
    apply (Hnext j'' c eq_refl). cbn. by apply (Hnest j'').
  - exists j, (child c (ctx_node c)). split; [done|]. split; [done|]. exists r, p, (JObject ms). cbn [child ctx_node].
    split_and!; [done|intros ? [= <-]; eauto|done|]. intros j'' Hj. apply (Hnext j'' c eq_refl). cbn in *.
    by rewrite app_nil_r.
Qed.

Lemma json_enc_array_law mu n j c vs fs : can_emit j c ((n, VArr vs) :: fs) ->
  exists j' c' arr, json_write_array n (zlen vs) {| w_doc := j; w_mem := mu |} c
      = Ok (arr, {| w_doc := j'; w_mem := mu |}, c') /\ ctx_node c' = ctx_node c /\ can_emit j' arr (elems vs) /\
    forall j'', stepped j' (ctx_node arr) (elems vs) j'' -> stepped j (ctx_node c) [(n, VArr vs)] j'' /\ can_emit j'' c' fs.
Proof.
  intros Hc. pose proof Hc as Hc0. apply accepts_field in Hc as (He & r & p & t & Hn & Hcase & Hnext).
  destruct Hcase as [(ms & nm & -> & -> & Hnm & Hok)|[(ws & -> & -> & Hok)|(ms & ms' & _ & _ & ? & _)]]; [| |done].
  - destruct (add_member _ _ mu j c r p ms nm init_array_law He Hn Hnm) as (j' & w & E & Hu & He' & q & Hw & Hnest).
    exists j', c, (child c w). unfold json_write_array. cbn [w_doc]. rewrite (get_object_law _ _ _ _ _ Hn).
    split; [exact E|]. split; [done|]. split.
    + split; [done|]. exists r, (p ++ q), (JArray []). split; [done|]. by apply ok_arr.
    + intros j'' (r' & p' & t' & Hn' & Hj). destruct (node_unique _ _ _ _ _ _ _ _ Hw Hn') as (<- & <- & <-).
      apply (Hnext j'' c eq_refl). cbn. apply Hnest. cbn in Hj. unfold elems in Hj. rewrite map_map in Hj. exact Hj.
  - destruct Hc0 as [_ (r' & p' & t' & Hn' & Ha)]. destruct (node_unique _ _ _ _ _ _ _ _ Hn Hn') as (<- & <- & <-).
    cbn in Ha. apply Forall_cons in Ha as [(_ & Hna & _) _]. done.
Qed.

Lemma json_stepped_nil j c fs : can_emit j c fs -> stepped j (ctx_node c) [] j.
Proof. intros [He (r & p & t & Hn & _)]. exists r, p, t. split; [done|]. rewrite extend_nil. by eapply updates_refl. Qed.

#[export] Instance json_enc_laws : enc_laws json_codec json_enc_view.
Proof.
  constructor.
  - exact json_stepped_nil.
  - intros j v fs j' fs' j'' (r & p & t & Hn & Hu) (r' & p' & t' & Hn' & Hu').
    destruct (node_unique _ _ _ _ _ _ _ _ (updates_node _ _ _ _ _ _ _ Hn Hu) Hn') as (<- & <- & <-).
    exists r, p, t. split; [done|]. rewrite <- extend_app. by eapply updates_trans.
  - intros mu n z. eapply (emits_scalar mu json_object_set_number json_array_append_number); [reflexivity|done|].
    intros _. split; [apply set_number_law|apply append_number_law].
  - intros mu n z. eapply (emits_scalar mu json_object_set_number json_array_append_number); [reflexivity|done|].
    intros _. split; [apply set_number_law|apply append_number_law].
  - intros mu n b. eapply (emits_scalar mu json_object_set_boolean json_array_append_boolean); [reflexivity|done|].
    intros _. split; [apply set_boolean_law|apply append_boolean_law].
  - intros mu n s. eapply (emits_scalar mu json_object_set_string json_array_append_string); [reflexivity|done|].
    intros Hs. split; [by apply set_string_law|by apply append_string_law].
  - intros mu n b. cbn [enc_bin json_codec]. unfold json_write_bin. case_bool_decide as Hb.
    + eapply (emits_scalar mu json_object_set_string json_array_append_string); [|done|].
      * cbn. unfold b64. by rewrite bool_decide_eq_true_2.
      * intros _. assert (text []) by (apply text_ascii; constructor).
        split; [by apply set_string_law|by apply append_string_law].
    + destruct (decide (wf_bytes b)) as [Hw|Hw].
      * destruct (base64_roundtrip b) as (s & E & _ & Hs & _); [by intros ->|done|]. rewrite E.
        eapply (emits_scalar mu json_object_set_string json_array_append_string); [|done|].
        { cbn. unfold b64. rewrite bool_decide_eq_false_2 by done. by rewrite E. }
        intros _. split; [by apply set_string_law|by apply append_string_law].
      * intros j c fs' Hc. exfalso. apply Hw. apply accepts_field in Hc as (_ & r & p & t & _ & Hcase & _).
        destruct Hcase as [(? & ? & _ & _ & _ & Hok)|[(? & _ & _ & Hok)|(? & ? & _ & _ & ? & _)]]; done.
  - intros mu j c fs' Hc. exists j, c. split; [done|]. split; [by eapply json_stepped_nil|done].
  - intros mu n m fs Hm _ j c [He (r & p & ms & Hn & Hf)].
    destruct (Hm j c []) as (j' & c' & E & Hst & _).
    { rewrite app_nil_r. split; [done|]. exists r, p, (JObject ms). split; [done|]. by left. }
    exists j', c'. split; [exact E|exact Hst].
  - intros mu n j c ms fs Hc. destruct (write_object mu false j c n (VObj ms) fs Hc) as (j' & obj & E & He & r & p & t & Hn & Hf & _ & Hnext); [eauto|].
    exists j', c, obj. destruct (Hf ms eq_refl) as (ms0 & -> & Hfit). split; [exact E|]. split; [done|]. split.
    + split; [done|]. exists r, p, ms0. done.
    + intros j'' (r' & p' & t' & Hn' & Hu). destruct (node_unique _ _ _ _ _ _ _ _ Hn Hn') as (<- & <- & <-). by apply Hnext.
  - intros mu n j c fs Hc. destruct (write_object mu true j c n VNull fs Hc eq_refl) as (j' & obj & E & He & r & p & t & Hn & _ & _ & Hnext).
    exists j', c, obj. split; [exact E|]. split; [done|]. apply Hnext. by eapply updates_refl.
  - exact json_enc_array_law.
Qed.
End Enc.

(** ** Reading *)
Section Dec.
Context {PA : parson} {PV : parson_view} {B64 : base64} {PL : parson_laws} {BL : base64_laws}.
Abbreviation ctx := (io_codec_ctx V).

Definition member_of (ms : list (string * json)) (f : field) : Prop :=
  exists n, fst f = Some n /\ jlookup n ms = Some (json_of (snd f)) /\ ok (snd f).

(** Members can be read in any order, elements only in theirs; the one object of the
    document is the document. *)
Definition holds (t : json) (index : Z) (fs : list field) : Prop :=
  match t with
  | JObject ms => Forall (member_of ms) fs \/ exists ms', fs = [(None, VObj ms')] /\ Forall (member_of ms) ms'
  | JArray vs => 0 <= index /\ drop (Z.to_nat index) vs = map (json_of ∘ snd) fs /\ Forall ok_element fs
  | _ => fs = []
  end.

(** Nothing of the document changes. *)
#[export] Instance json_dec_view : dec_view J V := {|
  rest := J;
  sees j c fs k := k = j /\ exists r p t, node j r p (ctx_node c) t /\ holds t (ctx_index c) fs;
|}.

Lemma node_member j r p v ms n w t : node j r p v (JObject ms) -> jlookup n ms = Some t ->
  at_path j r (p ++ [key n]) w -> node j r (p ++ [key n]) w t.
Proof.
  intros [_ (T & E1 & E2)] Hl Hw. split; [done|]. exists T. split; [done|]. rewrite json_at_app, E2. cbn. by rewrite Hl.
Qed.
Lemma node_element j r p v vs i w t : node j r p v (JArray vs) -> vs !! i = Some t ->
  at_path j r (p ++ [elem i]) w -> node j r (p ++ [elem i]) w t.
Proof.
  intros [_ (T & E1 & E2)] Hl Hw. split; [done|]. exists T. split; [done|]. rewrite json_at_app, E2. cbn. by rewrite Hl.
Qed.

(** The members of an object that was written are found. *)
Lemma members_found ms : ok (VObj ms) -> Forall (member_of (members ms)) ms.
Proof.
  intros [Hm Hd]%ok_obj. apply Forall_forall. intros [n v] Hin. pose proof Hm as Hm'. rewrite Forall_forall in Hm'.
  destruct (Hm' _ Hin) as [Hn Hv]. cbn in Hn, Hv. destruct n as [n|]; [|done]. exists n. split_and!; [done| |done].
  apply jlookup_in; [by rewrite members_names|]. by apply members_in.
Qed.

(** The value of a field, and the context after it. *)
Lemma read_field mu j c n v fs k : sees j c ((n, v) :: fs) k -> (forall ms, v <> VObj ms) \/ n <> None \/
    (exists r p vs, node j r p (ctx_node c) (JArray vs)) ->
  exists w c' r p, read_value n {| w_doc := j; w_mem := mu |} c = Ok (Some w, {| w_doc := j; w_mem := mu |}, c') /\
    node j r p w (json_of v) /\ ok v /\ ctx_node c' = ctx_node c /\ same_alloc c c' /\ sees j c' fs k.
Proof.
  intros [-> (r & p & t & Hn & Hh)] Hv. destruct t as [| | | |ms|vs]; try done.
  - assert (Hm : Forall (member_of ms) ((n, v) :: fs)).
    { destruct Hh as [?|(ms' & [= -> -> ->] & _)]; [done|]. destruct Hv as [Hv|[Hv|(r' & p' & vs & Hn')]]; [by destruct (Hv ms')|done|].
      destruct (node_unique _ _ _ _ _ _ _ _ Hn Hn') as (_ & _ & ?). done. }
    apply Forall_cons in Hm as [(nm & En & Hl & Hok) Hfs]. cbn in En, Hl, Hok. subst n.
    destruct (get_member_law j r p (ctx_node c) ms nm _ Hn Hl) as (w & E & Hw).
    exists w, c, r, (p ++ [key nm]). cbn. unfold get_value. cbn. rewrite (get_object_law _ _ _ _ _ Hn), E.
    split_and!; try done; [by eapply node_member|]. exists r, p, (JObject ms). split; [done|]. by left.
  - destruct Hh as (Hi & Hd & [(En & Hna & Hok) Hfs]%Forall_cons). cbn in En, Hna, Hok. subst n.
    assert (Hl : vs !! Z.to_nat (ctx_index c) = Some (json_of v)).
    { rewrite <- (Nat.add_0_r (Z.to_nat _)), <- lookup_drop, Hd. done. }
    destruct (get_element_law j r p (ctx_node c) vs _ _ Hn Hl) as (w & E & Hw). rewrite Z2Nat.id in E by done.
    exists w, (next_index c), r, (p ++ [elem (Z.to_nat (ctx_index c))]). cbn. unfold next_value. cbn.
    rewrite (get_array_law _ _ _ _ _ Hn), E. split_and!; try done; [by eapply node_element|].
    exists r, p, (JArray vs). split; [done|]. cbn. split_and!; [lia| |done].
    replace (Z.to_nat (ctx_index c + 1)) with (S (Z.to_nat (ctx_index c))) by lia.
    rewrite <- (Nat.add_1_r (Z.to_nat _)), <- drop_drop, Hd. done.
Qed.

Lemma typed_ok mu j r p v t c : node j r p v t ->
  typed (type_of t) (Some v) {| w_doc := j; w_mem := mu |} c = Ok (v, {| w_doc := j; w_mem := mu |}, c).
Proof. intros Hn. unfold typed. cbn. by rewrite (get_type_law _ _ _ _ _ Hn), bool_decide_eq_true_2. Qed.

(** A number, a boolean, a string: the value is read and looked at. *)
Lemma parses_typed {A B} d mu n v (f : J -> V -> A) (a : A) (k : A -> M J V B) b mu' :
  (forall ms, v <> VObj ms) -> (forall j r p w, node j r p w (json_of v) -> f j w = a) ->
  (ok v -> forall j c, k a {| w_doc := j; w_mem := mu |} c = Ok (b, {| w_doc := j; w_mem := mu' |}, c)) ->
  parses d mu (val ← read_value n; val ← typed (type_of (json_of v)) val; x ← look f val; k x) [(n, v)] b mu'.
Proof.
  intros Hv Hf Hk j c fs' r Hs Hd. destruct (read_field mu j c n v fs' r Hs ltac:(by left)) as (w & c' & r' & p & E & Hn & Hok & Hc & Ha & Hs').
  exists j, c'. split; [|split; [done|by rewrite Ha]].
  unfold mbind, M_bind. rewrite E, (typed_ok mu _ _ _ _ _ _ Hn). unfold look. cbn [w_doc].
  rewrite (Hf _ _ _ _ Hn). by apply Hk.
Qed.

Lemma json_read_number_eq n w c :
  json_read_number n w c = (val ← read_value n; val ← typed JSONNumber val; look json_value_get_number val) w c.
Proof. by destruct n. Qed.

Lemma parses_number {B} d mu n v z (k : Z -> M J V B) b :
  json_of v = JNumber z -> (ok v -> forall j c, k z {| w_doc := j; w_mem := mu |} c = Ok (b, {| w_doc := j; w_mem := mu |}, c)) ->
  parses d mu (x ← json_read_number n; k x) [(n, v)] b mu.
Proof.
  intros Hz Hk j c fs' r Hs Hd.
  destruct (parses_typed d mu n v json_value_get_number z k b mu) with (s := j) (c := c) (fs' := fs') (k := r) as (s' & c' & E & H); [|..|done|done|].
  - intros ms ->. done.
  - rewrite Hz. intros. by eapply get_number_law.
  - done.
  - exists s', c'. split; [|done]. rewrite <- E. unfold mbind at 1, M_bind at 1. rewrite json_read_number_eq, Hz.
    unfold mbind, M_bind. destruct (read_value n _ _) as [[[val w] c1]| |]; [|done|done].
    destruct (typed _ _ _ _) as [[[val1 w1] c2]| |]; done.
Qed.

Lemma allocate_fill a bs mu p size mu' j c : fill a bs mu = Ok (p, size, mu') ->
  allocate a (zlen bs) (fun _ => Ok bs) {| w_doc := j; w_mem := mu |} c = Ok ((p, size), {| w_doc := j; w_mem := mu' |}, c).
Proof.
  unfold fill, allocate. cbn. destruct (a (zlen bs) mu) as [[[p0 size0] mu0]| |]; cbn; [|done|done].
  case_bool_decide; [|done]. destruct (store mu0 p0 0 bs) as [[p1 mu1]| |]; cbn; [|done|done]. by intros [= -> -> ->].
Qed.
Lemma allocate_fill_bin a bs mu p size mu' j c : fill a bs mu = Ok (p, size, mu') ->
  allocate a (zlen bs) (fun size => chk (mem_read bs 0 size)) {| w_doc := j; w_mem := mu |} c = Ok ((p, size), {| w_doc := j; w_mem := mu' |}, c).
Proof.
  intros Hf. rewrite <- (allocate_fill a bs mu p size mu' j c Hf). unfold fill in Hf. unfold allocate. cbn.
  destruct (a (zlen bs) mu) as [[[p0 size0] mu0]| |]; cbn in *; [|done|done]. case_bool_decide as Hs; [|done]. subst size0.
  unfold mem_read. pose proof (zlen_nonneg bs). rewrite bool_decide_eq_true_2 by (unfold zlen in *; lia). cbn.
  change (Z.to_nat 0) with 0%nat. rewrite drop_0, take_ge by (unfold zlen; lia). done.
Qed.

Definition null_value (v : value) : bool := match v with VNull => true | _ => false end.

Lemma json_dec_object mu n j c v fs k : sees j c ((n, v) :: fs) k -> (v = VNull \/ exists ms, v = VObj ms) ->
  exists obj c', same_alloc c c' /\ same_alloc c obj /\ sees j c' fs k /\
    json_read_object n true {| w_doc := j; w_mem := mu |} c =
      Ok ((null_value v, obj), {| w_doc := j; w_mem := mu |}, c') /\
    (forall ms, v = VObj ms -> sees j obj ms k).
Proof.
  intros Hs Hv. pose proof Hs as [-> (r & p & t & Hn & Hh)].
  assert (Hfin : forall w c' r' p', node j r' p' w (json_of v) -> ok v -> forall ms, v = VObj ms -> sees j (child c' w) ms j).
  { intros w c' r' p' Hw Hok ms ->. split; [done|]. exists r', p', (JObject (members ms)). split; [done|]. left. by apply members_found. }
  assert (Hty : forall w r' p', node j r' p' w (json_of v) ->
    json_value_get_type j w = if null_value v then JSONNull else JSONObject).
  { intros w r' p' Hw. rewrite (get_type_law _ _ _ _ _ Hw). by destruct Hv as [->|(ms & ->)]. }
  destruct t as [| | | |ms|vs]; try done.
  - destruct Hh as [Hm|(ms' & [= -> -> ->] & Hm)].
    + assert (exists nm, n = Some nm) as (nm & ->).
      { apply Forall_cons in Hm as [(nm & ? & _) _]. eauto. }
      destruct (read_field mu j c (Some nm) v fs j Hs) as (w & c' & r' & p' & E & Hw & Hok & Hc & Ha & Hs'); [by right; left|].
      exists (child c' w), c'. split_and!; [done|by unfold same_alloc in *; cbn|done| |by eapply Hfin].
      unfold json_read_object. cbn in E. rewrite E. cbn. rewrite (Hty _ _ _ Hw). by destruct (null_value v).
    + exists (child c (ctx_node c)), c. split_and!; [done|done| | |].
      * split; [done|]. exists r, p, (JObject ms). split; [done|]. by left.
      * unfold json_read_object. cbn [w_doc]. rewrite (get_type_law _ _ _ _ _ Hn : _ = JSONObject).
        change (bool_decide (JSONObject = JSONArray)) with false. change (bool_decide (JSONObject <> JSONObject)) with false. cbn.
        rewrite (get_type_law _ _ _ _ _ Hn : _ = JSONObject). done.
      * intros ms0 [= <-]. split; [done|]. exists r, p, (JObject ms). split; [done|]. by left.
  - assert (n = None) as -> by (destruct Hh as (_ & _ & [(? & _) _]%Forall_cons); done).
    destruct (read_field mu j c None v fs j Hs) as (w & c' & r' & p' & E & Hw & Hok & Hc & Ha & Hs'); [by right; right; eauto|].
    exists (child c' w), c'. split_and!; [done|by unfold same_alloc in *; cbn|done| |by eapply Hfin].
    unfold json_read_object. cbn [w_doc]. rewrite (get_type_law _ _ _ _ _ Hn : _ = JSONArray).
    change (bool_decide (JSONArray = JSONArray)) with true. cbn in E. cbv iota. rewrite E. cbn.
    rewrite (Hty _ _ _ Hw). by destruct (null_value v).
Qed.

#[export] Instance json_dec_laws : dec_laws json_codec json_dec_view.
Proof.
  constructor.
  - intros d mu n z. eapply parses_number; [reflexivity|]. cbn. intros Hz j c. rewrite double_exact by done. unfold lift.
    rewrite bool_decide_eq_true_2 by (unfold in_i64; lia). done.
  - intros d mu n z. eapply parses_number; [reflexivity|]. cbn. intros Hz j c. rewrite double_exact by lia. unfold lift.
    rewrite bool_decide_eq_true_2 by (unfold in_u64; lia). done.
  - intros d mu n b j c fs' k Hs Hd.
    destruct (parses_typed d mu n (VBool b) json_value_get_boolean b (fun x => mret x) b mu) with (s := j) (c := c) (fs' := fs') (k := k)
      as (s' & c' & E & H); [done|intros; by eapply get_boolean_law|done|done|done|].
    exists s', c'. split; [|done]. rewrite <- E. cbn. unfold json_read_bool, json_next_bool, json_get_bool, read_value.
    unfold mbind, M_bind. destruct n as [n|]; cbn; destruct (typed _ _ _ _) as [[[val1 w1] c2]| |]; done.
  - intros d mu n a s p size mu' Hf. cbn. unfold json_read_string.
    eapply (parses_typed d mu n (VStr s)); [done|intros; by eapply get_string_law|]. intros _ j c.
    replace (zlen s + 1) with (zlen (s ++ [0])) by (rewrite zlen_app; done). by apply allocate_fill.
  - intros d mu n a b p size mu' Hf. cbn. unfold json_read_bin.
    eapply (parses_typed d mu n (VBin b)); [done|intros; by eapply get_string_law|]. intros Hok j c. unfold fill_bin in Hf.
    unfold b64. destruct (decide (zlen b = 0)) as [Hb|Hb].
    + rewrite bool_decide_eq_true_2 in Hf by done. injection Hf as <- <- <-. by rewrite (bool_decide_eq_true_2 (zlen b = 0)).
    + rewrite bool_decide_eq_false_2 in Hf by done. rewrite (bool_decide_eq_false_2 (zlen b = 0)) by done.
      destruct (base64_roundtrip b) as (s & E & Hne & _ & E'); [by intros ->|done|]. rewrite E. cbn.
      rewrite bool_decide_eq_false_2. 2:{ destruct s; [done|]. rewrite zlen_cons. pose proof (zlen_nonneg s). lia. }
      rewrite E'. by apply allocate_fill_bin.
  - intros d mu j c fs' k Hs Hd. by exists j, c.
  - intros d mu j c fs' k Hs Hd. by exists j, c.
  - intros d mu j c fs' k Hs Hd. by exists j, c.
  - intros mu n j c ms fs k Hs. destruct (json_dec_object mu n j c (VObj ms) fs k Hs) as (obj & c' & Ha & Ha' & Hs' & E & Ho); [eauto|].
    exists j, c', obj, k. split_and!; [exact E|done|done|by apply Ho|]. intros j'' obj'' [-> _]. destruct Hs' as [-> Hs']. by split.
  - intros mu n j c fs k Hs. destruct (json_dec_object mu n j c VNull fs k Hs) as (obj & c' & Ha & Ha' & Hs' & E & _); [by left|].
    exists j, c', obj. done.
  - intros mu n j c vs fs k Hs. destruct (read_field mu j c n (VArr vs) fs k Hs ltac:(by left)) as (w & c' & r & p & E & Hn & Hok & Hc & Ha & Hs').
    exists j, c', (child c' w), k. split_and!; [|done|by unfold same_alloc in *; cbn| |].
    + cbn. unfold json_read_array. unfold mbind, M_bind. rewrite E, (typed_ok mu _ _ _ _ _ _ Hn : typed JSONArray _ _ _ = _). cbn [w_doc].
      rewrite (get_array_law _ _ _ _ _ Hn), (get_count_law _ _ _ _ _ Hn). unfold zlen. by rewrite length_map.
    + destruct Hs as [-> _]. split; [done|]. exists r, p, (json_of (VArr vs)). split; [done|]. cbn. split_and!; [done| |].
      * unfold elems. rewrite map_map. done.
      * by apply ok_arr.
    + intros j'' arr'' [-> _]. destruct Hs' as [-> Hs']. by split.
  - intros j c fs k a Hs. exact Hs.
Qed.
End Dec.

(** ** Whole documents *)
Section Docs.
Context {PA : parson} {PV : parson_view} {B64 : base64} {PL : parson_laws} {BL : base64_laws}.

(** What can be stored can be printed. *)
Lemma ok_plain : forall v, ok v -> plain (json_of v).
Proof.
  fix IH 1. intros [z|z|b|s|b| |ms|vs] Hok.
  - exists z. done.
  - cbn in Hok. exists z. split; [lia|done].
  - done.
  - done.
  - cbn. unfold b64. case_bool_decide as Hb; [apply text_ascii; constructor|].
    destruct (base64_roundtrip b) as (s & -> & _ & Hs & _); [by intros ->|done|done].
  - done.
  - change (plain (JObject (members ms))). pose proof Hok as [Hm Hd]%ok_obj. split.
    + clear Hd Hm. destruct Hok as [Hok _]. induction ms as [|[[n|] v] ms IHms]; [done| |destruct Hok as [[? _] _]; done].
      destruct Hok as [[_ Hv] Hok]. cbn. split; [by apply IH|]. by apply IHms.
    + by rewrite members_names.
  - cbn. induction vs as [|v vs IHvs]; [done|]. destruct Hok as [[_ Hv] Hok]. cbn. split; [by apply IH|by apply IHvs].
Qed.

(** A document that was written has the tree of what was written. *)
Lemma init_doc j : enough j -> exists j1 v, json_value_init_object j = (j1, Some v) /\
  forall ms, ok (VObj ms) -> can_emit j1 (first_ctx v) [(None, VObj ms)] /\
    forall j2, stepped j1 v [(None, VObj ms)] j2 -> enough j2 /\ tree j2 v = Some (json_of (VObj ms)).
Proof.
  intros He. destruct (init_object_law j He) as (j1 & v & E & He1 & Ht & _). exists j1, v. split; [done|]. intros ms Hok.
  pose proof Hok as [Hm Hd]%ok_obj.
  assert (Hn : node j1 v [] v (JObject [])) by (split; [by eapply at_root|by eexists]). split.
  - split; [done|]. exists v, [], (JObject []). split; [done|]. right. exists ms. split; [done|]. by split.
  - intros j2 (r & p & t & Hn' & He2 & Hu & _). destruct (node_unique _ _ _ _ _ _ _ _ Hn Hn') as (<- & <- & <-).
    split; [done|]. rewrite (Hu _ Ht). cbn. by rewrite app_nil_r.
Qed.

Lemma parsed_doc j1 w ms : ok (VObj ms) -> tree j1 w = Some (json_of (VObj ms)) ->
  sees j1 (first_ctx w) [(None, VObj ms)] j1.
Proof.
  intros Hok Ht. split; [done|]. exists w, [], (json_of (VObj ms)). split; [split; [by eapply at_root|by eexists]|].
  right. exists ms. split; [done|]. by apply members_found.
Qed.

(** All of a buffer is read. *)
Lemma read_all fuel : forall (s : io_fixed_buffer_stream) buffer, (length (fb_in s) < fuel)%nat -> buffer ++ fb_in s <> [] ->
  exists s', json_read_stream fixed_itf fuel (fun _ => true) s buffer = Some (Ok (buffer ++ fb_in s, s')).
Proof.
  induction fuel as [|fuel IH]; intros s buffer Hf Hne; [lia|]. cbn [json_read_stream].
  change (io_stream_readable fixed_itf s) with (zlen (fb_in s)). case_bool_decide as Hz.
  - assert (fb_in s = []) as E by (destruct (fb_in s) as [|b l]; [done|rewrite zlen_cons in Hz; pose proof (zlen_nonneg l); lia]).
    rewrite E, app_nil_r in *. exists s. rewrite bool_decide_eq_false_2; [done|]. destruct buffer; [done|]. rewrite zlen_cons.
    pose proof (zlen_nonneg buffer). lia.
  - set (avail := Z.min (zlen (fb_in s)) 4096). pose proof (zlen_nonneg (fb_in s)).
    destruct (io_stream_read_spec (stream := fixed_itf) s avail) as (s' & E & Hs'); [unfold avail; lia|].
    rewrite E. rewrite bool_decide_eq_false_2 by (intros Hx; by apply Hx). cbn [sin fixed_reads] in E, Hs' |- *.
    destruct (IH s' (buffer ++ take (Z.to_nat avail) (fb_in s))) as (s'' & ->).
    + rewrite Hs', length_drop. unfold avail, zlen in *. lia.
    + rewrite <- app_assoc. rewrite Hs'. by rewrite take_drop.
    + exists s''. do 3 f_equal. rewrite <- app_assoc, Hs', take_drop. done.
Qed.

(** A document that is complete is printed to the stream, and read from it by another. *)
Lemma print_read j v ms : enough j -> tree j v = Some (json_of (VObj ms)) -> ok (VObj ms) ->
  exists bs, bs <> [] /\
    (forall St (stream : io_stream St) (SW : stream_writes stream) s, reset stream = None -> zlen bs <= sroom s ->
      exists j' s', json_fini_ctx stream (fun _ => true) j (first_ctx v) s true = (j', s', Ok tt) /\ sout s' = sout s ++ bs) /\
    forall j0 fuel, enough j0 -> (length bs < fuel)%nat ->
      exists j1 w s', json_init_ctx fixed_itf fuel (fun _ => true) j0 {| fb_in := bs; fb_written := []; fb_out_len := 0 |} true
          = Some (Ok (j1, Some (first_ctx w), s')) /\ sees j1 (first_ctx w) [(None, VObj ms)] j1.
Proof.
  intros He Ht Hok. destruct (print_law j v _ He Ht (ok_plain _ Hok)) as (bs & Hne & H0 & Hsize & Hser & Hparse).
  exists bs. split; [done|]. split.
  - intros St stream SW s Hr Hroom. unfold json_fini_ctx. cbn [ctx_node first_ctx]. rewrite Hsize.
    rewrite bool_decide_eq_false_2 by (pose proof (zlen_nonneg bs); lia). rewrite Hser. unfold io_stream_reset. rewrite Hr.
    rewrite bool_decide_eq_false_2 by (intros Hx; by apply Hx).
    replace (Z.to_nat (zlen bs + 1 - 1)) with (length bs) by (unfold zlen; lia). rewrite take_app_length.
    destruct (io_stream_write_spec s bs Hroom) as (s' & E & Ho & _). rewrite E. by do 2 eexists.
  - intros j0 fuel He0 Hf. destruct (read_all fuel {| fb_in := bs; fb_written := []; fb_out_len := 0 |} []) as (s' & E); [done|done|].
    destruct (Hparse j0 He0) as (j1 & w & Ep & _ & Ht1). exists j1, w, s'. unfold json_init_ctx. rewrite E. cbn [app fb_in].
    assert (cstr bs = bs) as ->.
    { clear -H0. induction bs as [|b bs IH]; [done|]. cbn. rewrite bool_decide_eq_false_2 by set_solver. f_equal. apply IH. set_solver. }
    rewrite Ep. split; [done|]. by apply parsed_doc.
Qed.
End Docs.

(** ** Integers of 64 bits *)

(** The last 1024 numbers of 64 bits are rounded up to 2^64. *)
Lemma double_top z : 2 ^ 64 - 1024 <= z < 2 ^ 64 -> int_of_double (double_of_int z) = Some (2 ^ 64).
Proof.
  intros Hz. unfold double_of_int. rewrite bool_decide_eq_false_2 by lia. rewrite Z.abs_eq by lia.
  assert (Z.log2 z = 63) as ->.
  { apply Z.log2_unique; [lia|]. change (2 ^ Z.succ 63) with (2 ^ 64). assert (2 ^ 63 < 2 ^ 64 - 1024) by done. lia. }
  rewrite (bool_decide_eq_false_2 (63 <= 52)) by lia. change (2 ^ (63 - 52)) with 2048.
  assert (Hq : z / 2048 = 2 ^ 53 - 1) by (symmetry; apply (Z.div_unique z 2048 (2 ^ 53 - 1) (z - 2048 * (2 ^ 53 - 1))); lia).
  assert (Hr : z mod 2048 = z - 2048 * (2 ^ 53 - 1)) by (rewrite Z.mod_eq by lia; by rewrite Hq).
  rewrite Hq, Hr. rewrite (bool_decide_eq_false_2 (z < 0)) by lia. rewrite bool_decide_eq_true_2.
  2:{ destruct (decide (2048 < 2 * (z - 2048 * (2 ^ 53 - 1)))); [by left|]. right. split; [lia|done]. }
  reflexivity.
Qed.

Section Wide.
Context {PA : parson} {PV : parson_view} {B64 : base64} {PL : parson_laws}.

(** C5: what becomes of an unsigned integer of 64 bits in a JSON document: up to 2^53 it is
    read as it was written; the next one is read as another number, without an error; and
    reading one of the last 1024 is undefined, since it is stored as 2^64. *)
Theorem json_uint64_range mu j (c : io_codec_ctx V) r p ms n z : enough j ->
  node j r p (ctx_node c) (JObject ms) -> n ∉ ms.*1 -> 0 <= z < 2 ^ 64 ->
  exists j', json_write_uinteger (Some n) z {| w_doc := j; w_mem := mu |} c = Ok (tt, {| w_doc := j'; w_mem := mu |}, c) /\
    (z <= 2 ^ 53 -> json_read_uinteger (Some n) {| w_doc := j'; w_mem := mu |} c = Ok (z, {| w_doc := j'; w_mem := mu |}, c)) /\
    (z = 2 ^ 53 + 1 -> json_read_uinteger (Some n) {| w_doc := j'; w_mem := mu |} c = Ok (z - 1, {| w_doc := j'; w_mem := mu |}, c)) /\
    (2 ^ 64 - 1024 <= z -> json_read_uinteger (Some n) {| w_doc := j'; w_mem := mu |} c = UB).
Proof.
  intros He Hn Hnm Hz.
  destruct (set_number_law (double_of_int z) j r p _ ms n He Hn Hnm) as (j' & E & Hu). exists j'.
  unfold json_write_uinteger, json_write_number, json_set_number, on_object. cbn [w_doc].
  rewrite (get_object_law _ _ _ _ _ Hn), E. split; [done|].
  pose proof (updates_node _ _ _ _ _ _ _ Hn Hu) as Hn'.
  assert (Hl : jlookup n (ms ++ [(n, JNumber (double_of_int z))]) = Some (JNumber (double_of_int z))) by (by apply jlookup_new).
  destruct (get_member_law _ _ _ _ _ _ _ Hn' Hl) as (w & Ew & Hw). pose proof (node_member _ _ _ _ _ _ _ _ Hn' Hl Hw) as Hnw.
  assert (Hread : json_read_uinteger (Some n) {| w_doc := j'; w_mem := mu |} c =
    match int_of_double (double_of_int z) with
    | Some z => if bool_decide (in_u64 z) then Ok (z, {| w_doc := j'; w_mem := mu |}, c) else UB
    | None => UB
    end).
  { unfold json_read_uinteger, json_read_number, json_get_number, get_value, look, lift, mbind, M_bind. cbn [w_doc].
    rewrite (get_object_law _ _ _ _ _ Hn'), Ew, (typed_ok mu _ _ _ _ _ _ Hnw : typed JSONNumber _ _ _ = _). cbn [w_doc].
    rewrite (get_number_law _ _ _ _ _ Hnw). destruct (int_of_double _) as [z'|]; [|done]. by case_bool_decide. }
  rewrite Hread. split_and!.
  - intros Hs. rewrite double_exact by lia. by rewrite bool_decide_eq_true_2 by (unfold in_u64; lia).
  - intros ->. reflexivity.
  - intros Ht. rewrite double_top by lia. by rewrite bool_decide_eq_false_2 by (unfold in_u64; lia).
Qed.
End Wide.
End JsonSpec.
