(* ===== verification/IoMqttTransport.v ===== *)
(** * Messages over MQTT (src/io_transport.c)

    The two handlers of the MQTT transport that turn a protocol message into a JSON
    document and back, on top of the JSON codec, the streams in memory, references and
    messages.  The answer to a request is published to a topic that ends with the id of
    the request. *)
From stdpp Require Import base option list numbers strings.
From S2P Require Import Prelude PrxTypes IoStream UtilString UtilInt UtilKey IoMem IoCodec IoCodecSpec IoRef IoTypes IoProto Json JsonSpec.
Import PrxTypes IoStream UtilString UtilInt UtilKey IoMem IoCodec IoCodecSpec IoRef IoTypes IoProto Json JsonSpec.
Open Scope Z_scope.

Module IoMqttTransport.

(** "$iothub/methods/res/200/?$rid=" *)
Definition response_topic : bytes :=
  [36; 105; 111; 116; 104; 117; 98; 47; 109; 101; 116; 104; 111; 100; 115; 47; 114; 101; 115; 47; 50; 48; 48; 47; 63; 36; 114; 105; 100; 61].

Section Handlers.
Context {PA : parson} {B64 : base64} (pal_pton : bytes -> res prx_socket_address).

(** The memory there is: up to how many bytes the buffer of the document can grow, and
    whether a string, an extension of it, a block of so many bytes and a reference to the
    message can be had. *)
Record send_memory := mk_send_memory {
  sm_limit : Z;
  sm_construct : bool;
  sm_concat : bool;
  sm_alloc : Z -> bool;
  sm_clone : bool;
}.

(** What is handed to [io_mqtt_connection_publish]: the topic, and the bytes of the
    buffer.  A context without a value is refused by [json_write_object]. *)
Definition io_iot_hub_umqtt_connection_on_send (sm : send_memory) (j : J) (mu : mem) (event_uri : bytes)
    (message : io_message ptr) : res (bytes * bytes) :=
  match io_dynamic_buffer_stream_init (sm_limit sm) true 1024 with
  | None => Err er_out_of_memory
  | Some (codec_stream, stream) =>
      uri ← (if bool_decide (correlation_id message <> 0) then
               if sm_construct sm then STRING_concat_int (sm_concat sm) (Some response_topic) (correlation_id message) 16
               else Err er_out_of_memory
             else Ok event_uri);
      match json_init_ctx codec_stream 0 (sm_alloc sm) j stream false with
      | Some (Ok (j, Some ctx, stream)) =>
          '(_, w, _) ← (obj ← enc_object json_codec None false;
                        under obj (io_encode_message json_codec message))
                       {| w_doc := j; w_mem := mu |} ctx;
          let '(_, stream, result) := json_fini_ctx codec_stream (sm_alloc sm) (w_doc w) ctx stream true in
          _ ← result;
          if sm_clone sm then Ok (uri, ds_out stream) else Err er_out_of_memory
      | Some (Ok (_, None, _)) => Err er_arg
      | Some (Err e) => Err e
      | Some UB | None => UB
      end
  end.

(** The message handed to the callback of the connection, with its memory; an error is
    only logged.  [rid]: the property of that name.  [None]: out of fuel. *)
Definition io_iot_hub_umqtt_connection_on_receive (fuel : nat) (alloc : Z -> bool) (pool : bool) (option_ : prx_property ptr)
    (j : J) (mu : mem) (rid : res bytes) (body : bytes) : option (res (io_message ptr * mem)) :=
  let '(codec_stream, stream) := io_fixed_buffer_stream_init body 0 in
  match json_init_ctx codec_stream fuel alloc j stream true with
  | None => None
  | Some (Ok (j, Some ctx, stream)) => Some (
      message ← io_message_create_empty pool;
      '(m, w, _) ← ('(is_null, obj) ← io_decode_object json_codec None true;
                    if (is_null : bool) then fail er_invalid_format
                    else under obj (io_decode_message pal_pton json_codec option_ message))
                   {| w_doc := j; w_mem := mu |} ctx;
      request_id ← rid;
      id ← string_to_int request_id 16;
      Ok ({| source_id := source_id m; proxy_id := proxy_id m; target_id := target_id m; error_code := error_code m;
             is_response := is_response m; type := type m; content := content m; correlation_id := id |}, w_mem w))
  | Some (Ok (_, None, _)) => Some UB
  | Some (Err e) => Some (Err e)
  | Some UB => Some UB
  end.
End Handlers.

(** ** Both directions *)
Section Proofs.
Context {PA : parson} {PV : parson_view} {B64 : base64} {PL : parson_laws} {BL : base64_laws}.
Context (pal_pton : bytes -> res prx_socket_address).

(** Memory for a document of [n] bytes. *)
Definition sends (sm : send_memory) (n : Z) : Prop :=
  sm_construct sm = true /\ sm_concat sm = true /\ sm_clone sm = true /\ sm_alloc sm = (fun _ => true) /\
  2 * n + 1024 <= sm_limit sm < 2 ^ 62.

Definition with_id (m : io_message bytes) (id : Z) : io_message bytes :=
  {| source_id := source_id m; proxy_id := proxy_id m; target_id := target_id m; error_code := error_code m;
     is_response := is_response m; type := type m; content := content m; correlation_id := id |}.

(** The bytes of the document, for any memory and by any reader. *)
Lemma message_document msg mu m j : message_den mu msg = Some m -> wf_message m ->
  ok (VObj (message_fields io_codec_json m)) -> enough j ->
  exists body, body <> [] /\
    (forall sm event_uri uri, sends sm (zlen body) ->
       (if bool_decide (correlation_id msg <> 0) then STRING_concat_int true (Some response_topic) (correlation_id msg) 16
        else Ok event_uri) = Ok uri ->
       io_iot_hub_umqtt_connection_on_send sm j mu event_uri msg = Ok (uri, body)) /\
    forall j0 fuel, enough j0 -> (length body < fuel)%nat ->
      exists j1 w s', json_init_ctx fixed_itf fuel (fun _ => true) j0 {| fb_in := body; fb_written := []; fb_out_len := 0 |} true
          = Some (Ok (j1, Some (first_ctx w), s')) /\
        sees j1 (first_ctx w) [(None, VObj (message_fields io_codec_json m))] j1.
Proof.
  intros Hd Hw Hok He. destruct (init_doc j He) as (j1 & v & E1 & Hdoc). destruct (Hdoc _ Hok) as [Hemit Hstep].
  pose proof (emits_object (K := json_codec) mu None _ _ (emits_message (K := json_codec) mu msg m Hd Hw)) as Hem.
  destruct (Hem j1 (first_ctx v) [] Hemit) as (j2 & c2 & E2 & Hst & _). destruct (Hstep j2 Hst) as [He2 Ht2].
  destruct (print_read j2 v _ He2 Ht2 Hok) as (body & Hne & Hprint & Hread).
  exists body. split; [done|]. split; [|exact Hread]. intros sm event_uri uri (Hs1 & Hs2 & Hs3 & Hs4 & Hlim) Huri.
  pose proof (zlen_nonneg body).
  destruct (io_dynamic_buffer_stream_init_inv (sm_limit sm) true 1024) as (s1 & Es1 & Hinv & Ho & Hl & Hlen); [lia|lia|].
  pose proof (io_dynamic_buffer_stream_init_increment _ _ _ _ _ Es1) as Hinc.
  unfold io_iot_hub_umqtt_connection_on_send. rewrite Es1, Hs1, Hs2, Hs3, Hs4, Huri. cbn [mbind res_bind].
  unfold json_init_ctx. rewrite E1. cbn [fmap option_fmap option_map].
  unfold io_encode_object_m in E2. cbn [mbind] in E2. rewrite E2. cbn [mbind res_bind w_doc].
  destruct (Hprint _ (dynamic_itf true) _ s1 eq_refl) as (j' & s' & E3 & Ho').
  { cbn. unfold ds_room. rewrite bool_decide_eq_true_2 by done. rewrite Hl, Hlen. lia. }
  rewrite E3. cbn. cbn in Ho'. by rewrite Ho', Ho.
Qed.

Lemma receive_document option_ j1 w s' mu0 m rid id body fuel j0 :
  json_init_ctx fixed_itf fuel (fun _ => true) j0 {| fb_in := body; fb_written := []; fb_out_len := 0 |} true
    = Some (Ok (j1, Some (first_ctx w), s')) ->
  sees j1 (first_ctx w) [(None, VObj (message_fields io_codec_json m))] j1 ->
  wf_message m -> sized_option option_ -> fresh mu0 ->
  (two_buffers (content m) = true -> forall n, m_moves mu0 n = false) -> string_to_int rid 16 = Ok id ->
  exists m' mu', io_iot_hub_umqtt_connection_on_receive pal_pton fuel (fun _ => true) true option_ j0 mu0 (Ok rid) body = Some (Ok (m', mu')) /\
    message_den mu' m' = Some (with_id (received m) id).
Proof.
  intros Hj Hs Hw Hsz Hf Hmv Hid.
  destruct (parses_message (K := json_codec) pal_pton None mu0 option_ m Hf Hw Hsz Hmv) as (m' & mu' & Hp & Hd).
  pose proof (parses_all_object (K := json_codec) None mu0 None true _
    (fun '(is_null, obj) => if (is_null : bool) then fail er_invalid_format
      else under obj (io_decode_message pal_pton json_codec option_ empty_message)) _ m' mu' (fun _ => eq_refl) Hp) as Ho.
  destruct (Ho j1 (first_ctx w) [] j1 Hs eq_refl) as (j2 & c2 & E & _).
  unfold io_iot_hub_umqtt_connection_on_receive, io_fixed_buffer_stream_init. rewrite Hj.
  unfold io_message_create_empty. cbn [mbind res_bind]. unfold empty_message in E. cbn [mbind] in E. rewrite E.
  rewrite Hid. eexists _, mu'. split; [reflexivity|]. unfold message_den in *. cbn.
  destruct (content_den mu' (content m')); cbn in *; [|done]. apply (inj Some) in Hd. f_equal. unfold with_id. by rewrite <- Hd.
Qed.

(** C4: messages survive MQTT: for every kind of message and every well formed content that
    JSON can hold, the document the send handler publishes is turned by the receive handler
    into a message with the same contents.  The answer to a request goes to the topic that
    ends with the id of the request, and a receiver that is given this id as "$rid" has the
    message with the same correlation id.  The limits are those of the websocket transport;
    JSON holds numbers of up to 53 bits and strings that are text. *)
Theorem mqtt_message_roundtrip option_ msg mu m j mu0 j0 event_uri :
  message_den mu msg = Some m -> wf_message m -> in_i32 (correlation_id msg) ->
  ok (VObj (message_fields io_codec_json m)) -> sized_option option_ ->
  enough j -> enough j0 -> fresh mu0 -> (two_buffers (content m) = true -> forall n, m_moves mu0 n = false) ->
  exists body rid, string_to_int rid 16 = Ok (correlation_id msg) /\
    (forall sm, sends sm (zlen body) ->
       io_iot_hub_umqtt_connection_on_send sm j mu event_uri msg
       = Ok (if bool_decide (correlation_id msg = 0) then event_uri else response_topic ++ rid, body)) /\
    forall fuel, (length body < fuel)%nat ->
      exists m' mu', io_iot_hub_umqtt_connection_on_receive pal_pton fuel (fun _ => true) true option_ j0 mu0 (Ok rid) body
          = Some (Ok (m', mu')) /\
        message_den mu' m' = Some (with_id (received m) (correlation_id msg)).
Proof.
  intros Hd Hw Hc Hok Hsz He He0 Hf Hmv.
  destruct (message_document msg mu m j Hd Hw Hok He) as (body & Hne & Hsend & Hread).
  pose proof (int_roundtrip (correlation_id msg) 16 32 Hc ltac:(by right) ltac:(lia)) as Hrid.
  destruct (string_from_int (correlation_id msg) 16 32) as [rid| |] eqn:Er; [|done|done]. cbn in Hrid.
  exists body, rid. split; [done|]. split.
  - intros sm Hsm. apply Hsend; [done|]. unfold STRING_concat_int. rewrite Er. cbn.
    destruct (decide (correlation_id msg = 0)) as [H0|H0].
    + rewrite (bool_decide_eq_true_2 (_ = 0)), bool_decide_eq_false_2 by (done || (intros Hx; by apply Hx)). done.
    + rewrite (bool_decide_eq_false_2 (_ = 0)), bool_decide_eq_true_2 by done. done.
  - intros fuel Hfuel. destruct (Hread j0 fuel He0 Hfuel) as (j1 & w & s' & Ej & Hs).
    by eapply receive_document.
Qed.
End Proofs.
End IoMqttTransport.
