(* ===== verification/JsonDom.v ===== *)
(** * A heap of JSON values

    A model of the parson library and of base 64 in which the laws of JsonSpec hold: trees
    by number, and a map from pointers to the places they lead to.  The printed form is
    not JSON but a code for trees; all that is asked of it is that it can be read again.
    It shows that the laws can hold, and runs the examples. *)
From stdpp Require Import base option list numbers strings countable sets.
From S2P Require Import Prelude PrxTypes IoStream IoMem IoCodec IoCodecSpec IoRef IoTypes UtilString UtilInt IoProto IoTransport Json JsonSpec IoMqttTransport.
Import PrxTypes IoStream IoMem IoCodec IoCodecSpec IoRef IoTypes UtilString UtilInt IoProto IoTransport Json JsonSpec IoMqttTransport.
Open Scope Z_scope.

Module JsonDom.

(** ** The printed form *)

Fixpoint print (t : json) : bytes :=
  match t with
  | JNull => [1]
  | JBool b => [2; if b then 2 else 1]
  | JNumber d => [3; d + 1]
  | JString s => 4 :: zlen s + 1 :: s
  | JObject ms => 5 :: zlen ms + 1 :: flat_map (fun f => Zpos (encode (fst f)) :: print (snd f)) ms
  | JArray vs => 6 :: zlen vs + 1 :: flat_map print vs
  end.

Definition parse_members (parse : bytes -> option (json * bytes)) : nat -> bytes -> option (list (string * json) * bytes) :=
  fix many n bs :=
    match n with
    | O => Some ([], bs)
    | S n =>
        match bs with
        | k :: bs =>
            name ← decode (Z.to_pos k);
            '(t, bs) ← parse bs;
            '(ms, bs) ← many n bs;
            Some ((name, t) :: ms, bs)
        | [] => None
        end
    end.
Definition parse_elements (parse : bytes -> option (json * bytes)) : nat -> bytes -> option (list json * bytes) :=
  fix many n bs :=
    match n with
    | O => Some ([], bs)
    | S n => '(t, bs) ← parse bs; '(vs, bs) ← many n bs; Some (t :: vs, bs)
    end.

Fixpoint parse (fuel : nat) (bs : bytes) : option (json * bytes) :=
  match fuel with
  | O => None
  | S fuel =>
      match bs with
      | 1 :: bs => Some (JNull, bs)
      | 2 :: b :: bs => Some (JBool (bool_decide (b = 2)), bs)
      | 3 :: d :: bs => Some (JNumber (d - 1), bs)
      | 4 :: l :: bs => Some (JString (take (Z.to_nat (l - 1)) bs), drop (Z.to_nat (l - 1)) bs)
      | 5 :: l :: bs => '(ms, bs) ← parse_members (parse fuel) (Z.to_nat (l - 1)) bs; Some (JObject ms, bs)
      | 6 :: l :: bs => '(vs, bs) ← parse_elements (parse fuel) (Z.to_nat (l - 1)) bs; Some (JArray vs, bs)
      | _ => None
      end
  end.

(** ** The heap *)

Record heap := mk_heap {
  h_tree : nat -> option json;
  h_loc : nat -> option (nat * path);
  h_next : nat;
}.
Definition pointer : Type := nat * path.

Definition upd {A} (f : nat -> A) (n : nat) (x : A) : nat -> A := fun m => if bool_decide (m = n) then x else f m.

Definition loc (h : heap) (v : pointer) : option (nat * path) := '(r, p) ← h_loc h (fst v); Some (r, p ++ snd v).
Definition value_at (h : heap) (v : pointer) : option json := '(r, p) ← loc h v; T ← h_tree h r; json_at T p.

Definition new_value (t : json) (h : heap) : heap * option pointer :=
  ({| h_tree := upd (h_tree h) (h_next h) (Some t); h_loc := upd (h_loc h) (h_next h) (Some (h_next h, []));
      h_next := S (h_next h) |}, Some (h_next h, [])).

(** The value at [v] is replaced by [f] of it, unless that fails. *)
Definition change (h : heap) (v : option pointer) (f : json -> option json) : heap * bool :=
  default (h, false)
    (v ← v; '(r, p) ← loc h v; T ← h_tree h r; t ← json_at T p; t' ← f t;
     Some ({| h_tree := upd (h_tree h) r (Some (json_set p t' T)); h_loc := h_loc h; h_next := h_next h |}, true)).

Definition add_member (n : string) (x t : json) : option json :=
  match t with
  | JObject ms => if bool_decide (n ∈ ms.*1) then None else Some (JObject (ms ++ [(n, x)]))
  | _ => None
  end.
Definition add_element (x t : json) : option json :=
  match t with JArray vs => Some (JArray (vs ++ [x])) | _ => None end.

(** A whole tree is put at the place [step] of [v], and what led to it leads there. *)
Definition attach (h : heap) (v : option pointer) (w : pointer) (place : json -> step) (add : json -> json -> option json) : heap * bool :=
  default (h, false)
    (v0 ← v; '(r, p) ← loc h v0; t ← value_at h v0; x ← h_tree h (fst w);
     let '(h', ok) := change h v (add x) in
     Some ({| h_tree := upd (h_tree h') (fst w) None;
              h_loc := fun b => match h_loc h' b with
                                | Some (r', q) => if bool_decide (r' = fst w) then Some (r, p ++ [place t] ++ q) else Some (r', q)
                                | None => None
                                end;
              h_next := h_next h' |}, ok)).

Definition checked {A} (f : json -> option A) (d : A) (h : heap) (v : pointer) : A := default d (value_at h v ≫= f).

#[export] Instance dom : parson := {|
  J := heap;
  V := pointer;
  json_value_init_object := new_value (JObject []);
  json_value_init_array := new_value (JArray []);
  json_value_init_null := new_value JNull;
  json_value_free := fun h v => {| h_tree := upd (h_tree h) (fst v) None; h_loc := h_loc h; h_next := h_next h |};
  json_value_get_type := checked (fun t => Some (type_of t)) JSONError;
  json_value_get_object := fun h v => match value_at h v with Some (JObject _) => Some v | _ => None end;
  json_value_get_array := fun h v => match value_at h v with Some (JArray _) => Some v | _ => None end;
  json_value_get_number := checked (fun t => match t with JNumber d => Some d | _ => None end) 0;
  json_value_get_boolean := checked (fun t => match t with JBool b => Some b | _ => None end) false;
  json_value_get_string := checked (fun t => match t with JString s => Some s | _ => None end) [];
  json_object_get_value := fun h o n =>
    v ← o; t ← value_at h v; match t with JObject ms => _ ← jlookup n ms; Some (fst v, snd v ++ [key n]) | _ => None end;
  json_object_set_number := fun h o n d => change h o (add_member n (JNumber d));
  json_object_set_boolean := fun h o n b => change h o (add_member n (JBool b));
  json_object_set_string := fun h o n s => change h o (add_member n (JString s));
  json_object_set_value := fun h o n w =>
    match n with Some n => attach h o w (fun _ => key n) (add_member n) | None => (h, false) end;
  json_array_get_value := fun h a i =>
    v ← a; t ← value_at h v; match t with JArray vs => _ ← vs !! Z.to_nat i; Some (fst v, snd v ++ [elem (Z.to_nat i)]) | _ => None end;
  json_array_get_count := fun h a => default 0 (v ← a; t ← value_at h v; match t with JArray vs => Some (zlen vs) | _ => None end);
  json_array_append_number := fun h a d => change h a (add_element (JNumber d));
  json_array_append_boolean := fun h a b => change h a (add_element (JBool b));
  json_array_append_string := fun h a s => change h a (add_element (JString s));
  json_array_append_value := fun h a w =>
    attach h a w (fun t => elem (match t with JArray vs => length vs | _ => O end)) add_element;
  json_parse_string_with_comments := fun h bs =>
    match parse (length bs) bs with Some (t, _) => new_value t h | None => (h, None) end;
  json_serialization_size_pretty := fun h v => match value_at h v with Some t => zlen (print t) + 1 | None => 0 end;
  json_serialize_to_buffer_pretty := fun h v size => t ← value_at h v; Some (print t ++ [0]);
|}.

#[export] Instance dom64 : base64 := {|
  Base64_Encode_Bytes := fun b => Some (map Z.succ b);
  Base64_Decoder := fun s => Some (map Z.pred s);
|}.

Definition root (h : heap) (r : pointer) : Prop := snd r = [] /\ h_loc h (fst r) = Some (fst r, []).
#[export] Instance root_dec h r : Decision (root h r).
Proof. unfold root. apply _. Defined.

Definition tree_of (h : heap) (r : pointer) : option json := if bool_decide (root h r) then h_tree h (fst r) else None.
Definition leads (h : heap) (r : pointer) (p : path) (v : pointer) : Prop := root h r /\ loc h v = Some (fst r, p).
Definition numbered (h : heap) : Prop := forall b, (h_next h <= b)%nat -> h_loc h b = None.

#[export] Instance dom_view : @parson_view dom := Build_parson_view dom tree_of leads numbered (fun s => 0 ∉ s).

(** ** The printed form can be read *)

Lemma double_nonneg z : 0 <= double_of_int z.
Proof.
  unfold double_of_int. case_bool_decide; [done|]. cbv zeta. pose proof (Z.log2_nonneg (Z.abs z)) as Hl.
  assert (0 <= (if bool_decide (z < 0) then 2 ^ 63 else 0)) as Hs by (case_bool_decide; lia).
  match goal with |- 0 <= _ + _ + (?m - _) => assert (0 <= m) end; [clear Hs|nia].
  case_bool_decide; [assert (0 < 2 ^ (52 - Z.log2 (Z.abs z))) by (apply Z.pow_pos_nonneg; lia); nia|].
  assert (0 < 2 ^ (Z.log2 (Z.abs z) - 52)) by (apply Z.pow_pos_nonneg; lia).
  assert (0 <= Z.abs z / 2 ^ (Z.log2 (Z.abs z) - 52)) by (apply Z.div_pos; lia).
  case_bool_decide; lia.
Qed.

Lemma print_clean : forall t, plain t -> 0 ∉ print t.
Proof.
  fix IH 1. intros [|b|d|s|ms|vs] Hp.
  - cbn. set_solver.
  - cbn. destruct b; set_solver.
  - destruct Hp as (z & _ & ->). pose proof (double_nonneg z). cbn. rewrite !not_elem_of_cons. split_and!; [done|lia|set_solver].
  - cbn. pose proof (zlen_nonneg s). rewrite !not_elem_of_cons. split_and!; [done|lia|exact Hp].
  - cbn. pose proof (zlen_nonneg ms). rewrite !not_elem_of_cons. split_and!; [done|lia|]. destruct Hp as [Hp _].
    clear H. induction ms as [|[n t] ms IHms]; [set_solver|]. cbn in *. destruct Hp as [Ht Hp].
    rewrite not_elem_of_cons, not_elem_of_app. split_and!; [done|by apply IH|by apply IHms].
  - cbn. pose proof (zlen_nonneg vs). rewrite !not_elem_of_cons. split_and!; [done|lia|].
    clear H. induction vs as [|t vs IHvs]; [set_solver|]. cbn in *. destruct Hp as [Ht Hp].
    rewrite not_elem_of_app. split; [by apply IH|by apply IHvs].
Qed.

Lemma printed_parses : forall t fuel k, (length (print t) <= fuel)%nat -> parse fuel (print t ++ k) = Some (t, k).
Proof.
  fix IH 1. intros [|b|d|s|ms|vs] fuel k Hf; (destruct fuel as [|fuel]; [cbn in Hf; lia|]).
  - done.
  - by destruct b.
  - cbn -[Z.add Z.sub]. do 3 f_equal. lia.
  - cbn -[Z.add Z.sub]. replace (Z.to_nat (zlen s + 1 - 1)) with (length s) by (unfold zlen; lia).
    by rewrite take_app_length, drop_app_length.
  - cbn -[Z.add Z.sub] in *. replace (Z.to_nat (zlen ms + 1 - 1)) with (length ms) by (unfold zlen; lia).
    assert (parse_members (parse fuel) (length ms) (flat_map (fun f => Zpos (encode (fst f)) :: print (snd f)) ms ++ k) = Some (ms, k)) as ->; [|done].
    assert (length (flat_map (fun f => Zpos (encode (fst f)) :: print (snd f)) ms) <= fuel)%nat as Hl by lia. clear Hf.
    induction ms as [|[n t] ms IHms]; [done|]. cbn in *. rewrite length_app in Hl. rewrite decode_encode. cbn.
    rewrite <- app_assoc, IH by lia. cbn. rewrite IHms by lia. done.
  - cbn -[Z.add Z.sub] in *. replace (Z.to_nat (zlen vs + 1 - 1)) with (length vs) by (unfold zlen; lia).
    assert (parse_elements (parse fuel) (length vs) (flat_map print vs ++ k) = Some (vs, k)) as ->; [|done].
    assert (length (flat_map print vs) <= fuel)%nat as Hl by lia. clear Hf.
    induction vs as [|t vs IHvs]; [done|]. cbn in *. rewrite length_app in Hl.
    rewrite <- app_assoc, IH by lia. cbn. rewrite IHvs by lia. done.
Qed.

#[export] Instance dom64_laws : base64_laws.
Proof.
  constructor. intros b Hne Hw. eexists. split_and!; [reflexivity|by destruct b| |].
  - change (0 ∉ map Z.succ b). clear Hne. induction Hw as [|x b Hx Hb IH]; [set_solver|]. cbn. unfold is_u8 in Hx.
    rewrite not_elem_of_cons. split; [lia|done].
  - cbn. f_equal. rewrite map_map. rewrite <- (map_id b) at 2. apply map_ext. intros. lia.
Qed.

(** ** The heap keeps the laws *)

Lemma node_value (h : heap) (r : pointer) p (v : pointer) t : node h r p v t -> value_at h v = Some t /\ loc h v = Some (fst r, p) /\ root h r.
Proof.
  intros [[Hr Hl] (T & Ht & Ha)]. split_and!; [|done|done]. unfold value_at. rewrite Hl. cbn. cbn in Ht. unfold tree_of in Ht.
  rewrite bool_decide_eq_true_2 in Ht by done. rewrite Ht. done.
Qed.

Lemma new_value_law t : allocates (new_value t) t.
Proof.
  intros h Hh. cbn in Hh. unfold numbered in Hh. eexists _, _. split; [reflexivity|].
  assert (Hkeep : forall b, h_loc h b <> None -> upd (h_loc h) (h_next h) (Some (h_next h, [])) b = h_loc h b).
  { intros b Hb. unfold upd. rewrite bool_decide_eq_false_2; [done|]. intros ->. apply Hb, Hh. lia. }
  split_and!.
  - intros b Hb. cbn in *. unfold upd. rewrite bool_decide_eq_false_2 by lia. apply Hh. lia.
  - cbn. unfold tree_of, root. cbn. unfold upd. rewrite !(bool_decide_eq_true_2 (h_next h = h_next h)) by done.
    rewrite bool_decide_eq_true_2 by done. done.
  - intros r T. cbn. unfold tree_of, root. cbn. case_bool_decide as Hr; [|done]. destruct Hr as [Hr1 Hr2]. intros Ht.
    assert (fst r <> h_next h) by (intros E; rewrite E, Hh in Hr2 by lia; done). split; [by intros ->|].
    rewrite bool_decide_eq_true_2 by (split; [done|]; rewrite Hkeep; congruence). unfold upd. by rewrite bool_decide_eq_false_2.
  - intros r q w [[Hr1 Hr2] Hw]. cbn. unfold leads, root, loc in *. cbn. unfold loc in Hw.
    destruct (h_loc h (fst w)) as [[r0 p0]|] eqn:E; [|done]. rewrite !Hkeep by congruence. by rewrite E.
Qed.

Lemma change_law (h : heap) (r : pointer) p (v : pointer) t x f : node h r p v t -> numbered h -> f t = Some x ->
  exists h', change h (Some v) f = (h', true) /\ updates h h' r p x /\ h_loc h' = h_loc h /\ h_next h' = h_next h /\
    (forall b, b <> fst r -> h_tree h' b = h_tree h b).
Proof.
  intros Hn Hh Hf. pose proof (node_value _ _ _ _ _ Hn) as (Hv & Hl & Hr). pose proof Hn as [_ (T & Ht & Ha)].
  cbn in Ht. unfold tree_of in Ht. rewrite bool_decide_eq_true_2 in Ht by done.
  eexists. split; [unfold change; cbn; rewrite Hl; cbn; rewrite Ht; cbn; rewrite Ha; cbn; rewrite Hf; reflexivity|].
  split_and!; [|done|done|intros b Hb; cbn; unfold upd; by rewrite bool_decide_eq_false_2].
  split_and!; [exact Hh| |].
  - intros T'. cbn. unfold tree_of, root. cbn. rewrite bool_decide_eq_true_2 by exact Hr. rewrite Ht. intros [= <-].
    unfold upd. rewrite bool_decide_eq_true_2 by exact Hr. by rewrite bool_decide_eq_true_2.
  - intros q w [Hr' Hw]. split; [exact Hr'|exact Hw].
Qed.

Lemma attach_law (h : heap) (r : pointer) p (v : pointer) t x y (w : pointer) place add : node h r p v t -> numbered h -> tree_of h w = Some x -> w <> r ->
  add x t = Some y -> exists h', attach h (Some v) w place add = (h', true) /\ updates h h' r p y /\
    leads h' r (p ++ [place t]) w.
Proof.
  intros Hn Hh Hw Hne Hadd. destruct (change_law h r p v t y (add x) Hn Hh Hadd) as (h1 & E1 & (Hu1 & Hu2 & Hu3) & Hloc & Hnext & Hother).
  pose proof (node_value _ _ _ _ _ Hn) as (Hv & Hl & Hr). unfold tree_of in Hw. case_bool_decide as Hrw; [|done].
  destruct Hr as [Hr1 Hr2], Hrw as [Hw1 Hw2]. assert (Hrw : fst r <> fst w).
  { intros E. apply Hne. destruct r, w; cbn in *. congruence. }
  eexists. split; [unfold attach; cbn -[change]; rewrite Hl; cbn -[change]; rewrite Hv; cbn -[change]; rewrite Hw; cbn -[change]; rewrite E1; reflexivity|].
  assert (Hroot : root {| h_tree := upd (h_tree h1) (fst w) None;
      h_loc := fun b => match h_loc h1 b with
        | Some (r', q) => if bool_decide (r' = fst w) then Some (fst r, p ++ [place t] ++ q) else Some (r', q)
        | None => None end; h_next := h_next h1 |} r).
  { split; [done|]. cbn. rewrite Hloc, Hr2. by rewrite bool_decide_eq_false_2. }
  split; [split_and!|].
  - intros b Hb. cbn in *. rewrite Hloc, Hh by (rewrite <- Hnext; done). done.
  - intros T HT. specialize (Hu2 T HT). cbn in Hu2 |- *. unfold tree_of in *. rewrite bool_decide_eq_true_2 by exact Hroot.
    case_bool_decide; [|done]. cbn. unfold upd. by rewrite bool_decide_eq_false_2.
  - intros q u [_ Hq]. split; [exact Hroot|]. unfold loc in *. cbn. rewrite Hloc. destruct (h_loc h (fst u)) as [[r0 p0]|]; [|done].
    cbn in Hq. injection Hq as -> <-. rewrite bool_decide_eq_false_2 by done. done.
  - split; [exact Hroot|]. unfold loc. cbn. rewrite Hloc, Hw2, bool_decide_eq_true_2 by done. cbn. rewrite Hw1. do 2 f_equal.
    by rewrite !app_nil_r.
Qed.

Lemma add_member_ok n x ms : n ∉ ms.*1 -> add_member n x (JObject ms) = Some (JObject (ms ++ [(n, x)])).
Proof. intros Hn. unfold add_member. by rewrite bool_decide_eq_false_2. Qed.

Lemma leads_child (h : heap) (r : pointer) p (v : pointer) s : leads h r p v -> leads h r (p ++ [s]) (fst v, snd v ++ [s]).
Proof.
  intros [Hr Hl]. split; [done|]. unfold loc in *. cbn. destruct (h_loc h (fst v)) as [[r0 p0]|]; [|done].
  cbn in *. injection Hl as -> <-. by rewrite app_assoc.
Qed.

#[export] Instance dom_laws : parson_laws.
Proof.
  constructor.
  - done.
  - intros s Hs. change (0 ∉ s). induction Hs as [|b s Hb Hs IH]; [set_solver|]. rewrite not_elem_of_cons. split; [lia|done].
  - intros h r T. cbn. unfold tree_of. case_bool_decide as Hr; [|done]. intros _. split; [done|]. destruct Hr as [Hr1 Hr2].
    unfold loc. rewrite Hr2. cbn. by rewrite Hr1.
  - intros h r p r' p' v [[Hr1 _] Hl] [[Hr1' _] Hl']. rewrite Hl in Hl'. injection Hl' as E <-. split; [|done].
    destruct r, r'; cbn in *. congruence.
  - apply new_value_law.
  - apply new_value_law.
  - apply new_value_law.
  - intros h r p v t Hn. cbn. unfold checked. destruct (node_value _ _ _ _ _ Hn) as (-> & _). done.
  - intros h r p v ms Hn. cbn. destruct (node_value _ _ _ _ _ Hn) as (-> & _). done.
  - intros h r p v vs Hn. cbn. destruct (node_value _ _ _ _ _ Hn) as (-> & _). done.
  - intros h r p v d Hn. cbn. unfold checked. destruct (node_value _ _ _ _ _ Hn) as (-> & _). done.
  - intros h r p v b Hn. cbn. unfold checked. destruct (node_value _ _ _ _ _ Hn) as (-> & _). done.
  - intros h r p v s Hn. cbn. unfold checked. destruct (node_value _ _ _ _ _ Hn) as (-> & _). done.
  - intros h r p v ms n t Hn Hl. cbn. destruct (node_value _ _ _ _ _ Hn) as (-> & _). cbn. rewrite Hl. cbn.
    eexists. split; [done|]. apply leads_child, Hn.
  - intros h r p v vs i t Hn Hl. cbn. destruct (node_value _ _ _ _ _ Hn) as (-> & _). cbn. rewrite Nat2Z.id, Hl. cbn.
    eexists. split; [done|]. apply leads_child, Hn.
  - intros h r p v vs Hn. cbn. destruct (node_value _ _ _ _ _ Hn) as (-> & _). done.
  - intros d h r p v ms n Hh Hn Hm. edestruct (change_law h r p v) as (h' & E & Hu & _); [done|done|by apply add_member_ok|exists h'; split; [exact E|exact Hu]].
  - intros d h r p v ms n Hh Hn Hm. edestruct (change_law h r p v) as (h' & E & Hu & _); [done|done|by apply add_member_ok|exists h'; split; [exact E|exact Hu]].
  - intros d _ h r p v ms n Hh Hn Hm. edestruct (change_law h r p v) as (h' & E & Hu & _); [done|done|by apply add_member_ok|exists h'; split; [exact E|exact Hu]].
  - intros d h r p v vs Hh Hn. destruct (change_law h r p v (JArray vs) _ (add_element (JNumber d)) Hn Hh eq_refl) as (h' & E & Hu & _).
    exists h'. split; [exact E|exact Hu].
  - intros d h r p v vs Hh Hn. destruct (change_law h r p v (JArray vs) _ (add_element (JBool d)) Hn Hh eq_refl) as (h' & E & Hu & _).
    exists h'. split; [exact E|exact Hu].
  - intros d _ h r p v vs Hh Hn. destruct (change_law h r p v (JArray vs) _ (add_element (JString d)) Hn Hh eq_refl) as (h' & E & Hu & _).
    exists h'. split; [exact E|exact Hu].
  - intros h r p v ms n w t Hh Hn Hm Hw Hne.
    destruct (attach_law h r p v (JObject ms) t _ w (fun _ => key n) (add_member n) Hn Hh Hw Hne (add_member_ok n t ms Hm)) as (h' & E & Hu & Hl).
    exists h'. split; [exact E|]. split; [exact Hu|exact Hl].
  - intros h r p v vs w t Hh Hn Hw Hne.
    destruct (attach_law h r p v (JArray vs) t _ w (fun t => elem (match t with JArray vs => length vs | _ => O end)) add_element Hn Hh Hw Hne eq_refl)
      as (h' & E & Hu & Hl). exists h'. split; [exact E|]. split; [exact Hu|exact Hl].
  - intros h v T Hh Ht Hp. assert (value_at h v = Some T) as Hv.
    { cbn in Ht. unfold tree_of in Ht. case_bool_decide as Hr; [|done]. destruct Hr as [Hr1 Hr2]. unfold value_at, loc. rewrite Hr2. cbn.
      rewrite Ht. cbn. by rewrite Hr1. }
    exists (print T). split_and!; [by destruct T|by apply print_clean|cbn; by rewrite Hv|cbn; by rewrite Hv|]. intros h0 Hh0.
    destruct (new_value_law T h0 Hh0) as (h1 & w & E & Hh1 & Ht1 & _). exists h1, w. split; [|done]. cbn.
    pose proof (printed_parses T (length (print T)) [] ltac:(lia)) as Hpp. rewrite app_nil_r in Hpp. by rewrite Hpp.
Qed.

(** ** Examples *)

Definition empty_heap : heap := {| h_tree := fun _ => None; h_loc := fun _ => None; h_next := 0 |}.

Lemma json_uint64_range_witness :
  exists j', json_write_uinteger (PA := dom) (Some "n"%string) (2 ^ 64 - 1)
      {| w_doc := fst (new_value (JObject []) empty_heap); w_mem := new_memory (fun _ => false) |} (first_ctx (PA := dom) (0%nat, []))
    = Ok (tt, {| w_doc := j'; w_mem := new_memory (fun _ => false) |}, first_ctx (PA := dom) (0%nat, [])) /\
  json_read_uinteger (PA := dom) (Some "n"%string) {| w_doc := j'; w_mem := new_memory (fun _ => false) |} (first_ctx (PA := dom) (0%nat, [])) = UB.
Proof.
  destruct (json_uint64_range (PA := dom) (new_memory (fun _ => false)) (fst (new_value (JObject []) empty_heap))
    (first_ctx (PA := dom) (0%nat, [])) (0%nat, []) [] [] "n"%string (2 ^ 64 - 1)) as (j' & E & _ & _ & Hub).
  - intros [|b] Hb; [cbn in Hb; lia|done].
  - split; [split; [split; reflexivity|reflexivity]|]. exists (JObject []). split; [vm_compute; reflexivity|reflexivity].
  - cbn. set_solver.
  - lia.
  - exists j'. split; [exact E|]. apply Hub. lia.
Defined.

(** The answer to request 26: a response with a text in its buffer. *)
Definition sample_answer : io_message ptr :=
  {| source_id := source_id sample_message; proxy_id := proxy_id sample_message; target_id := target_id sample_message;
     error_code := 0; is_response := true; type := io_message_type_data; content := content sample_message;
     correlation_id := 26 |}.
Definition answer_contents : io_message bytes :=
  {| source_id := source_id sample_message; proxy_id := proxy_id sample_message; target_id := target_id sample_message;
     error_code := 0; is_response := true; type := io_message_type_data; content := content sample_contents;
     correlation_id := 26 |}.

Lemma mqtt_message_roundtrip_witness :
  exists body rid, string_to_int rid 16 = Ok 26 /\
    (forall sm, sends sm (zlen body) ->
       io_iot_hub_umqtt_connection_on_send (PA := dom) sm empty_heap (new_memory (fun _ => true)) [101] sample_answer
       = Ok (response_topic ++ rid, body)) /\
    forall fuel, (length body < fuel)%nat ->
      exists m' mu', io_iot_hub_umqtt_connection_on_receive (PA := dom) no_pton fuel (fun _ => true) true no_properties empty_heap
          (new_memory (fun _ => true)) (Ok rid) body = Some (Ok (m', mu')) /\
        message_den mu' m' = Some (with_id (received answer_contents) 26).
Proof.
  apply (mqtt_message_roundtrip (PA := dom) no_pton no_properties sample_answer (new_memory (fun _ => true)) answer_contents
    empty_heap (new_memory (fun _ => true)) empty_heap [101]).
  - reflexivity.
  - destruct sample_wf as (? & ? & ? & ? & ? & ?). split_and!; done.
  - apply (bool_decide_unpack _). vm_compute. exact I.
  - cbn -[Z.pow print_uuid]. split_and!; try done; try lia; apply (bool_decide_unpack _); vm_compute; exact I.
  - split; reflexivity.
  - done.
  - done.
  - split; done.
  - done.
Defined.
End JsonDom.
