(* ===== verification/DList.v ===== *)
(** * Doubly linked lists

    The lists of the program are the intrusive [DLIST_ENTRY] rings of the shared
    utility library, which is not part of the repository.  [dlist] holds its
    functions over a state [D] of links between nodes [N]; [dlist_laws] is what is
    documented of them, in terms of rings: [ring d l] says that following the
    forward links from the first node of [l] visits the nodes of [l] in order and
    comes back.  A list with head [h] and entries [l] is [ring d (h :: l)]; a node
    that is in no list is its own ring or was not initialised.

    [links] is an implementation with forward and backward pointers, which shows
    that the laws can be met. *)
From stdpp Require Import base option list numbers sets.
From S2P Require Import Prelude.

Module DList.

Class dlist (D N : Type) := {
  Flink : D -> N -> N;
  DList_InitializeListHead : D -> N -> D;
  DList_IsListEmpty : D -> N -> bool;
  DList_InsertTailList : D -> N -> N -> D;       (* list head, entry *)
  DList_RemoveEntryList : D -> N -> D;
  DList_RemoveHeadList : D -> N -> N * D;
  DList_AppendTailList : D -> N -> N -> D;       (* list head, entry of the other ring *)
}.

(** [keeps d d' l]: the rings that share no node with [l] are as before. *)
Definition keeps {D N : Type} (ring : D -> list N -> Prop) (d d' : D) (l : list N) : Prop :=
  forall m, l ## m -> ring d m -> ring d' m.

Class dlist_laws (D N : Type) `{dlist D N} := {
  ring : D -> list N -> Prop;

  ring_nodup d l : ring d l -> NoDup l;
  ring_rotate d x l : ring d (x :: l) -> ring d (l ++ [x]);
  Flink_law d x l : ring d (x :: l) -> Flink d x = default x (head l);
  init_law d x :
    ring (DList_InitializeListHead d x) [x] /\ keeps ring d (DList_InitializeListHead d x) [x];
  is_empty_law d h l : ring d (h :: l) -> DList_IsListEmpty d h = bool_decide (l = []);
  insert_tail_law d h l x : ring d (h :: l) -> x ∉ h :: l ->
    ring (DList_InsertTailList d h x) (h :: l ++ [x]) /\
    keeps ring d (DList_InsertTailList d h x) (h :: l ++ [x]);
  remove_law d x y l : ring d (x :: y :: l) ->
    ring (DList_RemoveEntryList d x) (y :: l) /\
    keeps ring d (DList_RemoveEntryList d x) (x :: y :: l);
  remove_alone_law d x : ring d [x] ->
    ring (DList_RemoveEntryList d x) [x] /\ keeps ring d (DList_RemoveEntryList d x) [x];
  (** A removed entry keeps its links: removing it again changes nothing. *)
  remove_again_law d x y l : ring d (x :: y :: l) ->
    let d' := DList_RemoveEntryList d x in
    ring (DList_RemoveEntryList d' x) (y :: l) /\
    keeps ring d' (DList_RemoveEntryList d' x) (x :: y :: l);
  remove_head_law d h x l : ring d (h :: x :: l) ->
    DList_RemoveHeadList d h = (x, DList_RemoveEntryList d x);
  append_law d h l k m : ring d (h :: l) -> ring d (k :: m) -> h :: l ## k :: m ->
    ring (DList_AppendTailList d h k) (h :: l ++ k :: m) /\
    keeps ring d (DList_AppendTailList d h k) (h :: l ++ k :: m);
}.

(** ** Derived: entries of a list *)
Section Derived.
Context {D N : Type} `{L : dlist_laws D N}.

Lemma ring_rotations d l k : ring d (l ++ k) -> ring d (k ++ l).
Proof.
  revert k. induction l as [|x l IH]; intros k Hr; [by rewrite app_nil_r|].
  cbn in Hr. apply ring_rotate in Hr. rewrite <- app_assoc in Hr. apply IH in Hr.
  by rewrite <- app_assoc in Hr.
Qed.

(** An entry is removed from the list it is in. *)
Lemma remove_entry d h l x k : ring d (h :: l ++ x :: k) ->
  ring (DList_RemoveEntryList d x) (h :: l ++ k) /\
  keeps ring d (DList_RemoveEntryList d x) (h :: l ++ x :: k).
Proof.
  intros Hr. change (h :: l ++ x :: k) with ((h :: l) ++ (x :: k)) in Hr.
  apply ring_rotations in Hr. cbn in Hr.
  assert (Hne : exists y r, k ++ h :: l = y :: r) by (destruct k; cbn; eauto).
  destruct Hne as (y & r & E). rewrite E in Hr. apply remove_law in Hr as [Hr Hk].
  rewrite <- E in Hr. apply ring_rotations in Hr. split; [exact Hr|].
  intros m Hm. apply Hk. rewrite <- E. intros z Hz1 Hz2. apply (Hm z); [|done]. set_solver.
Qed.

(** And removing it again changes no list. *)
Lemma remove_entry_again d h l x k : ring d (h :: l ++ x :: k) ->
  let d' := DList_RemoveEntryList d x in
  ring (DList_RemoveEntryList d' x) (h :: l ++ k) /\
  keeps ring d' (DList_RemoveEntryList d' x) (h :: l ++ x :: k).
Proof.
  intros Hr d'. change (h :: l ++ x :: k) with ((h :: l) ++ (x :: k)) in Hr.
  apply ring_rotations in Hr. cbn in Hr.
  assert (Hne : exists y r, k ++ h :: l = y :: r) by (destruct k; cbn; eauto).
  destruct Hne as (y & r & E). rewrite E in Hr. apply remove_again_law in Hr as [Hr Hk].
  rewrite <- E in Hr. apply ring_rotations in Hr. split; [exact Hr|].
  intros m Hm. apply Hk. rewrite <- E. intros z Hz1 Hz2. apply (Hm z); [|done]. set_solver.
Qed.
End Derived.

(** ** Links as a pair of pointers per node *)
Section Links.
Context {N : Type} `{!EqDecision N}.

Definition links := N -> N * N.

Definition set_next (d : links) (x y : N) : links := fun z =>
  if decide (z = x) then (y, snd (d z)) else d z.
Definition set_prev (d : links) (x y : N) : links := fun z =>
  if decide (z = x) then (fst (d z), y) else d z.

(** Let [y] follow [x]. *)
Definition join (d : links) (x y : N) : links := set_prev (set_next d x y) y x.

#[export] Instance links_dlist : dlist links N := {|
  Flink d x := fst (d x);
  DList_InitializeListHead d x := join d x x;
  DList_IsListEmpty d h := bool_decide (fst (d h) = h);
  DList_InsertTailList d h x := join (join d (snd (d h)) x) x h;
  DList_RemoveEntryList d x := join d (snd (d x)) (fst (d x));
  DList_RemoveHeadList d h := (fst (d h), join d (snd (d (fst (d h)))) (fst (d (fst (d h)))));
  DList_AppendTailList d h k := join (join d (snd (d h)) k) (snd (d k)) h;
|}.

(** From [x] through [l]. *)
Fixpoint chain (d : links) (x : N) (l : list N) : Prop :=
  match l with [] => True | y :: l => fst (d x) = y /\ snd (d y) = x /\ chain d y l end.

Definition is_ring (d : links) (l : list N) : Prop :=
  match l with [] => False | x :: k => NoDup l /\ chain d x (k ++ [x]) end.

Lemma chain_app d l : forall x y k, chain d x (l ++ y :: k) <-> chain d x (l ++ [y]) /\ chain d y k.
Proof.
  induction l as [|z l IH]; intros x y k; cbn; [tauto|]. rewrite IH. tauto.
Qed.

(** A chain only depends on the forward links of the nodes it leaves and the
    backward links of the nodes it enters. *)
Lemma chain_ext d d' l : forall x, chain d x l ->
  (forall z, z ∈ x :: removelast l -> fst (d' z) = fst (d z)) ->
  (forall z, z ∈ l -> snd (d' z) = snd (d z)) -> chain d' x l.
Proof.
  induction l as [|y l IH]; intros x Hc Hf Hb; [done|]. destruct Hc as (H1 & H2 & H3).
  cbn. split; [|split].
  - rewrite Hf; [done|]. apply list_elem_of_here.
  - rewrite Hb; [done|]. apply list_elem_of_here.
  - destruct l as [|y' l]; [done|]. apply IH; [done| |].
    + intros z Hz. apply Hf. apply list_elem_of_further. exact Hz.
    + intros z Hz. apply Hb. by apply list_elem_of_further.
Qed.

Lemma removelast_snoc (l : list N) x : removelast (l ++ [x]) = l.
Proof. by rewrite removelast_last. Qed.

Lemma fst_join d x y z : fst (join d x y z) = if decide (z = x) then y else fst (d z).
Proof. unfold join, set_prev, set_next. repeat case_decide; done. Qed.
Lemma snd_join d x y z : snd (join d x y z) = if decide (z = y) then x else snd (d z).
Proof. unfold join, set_prev, set_next. repeat case_decide; done. Qed.

Lemma is_ring_keeps d d' l : (forall z, z ∉ l -> d' z = d z) -> keeps is_ring d d' l.
Proof.
  intros He [|x m] Hd Hr; [done|]. destruct Hr as [Hn Hc]. split; [done|].
  assert (Hin : forall z, z ∈ x :: m -> d' z = d z) by (intros z Hz; apply He; intros Hz'; by apply (Hd z)).
  eapply chain_ext; [done| |]; intros z Hz; f_equal; apply Hin.
  - rewrite removelast_snoc in Hz. done.
  - set_solver.
Qed.

(** The last node of a chain. *)
Definition last_of (x : N) (l : list N) : N := default x (last l).

Lemma last_of_snoc x l y : last_of x (l ++ [y]) = y.
Proof. unfold last_of. by rewrite last_snoc. Qed.

Lemma last_of_in x l : last_of x l ∈ x :: l.
Proof.
  destruct l as [|y l _] using rev_ind; [apply list_elem_of_here|]. rewrite last_of_snoc. set_solver.
Qed.

(** A chain is extended at its end; the new node may be the first one. *)
Lemma chain_join d x l y : chain d x l -> NoDup (x :: l) -> y ∉ l ->
  chain (join d (last_of x l) y) x (l ++ [y]).
Proof.
  intros Hc Hn Hy. destruct l as [|b l _] using rev_ind.
  - cbn. rewrite fst_join, snd_join. by repeat case_decide.
  - rewrite last_of_snoc, <- app_assoc. cbn. apply chain_app. split.
    + eapply chain_ext; [done| |].
      * intros z Hz. rewrite fst_join. case_decide; [|done]. subst z. exfalso.
        rewrite removelast_snoc in Hz. change (x :: l ++ [b]) with ((x :: l) ++ [b]) in Hn.
        apply NoDup_app in Hn as (_ & Hn & _). apply (Hn b Hz). by apply list_elem_of_here.
      * intros z Hz. rewrite snd_join. case_decide; [subst; done|done].
    + cbn. rewrite fst_join, snd_join. by repeat case_decide.
Qed.

(** The last node of a ring precedes the first. *)
Lemma ring_prev d x l : is_ring d (x :: l) -> snd (d x) = last_of x l /\ chain d x l.
Proof.
  intros [Hn Hc]. destruct l as [|y l _] using rev_ind.
  - cbn in Hc. split; [tauto|done].
  - rewrite <- app_assoc in Hc. cbn in Hc. apply chain_app in Hc as [Hc1 Hc2].
    rewrite last_of_snoc. cbn in Hc2. tauto.
Qed.

Lemma join_keeps d x y l : x ∈ l -> y ∈ l -> keeps is_ring d (join d x y) l.
Proof.
  intros Hx Hy. apply is_ring_keeps. intros z Hz. unfold join, set_prev, set_next.
  repeat case_decide; subst; done.
Qed.

Lemma keeps_trans d d1 d2 (l : list N) :
  keeps is_ring d d1 l -> keeps is_ring d1 d2 l -> keeps is_ring d d2 l.
Proof. unfold keeps. eauto. Qed.

Lemma links_insert d h l x : is_ring d (h :: l) -> x ∉ h :: l ->
  is_ring (DList_InsertTailList d h x) (h :: l ++ [x]) /\
  keeps is_ring d (DList_InsertTailList d h x) (h :: l ++ [x]).
Proof.
  intros Hr Hx. pose proof Hr as [Hn _]. destruct (ring_prev d h l Hr) as [Hb Hc].
  cbn [DList_InsertTailList links_dlist]. rewrite Hb.
  assert (Hn' : NoDup (h :: l ++ [x])).
  { change (h :: l ++ [x]) with ((h :: l) ++ [x]). apply NoDup_app. split; [done|].
    split; [|apply NoDup_singleton]. intros z Hz Hz'. apply list_elem_of_singleton in Hz'. by subst. }
  assert (Hhx : h ∉ l ++ [x]) by (by apply NoDup_cons in Hn' as [? _]).
  split.
  - split; [done|]. pose proof (chain_join d h l x Hc Hn ltac:(set_solver)) as Hc1.
    pose proof (chain_join _ _ _ h Hc1 Hn' Hhx) as Hc2. by rewrite last_of_snoc in Hc2.
  - pose proof (last_of_in h l). eapply keeps_trans; apply join_keeps; set_solver.
Qed.

Lemma links_remove d x y l : is_ring d (x :: y :: l) ->
  DList_RemoveEntryList d x = join d (last_of y l) y /\
  is_ring (DList_RemoveEntryList d x) (y :: l) /\
  keeps is_ring d (DList_RemoveEntryList d x) (x :: y :: l).
Proof.
  intros Hr. pose proof Hr as [Hn [Hf _]]. destruct (ring_prev d x (y :: l) Hr) as [Hb [_ [_ Hc]]].
  cbn [DList_RemoveEntryList links_dlist]. rewrite Hb, Hf.
  assert (Hl : last_of x (y :: l) = last_of y l).
  { destruct l as [|z l _] using rev_ind; [done|].
    change (y :: l ++ [z]) with ((y :: l) ++ [z]). by rewrite !last_of_snoc. }
  rewrite Hl. split; [done|]. apply NoDup_cons in Hn as [Hx Hn]. split.
  - split; [done|]. apply chain_join; [done|done|]. by apply NoDup_cons in Hn as [? _].
  - pose proof (last_of_in y l). apply join_keeps; set_solver.
Qed.

Lemma links_remove_again d x y l : is_ring d (x :: y :: l) ->
  let d' := DList_RemoveEntryList d x in
  is_ring (DList_RemoveEntryList d' x) (y :: l) /\
  keeps is_ring d' (DList_RemoveEntryList d' x) (x :: y :: l).
Proof.
  intros Hr d'. destruct (links_remove d x y l Hr) as (E & Hr' & _). subst d'.
  pose proof Hr as [Hn [Hf _]]. destruct (ring_prev d x (y :: l) Hr) as [Hb _].
  apply NoDup_cons in Hn as [Hx Hn]. pose proof (last_of_in y l) as Hin.
  assert (Hd : DList_RemoveEntryList (DList_RemoveEntryList d x) x
               = join (DList_RemoveEntryList d x) (last_of y l) y).
  { rewrite E. cbn [DList_RemoveEntryList links_dlist]. rewrite snd_join, fst_join.
    rewrite (decide_False (P := x = y)) by (intros ->; apply Hx, list_elem_of_here).
    rewrite (decide_False (P := x = last_of y l)) by (intros Ex; apply Hx; by rewrite Ex).
    rewrite Hf, Hb. f_equal. destruct l as [|z l _] using rev_ind; [done|].
    change (y :: l ++ [z]) with ((y :: l) ++ [z]). by rewrite !last_of_snoc. }
  rewrite Hd. split; [|apply join_keeps; set_solver].
  destruct (ring_prev _ y l Hr') as [_ Hc]. split; [done|].
  apply chain_join; [done|done|]. by apply NoDup_cons in Hn as [? _].
Qed.

Lemma links_append d h l k m : is_ring d (h :: l) -> is_ring d (k :: m) -> h :: l ## k :: m ->
  is_ring (DList_AppendTailList d h k) (h :: l ++ k :: m) /\
  keeps is_ring d (DList_AppendTailList d h k) (h :: l ++ k :: m).
Proof.
  intros Hr Hr' Hd. pose proof Hr as [Hn _]. pose proof Hr' as [Hn' _].
  destruct (ring_prev d h l Hr) as [Hb Hc]. destruct (ring_prev d k m Hr') as [He Hc'].
  cbn [DList_AppendTailList links_dlist]. rewrite Hb, He.
  pose proof (last_of_in h l) as Hin. pose proof (last_of_in k m) as Hin'.
  assert (Hnn : NoDup (h :: l ++ k :: m)).
  { change (h :: l ++ k :: m) with ((h :: l) ++ (k :: m)). apply NoDup_app. split; [done|].
    split; [|done]. intros z Hz Hz'. by apply (Hd z). }
  assert (Hh : h ∉ l ++ k :: m) by (by apply NoDup_cons in Hnn as [? _]).
  assert (Hk : k ∉ m) by (by apply NoDup_cons in Hn' as [? _]).
  split.
  - split; [done|].
    assert (Hc1 : chain (join d (last_of h l) k) h (l ++ k :: m)).
    { apply chain_app. split; [apply chain_join; [done|done|]|].
      - intros Hkl. apply (Hd k); [by apply list_elem_of_further|apply list_elem_of_here].
      - eapply chain_ext; [done| |].
        + intros z Hz. rewrite fst_join. case_decide; [|done]. subst z. exfalso.
          apply (Hd (last_of h l)); [done|].
          destruct m as [|e m _] using rev_ind; [done|]. rewrite removelast_snoc in Hz. set_solver.
        + intros z Hz. rewrite snd_join. case_decide; [by subst|done]. }
    pose proof (chain_join _ _ _ h Hc1 Hnn Hh) as Hc2.
    assert (Hl : last_of h (l ++ k :: m) = last_of k m).
    { destruct m as [|e m _] using rev_ind; [by rewrite last_of_snoc|].
      replace (l ++ k :: m ++ [e]) with ((l ++ k :: m) ++ [e]) by (by rewrite <- app_assoc).
      by rewrite !last_of_snoc. }
    by rewrite Hl in Hc2.
  - eapply keeps_trans; apply join_keeps; set_solver.
Qed.

#[export] Instance links_laws : dlist_laws links N.
Proof.
  refine {| ring := is_ring |}.
  - intros d [|x l]; [done|]. by intros [? _].
  - intros d x [|y l]; [done|]. intros [Hn Hc]. cbn in Hc. destruct Hc as (H1 & H2 & H3). split.
    + apply NoDup_cons in Hn as [Hx Hn]. change (y :: l ++ [x]) with ((y :: l) ++ [x]).
      apply NoDup_app. split; [done|]. split; [|apply NoDup_singleton].
      intros z Hz Hz'. apply list_elem_of_singleton in Hz'. by subst.
    + rewrite <- app_assoc. cbn. apply chain_app. cbn. done.
  - intros d x l [_ Hc]. destruct l; cbn in Hc |- *; tauto.
  - intros d x. split; [|apply join_keeps; set_solver].
    split; [apply NoDup_singleton|]. apply (chain_join d x [] x); [done|apply NoDup_singleton|set_solver].
  - intros d h l [Hn Hc]. cbn. apply bool_decide_ext. destruct l as [|y l]; cbn in Hc; [tauto|].
    apply NoDup_cons in Hn as [Hx _]. split; [|done]. intros E. exfalso. apply Hx.
    destruct Hc as (H1 & _). rewrite E in H1. subst. apply list_elem_of_here.
  - apply links_insert.
  - intros d x y l Hr. by apply links_remove in Hr as (_ & ? & ?).
  - intros d x Hr. pose proof Hr as [_ [H1 [H2 _]]]. cbn [DList_RemoveEntryList links_dlist].
    rewrite H1, H2. split; [|apply join_keeps; set_solver].
    split; [apply NoDup_singleton|]. apply (chain_join d x [] x); [done|apply NoDup_singleton|set_solver].
  - apply links_remove_again.
  - intros d h x l [_ [H1 _]]. cbn. by rewrite H1.
  - apply links_append.
Defined.
End Links.
Arguments links : clear implicits.
End DList.
