(* ===== verification/DListStore.v ===== *)
(** * Lists of entries by address

    The intrusive lists of the program have their heads in a structure (one for each
    element of a finite type [K]) and their entries in buffers, named by address.
    [rep A d P f]: in the links [d], list [s] holds the entries [f s] in order for the
    lists [A] that are initialised (the head of a list may be a local variable), no
    entry is in two lists, and an entry of [P] that is in no list is its own ring, so
    that it can be removed without effect. *)
From stdpp Require Import base option list numbers sets finite.
From S2P Require Import Prelude DList.
Import DList.

Module DListStore.

Inductive node (K : Type) := head_of (s : K) | link_of (b : Z).
Arguments head_of {K}. Arguments link_of {K}.

#[export] Instance node_eq_dec `{EqDecision K} : EqDecision (node K).
Proof. solve_decision. Defined.

(** [containingRecord(entry, ..., link)]; the head of a list is in no entry. *)
Definition entry_of {K} (n : node K) : option Z :=
  match n with link_of b => Some b | head_of _ => None end.

(** ** Sequences *)

Definition rm (b : Z) (l : list Z) : list Z := filter (fun c => c <> b) l.

Lemma rm_not_in b l : b ∉ l -> rm b l = l.
Proof.
  unfold rm. induction l as [|c l IH]; intros Hb; [done|]. rewrite filter_cons_True by set_solver.
  rewrite IH; [done|]. set_solver.
Qed.

Lemma rm_middle b l1 l2 : NoDup (l1 ++ b :: l2) -> rm b (l1 ++ b :: l2) = l1 ++ l2.
Proof.
  intros Hn. apply NoDup_app in Hn as (_ & H1 & H2). apply NoDup_cons in H2 as [H2 _].
  unfold rm. rewrite filter_app, filter_cons_False by tauto. fold (rm b l1). fold (rm b l2).
  rewrite !rm_not_in; [done|done|]. intros Hb. apply (H1 b Hb). apply list_elem_of_here.
Qed.

Lemma elem_rm c b l : c ∈ rm b l <-> c <> b /\ c ∈ l.
Proof. unfold rm. by rewrite list_elem_of_filter. Qed.

Section Spec.
Context {K : Type} `{EqDecision K}.

Definition lists := K -> list Z.

Definition set_list (f : lists) (s : K) (l : list Z) : lists := fun t =>
  if decide (t = s) then l else f t.
Definition push (f : lists) (s : K) (b : Z) : lists := fun t =>
  if decide (t = s) then rm b (f t) ++ [b] else rm b (f t).
Definition detach (f : lists) (b : Z) : lists := fun t => rm b (f t).

Lemma elem_push c f s b t : c ∈ push f s b t <-> (c = b /\ t = s) \/ (c <> b /\ c ∈ f t).
Proof.
  unfold push. destruct (decide (c = b)) as [->|Hc]; case_decide;
    rewrite ?elem_of_app, ?elem_rm, ?list_elem_of_singleton; naive_solver.
Qed.

Lemma detach_middle f s b l1 l2 : (forall t u c, c ∈ f t -> c ∈ f u -> t = u) -> NoDup (f s) ->
  f s = l1 ++ b :: l2 -> forall t, detach f b t = set_list f s (l1 ++ l2) t.
Proof.
  intros Ho Hn E t. unfold detach, set_list. case_decide as Ht.
  - subst. rewrite E in *. by apply rm_middle.
  - apply rm_not_in. intros Hb. apply Ht. eapply Ho; [done|]. rewrite E. set_solver.
Qed.
End Spec.
Arguments lists : clear implicits.

Section Store.
Context {D K : Type} `{Finite K} `{L : dlist_laws D (node K)}.
Implicit Types (A : K -> Prop) (d : D) (f : lists K) (P : Z -> Prop).

Definition dl (d : D) (s : K) (l : list Z) : Prop := ring d (head_of s :: map link_of l).

Record rep A d P f : Prop := {
  st_lists s : A s -> dl d s (f s);
  st_in s b : b ∈ f s -> A s;
  st_once s t b : b ∈ f s -> b ∈ f t -> s = t;
  st_alone b : P b -> (forall s, b ∉ f s) -> ring d [link_of b];
}.

Lemma dl_nodup d s l : dl d s l -> NoDup l.
Proof.
  intros Hr. apply ring_nodup in Hr. apply NoDup_cons in Hr as [_ Hn].
  by apply NoDup_fmap_1 in Hn.
Qed.

Lemma elem_links (b : Z) (l : list Z) : link_of (K := K) b ∈ map link_of l <-> b ∈ l.
Proof.
  rewrite !list_elem_of_In, in_map_iff. split; [|eauto]. by intros (c & [= ->] & ?).
Qed.

Lemma head_not_link (s : K) l : head_of s ∉ map link_of l.
Proof. rewrite list_elem_of_In, in_map_iff. by intros (c & ? & _). Qed.

Lemma lists_disjoint (s t : K) l k : s <> t -> (forall b, b ∈ l -> b ∈ k -> False) ->
  head_of s :: map link_of l ## head_of t :: map link_of k.
Proof.
  intros Hst Hlk n Hn Hn'. apply elem_of_cons in Hn as [->|Hn].
  - apply elem_of_cons in Hn' as [[= ?]|Hn']; [done|]. by apply head_not_link in Hn'.
  - destruct n as [u|b]; [by apply head_not_link in Hn|].
    apply elem_of_cons in Hn' as [?|Hn']; [done|]. apply elem_links in Hn, Hn'. eauto.
Qed.

Lemma alone_disjoint b (s : K) l : b ∉ l -> [link_of b] ## head_of s :: map link_of l.
Proof.
  intros Hb n Hn Hn'. apply list_elem_of_singleton in Hn as ->.
  apply elem_of_cons in Hn' as [?|Hn']; [done|]. by apply elem_links in Hn'.
Qed.

Lemma somewhere f b : (exists s, b ∈ f s) \/ (forall s, b ∉ f s).
Proof. destruct (decide (exists s, b ∈ f s)); [by left|]. right. naive_solver. Qed.

Lemma rep_ext A d P f g : (forall s, f s = g s) -> rep A d P f -> rep A d P g.
Proof.
  intros E [H1 H2 H3 H4]. constructor; intros *; rewrite <- ?E; eauto.
  intros Hb Hn. apply H4; [done|]. intros s. rewrite E. apply Hn.
Qed.

Lemma rep_weaken A d P P' f :
  (forall b, P' b -> (forall s, b ∉ f s) -> P b) -> rep A d P f -> rep A d P' f.
Proof. intros Hp [H1 H2 H3 H4]. constructor; eauto. Qed.

(** The head of an empty list is forgotten. *)
Lemma rep_forget A d P f s : rep A d P f -> f s = [] -> rep (fun t => A t /\ t <> s) d P f.
Proof.
  intros [H1 H2 H3 H4] E. constructor; eauto; [naive_solver|]. intros t b Hb. split; [eauto|].
  intros ->. rewrite E in Hb. by apply elem_of_nil in Hb.
Qed.

Lemma rep_nodup A d P f s : rep A d P f -> NoDup (f s).
Proof.
  intros Hr. destruct (f s) as [|b l] eqn:E; [constructor|]. rewrite <- E.
  eapply dl_nodup, (st_lists _ _ _ _ Hr), (st_in _ _ _ _ Hr). rewrite E. apply list_elem_of_here.
Qed.

(** Links from which the entry [b] was removed. *)
Definition without A d P f b : Prop :=
  (forall s, A s -> dl d s (rm b (f s))) /\
  (forall c, c <> b -> P c -> (forall s, c ∉ f s) -> ring d [link_of c]).

Lemma remove_link A d P f b : rep A d P f -> P b \/ (exists s, b ∈ f s) ->
  without A (DList_RemoveEntryList d (link_of b)) P f b.
Proof.
  intros [Hl Hi Ho Ha] Hb. set (d' := DList_RemoveEntryList d (link_of b)).
  destruct (somewhere f b) as [[s Hs]|Hall]; cycle 1.
  - destruct Hb as [Hb|[s Hs]]; [|by apply Hall in Hs].
    destruct (remove_alone_law d (link_of b) (Ha b Hb Hall)) as [_ Hk]. split.
    + intros s As. rewrite rm_not_in by done. apply Hk; [by apply alone_disjoint|by apply Hl].
    + intros c Hc Hcs Hca. apply Hk; [|by apply Ha]. set_solver.
  - pose proof (Hl s (Hi s b Hs)) as Hrs. pose proof (dl_nodup _ _ _ Hrs) as Hn.
    apply list_elem_of_split in Hs as Hsp. destruct Hsp as (l1 & l2 & E).
    unfold dl in Hrs. rewrite E, map_app in Hrs. cbn in Hrs.
    apply remove_entry in Hrs as [Hrs Hk]. fold d' in Hrs, Hk.
    assert (Hfs : head_of s :: map link_of l1 ++ link_of b :: map link_of l2
                  = head_of s :: map link_of (f s)) by (rewrite E, map_app; done).
    split.
    + intros t At. destruct (decide (t = s)) as [->|Hts].
      * rewrite E in Hn |- *. rewrite rm_middle by done. unfold dl. by rewrite map_app.
      * rewrite rm_not_in by (intros Hbt; apply Hts; by eapply Ho). apply Hk; [|by apply Hl].
        rewrite Hfs. apply lists_disjoint; [done|]. intros c Hc Hc'. apply Hts. by eapply Ho.
    + intros c Hc Hcs Hca. apply Hk; [|by apply Ha]. rewrite Hfs.
      intros n Hn1 Hn2. by apply (alone_disjoint c s (f s) (Hca s) n).
Qed.

(** Removing an entry that was removed just before. *)
Lemma remove_link_again A d P f s b : rep A d P f -> b ∈ f s ->
  without A (DList_RemoveEntryList (DList_RemoveEntryList d (link_of b)) (link_of b)) P f b.
Proof.
  intros Hr Hs. destruct (remove_link A d P f b Hr (or_intror (ex_intro _ s Hs))) as [Hl Ha].
  set (d' := DList_RemoveEntryList (DList_RemoveEntryList d _) _).
  pose proof (rep_nodup _ _ _ _ s Hr) as Hn. destruct Hr as [Hlists Hi Ho _].
  pose proof (Hlists s (Hi s b Hs)) as Hrs.
  unfold dl in Hrs. apply list_elem_of_split in Hs as (l1 & l2 & E).
  assert (Hfs : head_of s :: map link_of l1 ++ link_of b :: map link_of l2
                = head_of s :: map link_of (f s)) by (rewrite E, map_app; done).
  rewrite <- Hfs in Hrs. apply remove_entry_again in Hrs as [Hrs Hk]. fold d' in Hrs, Hk. rewrite Hfs in Hk.
  split.
  - intros t At. destruct (decide (t = s)) as [->|Hts].
    + rewrite E in Hn |- *. rewrite rm_middle by done. unfold dl. by rewrite map_app.
    + apply Hk; [|by apply Hl]. apply lists_disjoint; [done|]. intros c Hc Hc'.
      apply elem_rm in Hc' as [_ Hc']. apply Hts. by eapply Ho.
  - intros c Hc Hcs Hca. apply Hk; [|by apply Ha].
    intros n Hn1 Hn2. by apply (alone_disjoint c s (f s) (Hca s) n).
Qed.

(** Inserting [b] before an entry of a ring, or at its end. *)
Lemma ring_insert d s l1 l2 b : dl d s (l1 ++ l2) -> b ∉ l1 ++ l2 ->
  let d' := DList_InsertTailList d (default (head_of s) (link_of <$> head l2)) (link_of b) in
  dl d' s (l1 ++ b :: l2) /\ keeps ring d d' (head_of s :: map link_of (l1 ++ b :: l2)).
Proof.
  intros Hs Hb d'. unfold dl in *. subst d'.
  assert (Hnew : link_of b ∉ head_of s :: map link_of (l1 ++ l2)).
  { intros Hin. apply elem_of_cons in Hin as [?|Hin]; [done|]. by apply elem_links in Hin. }
  destruct l2 as [|c l2]; cbn [head fmap option_fmap option_map default from_option id].
  - rewrite app_nil_r in Hs, Hnew.
    destruct (insert_tail_law d (head_of s) (map link_of l1) (link_of b) Hs Hnew) as [Hi Hk].
    rewrite map_app. done.
  - rewrite map_app in Hs, Hnew |- *. cbn [map] in Hs, Hnew |- *.
    change (head_of s :: map link_of l1 ++ link_of c :: map link_of l2)
      with ((head_of s :: map link_of l1) ++ (link_of c :: map link_of l2)) in Hs.
    apply ring_rotations in Hs. cbn in Hs.
    destruct (insert_tail_law d (link_of c) (map link_of l2 ++ head_of s :: map link_of l1) (link_of b) Hs)
      as [Hi Hk]; [intros Hin; apply Hnew; set_solver|].
    split; [|intros m Hm; apply Hk; intros n Hn; apply Hm; set_solver].
    rewrite <- app_assoc in Hi. cbn in Hi.
    change (link_of c :: map link_of l2 ++ head_of s :: map link_of l1 ++ [link_of b])
      with ((link_of c :: map link_of l2) ++ (head_of s :: map link_of l1 ++ [link_of b])) in Hi.
    apply ring_rotations in Hi. cbn in Hi. by rewrite <- app_assoc in Hi.
Qed.

Lemma elem_set_list f s l1 l2 b t c : f s = l1 ++ l2 -> (forall t, b ∉ f t) ->
  c ∈ set_list f s (l1 ++ b :: l2) t <-> (c = b /\ t = s) \/ c ∈ f t.
Proof.
  intros E Hb. unfold set_list. case_decide as Ht; [subst|naive_solver].
  rewrite E, !elem_of_app, elem_of_cons. naive_solver.
Qed.

(** An entry that is in no list is put before the entries [l2] of list [s]: at its
    end when there are none. *)
Lemma insert_before A d P f s l1 l2 b : rep A d P f -> A s -> f s = l1 ++ l2 -> (forall t, b ∉ f t) ->
  rep A (DList_InsertTailList d (default (head_of s) (link_of <$> head l2)) (link_of b)) P
    (set_list f s (l1 ++ b :: l2)).
Proof.
  intros [Hl Hi Ho Ha] As E Hb.
  pose proof (fun t c => elem_set_list f s l1 l2 b t c E Hb) as Hin.
  destruct (ring_insert d s l1 l2 b) as [Hr Hk]; [rewrite <- E; by apply Hl|rewrite <- E; apply Hb|].
  constructor.
  - intros t At. unfold set_list. case_decide as Ht; [by subst|]. apply Hk; [|by apply Hl].
    apply lists_disjoint; [done|]. intros c Hc Hc'. destruct (decide (c = b)) as [->|Hcb]; [by apply Hb in Hc'|].
    apply Ht. eapply Ho; [done|]. rewrite E. set_solver.
  - intros t c Hc. apply Hin in Hc. naive_solver.
  - intros t u c Ht Hu. apply Hin in Ht, Hu. naive_solver.
  - intros c Hc Hn. assert (Hcs : c ∉ l1 ++ b :: l2)
      by (pose proof (Hn s) as Hns; unfold set_list in Hns; by rewrite decide_True in Hns).
    apply Hk; [|apply Ha; [done|]].
    + intros n Hn1 Hn2. by apply (alone_disjoint c s _ Hcs n).
    + intros t Ht. apply (Hn t), Hin. by right.
Qed.

(** Removing an entry and forgetting it. *)
Lemma removed_rep A d P f b : rep A d P f -> P b \/ (exists s, b ∈ f s) ->
  rep A (DList_RemoveEntryList d (link_of b)) (fun c => P c /\ c <> b) (detach f b).
Proof.
  intros Hr Hb. destruct (remove_link A d P f b Hr Hb) as [Hl Ha]. destruct Hr as [_ Hi Ho _].
  constructor; unfold detach; [done| | |].
  - intros s c. rewrite elem_rm. naive_solver.
  - intros s t c. rewrite !elem_rm. naive_solver.
  - intros c [Hc Hcb] Hn. apply Ha; [done|done|]. intros s Hs. apply (Hn s). by rewrite elem_rm.
Qed.

(** Moving an entry to the end of a list. *)
Lemma push_rep A d P f s b : rep A d P f -> A s -> P b \/ (exists s, b ∈ f s) ->
  rep A (DList_InsertTailList (DList_RemoveEntryList d (link_of b)) (head_of s) (link_of b)) P (push f s b).
Proof.
  intros Hr As Hb. apply (removed_rep A d P f b) in Hr as Hr1; [|done].
  assert (Hn : forall t, b ∉ detach f b t) by (intros t Ht; apply elem_rm in Ht; tauto).
  pose proof (insert_before _ _ _ (detach f b) s (detach f b s) [] b Hr1 As ltac:(by rewrite app_nil_r) Hn) as Hr2.
  cbn in Hr2. eapply rep_ext; [|eapply rep_weaken; [|exact Hr2]].
  - intros t. unfold push, set_list, detach. case_decide; by subst.
  - intros c Hc Hcn. split; [done|]. intros ->. apply (Hcn s). unfold set_list. rewrite decide_True by done.
    set_solver.
Qed.

(** Initialising the link of an entry that was removed. *)
Lemma detached A d P P' f b : rep A d P f -> forall d1, without A d1 P f b -> (forall c, P' c -> c = b \/ P c) ->
  rep A (DList_InitializeListHead d1 (link_of b)) P' (detach f b).
Proof.
  intros [_ Hin Ho _] d1 [Hl Ha] Hp. destruct (init_law d1 (link_of b)) as [Hi Hk].
  constructor; unfold detach.
  - intros s As. apply Hk; [|by apply Hl]. apply alone_disjoint. rewrite elem_rm. tauto.
  - intros s c. rewrite elem_rm. naive_solver.
  - intros s t c. rewrite !elem_rm. naive_solver.
  - intros c Hc Hn. destruct (decide (c = b)) as [->|Hcb]; [done|].
    apply Hk; [set_solver|]. apply Ha; [done|by destruct (Hp c Hc)|].
    intros s Hs. apply (Hn s). by rewrite elem_rm.
Qed.

(** Initialising the link of an entry that is in no list, or the head of an empty
    list. *)
Lemma init_link_rep A d P P' f b : rep A d P f -> (forall s, b ∉ f s) -> (forall c, P' c -> c = b \/ P c) ->
  rep A (DList_InitializeListHead d (link_of b)) P' f.
Proof.
  intros [Hl Hin Ho Ha] Hn Hp. destruct (init_law d (link_of b)) as [Hi Hk]. constructor; [|done|done|].
  - intros s As. apply Hk; [by apply alone_disjoint|by apply Hl].
  - intros c Hc Hcn. destruct (decide (c = b)) as [->|?]; [done|].
    apply Hk; [set_solver|]. apply Ha; [by destruct (Hp c Hc)|done].
Qed.

Lemma init_empty A d P f s : rep A d P f -> f s = [] ->
  rep (fun t => A t \/ t = s) (DList_InitializeListHead d (head_of s)) P f.
Proof.
  intros [Hl Hin Ho Ha] E. destruct (init_law d (head_of s)) as [Hi Hk]. constructor; [|eauto|done|].
  - intros t At. destruct (decide (t = s)) as [->|Hts]; [by rewrite E|]. apply Hk; [|by apply Hl; destruct At].
    apply (lists_disjoint s t [] (f t)); [congruence|]. intros b Hb. by apply elem_of_nil in Hb.
  - intros b Hb Hn. apply Hk; [|by apply Ha]. set_solver.
Qed.

Lemma rep_heads A A' d P f : (forall s, A s <-> A' s) -> rep A d P f -> rep A' d P f.
Proof. intros E [H1 H2 H3 H4]. constructor; [|intros s b Hb; apply E; eauto|done|done]. intros s As. apply H1, E, As. Qed.

(** No list is initialised yet. *)
Lemma rep_none d P : (forall b, ~ P b) -> rep (fun _ => False) d P (fun _ => []).
Proof.
  intros Hp. constructor; [done| | |]; [intros s b Hb|intros s t b Hb|intros b Hb]; try by apply elem_of_nil in Hb.
  by apply Hp in Hb.
Qed.

(** Following the forward links. *)
Lemma ring_next d s l b k : dl d s (l ++ b :: k) ->
  Flink d (link_of b) = default (head_of s) (link_of <$> head k).
Proof.
  unfold dl. rewrite map_app. cbn. intros Hr.
  change (head_of s :: map link_of l ++ link_of b :: map link_of k)
    with ((head_of s :: map link_of l) ++ (link_of b :: map link_of k)) in Hr.
  apply ring_rotations in Hr. rewrite (Flink_law _ _ _ Hr). by destruct k.
Qed.

Lemma ring_first d s l : dl d s l -> Flink d (head_of s) = default (head_of s) (link_of <$> head l).
Proof. intros Hr. rewrite (Flink_law _ _ _ Hr). by destruct l. Qed.

Lemma is_empty_list d s l : dl d s l -> DList_IsListEmpty d (head_of s) = bool_decide (l = []).
Proof. intros Hr. rewrite (is_empty_law _ _ _ Hr). by destruct l. Qed.

Lemma remove_head_list d s b l : dl d s (b :: l) ->
  DList_RemoveHeadList d (head_of s) = (link_of b, DList_RemoveEntryList d (link_of b)).
Proof. apply remove_head_law. Qed.
End Store.
End DListStore.
