(* ===== verification/PrxBuffer.v ===== *)
(** * Buffer pools (src/prx_buffer.c)

    A pool hands out reference counted buffers from a free list, grows in steps and
    tells its user when it runs low and when buffers are back.  The dynamic pool
    allocates every buffer on its own and can resize it, the fixed pool allocates
    blocks of buffers.  Buffers are named by the address of their header; the lists
    [free_list], [checked_out] and [blocks] are rings (DListStore).  What a function does
    under the lock is an atomic step; the callback of the user is called after the lock
    was released, so that what the pool decides ([bp_events]) and what the user hears
    ([delivers]) are different sequences. *)
From stdpp Require Import base option list numbers sets gmap finite.
From S2P Require Import Prelude PrxTypes DList DListStore.
Import PrxTypes DList DListStore.

Module PrxBuffer.

Inductive plist := free_list | checked_out | blocks.

#[export] Instance plist_eq_dec : EqDecision plist.
Proof. solve_decision. Defined.
#[export] Instance plist_finite : Finite plist.
Proof.
  refine {| enum := [free_list; checked_out; blocks] |}.
  - by apply (bool_decide_unpack _).
  - intros []; by apply (bool_decide_unpack _).
Defined.

Abbreviation node := (node plist).
Abbreviation lists := (lists plist).

Record prx_buffer := mk_buf {
  pb_length : Z;
  pb_refs : Z;
}.

Record prx_pool_config := mk_config {
  pc_initial_count : Z;
  pc_max_count : Z;
  pc_low_watermark : Z;
  pc_high_watermark : Z;
}.

(** [bp_events]: the values the callback is to be called with, in the order in which the
    functions decide it under the lock; counts are below 2^64 as every buffer has its own
    address. *)
Record prx_buffer_pool (D : Type) := mk_pool {
  bp_links : D;
  bp_bufs : gmap Z prx_buffer;
  bp_free_count : Z;
  bp_item_size : Z;
  bp_config : prx_pool_config;
  bp_count : Z;
  bp_empty : bool;
  bp_events : list bool;
}.
Arguments mk_pool {D}. Arguments bp_links {D}. Arguments bp_bufs {D}. Arguments bp_free_count {D}.
Arguments bp_item_size {D}. Arguments bp_config {D}. Arguments bp_count {D}. Arguments bp_empty {D}.
Arguments bp_events {D}.

Section Pool.
Context {D : Type} `{dlist D node}.
Implicit Type p : prx_buffer_pool D.

(** The defaults and limits of the configuration; [config]: [None] is NULL. *)
Definition effective_config (config : option prx_pool_config) : prx_pool_config :=
  let c := default (mk_config 0 0 0 0) config in
  let initial := if bool_decide (pc_initial_count c = 0) then 10 else pc_initial_count c in
  let low := if bool_decide (pc_low_watermark c > pc_high_watermark c) then 0 else pc_low_watermark c in
  let high := if bool_decide (pc_max_count c <> 0 /\ pc_high_watermark c > pc_max_count c)
              then pc_max_count c else pc_high_watermark c in
  mk_config initial (pc_max_count c) low high.

Definition prx_buffer_pool_init (lock : res unit) (d : D) (item_size : Z) (config : option prx_pool_config)
  : res (prx_buffer_pool D) :=
  let d := DList_InitializeListHead d (head_of checked_out) in
  let d := DList_InitializeListHead d (head_of free_list) in
  _ ← lock;
  Ok {| bp_links := d; bp_bufs := ∅; bp_free_count := 0; bp_item_size := item_size;
        bp_config := effective_config config; bp_count := 0; bp_empty := false; bp_events := [] |}.

Definition set_refs p (b : Z) (pb : prx_buffer) (refs : Z) : gmap Z prx_buffer :=
  <[b := mk_buf (pb_length pb) refs]> (bp_bufs p).

(** [original]: a buffer to share; [grow]: the policy, whose result is ignored.  The
    last member gets the [signal] for which the callback is called when the lock is
    released. *)
Definition prx_buffer_pool_alloc_buffer (grow : prx_buffer_pool D -> prx_buffer_pool D) p (original : option Z)
  : res (prx_buffer_pool D * option Z) :=
  match original with
  | Some original =>
      inb ← chk (bp_bufs p !! original);
      Ok (mk_pool (bp_links p) (set_refs p original inb (pb_refs inb + 1)) (bp_free_count p)
            (bp_item_size p) (bp_config p) (bp_count p) (bp_empty p) (bp_events p), Some original)
  | None =>
      if DList_IsListEmpty (bp_links p) (head_of free_list) then Ok (p, None)
      else
        let '(n, d) := DList_RemoveHeadList (bp_links p) (head_of free_list) in
        out ← chk (entry_of n);
        let d := DList_InitializeListHead d (link_of out) in
        let free_count := bp_free_count p - 1 in
        let p := mk_pool d (bp_bufs p) free_count (bp_item_size p) (bp_config p) (bp_count p)
                   (bp_empty p) (bp_events p) in
        let p := if bool_decide (free_count = 0) then grow p else p in
        let signal := bool_decide (bp_free_count p <= pc_low_watermark (bp_config p)) && negb (bp_empty p) in
        outb ← chk (bp_bufs p !! out);
        Ok (mk_pool (DList_InsertTailList (bp_links p) (head_of checked_out) (link_of out))
              (set_refs p out outb (pb_refs outb + 1)) (bp_free_count p) (bp_item_size p) (bp_config p)
              (bp_count p) (bp_empty p || signal)
              (if signal then bp_events p ++ [true] else bp_events p), Some out)
  end.

(** The last member gets the signal, as above. *)
Definition prx_buffer_pool_free_buffer p (b : Z) : res (prx_buffer_pool D) :=
  pb ← chk (bp_bufs p !! b);
  let refs := pb_refs pb - 1 in
  let m := set_refs p b pb refs in
  if negb (bool_decide (refs = 0)) then
    Ok (mk_pool (bp_links p) m (bp_free_count p) (bp_item_size p) (bp_config p) (bp_count p)
          (bp_empty p) (bp_events p))
  else
    let d := DList_RemoveEntryList (bp_links p) (link_of b) in
    let d := DList_InsertTailList d (head_of free_list) (link_of b) in
    let free_count := bp_free_count p + 1 in
    let signal := bool_decide (free_count > pc_high_watermark (bp_config p)) && bp_empty p in
    Ok (mk_pool d m free_count (bp_item_size p) (bp_config p) (bp_count p)
          (if signal then false else bp_empty p)
          (if signal then bp_events p ++ [false] else bp_events p)).

(** A new buffer at the end of the free list. *)
Definition add_free p (b : Z) : prx_buffer_pool D :=
  let d := DList_InitializeListHead (bp_links p) (link_of b) in
  mk_pool (DList_InsertTailList d (head_of free_list) (link_of b))
    (<[b := mk_buf (bp_item_size p) 0]> (bp_bufs p)) (bp_free_count p + 1) (bp_item_size p)
    (bp_config p) (bp_count p + 1) (bp_empty p) (bp_events p).

(** How many buffers to add: the initial count, or up to the maximum. *)
Definition grow_items p : Z :=
  let c := bp_config p in
  if bool_decide (pc_max_count c <> 0)
  then Z.min (u64 (pc_max_count c - bp_count p)) (pc_initial_count c) else pc_initial_count c.

(** [alloc i]: what [mem_alloc] returns for the [i]-th buffer. *)
Fixpoint dynamic_grow_loop (items : nat) (alloc : nat -> option Z) p : prx_buffer_pool D :=
  match items with
  | O => p
  | S items => match alloc O with
               | None => p
               | Some b => dynamic_grow_loop items (fun i => alloc (S i)) (add_free p b)
               end
  end.

Definition prx_dynamic_pool_grow_no_lock (alloc : nat -> option Z) p : prx_buffer_pool D * res unit :=
  let p := dynamic_grow_loop (Z.to_nat (grow_items p)) alloc p in
  (p, if bool_decide (bp_free_count p <> 0) then Ok tt else Err er_out_of_memory).

Definition prx_dynamic_buffer_alloc (alloc : nat -> option Z) p (original : option Z) :=
  prx_buffer_pool_alloc_buffer (fun p => fst (prx_dynamic_pool_grow_no_lock alloc p)) p original.
Definition prx_dynamic_buffer_release p (b : Z) := prx_buffer_pool_free_buffer p b.

(** [realloc]: the new place of the buffer, if there is memory. *)
Definition prx_dynamic_buffer_set_size (realloc : option Z) p (buffer : Z) (size : Z)
  : res (prx_buffer_pool D * (Z * bool)) :=
  pb ← chk (bp_bufs p !! buffer);
  let d := DList_RemoveEntryList (bp_links p) (link_of buffer) in
  let upd d m := mk_pool d m (bp_free_count p) (bp_item_size p) (bp_config p) (bp_count p)
                   (bp_empty p) (bp_events p) in
  match realloc with
  | Some buf =>
      Ok (upd (DList_InsertTailList d (head_of checked_out) (link_of buf))
            (<[buf := mk_buf size (pb_refs pb)]> (delete buffer (bp_bufs p))), (buf, true))
  | None =>
      Ok (upd (DList_InsertTailList d (head_of checked_out) (link_of buffer)) (bp_bufs p), (buffer, false))
  end.

Definition prx_dynamic_buffer_get_size p (b : Z) : res Z := pb ← chk (bp_bufs p !! b); Ok (pb_length pb).
Definition prx_dynamic_pool_available p : Z := bp_free_count p.

(** *** The fixed pool *)

(** [header]: [sizeof(prx_buffer_t)]. *)
Fixpoint fixed_grow_loop (items : nat) (size : Z) (buf : Z) p : prx_buffer_pool D :=
  match items with
  | O => p
  | S items => fixed_grow_loop items size (buf + size) (add_free p buf)
  end.

Definition prx_fixed_pool_grow_no_lock (header : Z) (alloc : option Z) p : prx_buffer_pool D * res unit :=
  let items := grow_items p in
  if bool_decide (items = 0) then (p, Err er_out_of_memory)
  else
    let size := header + bp_item_size p in
    match alloc with
    | None => (p, Err er_out_of_memory)
    | Some block =>
        let p := mk_pool (DList_InsertTailList (bp_links p) (head_of blocks) (link_of block)) (bp_bufs p)
                   (bp_free_count p) (bp_item_size p) (bp_config p) (bp_count p) (bp_empty p) (bp_events p) in
        (fixed_grow_loop (Z.to_nat items) size (block + header) p, Ok tt)
    end.

Definition prx_fixed_buffer_alloc (header : Z) (alloc : option Z) p (original : option Z) :=
  prx_buffer_pool_alloc_buffer (fun p => fst (prx_fixed_pool_grow_no_lock header alloc p)) p original.
Definition prx_fixed_buffer_release p (b : Z) := prx_buffer_pool_free_buffer p b.
Definition prx_fixed_buffer_set_size : res unit := Err er_not_supported.
Definition prx_fixed_buffer_get_size p (b : Z) : Z := bp_item_size p.
Definition prx_fixed_pool_available p : Z := bp_free_count p.

(** *** Creation *)

Definition prx_dynamic_pool_create (zalloc : bool) (lock : res unit) (alloc : nat -> option Z) (d : D)
    (item_size : Z) (config : option prx_pool_config) : res (prx_buffer_pool D) :=
  if negb zalloc then Err er_out_of_memory
  else
    p ← prx_buffer_pool_init lock d item_size config;
    let '(p, result) := prx_dynamic_pool_grow_no_lock alloc p in
    _ ← result;
    Ok p.

Definition prx_fixed_pool_create (header : Z) (zalloc : bool) (lock : res unit) (alloc : option Z) (d : D)
    (item_size : Z) (config : option prx_pool_config) : res (prx_buffer_pool D) :=
  if negb zalloc then Err er_out_of_memory
  else
    let d := DList_InitializeListHead d (head_of blocks) in
    p ← prx_buffer_pool_init lock d item_size config;
    let '(p, result) := prx_fixed_pool_grow_no_lock header alloc p in
    _ ← result;
    Ok p.

(** On a dynamic pool; the buffer goes back when it cannot be resized. *)
Definition prx_buffer_new (alloc : nat -> option Z) (realloc : option Z) p (length : Z)
  : res (prx_buffer_pool D * option Z) :=
  '(p, buffer) ← prx_dynamic_buffer_alloc alloc p None;
  match buffer with
  | None => Ok (p, None)
  | Some buffer =>
      '(p, (buffer, ok)) ← prx_dynamic_buffer_set_size realloc p buffer length;
      if (ok : bool) then Ok (p, Some buffer)
      else p ← prx_dynamic_buffer_release p buffer; Ok (p, None)
  end.

(** The loops that empty a list of the pool; the memory of each entry is freed. *)
Fixpoint drain (fuel : nat) (d : D) (t : plist) : res (D * list Z) :=
  if DList_IsListEmpty d (head_of t) then Ok (d, [])
  else match fuel with
  | O => UB
  | S fuel =>
      let '(n, d) := DList_RemoveHeadList d (head_of t) in
      next ← chk (entry_of n);
      '(d, l) ← drain fuel d t;
      Ok (d, next :: l)
  end.

(** What is freed. *)
Definition prx_dynamic_pool_free p : res (list Z) :=
  '(_, l) ← drain (size (bp_bufs p)) (bp_links p) free_list; Ok l.

(** [n]: the number of blocks. *)
Definition prx_fixed_pool_free (n : nat) p : res (list Z) :=
  let d := DList_InitializeListHead (bp_links p) (head_of checked_out) in
  let d := DList_InitializeListHead d (head_of free_list) in
  '(_, l) ← drain n d blocks; Ok l.
End Pool.

(** ** Invariant *)

Section Inv.
Context {D : Type} `{L : dlist_laws D node}.
Variable A : plist -> Prop.
Hypothesis A_free : A free_list.
Hypothesis A_out : A checked_out.
Implicit Types (p : prx_buffer_pool D) (f : lists).

Abbreviation none := (fun _ : Z => False).

(** Low and high in turn. *)
Fixpoint alternate (b : bool) (n : nat) : list bool :=
  match n with O => [] | S n => b :: alternate (negb b) n end.

(** Every buffer is free, without references, or checked out, with one at least, or
    [h], on its way between the lists; the counters count, the maximum is kept, and
    low and high are decided in turn, last as [bp_empty] says. *)
Record pool_inv p f (h : list Z) : Prop := {
  i_rep : rep A (bp_links p) none f;
  i_free b : b ∈ f free_list \/ b ∈ h -> exists n, bp_bufs p !! b = Some (mk_buf n 0);
  i_out b : b ∈ f checked_out -> exists n r, bp_bufs p !! b = Some (mk_buf n r) /\ 0 < r;
  i_listed b : is_Some (bp_bufs p !! b) -> b ∈ f free_list \/ b ∈ f checked_out \/ b ∈ h;
  i_held b : b ∈ h -> forall t, b ∉ f t;
  i_free_count : bp_free_count p = zlen (f free_list);
  i_count : bp_count p = zlen (f free_list) + zlen (f checked_out) + zlen h;
  i_max : pc_max_count (bp_config p) <> 0 -> bp_count p <= pc_max_count (bp_config p) < 2 ^ 64;
  i_initial : 0 < pc_initial_count (bp_config p);
  i_events : bp_events p = alternate true (length (bp_events p));
  i_empty : bp_empty p = Nat.odd (length (bp_events p));
}.

Definition fresh p f (b : Z) : Prop := bp_bufs p !! b = None /\ forall t, b ∉ f t.

Lemma elem_set_tail f t l u c : c ∈ set_list f t (f t ++ l) u <-> c ∈ f u \/ (u = t /\ c ∈ l).
Proof. unfold set_list. case_decide; subst; rewrite ?elem_of_app; naive_solver. Qed.

(** The end of a list. *)
Lemma insert_tail_rep d f t b : A t -> rep A d none f -> (forall u, b ∉ f u) ->
  rep A (DList_InsertTailList d (head_of t) (link_of b)) none (set_list f t (f t ++ [b])).
Proof. intros At Hr Hb. apply (insert_before _ _ _ _ t (f t) [] b Hr At); [by rewrite app_nil_r|done]. Qed.

Lemma init_none_rep d f b : rep A d none f -> (forall u, b ∉ f u) ->
  rep A (DList_InitializeListHead d (link_of b)) none f.
Proof. intros Hr Hb. eapply init_link_rep; [exact Hr|done|]. by intros c []. Qed.

Lemma add_free_inv p f h b : pool_inv p f h -> fresh p f b ->
  (pc_max_count (bp_config p) <> 0 -> bp_count p < pc_max_count (bp_config p)) ->
  pool_inv (add_free p b) (set_list f free_list (f free_list ++ [b])) h.
Proof.
  intros [Hr Hf Ho Hl Hh Hfc Hc Hm Hin He Hem] [Hb Hbf] Hmax.
  assert (Hne : forall c, is_Some (bp_bufs p !! c) -> c <> b) by (intros c [? ?] ->; congruence).
  constructor; cbn; try done.
  - apply insert_tail_rep; [done| |done]. by apply init_none_rep.
  - intros c Hc'. rewrite (elem_set_tail f free_list [b]) in Hc'.
    destruct (decide (c = b)) as [->|Hcb]; [rewrite lookup_insert_eq; eauto|].
    rewrite lookup_insert_ne by done. apply Hf. rewrite list_elem_of_singleton in Hc'. naive_solver.
  - intros c Hc'. change (set_list f free_list (f free_list ++ [b]) checked_out) with (f checked_out) in Hc'.
    destruct (Ho c Hc') as (n & r & E & Hr'). rewrite lookup_insert_ne; [eauto|]. intros ->. congruence.
  - intros c Hc'. rewrite !(elem_set_tail f free_list [b]). destruct (decide (c = b)) as [->|Hcb].
    + left. right. split; [done|]. apply list_elem_of_here.
    + rewrite lookup_insert_ne in Hc' by done. apply Hl in Hc'. naive_solver.
  - intros c Hc' t Ht. rewrite (elem_set_tail f free_list [b]) in Ht.
    destruct Ht as [Ht|[-> Ht]]; [by apply (Hh c Hc' t)|]. apply list_elem_of_singleton in Ht as ->.
    destruct (Hf b (or_intror Hc')) as [? ?]. congruence.
  - change (set_list f free_list (f free_list ++ [b]) free_list) with (f free_list ++ [b]).
    rewrite zlen_app, zlen_cons, zlen_nil, Hfc. lia.
  - change (set_list f free_list (f free_list ++ [b]) checked_out) with (f checked_out).
    change (set_list f free_list (f free_list ++ [b]) free_list) with (f free_list ++ [b]).
    rewrite zlen_app, zlen_cons, zlen_nil, Hc. lia.
  - intros H0. specialize (Hmax H0). specialize (Hm H0). lia.
Qed.

(** *** Growing *)

(** [p'] is [p] with buffers added to the free list. *)
Record grown p p' f f' : Prop := {
  g_lists : exists l, forall t, f' t = set_list f free_list (f free_list ++ l) t;
  g_bufs b : is_Some (bp_bufs p !! b) -> bp_bufs p' !! b = bp_bufs p !! b;
  g_config : bp_config p' = bp_config p;
  g_item : bp_item_size p' = bp_item_size p;
  g_events : bp_events p' = bp_events p;
  g_empty : bp_empty p' = bp_empty p;
}.

Lemma grown_refl p f : grown p p f f.
Proof.
  constructor; try done. exists []. intros t. rewrite app_nil_r. unfold set_list. case_decide; by subst.
Qed.

Lemma grown_add p p' f f' b : bp_bufs p !! b = None ->
  grown (add_free p b) p' (set_list f free_list (f free_list ++ [b])) f' -> grown p p' f f'.
Proof.
  intros Hb [[l Hl] Hbufs Hc Hi He Hem]. constructor; try done.
  - exists (b :: l). intros t. rewrite Hl. unfold set_list. case_decide; [|done]. rewrite decide_True by done.
    by rewrite <- app_assoc.
  - intros c Hc'. rewrite Hbufs; cbn.
    + rewrite lookup_insert_ne; [done|]. intros ->. destruct Hc'. congruence.
    + apply lookup_insert_is_Some. destruct (decide (b = c)); [by left|by right].
Qed.

Definition news_fresh p f (n : nat) (alloc : nat -> option Z) : Prop :=
  (forall i b, (i < n)%nat -> alloc i = Some b -> fresh p f b) /\
  (forall i j b, (i < n)%nat -> (j < n)%nat -> alloc i = Some b -> alloc j = Some b -> i = j).

Lemma news_fresh_step p f n alloc b : alloc O = Some b -> news_fresh p f (S n) alloc ->
  news_fresh (add_free p b) (set_list f free_list (f free_list ++ [b])) n (fun i => alloc (S i)).
Proof.
  intros Hb [Hf Hd]. split.
  - intros i c Hi Hc. destruct (Hf (S i) c) as [H1 H2]; [lia|done|].
    assert (Hcb : c <> b) by (intros ->; by specialize (Hd O (S i) b ltac:(lia) ltac:(lia) Hb Hc)).
    split; cbn; [by rewrite lookup_insert_ne|]. intros t. rewrite (elem_set_tail f free_list [b]).
    rewrite list_elem_of_singleton. intros [Ht|[_ ?]]; [by apply (H2 t)|done].
  - intros i j c Hi Hj H1 H2. assert (S i = S j) by (apply (Hd _ _ c); lia || done). lia.
Qed.

Lemma dynamic_grow_inv n : forall alloc p f h, pool_inv p f h -> news_fresh p f n alloc ->
  (pc_max_count (bp_config p) <> 0 -> Z.of_nat n <= pc_max_count (bp_config p) - bp_count p) ->
  exists f', pool_inv (dynamic_grow_loop n alloc p) f' h /\ grown p (dynamic_grow_loop n alloc p) f f'.
Proof.
  induction n as [|n IH]; intros alloc p f h Hi Hn Hmax; cbn [dynamic_grow_loop].
  { exists f. split; [done|apply grown_refl]. }
  destruct (alloc O) as [b|] eqn:E; [|exists f; split; [done|apply grown_refl]].
  destruct (proj1 Hn O b ltac:(lia) E) as [Hb Hbf].
  destruct (IH (fun i => alloc (S i)) (add_free p b) (set_list f free_list (f free_list ++ [b])) h) as (f' & Hi' & Hg).
  - apply add_free_inv; [done|by split|]. intros H0. specialize (Hmax H0). lia.
  - by apply news_fresh_step.
  - intros H0. specialize (Hmax H0). cbn in *. lia.
  - exists f'. split; [done|]. by eapply grown_add.
Qed.

Lemma grow_items_max p f h : pool_inv p f h -> 0 <= grow_items p /\
  (pc_max_count (bp_config p) <> 0 -> grow_items p <= pc_max_count (bp_config p) - bp_count p).
Proof.
  intros Hi. pose proof (i_initial _ _ _ Hi) as H0. unfold grow_items. case_bool_decide as Hm; [|lia].
  pose proof (i_max _ _ _ Hi Hm) as Hmax. pose proof (i_count _ _ _ Hi) as Hc.
  pose proof (zlen_nonneg (f free_list)). pose proof (zlen_nonneg (f checked_out)). pose proof (zlen_nonneg h).
  rewrite u64_id by (unfold in_u64; lia). lia.
Qed.

(** What a growth policy guarantees when the memory it gets is fresh. *)
Definition grows_well (grow : prx_buffer_pool D -> prx_buffer_pool D) p f h : Prop :=
  exists f', pool_inv (grow p) f' h /\ grown p (grow p) f f'.

Lemma dynamic_grows alloc p f h : pool_inv p f h -> news_fresh p f (Z.to_nat (grow_items p)) alloc ->
  grows_well (fun p => fst (prx_dynamic_pool_grow_no_lock alloc p)) p f h.
Proof.
  intros Hi Hn. destruct (grow_items_max p f h Hi) as [H0 Hm]. apply dynamic_grow_inv; [done|done|].
  intros Hne. specialize (Hm Hne). lia.
Qed.

Lemma fixed_grow_dynamic size n : forall buf p,
  fixed_grow_loop n size buf p = dynamic_grow_loop n (fun i => Some (buf + Z.of_nat i * size)) p.
Proof.
  assert (Hext : forall n a a' p, (forall i, a i = a' i) ->
            dynamic_grow_loop n a p = dynamic_grow_loop (D := D) n a' p).
  { induction n0 as [|k IH]; intros a a' p Ha; [done|]. cbn. rewrite <- Ha. destruct (a O); [|done].
    apply IH. intros i. apply Ha. }
  induction n as [|n IH]; intros buf p; [done|]. cbn [fixed_grow_loop dynamic_grow_loop]. rewrite IH.
  replace (buf + Z.of_nat 0 * size) with buf by lia. apply Hext. intros i. f_equal. lia.
Qed.

(** A new block: it is in no list, and neither are the buffers in it. *)
Definition block_fresh (header : Z) p f (block : Z) : Prop :=
  0 < header + bp_item_size p /\ (forall t, block ∉ f t) /\
  forall i, 0 <= i < grow_items p -> let b := block + header + i * (header + bp_item_size p) in
    fresh p f b /\ b <> block.

Lemma fixed_grows header alloc p f h : A blocks -> pool_inv p f h ->
  (forall block, alloc = Some block -> block_fresh header p f block /\ block ∉ h) ->
  exists f0, (forall t, t <> blocks -> f0 t = f t) /\
    (forall b, b ∈ f0 blocks -> b ∈ f blocks \/ alloc = Some b) /\
    exists f', pool_inv (fst (prx_fixed_pool_grow_no_lock header alloc p)) f' h /\
      grown p (fst (prx_fixed_pool_grow_no_lock header alloc p)) f0 f'.
Proof.
  intros Ab Hi Hfresh. unfold prx_fixed_pool_grow_no_lock.
  destruct (grow_items_max p f h Hi) as [H0 Hm].
  assert (Hsame : exists f0, (forall t, t <> blocks -> f0 t = f t) /\
    (forall b, b ∈ f0 blocks -> b ∈ f blocks \/ alloc = Some b) /\ exists f', pool_inv p f' h /\ grown p p f0 f').
  { exists f. split; [done|]. split; [tauto|]. exists f. split; [done|apply grown_refl]. }
  case_bool_decide as Hz; [done|]. destruct alloc as [block|]; [|done]. clear Hsame.
  destruct (Hfresh block eq_refl) as [(Hsize & Hbl & Hit) Hbh]. cbn [fst].
  set (p1 := mk_pool _ _ _ _ _ _ _ _). set (f1 := set_list f blocks (f blocks ++ [block])).
  exists f1. split; [intros t Ht; unfold f1, set_list; by rewrite decide_False|].
  split.
  { intros b. unfold f1. rewrite (elem_set_tail f blocks [block]), list_elem_of_singleton. naive_solver. }
  assert (Hi1 : pool_inv p1 f1 h).
  { destruct Hi. constructor; cbn; try done.
    - by apply insert_tail_rep.
    - intros b Hb t. unfold f1. rewrite (elem_set_tail f blocks [block]).
      rewrite list_elem_of_singleton. intros [Ht|[_ ->]]; [by eapply i_held0|done]. }
  rewrite fixed_grow_dynamic.
  destruct (dynamic_grow_inv (Z.to_nat (grow_items p))
    (fun i => Some (block + header + Z.of_nat i * (header + bp_item_size p))) p1 f1 h Hi1) as (f' & H1 & H2).
  - split.
    + intros i b Hlt [= <-]. destruct (Hit (Z.of_nat i) ltac:(lia)) as [[F1 F2] F3]. split; [done|].
      intros t. unfold f1. rewrite (elem_set_tail f blocks [block]), list_elem_of_singleton. naive_solver.
    + intros i j b _ _ [= <-] [= Hij]. nia.
  - intros Hne. cbn in *. specialize (Hm Hne). lia.
  - exists f'. split; [exact H1|]. destruct H2. by constructor.
Qed.

(** *** Handing out and taking back *)

Lemma alternate_snoc b n : alternate b n ++ [if Nat.odd n then negb b else b] = alternate b (S n).
Proof.
  revert b. induction n as [|n IH]; intros b; [done|]. cbn [alternate app]. f_equal.
  change (negb b :: alternate (negb (negb b)) n) with (alternate (negb b) (S n)). rewrite <- IH.
  rewrite Nat.odd_succ, <- Nat.negb_odd, negb_involutive. by destruct (Nat.odd n).
Qed.

(** The opposite of the last value is decided. *)
Lemma events_snoc (ev : list bool) (e : bool) : ev = alternate true (length ev) -> e = Nat.odd (length ev) ->
  ev ++ [negb e] = alternate true (length (ev ++ [negb e])) /\ negb e = Nat.odd (length (ev ++ [negb e])).
Proof.
  intros Ha ->. rewrite length_app, Nat.add_1_r, Nat.odd_succ, <- Nat.negb_odd. split; [|done].
  rewrite <- (alternate_snoc true). rewrite Ha at 1. do 2 f_equal.
Qed.

(** The part of the state that a growth leaves alone. *)
Record extends p p' f f' : Prop := {
  x_out : f' checked_out = f checked_out;
  x_free : exists l, f' free_list = f free_list ++ l;
  x_bufs b : is_Some (bp_bufs p !! b) -> bp_bufs p' !! b = bp_bufs p !! b;
  x_config : bp_config p' = bp_config p;
}.

Lemma grown_extends p p' f f0 f' : (forall t, t <> blocks -> f0 t = f t) -> grown p p' f0 f' -> extends p p' f f'.
Proof.
  intros E [[l Hl] Hb Hc _ _ _]. constructor; try done.
  - rewrite Hl. change (f0 checked_out = f checked_out). by apply E.
  - exists l. rewrite Hl. change (f0 free_list ++ l = f free_list ++ l). by rewrite E.
Qed.

Definition good_grow (grow : prx_buffer_pool D -> prx_buffer_pool D) p f h : Prop :=
  exists f', pool_inv (grow p) f' h /\ extends p (grow p) f f'.

Lemma share_inv grow p f b : pool_inv p f [] -> b ∈ f checked_out -> exists n r p',
  bp_bufs p !! b = Some (mk_buf n r) /\
  prx_buffer_pool_alloc_buffer grow p (Some b) = Ok (p', Some b) /\
  pool_inv p' f [] /\ bp_bufs p' = <[b := mk_buf n (r + 1)]> (bp_bufs p).
Proof.
  intros Hi Hb. destruct (i_out _ _ _ Hi b Hb) as (n & r & E & Hr). exists n, r.
  cbn. rewrite E. cbn. eexists. split; [done|]. split; [done|]. split; [|done].
  destruct Hi. constructor; cbn; try done.
  - intros c [Hc|Hc]; [|by apply elem_of_nil in Hc]. unfold set_refs. rewrite lookup_insert_ne; [apply i_free0; by left|].
    intros <-. discriminate (st_once _ _ _ _ i_rep0 _ _ b Hc Hb).
  - intros c Hc. unfold set_refs. destruct (decide (b = c)) as [->|Hcb].
    + rewrite lookup_insert_eq. exists n, (r + 1). split; [done|lia].
    + rewrite lookup_insert_ne by done. by apply i_out0.
  - intros c Hc. apply i_listed0. unfold set_refs in Hc. apply lookup_insert_is_Some in Hc as [<-|[_ Hc]]; eauto.
Qed.

(** A buffer that was taken from the free list is put in [checked_out]. *)
Lemma check_out_inv p f b ev (e : bool) : pool_inv p f [b] ->
  ev = alternate true (length ev) -> e = Nat.odd (length ev) -> exists n,
  bp_bufs p !! b = Some (mk_buf n 0) /\
  pool_inv (mk_pool (DList_InsertTailList (bp_links p) (head_of checked_out) (link_of b))
              (<[b := mk_buf n 1]> (bp_bufs p)) (bp_free_count p) (bp_item_size p) (bp_config p)
              (bp_count p) e ev)
    (set_list f checked_out (f checked_out ++ [b])) [].
Proof.
  intros [Hr Hf Ho Hl Hh Hfc Hc Hm Hin He Hem] Hev Hee.
  assert (Hbh : b ∈ [b]) by apply list_elem_of_here.
  destruct (Hf b (or_intror Hbh)) as [n E]. exists n. split; [done|]. constructor; cbn; try done.
  - apply insert_tail_rep; [done|done|]. by apply Hh.
  - intros c [Hc'|Hc']; [|by apply elem_of_nil in Hc'].
    change (set_list f checked_out (f checked_out ++ [b]) free_list) with (f free_list) in Hc'.
    rewrite lookup_insert_ne; [apply Hf; by left|]. intros <-. by apply (Hh b Hbh free_list).
  - intros c Hc'. rewrite (elem_set_tail f checked_out [b]), list_elem_of_singleton in Hc'.
    destruct (decide (b = c)) as [<-|Hcb]; [rewrite lookup_insert_eq; exists n, 1; split; [done|lia]|].
    rewrite lookup_insert_ne by done. apply Ho. naive_solver.
  - intros c Hc'. rewrite !(elem_set_tail f checked_out [b]), list_elem_of_singleton.
    apply lookup_insert_is_Some in Hc' as [<-|[Hcb Hc']]; [naive_solver|].
    apply Hl in Hc'. rewrite list_elem_of_singleton in Hc'. naive_solver.
  - intros c Hc'. by apply elem_of_nil in Hc'.
  - change (set_list f checked_out (f checked_out ++ [b]) free_list) with (f free_list).
    change (set_list f checked_out (f checked_out ++ [b]) checked_out) with (f checked_out ++ [b]).
    rewrite Hc, zlen_app, !zlen_cons, !zlen_nil. lia.
Qed.

(** And one is taken from the free list. *)
Lemma take_inv p f b l : pool_inv p f [] -> f free_list = b :: l ->
  pool_inv (mk_pool (DList_InitializeListHead (DList_RemoveEntryList (bp_links p) (link_of b)) (link_of b))
              (bp_bufs p) (bp_free_count p - 1) (bp_item_size p) (bp_config p) (bp_count p)
              (bp_empty p) (bp_events p)) (set_list f free_list l) [b].
Proof.
  intros [Hr Hf Ho Hl Hh Hfc Hc Hm Hin He Hem] E.
  assert (Hb : b ∈ f free_list) by (rewrite E; apply list_elem_of_here).
  pose proof (rep_nodup _ _ _ _ free_list Hr) as Hn. rewrite E in Hn. apply NoDup_cons in Hn as [Hn _].
  assert (Hsub : forall t c, c ∈ set_list f free_list l t -> c ∈ f t /\ c <> b).
  { intros t c. unfold set_list. case_decide as Ht; intros Hc'.
    - subst. rewrite E. split; [by right|]. by intros ->.
    - split; [done|]. intros ->. apply Ht. by eapply (st_once _ _ _ _ Hr). }
  constructor; cbn; try done.
  - eapply rep_ext; [|eapply detached; [exact Hr| |by intros c []]].
    + apply (detach_middle f free_list b [] l); [apply (st_once _ _ _ _ Hr)|by eapply rep_nodup|done].
    + apply remove_link; [done|]. right. by exists free_list.
  - intros c [Hc'|Hc'].
    + apply Hf. left. by apply Hsub in Hc' as [? _].
    + apply list_elem_of_singleton in Hc' as ->. apply Hf. by left.
  - intros c Hc'. apply Hl in Hc' as [Hc'|[Hc'|Hc']]; [|tauto|by apply elem_of_nil in Hc'].
    rewrite E in Hc'. change (set_list f free_list l free_list) with l. set_solver.
  - intros c Hc' t Ht. apply list_elem_of_singleton in Hc' as ->. by apply Hsub in Ht as [_ ?].
  - change (set_list f free_list l free_list) with l. rewrite Hfc, E, zlen_cons. lia.
  - change (set_list f free_list l free_list) with l. change (set_list f free_list l checked_out) with (f checked_out).
    rewrite Hc, E, !zlen_cons, !zlen_nil. lia.
Qed.

Lemma alloc_inv grow p f : pool_inv p f [] ->
  match f free_list with
  | [] => prx_buffer_pool_alloc_buffer grow p None = Ok (p, None)
  | b :: l =>
      (forall p1, bp_bufs p1 = bp_bufs p -> bp_config p1 = bp_config p -> bp_count p1 = bp_count p ->
         bp_item_size p1 = bp_item_size p ->
         pool_inv p1 (set_list f free_list l) [b] -> good_grow grow p1 (set_list f free_list l) [b]) ->
      exists p' f' n,
        prx_buffer_pool_alloc_buffer grow p None = Ok (p', Some b) /\ pool_inv p' f' [] /\
        f' checked_out = f checked_out ++ [b] /\ bp_bufs p !! b = Some (mk_buf n 0) /\
        bp_bufs p' !! b = Some (mk_buf n 1) /\ bp_config p' = bp_config p /\
        forall c, c <> b -> is_Some (bp_bufs p !! c) -> bp_bufs p' !! c = bp_bufs p !! c
  end.
Proof.
  intros Hi. pose proof (st_lists _ _ _ _ (i_rep _ _ _ Hi) free_list A_free) as Hd.
  unfold prx_buffer_pool_alloc_buffer. rewrite (is_empty_list _ _ _ Hd).
  destruct (f free_list) as [|b l] eqn:E; [done|]. intros Hgrow. rewrite bool_decide_eq_false_2 by done.
  rewrite (remove_head_list _ _ _ _ Hd). cbn [entry_of chk mbind res_bind].
  pose proof (take_inv p f b l Hi E) as H1. set (p1 := mk_pool _ _ (bp_free_count p - 1) _ _ _ _ _) in *.
  assert (Hp2 : exists f2, let p2 := if bool_decide (bp_free_count p - 1 = 0) then grow p1 else p1 in
            pool_inv p2 f2 [b] /\ extends p1 p2 (set_list f free_list l) f2).
  { case_bool_decide; [by apply Hgrow|]. exists (set_list f free_list l). split; [done|].
    constructor; try done. exists []. by rewrite app_nil_r. }
  cbv zeta in Hp2. destruct Hp2 as (f2 & H2 & [Xo _ Xb Xc]).
  set (p2 := if bool_decide (bp_free_count p - 1 = 0) then grow p1 else p1) in *.
  set (sig := bool_decide (bp_free_count p2 <= pc_low_watermark (bp_config p2)) && negb (bp_empty p2)).
  set (ev := if sig then bp_events p2 ++ [true] else bp_events p2).
  assert (Hev : ev = alternate true (length ev) /\ bp_empty p2 || sig = Nat.odd (length ev)).
  { pose proof (i_events _ _ _ H2) as He. pose proof (i_empty _ _ _ H2) as Hem. unfold ev.
    destruct sig eqn:Es; [|by rewrite orb_false_r]. unfold sig in Es. apply andb_true_iff in Es as [_ Es].
    destruct (bp_empty p2) eqn:Ee; [done|]. apply (events_snoc (bp_events p2) false He). by rewrite <- Hem. }
  destruct Hev as [Hev1 Hev2].
  destruct (check_out_inv p2 f2 b ev (bp_empty p2 || sig) H2 Hev1 Hev2) as (n & En & H3).
  rewrite En. cbn [chk mbind res_bind]. eexists _, _, n. split; [done|]. split; [exact H3|].
  assert (Eb : bp_bufs p !! b = Some (mk_buf n 0)).
  { destruct (i_free _ _ _ H1 b) as [n' En']; [right; apply list_elem_of_here|].
    rewrite (Xb b) in En by eauto. exact En. }
  split; [|split; [done|split; [apply lookup_insert_eq|split; [exact Xc|]]]].
  - change (f2 checked_out ++ [b] = f checked_out ++ [b]). by rewrite Xo.
  - intros c Hcb Hc. cbn. unfold set_refs. rewrite lookup_insert_ne by done. by apply Xb.
Qed.

Lemma release_inv p f b n r : pool_inv p f [] -> b ∈ f checked_out -> bp_bufs p !! b = Some (mk_buf n r) ->
  exists p' f', prx_buffer_pool_free_buffer p b = Ok p' /\ pool_inv p' f' [] /\
    bp_bufs p' = <[b := mk_buf n (r - 1)]> (bp_bufs p) /\
    (forall t, f' t = if decide (r = 1) then push f free_list b t else f t).
Proof.
  intros Hi Hb E. destruct (i_out _ _ _ Hi b Hb) as (n' & r' & E' & Hr0).
  assert (Hrr : r' = r) by congruence. subst r'. unfold prx_buffer_pool_free_buffer. rewrite E. cbn [chk mbind res_bind pb_refs].
  assert (Hset : set_refs p b (mk_buf n r) (r - 1) = <[b := mk_buf n (r - 1)]> (bp_bufs p)) by done.
  pose proof Hi as [Hr Hf Ho Hl Hh Hfc Hc Hm Hin He Hem].
  assert (Hbf : b ∉ f free_list) by (intros H1; discriminate (st_once _ _ _ _ Hr _ _ b H1 Hb)).
  case_bool_decide as Hz; cbn [negb].
  - rewrite Hset, Hz. set (sig := bool_decide _ && bp_empty p). eexists _, (push f free_list b).
    split; [done|]. split; [|split; [done|intros t; by rewrite decide_True by lia]].
    assert (Hev : (if sig then bp_events p ++ [false] else bp_events p) =
                    alternate true (length (if sig then bp_events p ++ [false] else bp_events p)) /\
                  (if sig then false else bp_empty p) =
                    Nat.odd (length (if sig then bp_events p ++ [false] else bp_events p))).
    { destruct sig eqn:Es; [|done]. unfold sig in Es. apply andb_true_iff in Es as [_ Es].
      apply (events_snoc (bp_events p) true He). by rewrite <- Hem. }
    destruct Hev as [Hev1 Hev2].
    assert (Hpf : push f free_list b free_list = f free_list ++ [b])
      by (change (rm b (f free_list) ++ [b] = f free_list ++ [b]); by rewrite rm_not_in).
    assert (Hlen : zlen (push f free_list b checked_out) = zlen (f checked_out) - 1).
    { change (zlen (rm b (f checked_out)) = zlen (f checked_out) - 1).
      pose proof (rep_nodup _ _ _ _ checked_out Hr) as Hn. apply list_elem_of_split in Hb as (l1 & l2 & Es).
      rewrite Es in Hn |- *. rewrite rm_middle by done. rewrite !zlen_app, zlen_cons. lia. }
    constructor; cbn; try done.
    + apply push_rep; [done|done|]. right. by exists checked_out.
    + intros c [Hc'|Hc']; [|by apply elem_of_nil in Hc']. apply elem_push in Hc' as [[-> _]|[Hcb Hc']].
      * rewrite lookup_insert_eq. eauto.
      * rewrite lookup_insert_ne by done. apply Hf. by left.
    + intros c Hc'. apply elem_push in Hc' as [[_ ?]|[Hcb Hc']]; [done|]. rewrite lookup_insert_ne by done. by apply Ho.
    + intros c Hc'. rewrite !elem_push. apply lookup_insert_is_Some in Hc' as [<-|[Hcb Hc']]; [tauto|].
      apply Hl in Hc' as [Hc'|[Hc'|Hc']]; [naive_solver|naive_solver|by apply elem_of_nil in Hc'].
    + intros c Hc'. by apply elem_of_nil in Hc'.
    + rewrite Hpf, zlen_app, zlen_cons, zlen_nil. lia.
    + rewrite Hpf, Hlen, zlen_app, zlen_cons, zlen_nil in *. lia.
  - rewrite Hset. eexists _, f. split; [done|]. split; [|split; [done|intros t; by rewrite decide_False by lia]].
    constructor; cbn; try done.
    + intros c [Hc'|Hc']; [|by apply elem_of_nil in Hc']. rewrite lookup_insert_ne; [apply Hf; by left|]. by intros <-.
    + intros c Hc'. destruct (decide (b = c)) as [<-|Hcb]; [rewrite lookup_insert_eq; exists n, (r - 1); split; [done|lia]|].
      rewrite lookup_insert_ne by done. by apply Ho.
    + intros c Hc'. apply lookup_insert_is_Some in Hc' as [<-|[Hcb Hc']]; [tauto|]. by apply Hl.
Qed.

(** [realloc] returns the same place or one that is not used. *)
Lemma resize_inv realloc p f b n r size : pool_inv p f [] -> b ∈ f checked_out ->
  bp_bufs p !! b = Some (mk_buf n r) ->
  match realloc with Some b' => b' = b \/ fresh p f b' | None => True end ->
  exists p' f', prx_dynamic_buffer_set_size realloc p b size =
      Ok (p', match realloc with Some b' => (b', true) | None => (b, false) end) /\ pool_inv p' f' [] /\
    bp_bufs p' = match realloc with
                 | Some b' => <[b' := mk_buf size r]> (delete b (bp_bufs p))
                 | None => bp_bufs p
                 end /\
    f' free_list = f free_list.
Proof.
  intros Hi Hb E Hre. destruct (i_out _ _ _ Hi b Hb) as (n' & r' & E' & Hr0).
  assert (Hrr : r' = r) by congruence. subst r'. pose proof Hi as [Hr Hf Ho Hl Hh Hfc Hc Hm Hin He Hem].
  set (b' := default b realloc).
  assert (Hnew : b' = b \/ fresh p f b') by (unfold b'; destruct realloc; [done|by left]).
  set (d := DList_InsertTailList (DList_RemoveEntryList (bp_links p) (link_of b)) (head_of checked_out) (link_of b')).
  set (f' := set_list (detach f b) checked_out (rm b (f checked_out) ++ [b'])).
  assert (Hbf : b ∉ f free_list) by (intros H1; discriminate (st_once _ _ _ _ Hr _ _ b H1 Hb)).
  assert (Hff : f' free_list = f free_list) by (change (rm b (f free_list) = f free_list); by apply rm_not_in).
  assert (Hb'f : b' ∉ f free_list) by (destruct Hnew as [->|[_ Hn]]; [done|apply Hn]).
  assert (Hrep : rep A d none f').
  { apply (insert_tail_rep _ (detach f b) checked_out b'); [done| |].
    - eapply rep_weaken; [|apply removed_rep; [exact Hr|right; by exists checked_out]]. by intros ? [].
    - intros u. unfold detach. rewrite elem_rm. destruct Hnew as [->|[_ Hn]]; [tauto|]. intros [_ H1]. by apply (Hn u). }
  assert (Hout : forall c, c ∈ f' checked_out <-> c = b' \/ (c <> b /\ c ∈ f checked_out)).
  { intros c. change (c ∈ rm b (f checked_out) ++ [b'] <-> c = b' \/ (c <> b /\ c ∈ f checked_out)).
    rewrite elem_of_app, elem_rm, list_elem_of_singleton. tauto. }
  assert (Hlen : zlen (f' checked_out) = zlen (f checked_out)).
  { change (zlen (rm b (f checked_out) ++ [b']) = zlen (f checked_out)).
    pose proof (rep_nodup _ _ _ _ checked_out Hr) as Hn. apply list_elem_of_split in Hb as (l1 & l2 & Es).
    rewrite Es in Hn |- *. rewrite rm_middle by done. rewrite !zlen_app, !zlen_cons, zlen_nil. lia. }
  assert (Hgen : forall sz m, m = <[b' := mk_buf sz r]> (delete b (bp_bufs p)) ->
    pool_inv (mk_pool d m (bp_free_count p) (bp_item_size p) (bp_config p) (bp_count p) (bp_empty p) (bp_events p)) f' []).
  { intros sz m ->. constructor; cbn; try done.
    - intros c [Hc'|Hc']; [|by apply elem_of_nil in Hc']. rewrite Hff in Hc'.
      rewrite lookup_insert_ne, lookup_delete_ne; [apply Hf; by left|by intros <-|by intros <-].
    - intros c Hc'. apply Hout in Hc' as [->|[Hcb Hc']]; [rewrite lookup_insert_eq; eauto|].
      destruct (decide (b' = c)) as [<-|Hcb']; [rewrite lookup_insert_eq; eauto|].
      rewrite lookup_insert_ne, lookup_delete_ne by done. by apply Ho.
    - intros c Hc'. rewrite Hff, Hout. apply lookup_insert_is_Some in Hc' as [<-|[Hcb' Hc']]; [tauto|].
      destruct (decide (b = c)) as [<-|Hcb]; [by rewrite lookup_delete_eq in Hc'; destruct Hc'|].
      rewrite lookup_delete_ne in Hc' by done. apply Hl in Hc' as [Hc'|[Hc'|Hc']]; [tauto| |by apply elem_of_nil in Hc'].
      right. left. right. split; [congruence|done].
    - intros c Hc'. by apply elem_of_nil in Hc'.
    - by rewrite Hff.
    - by rewrite Hff, Hlen. }
  unfold prx_dynamic_buffer_set_size. rewrite E. cbn [chk mbind res_bind pb_refs].
  destruct realloc as [x|]; cbn in b'; subst b'; do 2 eexists; (split; [done|]); (split; [|split; [done|exact Hff]]).
  - by eapply Hgen.
  - apply (Hgen n). symmetry. apply map_eq. intros c. destruct (decide (b = c)) as [<-|Hcb].
    + by rewrite lookup_insert_eq, E.
    + by rewrite lookup_insert_ne, lookup_delete_ne.
Qed.
End Inv.

(** ** Counting references *)
Section Counted.
Context {D : Type} `{L : dlist_laws D node}.
Variable A : plist -> Prop.
Hypothesis A_free : A free_list.
Hypothesis A_out : A checked_out.
Implicit Types (p : prx_buffer_pool D) (f : lists) (r : Z -> Z).

Definition upd r (b : Z) (n : Z) : Z -> Z := fun c => if decide (c = b) then n else r c.

(** The references that are out are those that are counted. *)
Record counted p f r : Prop := {
  ct_inv : pool_inv A p f [];
  ct_refs b n k : bp_bufs p !! b = Some (mk_buf n k) -> k = r b;
  ct_none b : bp_bufs p !! b = None -> r b = 0;
  ct_flow : bp_empty p = true ->
    bp_free_count p <= pc_high_watermark (bp_config p) \/ f checked_out <> [];
}.

Lemma held_out p f r b : counted p f r -> 0 < r b -> b ∈ f checked_out /\ exists n, bp_bufs p !! b = Some (mk_buf n (r b)).
Proof.
  intros [Hi Hr Hn _] Hb. destruct (bp_bufs p !! b) as [[n k]|] eqn:E; [|specialize (Hn b E); lia].
  assert (k = r b) as -> by by eapply Hr. split; [|eauto].
  destruct (i_listed _ _ _ _ Hi b) as [H1|[H1|H1]]; [eauto| |done|by apply elem_of_nil in H1].
  destruct (i_free _ _ _ _ Hi b (or_introl H1)) as [n' E']. rewrite E in E'. injection E' as _ E'. lia.
Qed.

Lemma alloc_counted grow p f r : counted p f r ->
  (forall b l p1, f free_list = b :: l -> bp_bufs p1 = bp_bufs p -> bp_config p1 = bp_config p ->
     bp_count p1 = bp_count p -> bp_item_size p1 = bp_item_size p ->
     pool_inv A p1 (set_list f free_list l) [b] -> good_grow A grow p1 (set_list f free_list l) [b]) ->
  match f free_list with
  | [] => prx_buffer_pool_alloc_buffer grow p None = Ok (p, None)
  | b :: _ => r b = 0 /\ exists p' f', prx_buffer_pool_alloc_buffer grow p None = Ok (p', Some b) /\
                counted p' f' (upd r b 1)
  end.
Proof.
  intros Ha Hgrow. pose proof Ha as [Hi Hr Hn Hfl].
  pose proof (alloc_inv A A_free A_out grow p f Hi) as Hal.
  destruct (f free_list) as [|b l] eqn:E; [done|].
  destruct Hal as (p' & f' & n & Hrun & Hi' & Hout & Hb & Hb' & _ & Hkeep).
  { intros p1 E1 E2 E3 E4 Hi1. by apply Hgrow. }
  split; [symmetry; by eapply Hr|]. exists p', f'. split; [done|].
  assert (Hnew : forall c, c <> b -> bp_bufs p !! c = None -> c ∉ f' checked_out).
  { intros c Hcb Hc Hin. rewrite Hout in Hin. apply elem_of_app in Hin as [Hin|Hin].
    - destruct (i_out _ _ _ _ Hi c Hin) as (? & ? & ? & _). congruence.
    - by apply list_elem_of_singleton in Hin. }
  constructor; [done| | |].
  - intros c m k Hc. unfold upd. case_decide as Hcb; [subst; congruence|].
    destruct (bp_bufs p !! c) as [[m' k']|] eqn:Ec.
    + rewrite Hkeep in Hc by eauto. rewrite Ec in Hc. injection Hc as -> ->. by eapply Hr.
    + rewrite (Hn c Ec). destruct (i_listed _ _ _ _ Hi' c) as [Hx|[Hx|Hx]]; [eauto| | |by apply elem_of_nil in Hx].
      * destruct (i_free _ _ _ _ Hi' c (or_introl Hx)) as [? Ex]. rewrite Hc in Ex. by injection Ex.
      * by apply Hnew in Hx.
  - intros c Hc. unfold upd. case_decide as Hcb; [subst; congruence|]. apply Hn.
    destruct (bp_bufs p !! c) eqn:Ec; [|done]. rewrite Hkeep in Hc by eauto. congruence.
  - intros _. right. rewrite Hout. by destruct (f checked_out).
Qed.

Lemma share_counted grow p f r b : counted p f r -> 0 < r b -> exists p',
  prx_buffer_pool_alloc_buffer grow p (Some b) = Ok (p', Some b) /\ counted p' f (upd r b (r b + 1)).
Proof.
  intros Ha Hb. destruct (held_out _ _ _ _ Ha Hb) as [Hout [n0 E0]]. pose proof Ha as [Hi Hr Hn Hfl].
  destruct (share_inv A grow p f b Hi Hout)
    as (n & k & p' & E & Hrun & Hi' & Hm). exists p'. split; [exact Hrun|].
  assert (k = r b) as -> by by eapply Hr. constructor; [done| | |].
  - intros c m k. rewrite Hm. unfold upd. case_decide as Hc.
    + subst. rewrite lookup_insert_eq. by intros [= _ <-].
    + rewrite lookup_insert_ne by done. apply Hr.
  - intros c. rewrite Hm. unfold upd. case_decide as Hc; [subst; by rewrite lookup_insert_eq|].
    rewrite lookup_insert_ne by done. apply Hn.
  - intros _. right. intros E1. rewrite E1 in Hout. by apply elem_of_nil in Hout.
Qed.

Lemma release_counted p f r b : counted p f r -> 0 < r b -> exists p' f',
  prx_buffer_pool_free_buffer p b = Ok p' /\ counted p' f' (upd r b (r b - 1)) /\
  (b ∈ f' free_list <-> r b = 1).
Proof.
  intros Ha Hb. destruct (held_out _ _ _ _ Ha Hb) as [Hout [n E]]. pose proof Ha as [Hi Hr Hn Hfl].
  destruct (release_inv A A_free p f b n (r b) Hi Hout E) as (p' & f' & Hrun & Hi' & Hm & Hf).
  exists p', f'. split; [done|].
  assert (Hbf : b ∉ f free_list) by (intros Hx; discriminate (st_once _ _ _ _ (i_rep _ _ _ _ Hi) _ _ b Hx Hout)).
  split; [constructor; [done| | |]|].
  - intros c m k. rewrite Hm. unfold upd. destruct (decide (c = b)) as [Hc|Hc].
    + subst. rewrite lookup_insert_eq. by intros [= _ <-].
    + rewrite lookup_insert_ne by done. apply Hr.
  - intros c. rewrite Hm. unfold upd. destruct (decide (c = b)) as [Hc|Hc]; [subst; by rewrite lookup_insert_eq|].
    rewrite lookup_insert_ne by done. apply Hn.
  - intros He. destruct (decide (r b = 1)) as [H1|H1].
    + left. clear - Hrun He E H1. unfold prx_buffer_pool_free_buffer in Hrun.
      rewrite E in Hrun. cbn in Hrun. rewrite H1 in Hrun. cbn in Hrun. injection Hrun as <-. cbn in He |- *.
      case_bool_decide as Hgt; [|lia]. cbn in He. by destruct (bp_empty p).
    + right. rewrite Hf. intros E1. rewrite E1 in Hout. by apply elem_of_nil in Hout.
  - rewrite Hf. case_decide as H1; [|naive_solver]. rewrite elem_push. naive_solver.
Qed.


Lemma counted_ext p f r r' : (forall b, r b = r' b) -> counted p f r -> counted p f r'.
Proof. intros E [H1 H2 H3 H4]. constructor; try done; intros; rewrite <- E; eauto. Qed.

Lemma counted_proper p : Proper (pointwise_relation Z eq ==> iff) (fun r => exists f, counted p f r).
Proof. intros r r' E. split; intros [f Hc]; exists f; eapply counted_ext; [|exact Hc| |exact Hc]; intros b; by rewrite (E b). Qed.
End Counted.

(** ** Histories of a dynamic pool

    [reach p r]: [p] can be reached, and [r b] references to buffer [b] were handed out
    and not given back.  Memory that is allocated is not in use; only a buffer with
    one reference is resized, as its address changes. *)
Section History.
Context {D : Type} `{L : dlist_laws D node}.
Implicit Types (p : prx_buffer_pool D) (f : lists) (r : Z -> Z).

Definition dynamic (t : plist) : Prop := t <> blocks.

Definition mem_ok p (alloc : nat -> option Z) : Prop :=
  (forall i b, alloc i = Some b -> bp_bufs p !! b = None) /\
  (forall i j b, alloc i = Some b -> alloc j = Some b -> i = j).

Definition config_ok (config : option prx_pool_config) : Prop := forall c, config = Some c ->
  0 <= pc_initial_count c /\ 0 <= pc_max_count c < 2 ^ 64 /\ 0 <= pc_low_watermark c /\ 0 <= pc_high_watermark c.

Inductive reach : prx_buffer_pool D -> (Z -> Z) -> Prop :=
| reach_create zalloc lock alloc d size config p :
    config_ok config ->
    (forall i j b, alloc i = Some b -> alloc j = Some b -> i = j) ->
    prx_dynamic_pool_create zalloc lock alloc d size config = Ok p -> reach p (fun _ => 0)
| reach_alloc p r alloc p' b : reach p r -> mem_ok p alloc ->
    prx_dynamic_buffer_alloc alloc p None = Ok (p', Some b) -> reach p' (upd r b 1)
| reach_share p r alloc b p' : reach p r -> 0 < r b ->
    prx_dynamic_buffer_alloc alloc p (Some b) = Ok (p', Some b) -> reach p' (upd r b (r b + 1))
| reach_release p r b p' : reach p r -> 0 < r b ->
    prx_dynamic_buffer_release p b = Ok p' -> reach p' (upd r b (r b - 1))
| reach_resize p r realloc b size p' b' ok : reach p r -> r b = 1 ->
    (forall x, realloc = Some x -> x = b \/ bp_bufs p !! x = None) ->
    prx_dynamic_buffer_set_size realloc p b size = Ok (p', (b', ok)) ->
    reach p' (upd (upd r b 0) b' 1).

Lemma dynamic_fresh p f h b : pool_inv dynamic p f h -> bp_bufs p !! b = None -> fresh p f b.
Proof.
  intros Hi Hb. split; [done|]. intros [] Hin.
  - destruct (i_free _ _ _ _ Hi b (or_introl Hin)) as [? ?]. congruence.
  - destruct (i_out _ _ _ _ Hi b Hin) as (? & ? & ? & _). congruence.
  - by apply (st_in _ _ _ _ (i_rep _ _ _ _ Hi)) in Hin.
Qed.

Lemma effective_ok (config : option prx_pool_config) : config_ok config ->
  0 < pc_initial_count (effective_config config) /\
  0 <= pc_max_count (effective_config config) < 2 ^ 64.
Proof.
  intros Hc. unfold effective_config. destruct config as [c|]; cbn [default from_option id pc_initial_count pc_max_count].
  - specialize (Hc c eq_refl). split; [case_bool_decide; lia|lia].
  - split; [by case_bool_decide|lia].
Qed.

(** [A0]: the lists that were initialised before. *)
Lemma init_inv (A A0 : plist -> Prop) lock d size config p : config_ok config ->
  rep A0 d (fun _ => False) (fun _ => []) -> (forall t, A0 t \/ t = checked_out \/ t = free_list <-> A t) ->
  prx_buffer_pool_init lock d size config = Ok p -> pool_inv A p (fun _ => []) [].
Proof.
  intros Hc H0 HA. apply effective_ok in Hc. unfold prx_buffer_pool_init. destruct lock; [|done|done].
  cbn [mbind res_bind]. intros [= <-]. set (c := effective_config config) in *. clearbody c.
  constructor; cbn; try done.
  - apply (init_empty _ _ _ _ checked_out) in H0; [|done]. apply (init_empty _ _ _ _ free_list) in H0; [|done].
    eapply rep_heads; [|exact H0]. intros t. cbn. rewrite <- HA. tauto.
  - intros b [Hb|Hb]; by apply elem_of_nil in Hb.
  - intros b Hb. by apply elem_of_nil in Hb.
  - intros b [? Hb]. by rewrite lookup_empty in Hb.
  - intros b Hb. by apply elem_of_nil in Hb.
  - lia.
  - apply Hc.
Qed.

Abbreviation agrees := (counted dynamic).

Lemma create_agrees zalloc lock alloc d size config p :
  config_ok config ->
  (forall i j b, alloc i = Some b -> alloc j = Some b -> i = j) ->
  prx_dynamic_pool_create zalloc lock alloc d size config = Ok p -> exists f, agrees p f (fun _ => 0).
Proof.
  intros Hc Hd. unfold prx_dynamic_pool_create. destruct zalloc; [|done]. cbn [negb].
  destruct (prx_buffer_pool_init lock d size config) as [p0| |] eqn:E; cbn [mbind res_bind]; [|done|done].
  assert (Hb0 : bp_bufs p0 = ∅ /\ bp_empty p0 = false).
  { unfold prx_buffer_pool_init in E. destruct lock; cbn in E; try done. by injection E as <-. }
  destruct Hb0 as [Hb0 He0]. apply (init_inv dynamic (fun _ => False)) in E; [|done| |].
  2: { apply rep_none. by intros ? []. }
  2: { unfold dynamic. intros []; naive_solver. }
  destruct (grow_items_max dynamic p0 _ _ E) as [H0 Hm].
  destruct (dynamic_grow_inv dynamic ltac:(done) (Z.to_nat (grow_items p0)) alloc p0 _ [] E) as (f & Hi & Hg).
  - split; [|intros; by eapply Hd]. intros i b _ Hb. split; [by rewrite Hb0|]. intros t Ht. by apply elem_of_nil in Ht.
  - intros Hne. specialize (Hm Hne). lia.
  - cbn [prx_dynamic_pool_grow_no_lock fst]. case_bool_decide; cbn; [|done]. intros [= <-]. exists f.
    assert (Hout : f checked_out = []) by (destruct (g_lists _ _ _ _ Hg) as [l Hl]; by rewrite Hl).
    constructor; [done| |done|].
    + intros b n k Hb. destruct (i_listed _ _ _ _ Hi b) as [Hx|[Hx|Hx]]; [eauto| | |].
      * destruct (i_free _ _ _ _ Hi b (or_introl Hx)) as [n' E']. rewrite Hb in E'. by injection E'.
      * rewrite Hout in Hx. by apply elem_of_nil in Hx.
      * by apply elem_of_nil in Hx.
    + rewrite (g_empty _ _ _ _ Hg), He0. done.
Qed.

Lemma good_dynamic p alloc p1 f h : mem_ok p alloc -> bp_bufs p1 = bp_bufs p -> pool_inv dynamic p1 f h ->
  good_grow dynamic (fun p => fst (prx_dynamic_pool_grow_no_lock alloc p)) p1 f h.
Proof.
  intros [Hm Hd] E Hi. destruct (dynamic_grows dynamic ltac:(done) alloc p1 f h Hi) as (f' & H1 & H2).
  - split; [|intros i j b _ _; by apply Hd]. intros i b _ Hb. eapply dynamic_fresh; [exact Hi|]. rewrite E. by eapply Hm.
  - exists f'. split; [done|]. by eapply grown_extends.
Qed.

Lemma alloc_agrees p f r alloc : agrees p f r -> mem_ok p alloc ->
  match f free_list with
  | [] => prx_dynamic_buffer_alloc alloc p None = Ok (p, None)
  | b :: _ => r b = 0 /\ exists p' f', prx_dynamic_buffer_alloc alloc p None = Ok (p', Some b) /\
                agrees p' f' (upd r b 1)
  end.
Proof.
  intros Ha Hm. apply (alloc_counted dynamic ltac:(done) ltac:(done) _ p f r Ha). intros b l p1 _ E1 _ _ _ Hi1.
  by apply (good_dynamic p).
Qed.

Lemma share_agrees p f r alloc b : agrees p f r -> 0 < r b -> exists p',
  prx_dynamic_buffer_alloc alloc p (Some b) = Ok (p', Some b) /\ agrees p' f (upd r b (r b + 1)).
Proof. apply share_counted. Qed.

Lemma release_agrees p f r b : agrees p f r -> 0 < r b -> exists p' f',
  prx_dynamic_buffer_release p b = Ok p' /\ agrees p' f' (upd r b (r b - 1)) /\
  (b ∈ f' free_list <-> r b = 1).
Proof. by apply release_counted. Qed.

Lemma resize_agrees p f r realloc b size : agrees p f r -> r b = 1 ->
  (forall x, realloc = Some x -> x = b \/ bp_bufs p !! x = None) -> exists p' f',
    prx_dynamic_buffer_set_size realloc p b size = Ok (p', (default b realloc, bool_decide (is_Some realloc))) /\
    agrees p' f' (upd (upd r b 0) (default b realloc) 1).
Proof.
  intros Ha Hb Hre. destruct (held_out dynamic _ _ _ b Ha) as [Hout [n E]]; [lia|]. pose proof Ha as [Hi Hr Hn Hfl].
  destruct (resize_inv dynamic ltac:(done) realloc p f b n (r b) size Hi Hout E) as (p' & f' & Hrun & Hi' & Hm & Hf).
  { destruct realloc as [x|]; [|done]. destruct (Hre x eq_refl); [by left|]. right. by eapply dynamic_fresh. }
  exists p', f'. split; [rewrite Hrun; by destruct realloc|].
  assert (Hmm : bp_bufs p' = <[default b realloc := mk_buf (match realloc with Some _ => size | None => n end) 1]>
                              (delete b (bp_bufs p))).
  { rewrite Hm, Hb. destruct realloc; [done|]. cbn. apply map_eq. intros c. destruct (decide (b = c)) as [<-|Hc].
    - by rewrite lookup_insert_eq, E, Hb.
    - by rewrite lookup_insert_ne, lookup_delete_ne. }
  constructor; [done| | |].
  - intros c m k. rewrite Hmm. unfold upd. case_decide as Hc; [subst; rewrite lookup_insert_eq; by intros [= _ <-]|].
    rewrite lookup_insert_ne by done. case_decide as Hcb; [subst; by rewrite lookup_delete_eq|].
    rewrite lookup_delete_ne by done. apply Hr.
  - intros c. rewrite Hmm. unfold upd. case_decide as Hc; [subst; by rewrite lookup_insert_eq|].
    rewrite lookup_insert_ne by done. case_decide as Hcb; [done|]. rewrite lookup_delete_ne by done. apply Hn.
  - intros _. right. intros E1. pose proof (i_count _ _ _ _ Hi') as Hc'. pose proof (i_count _ _ _ _ Hi) as Hc.
    assert (Hlen : bp_count p' = bp_count p).
    { unfold prx_dynamic_buffer_set_size in Hrun. rewrite E in Hrun. cbn in Hrun. destruct realloc; by injection Hrun as <-. }
    rewrite Hlen, Hf, E1 in Hc'. rewrite Hc in Hc'. rewrite !zlen_nil in Hc'.
    destruct (f checked_out) as [|x l]; [by apply elem_of_nil in Hout|]. rewrite zlen_cons in Hc'.
    pose proof (zlen_nonneg l). lia.
Qed.

Lemma reach_agrees p r : reach p r -> exists f, agrees p f r.
Proof.
  induction 1 as [zalloc lock alloc d size config p Hc Hd E|p r alloc p' b _ [f Ha] Hm E|p r alloc b p' _ [f Ha] Hb E
                 |p r b p' _ [f Ha] Hb E|p r realloc b size p' b' ok _ [f Ha] Hb Hre E].
  - by eapply create_agrees.
  - pose proof (alloc_agrees p f r alloc Ha Hm) as Hx. destruct (f free_list) as [|c l]; [congruence|].
    destruct Hx as (_ & p1 & f1 & E1 & H1). exists f1. rewrite E in E1. by injection E1 as -> ->.
  - destruct (share_agrees p f r alloc b Ha Hb) as (p1 & E1 & H1). exists f. rewrite E in E1. by injection E1 as ->.
  - destruct (release_agrees p f r b Ha Hb) as (p1 & f1 & E1 & H1 & _). exists f1. rewrite E in E1. by injection E1 as ->.
  - destruct (resize_agrees p f r realloc b size Ha Hb Hre) as (p1 & f1 & E1 & H1). exists f1. rewrite E in E1.
    by injection E1 as -> -> _.
Qed.

(** C37: In every history of a dynamic pool the buffers checked out are exactly those to
    which references are held, the free ones those without; no buffer is in both
    lists; the counter of free buffers is right and the maximum is never exceeded. *)
Theorem pool_references p r : reach p r -> exists free out,
  dl (bp_links p) free_list free /\ dl (bp_links p) checked_out out /\ NoDup (free ++ out) /\
  (forall b, b ∈ out <-> 0 < r b) /\
  (forall b, b ∈ free <-> is_Some (bp_bufs p !! b) /\ r b = 0) /\
  bp_free_count p = zlen free /\
  (pc_max_count (bp_config p) <> 0 -> zlen free + zlen out <= pc_max_count (bp_config p)).
Proof.
  intros Hr. destruct (reach_agrees p r Hr) as [f Ha]. exists (f free_list), (f checked_out).
  pose proof Ha as [Hi Hrf Hn _]. pose proof (i_rep _ _ _ _ Hi) as Hrep.
  assert (Hout : forall b, b ∈ f checked_out <-> 0 < r b).
  { intros b. split; [|by intros Hb; apply (held_out _ _ _ _ _ Ha) in Hb as [? _]]. intros Hb.
    destruct (i_out _ _ _ _ Hi b Hb) as (n & k & E & Hk). by rewrite <- (Hrf b n k E). }
  split; [by apply (st_lists _ _ _ _ Hrep)|]. split; [by apply (st_lists _ _ _ _ Hrep)|]. split.
  { apply NoDup_app. split; [by eapply rep_nodup|]. split; [|by eapply rep_nodup].
    intros b H1 H2. discriminate (st_once _ _ _ _ Hrep _ _ b H1 H2). }
  split; [done|]. split; [|split; [apply Hi|]].
  - intros b. split.
    + intros Hb. destruct (i_free _ _ _ _ Hi b (or_introl Hb)) as [n E]. split; [eauto|]. by rewrite <- (Hrf b n 0 E).
    + intros [Hb H0]. destruct (i_listed _ _ _ _ Hi b Hb) as [Hx|[Hx|Hx]]; [done| |by apply elem_of_nil in Hx].
      apply Hout in Hx. lia.
  - intros Hm. pose proof (i_max _ _ _ _ Hi Hm). pose proof (i_count _ _ _ _ Hi) as Hc. rewrite zlen_nil in Hc. lia.
Qed.

(** A reference that is held can always be shared and given back; a new buffer is
    handed out whenever one is free, and it is never one that is in use. *)
Lemma pool_operations_safe p r alloc : reach p r -> mem_ok p alloc ->
  (forall b, 0 < r b -> (exists p', prx_dynamic_buffer_alloc alloc p (Some b) = Ok (p', Some b)) /\
                        (exists p', prx_dynamic_buffer_release p b = Ok p')) /\
  exists p' o, prx_dynamic_buffer_alloc alloc p None = Ok (p', o) /\
    (o = None <-> bp_free_count p = 0) /\ (forall b, o = Some b -> r b = 0).
Proof.
  intros Hr Hm. destruct (reach_agrees p r Hr) as [f Ha]. split.
  - intros b Hb. split.
    + destruct (share_agrees p f r alloc b Ha Hb) as (p' & E & _). eauto.
    + destruct (release_agrees p f r b Ha Hb) as (p' & f' & E & _). eauto.
  - pose proof (alloc_agrees p f r alloc Ha Hm) as Hx. pose proof (i_free_count _ _ _ _ (ct_inv _ _ _ _ Ha)) as Hfc.
    destruct (f free_list) as [|b l]; [exists p, None|].
    + split; [done|]. split; [by rewrite Hfc|done].
    + destruct Hx as (H0 & p' & f' & E & _). exists p', (Some b). split; [done|].
      rewrite zlen_cons in Hfc. pose proof (zlen_nonneg l). split; [split; [done|lia]|]. by intros c [= <-].
Qed.

(** ** Callbacks *)

(** The user hears the values in [decided], which come one by one, when the lock is
    released: [called] are the calls that were made, [due] those that the threads still have
    to make.  Without [overlap], a thread makes its call before the next
    function of the pool takes the lock. *)
Inductive delivers (overlap : bool) : list bool -> list bool -> list bool -> Prop :=
| delivers_start : delivers overlap [] [] []
| delivers_decide decided called due e : delivers overlap decided called due -> overlap = true \/ due = [] ->
    delivers overlap (decided ++ [e]) called (due ++ [e])
| delivers_call decided called due1 e due2 : delivers overlap decided called (due1 ++ e :: due2) ->
    delivers overlap decided (called ++ [e]) (due1 ++ due2).

Lemma delivers_perm overlap decided called due : delivers overlap decided called due -> called ++ due ≡ₚ decided.
Proof.
  induction 1 as [|ds cs ps e _ IH _|ds cs ps1 e ps2 _ IH]; [done|by rewrite app_assoc, IH|].
  rewrite <- IH, <- app_assoc. f_equiv. cbn. apply Permutation_middle.
Qed.

Lemma delivers_in_turn overlap decided called due : delivers overlap decided called due -> overlap = false ->
  called ++ due = decided /\ (length due <= 1)%nat.
Proof.
  induction 1 as [|ds cs ps e _ IH Ho|ds cs ps1 e ps2 _ IH]; intros E; [cbn; auto| |]; destruct (IH E) as [<- Hl].
  - destruct Ho as [Ho| ->]; [congruence|]. split; [by rewrite app_assoc|cbn; lia].
  - rewrite length_app in Hl. cbn in Hl. destruct ps1; [|cbn in Hl; lia]. destruct ps2; [|cbn in Hl; lia].
    split; [by rewrite app_nil_r|cbn; lia].
Qed.

(** How often a value is in a list. *)
Definition times (e : bool) (l : list bool) : Z := zlen (filter (fun x => x = e) l).

Lemma times_perm e l l' : l ≡ₚ l' -> times e l = times e l'.
Proof. intros Hp. unfold times, zlen. by rewrite Hp. Qed.

Lemma times_alternate b n : times b (alternate b n) = times (negb b) (alternate b n) + if Nat.odd n then 1 else 0.
Proof.
  revert b. induction n as [|n IH]; intros b; [done|]. specialize (IH (negb b)). rewrite negb_involutive in IH.
  unfold times in *. cbn [alternate]. rewrite !filter_cons.
  rewrite decide_True by done. rewrite decide_False by (by destruct b). rewrite zlen_cons, Nat.odd_succ, <- Nat.negb_odd.
  destruct (Nat.odd n); cbn [negb]; lia.
Qed.

(** C39: A pool decides under its lock that it runs low and that buffers are back, in turn
    and low first.  The user is called once for every decision: the calls
    that were made and those that are due are the decisions, so that they say low once
    more than high while the pool is empty, and as often otherwise; if the calls of
    the pool do not overlap, the user hears them in turn too.  Once all buffers were given
    back the pool is not empty, provided the high watermark is below the number of
    buffers. *)
Theorem pool_flow_control p r overlap called due : reach p r -> delivers overlap (bp_events p) called due ->
  bp_events p = alternate true (length (bp_events p)) /\
  called ++ due ≡ₚ bp_events p /\
  times true (called ++ due) = times false (called ++ due) + (if bp_empty p then 1 else 0) /\
  (overlap = false -> called ++ due = bp_events p) /\
  ((forall b, r b = 0) -> pc_high_watermark (bp_config p) < bp_count p -> bp_empty p = false).
Proof.
  intros Hr Hd. pose proof (delivers_perm _ _ _ _ Hd) as Hp. destruct (reach_agrees p r Hr) as [f Ha]. pose proof Ha as [Hi Hrf Hn Hfl].
  split; [apply Hi|]. split; [done|]. split.
  { rewrite !(times_perm _ _ _ Hp), (i_events _ _ _ _ Hi), (i_empty _ _ _ _ Hi). apply (times_alternate true). }
  split; [intros Ho; by apply (delivers_in_turn _ _ _ _ Hd Ho)|].
  intros H0 Hc. destruct (bp_empty p) eqn:E; [|done].
  assert (Hout : f checked_out = []).
  { destruct (f checked_out) as [|b l] eqn:Eo; [done|]. destruct (i_out _ _ _ _ Hi b) as (n & k & Eb & Hk).
    - rewrite Eo. apply list_elem_of_here.
    - rewrite (Hrf b n k Eb), H0 in Hk. lia. }
  destruct (Hfl eq_refl) as [Hle|Hne]; [|done].
  pose proof (i_count _ _ _ _ Hi) as Hcount. pose proof (i_free_count _ _ _ _ Hi) as Hfc.
  rewrite Hout, !zlen_nil in Hcount. lia.
Qed.

(** What an operation says, and what it keeps. *)
Lemma alloc_signals grow p b p' o : (forall p, bp_config (grow p) = bp_config p /\ bp_events (grow p) = bp_events p /\
    bp_empty (grow p) = bp_empty p) ->
  prx_buffer_pool_alloc_buffer grow p b = Ok (p', o) ->
  bp_config p' = bp_config p /\
  (bp_events p' = bp_events p \/ bp_empty p = false /\ bp_events p' = bp_events p ++ [true]).
Proof.
  intros Hg. unfold prx_buffer_pool_alloc_buffer. destruct b as [b|].
  - destruct (bp_bufs p !! b); cbn; [|done]. intros [= <- _]. cbn. tauto.
  - destruct (DList_IsListEmpty _ _); [intros [= <- _]; tauto|].
    destruct (DList_RemoveHeadList _ _) as [n d]. destruct (entry_of n) as [out|]; cbn [chk mbind res_bind]; [|done].
    set (p1 := mk_pool _ _ _ _ _ _ _ _). set (p2 := if bool_decide _ then grow p1 else p1).
    assert (H2 : bp_config p2 = bp_config p /\ bp_events p2 = bp_events p /\ bp_empty p2 = bp_empty p).
    { unfold p2. case_bool_decide; [apply (Hg p1)|done]. }
    destruct H2 as (Ec & Ee & Em). destruct (bp_bufs p2 !! out); cbn [chk mbind res_bind]; [|done].
    intros [= <- _]. cbn. rewrite Ec, Ee, Em. split; [done|].
    destruct (bool_decide (bp_free_count p2 <= _)), (bp_empty p); cbn; tauto.
Qed.

Lemma dynamic_grow_keeps n alloc p : bp_config (dynamic_grow_loop n alloc p) = bp_config p /\
  bp_events (dynamic_grow_loop n alloc p) = bp_events p /\ bp_empty (dynamic_grow_loop n alloc p) = bp_empty p.
Proof.
  revert alloc p. induction n as [|n IH]; intros alloc p; [done|]. cbn. destruct (alloc O); [|done].
  destruct (IH (fun i => alloc (S i)) (add_free p z)) as (-> & -> & ->). done.
Qed.

Lemma alloc_once_low p r alloc b p' o : reach p r -> prx_dynamic_buffer_alloc alloc p b = Ok (p', o) ->
  bp_config p' = bp_config p /\
  (bp_events p = [] \/ bp_events p = [true] -> bp_events p' = [] \/ bp_events p' = [true]).
Proof.
  intros Hr E. unfold prx_dynamic_buffer_alloc in E.
  apply alloc_signals in E as [Ec He]; [|intros q; apply dynamic_grow_keeps]. split; [done|].
  destruct (reach_agrees p r Hr) as [f Ha]. pose proof (i_empty _ _ _ _ (ct_inv _ _ _ _ Ha)) as Hem.
  intros [E1|E1]; rewrite E1 in *; destruct He as [->|[H0 ->]]; try tauto. rewrite H0 in Hem. discriminate Hem.
Qed.

(** With a high watermark that is not below the maximum, which is what a larger one
    is set to, the user is told once that buffers are low and never that they are back. *)
Lemma pool_never_resumes p r : reach p r -> pc_max_count (bp_config p) <> 0 ->
  pc_max_count (bp_config p) <= pc_high_watermark (bp_config p) ->
  bp_events p = [] \/ bp_events p = [true].
Proof.
  induction 1 as [zalloc lock alloc d size config p Hc Hd E|p r alloc p' b Hr IH Hm E|p r alloc b p' Hr IH Hb E
                 |p r b p' Hr IH Hb E|p r realloc b size p' b' ok Hr IH Hb Hre E]; intros Hmax Hhigh.
  - left. unfold prx_dynamic_pool_create in E. destruct zalloc; [|done]. cbn [negb] in E.
    destruct (prx_buffer_pool_init lock d size config) as [p0| |] eqn:E0; cbn [mbind res_bind] in E; [|done|done].
    unfold prx_dynamic_pool_grow_no_lock in E. case_bool_decide; cbn in E; [|done]. injection E as <-.
    rewrite (proj1 (proj2 (dynamic_grow_keeps _ _ _))). unfold prx_buffer_pool_init in E0.
    destruct lock; cbn in E0; try done. by injection E0 as <-.
  - destruct (alloc_once_low _ _ _ _ _ _ Hr E) as [Ec He]. rewrite Ec in *. auto.
  - destruct (alloc_once_low _ _ _ _ _ _ Hr E) as [Ec He]. rewrite Ec in *. auto.
  - destruct (reach_agrees p r Hr) as [f Ha]. destruct (release_agrees p f r b Ha Hb) as (p1 & f1 & E1 & Ha1 & _).
    assert (p1 = p') as -> by congruence. pose proof (ct_inv _ _ _ _ Ha1) as Hi1.
    pose proof (i_free_count _ _ _ _ Hi1) as Hfc. pose proof (i_count _ _ _ _ Hi1) as Hcn.
    pose proof (i_max _ _ _ _ Hi1 Hmax) as Hmx. rewrite zlen_nil in Hcn. pose proof (zlen_nonneg (f1 checked_out)).
    unfold prx_dynamic_buffer_release, prx_buffer_pool_free_buffer in E.
    destruct (bp_bufs p !! b) as [pb|]; cbn [chk mbind res_bind] in E; [|done].
    destruct (negb _); injection E as <-; cbn in *; [by apply IH|].
    rewrite bool_decide_eq_false_2 by lia. cbn. by apply IH.
  - unfold prx_dynamic_buffer_set_size in E. destruct (bp_bufs p !! b); cbn in E; [|done].
    destruct realloc; injection E as <- _ _; by apply IH.
Qed.
End History.

(** ** The fixed pool *)

(** A new fixed pool: one block, all buffers free. *)
Lemma fixed_create_inv {D} `{dlist_laws D node} header zalloc lock block (d : D) size config p :
  config_ok config -> 0 < header -> 0 <= size ->
  prx_fixed_pool_create header zalloc lock (Some block) d size config = Ok p ->
  exists f, pool_inv (fun _ => True) p f [] /\ (forall b, b ∈ f blocks -> b = block) /\
    f checked_out = [] /\ bp_empty p = false.
Proof.
  intros Hc Hh Hsz. unfold prx_fixed_pool_create. destruct zalloc; [|done]. cbn [negb].
  destruct (prx_buffer_pool_init lock _ size config) as [p0| |] eqn:E; cbn [mbind res_bind]; [|done|done].
  assert (Hb0 : bp_bufs p0 = ∅ /\ bp_item_size p0 = size /\ bp_empty p0 = false).
  { unfold prx_buffer_pool_init in E. destruct lock; cbn in E; try done. by injection E as <-. }
  destruct Hb0 as (Hb0 & Hs0 & He0). apply (init_inv (fun _ => True) (fun t => t = blocks)) in E; [|done| |].
  2: { eapply rep_heads, init_empty, eq_refl; [|apply rep_none; by intros ? []]. cbn. tauto. }
  2: { intros []; tauto. }
  destruct (fixed_grows (fun _ => True) I header (Some block) p0 _ [] I E) as (f0 & Hf0 & Hbl & f & Hi & Hg).
  - intros b [= <-]. split; [|by intros Hb%elem_of_nil]. unfold block_fresh. rewrite Hs0.
    split; [lia|]. split; [intros t Ht; by apply elem_of_nil in Ht|]. intros i Hi. split; [|nia].
    split; [by rewrite Hb0|]. intros t Ht. by apply elem_of_nil in Ht.
  - destruct (prx_fixed_pool_grow_no_lock header (Some block) p0) as [p1 []]; cbn; try done.
    intros [= <-]. exists f. split; [done|]. destruct (g_lists _ _ _ _ Hg) as [l Hl]. split; [|split].
    + intros b Hb. rewrite Hl in Hb. destruct (Hbl b Hb) as [Hx|[= Hx]]; [by apply elem_of_nil in Hx|done].
    + rewrite Hl. by apply Hf0.
    + by rewrite <- He0, <- (g_empty _ _ _ _ Hg).
Qed.

(** Handing out a buffer of a fixed pool keeps the invariant of the pool, also when
    it grows by a block, and hands out the first free buffer with one reference. *)
Lemma fixed_pool_alloc {D} `{dlist_laws D node} header alloc (p : prx_buffer_pool D) f b l :
  pool_inv (fun _ => True) p f [] -> f free_list = b :: l ->
  (forall block, alloc = Some block ->
     0 < header + bp_item_size p /\ (forall t, block ∉ f t) /\ block <> b /\
     forall i, 0 <= i < grow_items p -> let c := block + header + i * (header + bp_item_size p) in
       (bp_bufs p !! c = None /\ c ∉ f blocks /\ c <> block)) ->
  exists p' f' n, prx_fixed_buffer_alloc header alloc p None = Ok (p', Some b) /\
    pool_inv (fun _ => True) p' f' [] /\ f' checked_out = f checked_out ++ [b] /\
    bp_bufs p' !! b = Some (mk_buf n 1) /\
    (pc_max_count (bp_config p) <> 0 -> bp_count p' <= pc_max_count (bp_config p')).
Proof.
  intros Hi E Hfresh. pose proof (alloc_inv (fun _ => True) I I
    (fun p => fst (prx_fixed_pool_grow_no_lock header alloc p)) p f Hi) as Hal. rewrite E in Hal.
  destruct Hal as (p' & f' & n & Hrun & Hi' & Hout & Hb & Hb' & Hcfg & _).
  - intros p1 E1 E2 E3 E4 Hi1. assert (Hgi : grow_items p1 = grow_items p) by (unfold grow_items; by rewrite E2, E3).
    destruct (fixed_grows (fun _ => True) I header alloc p1 _ [b] I Hi1) as (f0 & Hf0 & _ & f2 & H1 & H2).
    + intros block Hblock. destruct (Hfresh block Hblock) as (Hs & Hbl & Hbb & Hit).
      rewrite list_elem_of_singleton. split; [|done].
      unfold block_fresh. rewrite E4, Hgi. split; [done|]. split.
      * intros t Ht. apply (Hbl t). unfold set_list in Ht. case_decide; [|done]. subst. rewrite E. by right.
      * intros i Hr. destruct (Hit i Hr) as (F1 & F2 & F3). split; [|done]. split; [by rewrite E1|].
        intros t Ht. assert (Hc : is_Some (bp_bufs p !! (block + header + i * (header + bp_item_size p))) \/ t = blocks).
        { destruct t; [left|left|by right]; rewrite <- E1.
          - destruct (i_free _ _ _ _ Hi1 _ (or_introl Ht)) as [x Hx]. eauto.
          - destruct (i_out _ _ _ _ Hi1 _ Ht) as (x & y & Hx & _). eauto. }
        destruct Hc as [[? Hc]| ->]; [congruence|]. by apply F2.
    + exists f2. split; [done|]. by eapply grown_extends.
  - exists p', f', n. split; [exact Hrun|]. split; [done|]. split; [done|]. split; [done|].
    intros Hm.
    rewrite Hcfg. pose proof (i_max _ _ _ _ Hi') as Hx. rewrite Hcfg in Hx. by apply Hx.
Qed.

(** ** What a pool promises its user

    [rp_owns p r]: [r b] references to [b] are out; [rp_env p e]: the memory [e] that
    the pool may get is not in use. *)
Class refpool (P E : Type) := {
  rp_alloc : E -> P -> option Z -> res (P * option Z);
  rp_release : P -> Z -> res P;
  rp_owns : P -> (Z -> Z) -> Prop;
  rp_env : P -> E -> Prop;
}.

Class refpool_laws (P E : Type) `{refpool P E} := {
  rp_proper p :: Proper (pointwise_relation Z eq ==> iff) (rp_owns p);
  rp_share p r e b : rp_owns p r -> 0 < r b -> exists p',
    rp_alloc e p (Some b) = Ok (p', Some b) /\ rp_owns p' (upd r b (r b + 1));
  rp_new p r e : rp_owns p r -> rp_env p e -> exists p' o,
    rp_alloc e p None = Ok (p', o) /\
    match o with Some b => r b = 0 /\ rp_owns p' (upd r b 1) | None => rp_owns p' r end;
  rp_back p r b : rp_owns p r -> 0 < r b -> exists p',
    rp_release p b = Ok p' /\ rp_owns p' (upd r b (r b - 1));
}.

Lemma rp_ext `{refpool_laws} p r r' : (forall b, r b = r' b) -> rp_owns p r -> rp_owns p r'.
Proof. intros Hr Ho. by apply (rp_proper p r r'). Qed.

#[export] Instance dynamic_refpool {D} `{dlist_laws D node} : refpool (prx_buffer_pool D) (nat -> option Z) := {|
  rp_alloc := prx_dynamic_buffer_alloc;
  rp_release := prx_dynamic_buffer_release;
  rp_owns p r := exists f, counted dynamic p f r;
  rp_env := mem_ok |}.

#[export] Instance dynamic_refpool_laws {D} `{dlist_laws D node} :
  refpool_laws (prx_buffer_pool D) (nat -> option Z).
Proof.
  split; cbn [rp_alloc rp_release rp_owns rp_env dynamic_refpool].
  - intros p. apply counted_proper.
  - intros p r e b [f Ha] Hb. destruct (share_agrees p f r e b Ha Hb) as (p' & E & Ha'). eauto.
  - intros p r e [f Ha] Hm. pose proof (alloc_agrees p f r e Ha Hm) as Hx. destruct (f free_list) as [|b l].
    + exists p, None. eauto.
    + destruct Hx as (Hz & p' & f' & E & Ha'). exists p', (Some b). eauto.
  - intros p r b [f Ha] Hb. destruct (release_agrees p f r b Ha Hb) as (p' & f' & E & Ha' & _). eauto.
Qed.

(** A block of a fixed pool of objects of [size] bytes. *)
Definition fixed_mem_ok {D} `{dlist_laws D node} (header : Z) (p : prx_buffer_pool D) (alloc : option Z) : Prop :=
  forall block, alloc = Some block -> 0 < header + bp_item_size p /\
    (forall l, dl (bp_links p) blocks l -> block ∉ l) /\ bp_bufs p !! block = None /\
    forall i, 0 <= i < grow_items p -> let c := block + header + i * (header + bp_item_size p) in
      (bp_bufs p !! c = None /\ (forall l, dl (bp_links p) blocks l -> c ∉ l) /\ c <> block).

(** The header in front of the objects of a fixed pool. *)
Class fixed_header := header_size : Z.

#[export] Instance fixed_refpool {D} `{dlist_laws D node} `{fixed_header} : refpool (prx_buffer_pool D) (option Z) := {|
  rp_alloc := prx_fixed_buffer_alloc header_size;
  rp_release := prx_fixed_buffer_release;
  rp_owns p r := exists f, counted (fun _ => True) p f r;
  rp_env := fixed_mem_ok header_size |}.

Lemma good_fixed {D} `{dlist_laws D node} header alloc (p : prx_buffer_pool D) f p1 b l :
  pool_inv (fun _ => True) p f [] -> fixed_mem_ok header p alloc -> f free_list = b :: l ->
  bp_bufs p1 = bp_bufs p -> bp_config p1 = bp_config p -> bp_count p1 = bp_count p -> bp_item_size p1 = bp_item_size p ->
  pool_inv (fun _ => True) p1 (set_list f free_list l) [b] ->
  good_grow (fun _ => True) (fun p => fst (prx_fixed_pool_grow_no_lock header alloc p)) p1 (set_list f free_list l) [b].
Proof.
  intros Hi Hm E E1 E2 E3 E4 Hi1.
  assert (Hgi : grow_items p1 = grow_items p) by (unfold grow_items; by rewrite E2, E3).
  pose proof (st_lists _ _ _ _ (i_rep _ _ _ _ Hi) blocks I) as Hbl.
  assert (Hin : forall c t, c ∈ set_list f free_list l t -> is_Some (bp_bufs p !! c) \/ c ∈ f blocks).
  { intros c t Ht. rewrite <- E1. destruct t; [left|left|by right].
    - destruct (i_free _ _ _ _ Hi1 _ (or_introl Ht)) as [x Hx]. eauto.
    - destruct (i_out _ _ _ _ Hi1 _ Ht) as (x & y & Hx & _). eauto. }
  assert (Hnot : forall c t, bp_bufs p !! c = None -> c ∉ f blocks -> c ∉ set_list f free_list l t).
  { intros c t H1 H2 Ht. destruct (Hin c t Ht) as [[? ?]|?]; congruence. }
  destruct (fixed_grows (fun _ => True) I header alloc p1 _ [b] I Hi1) as (f0 & Hf0 & _ & f2 & H1 & H2).
  - intros block Hblock. destruct (Hm block Hblock) as (Hs & Hl & Hb & Hit). specialize (Hl _ Hbl).
    split.
    + unfold block_fresh. rewrite E4, Hgi. split; [done|]. split; [intros t; by apply Hnot|].
      intros i Hr. destruct (Hit i Hr) as (F1 & F2 & F3). split; [|done]. split; [by rewrite E1|].
      intros t. apply Hnot; [done|by apply F2].
    + intros ->%list_elem_of_singleton. destruct (i_free _ _ _ _ Hi b) as [n En]; [left; rewrite E; by left|].
      congruence.
  - exists f2. split; [done|]. by eapply grown_extends.
Qed.

#[export] Instance fixed_refpool_laws {D} `{dlist_laws D node} `{fixed_header} :
  refpool_laws (prx_buffer_pool D) (option Z).
Proof.
  split; cbn [rp_alloc rp_release rp_owns rp_env fixed_refpool].
  - intros p. apply counted_proper.
  - intros p r e b [f Ha] Hb. unfold prx_fixed_buffer_alloc.
    destruct (share_counted (fun _ => True) (fun p => fst (prx_fixed_pool_grow_no_lock header_size e p)) p f r b Ha Hb)
      as (p' & E & Ha'). eauto.
  - intros p r e [f Ha] Hm. unfold prx_fixed_buffer_alloc.
    pose proof (alloc_counted (fun _ => True) I I (fun p => fst (prx_fixed_pool_grow_no_lock header_size e p)) p f r Ha) as Hx.
    destruct (f free_list) as [|b l] eqn:E.
    + exists p, None. rewrite Hx; [eauto|done].
    + destruct Hx as (Hz & p' & f' & Er & Ha').
      * intros b' l' p1 E' E1 E2 E3 E4 Hi1. rewrite <- E in E'.
        apply (good_fixed header_size e p f p1 b' l'); [apply Ha|done|congruence|done..].
      * exists p', (Some b). eauto.
  - intros p r b [f Ha] Hb. destruct (release_counted (fun _ => True) I p f r b Ha Hb) as (p' & f' & E & Ha' & _). eauto.
Qed.

(** ** A history *)

Definition links0 : @links node := fun n => (n, n).
Definition ok_or {B} (x : B) (r : res B) : B := match r with Ok y => y | _ => x end.
Definition is_ok {B} (r : res B) : bool := match r with Ok _ => true | _ => false end.

Lemma ok_or_spec {B} (x : B) r : is_ok r = true -> r = Ok (ok_or x r).
Proof. by destruct r. Qed.

Definition ex_config := Some (mk_config 2 4 1 1).
Definition mem_at (base : Z) (i : nat) : option Z := Some (base + 10 * Z.of_nat i).
Definition ex_none : prx_buffer_pool (@links node) := mk_pool links0 ∅ 0 0 (mk_config 0 0 0 0) 0 false [].
Definition ex0 := ok_or ex_none (prx_dynamic_pool_create true (Ok tt) (mem_at 100) links0 8 ex_config).
Definition ex1 := fst (ok_or (ex_none, None) (prx_dynamic_buffer_alloc (mem_at 200) ex0 None)).
Definition ex2 := fst (ok_or (ex_none, None) (prx_dynamic_buffer_alloc (mem_at 300) ex1 None)).
Definition ex3 := fst (ok_or (ex_none, None) (prx_dynamic_buffer_alloc (mem_at 400) ex2 (Some 110))).
Definition ex4 := ok_or ex_none (prx_dynamic_buffer_release ex3 100).
Definition ex_refs := upd (upd (upd (upd (fun _ => 0) 100 1) 110 1) 110 2) 100 0.

Lemma mem_at_inj base i j b : mem_at base i = Some b -> mem_at base j = Some b -> i = j.
Proof. unfold mem_at. intros [= <-] [= E]. lia. Qed.

(** No buffer of the pool is at [base] or above. *)
Definition below (base : Z) (p : prx_buffer_pool (@links node)) : bool :=
  forallb (fun x => bool_decide (fst x < base)) (map_to_list (bp_bufs p)).

Lemma below_none base p b : below base p = true -> base <= b -> bp_bufs p !! b = None.
Proof.
  intros Hb Hle. destruct (bp_bufs p !! b) as [x|] eqn:E; [|done].
  unfold below in Hb. apply elem_of_map_to_list in E. rewrite forallb_forall in Hb.
  apply list_elem_of_In in E. apply Hb in E. apply bool_decide_eq_true in E. cbn in E. lia.
Qed.

Lemma below_mem_ok base p : below base p = true -> mem_ok p (mem_at base).
Proof.
  intros Hb. split; [|apply mem_at_inj]. intros i b [= <-]. eapply below_none; [exact Hb|lia].
Qed.

Lemma ok_pair {B C} (x : B * C) r (y : C) : is_ok r = true -> snd (ok_or x r) = y -> r = Ok (fst (ok_or x r), y).
Proof. destruct r as [[]| |]; cbn; by intros ? <-. Qed.

Ltac run_ex x := unfold x; (refine (ok_pair (ex_none, None) _ _ _ _) || refine (ok_or_spec _ _ _)); vm_compute; reflexivity.

Lemma ex_reach : reach ex4 ex_refs.
Proof.
  assert (H0 : reach ex0 (fun _ => 0)).
  { eapply (reach_create true (Ok tt) (mem_at 100) links0 8 ex_config); [|apply mem_at_inj|run_ex ex0].
    intros c [= <-]. cbn. lia. }
  assert (H1 : reach ex1 (upd (fun _ => 0) 100 1)).
  { eapply (reach_alloc _ _ (mem_at 200)); [exact H0|by apply below_mem_ok; vm_compute|run_ex ex1]. }
  assert (H2 : reach ex2 (upd (upd (fun _ => 0) 100 1) 110 1)).
  { eapply (reach_alloc _ _ (mem_at 300)); [exact H1|by apply below_mem_ok; vm_compute|run_ex ex2]. }
  assert (H3 : reach ex3 (upd (upd (upd (fun _ => 0) 100 1) 110 1) 110 2)).
  { apply (reach_share ex2 (upd (upd (fun _ => 0) 100 1) 110 1) (mem_at 400) 110); [exact H2|done|run_ex ex3]. }
  apply (reach_release ex3 (upd (upd (upd (fun _ => 0) 100 1) 110 1) 110 2) 100 ex4); [exact H3|done|run_ex ex4].
Qed.

Lemma pool_references_witness : exists free, dl (bp_links ex4) free_list free /\ zlen free = 3 /\
  forall b, b ∈ free <-> is_Some (bp_bufs ex4 !! b) /\ ex_refs b = 0.
Proof.
  destruct (pool_references ex4 ex_refs ex_reach) as (free & out & H1 & _ & _ & _ & H5 & H6 & _).
  exists free. split; [exact H1|]. split; [|exact H5]. rewrite <- H6. vm_compute. reflexivity.
Defined.


(** Two calls, one of them still due. *)
Lemma ex_delivers overlap : delivers overlap [true; false] [true] [false].
Proof.
  apply (delivers_decide overlap [true] [true] [] false); [|by right]. apply (delivers_call overlap [true] [] [] true []).
  apply (delivers_decide overlap [] [] [] true); [constructor|by right].
Qed.

Lemma pool_flow_control_witness : bp_events ex4 = [true; false] /\ times true [true; false] = times false [true; false] + 0.
Proof.
  assert (E : bp_events ex4 = [true; false]) by (vm_compute; reflexivity). split; [exact E|].
  destruct (pool_flow_control ex4 ex_refs false [true] [false] ex_reach) as (_ & _ & H & _); [rewrite E; apply ex_delivers|exact H].
Defined.

(** A call can overtake another: the user hears that buffers are back before it hears that they
    are low, and is left with the latter although the pool is not empty. *)
Lemma pool_callbacks_overtake : exists p r, reach p r /\ bp_empty p = false /\ delivers true (bp_events p) [false; true] [].
Proof.
  exists ex4, ex_refs. split; [exact ex_reach|]. split; [vm_compute; reflexivity|].
  replace (bp_events ex4) with [true; false] by (vm_compute; reflexivity).
  apply (delivers_call true [true; false] [false] [] true []), (delivers_call true [true; false] [] [true] false []).
  apply (delivers_decide true [true] [] [true] false); [|by left].
  apply (delivers_decide true [] [] [] true); [constructor|by left].
Qed.

(** A high watermark above the maximum of two. *)
Definition ex_stuck0 :=
  ok_or ex_none (prx_dynamic_pool_create true (Ok tt) (mem_at 100) links0 8 (Some (mk_config 2 2 1 9))).
Definition ex_stuck1 := fst (ok_or (ex_none, None) (prx_dynamic_buffer_alloc (mem_at 200) ex_stuck0 None)).
Definition ex_stuck := ok_or ex_none (prx_dynamic_buffer_release ex_stuck1 100).


Definition ex_fixed :=
  ok_or ex_none (prx_fixed_pool_create 64 true (Ok tt) (Some 1000) links0 8 (Some (mk_config 1 2 0 0))).

End PrxBuffer.
