(* ===== verification/IoMsg.v ===== *)
(** * Messages in memory (src/io_proto.c)

    The message factory of io_proto.c: messages come from a fixed pool, the memory of
    their variable parts from a dynamic pool.  Messages are reference counted through
    the pool: a clone is the same object with one more reference, to the message and
    to its buffer.  The pool of messages is used through its interface [refpool]. *)
From stdpp Require Import base option list numbers sets gmap.
From S2P Require Import Prelude PrxTypes IoMem IoRef IoProto DList DListStore PrxBuffer.
Import PrxTypes IoMem IoRef IoProto DList DListStore PrxBuffer.

Module IoMsg.

(** A message object: the pointer to its buffer and the rest. *)
Record message := mk_msg {
  mg_buffer : option Z;
  mg_body : io_message ptr;
}.

(** The two pools, and what is stored in the message objects. *)
Record io_message_factory (P D : Type) := mk_factory {
  mf_messages : P;
  mf_buffers : prx_buffer_pool D;
  mf_store : gmap Z message;
}.
Arguments mk_factory {P D}. Arguments mf_messages {P D}. Arguments mf_buffers {P D}. Arguments mf_store {P D}.

Section Factory.
Context {P E D : Type} `{refpool P E} `{dlist D node}.
Implicit Type F : io_message_factory P D.

Definition set_message F (m : Z) (g : message) : io_message_factory P D :=
  mk_factory (mf_messages F) (mf_buffers F) (<[m := g]> (mf_store F)).

(** The inner result is that of the function, with the address of the message;
    [e]: the memory that the pool may get. *)
Definition factory_create_empty (e : E) F : res (io_message_factory P D * res Z) :=
  '(pm, o) ← rp_alloc e (mf_messages F) None;
  match o with
  | None => Ok (mk_factory pm (mf_buffers F) (mf_store F), Err er_out_of_memory)
  | Some m =>
      body ← io_message_create_empty true;
      Ok (mk_factory pm (mf_buffers F) (<[m := mk_msg None body]> (mf_store F)), Ok m)
  end.

Definition factory_create (e : E) F (t : Z) (source target : option io_ref)
  : res (io_message_factory P D * res Z) :=
  match source, target with
  | Some s, Some d =>
      '(F, o) ← factory_create_empty e F;
      match o with
      | Ok m =>
          body ← io_message_create true t (Some s) (Some d);
          Ok (set_message F m (mk_msg None body), Ok m)
      | o => Ok (F, o)
      end
  | _, _ => Ok (F, Err er_fault)
  end.

(** [alloc]: the memory the pool of buffers may get. *)
Definition factory_clone (e : E) (alloc : nat -> option Z) F (original : Z)
  : res (io_message_factory P D * res Z) :=
  '(pm, o) ← rp_alloc e (mf_messages F) (Some original);
  match o with
  | None => Ok (mk_factory pm (mf_buffers F) (mf_store F), Err er_out_of_memory)
  | Some m =>
      g ← chk (mf_store F !! m);
      match mg_buffer g with
      | None => Ok (mk_factory pm (mf_buffers F) (mf_store F), Ok m)
      | Some b =>
          '(pb, o) ← prx_dynamic_buffer_alloc alloc (mf_buffers F) (Some b);
          match o with
          | None =>
              pm ← rp_release pm m;
              Ok (mk_factory pm pb (<[m := mk_msg None (mg_body g)]> (mf_store F)), Err er_out_of_memory)
          | Some b => Ok (mk_factory pm pb (<[m := mk_msg (Some b) (mg_body g)]> (mf_store F)), Ok m)
          end
      end
  end.

(** The offset of the new memory in the buffer, which may have moved; [None] is NULL. *)
Definition factory_allocate_buffer (alloc : nat -> option Z) (realloc : option Z) F (m : Z) (size : Z)
  : res (io_message_factory P D * res (option Z)) :=
  g ← chk (mf_store F !! m);
  if bool_decide (size = 0) then Ok (F, Ok None)
  else match mg_buffer g with
  | None =>
      '(pb, o) ← prx_buffer_new alloc realloc (mf_buffers F) size;
      let F := mk_factory (mf_messages F) pb (<[m := mk_msg o (mg_body g)]> (mf_store F)) in
      Ok (F, match o with Some _ => Ok (Some 0) | None => Err er_out_of_memory end)
  | Some b =>
      current_size ← prx_dynamic_buffer_get_size (mf_buffers F) b;
      '(pb, (b, ok)) ← prx_dynamic_buffer_set_size realloc (mf_buffers F) b (u64 (current_size + size));
      let F := mk_factory (mf_messages F) pb (<[m := mk_msg (Some b) (mg_body g)]> (mf_store F)) in
      Ok (F, if (ok : bool) then Ok (Some current_size) else Err er_out_of_memory)
  end.

Definition factory_release F (message : option Z) : res (io_message_factory P D) :=
  match message with
  | None => Ok F
  | Some m =>
      g ← chk (mf_store F !! m);
      pb ← match mg_buffer g with
           | Some b => prx_dynamic_buffer_release (mf_buffers F) b
           | None => Ok (mf_buffers F)
           end;
      pm ← rp_release (mf_messages F) m;
      Ok (mk_factory pm pb (mf_store F))
  end.
End Factory.

(** Creation of the two pools; [size]: [sizeof(io_message_t)], [cb]: whether a callback
    is given.  What was created is freed when a step fails. *)
Definition io_message_factory_create {D} `{dlist D node} (header size : Z) (zalloc : bool)
    (zm : bool) (lm : res unit) (block : option Z) (zb : bool) (lb : res unit) (alloc : nat -> option Z)
    (dm db : D) (pool_size low high : Z) (cb : bool)
  : res (io_message_factory (prx_buffer_pool D) D) :=
  if negb zalloc then Err er_out_of_memory
  else
    let config := mk_config pool_size (if cb then pool_size else 0) low high in
    messages ← prx_fixed_pool_create header zm lm block dm size (Some config);
    buffers ← prx_dynamic_pool_create zb lb alloc db 0 None;
    Ok (mk_factory messages buffers ∅).

(** The memory that is given back: buffers first, then the blocks of messages. *)
Definition io_message_factory_free {D} `{dlist D node} (nblocks : nat)
    (F : io_message_factory (prx_buffer_pool D) D) : res (list Z * list Z) :=
  bs ← prx_dynamic_pool_free (mf_buffers F);
  ms ← prx_fixed_pool_free nblocks (mf_messages F);
  Ok (bs, ms).

(** ** References to messages and buffers *)

(** The new place of a buffer: the same or one that is not used. *)
Definition realloc_ok {D} (p : prx_buffer_pool D) (b : Z) (realloc : option Z) : Prop :=
  forall x, realloc = Some x -> x = b \/ bp_bufs p !! x = None.

Section Buffers.
Context {D : Type} `{L : dlist_laws D node}.
Implicit Types (p : prx_buffer_pool D) (r : Z -> Z).

Lemma set_size_owns p r realloc b size : rp_owns p r -> r b = 1 -> realloc_ok p b realloc -> exists p',
  prx_dynamic_buffer_set_size realloc p b size = Ok (p', (default b realloc, bool_decide (is_Some realloc))) /\
  rp_owns p' (upd (upd r b 0) (default b realloc) 1) /\ (default b realloc = b \/ r (default b realloc) = 0).
Proof.
  intros [f Ha] Hb Hre. destruct (resize_agrees p f r realloc b size Ha Hb Hre) as (p' & f' & E & Ha').
  exists p'. split; [done|]. split; [by exists f'|]. destruct realloc as [x|]; [|by left].
  destruct (Hre x eq_refl) as [->|Hx]; [by left|]. right. by apply (ct_none _ _ _ _ Ha).
Qed.

Lemma new_owns p r alloc realloc size : rp_owns p r -> mem_ok p alloc ->
  (forall p' b, prx_dynamic_buffer_alloc alloc p None = Ok (p', Some b) -> realloc_ok p' b realloc) ->
  exists p' o, prx_buffer_new alloc realloc p size = Ok (p', o) /\
    match o with Some b => r b = 0 /\ rp_owns p' (upd r b 1) | None => rp_owns p' r end.
Proof.
  intros Ho Hm Hre. destruct (rp_new p r alloc Ho Hm) as (p1 & o & E1 & Ho1).
  change (rp_alloc alloc p None) with (prx_dynamic_buffer_alloc alloc p None) in E1.
  unfold prx_buffer_new. rewrite E1. cbn [mbind res_bind]. destruct o as [b|]; [|by exists p1, None].
  destruct Ho1 as [Hb Ho1]. specialize (Hre p1 b E1).
  assert (H1 : upd r b 1 b = 1) by (unfold upd; by rewrite decide_True).
  destruct (set_size_owns p1 _ realloc b size Ho1 H1 Hre) as (p2 & E2 & Ho2 & Hx). rewrite E2.
  cbn [mbind res_bind]. destruct realloc as [x|]; cbn [default from_option id] in *.
  - exists p2, (Some x). split; [done|]. split.
    + destruct Hx as [->|Hx]; [done|]. unfold upd in Hx. by case_decide.
    + revert Ho2. apply rp_ext. intros c. unfold upd. repeat case_decide; subst; try congruence; lia.
  - destruct (rp_back p2 _ b Ho2) as (p3 & E3 & Ho3); [unfold upd; by rewrite decide_True|].
    change (rp_release p2 b) with (prx_dynamic_buffer_release p2 b) in E3. rewrite E3. exists p3, None.
    split; [done|]. revert Ho3. apply rp_ext. intros c. unfold upd. repeat case_decide; subst; try congruence; lia.
Qed.
End Buffers.

Section History.
Context {P V D : Type} `{L1 : refpool_laws P V} `{L2 : dlist_laws D node}.
Implicit Types (F : io_message_factory P D) (r rb : Z -> Z).

(** [r m] references to message [m] are held.  Memory is used through messages that
    nobody else holds, memory that is allocated is not in use. *)
Inductive history : io_message_factory P D -> (Z -> Z) -> Prop :=
| h_start F : rp_owns (mf_messages F) (fun _ => 0) -> rp_owns (mf_buffers F) (fun _ => 0) ->
    history F (fun _ => 0)
| h_create F r e t s d F' m : history F r -> rp_env (mf_messages F) e ->
    factory_create e F t s d = Ok (F', Ok m) -> history F' (upd r m 1)
| h_empty F r e F' m : history F r -> rp_env (mf_messages F) e ->
    factory_create_empty e F = Ok (F', Ok m) -> history F' (upd r m 1)
| h_none F r e F' x : history F r -> rp_env (mf_messages F) e ->
    factory_create_empty e F = Ok (F', Err x) -> history F' r
| h_clone F r e alloc m F' x : history F r -> 0 < r m ->
    factory_clone e alloc F m = Ok (F', Ok x) -> history F' (upd r m (r m + 1))
| h_memory F r alloc realloc m size F' x : history F r -> r m = 1 -> mem_ok (mf_buffers F) alloc ->
    (forall g b, mf_store F !! m = Some g -> mg_buffer g = Some b -> realloc_ok (mf_buffers F) b realloc) ->
    (forall p' b, prx_dynamic_buffer_alloc alloc (mf_buffers F) None = Ok (p', Some b) -> realloc_ok p' b realloc) ->
    factory_allocate_buffer alloc realloc F m size = Ok (F', x) -> history F' r
| h_release F r m F' : history F r -> 0 < r m ->
    factory_release F (Some m) = Ok F' -> history F' (upd r m (r m - 1)).

(** The references to buffers are those of the messages that are held. *)
Record linked F r rb : Prop := {
  k_messages : rp_owns (mf_messages F) r;
  k_buffers : rp_owns (mf_buffers F) rb;
  k_stored m : 0 < r m -> is_Some (mf_store F !! m);
  k_same m g b : 0 < r m -> mf_store F !! m = Some g -> mg_buffer g = Some b -> rb b = r m;
  k_own m m' g g' b : 0 < r m -> 0 < r m' -> mf_store F !! m = Some g -> mf_store F !! m' = Some g' ->
    mg_buffer g = Some b -> mg_buffer g' = Some b -> m = m';
  k_used b : 0 < rb b -> exists m g, 0 < r m /\ mf_store F !! m = Some g /\ mg_buffer g = Some b;
}.

Lemma upd_same r m n : upd r m n m = n.
Proof. unfold upd. by rewrite decide_True. Qed.
Lemma upd_other r m n c : c <> m -> upd r m n c = r c.
Proof. intros. unfold upd. by rewrite decide_False. Qed.

(** A new message, without a buffer. *)
Lemma linked_new F r rb pm m body : linked F r rb -> r m = 0 -> rp_owns pm (upd r m 1) ->
  linked (mk_factory pm (mf_buffers F) (<[m := mk_msg None body]> (mf_store F))) (upd r m 1) rb.
Proof.
  intros [K1 K2 K3 K4 K5 K6] Hm Ho.
  assert (Hold : forall c g b, 0 < upd r m 1 c -> <[m := mk_msg None body]> (mf_store F) !! c = Some g ->
            mg_buffer g = Some b -> c <> m /\ 0 < r c /\ mf_store F !! c = Some g).
  { intros c g b Hc E Eb. destruct (decide (c = m)) as [->|Hne].
    - rewrite lookup_insert_eq in E. injection E as <-. discriminate Eb.
    - rewrite upd_other in Hc by done. by rewrite lookup_insert_ne in E. }
  constructor; cbn; try done.
  - intros c Hc. apply lookup_insert_is_Some. destruct (decide (m = c)) as [->|Hne]; [by left|right].
    rewrite upd_other in Hc by done. auto.
  - intros c g b Hc E Eb. destruct (Hold c g b Hc E Eb) as (Hne & Hr & E'). rewrite upd_other by done. by eapply K4.
  - intros c c' g g' b Hc Hc' E E' Eb Eb'. destruct (Hold c g b Hc E Eb) as (_ & Hr & Es).
    destruct (Hold c' g' b Hc' E' Eb') as (_ & Hr' & Es'). by eapply K5.
  - intros b Hb. destruct (K6 b Hb) as (c & g & Hc & Es & Eb). exists c, g.
    assert (c <> m) by (intros ->; lia). rewrite upd_other, lookup_insert_ne by done. done.
Qed.

(** The buffer [b] of [m] becomes [b'], both only used by [m]. *)
Lemma linked_buffer F r rb pb m g o b' : linked F r rb -> r m = 1 -> mf_store F !! m = Some g ->
  mg_buffer g = o -> (o = Some b' \/ rb b' = 0) ->
  rp_owns pb (upd (match o with Some b => upd rb b 0 | None => rb end) b' 1) ->
  linked (mk_factory (mf_messages F) pb (<[m := mk_msg (Some b') (mg_body g)]> (mf_store F))) r
    (upd (match o with Some b => upd rb b 0 | None => rb end) b' 1).
Proof.
  intros [K1 K2 K3 K4 K5 K6] Hm Eg Ego Hb' Ho.
  set (rb' := upd (match o with Some b => upd rb b 0 | None => rb end) b' 1).
  assert (Hother : forall c g' b, c <> m -> 0 < r c -> mf_store F !! c = Some g' -> mg_buffer g' = Some b ->
            b <> b' /\ rb' b = rb b).
  { intros c g' b Hne Hc E Eb. pose proof (K4 c g' b Hc E Eb) as Hrb.
    assert (Hb0 : o <> Some b).
    { intros ->. apply Hne. eapply (K5 c m g' g b); (done || lia). }
    assert (b <> b'). { intros ->. destruct Hb' as [->|Hz]; [done|lia]. }
    split; [done|]. unfold rb'. rewrite upd_other by done. destruct o; [|done]. rewrite upd_other; [done|congruence]. }
  constructor; cbn; try done.
  - intros c Hc. apply lookup_insert_is_Some. destruct (decide (m = c)); [by left|right; auto].
  - intros c g' b Hc E Eb. destruct (decide (c = m)) as [->|Hne].
    + rewrite lookup_insert_eq in E. injection E as <-. injection Eb as <-. unfold rb'. by rewrite upd_same.
    + rewrite lookup_insert_ne in E by done. destruct (Hother c g' b Hne Hc E Eb) as [_ ->]. by eapply K4.
  - intros c c' g1 g2 b Hc Hc' E1 E2 Eb1 Eb2.
    destruct (decide (c = m)) as [->|Hne], (decide (c' = m)) as [->|Hne']; try done;
      rewrite ?lookup_insert_eq in E1; rewrite ?lookup_insert_eq in E2;
      rewrite ?lookup_insert_ne in E1 by done; rewrite ?lookup_insert_ne in E2 by done.
    + injection E1 as <-. injection Eb1 as <-. by destruct (Hother c' g2 b' Hne' Hc' E2 Eb2).
    + injection E2 as <-. injection Eb2 as <-. by destruct (Hother c g1 b' Hne Hc E1 Eb1).
    + by eapply K5.
  - intros b Hb. unfold rb', upd in Hb. case_decide as Hbb.
    + subst. exists m, (mk_msg (Some b') (mg_body g)). rewrite lookup_insert_eq. split; [lia|done].
    + assert (Hrb : 0 < rb b /\ o <> Some b).
      { destruct o as [b0|]; [|done]. unfold upd in Hb. case_decide; [lia|]. split; [done|congruence]. }
      destruct Hrb as [Hrb Hob]. destruct (K6 b Hrb) as (c & g' & Hc & E & Eb). exists c, g'.
      assert (c <> m) by (intros ->; congruence). by rewrite lookup_insert_ne.
Qed.

Lemma linked_body F r rb m g body : linked F r rb -> mf_store F !! m = Some g ->
  linked (set_message F m (mk_msg (mg_buffer g) body)) r rb.
Proof.
  intros [K1 K2 K3 K4 K5 K6] Eg.
  assert (Hold : forall c g', (<[m := mk_msg (mg_buffer g) body]> (mf_store F)) !! c = Some g' ->
            exists g0, mf_store F !! c = Some g0 /\ mg_buffer g0 = mg_buffer g').
  { intros c g'. destruct (decide (m = c)) as [->|Hne].
    - rewrite lookup_insert_eq. intros [= <-]. eauto.
    - rewrite lookup_insert_ne by done. eauto. }
  constructor; cbn; try done.
  - intros c Hc. apply lookup_insert_is_Some. destruct (decide (m = c)); [by left|right; auto].
  - intros c g' b Hc Ec Eb. destruct (Hold c g' Ec) as (g0 & E0 & Eb0). eapply K4; [done|exact E0|congruence].
  - intros c c' g1 g2 b Hc Hc' E1 E2 Eb1 Eb2. destruct (Hold c g1 E1) as (g3 & E3 & Eb3).
    destruct (Hold c' g2 E2) as (g4 & E4 & Eb4). eapply (K5 c c' g3 g4 b); congruence.
  - intros b Hb. destruct (K6 b Hb) as (c & g' & Hc & Ec & Eb). destruct (decide (m = c)) as [->|Hne].
    + exists c, (mk_msg (mg_buffer g) body). rewrite lookup_insert_eq. split; [done|]. split; [done|]. cbn. congruence.
    + exists c, g'. by rewrite lookup_insert_ne.
Qed.

Lemma empty_linked F r rb e : linked F r rb -> rp_env (mf_messages F) e -> exists F' o,
  factory_create_empty e F = Ok (F', o) /\
  match o with
  | Ok m => r m = 0 /\ linked F' (upd r m 1) rb /\ exists g, mf_store F' !! m = Some g /\ mg_buffer g = None
  | Err _ => linked F' r rb
  | UB => False
  end.
Proof.
  intros Hl He. destruct (rp_new _ r e (k_messages _ _ _ Hl) He) as (pm & o & Er & Ho).
  unfold factory_create_empty. rewrite Er. cbn [mbind res_bind]. destruct o as [m|].
  - destruct Ho as [Hm Ho]. cbn. do 2 eexists. split; [done|]. split; [done|]. split; [by apply linked_new|].
    cbn. rewrite lookup_insert_eq. eauto.
  - do 2 eexists. split; [done|]. destruct Hl. by constructor.
Qed.

Lemma create_linked F r rb e t (s d : io_ref) : linked F r rb -> rp_env (mf_messages F) e ->
  zlen s = 16 -> zlen d = 16 -> exists F' o,
  factory_create e F t (Some s) (Some d) = Ok (F', o) /\
  match o with Ok m => r m = 0 /\ linked F' (upd r m 1) rb | Err _ => linked F' r rb | UB => False end.
Proof.
  intros Hl He Hs Hd. destruct (empty_linked F r rb e Hl He) as (F1 & o & E1 & Ho).
  unfold factory_create. rewrite E1. cbn [mbind res_bind]. destruct o as [m|x|]; [|by exists F1, (Err x)|done].
  destruct Ho as (Hm & Hl1 & g & Eg & Eb).
  assert (Hb : exists body, io_message_create true t (Some s) (Some d) = Ok body) by (cbn; eauto).
  destruct Hb as [body ->]. cbn [mbind res_bind]. do 2 eexists. split; [done|]. split; [done|].
  rewrite <- Eb. by apply linked_body.
Qed.

(** One more reference to a message and its buffer, or one less. *)
Lemma linked_refs F r rb m g pm pb n : linked F r rb -> 0 < r m -> mf_store F !! m = Some g -> 0 <= n ->
  rp_owns pm (upd r m n) -> rp_owns pb (match mg_buffer g with Some b => upd rb b n | None => rb end) ->
  linked (mk_factory pm pb (mf_store F)) (upd r m n) (match mg_buffer g with Some b => upd rb b n | None => rb end).
Proof.
  intros [K1 K2 K3 K4 K5 K6] Hm Eg Hn Ho1 Ho2.
  assert (Hpos : forall c, 0 < upd r m n c -> 0 < r c).
  { intros c. unfold upd. case_decide; [by subst|done]. }
  constructor; cbn; try done.
  - intros c Hc. apply K3. by apply Hpos.
  - intros c g' b Hc Ec Eb. destruct (decide (c = m)) as [->|Hne].
    + assert (g' = g) as -> by congruence. by rewrite Eb, !upd_same.
    + rewrite upd_other in * by done. destruct (mg_buffer g) as [b0|] eqn:Eb0; [|by eapply K4].
      rewrite upd_other; [by eapply K4|]. intros ->. apply Hne. by eapply (K5 c m g' g).
  - intros c c' g1 g2 b Hc Hc'. eapply K5; by apply Hpos.
  - intros b Hb. destruct (mg_buffer g) as [b0|] eqn:Eb0.
    + destruct (decide (b = b0)) as [->|Hne].
      * rewrite upd_same in Hb. exists m, g. by rewrite upd_same.
      * rewrite upd_other in Hb by done. destruct (K6 b Hb) as (c & g' & Hc & Ec & Eb). exists c, g'.
        rewrite upd_other; [done|]. intros ->. congruence.
    + destruct (K6 b Hb) as (c & g' & Hc & Ec & Eb). exists c, g'. rewrite upd_other; [done|]. intros ->. congruence.
Qed.

Lemma clone_linked F r rb e alloc m : linked F r rb -> 0 < r m -> exists F' rb',
  factory_clone e alloc F m = Ok (F', Ok m) /\ linked F' (upd r m (r m + 1)) rb' /\ mf_store F' = mf_store F.
Proof.
  intros Hl Hm. destruct (k_stored _ _ _ Hl m Hm) as [g Eg].
  destruct (rp_share _ r e m (k_messages _ _ _ Hl) Hm) as (pm & Er & Ho).
  unfold factory_clone. rewrite Er. cbn [mbind res_bind chk]. rewrite Eg. cbn [mbind res_bind chk].
  destruct (mg_buffer g) as [b|] eqn:Eb.
  - pose proof (k_same _ _ _ Hl m g b Hm Eg Eb) as Hb.
    destruct (rp_share _ rb alloc b (k_buffers _ _ _ Hl)) as (pb & Erb & Hob); [lia|].
    change (rp_alloc alloc (mf_buffers F) (Some b)) with (prx_dynamic_buffer_alloc alloc (mf_buffers F) (Some b)) in Erb.
    rewrite Erb. cbn [mbind res_bind]. rewrite <- Eb.
    replace (mk_msg (mg_buffer g) (mg_body g)) with g by by destruct g. rewrite insert_id by done.
    exists (mk_factory pm pb (mf_store F)), (upd rb b (r m + 1)). split; [done|]. split; [|done].
    pose proof (linked_refs F r rb m g pm pb (r m + 1) Hl Hm Eg) as Hr. rewrite Eb in Hr.
    apply Hr; [lia|done|]. by rewrite <- Hb.
  - exists (mk_factory pm (mf_buffers F) (mf_store F)), rb. split; [done|]. split; [|done].
    pose proof (linked_refs F r rb m g pm (mf_buffers F) (r m + 1) Hl Hm Eg) as Hr. rewrite Eb in Hr.
    apply Hr; [lia|done|apply Hl].
Qed.

Lemma release_linked F r rb m : linked F r rb -> 0 < r m -> exists F' rb',
  factory_release F (Some m) = Ok F' /\ linked F' (upd r m (r m - 1)) rb' /\ mf_store F' = mf_store F.
Proof.
  intros Hl Hm. destruct (k_stored _ _ _ Hl m Hm) as [g Eg].
  destruct (rp_back _ r m (k_messages _ _ _ Hl) Hm) as (pm & Er & Ho).
  unfold factory_release. rewrite Eg. cbn [mbind res_bind chk].
  assert (Hb : exists pb, match mg_buffer g with
                          | Some b => prx_dynamic_buffer_release (mf_buffers F) b
                          | None => Ok (mf_buffers F)
                          end = Ok pb /\
     rp_owns pb (match mg_buffer g with Some b => upd rb b (r m - 1) | None => rb end)).
  { destruct (mg_buffer g) as [b|] eqn:Eb; [|exists (mf_buffers F); split; [done|apply Hl]].
    pose proof (k_same _ _ _ Hl m g b Hm Eg Eb) as Hb.
    destruct (rp_back _ rb b (k_buffers _ _ _ Hl)) as (pb & Erb & Hob); [lia|]. exists pb. split; [exact Erb|].
    by rewrite <- Hb. }
  destruct Hb as (pb & -> & Hob). cbn [mbind res_bind]. rewrite Er. cbn [mbind res_bind].
  eexists _, _. split; [done|]. split; [|done]. apply (linked_refs F r rb m g pm pb); [done|done|done|lia|done|done].
Qed.

Lemma memory_linked F r rb alloc realloc m size : linked F r rb -> r m = 1 -> mem_ok (mf_buffers F) alloc ->
  (forall g b, mf_store F !! m = Some g -> mg_buffer g = Some b -> realloc_ok (mf_buffers F) b realloc) ->
  (forall p' b, prx_dynamic_buffer_alloc alloc (mf_buffers F) None = Ok (p', Some b) -> realloc_ok p' b realloc) ->
  exists F' x rb', factory_allocate_buffer alloc realloc F m size = Ok (F', x) /\ linked F' r rb'.
Proof.
  intros Hl Hm Hmem Hre Hnew. destruct (k_stored _ _ _ Hl m ltac:(lia)) as [g Eg].
  unfold factory_allocate_buffer. rewrite Eg. cbn [mbind res_bind chk]. case_bool_decide; [by do 3 eexists|].
  destruct (mg_buffer g) as [b|] eqn:Eb.
  - pose proof (k_same _ _ _ Hl m g b ltac:(lia) Eg Eb) as Hb. rewrite Hm in Hb.
    destruct (k_buffers _ _ _ Hl) as [f Hc]. destruct (held_out _ _ _ _ b Hc) as [_ [n En]]; [lia|].
    unfold prx_dynamic_buffer_get_size. rewrite En. cbn [mbind res_bind chk].
    destruct (set_size_owns (mf_buffers F) rb realloc b (u64 (pb_length (mk_buf n (rb b)) + size)) (k_buffers _ _ _ Hl) Hb (Hre g b Eg Eb))
      as (pb & Es & Ho & Hx). rewrite Es. cbn [mbind res_bind]. do 3 eexists. split; [done|].
    eapply (linked_buffer F r rb pb m g (Some b)); [done|done|done|done| |done].
    destruct Hx as [->|Hx]; [by left|by right].
  - destruct (new_owns (mf_buffers F) rb alloc realloc size (k_buffers _ _ _ Hl) Hmem Hnew) as (pb & o & En & Ho).
    rewrite En. cbn [mbind res_bind]. destruct o as [b|].
    + destruct Ho as [Hz Ho]. do 3 eexists. split; [done|].
      eapply (linked_buffer F r rb pb m g None); [done|done|done|done|by right|done].
    + do 3 eexists. split; [done|]. rewrite <- Eb.
      assert (Hl' : linked (mk_factory (mf_messages F) pb (mf_store F)) r rb) by (destruct Hl; by constructor).
      apply (linked_body _ _ _ m g (mg_body g)) in Hl'; [exact Hl'|done].
Qed.

Lemma history_linked F r : history F r -> exists rb, linked F r rb.
Proof.
  induction 1 as [F H1 H2|F r e t s d F' m _ [rb Hl] He Er|F r e F' m _ [rb Hl] He Er|F r e F' x _ [rb Hl] He Er
                 |F r e alloc m F' x _ [rb Hl] Hm Er|F r alloc realloc m size F' x _ [rb Hl] Hm Hmem Hre Hnew Er
                 |F r m F' _ [rb Hl] Hm Er].
  - exists (fun _ => 0). constructor; try done; intros; lia.
  - unfold factory_create in Er. destruct s as [s|], d as [d|]; try done.
    destruct (empty_linked F r rb e Hl He) as (F1 & o & E1 & Ho). rewrite E1 in Er. cbn [mbind res_bind] in Er.
    destruct o as [m1|x|]; [|done|done]. destruct Ho as (_ & Hl1 & g & Eg & Eb).
    destruct (io_message_create true t (Some s) (Some d)) as [body| |]; cbn [mbind res_bind] in Er; try done.
    injection Er as <- <-. exists rb. rewrite <- Eb. by apply linked_body.
  - destruct (empty_linked F r rb e Hl He) as (F1 & o & E1 & Ho). rewrite E1 in Er. injection Er as -> ->.
    exists rb. apply Ho.
  - destruct (empty_linked F r rb e Hl He) as (F1 & o & E1 & Ho). rewrite E1 in Er. injection Er as -> ->. by exists rb.
  - destruct (clone_linked F r rb e alloc m Hl Hm) as (F1 & rb' & E1 & Hl1 & _). rewrite E1 in Er.
    injection Er as -> _. by exists rb'.
  - destruct (memory_linked F r rb alloc realloc m size Hl Hm Hmem Hre Hnew) as (F1 & y & rb' & E1 & Hl1).
    rewrite E1 in Er. injection Er as -> _. by exists rb'.
  - destruct (release_linked F r rb m Hl Hm) as (F1 & rb' & E1 & Hl1 & _). rewrite E1 in Er.
    injection Er as ->. by exists rb'.
Qed.

(** C38: In every history of a message factory a message that is held can be cloned and
    released; the buffer of a message has as many references as the message, is the
    buffer of no other message, and when no message is held no buffer is in use. *)
Theorem message_references F r : history F r ->
  (forall m, 0 < r m -> (forall e alloc, exists F', factory_clone e alloc F m = Ok (F', Ok m)) /\
                        (exists F', factory_release F (Some m) = Ok F')) /\
  (forall m g b, 0 < r m -> mf_store F !! m = Some g -> mg_buffer g = Some b ->
     (exists n, bp_bufs (mf_buffers F) !! b = Some (mk_buf n (r m))) /\
     (forall m' g', 0 < r m' -> mf_store F !! m' = Some g' -> mg_buffer g' = Some b -> m' = m)) /\
  ((forall m, r m = 0) -> dl (bp_links (mf_buffers F)) checked_out []).
Proof.
  intros Hh. destruct (history_linked F r Hh) as [rb Hl]. split; [|split].
  - intros m Hm. split.
    + intros e alloc. destruct (clone_linked F r rb e alloc m Hl Hm) as (F' & rb' & E1 & _). eauto.
    + destruct (release_linked F r rb m Hl Hm) as (F' & rb' & E1 & _). eauto.
  - intros m g b Hm Eg Eb. pose proof (k_same _ _ _ Hl m g b Hm Eg Eb) as Hb. split.
    + destruct (k_buffers _ _ _ Hl) as [f Hc]. destruct (held_out _ _ _ _ b Hc) as [_ [n En]]; [lia|].
      exists n. by rewrite <- Hb.
    + intros m' g' Hm' Eg' Eb'. by eapply (k_own _ _ _ Hl).
  - intros Hz. destruct (k_buffers _ _ _ Hl) as [f Hc].
    assert (Hnil : f checked_out = []).
    { destruct (f checked_out) as [|b l] eqn:Eo; [done|].
      destruct (i_out _ _ _ _ (ct_inv _ _ _ _ Hc) b) as (n & k & Eb & Hk); [rewrite Eo; by left|].
      rewrite (ct_refs _ _ _ _ Hc b n k Eb) in Hk. destruct (k_used _ _ _ Hl b Hk) as (m & g & Hm & _).
      rewrite Hz in Hm. lia. }
    rewrite <- Hnil. by apply (st_lists _ _ _ _ (i_rep _ _ _ _ (ct_inv _ _ _ _ Hc))).
Qed.
End History.

(** A new factory: no references. *)
Lemma fixed_create_owns {D} `{dlist_laws D node} `{fixed_header} zalloc lock block (d : D) size config p :
  config_ok config -> 0 < header_size -> 0 <= size ->
  prx_fixed_pool_create header_size zalloc lock block d size config = Ok p ->
  rp_owns (E := option Z) p (fun _ => 0).
Proof.
  intros Hc Hh Hs Er. destruct block as [block|].
  2: { exfalso. unfold prx_fixed_pool_create in Er. destruct zalloc; [|done]. cbn [negb] in Er.
       destruct (prx_buffer_pool_init _ _ _ _); cbn [mbind res_bind] in Er; try done.
       unfold prx_fixed_pool_grow_no_lock in Er. destruct (bool_decide _); done. }
  destruct (fixed_create_inv header_size zalloc lock block d size config p Hc Hh Hs Er) as (f & Hi & _ & Hout & Hemp).
  exists f. constructor; [done| |done|by rewrite Hemp].
  intros b n k Eb. destruct (i_listed _ _ _ _ Hi b) as [Hx|[Hx|Hx]]; [eauto| | |].
  - destruct (i_free _ _ _ _ Hi b (or_introl Hx)) as [n' En]. rewrite Eb in En. by injection En.
  - rewrite Hout in Hx. by apply elem_of_nil in Hx.
  - by apply elem_of_nil in Hx.
Qed.

Lemma factory_create_owns {D} `{dlist_laws D node} `{fixed_header} size zalloc zm lm block zb lb alloc dm db
    pool_size low high cb (F : io_message_factory (prx_buffer_pool D) D) :
  0 < header_size -> 0 <= size -> 0 <= pool_size < 2 ^ 64 -> 0 <= low -> 0 <= high ->
  (forall i j b, alloc i = Some b -> alloc j = Some b -> i = j) ->
  io_message_factory_create header_size size zalloc zm lm block zb lb alloc dm db pool_size low high cb = Ok F ->
  history (V := option Z) F (fun _ => 0).
Proof.
  intros Hh Hs Hp Hlo Hhi Hd. unfold io_message_factory_create. destruct zalloc; [|done]. cbn [negb].
  destruct (prx_fixed_pool_create _ _ _ _ _ _ _) as [pm| |] eqn:Em; cbn [mbind res_bind]; [|done|done].
  destruct (prx_dynamic_pool_create _ _ _ _ _ _) as [pb| |] eqn:Eb; cbn [mbind res_bind]; [|done|done].
  intros [= <-]. constructor; cbn [mf_messages mf_buffers].
  - apply (fixed_create_owns _ _ _ _ size _ _) in Em; [exact Em| |done|done]. intros c [= <-]. cbn. destruct cb; lia.
  - eapply create_agrees; [|exact Hd|exact Eb]. done.
Qed.

(** ** A history *)

#[local] Instance ex_header : fixed_header := 64.
Abbreviation pool := (prx_buffer_pool (@links node)).
Definition ex_f : io_message_factory pool (@links node) := mk_factory ex_none ex_none ∅.
Definition ex_ref : io_ref := zeros 16.
Definition exf0 := ok_or ex_f
  (io_message_factory_create 64 200 true true (Ok tt) (Some 1000) true (Ok tt) (mem_at 100) links0 links0 3 1 2 true).
Definition exf1 := fst (ok_or (ex_f, Ok 0)
  (factory_create (E := option Z) None exf0 io_message_type_data (Some ex_ref) (Some ex_ref))).
Definition exf2 := fst (ok_or (ex_f, Ok None)
  (factory_allocate_buffer (mem_at 300) (Some 500) exf1 1064 10)).
Definition exf3 := fst (ok_or (ex_f, Ok 0) (factory_clone (E := option Z) None (mem_at 400) exf2 1064)).
Definition ex_held := upd (upd (fun _ => 0) 1064 1) 1064 2.

Ltac run_f x d := unfold x; (refine (ok_pair d _ _ _ _) || refine (ok_or_spec _ _ _)); vm_compute; reflexivity.

Lemma ex_history : history (V := option Z) exf3 ex_held.
Proof.
  assert (H0 : history (V := option Z) exf0 (fun _ => 0)).
  { eapply (factory_create_owns 200 true true (Ok tt) (Some 1000) true (Ok tt) (mem_at 100) links0 links0 3 1 2 true);
      [vm_compute; reflexivity|lia|lia|lia|lia|apply mem_at_inj|run_f exf0 ex_f]. }
  assert (H1 : history (V := option Z) exf1 (upd (fun _ => 0) 1064 1)).
  { eapply (h_create exf0 _ (None : option Z) io_message_type_data (Some ex_ref) (Some ex_ref)); [exact H0| |run_f exf1 (ex_f, Ok 0)].
    by intros block Hb. }
  assert (H2 : history (V := option Z) exf2 (upd (fun _ => 0) 1064 1)).
  { eapply (h_memory exf1 _ (mem_at 300) (Some 500) 1064 10 exf2 (Ok (Some 0))); [exact H1|done| | | |run_f exf2 (ex_f, Ok (@None Z))].
    - apply below_mem_ok. vm_compute. reflexivity.
    - intros g b Eg Eb x [= <-]. right. apply (below_none 300); [vm_compute; reflexivity|lia].
    - intros p' b Ea x [= <-]. right. apply (below_none 500); [|lia].
      assert (Hb : (below 500 ∘ fst) <$> (match prx_dynamic_buffer_alloc (mem_at 300) (mf_buffers exf1) None with
                    Ok x => Some x | _ => None end) = Some true) by (vm_compute; reflexivity).
      rewrite Ea in Hb. by injection Hb. }
  apply (h_clone exf2 (upd (fun _ => 0) 1064 1) (None : option Z) (mem_at 400) 1064 exf3 1064); [exact H2|done|run_f exf3 (ex_f, Ok 0)].
Qed.

Lemma message_references_witness : exists n, bp_bufs (mf_buffers exf3) !! 500 = Some (mk_buf n 2) /\
  exists F', factory_release (E := option Z) exf3 (Some 1064) = Ok F'.
Proof.
  destruct (message_references exf3 ex_held ex_history) as (H1 & H2 & _).
  destruct (mf_store exf3 !! 1064) as [g|] eqn:Eg.
  - assert (Eb : mg_buffer <$> mf_store exf3 !! 1064 = Some (Some 500)) by (vm_compute; reflexivity).
    rewrite Eg in Eb. injection Eb as Eb.
    destruct (H2 1064 g 500 ltac:(vm_compute; reflexivity) Eg Eb) as [[n En] _]. exists n. split; [exact En|].
    apply (H1 1064). vm_compute. reflexivity.
  - assert (Eb : mg_buffer <$> mf_store exf3 !! 1064 = Some (Some 500)) by (vm_compute; reflexivity).
    rewrite Eg in Eb. discriminate Eb.
Defined.
End IoMsg.
