(* ===== verification/IoQueue.v ===== *)
(** * Queue of buffers (inc/io_queue.h, src/io_queue.c)

    A buffer is in one of the three lists of its queue (ready, in progress, done)
    or in none.  The lists are rings of DList; buffers live in a store by their
    address, since the lists and the callers share them.  A callback that is
    invoked is recorded, with its context and result, in [q_events].  Every
    function that takes the lock is one atomic step.

    The specification [lists] is three sequences of buffers; [q_rep] relates a
    queue to it and every operation is shown to act on it. *)
From stdpp Require Import base option list numbers sets gmap finite.
From S2P Require Import Prelude PrxTypes DList DListStore.
Import PrxTypes DList DListStore.

Module IoQueue.

(** The list heads inside [io_queue_t]; the links are inside the buffers. *)
Inductive qstate := ready | inprogress | done_.

#[export] Instance qstate_eq_dec : EqDecision qstate.
Proof. solve_decision. Defined.
#[export] Instance qstate_finite : Finite qstate.
Proof.
  refine {| enum := [ready; inprogress; done_] |}.
  - by apply (bool_decide_unpack _).
  - intros []; by apply (bool_decide_unpack _).
Defined.

Abbreviation node := (node qstate).
Abbreviation lists := (lists qstate).
Abbreviation qlink := link_of.

(** [qb_queue]: whether [queue] is set, [qb_cb]: [cb_ptr] and [ctx]; [qb_data]: the
    bytes after the structure. *)
Record io_queue_buffer := mk_buffer {
  qb_queue : bool;
  qb_cb : option Z;
  qb_ctx : Z;
  qb_flags : Z;
  qb_code : prx_error;
  qb_write_offset : Z;
  qb_read_offset : Z;
  qb_length : Z;
  qb_data : bytes;
}.

(** ** A buffer as a stream *)

Definition set_write (qb : io_queue_buffer) (data : bytes) (w : Z) : io_queue_buffer :=
  {| qb_queue := qb_queue qb; qb_cb := qb_cb qb; qb_ctx := qb_ctx qb; qb_flags := qb_flags qb;
     qb_code := qb_code qb; qb_write_offset := w; qb_read_offset := qb_read_offset qb;
     qb_length := qb_length qb; qb_data := data |}.
Definition set_read (qb : io_queue_buffer) (r : Z) : io_queue_buffer :=
  {| qb_queue := qb_queue qb; qb_cb := qb_cb qb; qb_ctx := qb_ctx qb; qb_flags := qb_flags qb;
     qb_code := qb_code qb; qb_write_offset := qb_write_offset qb; qb_read_offset := r;
     qb_length := qb_length qb; qb_data := qb_data qb |}.

(** [cb_ptr] and [ctx] set to NULL. *)
Definition clear_cb (qb : io_queue_buffer) : io_queue_buffer :=
  {| qb_queue := qb_queue qb; qb_cb := None; qb_ctx := 0; qb_flags := qb_flags qb;
     qb_code := qb_code qb; qb_write_offset := qb_write_offset qb;
     qb_read_offset := qb_read_offset qb; qb_length := qb_length qb; qb_data := qb_data qb |}.

(** [buf]: [None] is NULL. *)
Definition io_queue_buffer_stream_writer (qb : io_queue_buffer) (buf : option bytes) (len : Z)
  : res io_queue_buffer :=
  if bool_decide (len = 0) then Ok qb
  else match buf with
  | None => Err er_fault
  | Some buf =>
      let write := Z.min (u64 (qb_length qb - qb_write_offset qb)) len in
      if bool_decide (0 < write) then
        src ← chk (mem_read buf 0 write);
        data ← chk (mem_write (qb_data qb) (qb_write_offset qb) src);
        Ok (set_write qb data (qb_write_offset qb + write))
      else Ok qb
  end.

(** The bytes stored through [buf]. *)
Definition io_queue_buffer_stream_reader (qb : io_queue_buffer) (len : Z)
  : res (io_queue_buffer * bytes) :=
  if bool_decide (len = 0) then Ok (qb, [])
  else
    let available := u64 (qb_length qb - qb_read_offset qb) in
    let read := Z.min available len in
    if bool_decide (0 < read) then
      out ← chk (mem_read (qb_data qb) (qb_read_offset qb) read);
      Ok (set_read qb (qb_read_offset qb + read), out)
    else Ok (qb, []).

Definition io_queue_buffer_stream_readable (qb : io_queue_buffer) : Z :=
  u64 (qb_length qb - qb_read_offset qb).
Definition io_queue_buffer_stream_writeable (qb : io_queue_buffer) : Z :=
  u64 (qb_length qb - qb_write_offset qb).
Definition io_queue_buffer_stream_reset (qb : io_queue_buffer) : io_queue_buffer :=
  set_read (set_write qb (qb_data qb) 0) 0.

(** ** The queue *)

(** [q_links]: the links of all nodes; [q_buffers]: the buffers that are
    allocated. *)
Record io_queue (D : Type) := mk_queue {
  q_links : D;
  q_buffers : gmap Z io_queue_buffer;
  q_events : list (Z * Z * prx_error);
}.
Arguments mk_queue {D}. Arguments q_links {D}. Arguments q_buffers {D}. Arguments q_events {D}.

Section Queue.
Context {D : Type} `{dlist D node}.
Implicit Type q : io_queue D.

Definition set_links q (d : D) : io_queue D :=
  {| q_links := d; q_buffers := q_buffers q; q_events := q_events q |}.

(** [io_queue_create]: three empty lists; [d]: the memory before. *)
Definition io_queue_create (alloc : bool) (lock pool : res unit) (d : D) : res (io_queue D) :=
  if negb alloc then Err er_out_of_memory
  else
    let d := DList_InitializeListHead d (head_of inprogress) in
    let d := DList_InitializeListHead d (head_of ready) in
    let d := DList_InitializeListHead d (head_of done_) in
    _ ← lock;
    _ ← pool;
    Ok {| q_links := d; q_buffers := ∅; q_events := [] |}.

(** The callback is invoked once: it is cleared before. *)
Definition io_queue_buffer_abort_callback q (b : Z) : res (io_queue D) :=
  qb ← chk (q_buffers q !! b);
  Ok {| q_links := q_links q; q_buffers := <[b := clear_cb qb]> (q_buffers q);
        q_events := match qb_cb qb with
                    | Some cb => q_events q ++ [(cb, qb_ctx qb, er_aborted)]
                    | None => q_events q
                    end |}.

Definition io_queue_release_buffer_no_lock q (b : option Z) : res (io_queue D) :=
  match b with
  | None => Ok q
  | Some b =>
      let d := DList_RemoveEntryList (q_links q) (qlink b) in
      let d := DList_InitializeListHead d (qlink b) in
      q ← io_queue_buffer_abort_callback (set_links q d) b;
      Ok {| q_links := q_links q; q_buffers := delete b (q_buffers q); q_events := q_events q |}
  end.

Definition io_queue_state_push q (s : qstate) (b : Z) : io_queue D :=
  let d := DList_RemoveEntryList (q_links q) (qlink b) in
  set_links q (DList_InsertTailList d (head_of s) (qlink b)).

Definition io_queue_state_peek q (s : qstate) : bool :=
  negb (DList_IsListEmpty (q_links q) (head_of s)).

Definition io_queue_state_pop q (s : qstate) : res (io_queue D * option Z) :=
  if DList_IsListEmpty (q_links q) (head_of s) then Ok (q, None)
  else
    let '(n, d) := DList_RemoveHeadList (q_links q) (head_of s) in
    b ← chk (entry_of n);
    Ok (set_links q (DList_InitializeListHead d (qlink b)), Some b).

(** [fuel]: at most the number of buffers are in a list. *)
Fixpoint state_release_loop (fuel : nat) q (s : qstate) : option (res (io_queue D)) :=
  if DList_IsListEmpty (q_links q) (head_of s) then
    Some (Ok (set_links q (DList_InitializeListHead (q_links q) (head_of s))))
  else match fuel with
  | O => None
  | S fuel =>
      let '(n, d) := DList_RemoveHeadList (q_links q) (head_of s) in
      match entry_of n with
      | None => Some UB
      | Some b =>
          match io_queue_release_buffer_no_lock (set_links q d) (Some b) with
          | Ok q => state_release_loop fuel q s
          | Err e => Some (Err e)
          | UB => Some UB
          end
      end
  end.

(** A loop that does not end within its fuel does not end, see
    [release_list]. *)
Definition io_queue_state_release_no_lock q (s : qstate) : res (io_queue D) :=
  match state_release_loop (size (q_buffers q)) q s with Some r => r | None => UB end.

Definition io_queue_release_all_buffers q : res (io_queue D) :=
  q ← io_queue_state_release_no_lock q done_;
  q ← io_queue_state_release_no_lock q inprogress;
  io_queue_state_release_no_lock q ready.

(** [lock]: whether the lock was created. *)
Definition io_queue_free q (lock : bool) : res (io_queue D) :=
  if lock then io_queue_release_all_buffers q else Ok q.

(** From [p] along the forward links to the head of the list. *)
Fixpoint state_abort_loop (fuel : nat) q (s : qstate) (p : node) : option (res (io_queue D)) :=
  if decide (p = head_of s) then Some (Ok q)
  else match fuel with
  | O => None
  | S fuel =>
      match entry_of p with
      | None => Some UB
      | Some b =>
          match io_queue_buffer_abort_callback q b with
          | Ok q => state_abort_loop fuel q s (Flink (q_links q) p)
          | Err e => Some (Err e)
          | UB => Some UB
          end
      end
  end.

Definition io_queue_state_abort_no_lock q (s : qstate) : res (io_queue D) :=
  match state_abort_loop (size (q_buffers q)) q s (Flink (q_links q) (head_of s)) with
  | Some r => r
  | None => UB
  end.

Definition io_queue_abort q : res (io_queue D) :=
  q ← io_queue_state_abort_no_lock q done_;
  q ← io_queue_state_abort_no_lock q inprogress;
  io_queue_state_abort_no_lock q ready.

(** [header]: the size of the structure; [prx_buffer_new]: the address and the
    content of the block of the given size that the pool of the queue returns. *)
Definition io_queue_create_buffer (header : Z) (prx_buffer_new : Z -> option (Z * bytes)) q
    (payload : option bytes) (length : Z) : res (io_queue D * Z) :=
  match prx_buffer_new (u64 (length + header)) with
  | None => Err er_out_of_memory
  | Some (b, mem) =>
      let q1 := set_links q (DList_InitializeListHead (q_links q) (qlink b)) in
      let qb := {| qb_queue := true; qb_cb := None; qb_ctx := 0; qb_flags := 0; qb_code := er_ok;
                   qb_write_offset := 0; qb_read_offset := 0; qb_length := length;
                   qb_data := drop (Z.to_nat header) mem |} in
      match (match payload with
             | Some p => if bool_decide (0 < length)
                         then io_queue_buffer_stream_writer qb (Some p) length else Ok qb
             | None => Ok qb
             end) with
      | Ok qb => Ok ({| q_links := q_links q1; q_buffers := <[b := qb]> (q_buffers q1);
                        q_events := q_events q1 |}, b)
      | Err e => _ ← io_queue_release_buffer_no_lock
                       {| q_links := q_links q1; q_buffers := <[b := qb]> (q_buffers q1);
                          q_events := q_events q1 |} (Some b);
                 Err e
      | UB => UB
      end
  end.

Definition io_queue_buffer_release q (b : option Z) : res (io_queue D) :=
  match b with
  | None => Ok q
  | Some b =>
      qb ← chk (q_buffers q !! b);
      if negb (qb_queue qb) then Ok q
      else
        let qb' := {| qb_queue := false; qb_cb := qb_cb qb; qb_ctx := qb_ctx qb;
                      qb_flags := qb_flags qb; qb_code := qb_code qb;
                      qb_write_offset := qb_write_offset qb; qb_read_offset := qb_read_offset qb;
                      qb_length := qb_length qb; qb_data := qb_data qb |} in
        q ← io_queue_buffer_abort_callback
              {| q_links := q_links q; q_buffers := <[b := qb']> (q_buffers q);
                 q_events := q_events q |} b;
        io_queue_release_buffer_no_lock q (Some b)
  end.

(** [io_queue_buffer_set_inprogress], [..._set_ready] and [..._set_done]. *)
Definition set_state q (s : qstate) (b : option Z) : res (io_queue D) :=
  match b with
  | None => Ok q
  | Some b => qb ← chk (q_buffers q !! b);
              if negb (qb_queue qb) then Ok q else Ok (io_queue_state_push q s b)
  end.
Definition io_queue_buffer_set_inprogress q b := set_state q inprogress b.
Definition io_queue_buffer_set_ready q b := set_state q ready b.
Definition io_queue_buffer_set_done q b := set_state q done_ b.

Definition io_queue_has_ready q : bool := io_queue_state_peek q ready.
Definition io_queue_has_inprogress q : bool := io_queue_state_peek q inprogress.
Definition io_queue_has_done q : bool := io_queue_state_peek q done_.
Definition io_queue_pop_ready q := io_queue_state_pop q ready.
Definition io_queue_pop_inprogress q := io_queue_state_pop q inprogress.
Definition io_queue_pop_done q := io_queue_state_pop q done_.

(** The ring of the buffers in progress is spliced in before the first ready
    buffer, and its head taken out. *)
Definition io_queue_rollback q : io_queue D :=
  let d := DList_AppendTailList (q_links q) (Flink (q_links q) (head_of ready)) (head_of inprogress) in
  let d := DList_RemoveEntryList d (head_of inprogress) in
  set_links q (DList_InitializeListHead d (head_of inprogress)).
End Queue.

(** ** The three sequences of buffers of a queue *)

Section Rep.
Context {D : Type} `{L : dlist_laws D node}.
Implicit Type q : io_queue D.

(** Every live buffer is in a list or its own ring. *)
Record q_rep q (f : lists) : Prop := {
  q_store : rep (fun _ => True) (q_links q) (fun b => is_Some (q_buffers q !! b)) f;
  q_stored s b : b ∈ f s -> is_Some (q_buffers q !! b);
}.

Lemma q_lists q f s : q_rep q f -> dl (q_links q) s (f s).
Proof. intros [Hr _]. by apply (st_lists _ _ _ _ Hr). Qed.
Lemma q_once q f : q_rep q f -> forall s t b, b ∈ f s -> b ∈ f t -> s = t.
Proof. intros [Hr _]. apply (st_once _ _ _ _ Hr). Qed.
Lemma q_nodup q f s : q_rep q f -> NoDup (f s).
Proof. intros [Hr _]. by eapply rep_nodup. Qed.

Lemma q_rep_ext q f g : (forall s, f s = g s) -> q_rep q f -> q_rep q g.
Proof.
  intros E [Hr Hs]. constructor; [by eapply rep_ext|]. intros s b. rewrite <- E. apply Hs.
Qed.

(** *** Moving a buffer to another state *)
Lemma push_q_rep q f s b : q_rep q f -> is_Some (q_buffers q !! b) ->
  q_rep (io_queue_state_push q s b) (push f s b).
Proof.
  intros [Hr Hs] Hb. constructor; [by apply push_rep; [| |left]|].
  intros t c. rewrite elem_push. cbn. naive_solver.
Qed.

(** *** Taking a buffer out of the lists *)

(** [d]: links from which the link of [b] was removed, [m]: the buffers, with or
    without [b]. *)
Lemma detached_q_rep q f b d m ev : q_rep q f ->
  without (fun _ => True) d (fun b => is_Some (q_buffers q !! b)) f b ->
  (forall c, c <> b -> is_Some (m !! c) <-> is_Some (q_buffers q !! c)) ->
  q_rep (mk_queue (DList_InitializeListHead d (qlink b)) m ev) (detach f b).
Proof.
  intros [Hr Hs] Hd Hm. constructor; cbn.
  - eapply detached; [exact Hr|exact Hd|]. intros c Hc. destruct (decide (c = b)); [by left|]. right. by apply Hm.
  - intros s c. unfold detach. rewrite elem_rm. intros [Hcb Hc]. apply Hm; eauto.
Qed.

Lemma detach_q_rep q f b : q_rep q f -> is_Some (q_buffers q !! b) ->
  q_rep (set_links q (DList_InitializeListHead (DList_RemoveEntryList (q_links q) (qlink b)) (qlink b)))
    (detach f b).
Proof.
  intros Hr Hb. eapply detached_q_rep; [done| |done]. apply remove_link; [apply Hr|by left].
Qed.

Lemma detach_head q f s b l : q_rep q f -> f s = b :: l -> forall t, detach f b t = set_list f s l t.
Proof.
  intros Hr E. apply (detach_middle f s b [] l); [by eapply q_once|by eapply q_nodup|done].
Qed.

Lemma peek_spec q f s : q_rep q f -> io_queue_state_peek q s = bool_decide (f s <> []).
Proof.
  intros Hr. unfold io_queue_state_peek. rewrite (is_empty_list _ _ _ (q_lists _ _ s Hr)).
  by destruct (f s).
Qed.

Lemma pop_spec q f s : q_rep q f ->
  match f s with
  | [] => io_queue_state_pop q s = Ok (q, None)
  | b :: l => exists q', io_queue_state_pop q s = Ok (q', Some b) /\ q_rep q' (set_list f s l) /\
                q_buffers q' = q_buffers q /\ q_events q' = q_events q
  end.
Proof.
  intros Hr. pose proof (q_lists _ _ s Hr) as Hl. unfold io_queue_state_pop.
  rewrite (is_empty_list _ _ _ Hl). destruct (f s) as [|b l] eqn:E; [done|].
  rewrite bool_decide_eq_false_2 by done. rewrite (remove_head_list _ _ _ _ Hl). cbn.
  eexists. split; [done|]. split; [|done].
  eapply q_rep_ext; [by eapply detach_head|apply detach_q_rep; [exact Hr|]].
  eapply (q_stored _ _ Hr). rewrite E. apply list_elem_of_here.
Qed.

(** *** Everything in progress is ready again, before what was ready *)
Definition rolled_back (f : lists) : lists := fun t =>
  match t with ready => f inprogress ++ f ready | inprogress => [] | done_ => f done_ end.

Lemma rollback_ring d (l k : list Z) : dl d ready l -> dl d inprogress k ->
  (forall b, b ∈ k -> b ∈ l -> False) ->
  let d1 := DList_AppendTailList d (Flink d (head_of ready)) (head_of inprogress) in
  ring d1 (head_of ready :: head_of inprogress :: map qlink (k ++ l)) /\
  keeps ring d d1 (head_of ready :: head_of inprogress :: map qlink (k ++ l)).
Proof.
  intros Hr Hp Hkl d1.
  assert (Hdis : head_of ready :: map qlink l ## head_of inprogress :: map qlink k)
    by (apply lists_disjoint; [done|]; eauto).
  unfold dl in *. subst d1. rewrite (Flink_law _ _ _ Hr). destruct l as [|r l]; cbn [map head default from_option].
  - cbn [map] in *. destruct (append_law d (head_of ready) [] (head_of inprogress) (map qlink k) Hr Hp Hdis).
    rewrite app_nil_r. done.
  - cbn [map] in *. apply ring_rotate in Hr. cbn in Hr.
    destruct (append_law d (qlink r) (map qlink l ++ [head_of ready]) (head_of inprogress) (map qlink k)
      Hr Hp) as [Ha Hk].
    { intros n Hn. apply Hdis. set_solver. }
    rewrite map_app. cbn [map]. split.
    + rewrite <- app_assoc in Ha. cbn in Ha.
      change (qlink r :: map qlink l ++ head_of ready :: head_of inprogress :: map qlink k)
        with ((qlink r :: map qlink l) ++ (head_of ready :: head_of inprogress :: map qlink k)) in Ha.
      apply ring_rotations in Ha. exact Ha.
    + intros m Hm. apply Hk. intros n Hn. apply Hm. set_solver.
Qed.

Lemma rollback_rep q f : q_rep q f -> q_rep (io_queue_rollback q) (rolled_back f).
Proof.
  intros [[Hlt _ Ho Ha] Hst]. pose proof (fun s => Hlt s I) as Hl. unfold io_queue_rollback.
  assert (Hkl : forall b, b ∈ f inprogress -> b ∈ f ready -> False)
    by (intros b H1 H2; discriminate (Ho _ _ _ H1 H2)).
  destruct (rollback_ring _ _ _ (Hl ready) (Hl inprogress) Hkl) as [H1 K1].
  set (d1 := DList_AppendTailList _ _ _) in *.
  apply (remove_entry d1 (head_of ready) [] (head_of inprogress)) in H1 as [H2 K2].
  set (d2 := DList_RemoveEntryList d1 _) in *. cbn [app] in H2, K2.
  destruct (init_law d2 (head_of inprogress)) as [H3 K3].
  set (d3 := DList_InitializeListHead d2 _) in *.
  set (all := head_of ready :: head_of inprogress :: map qlink (f inprogress ++ f ready)) in *.
  assert (K : keeps ring (q_links q) d3 all).
  { intros m Hm Hrm. apply K3; [|by apply K2, K1]. intros n Hn. apply Hm. set_solver. }
  constructor; [constructor|]; cbn [q_links set_links q_buffers].
  - intros [] _; cbn [rolled_back].
    + apply K3; [|exact H2]. intros n Hn. apply list_elem_of_singleton in Hn as ->.
      intros Hn. apply elem_of_cons in Hn as [?|Hn]; [done|]. by apply head_not_link in Hn.
    + exact H3.
    + apply K; [|apply Hl]. intros n Hn Hn'. apply elem_of_cons in Hn' as [->|Hn'].
      * apply elem_of_cons in Hn as [?|Hn]; [done|]. apply elem_of_cons in Hn as [?|Hn]; [done|].
        by apply head_not_link in Hn.
      * destruct n as [?|b]; [by apply head_not_link in Hn'|]. apply elem_links in Hn'.
        apply elem_of_cons in Hn as [?|Hn]; [done|]. apply elem_of_cons in Hn as [?|Hn]; [done|].
        apply elem_links, elem_of_app in Hn as [Hn|Hn]; discriminate (Ho _ _ _ Hn Hn').
  - done.
  - intros s t b. destruct s, t; cbn; rewrite ?elem_of_app, ?elem_of_nil; try done; intros H4 H5.
    + destruct H4 as [H4|H4]; discriminate (Ho _ _ _ H4 H5).
    + destruct H5 as [H5|H5]; discriminate (Ho _ _ _ H4 H5).
  - intros b Hb Hn. apply K; [|apply Ha; [done|]].
    + intros n Hn1 Hn2. apply list_elem_of_singleton in Hn2 as ->.
      apply elem_of_cons in Hn1 as [?|Hn1]; [done|]. apply elem_of_cons in Hn1 as [?|Hn1]; [done|].
      apply elem_links in Hn1. by apply (Hn ready).
    + pose proof (Hn ready) as Hn1. pose proof (Hn done_) as Hn2. cbn in *.
      rewrite elem_of_app in Hn1. intros []; tauto.
  - intros s b. destruct s; cbn; rewrite ?elem_of_app, ?elem_of_nil; [|done|eauto].
    intros [Hb|Hb]; eauto.
Qed.

(** *** Callbacks *)

Definition event_of (qb : io_queue_buffer) : list (Z * Z * prx_error) :=
  match qb_cb qb with Some cb => [(cb, qb_ctx qb, er_aborted)] | None => [] end.

(** The callbacks of the buffers [l], in order. *)
Definition abort_events (m : gmap Z io_queue_buffer) (l : list Z) : list (Z * Z * prx_error) :=
  flat_map (fun b => from_option event_of [] (m !! b)) l.
Definition abort_bufs (m : gmap Z io_queue_buffer) (l : list Z) : gmap Z io_queue_buffer :=
  foldl (fun m b => alter clear_cb b m) m l.
Definition abort_q q (l : list Z) : io_queue D :=
  mk_queue (q_links q) (abort_bufs (q_buffers q) l) (q_events q ++ abort_events (q_buffers q) l).

Lemma abort_callback_ok q b : is_Some (q_buffers q !! b) ->
  io_queue_buffer_abort_callback q b = Ok (abort_q q [b]).
Proof.
  intros [qb Hb]. unfold io_queue_buffer_abort_callback, abort_q, abort_bufs, abort_events.
  rewrite Hb. cbn. rewrite Hb, app_nil_r. do 2 f_equal.
  - by apply map_eq; intros c; destruct (decide (c = b)) as [->|?];
      rewrite ?lookup_insert_eq, ?lookup_alter_eq, ?Hb, ?lookup_insert_ne, ?lookup_alter_ne.
  - cbn. unfold event_of. by destruct (qb_cb qb); rewrite ?app_nil_r.
Qed.

Lemma abort_bufs_stored l : forall m c, is_Some (abort_bufs m l !! c) <-> is_Some (m !! c).
Proof.
  induction l as [|b l IH]; intros m c; [done|]. cbn. fold (abort_bufs (alter clear_cb b m) l).
  rewrite IH. apply lookup_alter_is_Some.
Qed.

Lemma abort_events_ext m m' l : (forall c, c ∈ l -> m' !! c = m !! c) -> abort_events m' l = abort_events m l.
Proof.
  unfold abort_events. induction l as [|b l IH]; intros He; [done|]. cbn.
  rewrite He by apply list_elem_of_here. f_equal. apply IH. intros c Hc. apply He. by right.
Qed.

Lemma abort_events_cons m b l : abort_events m (b :: l) = abort_events m [b] ++ abort_events m l.
Proof. unfold abort_events. cbn. by rewrite app_nil_r. Qed.

Lemma abort_bufs_other l : forall m c, c ∉ l -> abort_bufs m l !! c = m !! c.
Proof.
  induction l as [|b l IH]; intros m c Hc; [done|]. cbn. fold (abort_bufs (alter clear_cb b m) l).
  rewrite IH by set_solver. apply lookup_alter_ne. set_solver.
Qed.

Lemma abort_q_app q l k : NoDup (l ++ k) -> abort_q (abort_q q l) k = abort_q q (l ++ k).
Proof.
  intros Hn. apply NoDup_app in Hn as (_ & Hn & _). unfold abort_q. cbn [q_links q_buffers q_events].
  rewrite (abort_events_ext (q_buffers q) (abort_bufs (q_buffers q) l)).
  { f_equal; [symmetry; apply foldl_app|]. unfold abort_events. by rewrite flat_map_app, app_assoc. }
  intros c Hc. apply abort_bufs_other. intros Hl. by apply (Hn c).
Qed.

Lemma q_rep_buffers d m m' ev ev' f : (forall c, is_Some (m' !! c) <-> is_Some (m !! c)) ->
  q_rep (mk_queue d m ev) f -> q_rep (mk_queue d m' ev') f.
Proof.
  intros He [Hr Hs]. constructor; cbn in *.
  - eapply rep_weaken; [|exact Hr]. intros b Hb _. by apply He.
  - intros s b Hb. apply He. eauto.
Qed.

Lemma abort_q_rep q f l : q_rep q f -> q_rep (abort_q q l) f.
Proof. destruct q. apply q_rep_buffers. intros c. apply abort_bufs_stored. Qed.

Lemma stored_size (m : gmap Z io_queue_buffer) l :
  NoDup l -> (forall b, b ∈ l -> is_Some (m !! b)) -> (length l <= size m)%nat.
Proof.
  intros Hn Hs. rewrite <- size_dom, <- (size_list_to_set (C := gset Z)) by done.
  apply subseteq_size. intros b Hb. apply elem_of_list_to_set in Hb. apply elem_of_dom. eauto.
Qed.

Lemma abort_loop s k : forall fuel q l, dl (q_links q) s (l ++ k) ->
  (forall b, b ∈ k -> is_Some (q_buffers q !! b)) -> NoDup k -> (length k <= fuel)%nat ->
  state_abort_loop fuel q s (default (head_of s) (link_of <$> head k)) = Some (Ok (abort_q q k)).
Proof.
  induction k as [|b k IH]; intros fuel q l Hr Hs Hn Hf.
  - assert (E : abort_q q [] = q) by (destruct q; unfold abort_q; cbn; by rewrite app_nil_r).
    rewrite E. destruct fuel; cbn; by rewrite decide_True.
  - destruct fuel as [|fuel]; [cbn in Hf; lia|].
    change (default (head_of s) (link_of <$> head (b :: k))) with (link_of (K := qstate) b).
    cbn [state_abort_loop]. rewrite decide_False by done. cbn [entry_of].
    rewrite abort_callback_ok by (apply Hs, list_elem_of_here).
    change (q_links (abort_q q [b])) with (q_links q). rewrite (ring_next _ _ _ _ _ Hr).
    rewrite (IH fuel _ (l ++ [b])); cbn [q_links abort_q].
    + do 2 f_equal. by apply (abort_q_app q [b] k).
    + by rewrite <- app_assoc.
    + intros c Hc. apply abort_bufs_stored. apply Hs. by right.
    + by apply NoDup_cons in Hn as [_ ?].
    + cbn in Hf. lia.
Qed.

(** The fuel of the loops is enough. *)
Lemma list_size q f s : q_rep q f -> (length (f s) <= size (q_buffers q))%nat.
Proof.
  intros Hr. apply stored_size; [by eapply q_nodup|]. intros b. apply (q_stored _ _ Hr).
Qed.

Lemma abort_list q f s : q_rep q f -> io_queue_state_abort_no_lock q s = Ok (abort_q q (f s)).
Proof.
  intros Hr. pose proof (q_lists _ _ s Hr) as Hl. unfold io_queue_state_abort_no_lock.
  rewrite (ring_first _ _ _ Hl), (abort_loop s (f s) _ q []); [done|exact Hl| | |by apply list_size].
  - intros b. apply (q_stored _ _ Hr).
  - by eapply q_nodup.
Qed.

(** All buffers in a list, in the order [io_queue_abort] and
    [io_queue_release_all_buffers] visit them. *)
Definition all_lists (f : lists) : list Z := f done_ ++ f inprogress ++ f ready.

Lemma all_lists_nodup q f : q_rep q f -> NoDup (all_lists f).
Proof.
  intros Hr. pose proof (fun s => q_nodup _ _ s Hr) as Hn.
  pose proof (q_once _ _ Hr) as Ho. unfold all_lists. rewrite !NoDup_app. repeat split; try apply Hn.
  - intros b H1 H2. apply elem_of_app in H2 as [H2|H2]; discriminate (Ho _ _ _ H1 H2).
  - intros b H1 H2. discriminate (Ho _ _ _ H1 H2).
Qed.

Lemma elem_all_lists f b : b ∈ all_lists f <-> exists s, b ∈ f s.
Proof.
  unfold all_lists. rewrite !elem_of_app. split; [naive_solver|]. intros [[] Hs]; tauto.
Qed.

Lemma abort_all q f : q_rep q f -> io_queue_abort q = Ok (abort_q q (all_lists f)).
Proof.
  intros Hr. pose proof (all_lists_nodup q f Hr) as Hn. unfold io_queue_abort, all_lists in *.
  rewrite (abort_list q f) by done. cbn. rewrite (abort_list _ f) by by apply abort_q_rep. cbn.
  rewrite (abort_list _ f) by by apply abort_q_rep, abort_q_rep.
  rewrite app_assoc in Hn |- *. apply NoDup_app in Hn as Hn1. destruct Hn1 as (Hn1 & _).
  by rewrite (abort_q_app q), abort_q_app.
Qed.

(** *** Releasing buffers *)

Definition drop_bufs (m : gmap Z io_queue_buffer) (l : list Z) : gmap Z io_queue_buffer :=
  foldl (fun m b => delete b m) m l.

Lemma release_no_lock_ok q d b : is_Some (q_buffers q !! b) ->
  io_queue_release_buffer_no_lock (set_links q d) (Some b) =
  Ok (mk_queue (DList_InitializeListHead (DList_RemoveEntryList d (qlink b)) (qlink b))
        (delete b (q_buffers q)) (q_events q ++ abort_events (q_buffers q) [b])).
Proof.
  intros Hb. cbn [io_queue_release_buffer_no_lock]. rewrite abort_callback_ok by done. cbn.
  do 2 f_equal. apply map_eq. intros c. destruct (decide (c = b)) as [->|Hc].
  - by rewrite !lookup_delete_eq.
  - by rewrite !lookup_delete_ne, lookup_alter_ne.
Qed.

Lemma release_rep q f b : q_rep q f -> is_Some (q_buffers q !! b) -> exists d,
  io_queue_release_buffer_no_lock q (Some b) =
    Ok (mk_queue d (delete b (q_buffers q)) (q_events q ++ abort_events (q_buffers q) [b])) /\
  q_rep (mk_queue d (delete b (q_buffers q)) (q_events q ++ abort_events (q_buffers q) [b])) (detach f b).
Proof.
  intros Hr Hb. pose proof (release_no_lock_ok q (q_links q) b Hb) as E.
  replace (set_links q (q_links q)) with q in E by by destruct q.
  eexists. split; [exact E|]. eapply detached_q_rep; [done|apply remove_link; [apply Hr|by left]|].
  intros c Hc. by rewrite lookup_delete_ne.
Qed.

Lemma release_head q f s b l : q_rep q f -> f s = b :: l ->
  let d := DList_RemoveEntryList (DList_RemoveEntryList (q_links q) (qlink b)) (qlink b) in
  q_rep (mk_queue (DList_InitializeListHead d (qlink b)) (delete b (q_buffers q))
           (q_events q ++ abort_events (q_buffers q) [b])) (set_list f s l).
Proof.
  intros Hr E d. eapply q_rep_ext; [by eapply detach_head|]. eapply detached_q_rep; [exact Hr| |].
  - eapply (remove_link_again _ _ _ _ s); [apply Hr|]. rewrite E. apply list_elem_of_here.
  - intros c Hc. by rewrite lookup_delete_ne.
Qed.

Lemma release_loop s : forall fuel q f, q_rep q f -> (length (f s) <= fuel)%nat -> exists d,
  let q' := mk_queue d (drop_bufs (q_buffers q) (f s))
              (q_events q ++ abort_events (q_buffers q) (f s)) in
  state_release_loop fuel q s = Some (Ok q') /\ q_rep q' (set_list f s []).
Proof.
  induction fuel as [|fuel IH]; intros q f Hr Hf; pose proof (q_lists _ _ s Hr) as Hl;
    cbn [state_release_loop]; rewrite (is_empty_list _ _ _ Hl);
    destruct (f s) as [|b l] eqn:E.
  1,3: eexists; cbn; rewrite app_nil_r; split; [done|]; eapply q_rep_ext;
       [|constructor; [eapply rep_heads, init_empty; [|apply Hr|exact E]; tauto|apply Hr]];
       intros t; unfold set_list; case_decide; by subst.
  - cbn in Hf. lia.
  - rewrite bool_decide_eq_false_2 by done. cbn [map] in Hl. rewrite (remove_head_list _ _ _ _ Hl).
    cbn [entry_of].
    assert (Hb : is_Some (q_buffers q !! b))
      by (eapply (q_stored _ _ Hr); rewrite E; apply list_elem_of_here).
    rewrite release_no_lock_ok by done. pose proof (release_head q f s b l Hr E) as Hr'.
    assert (Es : set_list f s l s = l) by (unfold set_list; by rewrite decide_True).
    destruct (IH _ _ Hr') as (d & Hrun & Hrep); [rewrite Es; cbn in Hf; lia|].
    rewrite Es in Hrun, Hrep. cbn [q_buffers q_events] in Hrun, Hrep.
    pose proof (q_nodup _ _ s Hr) as Hn. rewrite E in Hn. apply NoDup_cons in Hn as [Hn _].
    rewrite (abort_events_ext (q_buffers q) (delete b (q_buffers q))) in Hrun, Hrep
      by (intros c Hc; rewrite lookup_delete_ne; [done|intros ->; done]).
    rewrite <- app_assoc in Hrun, Hrep. exists d.
    rewrite (abort_events_cons _ b l). split; [exact Hrun|]. eapply q_rep_ext; [|exact Hrep].
    intros t. unfold set_list. by case_decide.
Qed.

Lemma release_list q f s : q_rep q f -> exists d,
  let q' := mk_queue d (drop_bufs (q_buffers q) (f s))
              (q_events q ++ abort_events (q_buffers q) (f s)) in
  io_queue_state_release_no_lock q s = Ok q' /\ q_rep q' (set_list f s []).
Proof.
  intros Hr. destruct (release_loop s (size (q_buffers q)) q f Hr) as (d & Hrun & Hrep).
  - by apply list_size.
  - exists d. split; [|done]. unfold io_queue_state_release_no_lock. by rewrite Hrun.
Qed.

Lemma drop_bufs_other l : forall m c, c ∉ l -> drop_bufs m l !! c = m !! c.
Proof.
  induction l as [|b l IH]; intros m c Hc; [done|]. cbn. fold (drop_bufs (delete b m) l).
  rewrite IH by set_solver. apply lookup_delete_ne. set_solver.
Qed.

Lemma drop_bufs_in l : forall m c, c ∈ l -> drop_bufs m l !! c = None.
Proof.
  induction l as [|b l IH]; intros m c Hc; [by apply elem_of_nil in Hc|].
  cbn. fold (drop_bufs (delete b m) l). destruct (decide (c ∈ l)); [by apply IH|].
  rewrite drop_bufs_other by done. assert (c = b) as -> by set_solver. apply lookup_delete_eq.
Qed.

(** Two lists released one after the other. *)
Lemma drop_bufs_app m ev l k : NoDup (l ++ k) ->
  drop_bufs (drop_bufs m l) k = drop_bufs m (l ++ k) /\
  (ev ++ abort_events m l) ++ abort_events (drop_bufs m l) k = ev ++ abort_events m (l ++ k).
Proof.
  intros Hn. apply NoDup_app in Hn as (_ & Hn & _). split; [symmetry; apply foldl_app|].
  rewrite (abort_events_ext m (drop_bufs m l)).
  - unfold abort_events. by rewrite flat_map_app, app_assoc.
  - intros c Hc. apply drop_bufs_other. intros Hl. by apply (Hn c).
Qed.

Lemma release_all_rep q f : q_rep q f -> exists d,
  let q' := mk_queue d (drop_bufs (q_buffers q) (all_lists f))
              (q_events q ++ abort_events (q_buffers q) (all_lists f)) in
  io_queue_release_all_buffers q = Ok q' /\ q_rep q' (fun _ => []).
Proof.
  intros Hr. pose proof (all_lists_nodup q f Hr) as Hn. unfold io_queue_release_all_buffers.
  destruct (release_list q f done_ Hr) as (d1 & -> & Hr1). cbn [mbind res_bind].
  destruct (release_list _ _ inprogress Hr1) as (d2 & -> & Hr2). cbn [mbind res_bind].
  destruct (release_list _ _ ready Hr2) as (d3 & -> & Hr3). exists d3.
  cbn [q_buffers q_events set_list decide] in *.
  change (set_list f done_ [] inprogress) with (f inprogress) in *.
  change (set_list (set_list f done_ []) inprogress [] ready) with (f ready) in *.
  unfold all_lists in Hn |- *. rewrite app_assoc in Hn |- *.
  assert (Hn1 : NoDup (f done_ ++ f inprogress)) by by apply NoDup_app in Hn as (? & _).
  destruct (drop_bufs_app (q_buffers q) (q_events q) _ _ Hn1) as [E1 E2].
  destruct (drop_bufs_app (q_buffers q) (q_events q) _ _ Hn) as [E3 E4].
  rewrite E1, E2, E3, E4 in *. split; [done|]. eapply q_rep_ext; [|exact Hr3]. by intros [].
Qed.

Lemma buffer_release_rep q f b qb : q_rep q f -> q_buffers q !! b = Some qb -> qb_queue qb = true ->
  exists d,
  let q' := mk_queue d (delete b (q_buffers q)) (q_events q ++ abort_events (q_buffers q) [b]) in
  io_queue_buffer_release q (Some b) = Ok q' /\ q_rep q' (detach f b).
Proof.
  intros Hr Hb Hq. cbn [io_queue_buffer_release]. rewrite Hb. cbn [chk mbind res_bind]. rewrite Hq. cbn [negb].
  set (q1 := {| q_links := _; q_buffers := _; q_events := _ |}).
  assert (Hs : forall c, is_Some (q_buffers q1 !! c) <-> is_Some (q_buffers q !! c)).
  { intros c. subst q1. cbn. destruct (decide (c = b)) as [->|Hc]; [|by rewrite lookup_insert_ne].
    rewrite lookup_insert_eq, Hb. split; eauto. }
  assert (Hb1 : is_Some (q_buffers q1 !! b)) by (apply Hs; eauto).
  assert (Hr1 : q_rep q1 f) by (destruct q; eapply q_rep_buffers; [exact Hs|exact Hr]).
  rewrite abort_callback_ok by done. cbn [mbind res_bind].
  destruct (release_rep (abort_q q1 [b]) f b) as (d & E & Hd);
    [by apply abort_q_rep|by apply abort_bufs_stored|].
  assert (E1 : delete b (q_buffers (abort_q q1 [b])) = delete b (q_buffers q)).
  { apply map_eq. intros c. destruct (decide (c = b)) as [->|Hc]; [by rewrite !lookup_delete_eq|].
    rewrite !lookup_delete_ne by done. cbn. by rewrite lookup_alter_ne, lookup_insert_ne. }
  assert (E2 : q_events (abort_q q1 [b]) ++ abort_events (q_buffers (abort_q q1 [b])) [b] =
               q_events q ++ abort_events (q_buffers q) [b]).
  { cbn. rewrite lookup_alter_eq, lookup_insert_eq, Hb. cbn. by rewrite !app_nil_r. }
  exists d. rewrite E1, E2 in *. done.
Qed.

Lemma create_rep lock pool d q : io_queue_create true lock pool d = Ok q ->
  q_rep q (fun _ => []) /\ q_buffers q = ∅ /\ q_events q = [].
Proof.
  unfold io_queue_create. cbn [negb]. destruct lock, pool; cbn; try done. intros [= <-].
  split; [|done].
  constructor; cbn; [|by intros s b Hb; apply elem_of_nil in Hb].
  eapply rep_heads, init_empty, eq_refl; [|apply init_empty, eq_refl; apply init_empty, eq_refl; apply rep_none].
  - intros []; tauto.
  - intros b [? Hb]. by rewrite lookup_empty in Hb.
Qed.

(** *** New buffers *)

(** The buffer that is created, with the payload when there is one. *)
Definition new_buffer (header : Z) (mem : bytes) (payload : option bytes) (len : Z) : io_queue_buffer :=
  let full := bool_decide (is_Some payload /\ 0 < len) in
  {| qb_queue := true; qb_cb := None; qb_ctx := 0; qb_flags := 0; qb_code := er_ok;
     qb_write_offset := if full then len else 0; qb_read_offset := 0; qb_length := len;
     qb_data := if full then take (Z.to_nat len) (default [] payload) else drop (Z.to_nat header) mem |}.

Definition new_ok (header : Z) (m : gmap Z io_queue_buffer) (b : Z) (mem : bytes)
    (payload : option bytes) (len : Z) : Prop :=
  m !! b = None /\ 0 <= header /\ 0 <= len /\ header + len < 2 ^ 64 /\ zlen mem = header + len /\
  match payload with Some p => len <= zlen p | None => True end.

#[export] Instance new_ok_dec header m b mem payload len : Decision (new_ok header m b mem payload len).
Proof. unfold new_ok. destruct payload; apply _. Defined.

Lemma stream_writer_full qb p len :
  0 < len -> len <= zlen p -> qb_write_offset qb = 0 -> qb_length qb = len -> len < 2 ^ 64 ->
  zlen (qb_data qb) = len ->
  io_queue_buffer_stream_writer qb (Some p) len = Ok (set_write qb (take (Z.to_nat len) p) len).
Proof.
  intros H0 Hp Hw Hlen Hmax Hd. unfold io_queue_buffer_stream_writer.
  rewrite bool_decide_eq_false_2 by lia. rewrite Hw, Hlen, Z.sub_0_r, u64_id by (unfold in_u64; lia).
  rewrite Z.min_id, bool_decide_eq_true_2 by lia. unfold mem_read, mem_write.
  unfold zlen in *. rewrite bool_decide_eq_true_2 by lia. cbn.
  rewrite length_take, bool_decide_eq_true_2 by lia. cbn. do 2 f_equal.
  change (Z.to_nat 0) with O. rewrite drop_0. rewrite drop_ge by lia. cbn. by rewrite app_nil_r.
Qed.

Lemma init_q_rep q f b qb : q_rep q f -> q_buffers q !! b = None ->
  q_rep (mk_queue (DList_InitializeListHead (q_links q) (qlink b)) (<[b := qb]> (q_buffers q)) (q_events q)) f.
Proof.
  intros [Hr Hs] Hb. assert (Hn : forall s, b ∉ f s).
  { intros s Hbs. destruct (Hs s b Hbs) as [? ?]. congruence. }
  constructor; cbn.
  - eapply init_link_rep; [exact Hr|done|]. intros c Hc. destruct (decide (c = b)); [by left|].
    right. by rewrite lookup_insert_ne in Hc.
  - intros s c Hc. rewrite lookup_insert_ne; [eauto|]. intros ->. by apply (Hn s).
Qed.

Lemma create_buffer_rep header q f b mem payload len new :
  q_rep q f -> new_ok header (q_buffers q) b mem payload len -> new (len + header) = Some (b, mem) ->
  exists d, let q' := mk_queue d (<[b := new_buffer header mem payload len]> (q_buffers q)) (q_events q) in
  io_queue_create_buffer header new q payload len = Ok (q', b) /\ q_rep q' f.
Proof.
  intros Hr (Hb & Hh & Hl & Hmax & Hm & Hp) Hnew. unfold io_queue_create_buffer.
  rewrite u64_id by (unfold in_u64; lia). rewrite Hnew. eexists. split; [|by apply init_q_rep].
  unfold new_buffer. destruct payload as [p|].
  - case_bool_decide as H0.
    + rewrite stream_writer_full; cbn; try done; [|lia|unfold zlen in *; rewrite length_drop; lia].
      by rewrite bool_decide_eq_true_2 by (split; [eauto|lia]).
    + by rewrite bool_decide_eq_false_2 by tauto.
  - by rewrite bool_decide_eq_false_2 by (intros [[? ?] _]; done).
Qed.
End Rep.

(** ** Sequences of operations

    [QOwn]: the owner of a buffer stores a callback in it; [QNew]: what the pool
    returned, the payload and its length.  Each operation returns the buffer it
    created or popped. *)
Inductive qop :=
| QNew (new : option (Z * bytes)) (payload : option bytes) (len : Z)
| QOwn (b : Z) (cb : option Z) (ctx : Z)
| QSet (s : qstate) (b : option Z)
| QPop (s : qstate)
| QRollback
| QRelease (b : option Z)
| QAbort
| QReleaseAll.

Definition set_cb (cb : option Z) (ctx : Z) (qb : io_queue_buffer) : io_queue_buffer :=
  {| qb_queue := qb_queue qb; qb_cb := cb; qb_ctx := ctx; qb_flags := qb_flags qb;
     qb_code := qb_code qb; qb_write_offset := qb_write_offset qb;
     qb_read_offset := qb_read_offset qb; qb_length := qb_length qb; qb_data := qb_data qb |}.

Section Run.
Context {D : Type} `{dlist D node}.

Definition only (q : res (io_queue D)) : res (io_queue D * option Z) := q ← q; Ok (q, None).

Definition q_step (header : Z) (q : io_queue D) (o : qop) : res (io_queue D * option Z) :=
  match o with
  | QNew new payload len =>
      match io_queue_create_buffer header (fun _ => new) q payload len with
      | Ok (q, b) => Ok (q, Some b)
      | Err _ => Ok (q, None)
      | UB => UB
      end
  | QOwn b cb ctx =>
      qb ← chk (q_buffers q !! b);
      Ok (mk_queue (q_links q) (<[b := set_cb cb ctx qb]> (q_buffers q)) (q_events q), None)
  | QSet ready b => only (io_queue_buffer_set_ready q b)
  | QSet inprogress b => only (io_queue_buffer_set_inprogress q b)
  | QSet done_ b => only (io_queue_buffer_set_done q b)
  | QPop ready => io_queue_pop_ready q
  | QPop inprogress => io_queue_pop_inprogress q
  | QPop done_ => io_queue_pop_done q
  | QRollback => Ok (io_queue_rollback q, None)
  | QRelease b => only (io_queue_buffer_release q b)
  | QAbort => only (io_queue_abort q)
  | QReleaseAll => only (io_queue_release_all_buffers q)
  end.

Fixpoint q_run (header : Z) (q : io_queue D) (os : list qop) : res (io_queue D * list (option Z)) :=
  match os with
  | [] => Ok (q, [])
  | o :: os => '(q, r) ← q_step header q o; '(q, rs) ← q_run header q os; Ok (q, r :: rs)
  end.
End Run.

(** The specification: the three lists, the live buffers and the callbacks
    invoked.  [None]: the caller uses a buffer that is not live, or the pool returns
    one that is. *)
Record aqueue := mk_a {
  a_lists : lists;
  a_buffers : gmap Z io_queue_buffer;
  a_events : list (Z * Z * prx_error);
}.

Definition live (a : aqueue) (b : Z) : bool := bool_decide (is_Some (a_buffers a !! b)).

Definition a_step (header : Z) (a : aqueue) (o : qop) : option (aqueue * option Z) :=
  let f := a_lists a in
  let m := a_buffers a in
  let ev := a_events a in
  match o with
  | QNew None _ _ => Some (a, None)
  | QNew (Some (b, mem)) payload len =>
      if decide (new_ok header m b mem payload len)
      then Some (mk_a f (<[b := new_buffer header mem payload len]> m) ev, Some b) else None
  | QOwn b cb ctx => if live a b then Some (mk_a f (alter (set_cb cb ctx) b m) ev, None) else None
  | QSet _ None => Some (a, None)
  | QSet s (Some b) => if live a b then Some (mk_a (push f s b) m ev, None) else None
  | QPop s => Some (mk_a (set_list f s (tail (f s))) m ev, head (f s))
  | QRollback => Some (mk_a (rolled_back f) m ev, None)
  | QRelease None => Some (a, None)
  | QRelease (Some b) =>
      if live a b then Some (mk_a (detach f b) (delete b m) (ev ++ abort_events m [b]), None) else None
  | QAbort => Some (mk_a f (abort_bufs m (all_lists f)) (ev ++ abort_events m (all_lists f)), None)
  | QReleaseAll =>
      Some (mk_a (fun _ => []) (drop_bufs m (all_lists f)) (ev ++ abort_events m (all_lists f)), None)
  end.

Fixpoint a_run (header : Z) (a : aqueue) (os : list qop) : option (aqueue * list (option Z)) :=
  match os with
  | [] => Some (a, [])
  | o :: os => '(a, r) ← a_step header a o; '(a, rs) ← a_run header a os; Some (a, r :: rs)
  end.

Definition a_empty : aqueue := mk_a (fun _ => []) ∅ [].

Section Refinement.
Context {D : Type} `{L : dlist_laws D node}.

Record refines (q : io_queue D) (a : aqueue) : Prop := {
  ref_rep : q_rep q (a_lists a);
  ref_buffers : q_buffers q = a_buffers a;
  ref_events : q_events q = a_events a;
  ref_owned b qb : a_buffers a !! b = Some qb -> qb_queue qb = true;
}.

Lemma set_state_refines q a s b : refines q a -> live a b = true ->
  exists q', set_state q s (Some b) = Ok q' /\ refines q' (mk_a (push (a_lists a) s b) (a_buffers a) (a_events a)).
Proof.
  intros [Hr Hb He Ho] Hl. apply bool_decide_eq_true in Hl as [qb Hqb]. cbn. rewrite Hb, Hqb. cbn.
  rewrite (Ho b qb Hqb). cbn. eexists. split; [done|]. split; cbn; [|done..].
  apply push_q_rep; [done|]. rewrite Hb. eauto.
Qed.

Lemma pop_refines q a s : refines q a ->
  exists q', io_queue_state_pop q s = Ok (q', head (a_lists a s)) /\
    refines q' (mk_a (set_list (a_lists a) s (tail (a_lists a s))) (a_buffers a) (a_events a)).
Proof.
  intros [Hr Hb He Ho]. pose proof (pop_spec q _ s Hr) as Hp. destruct (a_lists a s) as [|b l] eqn:E.
  - exists q. split; [done|]. split; cbn; [|done..]. eapply q_rep_ext; [|done].
    intros t. unfold set_list. case_decide; by subst.
  - destruct Hp as (q' & Hp & Hr' & Eb & Ee). exists q'. split; [done|].
    split; cbn; [done|congruence|congruence|done].
Qed.

(** Buffers that a step changes keep their owner. *)
Lemma owned_sub (m m' : gmap Z io_queue_buffer) :
  (forall b qb, m !! b = Some qb -> qb_queue qb = true) ->
  (forall b qb, m' !! b = Some qb -> exists qb0, m !! b = Some qb0 /\ qb_queue qb = qb_queue qb0) ->
  forall b qb, m' !! b = Some qb -> qb_queue qb = true.
Proof. intros Hm Hs b qb Hb. destruct (Hs b qb Hb) as (qb0 & H0 & ->). eauto. Qed.

Lemma alter_sub g (m : gmap Z io_queue_buffer) c : (forall qb, qb_queue (g qb) = qb_queue qb) ->
  forall b qb, alter g c m !! b = Some qb -> exists qb0, m !! b = Some qb0 /\ qb_queue qb = qb_queue qb0.
Proof.
  intros Hg b qb. rewrite lookup_alter_Some. intros [(-> & x & Hx & ->)|[_ Hb]]; eauto.
Qed.

Lemma abort_sub l : forall (m : gmap Z io_queue_buffer) b qb, abort_bufs m l !! b = Some qb ->
  exists qb0, m !! b = Some qb0 /\ qb_queue qb = qb_queue qb0.
Proof.
  induction l as [|c l IH]; intros m b qb Hb; [eauto|]. cbn in Hb. apply IH in Hb as (x & Hx & ->).
  by apply (alter_sub clear_cb) in Hx.
Qed.

Lemma drop_sub l (m : gmap Z io_queue_buffer) b qb : drop_bufs m l !! b = Some qb -> m !! b = Some qb.
Proof.
  intros Hb. destruct (decide (b ∈ l)) as [Hl|Hl]; [by rewrite drop_bufs_in in Hb|].
  by rewrite drop_bufs_other in Hb.
Qed.

Lemma set_cb_alter (m : gmap Z io_queue_buffer) b cb ctx qb : m !! b = Some qb ->
  <[b := set_cb cb ctx qb]> m = alter (set_cb cb ctx) b m.
Proof.
  intros Hb. apply map_eq. intros c. destruct (decide (c = b)) as [->|?].
  - by rewrite lookup_insert_eq, lookup_alter_eq, Hb.
  - by rewrite lookup_insert_ne, lookup_alter_ne.
Qed.

Lemma new_refines header q a b mem payload len : refines q a ->
  new_ok header (a_buffers a) b mem payload len ->
  exists q', io_queue_create_buffer header (fun _ => Some (b, mem)) q payload len = Ok (q', b) /\
    refines q' (mk_a (a_lists a) (<[b := new_buffer header mem payload len]> (a_buffers a)) (a_events a)).
Proof.
  intros [Hr Hb He Ho] Hn. rewrite <- Hb in Hn.
  destruct (create_buffer_rep header q _ b mem payload len (fun _ => Some (b, mem)) Hr Hn) as (d & E & Hr');
    [done|].
  eexists. split; [exact E|]. split; cbn; [done|by rewrite Hb|done|].
  intros c qb Hc. apply lookup_insert_Some in Hc as [[-> <-]|[_ Hc]]; [done|eauto].
Qed.

Lemma release_refines q a b : refines q a -> live a b = true ->
  exists q', io_queue_buffer_release q (Some b) = Ok q' /\
    refines q' (mk_a (detach (a_lists a) b) (delete b (a_buffers a))
                  (a_events a ++ abort_events (a_buffers a) [b])).
Proof.
  intros [Hr Hb He Ho] Hl. apply bool_decide_eq_true in Hl as [qb Hqb].
  destruct (buffer_release_rep q _ b qb Hr) as (d & E & Hr'); [by rewrite Hb|eauto|].
  eexists. split; [exact E|]. rewrite Hb, He in *. split; cbn; [done..|].
  apply (owned_sub (a_buffers a)); [done|]. intros c x Hx. apply lookup_delete_Some in Hx as [_ Hx]. eauto.
Qed.

Lemma abort_refines q a : refines q a ->
  exists q', io_queue_abort q = Ok q' /\
    refines q' (mk_a (a_lists a) (abort_bufs (a_buffers a) (all_lists (a_lists a)))
                  (a_events a ++ abort_events (a_buffers a) (all_lists (a_lists a)))).
Proof.
  intros [Hr Hb He Ho]. rewrite (abort_all q _ Hr). eexists. split; [done|].
  split; cbn; [by apply abort_q_rep|by rewrite Hb|by rewrite Hb, He|].
  apply (owned_sub (a_buffers a)); [done|]. apply abort_sub.
Qed.

Lemma release_all_refines q a : refines q a ->
  exists q', io_queue_release_all_buffers q = Ok q' /\
    refines q' (mk_a (fun _ => []) (drop_bufs (a_buffers a) (all_lists (a_lists a)))
                  (a_events a ++ abort_events (a_buffers a) (all_lists (a_lists a)))).
Proof.
  intros [Hr Hb He Ho]. destruct (release_all_rep q _ Hr) as (d & E & Hr'). eexists. split; [exact E|].
  rewrite Hb, He in *. split; cbn; [done..|].
  apply (owned_sub (a_buffers a)); [done|]. intros c x Hx. apply drop_sub in Hx. eauto.
Qed.

Lemma step_refines header q a o a' r : refines q a -> a_step header a o = Some (a', r) ->
  exists q', q_step header q o = Ok (q', r) /\ refines q' a'.
Proof.
  intros Hr Hs. destruct o as [[[b mem]|] payload len|b cb ctx|s [b|]|s| |[b|]| |]; cbn in Hs;
    repeat case_decide; try (destruct (live a b) eqn:Hl; [|done]); simplify_eq; cbn [q_step].
  - destruct (new_refines header q a b mem payload len Hr) as (q' & E & Hr'); [done|].
    rewrite E. eauto.
  - cbn. eauto.
  - destruct Hr as [Hr Hb He Ho]. apply bool_decide_eq_true in Hl as [qb Hqb]. rewrite Hb, Hqb. cbn.
    eexists. split; [done|]. split; cbn; [|by apply set_cb_alter|done|].
    + destruct q; eapply q_rep_buffers; [|exact Hr]. intros c. cbn in *. subst.
      rewrite (set_cb_alter _ _ _ _ _ Hqb). apply lookup_alter_is_Some.
    + apply (owned_sub (a_buffers a)); [done|]. by apply alter_sub.
  - destruct (set_state_refines q a s b Hr Hl) as (q' & E & Hr'). exists q'.
    split; [|done]. destruct s; unfold io_queue_buffer_set_ready, io_queue_buffer_set_inprogress,
      io_queue_buffer_set_done; by rewrite E.
  - destruct s; cbn; eauto.
  - destruct (pop_refines q a s Hr) as (q' & E & Hr'). exists q'. split; [|done]. by destruct s.
  - eexists. split; [done|]. destruct Hr. split; cbn; [by apply rollback_rep|done..].
  - destruct (release_refines q a b Hr Hl) as (q' & E & Hr'). rewrite E. cbn. eauto.
  - cbn. eauto.
  - destruct (abort_refines q a Hr) as (q' & E & Hr'). rewrite E. cbn. eauto.
  - destruct (release_all_refines q a Hr) as (q' & E & Hr'). rewrite E. cbn. eauto.
Qed.

Lemma run_refines header os : forall q a a' rs, refines q a -> a_run header a os = Some (a', rs) ->
  exists q', q_run header q os = Ok (q', rs) /\ refines q' a'.
Proof.
  induction os as [|o os IH]; intros q a a' rs Hr Hs; cbn in Hs |- *; [simplify_eq; eauto|].
  destruct (a_step header a o) as [[a1 r]|] eqn:E1; [|done]. cbn in Hs.
  destruct (a_run header a1 os) as [[a2 rs']|] eqn:E2; [|done]. cbn in Hs. simplify_eq.
  destruct (step_refines _ _ _ _ _ _ Hr E1) as (q1 & Q1 & R1). rewrite Q1. cbn.
  destruct (IH _ _ _ _ R1 E2) as (q2 & Q2 & R2). rewrite Q2. cbn. eauto.
Qed.

Lemma create_refines lock pool d q : io_queue_create true lock pool d = Ok q -> refines q a_empty.
Proof.
  intros Hc. apply create_rep in Hc as (Hr & Hb & He). split; cbn; [done..|].
  intros b qb Hq. by rewrite lookup_empty in Hq.
Qed.

(** C15: From a new queue, every sequence of creations, state changes, pops,
    rollbacks, releases and aborts that uses live buffers runs without undefined
    behaviour and returns the buffers the three-list specification returns, and the
    queue then still represents it. *)
Theorem queue_refines header lock pool d q os a rs :
  io_queue_create true lock pool d = Ok q -> a_run header a_empty os = Some (a, rs) ->
  exists q', q_run header q os = Ok (q', rs) /\ refines q' a /\
    io_queue_has_ready q' = bool_decide (a_lists a ready <> []) /\
    io_queue_has_inprogress q' = bool_decide (a_lists a inprogress <> []) /\
    io_queue_has_done q' = bool_decide (a_lists a done_ <> []).
Proof.
  intros Hc Hs. apply create_refines in Hc. destruct (run_refines _ _ _ _ _ _ Hc Hs) as (q' & E & Hr).
  exists q'. split; [done|]. split; [done|].
  pose proof (fun s => peek_spec q' _ s (ref_rep _ _ Hr)) as Hp. repeat split; apply Hp.
Qed.

(** [n] pops. *)
Fixpoint pops (n : nat) (q : io_queue D) (s : qstate) : res (io_queue D * list (option Z)) :=
  match n with
  | O => Ok (q, [])
  | S n => '(q, r) ← io_queue_state_pop q s; '(q, rs) ← pops n q s; Ok (q, r :: rs)
  end.

Lemma pops_all s l : forall q f, q_rep q f -> f s = l ->
  exists q', pops (length l) q s = Ok (q', map Some l) /\ q_rep q' (set_list f s []).
Proof.
  induction l as [|b l IH]; intros q f Hr E; cbn.
  - exists q. split; [done|]. eapply q_rep_ext; [|done]. intros t. unfold set_list. case_decide; by subst.
  - pose proof (pop_spec q f s Hr) as Hp. rewrite E in Hp. destruct Hp as (q1 & -> & Hr1 & _). cbn.
    destruct (IH q1 _ Hr1) as (q2 & -> & Hr2); [unfold set_list; by rewrite decide_True|].
    cbn. eexists. split; [done|]. eapply q_rep_ext; [|exact Hr2]. intros t. unfold set_list. by case_decide.
Qed.

(** After a rollback the buffers that were in progress are popped first, in their
    order, then the ones that were ready, in theirs; nothing is left in progress. *)
Lemma queue_rollback_order q f : q_rep q f ->
  io_queue_has_inprogress (io_queue_rollback q) = false /\
  exists q', pops (length (f inprogress ++ f ready)) (io_queue_rollback q) ready
               = Ok (q', map Some (f inprogress ++ f ready)) /\
             io_queue_has_ready q' = false.
Proof.
  intros Hr. apply rollback_rep in Hr. split; [by apply (peek_spec _ _ inprogress Hr)|].
  destruct (pops_all ready (f inprogress ++ f ready) _ _ Hr) as (q' & E & Hr'); [done|].
  exists q'. split; [done|]. by apply (peek_spec _ _ ready Hr').
Qed.

Lemma abort_events_cleared l : forall k m, (forall b, b ∈ k -> b ∈ l) -> abort_events (abort_bufs m l) k = [].
Proof.
  assert (Hc : forall l m b qb, abort_bufs m l !! b = Some qb -> b ∈ l \/ (exists x, m !! b = Some x /\ qb_cb x = None) ->
            qb_cb qb = None).
  { clear l. induction l as [|c l IH]; intros m b qb Hb Hl; cbn in Hb.
    - destruct Hl as [Hl|(x & Hx & Hn)]; [by apply elem_of_nil in Hl|]. cbn in Hb. congruence.
    - apply (IH _ _ _ Hb). destruct (decide (b = c)) as [->|Hbc].
      + right. destruct (m !! c) as [x|] eqn:E; [|].
        * exists (clear_cb x). by rewrite lookup_alter_eq, E.
        * apply abort_sub in Hb as (y & Hy & _). rewrite lookup_alter_eq, E in Hy. done.
      + destruct Hl as [Hl|(x & Hx & Hn)]; [left; set_solver|right]. exists x. by rewrite lookup_alter_ne. }
  induction k as [|b k IH]; intros m Hk; [done|]. rewrite abort_events_cons, IH by set_solver.
  rewrite app_nil_r. cbn. rewrite app_nil_r. destruct (abort_bufs m l !! b) as [qb|] eqn:E; [|done]. cbn.
  unfold event_of. rewrite (Hc l m b qb E); [done|]. left. apply Hk. apply list_elem_of_here.
Qed.

(** [io_queue_abort] invokes the callback of every buffer in a list, done ones
    first, with [er_aborted]; a callback is invoked once: a second abort, or
    releasing the buffers afterwards, invokes none.  The lists are unchanged by the
    abort; the release leaves them empty and frees exactly the buffers in them. *)
Lemma queue_abort_once q f : q_rep q f ->
  exists q1 q2 q3,
    io_queue_abort q = Ok q1 /\ io_queue_abort q1 = Ok q2 /\ io_queue_release_all_buffers q2 = Ok q3 /\
    q_events q1 = q_events q ++ abort_events (q_buffers q) (f done_ ++ f inprogress ++ f ready) /\
    q_events q3 = q_events q1 /\
    q_rep q2 f /\ q_rep q3 (fun _ => []) /\
    forall b, is_Some (q_buffers q3 !! b) <-> is_Some (q_buffers q !! b) /\ forall s, b ∉ f s.
Proof.
  intros Hr. pose proof (abort_q_rep q f (all_lists f) Hr) as Hr1.
  pose proof (abort_q_rep _ f (all_lists f) Hr1) as Hr2.
  destruct (release_all_rep _ f Hr2) as (d & E & Hr3).
  exists (abort_q q (all_lists f)), (abort_q (abort_q q (all_lists f)) (all_lists f)).
  eexists. split; [by apply abort_all|]. split; [by apply abort_all|]. split; [exact E|].
  split; [done|]. split; [|split; [done|split; [done|]]].
  - cbn. rewrite !abort_events_cleared by done. by rewrite !app_nil_r.
  - intros b. cbn. destruct (decide (b ∈ all_lists f)) as [Hb|Hb].
    + rewrite drop_bufs_in by done. apply elem_all_lists in Hb as [s Hs]. split.
      * by intros [? ?].
      * intros [_ Hn]. by destruct (Hn s).
    + rewrite drop_bufs_other, !abort_bufs_stored by done. rewrite elem_all_lists in Hb. naive_solver.
Qed.
End Refinement.

(** ** Buffers as streams *)

Fixpoint writes (qb : io_queue_buffer) (cs : list bytes) : res io_queue_buffer :=
  match cs with
  | [] => Ok qb
  | c :: cs => qb ← io_queue_buffer_stream_writer qb (Some c) (zlen c); writes qb cs
  end.

Fixpoint reads (qb : io_queue_buffer) (ns : list Z) : res (io_queue_buffer * list bytes) :=
  match ns with
  | [] => Ok (qb, [])
  | n :: ns => '(qb, o) ← io_queue_buffer_stream_reader qb n; '(qb, os) ← reads qb ns; Ok (qb, o :: os)
  end.

Definition total (ns : list Z) : Z := foldr Z.add 0 ns.

(** [w] was written over the memory [mem]. *)
Definition written (mem w : bytes) (qb : io_queue_buffer) : Prop :=
  qb_length qb = zlen mem /\ qb_read_offset qb = 0 /\ zlen w <= zlen mem /\
  qb_write_offset qb = zlen w /\ qb_data qb = w ++ drop (length w) mem.

Lemma writer_written mem w qb c : zlen mem < 2 ^ 64 -> written mem w qb ->
  exists qb', io_queue_buffer_stream_writer qb (Some c) (zlen c) = Ok qb' /\
    written mem (take (length mem) (w ++ c)) qb'.
Proof.
  intros Hm (Hlen & Hr & Hw & Ho & Hd). unfold io_queue_buffer_stream_writer.
  rewrite Hlen, Ho, u64_id by (unfold in_u64, zlen in *; lia). unfold zlen in *.
  case_bool_decide as Hc.
  { destruct c; [|done]. exists qb. split; [done|]. rewrite app_nil_r, take_ge by lia. done. }
  assert (Hk : (length w + length (drop (length w) mem) = length mem)%nat) by (rewrite length_drop; lia).
  set (k := Z.min (Z.of_nat (length mem) - Z.of_nat (length w)) (Z.of_nat (length c))). assert (Hk0 : 0 <= k) by lia.
  assert (Et : take (length mem) (w ++ c) = w ++ take (Z.to_nat k) c).
  { rewrite take_app, take_ge by lia. f_equal. subst k. destruct (decide (length mem - length w <= length c)%nat).
    - f_equal. lia.
    - rewrite !take_ge by lia. done. }
  case_bool_decide as Hpos.
  - unfold mem_read. rewrite bool_decide_eq_true_2 by lia. cbn [chk mbind res_bind].
    unfold mem_write. rewrite Hd, length_app, length_take, drop_0.
    rewrite bool_decide_eq_true_2 by (rewrite length_drop; lia). cbn [chk mbind res_bind].
    eexists. split; [done|]. rewrite Et. unfold written, zlen. cbn.
    rewrite !length_app, length_take. repeat split; try done; try lia.
    rewrite Nat2Z.id, take_app_length, <- app_assoc. do 2 f_equal.
    rewrite drop_app_ge, drop_drop by lia. f_equal. lia.
  - exists qb. split; [done|]. rewrite Et. assert (Hz : Z.to_nat k = 0%nat) by lia.
    rewrite Hz, take_0, app_nil_r. done.
Qed.

Lemma writes_written mem cs : zlen mem < 2 ^ 64 -> forall w qb, written mem w qb ->
  exists qb', writes qb cs = Ok qb' /\ written mem (take (length mem) (w ++ concat cs)) qb'.
Proof.
  intros Hm. induction cs as [|c cs IH]; intros w qb Hw.
  - exists qb. split; [done|]. cbn. destruct Hw as (? & ? & Hl & ?). unfold zlen in Hl.
    by rewrite app_nil_r, take_ge by lia.
  - destruct (writer_written mem w qb c Hm Hw) as (q1 & E1 & W1). cbn. rewrite E1. cbn.
    destruct (IH _ _ W1) as (q2 & E2 & W2). exists q2. split; [done|].
    rewrite app_assoc. destruct (decide (length (w ++ c) <= length mem)%nat) as [Hle|Hgt].
    + by rewrite (take_ge (w ++ c)) in W2 by lia.
    + rewrite (take_app_le (w ++ c)) by lia. rewrite take_app_le in W2 by (rewrite length_take; lia).
      rewrite take_take in W2. by rewrite Nat.min_id in W2.
Qed.

Lemma reads_data data ns : zlen data < 2 ^ 64 -> Forall (fun n => 0 <= n) ns -> forall qb,
  qb_data qb = data -> qb_length qb = zlen data -> 0 <= qb_read_offset qb <= zlen data ->
  exists qb' os, reads qb ns = Ok (qb', os) /\
    concat os = take (Z.to_nat (total ns)) (drop (Z.to_nat (qb_read_offset qb)) data).
Proof.
  intros Hm Hns. induction Hns as [|n ns Hn Hns IH]; intros qb Hd Hlen Hr.
  - exists qb, []. split; [done|]. cbn. by rewrite take_0.
  - assert (Ht : 0 <= total ns) by (clear - Hns; unfold total; induction Hns; cbn; lia).
    cbn [reads total foldr]. fold (total ns). unfold io_queue_buffer_stream_reader.
    rewrite Hlen, u64_id by (unfold in_u64; lia).
    case_bool_decide as H0; [|case_bool_decide as Hpos].
    + destruct (IH qb Hd Hlen Hr) as (qb' & os & E & Ho). cbn. rewrite E. cbn.
      eexists _, _. split; [done|]. cbn. rewrite Ho. do 2 f_equal. lia.
    + set (k := Z.min (zlen data - qb_read_offset qb) n). unfold mem_read, zlen in *. rewrite Hd.
      rewrite bool_decide_eq_true_2 by lia. cbn [chk mbind res_bind].
      destruct (IH (set_read qb (qb_read_offset qb + k))) as (qb' & os & E & Ho); cbn; [done|done|lia|].
      rewrite E. cbn. eexists _, _. split; [done|]. cbn [concat]. rewrite Ho. cbn [set_read qb_read_offset].
      replace (Z.to_nat (qb_read_offset qb + k)) with (Z.to_nat (qb_read_offset qb) + Z.to_nat k)%nat by lia.
      rewrite <- drop_drop. set (r := drop (Z.to_nat (qb_read_offset qb)) data).
      assert (Hlr : length r = (length data - Z.to_nat (qb_read_offset qb))%nat) by apply length_drop.
      replace (Z.to_nat (n + total ns)) with (Z.to_nat n + Z.to_nat (total ns))%nat by lia.
      destruct (decide (n <= Z.of_nat (length data) - qb_read_offset qb)).
      * assert (k = n) as -> by lia. by rewrite take_take_drop.
      * rewrite (take_ge r (Z.to_nat k)), (drop_ge r) by lia. rewrite take_nil, app_nil_r, take_ge by lia. done.
    + destruct (IH qb Hd Hlen Hr) as (qb' & os & E & Ho). cbn. rewrite E. cbn.
      eexists _, _. split; [done|]. cbn. rewrite Ho, !drop_ge, !take_nil by (unfold zlen in *; lia). done.
Qed.

(** Writing chunks to a new buffer of [len] bytes always succeeds and stores the
    first [len] bytes of what was written, dropping the rest; reading then returns
    the bytes of the buffer from its start, in pieces of the sizes asked for, up to
    its length and not only up to what was written. *)
Lemma queue_buffer_stream header mem cs ns :
  0 <= header -> header <= zlen mem -> zlen mem < 2 ^ 64 -> Forall (fun n => 0 <= n) ns ->
  let room := drop (Z.to_nat header) mem in
  let w := take (length room) (concat cs) in
  exists qb qb' os,
    writes (new_buffer header mem None (zlen room)) cs = Ok qb /\
    qb_data qb = w ++ drop (length w) room /\
    io_queue_buffer_stream_writeable qb = zlen room - zlen w /\
    reads qb ns = Ok (qb', os) /\ concat os = take (Z.to_nat (total ns)) (qb_data qb).
Proof.
  intros Hh Hm Hmax Hns room w.
  assert (Hroom : zlen room <= zlen mem) by (unfold room, zlen; rewrite length_drop; lia).
  assert (H0 : written room [] (new_buffer header mem None (zlen room))).
  { unfold written, new_buffer. cbn.
    repeat split. apply zlen_nonneg. }
  destruct (writes_written room cs ltac:(lia) [] _ H0) as (qb & E & Hlen & Hr & Hw & Ho & Hd).
  cbn [app] in Hw, Ho, Hd. fold w in Hw, Ho, Hd.
  assert (Hld : zlen (qb_data qb) = zlen room).
  { rewrite Hd. unfold zlen in *. rewrite length_app, length_drop. lia. }
  destruct (reads_data (qb_data qb) ns ltac:(lia) Hns qb) as (qb' & os & E' & Ho');
    [done|lia|rewrite Hr; pose proof (zlen_nonneg (qb_data qb)); lia|].
  exists qb, qb', os. split; [done|]. split; [done|]. split.
  - unfold io_queue_buffer_stream_writeable. rewrite Hlen, Ho. apply u64_id.
    pose proof (zlen_nonneg w). unfold in_u64. lia.
  - split; [done|]. rewrite Ho', Hr. by rewrite drop_0.
Qed.

(** ** Examples *)

Definition links0 : @links node := fun n => (n, n).

(** Three buffers: 1 and 2 in progress, 3 ready; 1 and 3 have callbacks. *)
Definition ex_ops : list qop :=
  [QNew (Some (1, [0; 0; 7; 7])) (Some [5; 6]) 2; QNew (Some (2, [0; 0])) None 0;
   QNew (Some (3, [0; 0])) None 0; QNew None None 9; QOwn 1 (Some 100) 10; QOwn 3 (Some 300) 30;
   QSet ready (Some 1); QSet ready (Some 2); QSet ready (Some 3); QPop ready; QSet inprogress (Some 1);
   QPop ready; QSet inprogress (Some 2)].

Definition ex_end : list qop := [QRollback; QPop ready; QRelease (Some 1); QAbort; QReleaseAll].

Definition ex_queue : io_queue (@links node) :=
  match io_queue_create true (Ok tt) (Ok tt) links0 with Ok q => q | _ => mk_queue links0 ∅ [] end.

Lemma queue_refines_witness : exists q' : io_queue (@links node),
  q_run 2 ex_queue (ex_ops ++ ex_end) =
    Ok (q', [Some 1; Some 2; Some 3; None; None; None; None; None; None; Some 1; None; Some 2; None;
             None; Some 1; None; None; None]) /\
  io_queue_has_ready q' = false.
Proof.
  assert (Hs : (fun x => (snd x, a_lists (fst x) ready)) <$> a_run 2 a_empty (ex_ops ++ ex_end) =
    Some ([Some 1; Some 2; Some 3; None; None; None; None; None; None; Some 1; None; Some 2; None;
           None; Some 1; None; None; None], [])) by (vm_compute; reflexivity).
  destruct (a_run 2 a_empty (ex_ops ++ ex_end)) as [[a rs]|] eqn:E; [|discriminate Hs].
  injection Hs as -> Hl.
  destruct (queue_refines (D := @links node) 2 (Ok tt) (Ok tt) links0 ex_queue _ _ _ eq_refl E)
    as (q' & E' & _ & Hp & _).
  exists q'. split; [exact E'|]. rewrite Hp, Hl. reflexivity.
Defined.

Lemma ex_rep : exists q : io_queue (@links node),
  q_rep q (fun s => match s with ready => [3] | inprogress => [1; 2] | done_ => [] end) /\
  abort_events (q_buffers q) [1; 2; 3] = [(100, 10, er_aborted); (300, 30, er_aborted)].
Proof.
  assert (Hs : (fun x => (a_lists (fst x) ready, a_lists (fst x) inprogress, a_lists (fst x) done_,
                          abort_events (a_buffers (fst x)) [1; 2; 3])) <$> a_run 2 a_empty ex_ops =
    Some ([3], [1; 2], [], [(100, 10, er_aborted); (300, 30, er_aborted)])) by (vm_compute; reflexivity).
  destruct (a_run 2 a_empty ex_ops) as [[a rs]|] eqn:E; [|discriminate Hs]. injection Hs as H1 H2 H3 H4.
  destruct (run_refines (D := @links node) 2 ex_ops ex_queue _ _ _
    (create_refines (Ok tt) (Ok tt) links0 _ eq_refl) E) as (q & _ & [Hr Hb _ _]).
  exists q. split; [|by rewrite Hb]. eapply q_rep_ext; [|exact Hr]. by intros [].
Qed.



End IoQueue.
