(* ===== verification/IoQueueOwn.v ===== *)
(** * Queues and their users (src/io_queue.c)

    A user of a queue holds at most one buffer that it took out of a list or created; every other
    buffer is in a list.  How the operations of IoQueue change the lists and what is held. *)
From stdpp Require Import base option list numbers sets gmap.
From S2P Require Import Prelude PrxTypes DList DListStore IoQueue.
Import PrxTypes DList DListStore IoQueue.
Open Scope Z_scope.

Module IoQueueOwn.

Section Own.
Context {D : Type} `{L : dlist_laws D node}.
Implicit Types (q : io_queue D) (m : gmap Z io_queue_buffer).

Lemma set_list_eq (f : lists) t l : set_list f t l t = l.
Proof. unfold set_list. by destruct (decide (t = t)). Qed.
Lemma set_list_ne (f : lists) t u l : u <> t -> set_list f t l u = f u.
Proof. intros. unfold set_list. by destruct (decide (u = t)). Qed.

(** A queue with the lists [f], no callback of which was aborted; its user holds the buffer [h],
    and every other buffer of the queue is in a list. *)
Record own (f : lists) (h : option Z) q : Prop := {
  ow_rep : q_rep q f;
  ow_held b : h = Some b -> is_Some (q_buffers q !! b) /\ forall t, b ∉ f t;
  ow_all b : is_Some (q_buffers q !! b) -> h = Some b \/ exists t, b ∈ f t;
  ow_events : q_events q = [];
}.

Lemma own_pop f q t b l : own f None q -> f t = b :: l ->
  exists q', io_queue_state_pop q t = Ok (q', Some b) /\ own (set_list f t l) (Some b) q' /\ q_buffers q' = q_buffers q.
Proof.
  intros [Hr _ Hall Hev] E. pose proof (pop_spec q f t Hr) as Hp. rewrite E in Hp. destruct Hp as (q' & E1 & Hr' & E2 & E3).
  assert (Hbt : b ∈ f t) by (rewrite E; apply list_elem_of_here).
  exists q'. split_and!; try done. split; rewrite ?E2, ?E3; try done.
  - intros ? [= <-]. split; [by eapply q_stored|]. assert (Hn := q_nodup _ _ t Hr). rewrite E in Hn.
    apply list.NoDup_cons in Hn as [Hb _]. intros v. destruct (decide (v = t)) as [->|Hv]; [by rewrite set_list_eq|].
    rewrite set_list_ne by done. intros Hbv. apply Hv. by apply (q_once _ _ Hr v t b).
  - intros x Hx. destruct (Hall x Hx) as [|[v Hv]]; [done|]. destruct (decide (x = b)) as [->|Hxb]; [by left|].
    right. exists v. destruct (decide (v = t)) as [->|]; [|by rewrite set_list_ne]. rewrite set_list_eq.
    rewrite E in Hv. apply elem_of_cons in Hv as [|]; done.
Qed.

Lemma own_push f q t b qb : own f (Some b) q -> q_buffers q !! b = Some qb -> qb_queue qb = true ->
  exists q', set_state q t (Some b) = Ok q' /\ own (set_list f t (f t ++ [b])) None q' /\ q_buffers q' = q_buffers q.
Proof.
  intros [Hr Hh Hall Hev] Eb Hq. destruct (Hh b eq_refl) as [Hs Hn].
  exists (io_queue_state_push q t b). cbn [set_state]. rewrite Eb. cbn [chk mbind res_bind]. rewrite Hq. split_and!; try done.
  split; try done.
  - eapply q_rep_ext; [|by apply push_q_rep]. intros u. unfold push, set_list. by case_decide; subst; rewrite rm_not_in.
  - intros x Hx. right. destruct (Hall x Hx) as [[= ->]|[v Hv]].
    + exists t. rewrite set_list_eq. apply elem_of_app. right. by apply list_elem_of_singleton.
    + exists v. destruct (decide (v = t)) as [->|]; [rewrite set_list_eq; apply elem_of_app; by left|by rewrite set_list_ne].
Qed.

Definition put q b qb : io_queue D := mk_queue (q_links q) (<[b := qb]> (q_buffers q)) (q_events q).

Lemma own_put f h q b qb : own f h q -> is_Some (q_buffers q !! b) -> own f h (put q b qb).
Proof.
  intros [Hr Hh Hall Hev] Hb. assert (Hs : forall x, is_Some (<[b := qb]> (q_buffers q) !! x) <-> is_Some (q_buffers q !! x)).
  { intros x. destruct (decide (x = b)) as [->|]; [rewrite lookup_insert_eq; split; eauto|by rewrite lookup_insert_ne]. }
  split; cbn; try done.
  - destruct q as [d m e]. by eapply q_rep_buffers; [exact Hs|].
  - intros x Hx. rewrite Hs. auto.
  - intros x. rewrite Hs. auto.
Qed.

Lemma own_release f q b qb : own f (Some b) q -> q_buffers q !! b = Some qb -> qb_queue qb = true -> qb_cb qb = None ->
  exists q', io_queue_buffer_release q (Some b) = Ok q' /\ own f None q' /\ q_buffers q' = delete b (q_buffers q).
Proof.
  intros [Hr Hh Hall Hev] Eb Hq Hcb. destruct (Hh b eq_refl) as [_ Hn].
  destruct (buffer_release_rep q f b qb Hr Eb Hq) as (d & E & Hr'). cbv zeta in *. eexists. split_and!; [exact E| |done].
  split; cbn; try done.
  - eapply q_rep_ext; [|exact Hr']. intros t. unfold detach. by apply rm_not_in.
  - intros x Hx. destruct (decide (x = b)) as [->|]; [rewrite lookup_delete_eq in Hx; by destruct Hx|].
    rewrite lookup_delete_ne in Hx by done. destruct (Hall x Hx) as [[= ->]|]; [done|by right].
  - rewrite Hev, Eb. cbn. unfold event_of. by rewrite Hcb.
Qed.

Lemma own_new {len} header f q b mem new : own f None q -> new_ok header (q_buffers q) b mem None len ->
  new (len + header) = Some (b, mem) ->
  exists q', io_queue_create_buffer header new q None len = Ok (q', b) /\ own f (Some b) q' /\
    q_buffers q' = <[b := new_buffer header mem None len]> (q_buffers q).
Proof.
  intros [Hr Hh Hall Hev] Hnew En. destruct (create_buffer_rep _ _ _ _ _ None _ new Hr Hnew En) as (d & E & Hr').
  cbv zeta in *. eexists. split_and!; [exact E| |done]. destruct Hnew as (Hb & _). split; cbn; try done.
  - intros ? [= <-]. rewrite lookup_insert_eq. split; [eauto|]. intros t Hbt. destruct (q_stored _ _ Hr t b Hbt). congruence.
  - intros x Hx. destruct (decide (x = b)) as [->|]; [by left|]. rewrite lookup_insert_ne in Hx by done.
    destruct (Hall x Hx) as [|]; [done|by right].
Qed.

Lemma own_ext f g h q : (forall t, f t = g t) -> own f h q -> own g h q.
Proof.
  intros E [Hr Hh Hall Hev]. split; [by eapply q_rep_ext|..|done].
  - intros b Hb. destruct (Hh b Hb) as [? Hn]. split; [done|]. intros t. rewrite <- E. apply Hn.
  - intros b Hb. destruct (Hall b Hb) as [|[t Ht]]; [by left|]. right. exists t. by rewrite <- E.
Qed.

Lemma held_fresh f b q bs t : own f (Some b) q -> f t = bs -> forall x, x ∈ bs -> x <> b.
Proof. intros Ho <- x Hx ->. by apply (ow_held _ _ _ Ho b eq_refl) in Hx. Qed.

Definition only (t : qstate) (bs : list Z) : lists := set_list (fun _ => []) t bs.

Lemma only_snoc bs b t : set_list (only ready bs) ready (only ready bs ready ++ [b]) t = only ready (bs ++ [b]) t.
Proof. unfold only, set_list. by destruct (decide (t = ready)). Qed.

(** The current buffer [b] with [d] is put in the list of the ready ones. *)
Lemma push_ready bs b qb' q : own (only ready bs) (Some b) q -> is_Some (q_buffers q !! b) -> qb_queue qb' = true ->
  exists q', io_queue_buffer_set_ready (put q b qb') (Some b) = Ok q' /\ own (only ready (bs ++ [b])) None q' /\
    q_buffers q' !! b = Some qb' /\ forall x, x <> b -> q_buffers q' !! x = q_buffers q !! x.
Proof.
  intros Ho Hb Hq. destruct (own_push (only ready bs) (put q b qb') ready b qb') as (q' & E & Ho' & Em);
    [by apply own_put|apply lookup_insert_eq|done|].
  exists q'. split_and!; [done|by eapply own_ext; [apply only_snoc|]|rewrite Em; apply lookup_insert_eq|].
  intros x Hx. rewrite Em. by apply lookup_insert_ne.
Qed.

End Own.
End IoQueueOwn.
