(* ===== verification/IoWs.v ===== *)
(** * Websocket connections (src/io_ws.c)

    A connection sends and receives messages as frames.  The sender of a message writes to
    a stream that fills buffers of 4096 bytes of the outbound queue; the websocket client
    of the platform layer takes them and fills buffers of the inbound queue with what
    it receives; the receiver reads a message through a stream over these buffers.
    Model: a state monad over the connection, whose queues are those of IoQueue, the tasks
    that are queued, the clock and a trace of the calls to the outside, whose answers an
    environment chooses. *)
From Stdlib Require Import String.
From stdpp Require Import base option list numbers sets gmap.
From S2P Require Import Prelude PrxTypes UtilString UtilInt UtilKey IoToken IoUrl DList DListStore IoQueue.
Import PrxTypes UtilString UtilInt UtilKey IoUrl DList DListStore IoQueue.
Open Scope Z_scope.

Module IoWs.

Definition DEFAULT_FRAME_SIZE : Z := 4096.

(** [pal_wsclient_buffer_type_t] *)
Definition type_unknown : Z := 0.
Definition type_binary_msg : Z := 1.
Definition type_binary_fragment : Z := 2.

Inductive io_ws_connection_status :=
| io_ws_connection_status_connected
| io_ws_connection_status_disconnected
| io_ws_connection_status_closing
| io_ws_connection_status_closed.

#[export] Instance io_ws_connection_status_eq_dec : EqDecision io_ws_connection_status.
Proof. solve_decision. Defined.

(** [current]: the buffer that is written to or read from. *)
Record io_ws_stream (D : Type) := Stream {
  queue : io_queue D;
  current : option Z;
  readable : Z;
}.
Arguments Stream {D}. Arguments queue {D}. Arguments current {D}. Arguments readable {D}.

(** The handles of the client and of the scheduler: whether they are set;
    [reconnect_cb]: its context. *)
Record io_ws_connection (D : Type) := Conn {
  address : io_url;
  user_header_key : option bytes;
  pwd_header_key : option bytes;
  expiry : Z;
  keep_alive_interval : Z;
  wsclient : bool;
  scheduler : bool;
  outbound : io_ws_stream D;
  inbound : io_ws_stream D;
  last_activity : Z;
  last_success : Z;
  reconnect_cb : option Z;
  back_off_in_seconds : Z;
  status : io_ws_connection_status;
}.
Arguments Conn {D}. Arguments address {D}. Arguments user_header_key {D}. Arguments pwd_header_key
{D}. Arguments expiry {D}. Arguments keep_alive_interval {D}. Arguments wsclient {D}. Arguments
scheduler {D}. Arguments outbound {D}. Arguments inbound {D}. Arguments last_activity {D}. Arguments
last_success {D}. Arguments reconnect_cb {D}. Arguments back_off_in_seconds {D}. Arguments status
{D}.

Definition set_expiry {D} (v : Z) (c : io_ws_connection D) : io_ws_connection D := Conn (address c)
  (user_header_key c) (pwd_header_key c) v (keep_alive_interval c) (wsclient c) (scheduler c)
  (outbound c) (inbound c) (last_activity c) (last_success c) (reconnect_cb c) (back_off_in_seconds
  c) (status c).
Definition set_wsclient {D} (v : bool) (c : io_ws_connection D) : io_ws_connection D := Conn
  (address c) (user_header_key c) (pwd_header_key c) (expiry c) (keep_alive_interval c) v (scheduler
  c) (outbound c) (inbound c) (last_activity c) (last_success c) (reconnect_cb c)
  (back_off_in_seconds c) (status c).
Definition set_outbound {D} (v : io_ws_stream D) (c : io_ws_connection D) : io_ws_connection D :=
  Conn (address c) (user_header_key c) (pwd_header_key c) (expiry c) (keep_alive_interval c)
  (wsclient c) (scheduler c) v (inbound c) (last_activity c) (last_success c) (reconnect_cb c)
  (back_off_in_seconds c) (status c).
Definition set_inbound {D} (v : io_ws_stream D) (c : io_ws_connection D) : io_ws_connection D :=
  Conn (address c) (user_header_key c) (pwd_header_key c) (expiry c) (keep_alive_interval c)
  (wsclient c) (scheduler c) (outbound c) v (last_activity c) (last_success c) (reconnect_cb c)
  (back_off_in_seconds c) (status c).
Definition set_last_activity {D} (v : Z) (c : io_ws_connection D) : io_ws_connection D := Conn
  (address c) (user_header_key c) (pwd_header_key c) (expiry c) (keep_alive_interval c) (wsclient c)
  (scheduler c) (outbound c) (inbound c) v (last_success c) (reconnect_cb c) (back_off_in_seconds c)
  (status c).
Definition set_last_success {D} (v : Z) (c : io_ws_connection D) : io_ws_connection D := Conn
  (address c) (user_header_key c) (pwd_header_key c) (expiry c) (keep_alive_interval c) (wsclient c)
  (scheduler c) (outbound c) (inbound c) (last_activity c) v (reconnect_cb c) (back_off_in_seconds
  c) (status c).
Definition set_reconnect_cb {D} (v : option Z) (c : io_ws_connection D) : io_ws_connection D := Conn
  (address c) (user_header_key c) (pwd_header_key c) (expiry c) (keep_alive_interval c) (wsclient c)
  (scheduler c) (outbound c) (inbound c) (last_activity c) (last_success c) v (back_off_in_seconds
  c) (status c).
Definition set_back_off_in_seconds {D} (v : Z) (c : io_ws_connection D) : io_ws_connection D := Conn
  (address c) (user_header_key c) (pwd_header_key c) (expiry c) (keep_alive_interval c) (wsclient c)
  (scheduler c) (outbound c) (inbound c) (last_activity c) (last_success c) (reconnect_cb c) v
  (status c).
Definition set_status {D} (v : io_ws_connection_status) (c : io_ws_connection D) : io_ws_connection
  D := Conn (address c) (user_header_key c) (pwd_header_key c) (expiry c) (keep_alive_interval c)
  (wsclient c) (scheduler c) (outbound c) (inbound c) (last_activity c) (last_success c)
  (reconnect_cb c) (back_off_in_seconds c) v.

(** ** Calls and tasks *)

Inductive task :=
| t_disconnect
| t_free
| t_reset
| t_reconnect
| t_deliver_stream
| t_deliver_send_results
| t_on_disconnected
| t_on_connected
| t_monitor.

#[export] Instance task_eq_dec : EqDecision task.
Proof. solve_decision. Defined.

(** [c_buffer]: a block of the pool of a queue, whose buffers are given; [c_complete]:
    the callback of a sender; [c_on_stream]: the receiver was called, [value]: what it
    made of the stream, and [result] what it returned. *)
Inductive call : Type -> Type :=
| c_alloc : call bool
| c_task_entry : call bool
| c_buffer (used : gmap Z io_queue_buffer) (size : Z) : call (option (Z * bytes))
| c_url_clone (url : io_url) : call prx_error
| c_url_free (url : io_url) : call unit
| c_scheduler_create : call prx_error
| c_scheduler_release : call unit
| c_queue_lock : call (res unit)
| c_queue_pool : call (res unit)
| c_new_token (provider : nat) : call (bytes * Z + prx_error)
| c_token_policy (provider : nat) : call (option bytes)
| c_client_create (host : option bytes) (port : Z) (path : option bytes) : call prx_error
| c_client_add_header (key value : bytes) : call prx_error
| c_client_connect : call prx_error
| c_client_can_recv : call prx_error
| c_client_can_send : call prx_error
| c_client_disconnect : call prx_error
| c_client_close : call unit
| c_on_reconnect (ctx : Z) : call bool
| c_on_stream (value : bytes) (result : prx_error) : call unit
| c_complete (cb ctx : Z) (result : prx_error) : call unit.

Inductive event := ev (A : Type) (c : call A) (a : A).
Arguments ev {A}.

(** The receiver and the sender of a message are callers of their stream: what they do next
    depends on what the stream returned before. *)
Inductive receiver :=
| r_done (value : bytes) (result : prx_error)
| r_read (count : Z) (k : prx_error -> bytes -> receiver)
| r_readable (k : Z -> receiver).

Inductive sender :=
| s_done (result : prx_error)
| s_write (data : bytes) (k : prx_error -> sender)
| s_writeable (k : Z -> sender)
| s_reset (k : prx_error -> sender).

(** [w_conn]: [None] once the connection was freed; [w_aborted]: the callbacks that its queues
    had aborted by then. *)
Record world (D : Type) := World {
  w_conn : option (io_ws_connection D);
  w_aborted : list (Z * Z * prx_error);
  w_now : list task;
  w_later : list (Z * task);
  w_clock : Z;
  w_trace : list event;
}.
Arguments World {D}. Arguments w_conn {D}. Arguments w_aborted {D}. Arguments w_now {D}.
Arguments w_later {D}. Arguments w_clock {D}. Arguments w_trace {D}.

Definition with_conn {D} (c : option (io_ws_connection D)) (w : world D) : world D :=
  World c (w_aborted w) (w_now w) (w_later w) (w_clock w) (w_trace w).
Definition with_aborted {D} (l : list (Z * Z * prx_error)) (w : world D) : world D :=
  World (w_conn w) l (w_now w) (w_later w) (w_clock w) (w_trace w).
Definition with_tasks {D} (now : list task) (later : list (Z * task)) (w : world D) : world D :=
  World (w_conn w) (w_aborted w) now later (w_clock w) (w_trace w).
Definition with_clock {D} (t : Z) (w : world D) : world D :=
  World (w_conn w) (w_aborted w) (w_now w) (w_later w) t (w_trace w).
Definition with_trace {D} (tr : list event) (w : world D) : world D :=
  World (w_conn w) (w_aborted w) (w_now w) (w_later w) (w_clock w) tr.

Definition M (D A : Type) := world D -> res (A * world D).
#[export] Instance M_ret D : MRet (M D) := fun A a w => Ok (a, w).
#[export] Instance M_bind D : MBind (M D) := fun A B f m w => '(a, w) ← m w; f a w.

(** The two streams of a connection. *)
Inductive side := inb | outb.
Definition stream_of {D} (s : side) (c : io_ws_connection D) : io_ws_stream D :=
  match s with inb => inbound c | outb => outbound c end.
Definition set_stream {D} (s : side) (v : io_ws_stream D) (c : io_ws_connection D) : io_ws_connection D :=
  match s with inb => set_inbound v c | outb => set_outbound v c end.
Definition set_queue {D} (q : io_queue D) (s : io_ws_stream D) : io_ws_stream D := Stream q (current s) (readable s).
Definition set_current {D} (b : option Z) (s : io_ws_stream D) : io_ws_stream D := Stream (queue s) b (readable s).
Definition set_readable {D} (n : Z) (s : io_ws_stream D) : io_ws_stream D := Stream (queue s) (current s) n.

Definition set_flags (f : Z) (qb : io_queue_buffer) : io_queue_buffer :=
  mk_buffer (qb_queue qb) (qb_cb qb) (qb_ctx qb) f (qb_code qb) (qb_write_offset qb) (qb_read_offset qb) (qb_length qb) (qb_data qb).
Definition set_code (e : prx_error) (qb : io_queue_buffer) : io_queue_buffer :=
  mk_buffer (qb_queue qb) (qb_cb qb) (qb_ctx qb) (qb_flags qb) e (qb_write_offset qb) (qb_read_offset qb) (qb_length qb) (qb_data qb).
Definition set_content (data : bytes) (len : Z) (qb : io_queue_buffer) : io_queue_buffer :=
  mk_buffer (qb_queue qb) (qb_cb qb) (qb_ctx qb) (qb_flags qb) (qb_code qb) (qb_write_offset qb) (qb_read_offset qb) len data.

Fixpoint insert_later (d : Z) (t : task) (l : list (Z * task)) : list (Z * task) :=
  match l with
  | [] => [(d, t)]
  | x :: l' => if bool_decide (d < fst x) then (d, t) :: l else x :: insert_later d t l'
  end.

Section Model.
Context {D : Type} `{dlist D node}.
Variable env : forall A, list event -> call A -> A.
(** The size of the structure in front of the bytes of a buffer. *)
Variable header : Z.
(** The receiver that is called, given the calls before. *)
Variable receive : list event -> receiver.
Abbreviation M := (M D).

Definition ub {A} : M A := fun _ => UB.
Definition lift {A} (r : res A) : M A := fun w => a ← r; Ok (a, w).
(** A call whose error is handled. *)
Definition try {A} (r : res A) : M (A + prx_error) := fun w =>
  match r with Ok a => Ok (inl a, w) | Err e => Ok (inr e, w) | UB => UB end.
Definition do_call {A} (c : call A) : M A := fun w =>
  let x := env A (w_trace w) c in Ok (x, with_trace (w_trace w ++ [ev c x]) w).
Definition get_conn : M (io_ws_connection D) := fun w => c ← chk (w_conn w); Ok (c, w).
Definition mod_conn (f : io_ws_connection D -> io_ws_connection D) : M unit := fun w =>
  c ← chk (w_conn w); Ok (tt, with_conn (Some (f c)) w).
Definition put_conn (c : option (io_ws_connection D)) : M unit := fun w => Ok (tt, with_conn c w).
Definition mod_stream (s : side) (f : io_ws_stream D -> io_ws_stream D) : M unit :=
  mod_conn (fun c => set_stream s (f (stream_of s c)) c).
Definition put_aborted (l : list (Z * Z * prx_error)) : M unit := fun w => Ok (tt, with_aborted l w).
Definition get_receiver : M receiver := fun w => Ok (receive (w_trace w), w).
Definition ticks_get : M Z := fun w => Ok (w_clock w, w).

(** Operations of a queue. *)
Definition on_queue {A} (s : side) (f : io_queue D -> res (io_queue D * A)) : M A :=
  c ← get_conn;
  '(q, a) ← lift (f (queue (stream_of s c)));
  mod_stream s (set_queue q);;
  mret a.
Definition unit_op (f : io_queue D -> res (io_queue D)) (q : io_queue D) : res (io_queue D * unit) := q ← f q; Ok (q, tt).
Definition release_buffer (s : side) (b : option Z) : M unit := on_queue s (unit_op (fun q => io_queue_buffer_release q b)).
Definition get_buffer (s : side) (b : Z) : M io_queue_buffer :=
  c ← get_conn; lift (chk (q_buffers (queue (stream_of s c)) !! b)).
Definition put_buffer (s : side) (b : Z) (qb : io_queue_buffer) : M unit :=
  on_queue s (fun q => Ok (mk_queue (q_links q) (<[b := qb]> (q_buffers q)) (q_events q), tt)).
Definition mod_buffer (s : side) (b : Z) (f : io_queue_buffer -> io_queue_buffer) : M unit :=
  qb ← get_buffer s b; put_buffer s b (f qb).

(** [inr]: the error of [io_queue_create_buffer]. *)
Definition create_buffer (s : side) : M (Z + prx_error) :=
  c ← get_conn;
  block ← do_call (c_buffer (q_buffers (queue (stream_of s c))) (u64 (DEFAULT_FRAME_SIZE + header)));
  r ← try (io_queue_create_buffer header (fun _ => block) (queue (stream_of s c)) None DEFAULT_FRAME_SIZE);
  match r with
  | inl (q, b) => mod_stream s (set_queue q);; mret (inl b)
  | inr e => mret (inr e)
  end.

(** [prx_scheduler_queue] and [prx_scheduler_clear]. *)
Definition schedule (t : task) (delay : Z) : M unit :=
  c ← get_conn;
  if negb (scheduler c) then mret tt
  else
    ok ← do_call c_task_entry;
    if negb ok then mret tt
    else fun w =>
      if bool_decide (delay = 0) then Ok (tt, with_tasks (w_now w ++ [t]) (w_later w) w)
      else Ok (tt, with_tasks (w_now w) (insert_later (w_clock w + delay) t (w_later w)) w).
Definition clear (p : task -> bool) : M unit := fun w =>
  Ok (tt, with_tasks (filter (fun t => p t = false) (w_now w)) (filter (fun x => p (snd x) = false) (w_later w)) w).
Definition do_next (t : task) : M unit := schedule t 0.
Definition do_later (t : task) (delay : Z) : M unit :=
  clear (fun u => bool_decide (u = t));; schedule t delay.

(** ** Streams *)

Definition io_ws_connection_disconnect : M unit :=
  on_queue outb (unit_op (fun q => Ok (io_queue_rollback q)));;
  c ← get_conn;
  if bool_decide (status c = io_ws_connection_status_connected)
  then _ ← do_call c_client_disconnect; mret tt else mret tt.

(** The buffer to read from: the current one or the next in progress. *)
Definition inbound_current : M (option Z) :=
  c ← get_conn;
  match current (inbound c) with
  | Some b => mret (Some b)
  | None =>
      b ← on_queue inb io_queue_pop_inprogress;
      mod_stream inb (set_current b);;
      mret b
  end.

(** [out]: what was read so far.  A round reads a byte or more, or releases a buffer. *)
Fixpoint reader_loop (fuel : nat) (count : Z) (out : bytes) : M (prx_error * bytes) :=
  if bool_decide (count <= 0) then mret (er_ok, out)
  else match fuel with
  | O => ub
  | S fuel =>
      b ← inbound_current;
      match b with
      | None => mret (er_reading, out)
      | Some b =>
          qb ← get_buffer inb b;
          '(qb, data) ← lift (io_queue_buffer_stream_reader qb count);
          put_buffer inb b qb;;
          (if bool_decide (qb_length qb = qb_read_offset qb)
           then release_buffer inb (Some b);; mod_stream inb (set_current None) else mret tt);;
          mod_stream inb (fun s => set_readable (u64 (readable s - zlen data)) s);;
          reader_loop fuel (count - zlen data) (out ++ data)
      end
  end.

Definition io_ws_connection_stream_reader (count : Z) : M (prx_error * bytes) :=
  c ← get_conn;
  reader_loop (Z.to_nat count + size (q_buffers (queue (inbound c)))) count [].

Definition io_ws_connection_stream_readable : M Z := c ← get_conn; mret (readable (inbound c)).

Fixpoint drain_ready (fuel : nat) (s : side) : M unit :=
  match fuel with
  | O => ub
  | S fuel =>
      b ← on_queue s io_queue_pop_ready;
      match b with None => mret tt | Some b => release_buffer s (Some b);; drain_ready fuel s end
  end.

(** The reset of the outbound stream takes the buffers that are ready in the inbound queue. *)
Definition io_ws_connection_stream_reset : M prx_error :=
  c ← get_conn;
  drain_ready (S (size (q_buffers (queue (inbound c))))) inb;;
  c ← get_conn;
  let buffer := current (outbound c) in
  mod_stream outb (set_current None);;
  match buffer with Some b => release_buffer outb (Some b) | None => mret tt end;;
  mret er_ok.

(** The buffer to write to and the room in it. *)
Definition outbound_current : M (Z * Z + prx_error) :=
  c ← get_conn;
  full ← match current (outbound c) with
    | None => mret None
    | Some b =>
        qb ← get_buffer outb b;
        let avail := u64 (qb_length qb - qb_write_offset qb) in
        if bool_decide (avail = 0) then
          mod_buffer outb b (set_flags type_binary_fragment);;
          on_queue outb (unit_op (fun q => io_queue_buffer_set_ready q (Some b)));;
          mod_stream outb (set_current None);;
          mret None
        else mret (Some (b, avail))
    end;
  match full with
  | Some x => mret (inl x)
  | None =>
      b ← create_buffer outb;
      match b with
      | inl b => mod_stream outb (set_current (Some b));; mret (inl (b, DEFAULT_FRAME_SIZE))
      | inr e => mret (inr e)
      end
  end.

(** A round writes a byte or more. *)
Fixpoint writer_loop (fuel : nat) (buf : bytes) : M prx_error :=
  match buf with
  | [] => mret er_ok
  | _ =>
      match fuel with
      | O => ub
      | S fuel =>
          x ← outbound_current;
          match x with
          | inr e => mret e
          | inl (b, avail) =>
              let to_write := Z.min (zlen buf) avail in
              qb ← get_buffer outb b;
              r ← try (io_queue_buffer_stream_writer qb (Some buf) to_write);
              match r with
              | inl qb => put_buffer outb b qb;; writer_loop fuel (drop (Z.to_nat to_write) buf)
              | inr e => mret e
              end
          end
      end
  end.

Definition io_ws_connection_stream_writer (data : bytes) : M prx_error := writer_loop (length data) data.

(** [(size_t)-1] *)
Definition io_ws_connection_stream_writeable : Z := 2 ^ 64 - 1.

(** Runs of the caller of a stream. *)
Fixpoint run_receiver (r : receiver) : M (bytes * prx_error) :=
  match r with
  | r_done value result => mret (value, result)
  | r_read count k => '(e, data) ← io_ws_connection_stream_reader count; run_receiver (k e data)
  | r_readable k => n ← io_ws_connection_stream_readable; run_receiver (k n)
  end.

Fixpoint run_sender (s : sender) : M prx_error :=
  match s with
  | s_done result => mret result
  | s_write data k => e ← io_ws_connection_stream_writer data; run_sender (k e)
  | s_writeable k => run_sender (k io_ws_connection_stream_writeable)
  | s_reset k => e ← io_ws_connection_stream_reset; run_sender (k e)
  end.

(** ** Tasks *)

Definition io_ws_connection_free : M unit :=
  mod_conn (set_status io_ws_connection_status_closing);;
  c ← get_conn;
  if bool_decide (status c = io_ws_connection_status_connected)
  then _ ← do_call c_client_disconnect; mret tt
  else if wsclient c then do_call c_client_close
  else
    mod_conn (set_status io_ws_connection_status_closed);;
    (if scheduler c then clear (fun _ => true);; do_call c_scheduler_release else mret tt);;
    release_buffer inb (current (inbound c));;
    on_queue inb (unit_op (fun q => io_queue_free q true));;
    release_buffer outb (current (outbound c));;
    on_queue outb (unit_op (fun q => io_queue_free q true));;
    do_call (c_url_free (address c));;
    c ← get_conn;
    put_aborted (q_events (queue (inbound c)) ++ q_events (queue (outbound c)));;
    put_conn None.

Definition io_ws_connection_clear_failures : M unit :=
  now ← ticks_get;
  mod_conn (fun c => set_back_off_in_seconds 0 (set_last_activity now (set_last_success now c))).

Definition next_ws_back_off (b : Z) : Z :=
  let b := i32 ((if bool_decide (b = 0) then 1 else b) * 2) in
  if bool_decide (b > 1 * 60 * 60) then 1 * 60 * 60 else b.

Definition io_ws_connection_reset : M unit :=
  clear (fun _ => true);;
  c ← get_conn;
  again ← match reconnect_cb c with Some ctx => do_call (c_on_reconnect ctx) | None => mret true end;
  if negb again then mret tt
  else
    c ← get_conn;
    do_later t_reconnect (u32 (back_off_in_seconds c * 1000));;
    mod_conn (fun c => set_status io_ws_connection_status_disconnected
      (set_back_off_in_seconds (next_ws_back_off (back_off_in_seconds c)) c)).

(** Moves the frames of a message in progress and calls the receiver at its last one. *)
Fixpoint deliver_loop (fuel : nat) : M unit :=
  match fuel with
  | O => ub
  | S fuel =>
      b ← on_queue inb io_queue_pop_ready;
      match b with
      | None => ub
      | Some b =>
          qb ← get_buffer inb b;
          mod_stream inb (fun s => set_readable (u64 (readable s + qb_length qb)) s);;
          on_queue inb (unit_op (fun q => io_queue_buffer_set_inprogress q (Some b)));;
          if bool_decide (qb_flags qb <> type_binary_msg) then deliver_loop fuel
          else
            r ← get_receiver;
            '(value, result) ← run_receiver r;
            do_call (c_on_stream value result);;
            c ← get_conn;
            release_buffer inb (current (inbound c));;
            mod_stream inb (fun s => set_readable 0 (set_current None s));;
            if bool_decide (result <> er_ok) then do_next t_disconnect
            else io_ws_connection_clear_failures
      end
  end.

Definition io_ws_connection_deliver_stream : M unit :=
  mod_stream inb (set_readable 0);;
  c ← get_conn;
  deliver_loop (S (size (q_buffers (queue (inbound c))))).

Fixpoint results_loop (fuel : nat) : M unit :=
  match fuel with
  | O => ub
  | S fuel =>
      b ← on_queue outb io_queue_pop_done;
      match b with
      | None => mret tt
      | Some b =>
          qb ← get_buffer outb b;
          put_buffer outb b (set_code er_ok (set_cb None 0 qb));;
          release_buffer outb (Some b);;
          match qb_cb qb with Some cb => do_call (c_complete cb (qb_ctx qb) (qb_code qb)) | None => mret tt end;;
          results_loop fuel
      end
  end.

Definition io_ws_connection_deliver_send_results : M unit :=
  c ← get_conn;
  results_loop (S (size (q_buffers (queue (outbound c))))).

Definition io_ws_connection_on_disconnected : M unit :=
  c ← get_conn;
  match status c with
  | io_ws_connection_status_closing => do_next t_free
  | io_ws_connection_status_connected =>
      mod_conn (set_status io_ws_connection_status_disconnected);;
      do_next t_reset
  | _ => mret tt
  end.

Definition io_ws_connection_on_connected : M unit :=
  now ← ticks_get;
  mod_conn (fun c => set_last_activity now (set_status io_ws_connection_status_connected c));;
  _ ← do_call c_client_can_send;
  _ ← do_call c_client_can_recv;
  mret tt.

(** ** Events of the websocket client *)

Definition io_ws_connection_on_begin_receive : M (option Z) :=
  b ← create_buffer inb;
  match b with inl b => mret (Some b) | inr _ => mret None end.

(** [data]: what the client stored in the buffer; [type]: the kind of frame. *)
Definition io_ws_connection_on_end_receive (buf : option Z) (data : bytes) (type : Z) (result : prx_error) : M unit :=
  match buf with
  | None => mret tt
  | Some b =>
      if bool_decide (result <> er_ok) then
        release_buffer inb (Some b);;
        if bool_decide (result <> er_aborted) then do_next t_disconnect else mret tt
      else
        qb ← get_buffer inb b;
        mem ← lift (chk (mem_write (qb_data qb) 0 data));
        put_buffer inb b (set_flags type (set_content mem (zlen data) qb));;
        on_queue inb (unit_op (fun q => io_queue_buffer_set_ready q (Some b)));;
        if bool_decide (type = type_binary_msg) then do_next t_deliver_stream else mret tt
  end.

(** The buffer, the bytes to send and the kind of frame. *)
Definition io_ws_connection_on_begin_send : M (option (Z * bytes * Z)) :=
  b ← on_queue outb io_queue_pop_ready;
  match b with
  | None => mret None
  | Some b =>
      qb ← get_buffer outb b;
      data ← lift (chk (mem_read (qb_data qb) 0 (qb_write_offset qb)));
      mret (Some (b, data, qb_flags qb))
  end.

Fixpoint all_done (fuel : nat) : M unit :=
  match fuel with
  | O => ub
  | S fuel =>
      b ← on_queue outb io_queue_pop_inprogress;
      match b with
      | None => mret tt
      | Some b => on_queue outb (unit_op (fun q => io_queue_buffer_set_done q (Some b)));; all_done fuel
      end
  end.

Definition io_ws_connection_on_end_send (buf : option Z) (result : prx_error) : M unit :=
  match buf with
  | None => mret tt
  | Some b =>
      mod_buffer outb b (set_code result);;
      on_queue outb (unit_op (fun q => io_queue_buffer_set_inprogress q (Some b)));;
      qb ← get_buffer outb b;
      c ← get_conn;
      if bool_decide (result = er_ok /\ qb_flags qb = type_binary_msg) then
        all_done (S (size (q_buffers (queue (outbound c)))));;
        do_next t_deliver_send_results
      else if bool_decide (result <> er_ok /\ result <> er_aborted) then do_next t_disconnect
      else mret tt
  end.

Inductive pal_wsclient_event :=
| e_connected (error : prx_error)
| e_disconnected (error : prx_error)
| e_closed
| e_begin_recv
| e_end_recv (buf : option Z) (data : bytes) (type : Z) (error : prx_error)
| e_begin_send
| e_end_send (buf : option Z) (error : prx_error).

(** What the event returns through its pointers. *)
Inductive answer :=
| a_none
| a_buffer (b : option Z)
| a_frame (f : option (Z * bytes * Z)).

Definition io_ws_connection_event_handler (e : pal_wsclient_event) : M answer :=
  match e with
  | e_connected error =>
      if bool_decide (error = er_ok) then do_next t_on_connected;; mret a_none
      else
        mod_conn (set_status io_ws_connection_status_connected);;
        do_next t_on_disconnected;;
        mret a_none
  | e_disconnected _ => do_next t_on_disconnected;; mret a_none
  | e_closed => mod_conn (set_wsclient false);; do_next t_free;; mret a_none
  | e_begin_recv => b ← io_ws_connection_on_begin_receive; mret (a_buffer b)
  | e_end_recv buf data type error => io_ws_connection_on_end_receive buf data type error;; mret a_none
  | e_begin_send => f ← io_ws_connection_on_begin_send; mret (a_frame f)
  | e_end_send buf error => io_ws_connection_on_end_send buf error;; mret a_none
  end.

(** ** Connecting *)

Definition io_ws_connection_monitor : M unit :=
  now ← ticks_get;
  c ← get_conn;
  if bool_decide (expiry c <> 0 /\ expiry c < now) then do_next t_disconnect
  else
    let time_diff := u32 (now - last_activity c) in
    let later time_to_wait :=
      let time_to_wait :=
        if bool_decide (expiry c <> 0) then Z.min time_to_wait (u32 (expiry c - now)) else time_to_wait in
      do_later t_monitor time_to_wait in
    if bool_decide (time_diff >= keep_alive_interval c) then
      if bool_decide (time_diff >= u32 (2 * keep_alive_interval c)) then do_next t_disconnect
      else later (keep_alive_interval c)
    else later (keep_alive_interval c - time_diff).

(** A header of the request, whose key the user of the connection gave. *)
Definition add_header (key value : option bytes) : M prx_error :=
  match value with
  | None => mret er_ok
  | Some v => match key with None => mret er_arg | Some k => do_call (c_client_add_header k v) end
  end.

(** The first part of [io_ws_connection_reconnect]: the client and its headers. *)
Definition reconnect_wsclient : M prx_error :=
  c ← get_conn;
  if wsclient c then mret er_ok
  else
    r ← do_call (c_client_create (host_name (address c)) (port (address c)) (path (address c)));
    if bool_decide (r <> er_ok) then mret r
    else
      mod_conn (set_wsclient true);;
      login ← match token_provider (address c) with
        | None => mret (inl (None, None))
        | Some provider =>
            t ← do_call (c_new_token provider);
            match t with
            | inr e => mret (inr e)
            | inl (token, ttl) =>
                now ← ticks_get;
                mod_conn (set_expiry (now + ttl));;
                user ← do_call (c_token_policy provider);
                mret (inl (user, Some token))
            end
        end;
      match login with
      | inr e => mret e
      | inl (user, pass) =>
          r ← add_header (user_header_key c) (match user_name (address c) with Some u => Some u | None => user end);
          if bool_decide (r <> er_ok) then mret r
          else add_header (pwd_header_key c) (match password (address c) with Some p => Some p | None => pass end)
      end.

Definition io_ws_connection_reconnect : M unit :=
  r ← reconnect_wsclient;
  r ← (if bool_decide (r <> er_ok) then mret r else do_call c_client_connect);
  if bool_decide (r <> er_ok) then do_next t_reset
  else
    _ ← do_call c_client_can_recv;
    now ← ticks_get;
    mod_conn (set_last_activity now);;
    do_next t_monitor.

(** ** Operations of the user *)

(** A queue, or the error of [io_queue_create]. *)
Definition new_queue (d : D) : M (io_queue D + prx_error) :=
  ok ← do_call c_alloc;
  lock ← do_call c_queue_lock;
  pool ← do_call c_queue_pool;
  try (io_queue_create ok lock pool d).

Definition copy_key (key : option bytes) : M bool := match key with None => mret true | Some _ => do_call c_alloc end.

(** [d]: the memory of the links before.  What was made is freed again on an error. *)
Definition io_ws_connection_create (url : io_url) (user pwd : option bytes) (d : D) : M prx_error :=
  ok ← do_call c_alloc;
  if negb ok then mret er_out_of_memory
  else
    r ← do_call (c_url_clone url);
    if bool_decide (r <> er_ok) then mret r
    else
      ok1 ← copy_key user;
      ok2 ← copy_key pwd;
      if negb (ok1 && ok2) then do_call (c_url_free url);; mret er_out_of_memory
      else
        r ← do_call c_scheduler_create;
        if bool_decide (r <> er_ok) then do_call (c_url_free url);; mret r
        else
          let fail e := do_call c_scheduler_release;; do_call (c_url_free url);; mret e in
          q ← new_queue d;
          match q with
          | inr e => fail e
          | inl q_in =>
              q ← new_queue d;
              match q with
              | inr e => fail e
              | inl q_out =>
                  put_conn (Some (Conn url user pwd 0 60000 false true (Stream q_out None 0) (Stream q_in None 0)
                    0 0 None 0 io_ws_connection_status_disconnected));;
                  mret er_ok
              end
          end.

Definition io_ws_connection_connect (cb : option Z) : M prx_error :=
  mod_conn (set_reconnect_cb cb);;
  do_next t_reconnect;;
  mret er_ok.

(** [cb]: the callback of the sender, if there is one, and its context. *)
Definition io_ws_connection_send (s : sender) (cb : option Z) (ctx : Z) : M prx_error :=
  result ← run_sender s;
  c ← get_conn;
  match current (outbound c) with
  | Some b =>
      if bool_decide (result <> er_ok) then
        match cb with Some cb => do_call (c_complete cb ctx result) | None => mret tt end;;
        mret result
      else
        mod_stream outb (set_current None);;
        mod_buffer outb b (fun qb => set_cb cb ctx (set_flags type_binary_msg qb));;
        on_queue outb (unit_op (fun q => io_queue_buffer_set_ready q (Some b)));;
        if negb (wsclient c) then mret er_ok
        else
          r ← do_call c_client_can_send;
          (if bool_decide (r = er_ok) then _ ← do_call c_client_can_recv; mret tt else mret tt);;
          mret r
  | None =>
      match cb with Some cb => do_call (c_complete cb ctx result) | None => mret tt end;;
      mret result
  end.

Definition io_ws_connection_close : M prx_error :=
  mod_conn (set_reconnect_cb None);;
  on_queue outb (unit_op io_queue_abort);;
  io_ws_connection_free;;
  mret er_ok.

Definition run_task (t : task) : M unit :=
  match t with
  | t_disconnect => io_ws_connection_disconnect
  | t_free => io_ws_connection_free
  | t_reset => io_ws_connection_reset
  | t_reconnect => io_ws_connection_reconnect
  | t_deliver_stream => io_ws_connection_deliver_stream
  | t_deliver_send_results => io_ws_connection_deliver_send_results
  | t_on_disconnected => io_ws_connection_on_disconnected
  | t_on_connected => io_ws_connection_on_connected
  | t_monitor => io_ws_connection_monitor
  end.

End Model.
End IoWs.
