(* ===== verification/IoWsSpec.v ===== *)
(** * What websocket connections guarantee (src/io_ws.c)

    The streams of a connection, on top of the queues of IoQueue, are shown to be plain
    byte strings: what a sender writes is cut into frames of at most 4096 bytes, and what
    a receiver reads are the bytes of the frames of one message.  Together: a message
    that is sent over one connection is what the receiver of the other one reads. *)
From Stdlib Require Import String.
From stdpp Require Import base option list numbers sets gmap.
From S2P Require Import Prelude PrxTypes UtilString UtilInt UtilKey IoToken IoUrl DList DListStore IoQueue IoQueueOwn IoWs.
Import PrxTypes UtilString UtilInt UtilKey IoUrl DList DListStore IoQueue IoQueueOwn IoWs.
Open Scope Z_scope.

Module IoWsSpec.

(** ** Streams as byte strings *)

(** A receiver that reads from a string: its result and what it left. *)
Fixpoint ideal_receive (r : receiver) (data : bytes) : bytes * prx_error * bytes :=
  match r with
  | r_done value result => (value, result, data)
  | r_read count k =>
      let n := Z.to_nat count in
      ideal_receive (k (if bool_decide (count <= zlen data) then er_ok else er_reading) (take n data)) (drop n data)
  | r_readable k => ideal_receive (k (zlen data)) data
  end.

(** A sender that appends to a string; [None] if it resets its stream. *)
Fixpoint ideal_send (s : sender) (out : bytes) : option (prx_error * bytes) :=
  match s with
  | s_done result => Some (result, out)
  | s_write data k => ideal_send (k er_ok) (out ++ data)
  | s_writeable k => ideal_send (k io_ws_connection_stream_writeable) out
  | s_reset _ => None
  end.

(** A receiver only asks for lengths a [size_t] can have. *)
Fixpoint reads_ok (r : receiver) : Prop :=
  match r with
  | r_done _ _ => True
  | r_read count k => 0 <= count /\ forall e data, reads_ok (k e data)
  | r_readable k => forall n, reads_ok (k n)
  end.

Section Run.
Context {D : Type} `{L : dlist_laws D node}.
Implicit Types (w : world D) (c : io_ws_connection D) (s : io_ws_stream D) (q : io_queue D) (m : gmap Z io_queue_buffer).
Abbreviation M := (IoWs.M D).

Definition wp {A} (p : M A) (Q : A -> world D -> Prop) w : Prop :=
  match p w with Ok (a, w') => Q a w' | _ => False end.
Definition setc c w : world D := with_conn (Some c) w.

Lemma wsp_ret {A} (a : A) Q w : Q a w -> wp (mret a) Q w.
Proof. done. Qed.
Lemma wsp_bind {A B} (p : M A) (f : A -> M B) Q w : wp p (fun a w => wp (f a) Q w) w -> wp (p ≫= f) Q w.
Proof. unfold wp, mbind, M_bind, mbind, res_bind. by destruct (p w) as [[]| |]. Qed.
Lemma wsp_mono {A} (p : M A) (P Q : A -> world D -> Prop) w : wp p P w -> (forall a w', P a w' -> Q a w') -> wp p Q w.
Proof. unfold wp. destruct (p w) as [[]| |]; auto. Qed.
Lemma wsp_get c Q w : w_conn w = Some c -> Q c w -> wp get_conn Q w.
Proof. intros E HQ. unfold wp, get_conn. by rewrite E. Qed.
Lemma wsp_mod c f Q w : w_conn w = Some c -> Q tt (setc (f c) w) -> wp (mod_conn f) Q w.
Proof. intros E HQ. unfold wp, mod_conn. by rewrite E. Qed.
Lemma wsp_lift {A} (r : res A) a Q w : r = Ok a -> Q a w -> wp (lift r) Q w.
Proof. by intros ->. Qed.
Lemma wsp_stream side c f Q w : w_conn w = Some c -> Q tt (setc (set_stream side (f (stream_of side c)) c) w) ->
  wp (mod_stream side f) Q w.
Proof. intros E HQ. unfold mod_stream. by eapply wsp_mod. Qed.
Lemma wsp_queue {A} side c (f : io_queue D -> res (io_queue D * A)) q' a Q w : w_conn w = Some c ->
  f (queue (stream_of side c)) = Ok (q', a) -> Q a (setc (set_stream side (set_queue q' (stream_of side c)) c) w) ->
  wp (on_queue side f) Q w.
Proof.
  intros E Ef HQ. unfold on_queue. apply wsp_bind. eapply wsp_get; [done|]. apply wsp_bind. eapply wsp_lift; [done|].
  cbn. apply wsp_bind. eapply wsp_stream; [done|]. by apply wsp_ret.
Qed.
Lemma wsp_unit side c (f : io_queue D -> res (io_queue D)) q' Q w : w_conn w = Some c ->
  f (queue (stream_of side c)) = Ok q' -> Q tt (setc (set_stream side (set_queue q' (stream_of side c)) c) w) ->
  wp (on_queue side (unit_op f)) Q w.
Proof. intros E Ef HQ. eapply wsp_queue; [done| |exact HQ]. unfold unit_op. by rewrite Ef. Qed.
Lemma wsp_buffer side c b qb Q w : w_conn w = Some c -> q_buffers (queue (stream_of side c)) !! b = Some qb -> Q qb w ->
  wp (get_buffer side b) Q w.
Proof.
  intros E Eb HQ. unfold get_buffer. apply wsp_bind. eapply wsp_get; [done|]. eapply wsp_lift; [|done]. by rewrite Eb.
Qed.

(** ** Frames *)

(** The bytes of a frame that were not read yet. *)
Definition rest (qb : io_queue_buffer) : bytes := slice (qb_read_offset qb) (qb_length qb) (qb_data qb).
Definition frame_ok (qb : io_queue_buffer) : Prop :=
  qb_queue qb = true /\ qb_cb qb = None /\ 0 <= qb_read_offset qb <= qb_length qb /\
  qb_length qb <= zlen (qb_data qb) < 2 ^ 64.

Lemma zlen_rest qb : frame_ok qb -> zlen (rest qb) = qb_length qb - qb_read_offset qb.
Proof. intros (_&_&?&?). unfold rest. apply zlen_slice; lia. Qed.

(** A read from one frame. *)
Lemma read_frame qb count : frame_ok qb -> 0 <= count ->
  exists qb', io_queue_buffer_stream_reader qb count = Ok (qb', take (Z.to_nat count) (rest qb)) /\
    frame_ok qb' /\ rest qb' = drop (Z.to_nat count) (rest qb).
Proof.
  intros Hok Hc. pose proof (zlen_rest _ Hok) as Hz. destruct Hok as (Hq & Hcb & Hr & Hl).
  unfold io_queue_buffer_stream_reader. rewrite u64_id by (unfold in_u64; lia).
  case_bool_decide as H0; [|case_bool_decide as Hp].
  - exists qb. subst. by rewrite take_0, drop_0.
  - set (k := Z.min _ _) in *. rewrite mem_read_slice by lia. cbn [chk mbind res_bind].
    assert (E : rest qb = slice (qb_read_offset qb) (qb_read_offset qb + k) (qb_data qb) ++
      slice (qb_read_offset qb + k) (qb_length qb) (qb_data qb)) by (apply slice_split; lia).
    assert (Hk : zlen (slice (qb_read_offset qb) (qb_read_offset qb + k) (qb_data qb)) = k) by (rewrite zlen_slice; lia).
    eexists. split; [|split].
    + do 2 f_equal. rewrite <- take_min_zlen by lia. rewrite Hz, Z.min_comm. fold k. rewrite E.
      rewrite take_app_length'; [done|]. unfold zlen in Hk. lia.
    + split_and!; cbn; try done; lia.
    + rewrite <- drop_min_zlen by lia. rewrite Hz, Z.min_comm. fold k. rewrite E.
      rewrite drop_app_length'; [done|]. unfold zlen in Hk. lia.
  - assert (rest qb = []) as -> by (apply length_zero_iff_nil; unfold zlen in Hz; lia).
    exists qb. rewrite take_nil, drop_nil. split_and!; try done.
    apply length_zero_iff_nil. pose proof (zlen_rest qb). unfold zlen in *. unfold frame_ok in *. naive_solver lia.
Qed.

(** ** Reading *)

Definition contents m (bs : list Z) : bytes := concat (map (fun b => from_option rest [] (m !! b)) bs).

(** The stream has [P] to read; [f]: the lists of its queue. *)
Record reading (f : lists) (P : bytes) s : Prop := {
  rd_own : own f (current s) (queue s);
  rd_ok b : b ∈ option_list (current s) ++ f inprogress -> exists qb, q_buffers (queue s) !! b = Some qb /\ frame_ok qb /\ rest qb <> [];
  rd_bytes : P = contents (q_buffers (queue s)) (option_list (current s) ++ f inprogress);
  rd_readable : readable s = zlen P;
  rd_max : zlen P < 2 ^ 64;
}.

(** The lists but the one of the buffers in progress. *)
Definition kept (f f' : lists) : Prop := forall t, t <> inprogress -> f' t = f t.

Lemma contents_ext m m' bs : (forall b, b ∈ bs -> m' !! b = m !! b) -> contents m' bs = contents m bs.
Proof.
  intros Hm. unfold contents. f_equal. apply map_ext_in. intros b Hb. by rewrite Hm by by apply list_elem_of_In.
Qed.
Lemma contents_cons m b bs : contents m (b :: bs) = from_option rest [] (m !! b) ++ contents m bs.
Proof. done. Qed.

Lemma inbound_current_ok c f P w Q : w_conn w = Some c -> reading f P (inbound c) ->
  (P = [] -> f inprogress = [] -> reading f P (set_current None (inbound c)) -> Q None (setc (set_inbound (set_current None (inbound c)) c) w)) ->
  (forall b s' f', current s' = Some b -> kept f f' -> (length (f' inprogress) + 1 = length (option_list (current (inbound c))) + length (f inprogress))%nat ->
     reading f' P s' -> Q (Some b) (setc (set_inbound s' c) w)) ->
  wp inbound_current Q w.
Proof.
  intros Hc Hr H0 H1. unfold inbound_current. apply wsp_bind. eapply wsp_get; [done|].
  destruct (current (inbound c)) as [b|] eqn:Ec.
  - apply wsp_ret. specialize (H1 b (inbound c) f). 
    assert (E : setc (set_inbound (inbound c) c) w = w) by (unfold setc; destruct w, c; cbn in *; by rewrite Hc).
    rewrite E in H1. apply H1; try done. cbn. lia.
  - apply wsp_bind. destruct Hr as [Hown Hok Hby Hrd Hmax]. rewrite Ec in *. destruct (f inprogress) as [|b l] eqn:Ef.
    + pose proof (pop_spec _ _ inprogress (ow_rep _ _ _ Hown)) as Hp. rewrite Ef in Hp.
      eapply wsp_queue; [done|exact Hp|]. cbn. apply wsp_bind. eapply wsp_stream; [reflexivity|]. apply wsp_ret.
      apply H0; [done|done|by split; cbn; rewrite ?Ef].
    + destruct (own_pop f _ inprogress b l Hown Ef) as (q' & Eq & Hown' & Em).
      eapply wsp_queue; [done|exact Eq|]. cbn. apply wsp_bind. eapply wsp_stream; [reflexivity|]. apply wsp_ret.
      apply (H1 b (Stream q' (Some b) (readable (inbound c))) (set_list f inprogress l)); [done| |rewrite set_list_eq; cbn; lia|].
      * intros t Ht. by apply set_list_ne.
      * split; cbn; rewrite ?set_list_eq, ?Em; done.
Qed.

(** What one round of the loop reads from the current buffer [b]. *)
Lemma read_round {B} b count c f P w (K : bytes -> M B) Q : w_conn w = Some c -> reading f P (inbound c) -> current (inbound c) = Some b -> 0 < count ->
  (forall s' f' n, kept f f' -> 0 <= n <= count -> n <= zlen P ->
     (n < count -> current s' = None) ->
     reading f' (drop (Z.to_nat n) P) s' -> f' inprogress = f inprogress ->
     (current s' = None \/ current s' = Some b) ->
     wp (K (take (Z.to_nat n) P)) Q (setc (set_inbound s' c) w)) ->
  wp (qb ← get_buffer inb b;
      '(qb, data) ← lift (io_queue_buffer_stream_reader qb count);
      put_buffer inb b qb;;
      (if bool_decide (qb_length qb = qb_read_offset qb)
       then release_buffer inb (Some b);; mod_stream inb (set_current None) else mret tt);;
      mod_stream inb (fun s => set_readable (u64 (readable s - zlen data)) s);;
      K data) Q w.
Proof.
  intros Hc Hr Ecur Hcnt HQ. destruct Hr as [Hown Hok Hby Hrd Hmax]. rewrite Ecur in *. change (option_list (Some b) ++ f inprogress) with (b :: f inprogress) in *.
  destruct (Hok b) as (qb0 & Eb & Hf & _); [apply list_elem_of_here|].
  destruct (read_frame qb0 count Hf) as (qb1 & Er & Hf1 & Erest); [lia|].
  rewrite contents_cons, Eb in Hby. cbn [from_option] in Hby.
  set (n := Z.min count (zlen (rest qb0))).
  assert (Hn0 : 0 <= n <= count) by (pose proof (zlen_nonneg (rest qb0)); lia).
  assert (HP : zlen P = zlen (rest qb0) + zlen (contents (q_buffers (queue (inbound c))) (f inprogress))) by by rewrite Hby, zlen_app.
  assert (HnP : n <= zlen P) by (pose proof (zlen_nonneg (contents (q_buffers (queue (inbound c))) (f inprogress))); lia).
  assert (Ht : take (Z.to_nat count) (rest qb0) = take (Z.to_nat n) P).
  { rewrite Hby. rewrite <- (take_min_zlen count) by lia. fold n. rewrite take_app_le; [done|]. unfold n, zlen in *. lia. }
  assert (Hd : drop (Z.to_nat n) P = rest qb1 ++ contents (q_buffers (queue (inbound c))) (f inprogress)).
  { rewrite Hby, Erest. rewrite <- (drop_min_zlen count) by lia. fold n. rewrite drop_app_le; [done|]. unfold n, zlen in *. lia. }
  destruct (ow_held _ _ _ Hown b eq_refl) as [_ Hbn]. specialize (Hbn inprogress).
  apply wsp_bind. eapply wsp_buffer; [done|exact Eb|]. apply wsp_bind. eapply wsp_lift; [exact Er|]. cbn.
  apply wsp_bind. unfold put_buffer. eapply wsp_queue; [done|reflexivity|]. cbn. fold (put (queue (inbound c)) b qb1).
  assert (Hown1 : own f (Some b) (put (queue (inbound c)) b qb1)) by (apply own_put; eauto).
  assert (Hb1 : q_buffers (put (queue (inbound c)) b qb1) !! b = Some qb1) by apply lookup_insert_eq.
  assert (Hrd1 : u64 (readable (inbound c) - zlen (take (Z.to_nat n) P)) = zlen (drop (Z.to_nat n) P)).
  { rewrite Hrd. assert (zlen (take (Z.to_nat n) P) = n) as -> by (unfold zlen in *; rewrite length_take; lia).
    rewrite u64_id by (unfold in_u64; lia). unfold zlen in *. rewrite length_drop. lia. }
  assert (Hd64 : zlen (drop (Z.to_nat n) P) < 2 ^ 64) by (unfold zlen in *; rewrite length_drop; lia).
  pose proof (zlen_rest qb1 Hf1) as Hz1. apply wsp_bind. case_bool_decide as Hfull.
  - assert (Er1 : rest qb1 = []) by (apply length_zero_iff_nil; unfold zlen in Hz1; lia).
    destruct (own_release _ _ _ _ Hown1 Hb1) as (q2 & Erel & Hrel & Em); [apply Hf1|apply Hf1|].
    apply wsp_bind. unfold release_buffer. eapply (wsp_unit inb); [reflexivity|exact Erel|].
    eapply wsp_stream; [reflexivity|]. apply wsp_bind. eapply wsp_stream; [reflexivity|]. rewrite Ht.
    refine (HQ (Stream q2 None _) f n _ Hn0 HnP _ _ _ _); try done; [|by left].
    split; cbn; rewrite ?Em; try done.
    + intros x Hx. cbn. rewrite lookup_delete_ne by (intros ->; done). rewrite lookup_insert_ne by (intros ->; done). apply Hok. by right.
    + rewrite Hd, Er1. cbn. symmetry. apply contents_ext. intros x Hx.
      rewrite lookup_delete_ne by (intros ->; done). by rewrite lookup_insert_ne by (intros ->; done).
  - assert (Hn : n = count).
    { assert (zlen (rest qb1) <> 0) by lia. rewrite Erest in *. unfold n, zlen in *. rewrite length_drop in *. lia. }
    apply wsp_ret. apply wsp_bind. eapply wsp_stream; [reflexivity|]. rewrite Ht.
    refine (HQ (Stream _ (current (inbound c)) _) f n _ Hn0 HnP _ _ _ _); try done; [cbn; lia| |by right].
    split; cbn; rewrite ?Ecur; try done.
    + intros x Hx. change (x ∈ b :: f inprogress) in Hx. apply elem_of_cons in Hx as [->|Hx].
      { rewrite lookup_insert_eq. exists qb1. split_and!; [done|done|]. intros E. rewrite E, zlen_nil in Hz1. lia. }
      destruct (decide (x = b)) as [->|]; [done|]. rewrite lookup_insert_ne by done.
      apply Hok. by right.
    + change (option_list (Some b) ++ f inprogress) with (b :: f inprogress). rewrite contents_cons, lookup_insert_eq. cbn. rewrite Hd. f_equal. symmetry. apply contents_ext. intros x Hx.
      by rewrite lookup_insert_ne by (intros ->; done).
Qed.

Lemma same_inbound c w : w_conn w = Some c -> setc (set_inbound (inbound c) c) w = w.
Proof. intros Hc. unfold setc. destruct w, c. cbn in *. by rewrite Hc. Qed.

Lemma reader_loop_ok fuel : forall count out c f P w Q, w_conn w = Some c -> reading f P (inbound c) -> 0 <= count ->
  (Z.to_nat count + length (option_list (current (inbound c))) + length (f inprogress) <= fuel)%nat ->
  (forall s' f', kept f f' -> reading f' (drop (Z.to_nat count) P) s' ->
     Q (if bool_decide (count <= zlen P) then er_ok else er_reading, out ++ take (Z.to_nat count) P)
       (setc (set_inbound s' c) w)) ->
  wp (reader_loop fuel count out) Q w.
Proof.
  induction fuel as [|fuel IH]; intros count out c f P w Q Hc Hr Hcnt Hfuel HQ; cbn [reader_loop];
    (destruct (decide (count <= 0)) as [Hz|Hz];
     [rewrite (bool_decide_eq_true_2 (count <= 0)) by done; assert (count = 0) as -> by lia; apply wsp_ret;
      rewrite (bool_decide_eq_true_2 (0 <= zlen P)) in HQ by apply zlen_nonneg; rewrite <- (same_inbound c w) by done;
      replace out with (out ++ []) by apply app_nil_r; by apply (HQ (inbound c) f)
     |rewrite (bool_decide_eq_false_2 (count <= 0)) by done]); [lia|].
  apply wsp_bind. eapply inbound_current_ok; [done|done| |].
  - intros -> Ef Hr'. apply wsp_ret. rewrite take_nil, drop_nil, bool_decide_eq_false_2 in HQ by (rewrite zlen_nil; lia).
    rewrite app_nil_r in HQ. by apply (HQ _ f).
  - intros b s1 f1 Hcur Hk Hlen Hr1. eapply read_round; [reflexivity|exact Hr1|exact Hcur|lia|].
    intros s2 f2 n Hk2 Hn HnP Hdone Hr2 Ef2 Hc2.
    assert (Hl : zlen (take (Z.to_nat n) P) = n) by (unfold zlen in *; rewrite length_take; lia). rewrite Hl.
    eapply IH; [reflexivity|exact Hr2|lia| |].
    + cbn [inbound set_inbound]. rewrite Ef2. destruct (decide (n < count)) as [Hlt|Hge].
      * rewrite (Hdone Hlt). cbn. lia.
      * assert (n = count) as -> by lia. destruct Hc2 as [->| ->]; cbn; lia.
    + intros s3 f3 Hk3 Hr3. rewrite drop_drop in Hr3. replace (Z.to_nat n + Z.to_nat (count - n))%nat with (Z.to_nat count) in Hr3 by lia.
      rewrite <- app_assoc. replace (take (Z.to_nat n) P ++ take (Z.to_nat (count - n)) (drop (Z.to_nat n) P)) with (take (Z.to_nat count) P)
        by (rewrite take_take_drop; f_equal; lia).
      replace (bool_decide (count - n <= zlen (drop (Z.to_nat n) P))) with (bool_decide (count <= zlen P))
        by (apply bool_decide_ext; unfold zlen in *; rewrite length_drop; lia).
      apply (HQ s3 f3); [|done]. intros t Ht. rewrite Hk3, Hk2, Hk by done. done.
Qed.

Lemma reading_nil f s : reading f [] s -> current s = None /\ f inprogress = [].
Proof.
  intros [_ Hok Hby _ _]. destruct (option_list (current s) ++ f inprogress) as [|b l] eqn:E.
  - apply app_nil in E as [E ->]. by destruct (current s).
  - destruct (Hok b) as (qb & Eb & _ & Hn); [apply list_elem_of_here|]. rewrite contents_cons, Eb in Hby.
    symmetry in Hby. by apply app_nil in Hby as [? _].
Qed.

Lemma reading_size f P s : reading f P s -> (length (option_list (current s)) + length (f inprogress) <= size (q_buffers (queue s)))%nat.
Proof.
  intros [Hown Hok _ _ _]. rewrite <- length_app. apply stored_size.
  - apply NoDup_app. split_and!; [destruct (current s); cbn; [apply NoDup_singleton|constructor]| |by eapply q_nodup, ow_rep].
    intros b Hb. destruct (current s) as [x|]; [|by apply elem_of_nil in Hb]. apply list_elem_of_singleton in Hb as ->.
    by apply (ow_held _ _ _ Hown).
  - intros b Hb. destruct (Hok b Hb) as (qb & -> & _). eauto.
Qed.

(** A receiver sees the bytes of the stream. *)
Lemma run_receiver_ok r : reads_ok r -> forall c f P w Q, w_conn w = Some c -> reading f P (inbound c) ->
  (forall s' f' value result left, ideal_receive r P = (value, result, left) -> kept f f' -> reading f' left s' ->
     Q (value, result) (setc (set_inbound s' c) w)) ->
  wp (run_receiver r) Q w.
Proof.
  induction r as [value result|count k IH|k IH]; intros Hok c f P w Q Hc Hr HQ; cbn [run_receiver].
  - apply wsp_ret. rewrite <- (same_inbound c w) by done. by apply (HQ _ f _ _ P).
  - destruct Hok as [Hcnt Hk]. apply wsp_bind. unfold io_ws_connection_stream_reader. apply wsp_bind. eapply wsp_get; [done|].
    eapply reader_loop_ok; [done|done|done|pose proof (reading_size _ _ _ Hr); lia|].
    intros s1 f1 Hk1 Hr1. cbn [app]. eapply IH; [apply Hk|reflexivity|exact Hr1|].
    intros s2 f2 value result left E Hk2 Hr2. apply (HQ s2 f2 value result left); [done| |done]. intros t Ht. by rewrite Hk2, Hk1.
  - apply wsp_bind. unfold io_ws_connection_stream_readable. apply wsp_bind. eapply wsp_get; [done|]. apply wsp_ret.
    eapply IH; [apply Hok|done|exact Hr|]. intros s' f' value result left E. rewrite (rd_readable _ _ _ Hr) in E. by apply HQ.
Qed.

(** ** Delivering a message *)

Definition logged {A} (k : call A) x w : world D := with_trace (w_trace w ++ [ev k x]) w.

(** What the receiver was called for. *)
Definition received (tr : list event) : list (bytes * prx_error) :=
  omap (fun e => match e with ev (c_on_stream value result) _ => Some (value, result) | _ => None end) tr.
(** The callbacks of senders. *)
Definition completed (tr : list event) : list (Z * Z * prx_error) :=
  omap (fun e => match e with ev (c_complete cb ctx r) _ => Some (cb, ctx, r) | _ => None end) tr.
Arguments received : simpl never. Arguments completed : simpl never.

(** The frames of a message: fragments and the last one, none of which is empty. *)
Inductive message : list (bytes * Z) -> bytes -> Prop :=
| m_last d : d <> [] -> zlen d <= DEFAULT_FRAME_SIZE -> message [(d, type_binary_msg)] d
| m_fragment d fs data : d <> [] -> zlen d <= DEFAULT_FRAME_SIZE -> message fs data ->
    message ((d, type_binary_fragment) :: fs) (d ++ data).

(** A stream between two messages: the buffers [bs] are ready, and there are no others. *)
Definition waiting (bs : list Z) s : Prop := own (only ready bs) None (queue s) /\ current s = None.
Definition idle s : Prop := waiting [] s.

(** Buffer [b] of a queue holds the frame [x]. *)
Definition holds m (b : Z) (x : bytes * Z) : Prop :=
  exists qb, m !! b = Some qb /\ frame_ok qb /\ qb_read_offset qb = 0 /\ rest qb = fst x /\ fst x <> [] /\ qb_flags qb = snd x.

Lemma received_app l k : received (l ++ k) = received l ++ received k.
Proof. apply omap_app. Qed.
Lemma completed_app l k : completed (l ++ k) = completed l ++ completed k.
Proof. apply omap_app. Qed.

Section Env.
Variable env : forall A, list event -> call A -> A.
Variable header : Z.
Variable receive : list event -> receiver.
(** The scheduler has an entry for every task. *)
Hypothesis entries : forall tr, env bool tr c_task_entry = true.

Lemma wsp_call {A} (k : call A) Q w : (forall x, Q x (logged k x w)) -> wp (do_call env k) Q w.
Proof. intros HQ. apply HQ. Qed.

Lemma wsp_next t c Q w : w_conn w = Some c -> scheduler c = true ->
  Q tt (with_tasks (w_now w ++ [t]) (w_later w) (logged c_task_entry true w)) -> wp (do_next env t) Q w.
Proof.
  intros E Hs HQ. unfold do_next, schedule. apply wsp_bind. eapply wsp_get; [done|]. rewrite Hs. cbn [negb].
  unfold wp, mbind, M_bind, do_call. cbn [mbind res_bind]. rewrite entries. cbn [negb]. by rewrite bool_decide_eq_true_2.
Qed.

(** One frame is moved to the buffers in progress. *)
Lemma deliver_frame s f P b l data type : reading f P s -> current s = None -> f ready = b :: l ->
  holds (q_buffers (queue s)) b (data, type) -> zlen (P ++ data) < 2 ^ 64 ->
  exists q1 q2 qb, io_queue_pop_ready (queue s) = Ok (q1, Some b) /\ q_buffers q1 !! b = Some qb /\ qb_flags qb = type /\
    io_queue_buffer_set_inprogress q1 (Some b) = Ok q2 /\ q_buffers q2 = q_buffers (queue s) /\
    reading (set_list (set_list f ready l) inprogress (f inprogress ++ [b])) (P ++ data)
      (Stream q2 (current s) (u64 (readable s + qb_length qb))).
Proof.
  intros [Hown Hfr Hby Hrd _] Hcur E (qb & Eb & Hok & Hro & Hrest & Hne & Hty) Hmax.
  rewrite Hcur in *. change (option_list None ++ f inprogress) with (f inprogress) in *.
  destruct (own_pop _ _ _ _ _ Hown E) as (q1 & E1 & Ho1 & Em).
  destruct (own_push _ q1 inprogress b qb Ho1) as (q2 & E2 & Ho2 & Em2); [by rewrite Em|apply Hok|].
  rewrite set_list_ne in Ho2 by done.
  exists q1, q2, qb. rewrite Em2, Em. split_and!; try done.
  split; cbn; rewrite ?Em2, ?Em, ?set_list_eq; try done.
  - intros x. rewrite elem_of_app, list_elem_of_singleton. intros [?| ->]; [auto|]. exists qb. split_and!; [done|done|].
    change (rest qb <> []). by rewrite Hrest.
  - rewrite Hby. unfold contents. rewrite map_app, concat_app. cbn. rewrite Eb, app_nil_r. cbn. by rewrite Hrest.
  - rewrite zlen_app in Hmax. pose proof (zlen_nonneg P). pose proof (zlen_rest qb Hok) as Hz. rewrite Hrest, Hro in Hz. cbn in Hz.
    pose proof (zlen_nonneg data). rewrite Hrd, u64_id by (unfold in_u64; lia). rewrite zlen_app. lia.
Qed.


(** What the delivery of a message changes. *)
Record delivered value result c w w' : Prop := {
  dl_conn : exists c', w_conn w' = Some c' /\ idle (inbound c') /\ outbound c' = outbound c /\
    wsclient c' = wsclient c /\ scheduler c' = scheduler c;
  dl_received : received (w_trace w') = received (w_trace w) ++ [(value, result)];
  dl_completed : completed (w_trace w') = completed (w_trace w);
  dl_now : result = er_ok -> w_now w' = w_now w;
}.

Lemma reading_idle f s : reading f [] s -> (forall t, t <> inprogress -> f t = []) -> idle s.
Proof.
  intros Hr Hf. destruct (reading_nil _ _ Hr) as [Hc Hi]. split; [|done]. rewrite <- Hc.
  eapply own_ext; [|apply (rd_own _ _ _ Hr)]. intros t. unfold only, set_list.
  destruct (decide (t = inprogress)) as [->|]; [rewrite Hi|rewrite Hf by done]; by case_decide.
Qed.

Variable r : receiver.
Hypothesis Hreceive : forall tr, receive tr = r.
Hypothesis Hreads : reads_ok r.

Lemma deliver_last c f P w Q value result : w_conn w = Some c -> reading f P (inbound c) -> scheduler c = true ->
  (forall t, t <> inprogress -> f t = []) -> ideal_receive r P = (value, result, []) ->
  (forall w', delivered value result c w w' -> Q tt w') ->
  wp (r ← get_receiver receive;
      '(value, result) ← run_receiver r;
      do_call env (c_on_stream value result);;
      c ← get_conn;
      release_buffer inb (current (inbound c));;
      mod_stream inb (fun s => set_readable 0 (set_current None s));;
      if bool_decide (result <> er_ok) then do_next env t_disconnect
      else io_ws_connection_clear_failures) Q w.
Proof.
  intros Hc Hr Hs Hf Hi HQ. apply wsp_bind. unfold wp at 1, get_receiver. rewrite Hreceive.
  apply wsp_bind. eapply run_receiver_ok; [done|done|done|]. intros s' f' value' result' left E Hk Hr'.
  rewrite Hi in E. injection E as <- <- <-. apply wsp_bind. apply wsp_call. intros [].
  apply wsp_bind. eapply wsp_get; [reflexivity|]. assert (Hidle : idle s').
  { apply (reading_idle f'); [done|]. intros t Ht. rewrite Hk by done. auto. }
  destruct (reading_nil _ _ Hr') as [Hcur _]. cbn [inbound set_inbound]. rewrite Hcur.
  apply wsp_bind. unfold release_buffer. eapply (wsp_queue inb); [reflexivity|reflexivity|].
  apply wsp_bind. eapply wsp_stream; [reflexivity|]. case_bool_decide as He.
  - eapply wsp_next; [reflexivity|done|]. apply HQ. split; cbn.
    + eexists. split_and!; [reflexivity|..]; try done. by destruct Hidle.
    + rewrite !received_app. cbn. by rewrite app_nil_r.
    + rewrite !completed_app. cbn. by rewrite !app_nil_r.
    + intros ->. by destruct He.
  - apply wsp_bind. unfold wp at 1, ticks_get. eapply wsp_mod; [reflexivity|]. apply HQ. split; cbn.
    + eexists. split_and!; [reflexivity|..]; try done. by destruct Hidle.
    + by rewrite received_app.
    + rewrite completed_app. cbn. by rewrite app_nil_r.
    + done.
Qed.

Lemma delivered_conn value result c c1 w w1 w' : delivered value result c1 w1 w' -> w_trace w1 = w_trace w -> w_now w1 = w_now w ->
  outbound c1 = outbound c -> wsclient c1 = wsclient c -> scheduler c1 = scheduler c -> delivered value result c w w'.
Proof.
  intros [(c' & ? & ? & E1 & E2 & E3) G1 G2 G3] Et En F1 F2 F3. split; [|by rewrite G1, Et|by rewrite G2, Et|by rewrite <- En].
  exists c'. by rewrite <- F1, <- F2, <- F3.
Qed.

Lemma prefix_max (P d data : bytes) (m : Z) : zlen (P ++ d ++ data) < m -> zlen (P ++ d) < m.
Proof. rewrite !zlen_app. pose proof (zlen_nonneg data). lia. Qed.

Lemma deliver_loop_ok fs data : message fs data -> forall bs fuel c f P w Q value result, w_conn w = Some c ->
  reading f P (inbound c) -> current (inbound c) = None -> scheduler c = true -> f ready = bs -> f done_ = [] ->
  Forall2 (holds (q_buffers (queue (inbound c)))) bs fs -> (length bs <= fuel)%nat -> zlen (P ++ data) < 2 ^ 64 ->
  ideal_receive r (P ++ data) = (value, result, []) ->
  (forall w', delivered value result c w w' -> Q tt w') ->
  wp (deliver_loop env receive fuel) Q w.
Proof.
  induction 1 as [d Hd Hlen|d fs data Hd Hlen Hm IH]; intros bs fuel c f P w Q value result Hc Hr Hcur Hs Ef Ed Hbs Hfuel Hmax Hi HQ;
    apply Forall2_cons_inv_r in Hbs as (b & bs' & Hb & Hbs & ->); (destruct fuel as [|fuel]; [cbn in Hfuel; lia|]);
    cbn [deliver_loop];
    (destruct (deliver_frame _ _ _ _ _ _ _ Hr Hcur Ef Hb) as (q1 & q2 & qb & E1 & Eb & Ety & E2 & Em & Hr2);
       [first [exact Hmax|by eapply prefix_max]|]);
    (apply wsp_bind; eapply wsp_queue; [done|exact E1|]; cbn;
     apply wsp_bind; eapply wsp_buffer; [reflexivity|exact Eb|];
     apply wsp_bind; eapply wsp_stream; [reflexivity|];
     apply wsp_bind; eapply (wsp_unit inb); [reflexivity|exact E2|];
     rewrite Ety).
  - apply Forall2_nil_inv_r in Hbs as ->. rewrite bool_decide_eq_false_2 by (intros Ht; by apply Ht).
    eapply deliver_last; [reflexivity|cbn [inbound set_inbound]..|]; [exact Hr2|done| |exact Hi|].
    + intros [] Ht; cbn; try done.
    + intros w' Hw'. apply HQ. by eapply delivered_conn.
  - rewrite bool_decide_eq_true_2 by done.
    eapply (IH bs' fuel); [reflexivity|exact Hr2|done|done|done|done| |cbn in Hfuel; lia|by rewrite <- app_assoc|by rewrite <- app_assoc|].
    + cbn. by rewrite Em.
    + intros w' Hw'. apply HQ. by eapply delivered_conn.
Qed.

Lemma deliver_stream_ok fs data bs c w Q value result : message fs data -> w_conn w = Some c -> waiting bs (inbound c) ->
  scheduler c = true -> Forall2 (holds (q_buffers (queue (inbound c)))) bs fs -> zlen data < 2 ^ 64 ->
  ideal_receive r data = (value, result, []) -> (forall w', delivered value result c w w' -> Q tt w') ->
  wp (io_ws_connection_deliver_stream env receive) Q w.
Proof.
  intros Hm Hc [Hown Hcur] Hs Hbs Hmax Hi HQ. apply wsp_bind. eapply wsp_stream; [done|]. apply wsp_bind. eapply wsp_get; [reflexivity|].
  eapply (deliver_loop_ok fs data Hm bs _ _ (only ready bs) []); [reflexivity| |done|done|done|done|done| |done|exact Hi|].
  - split; cbn; try done; [by rewrite Hcur|rewrite Hcur; cbn; intros b Hb; by apply elem_of_nil in Hb|by rewrite Hcur].
  - cbn. pose proof (list_size _ _ ready (ow_rep _ _ _ Hown)) as Hsz. unfold only in Hsz. rewrite set_list_eq in Hsz. lia.
  - intros w' Hw'. apply HQ. by eapply delivered_conn.
Qed.
End Env.

(** ** Sending a message *)

(** [d] was written to the buffer. *)
Definition filled (d : bytes) (qb : io_queue_buffer) : Prop :=
  qb_queue qb = true /\ exists mem, zlen mem = DEFAULT_FRAME_SIZE /\ written mem d qb.

Lemma writer_prefix qb buf n : 0 <= n <= zlen buf ->
  io_queue_buffer_stream_writer qb (Some buf) n = io_queue_buffer_stream_writer qb (Some (take (Z.to_nat n) buf)) n.
Proof.
  intros Hn. unfold io_queue_buffer_stream_writer. case_bool_decide; [done|]. cbv zeta. case_bool_decide as Hp; [|done].
  set (k := Z.min _ n) in *. unfold mem_read, zlen in *. rewrite length_take, !bool_decide_eq_true_2 by lia.
  rewrite !drop_0, take_take. by replace (Z.to_nat k `min` Z.to_nat n)%nat with (Z.to_nat k) by lia.
Qed.

Lemma writer_fields qb buf n qb' : io_queue_buffer_stream_writer qb buf n = Ok qb' ->
  qb_queue qb' = qb_queue qb /\ qb_cb qb' = qb_cb qb.
Proof.
  unfold io_queue_buffer_stream_writer. repeat case_bool_decide; try (by intros [= <-]); destruct buf; try (by intros [= <-]).
  destruct (mem_read _ _ _) eqn:?; cbn; [|done]. destruct (mem_write _ _ _) eqn:?; cbn; [|done]. by intros [= <-].
Qed.

Lemma write_frame qb d buf n : filled d qb -> 0 <= n <= zlen buf -> zlen d + n <= DEFAULT_FRAME_SIZE ->
  exists qb', io_queue_buffer_stream_writer qb (Some buf) n = Ok qb' /\ filled (d ++ take (Z.to_nat n) buf) qb' /\ qb_cb qb' = qb_cb qb.
Proof.
  intros [Hq (mem & Hmem & Hw)] Hn Hd. rewrite writer_prefix by done.
  assert (Hz : zlen (take (Z.to_nat n) buf) = n) by (unfold zlen in *; rewrite length_take; lia).
  destruct (writer_written mem d qb (take (Z.to_nat n) buf)) as (qb' & E & Hw'); [unfold DEFAULT_FRAME_SIZE in *; lia|done|].
  rewrite Hz in E. destruct (writer_fields _ _ _ _ E) as [Eq Ecb]. exists qb'. split_and!; [done| |done].
  split; [congruence|]. exists mem. split; [done|]. rewrite take_ge in Hw'; [done|].
  rewrite length_app. unfold zlen in *. lia.
Qed.


(** Buffer [b] of the outbound queue carries the frame [x]; the one of the whole message, the callback of
    the sender. *)
Definition sent (cb : option Z) (ctx : Z) m (b : Z) (x : bytes * Z) : Prop :=
  exists qb, m !! b = Some qb /\ filled (fst x) qb /\ qb_flags qb = snd x /\
    if bool_decide (snd x = type_binary_msg) then qb_cb qb = cb /\ qb_ctx qb = ctx else qb_cb qb = None.

Definition fragments (ds : list bytes) : list (bytes * Z) := map (fun d => (d, type_binary_fragment)) ds.

(** [P] was written: the full buffers are ready, and [b] has the last bytes [d]. *)
Definition writing (P d : bytes) (b : Z) s : Prop :=
  exists bs ds qb, own (only ready bs) (Some b) (queue s) /\ current s = Some b /\
    Forall2 (sent None 0 (q_buffers (queue s))) bs (fragments ds) /\
    Forall (fun d => d <> [] /\ zlen d <= DEFAULT_FRAME_SIZE) ds /\ P = concat ds ++ d /\
    q_buffers (queue s) !! b = Some qb /\ filled d qb /\ qb_cb qb = None.
Definition outgoing (P : bytes) s : Prop := (P = [] /\ idle s) \/ exists d b, d <> [] /\ writing P d b s.

(** Nothing was delivered, completed or scheduled in between. *)
Definition quiet w w' : Prop :=
  received (w_trace w') = received (w_trace w) /\ completed (w_trace w') = completed (w_trace w) /\ w_now w' = w_now w.

Lemma quiet_trans w1 w2 w3 : quiet w1 w2 -> quiet w2 w3 -> quiet w1 w3.
Proof. unfold quiet. intros (->&->&->) (->&->&->). done. Qed.

Section Send.
Variable env : forall A, list event -> call A -> A.
Variable header : Z.
(** The pool has a block for every buffer. *)
Hypothesis pool : forall tr m, exists b mem, env _ tr (c_buffer m (u64 (DEFAULT_FRAME_SIZE + header))) = Some (b, mem) /\
  new_ok header m b mem None DEFAULT_FRAME_SIZE.

Lemma sent_other cb ctx m m' bs fs : (forall b, b ∈ bs -> m' !! b = m !! b) ->
  Forall2 (sent cb ctx m) bs fs -> Forall2 (sent cb ctx m') bs fs.
Proof.
  intros Hm Hf. induction Hf as [|b x bs fs Hb Hf IH]; [done|]. constructor.
  - destruct Hb as (qb & Eb & Hb). exists qb. rewrite Hm by apply list_elem_of_here. done.
  - apply IH. intros. apply Hm. by right.
Qed.

Lemma create_buffer_ok side c f w Q : w_conn w = Some c -> own f None (queue (stream_of side c)) ->
  (forall b q' mem w', own f (Some b) q' -> zlen mem = DEFAULT_FRAME_SIZE -> 
     (forall x qb, q_buffers (queue (stream_of side c)) !! x = Some qb -> q_buffers q' !! x = Some qb) ->
     q_buffers q' !! b = Some (mk_buffer true None 0 0 er_ok 0 0 DEFAULT_FRAME_SIZE mem) ->
     w_conn w' = Some (set_stream side (set_queue q' (stream_of side c)) c) -> quiet w w' -> Q (inl b) w') ->
  wp (create_buffer env header side) Q w.
Proof.
  intros Hc Ho HQ. unfold create_buffer. apply wsp_bind. eapply wsp_get; [done|].
  destruct (pool (w_trace w) (q_buffers (queue (stream_of side c)))) as (b & mem & E & Hnew).
  apply wsp_bind. unfold wp at 1, do_call. cbv zeta. rewrite E.
  destruct (own_new header f _ b mem (fun _ => Some (b, mem)) Ho Hnew eq_refl) as (q' & E' & Ho' & Em).
  apply wsp_bind. unfold wp at 1, try. rewrite E'. apply wsp_bind. eapply wsp_stream; [exact Hc|]. apply wsp_ret.
  destruct Hnew as (Hb & ? & ? & Hmx & Hl & _).
  eapply (HQ b q' (drop (Z.to_nat header) mem)); [done| | | |reflexivity|].
  - unfold zlen in *. rewrite length_drop. lia.
  - intros x qb Hx. rewrite Em, lookup_insert_ne; [done|]. congruence.
  - by rewrite Em, lookup_insert_eq.
  - split_and!; cbn; [rewrite received_app|rewrite completed_app|done]; apply app_nil_r.
Qed.

Lemma filled_new mem : zlen mem = DEFAULT_FRAME_SIZE -> filled [] (mk_buffer true None 0 0 er_ok 0 0 DEFAULT_FRAME_SIZE mem).
Proof. intros Hm. split; [done|]. exists mem. split; [done|]. split_and!; [by symmetry|done|apply zlen_nonneg|done|done]. Qed.

Lemma fragments_snoc ds d : fragments (ds ++ [d]) = fragments ds ++ [(d, type_binary_fragment)].
Proof. unfold fragments. by rewrite map_app. Qed.

Lemma new_current_ok P bs ds c w Q : w_conn w = Some c -> own (only ready bs) None (queue (outbound c)) ->
  Forall2 (sent None 0 (q_buffers (queue (outbound c)))) bs (fragments ds) ->
  Forall (fun d => d <> [] /\ zlen d <= DEFAULT_FRAME_SIZE) ds -> P = concat ds ->
  (forall b s' w', w_conn w' = Some (set_outbound s' c) -> quiet w w' -> writing P [] b s' -> Q (inl (b, DEFAULT_FRAME_SIZE)) w') ->
  wp (b ← create_buffer env header outb;
      match b with
      | inl b => mod_stream outb (set_current (Some b));; mret (inl (b, DEFAULT_FRAME_SIZE))
      | inr e => mret (inr e)
      end) Q w.
Proof.
  intros Hc Ho Hbs Hds HP HQ. apply wsp_bind. eapply (create_buffer_ok outb); [done|exact Ho|].
  intros b q' mem w' Ho' Hmem Hold Hnew Hc' Hw. apply wsp_bind. eapply wsp_stream; [exact Hc'|]. apply wsp_ret.
  eapply HQ; [reflexivity|by destruct Hw|]. exists bs, ds, (mk_buffer true None 0 0 er_ok 0 0 DEFAULT_FRAME_SIZE mem).
  split_and!; try done; [|by rewrite app_nil_r|by apply filled_new].
  eapply sent_other; [|exact Hbs]. intros x Hx. cbn.
  destruct (q_stored _ _ (ow_rep _ _ _ Ho) ready x) as [qb Eqb]; [by unfold only; rewrite set_list_eq|].
  rewrite Eqb. by apply Hold.
Qed.

Lemma outbound_current_ok P c w Q : w_conn w = Some c -> outgoing P (outbound c) ->
  (forall b d s' w', w_conn w' = Some (set_outbound s' c) -> quiet w w' -> writing P d b s' -> zlen d < DEFAULT_FRAME_SIZE ->
     Q (inl (b, DEFAULT_FRAME_SIZE - zlen d)) w') ->
  wp (outbound_current env header) Q w.
Proof.
  intros Hc Hout HQ. unfold outbound_current. apply wsp_bind. eapply wsp_get; [done|]. apply wsp_bind.
  destruct Hout as [[-> [Hown Hcur]]|(d & b & Hd & bs & ds & qb & Ho & Hcur & Hbs & Hds & HP & Eb & Hf & Hcb)]; rewrite Hcur.
  - apply wsp_ret. eapply (new_current_ok [] [] []); [done|exact Hown|constructor|constructor|done|].
    intros b s' w' Hc' Hw Hwr. by apply (HQ b [] s' w').
  - pose proof Hf as [Hq (mem & Hmem & Hlen & _ & Hle & Hoff & _)].
    apply wsp_bind. eapply wsp_buffer; [done|exact Eb|]. cbv zeta. rewrite Hlen, Hoff, Hmem.
    assert (0 <= zlen d) by apply zlen_nonneg. rewrite u64_id by (unfold in_u64, DEFAULT_FRAME_SIZE in *; lia).
    case_bool_decide as Hfull.
    + apply wsp_bind. unfold mod_buffer. apply wsp_bind. eapply wsp_buffer; [done|exact Eb|]. unfold put_buffer.
      eapply wsp_queue; [done|reflexivity|]. fold (put (queue (stream_of outb c)) b (set_flags type_binary_fragment qb)).
      destruct (push_ready bs b (set_flags type_binary_fragment qb) (queue (outbound c)) Ho) as (q' & E & Ho' & Eb' & Hoth); [eauto|done|].
      apply wsp_bind. eapply (wsp_unit outb); [reflexivity|exact E|]. apply wsp_bind. eapply wsp_stream; [reflexivity|]. apply wsp_ret.
      eapply (new_current_ok P (bs ++ [b]) (ds ++ [d])); [reflexivity|exact Ho'| | | |].
      * rewrite fragments_snoc. apply Forall2_app.
        { eapply sent_other; [|exact Hbs]. intros x Hx. cbn. apply Hoth. by eapply (held_fresh _ _ _ _ ready Ho). }
        constructor; [|constructor]. exists (set_flags type_binary_fragment qb). split_and!; try done.
      * apply Forall_app. split; [done|]. constructor; [|constructor]. rewrite Hmem in Hle. done.
      * rewrite concat_app. cbn. by rewrite app_nil_r.
      * intros b' s' w' Hc' Hw Hwr. eapply (HQ b' [] s' w'); [done|by destruct Hw|done|done].
    + apply wsp_ret. apply wsp_ret. apply (HQ b d (outbound c) w); [|done| |unfold zlen in *; lia].
      * by rewrite Hc; destruct c.
      * by exists bs, ds, qb.
Qed.

Lemma writer_loop_ok fuel : forall buf c P w Q, w_conn w = Some c -> outgoing P (outbound c) -> (length buf <= fuel)%nat ->
  (forall s' w', w_conn w' = Some (set_outbound s' c) -> quiet w w' -> outgoing (P ++ buf) s' -> Q er_ok w') ->
  wp (writer_loop env header fuel buf) Q w.
Proof.
  induction fuel as [|fuel IH]; intros buf c P w Q Hc Hout Hfuel HQ; cbn [writer_loop]; (destruct buf as [|x buf0] eqn:Ebuf;
    [apply wsp_ret; apply (HQ (outbound c)); [by rewrite Hc; destruct c|done|by rewrite app_nil_r]|]); [cbn in Hfuel; lia|].
  rewrite <- Ebuf in *. assert (Hpos : 0 < zlen buf) by (rewrite Ebuf; unfold zlen; cbn; lia). clear Ebuf.
  apply wsp_bind. eapply outbound_current_ok; [done|exact Hout|].
  intros b d s1 w1 Hc1 Hw1 (bs & ds & qb & Ho & Hcur & Hbs & Hds & HP & Eb & Hf & Hcb) Hroom. cbn.
  set (n := Z.min (zlen buf) (DEFAULT_FRAME_SIZE - zlen d)).
  assert (Hn : 0 < n <= zlen buf /\ zlen d + n <= DEFAULT_FRAME_SIZE) by lia.
  apply wsp_bind. eapply (wsp_buffer outb); [exact Hc1|exact Eb|].
  destruct (write_frame qb d buf n Hf) as (qb' & E & Hf' & Hcb'); [lia|lia|].
  apply wsp_bind. unfold wp at 1, try. rewrite E. apply wsp_bind. unfold put_buffer. eapply (wsp_queue outb); [exact Hc1|reflexivity|].
  cbn. fold (put (queue s1) b qb'). eapply (IH _ _ (P ++ take (Z.to_nat n) buf)); [reflexivity| |rewrite length_drop; unfold zlen in *; lia|].
  - right. exists (d ++ take (Z.to_nat n) buf), b. split.
    { intros En. apply app_nil in En as [_ En]. apply (f_equal length) in En. rewrite length_take in En. cbn in En. unfold zlen in *. lia. }
    exists bs, ds, qb'. cbn. split_and!; try done; [by apply own_put; eauto| |by rewrite HP, app_assoc|by rewrite lookup_insert_eq|congruence].
    eapply sent_other; [|exact Hbs]. intros y Hy. cbn. rewrite lookup_insert_ne; [done|]. intros <-.
    by apply (held_fresh _ _ _ _ ready Ho eq_refl b).
  - intros s2 w2 Hc2 Hw2 Hout2. rewrite <- app_assoc, take_drop in Hout2.
    apply (HQ s2 w2); [done| |done]. eapply quiet_trans; [exact Hw1|]. by destruct Hw2.
Qed.

Lemma run_sender_ok (p : sender) : forall c P w Q result out, w_conn w = Some c -> outgoing P (outbound c) ->
  ideal_send p P = Some (result, out) ->
  (forall s' w', w_conn w' = Some (set_outbound s' c) -> quiet w w' -> outgoing out s' -> Q result w') ->
  wp (run_sender env header p) Q w.
Proof.
  induction p as [result0|data k IH|k IH|k IH]; intros c P w Q result out Hc Hout Hi HQ; cbn [run_sender ideal_send] in *.
  - injection Hi as -> ->. apply wsp_ret. apply (HQ (outbound c)); [by rewrite Hc; destruct c|done|done].
  - apply wsp_bind. unfold io_ws_connection_stream_writer. eapply writer_loop_ok; [done|exact Hout|done|].
    intros s1 w1 Hc1 Hw1 Hout1. eapply IH; [exact Hc1|exact Hout1|exact Hi|].
    intros s2 w2 Hc2 Hw2 Hout2. apply (HQ s2); [done|by eapply quiet_trans|done].
  - by eapply IH.
  - done.
Qed.

Lemma message_frames ds d : Forall (fun d => d <> [] /\ zlen d <= DEFAULT_FRAME_SIZE) ds -> d <> [] -> zlen d <= DEFAULT_FRAME_SIZE ->
  message (fragments ds ++ [(d, type_binary_msg)]) (concat ds ++ d).
Proof.
  intros Hds Hd Hl. induction Hds as [|x ds [Hx Hx'] Hds IH]; cbn; [by constructor|]. rewrite <- app_assoc. by constructor.
Qed.

Lemma sent_fragments cb ctx m bs ds : Forall2 (sent None 0 m) bs (fragments ds) -> Forall2 (sent cb ctx m) bs (fragments ds).
Proof.
  intros Hf. remember (fragments ds) as fs eqn:E. revert ds E.
  induction Hf as [|b x bs fs Hb Hf IH]; intros [|d ds] E; cbn in E; try done. injection E as -> ->. constructor; [done|by eapply IH].
Qed.

(** The message is cut into frames that are ready to be sent; its length is that of the buffers. *)
Lemma send_ok p data cb ctx c w Q : w_conn w = Some c -> idle (outbound c) -> wsclient c = true ->
  ideal_send p [] = Some (er_ok, data) -> data <> [] ->
  (forall bs fs s' e w', message fs data -> waiting bs s' -> Forall2 (sent cb ctx (q_buffers (queue s'))) bs fs ->
     w_conn w' = Some (set_outbound s' c) -> quiet w w' -> Q e w') ->
  wp (io_ws_connection_send env header p cb ctx) Q w.
Proof.
  intros Hc Hidle Hcl Hi Hne HQ. unfold io_ws_connection_send. apply wsp_bind. eapply run_sender_ok; [done|left; done|exact Hi|].
  intros s1 w1 Hc1 Hw1 [[? _]|(d & b & Hd & bs & ds & qb & Ho & Hcur & Hbs & Hds & HP & Eb & Hf & Hcb)]; [done|].
  apply wsp_bind. eapply wsp_get; [exact Hc1|]. cbn [outbound set_outbound]. rewrite Hcur. rewrite bool_decide_eq_false_2 by (intros Hx; by apply Hx).
  apply wsp_bind. eapply wsp_stream; [exact Hc1|]. apply wsp_bind. unfold mod_buffer. apply wsp_bind.
  eapply (wsp_buffer outb); [reflexivity|exact Eb|]. unfold put_buffer. eapply (wsp_queue outb); [reflexivity|reflexivity|]. cbn [stream_of].
  set (qb' := set_cb cb ctx (set_flags type_binary_msg qb)). destruct (push_ready bs b qb' (queue s1) Ho) as (q' & E & Ho' & Eb' & Hoth); [eauto|apply Hf|].
  apply wsp_bind. eapply (wsp_unit outb); [reflexivity|exact E|].
  assert (Hdl : zlen d <= DEFAULT_FRAME_SIZE) by (destruct Hf as (_ & mem & Hmem & _ & _ & Hle & _); lia).
  assert (Hpost : forall e w', w_conn w' = Some (set_outbound (Stream q' None (readable s1)) c) -> quiet w w' -> Q e w').
  { intros e w' Hc' Hw'. eapply (HQ (bs ++ [b]) (fragments ds ++ [(d, type_binary_msg)])); [rewrite HP; by apply message_frames| | |exact Hc'|done].
    - by split.
    - cbn. apply Forall2_app; [|constructor; [|constructor]].
      + apply sent_fragments. eapply sent_other; [|exact Hbs]. intros x Hx. cbn. apply Hoth. by eapply (held_fresh _ _ _ _ ready Ho).
      + exists qb'. split_and!; try done. }
  cbn [wsclient set_outbound]. rewrite Hcl. cbn [negb]. apply wsp_bind. apply wsp_call. intros e. apply wsp_bind. case_bool_decide.
  - apply wsp_bind. apply wsp_call. intros e'. apply wsp_ret. apply wsp_ret. apply Hpost; [reflexivity|]. eapply quiet_trans; [exact Hw1|].
    split_and!; cbn; rewrite ?received_app, ?completed_app; cbn; rewrite ?app_nil_r; done.
  - apply wsp_ret. apply wsp_ret. apply Hpost; [reflexivity|]. eapply quiet_trans; [exact Hw1|].
    split_and!; cbn; rewrite ?received_app, ?completed_app; cbn; rewrite ?app_nil_r; done.
Qed.
End Send.

(** ** Frames on their way *)

Definition lists3 (r i d : list Z) : lists := fun t => match t with ready => r | inprogress => i | done_ => d end.

(** A buffer whose frame went out, and the callbacks of such buffers. *)
Definition acked m (b : Z) : Prop := exists qb, m !! b = Some qb /\ qb_queue qb = true.
Definition callbacks m (bs : list Z) : list (Z * Z * prx_error) :=
  omap (fun b => qb ← m !! b; cb ← qb_cb qb; Some (cb, qb_ctx qb, qb_code qb)) bs.
Arguments callbacks : simpl never.

Lemma callbacks_ext m m' bs : (forall b, b ∈ bs -> m' !! b = m !! b) -> callbacks m' bs = callbacks m bs.
Proof.
  intros Hm. unfold callbacks. induction bs as [|b bs IH]; [done|]. cbn. rewrite Hm by apply list_elem_of_here.
  rewrite IH; [done|]. intros x Hx. apply Hm. by right.
Qed.
Lemma acked_ext m m' bs : (forall b, b ∈ bs -> m' !! b = m !! b) -> Forall (acked m) bs -> Forall (acked m') bs.
Proof.
  intros Hm Hbs. induction Hbs as [|b bs Hb Hbs IH]; constructor.
  - unfold acked. by rewrite Hm by apply list_elem_of_here.
  - apply IH. intros x Hx. apply Hm. by right.
Qed.
Lemma callbacks_app m l k : callbacks m (l ++ k) = callbacks m l ++ callbacks m k.
Proof. apply omap_app. Qed.

(** Task [t] was queued and nothing was delivered or completed. *)
Definition queued t w w' : Prop :=
  received (w_trace w') = received (w_trace w) /\ completed (w_trace w') = completed (w_trace w) /\ w_now w' = w_now w ++ [t].

Lemma quiet_queued t w1 w2 w3 : quiet w1 w2 -> queued t w2 w3 -> queued t w1 w3.
Proof. unfold quiet, queued. intros (->&->&->) (->&->&->). done. Qed.

Lemma wsp_ok {A} (p : M A) Q w : wp p Q w -> exists a w', p w = Ok (a, w') /\ Q a w'.
Proof. unfold wp. destruct (p w) as [[a w']| |]; naive_solver. Qed.

Section Transfer.
Variable env : forall A, list event -> call A -> A.
Variable header : Z.
Hypothesis entries : forall tr, env bool tr c_task_entry = true.
Hypothesis pool : forall tr m, exists b mem, env _ tr (c_buffer m (u64 (DEFAULT_FRAME_SIZE + header))) = Some (b, mem) /\
  new_ok header m b mem None DEFAULT_FRAME_SIZE.
Abbreviation handler := (io_ws_connection_event_handler env header).

Lemma next_ok t c w Q : w_conn w = Some c -> scheduler c = true ->
  (forall w', w_conn w' = Some c -> queued t w w' -> Q tt w') -> wp (do_next env t) Q w.
Proof.
  intros Hc Hs HQ. eapply wsp_next; [done|done|done|]. apply HQ; [done|].
  split_and!; cbn; rewrite ?received_app, ?completed_app; cbn; rewrite ?app_nil_r; done.
Qed.

Lemma begin_send_ok cb ctx b d ty bs ks c w Q : w_conn w = Some c -> own (lists3 (b :: bs) ks []) None (queue (outbound c)) ->
  sent cb ctx (q_buffers (queue (outbound c))) b (d, ty) ->
  (forall q', own (lists3 bs ks []) (Some b) q' -> q_buffers q' = q_buffers (queue (outbound c)) ->
     Q (a_frame (Some (b, d, ty))) (setc (set_outbound (set_queue q' (outbound c)) c) w)) ->
  wp (handler e_begin_send) Q w.
Proof.
  intros Hc Ho (qb & Eb & [_ (mem & Hmem & Hw)] & Hty & _) HQ. cbn [io_ws_connection_event_handler].
  destruct (own_pop _ _ ready b bs Ho eq_refl) as (q' & E & Ho' & Em).
  apply wsp_bind. apply wsp_bind. eapply wsp_queue; [done|exact E|]. apply wsp_bind. eapply (wsp_buffer outb); [reflexivity|cbn; by rewrite Em|].
  apply wsp_bind. eapply (wsp_lift _ d).
  { destruct Hw as (_ & _ & Hle & -> & ->). unfold mem_read. rewrite bool_decide_eq_true_2 by (rewrite length_app; unfold zlen in *; lia).
    unfold zlen. rewrite Nat2Z.id, drop_0, take_app_length. done. }
  apply wsp_ret. apply wsp_ret. rewrite Hty. apply HQ; [|done]. eapply own_ext; [|exact Ho']. by intros [].
Qed.

(** The start of [on_end_send]: the buffer is in progress. *)
Lemma end_send_push {B} b ks bs c w Q qb (K : M B) : w_conn w = Some c -> own (lists3 bs ks []) (Some b) (queue (outbound c)) ->
  q_buffers (queue (outbound c)) !! b = Some qb -> qb_queue qb = true ->
  (forall q', own (lists3 bs (ks ++ [b]) []) None q' ->
     q_buffers q' = <[b := set_code er_ok qb]> (q_buffers (queue (outbound c))) ->
     wp K Q (setc (set_outbound (set_queue q' (outbound c)) c) w)) ->
  wp (mod_buffer outb b (set_code er_ok);; on_queue outb (unit_op (fun q => io_queue_buffer_set_inprogress q (Some b)));; K) Q w.
Proof.
  intros Hc Ho Eb Hq HQ. apply wsp_bind. unfold mod_buffer. apply wsp_bind. eapply (wsp_buffer outb); [done|exact Eb|].
  unfold put_buffer. eapply wsp_queue; [done|reflexivity|]. cbn [stream_of].
  destruct (own_push _ (put (queue (outbound c)) b (set_code er_ok qb)) inprogress b (set_code er_ok qb) ltac:(eapply own_put; [exact Ho|eauto])) as (q' & E & Ho' & Em);
    [apply lookup_insert_eq|done|].
  apply wsp_bind. eapply (wsp_unit outb); [reflexivity|exact E|]. apply HQ; [|done]. eapply own_ext; [|exact Ho']. by intros [].
Qed.

Lemma all_done_ok ks : forall fuel ds c w Q, w_conn w = Some c -> own (lists3 [] ks ds) None (queue (outbound c)) ->
  Forall (acked (q_buffers (queue (outbound c)))) ks -> (length ks < fuel)%nat ->
  (forall q', own (lists3 [] [] (ds ++ ks)) None q' -> q_buffers q' = q_buffers (queue (outbound c)) ->
     Q tt (setc (set_outbound (set_queue q' (outbound c)) c) w)) ->
  wp (all_done fuel) Q w.
Proof.
  induction ks as [|b ks IH]; intros [|fuel] ds c w Q Hc Ho Hks Hfuel HQ; cbn [all_done]; try (cbn in Hfuel; lia); apply wsp_bind.
  - pose proof (pop_spec _ _ inprogress (ow_rep _ _ _ Ho)) as Hp. cbn in Hp. eapply wsp_queue; [done|exact Hp|]. apply wsp_ret.
    apply HQ; [|done]. by rewrite app_nil_r.
  - destruct (own_pop _ _ inprogress b ks Ho eq_refl) as (q1 & E1 & Ho1 & Em1). apply Forall_cons in Hks as [(qb & Eb & Hq) Hks].
    destruct (own_push _ q1 done_ b qb Ho1) as (q2 & E2 & Ho2 & Em2); [by rewrite Em1|done|].
    eapply wsp_queue; [done|exact E1|]. apply wsp_bind. eapply (wsp_unit outb); [reflexivity|exact E2|].
    eapply (IH fuel (ds ++ [b])); [reflexivity| |cbn; by rewrite Em2, Em1|cbn in Hfuel; lia|].
    + eapply own_ext; [|exact Ho2]. by intros [].
    + intros q' Ho' Em'. rewrite <- app_assoc in Ho'. apply (HQ q'); [done|]. rewrite Em'. cbn. by rewrite Em2, Em1.
Qed.

Lemma end_send_fragment b ks bs c w Q qb : w_conn w = Some c -> own (lists3 bs ks []) (Some b) (queue (outbound c)) ->
  q_buffers (queue (outbound c)) !! b = Some qb -> qb_queue qb = true -> qb_flags qb = type_binary_fragment ->
  (forall q', own (lists3 bs (ks ++ [b]) []) None q' -> q_buffers q' = <[b := set_code er_ok qb]> (q_buffers (queue (outbound c))) ->
     Q a_none (setc (set_outbound (set_queue q' (outbound c)) c) w)) ->
  wp (handler (e_end_send (Some b) er_ok)) Q w.
Proof.
  intros Hc Ho Eb Hq Hty HQ. cbn [io_ws_connection_event_handler io_ws_connection_on_end_send]. apply wsp_bind.
  eapply end_send_push; [done|exact Ho|exact Eb|done|]. intros q' Ho' Em. apply wsp_bind.
  eapply (wsp_buffer outb _ _ (set_code er_ok qb)); [reflexivity|cbn; by rewrite Em, lookup_insert_eq|]. apply wsp_bind. eapply wsp_get; [reflexivity|].
  cbn [qb_flags set_code]. rewrite Hty, bool_decide_eq_false_2 by (intros [_ Hx]; done). rewrite bool_decide_eq_false_2 by (intros [Hx _]; done).
  apply wsp_ret. apply wsp_ret. by apply HQ.
Qed.

Lemma end_send_msg b ks c w Q qb : w_conn w = Some c -> scheduler c = true -> own (lists3 [] ks []) (Some b) (queue (outbound c)) ->
  q_buffers (queue (outbound c)) !! b = Some qb -> qb_queue qb = true -> qb_flags qb = type_binary_msg ->
  Forall (acked (q_buffers (queue (outbound c)))) ks ->
  (forall q' w', own (lists3 [] [] (ks ++ [b])) None q' -> q_buffers q' = <[b := set_code er_ok qb]> (q_buffers (queue (outbound c))) ->
     w_conn w' = Some (set_outbound (set_queue q' (outbound c)) c) -> queued t_deliver_send_results w w' -> Q a_none w') ->
  wp (handler (e_end_send (Some b) er_ok)) Q w.
Proof.
  intros Hc Hs Ho Eb Hq Hty Hks HQ. cbn [io_ws_connection_event_handler io_ws_connection_on_end_send]. apply wsp_bind.
  assert (Hkb := held_fresh _ _ _ _ inprogress Ho eq_refl). cbn in Hkb.
  eapply end_send_push; [done|exact Ho|exact Eb|done|]. intros q' Ho' Em. apply wsp_bind.
  eapply (wsp_buffer outb _ _ (set_code er_ok qb)); [reflexivity|cbn; by rewrite Em, lookup_insert_eq|]. apply wsp_bind. eapply wsp_get; [reflexivity|].
  cbn [qb_flags set_code]. rewrite Hty, bool_decide_eq_true_2 by done.
  apply wsp_bind. eapply (all_done_ok (ks ++ [b])); [reflexivity|exact Ho'| | |].
  - cbn. rewrite Em. apply Forall_app. split.
    + eapply acked_ext; [|exact Hks]. intros x Hx. rewrite lookup_insert_ne; [done|]. intros <-. by apply (Hkb b).
    + constructor; [|constructor]. exists (set_code er_ok qb). by rewrite lookup_insert_eq.
  - cbn. pose proof (list_size _ _ inprogress (ow_rep _ _ _ Ho')) as Hsz. cbn in Hsz. lia.
  - intros q2 Ho2 Em2. eapply next_ok; [reflexivity|done|]. intros w' Hc' Hw'. apply wsp_ret.
    apply (HQ q2 w'); [done|rewrite Em2; exact Em|done|done].
Qed.

(** The callbacks of the buffers that are done. *)
Lemma results_loop_ok ds : forall fuel c w Q, w_conn w = Some c -> own (lists3 [] [] ds) None (queue (outbound c)) ->
  Forall (acked (q_buffers (queue (outbound c)))) ds -> (length ds < fuel)%nat ->
  (forall q' w', own (lists3 [] [] []) None q' -> w_conn w' = Some (set_outbound (set_queue q' (outbound c)) c) ->
     received (w_trace w') = received (w_trace w) -> w_now w' = w_now w ->
     completed (w_trace w') = completed (w_trace w) ++ callbacks (q_buffers (queue (outbound c))) ds -> Q tt w') ->
  wp (results_loop env fuel) Q w.
Proof.
  induction ds as [|b ds IH]; intros [|fuel] c w Q Hc Ho Hds Hfuel HQ; cbn [results_loop]; try (cbn in Hfuel; lia); apply wsp_bind.
  - pose proof (pop_spec _ _ done_ (ow_rep _ _ _ Ho)) as Hp. cbn in Hp. eapply wsp_queue; [done|exact Hp|]. apply wsp_ret.
    eapply HQ; [exact Ho|reflexivity|done|done|]. symmetry. apply app_nil_r.
  - destruct (own_pop _ _ done_ b ds Ho eq_refl) as (q1 & E1 & Ho1 & Em1). apply Forall_cons in Hds as [(qb & Eb & Hq) Hds].
    assert (Hne := held_fresh _ _ _ _ done_ Ho1 eq_refl). rewrite set_list_eq in Hne.
    eapply wsp_queue; [done|exact E1|]. apply wsp_bind. eapply (wsp_buffer outb); [reflexivity|cbn; rewrite Em1; exact Eb|].
    apply wsp_bind. unfold put_buffer. eapply (wsp_queue outb); [reflexivity|reflexivity|]. cbn [stream_of outbound set_stream set_outbound queue set_queue].
    set (qb' := set_code er_ok (set_cb None 0 qb)). fold (put q1 b qb').
    destruct (own_release (set_list (lists3 [] [] (b :: ds)) done_ ds) (put q1 b qb') b qb') as (q2 & E2 & Ho2 & Em2);
      [apply own_put; [done|rewrite Em1; eauto]|apply lookup_insert_eq|done|done|].
    assert (Hoth : forall x, x ∈ ds -> q_buffers q2 !! x = q_buffers (queue (outbound c)) !! x).
    { intros x Hx. apply Hne in Hx. rewrite Em2, lookup_delete_ne by done. cbn. by rewrite lookup_insert_ne, Em1 by done. }
    apply wsp_bind. eapply (wsp_unit outb); [reflexivity|exact E2|].
    assert (Hrec : forall w1, w_conn w1 = Some (set_outbound (set_queue q2 (outbound c)) c) -> received (w_trace w1) = received (w_trace w) ->
      w_now w1 = w_now w -> completed (w_trace w1) = completed (w_trace w) ++ callbacks (q_buffers (queue (outbound c))) [b] ->
      wp (results_loop env fuel) Q w1).
    { intros w1 Hc1 Hr1 Hn1 Hk1. eapply (IH fuel); [exact Hc1| | |cbn in Hfuel; lia|].
      - eapply own_ext; [|exact Ho2]. by intros [].
      - eapply acked_ext; [|exact Hds]. exact Hoth.
      - intros q' w' Ho' Hc' Hr' Hn' Hk'. apply (HQ q'); [done|done|congruence|congruence|].
        rewrite Hk', Hk1, <- app_assoc. cbn [outbound set_outbound queue set_queue].
        rewrite (callbacks_ext (q_buffers (queue (outbound c))) _ ds Hoth). by rewrite <- callbacks_app. }
    apply wsp_bind. destruct (qb_cb qb) as [cb|] eqn:Ecb.
    + apply wsp_call. intros []. apply Hrec; [reflexivity| |done|].
      * cbn. rewrite received_app. apply app_nil_r.
      * cbn. rewrite completed_app. f_equal. unfold callbacks. cbn. by rewrite Eb; cbn; rewrite Ecb.
    + apply wsp_ret. apply Hrec; [reflexivity|done|done|]. unfold callbacks. cbn. rewrite Eb. cbn. rewrite Ecb. cbn. by rewrite app_nil_r.
Qed.

Lemma begin_receive_ok bs c w Q : w_conn w = Some c -> waiting bs (inbound c) ->
  (forall b q' mem w', own (only ready bs) (Some b) q' -> zlen mem = DEFAULT_FRAME_SIZE ->
     (forall x qb, q_buffers (queue (inbound c)) !! x = Some qb -> q_buffers q' !! x = Some qb) ->
     q_buffers q' !! b = Some (mk_buffer true None 0 0 er_ok 0 0 DEFAULT_FRAME_SIZE mem) ->
     w_conn w' = Some (set_inbound (set_queue q' (inbound c)) c) -> quiet w w' -> Q (a_buffer (Some b)) w') ->
  wp (handler e_begin_recv) Q w.
Proof.
  intros Hc [Ho Hcur] HQ. cbn [io_ws_connection_event_handler]. apply wsp_bind. unfold io_ws_connection_on_begin_receive. apply wsp_bind.
  eapply (create_buffer_ok env header pool inb); [done|exact Ho|]. intros. apply wsp_ret. apply wsp_ret. by eapply HQ.
Qed.

(** The buffer that the client filled holds the frame. *)
Lemma received_frame d ty mem : d <> [] -> zlen d <= DEFAULT_FRAME_SIZE -> zlen mem = DEFAULT_FRAME_SIZE ->
  exists mem', mem_write mem 0 d = Some mem' /\
    forall m b, m !! b = Some (set_flags ty (set_content mem' (zlen d) (mk_buffer true None 0 0 er_ok 0 0 DEFAULT_FRAME_SIZE mem))) ->
      holds m b (d, ty).
Proof.
  intros Hd Hl Hm. assert (0 <= zlen d) by apply zlen_nonneg.
  destruct (mem_write_spec mem 0 d) as (mem' & E & Hz & Hs & _); [lia|lia|]. exists mem'. split; [done|].
  intros m b Eb. eexists. split_and!; [exact Eb| |done|exact Hs|done|done].
  split_and!; cbn; try done; unfold DEFAULT_FRAME_SIZE in *; lia.
Qed.

Lemma holds_other m m' bs fs : (forall b, b ∈ bs -> m' !! b = m !! b) -> Forall2 (holds m) bs fs -> Forall2 (holds m') bs fs.
Proof.
  intros Hm Hf. induction Hf as [|b x bs fs Hb Hf IH]; [done|]. constructor.
  - destruct Hb as (qb & Eb & Hb). exists qb. rewrite Hm by apply list_elem_of_here. done.
  - apply IH. intros. apply Hm. by right.
Qed.

Lemma end_receive_ok bs gs b d ty mem c w Q : w_conn w = Some c -> scheduler c = true -> own (only ready bs) (Some b) (queue (inbound c)) ->
  current (inbound c) = None -> Forall2 (holds (q_buffers (queue (inbound c)))) bs gs ->
  q_buffers (queue (inbound c)) !! b = Some (mk_buffer true None 0 0 er_ok 0 0 DEFAULT_FRAME_SIZE mem) ->
  zlen mem = DEFAULT_FRAME_SIZE -> d <> [] -> zlen d <= DEFAULT_FRAME_SIZE ->
  (forall s' w', waiting (bs ++ [b]) s' -> Forall2 (holds (q_buffers (queue s'))) (bs ++ [b]) (gs ++ [(d, ty)]) ->
     w_conn w' = Some (set_inbound s' c) ->
     (if bool_decide (ty = type_binary_msg) then queued t_deliver_stream w w' else quiet w w') -> Q a_none w') ->
  wp (handler (e_end_recv (Some b) d ty er_ok)) Q w.
Proof.
  intros Hc Hs Ho Hcur Hbs Eb Hmem Hd Hl HQ. cbn [io_ws_connection_event_handler io_ws_connection_on_end_receive]. apply wsp_bind.
  rewrite bool_decide_eq_false_2 by (intros Hx; by apply Hx).
  destruct (received_frame d ty mem Hd Hl Hmem) as (mem' & E & Hholds).
  apply wsp_bind. eapply (wsp_buffer inb); [done|exact Eb|]. apply wsp_bind. eapply (wsp_lift _ mem'); [cbn [qb_data]; by rewrite E|].
  set (qb := mk_buffer _ _ _ _ _ _ _ _ _) in *. set (qb' := set_flags ty (set_content mem' (zlen d) qb)) in *.
  apply wsp_bind. unfold put_buffer. eapply (wsp_queue inb); [done|reflexivity|]. cbn [stream_of].
  destruct (push_ready bs b qb' (queue (inbound c)) Ho) as (q' & E' & Ho' & Eb' & Hoth); [eauto|done|].
  apply wsp_bind. eapply (wsp_unit inb); [reflexivity|exact E'|].
  assert (Hf : Forall2 (holds (q_buffers q')) (bs ++ [b]) (gs ++ [(d, ty)])).
  { apply Forall2_app; [|constructor; [by apply Hholds|constructor]]. eapply holds_other; [|exact Hbs]. intros x Hx. apply Hoth.
    by eapply (held_fresh _ _ _ _ ready Ho). }
  case_bool_decide as Hty.
  - eapply next_ok; [reflexivity|done|]. intros w' Hc' Hw'. apply wsp_ret.
    eapply (HQ (Stream q' (current (inbound c)) (readable (inbound c)))); [|exact Hf|exact Hc'|exact Hw']. by split.
  - apply wsp_ret. apply wsp_ret. eapply (HQ (Stream q' (current (inbound c)) (readable (inbound c)))); [|exact Hf|reflexivity|done]. by split.
Qed.
End Transfer.

(** ** From a connection to another one *)

(** The scheduler has an entry for every task, and the pool a block for every buffer. *)
Definition supplied (env : forall A, list event -> call A -> A) (header : Z) : Prop :=
  (forall tr, env bool tr c_task_entry = true) /\
  forall tr m, exists b mem, env _ tr (c_buffer m (u64 (DEFAULT_FRAME_SIZE + header))) = Some (b, mem) /\
    new_ok header m b mem None DEFAULT_FRAME_SIZE.

Section Pair.
Variable envA envB : forall A, list event -> call A -> A.
Variable headerA headerB : Z.

(** The clients and the network: each frame that is sent is received. *)
Fixpoint exchange (fuel : nat) (wa wb : world D) : res (world D * world D) :=
  match fuel with
  | O => UB
  | S fuel =>
      '(x, wa) ← io_ws_connection_event_handler envA headerA e_begin_send wa;
      match x with
      | a_frame (Some (b, data, type)) =>
          '(y, wb) ← io_ws_connection_event_handler envB headerB e_begin_recv wb;
          match y with
          | a_buffer (Some b') =>
              '(_, wb) ← io_ws_connection_event_handler envB headerB (e_end_recv (Some b') data type er_ok) wb;
              '(_, wa) ← io_ws_connection_event_handler envA headerA (e_end_send (Some b) er_ok) wa;
              exchange fuel wa wb
          | _ => UB
          end
      | _ => Ok (wa, wb)
      end
  end.

(** The scheduler runs the first task that is due. *)
Definition run_next env (receive : list event -> receiver) (w : world D) : res (world D) :=
  match w_now w with
  | [] => Ok w
  | t :: now => '(_, w) ← run_task env receive t (with_tasks now (w_later w) w); Ok w
  end.

(** A message is sent over the first connection and received by the second one. *)
Definition transfer (receive : list event -> receiver) (p : sender) (cb ctx : Z) (fuel : nat) (wa wb : world D)
    : res (prx_error * world D * world D) :=
  '(e, wa) ← io_ws_connection_send envA headerA p (Some cb) ctx wa;
  '(wa, wb) ← exchange fuel wa wb;
  wb ← run_next envB receive wb;
  wa ← run_next envA receive wa;
  Ok (e, wa, wb).

Hypothesis suppliedA : supplied envA headerA.
Hypothesis suppliedB : supplied envB headerB.

(** What the exchange leaves: the buffers [ds] are done and [rs] are ready. *)
Record exchanged (cb ctx : Z) (fs : list (bytes * Z)) ca cb' wa wb wa' wb' : Prop := {
  ex_a : exists s ds, w_conn wa' = Some (set_outbound s ca) /\ own (lists3 [] [] ds) None (queue s) /\ current s = None /\
    Forall (acked (q_buffers (queue s))) ds /\ callbacks (q_buffers (queue s)) ds = [(cb, ctx, er_ok)];
  ex_b : exists s rs, w_conn wb' = Some (set_inbound s cb') /\ waiting rs s /\ Forall2 (holds (q_buffers (queue s))) rs fs;
  ex_wa : queued t_deliver_send_results wa wa';
  ex_wb : queued t_deliver_stream wb wb';
}.

Lemma exchange_end fuel wa wb ca ds : w_conn wa = Some ca -> own (lists3 [] [] ds) None (queue (outbound ca)) ->
  exchange (S fuel) wa wb = Ok (setc ca wa, wb).
Proof.
  intros Hc Ho. cbn [exchange io_ws_connection_event_handler]. pose proof (pop_spec _ _ ready (ow_rep _ _ _ Ho)) as Hp. cbn in Hp.
  unfold io_ws_connection_on_begin_send, on_queue, io_queue_pop_ready, get_conn, mod_stream, mod_conn, lift, mbind, M_bind, mbind, res_bind, mret, M_ret.
  rewrite Hc. cbn. rewrite Hp. cbn. rewrite Hc. cbn. do 3 f_equal. by destruct ca as [? ? ? ? ? ? ? [] ? ? ? ? ? ?].
Qed.

Lemma exchanged_after cb ctx fs ca cb' wa wb wa1 wb1 wa' wb' s1 s2 : quiet wa wa1 -> quiet wb wb1 ->
  exchanged cb ctx fs (set_outbound s1 ca) (set_inbound s2 cb') wa1 wb1 wa' wb' -> exchanged cb ctx fs ca cb' wa wb wa' wb'.
Proof.
  intros Ha Hb [Hea Heb Hqa Hqb]. split; [exact Hea|exact Heb|by eapply quiet_queued|by eapply quiet_queued].
Qed.

(** The first three events of a frame. *)
Lemma exchange_frame cb ctx d ty b bs ks rs gs fuel ca c' wa wb : d <> [] -> zlen d <= DEFAULT_FRAME_SIZE ->
  w_conn wa = Some ca -> own (lists3 (b :: bs) ks []) None (queue (outbound ca)) ->
  sent (Some cb) ctx (q_buffers (queue (outbound ca))) b (d, ty) ->
  w_conn wb = Some c' -> scheduler c' = true -> waiting rs (inbound c') -> Forall2 (holds (q_buffers (queue (inbound c')))) rs gs ->
  exists q b' s' wb', own (lists3 bs ks []) (Some b) q /\ q_buffers q = q_buffers (queue (outbound ca)) /\
    w_conn wb' = Some (set_inbound s' c') /\ waiting (rs ++ [b']) s' /\ Forall2 (holds (q_buffers (queue s'))) (rs ++ [b']) (gs ++ [(d, ty)]) /\
    (if bool_decide (ty = type_binary_msg) then queued t_deliver_stream wb wb' else quiet wb wb') /\
    exchange (S fuel) wa wb =
      ('(_, wa) ← io_ws_connection_event_handler envA headerA (e_end_send (Some b) er_ok) (setc (set_outbound (set_queue q (outbound ca)) ca) wa);
       exchange fuel wa wb').
Proof.
  intros Hd Hl Hca Hoa Hsent Hcb Hsb Hw Hrs.
  destruct (wsp_ok (io_ws_connection_event_handler envA headerA e_begin_send) (fun a w => exists q', a = a_frame (Some (b, d, ty)) /\
    w = setc (set_outbound (set_queue q' (outbound ca)) ca) wa /\ own (lists3 bs ks []) (Some b) q' /\ q_buffers q' = q_buffers (queue (outbound ca))) wa)
    as (a & wa1 & E1 & q & -> & -> & Ho & Em); [eapply begin_send_ok; [done|exact Hoa|exact Hsent|]; intros q' Ho' Em'; by exists q'|].
  destruct (wsp_ok (io_ws_connection_event_handler envB headerB e_begin_recv) (fun a w => exists b' q' mem, a = a_buffer (Some b') /\
    own (only ready rs) (Some b') q' /\ zlen mem = DEFAULT_FRAME_SIZE /\
    (forall x qb, q_buffers (queue (inbound c')) !! x = Some qb -> q_buffers q' !! x = Some qb) /\
    q_buffers q' !! b' = Some (mk_buffer true None 0 0 er_ok 0 0 DEFAULT_FRAME_SIZE mem) /\
    w_conn w = Some (set_inbound (set_queue q' (inbound c')) c') /\ quiet wb w) wb)
    as (y & wb1 & E2 & b' & q2 & mem & -> & Ho2 & Hmem & Hold & Eb' & Hcb1 & Hq1);
    [eapply (begin_receive_ok envB headerB (proj2 suppliedB)); [done|exact Hw|]; intros; by do 3 eexists|].
  destruct (wsp_ok (io_ws_connection_event_handler envB headerB (e_end_recv (Some b') d ty er_ok)) (fun a w => exists s', 
    waiting (rs ++ [b']) s' /\ Forall2 (holds (q_buffers (queue s'))) (rs ++ [b']) (gs ++ [(d, ty)]) /\ w_conn w = Some (set_inbound s' c') /\
    if bool_decide (ty = type_binary_msg) then queued t_deliver_stream wb1 w else quiet wb1 w) wb1)
    as (z & wb2 & E3 & s' & Hw' & Hh' & Hc2 & Hq2).
  - destruct Hw as [_ Hcur]. eapply (end_receive_ok envB headerB (proj1 suppliedB) rs gs); [exact Hcb1|done|exact Ho2|done| |exact Eb'|done|done|done|].
    + eapply holds_other; [|exact Hrs]. intros x Hx. cbn. apply list_elem_of_lookup_1 in Hx as [i Hi].
      destruct (Forall2_lookup_l _ _ _ _ _ Hrs Hi) as (g & _ & qb & Eq & _). rewrite Eq. by apply Hold.
    + intros s' w' ? ? ? ?. by exists s'.
  - exists q, b', s', wb2. split_and!; try done.
    + case_bool_decide; [by eapply quiet_queued|by eapply quiet_trans].
    + cbn [exchange]. rewrite E1. cbn [mbind res_bind]. rewrite E2. cbn [mbind res_bind]. by rewrite E3.
Qed.

Lemma exchange_ok cb ctx fs data : message fs data -> forall bs ks rs gs fuel ca c' wa wb,
  w_conn wa = Some ca -> scheduler ca = true -> own (lists3 bs ks []) None (queue (outbound ca)) -> current (outbound ca) = None ->
  Forall2 (sent (Some cb) ctx (q_buffers (queue (outbound ca)))) bs fs ->
  Forall (acked (q_buffers (queue (outbound ca)))) ks -> callbacks (q_buffers (queue (outbound ca))) ks = [] ->
  w_conn wb = Some c' -> scheduler c' = true -> waiting rs (inbound c') -> Forall2 (holds (q_buffers (queue (inbound c')))) rs gs ->
  (length fs < fuel)%nat ->
  exists wa' wb', exchange fuel wa wb = Ok (wa', wb') /\ exchanged cb ctx (gs ++ fs) ca c' wa wb wa' wb'.
Proof.
  induction 1 as [d Hd Hl|d fs data Hd Hl Hm IH]; intros bs ks rs gs fuel ca c' wa wb Hca Hsa Ho Hcur Hbs Hks Hcbs Hcb Hsb Hw Hrs Hfuel;
    apply Forall2_cons_inv_r in Hbs as (b & bs' & Hb & Hbs & ->); (destruct fuel as [|fuel]; [lia|]);
    pose proof (exchange_frame cb ctx d _ b bs' ks rs gs fuel ca c' wa wb Hd Hl Hca Ho Hb Hcb Hsb Hw Hrs)
      as (q & b' & s' & wb' & Ho' & Em & Hcb' & Hw' & Hrs' & Hq & ->); cbn [fst snd] in *;
    destruct Hb as (qb & Eb & Hf & Hty & Hback); cbn [fst snd] in *;
    set (ca1 := set_outbound (set_queue q (outbound ca)) ca) in *;
    assert (Hne := held_fresh _ _ _ _ inprogress Ho' eq_refl); cbn in Hne.
  - apply Forall2_nil_inv_r in Hbs as ->. rewrite bool_decide_eq_true_2 in Hq, Hback by done.
    destruct (wsp_ok (io_ws_connection_event_handler envA headerA (e_end_send (Some b) er_ok)) (fun _ w => exists q',
      own (lists3 [] [] (ks ++ [b])) None q' /\ q_buffers q' = <[b := set_code er_ok qb]> (q_buffers (queue (outbound ca))) /\
      w_conn w = Some (set_outbound (set_queue q' (outbound ca)) ca) /\ queued t_deliver_send_results wa w) (setc ca1 wa))
      as (x & wa2 & E & q2 & Ho2 & Em2 & Hc2 & Hq2).
    { eapply (end_send_msg envA headerA (proj1 suppliedA)); [reflexivity|done|exact Ho'|cbn; by rewrite Em|apply Hf|done|cbn; by rewrite Em|].
      intros q' w' ? Hb' ? ?. exists q'. cbn in Hb'. rewrite Em in Hb'. split_and!; done. }
    rewrite E. cbn [mbind res_bind]. destruct fuel as [|fuel]; [cbn in Hfuel; lia|]. rewrite (exchange_end _ _ _ _ _ Hc2 Ho2).
    eexists _, _. split; [done|].
    assert (Hoth : forall x, x ∈ ks -> q_buffers q2 !! x = q_buffers (queue (outbound ca)) !! x).
    { intros y Hy. rewrite Em2, lookup_insert_ne; [done|]. intros <-. by apply (Hne b). }
    split; [|by exists s', (rs ++ [b'])|done|done].
    exists (set_queue q2 (outbound ca)), (ks ++ [b]). split_and!; try done.
    + apply Forall_app. split; [eapply acked_ext; [|exact Hks]; exact Hoth|]. constructor; [|constructor].
      exists (set_code er_ok qb). cbn. rewrite Em2, lookup_insert_eq. split; [done|apply Hf].
    + rewrite callbacks_app. cbn. rewrite (callbacks_ext _ _ ks Hoth), Hcbs. cbn. unfold callbacks. cbn.
      rewrite Em2, lookup_insert_eq. cbn. destruct Hback as [-> ->]. done.
  - rewrite bool_decide_eq_false_2 in Hq, Hback by done.
    destruct (wsp_ok (io_ws_connection_event_handler envA headerA (e_end_send (Some b) er_ok)) (fun _ w => exists q',
      own (lists3 bs' (ks ++ [b]) []) None q' /\ q_buffers q' = <[b := set_code er_ok qb]> (q_buffers (queue (outbound ca))) /\
      w = setc (set_outbound (set_queue q' (outbound ca)) ca) wa) (setc ca1 wa))
      as (x & wa2 & E & q2 & Ho2 & Em2 & ->).
    { eapply end_send_fragment; [reflexivity|exact Ho'|cbn; by rewrite Em|apply Hf|done|].
      intros q' ? Hb'. exists q'. cbn in Hb'. rewrite Em in Hb'. split_and!; done. }
    rewrite E. cbn [mbind res_bind].
    assert (Hoth : forall t x, x ∈ lists3 bs' ks [] t -> q_buffers q2 !! x = q_buffers (queue (outbound ca)) !! x).
    { intros t y Hy. rewrite Em2, lookup_insert_ne; [done|]. intros <-. by apply (held_fresh _ _ _ _ t Ho' eq_refl b). }
    destruct (IH bs' (ks ++ [b]) (rs ++ [b']) (gs ++ [(d, type_binary_fragment)]) fuel (set_outbound (set_queue q2 (outbound ca)) ca) (set_inbound s' c')
      (setc (set_outbound (set_queue q2 (outbound ca)) ca) wa) wb') as (wa' & wb2 & Eex & Hex); try done; cbn [outbound set_outbound queue set_queue].
    + eapply sent_other; [|exact Hbs]. intros y Hy. by apply (Hoth ready).
    + apply Forall_app. split; [eapply acked_ext; [|exact Hks]; intros y Hy; by apply (Hoth inprogress)|]. constructor; [|constructor].
      exists (set_code er_ok qb). rewrite Em2, lookup_insert_eq. split; [done|apply Hf].
    + rewrite callbacks_app. rewrite (callbacks_ext (q_buffers (queue (outbound ca))) _ ks), Hcbs by (intros y Hy; by apply (Hoth inprogress)).
      cbn. unfold callbacks. cbn. rewrite Em2, lookup_insert_eq. cbn. by rewrite Hback.
    + cbn in Hfuel. lia.
    + rewrite <- app_assoc in Hex. exists wa', wb2. split; [done|].
      eapply exchanged_after; [| |exact Hex]; [done|done].
Qed.

Lemma message_length fs data : message fs data -> (length fs <= length data)%nat.
Proof. induction 1 as [d Hd|d fs data Hd Hl Hm IH]; cbn; [destruct d; [done|cbn; lia]|rewrite length_app; destruct d; [done|cbn; lia]]. Qed.

Lemma results_ok c w ds s Q : w_conn w = Some (set_outbound s c) -> own (lists3 [] [] ds) None (queue s) -> current s = None ->
  Forall (acked (q_buffers (queue s))) ds ->
  (forall s' w', idle s' -> w_conn w' = Some (set_outbound s' c) -> received (w_trace w') = received (w_trace w) -> w_now w' = w_now w ->
     completed (w_trace w') = completed (w_trace w) ++ callbacks (q_buffers (queue s)) ds -> Q tt w') ->
  wp (io_ws_connection_deliver_send_results envA) Q w.
Proof.
  intros Hc Ho Hcur Hds HQ. apply wsp_bind. eapply wsp_get; [exact Hc|]. eapply (results_loop_ok envA ds); [exact Hc|exact Ho|exact Hds| |].
  - pose proof (list_size _ _ done_ (ow_rep _ _ _ Ho)) as Hsz. cbn in *. lia.
  - intros q' w' Ho' Hc' ? ? ?. eapply (HQ (Stream q' (current s) (readable s))); try done. split; [|done].
    eapply own_ext; [|exact Ho']. by intros [].
Qed.

(** C6: A message that is sent over a connection, whose frames the clients carry to another one, is exactly
    what the receiver of the other connection reads, for every sequence of writes of the sender and of
    reads of the receiver: the receiver is called once, with the bytes that were written; the callback of the
    sender is called once, with success; and all the buffers of both queues are released again. *)
Theorem ws_transfer receive r p data value cb ctx ca c' wa wb :
  (forall tr, receive tr = r) -> reads_ok r ->
  ideal_send p [] = Some (er_ok, data) -> data <> [] -> zlen data < 2 ^ 64 -> ideal_receive r data = (value, er_ok, []) ->
  w_conn wa = Some ca -> idle (outbound ca) -> wsclient ca = true -> scheduler ca = true -> w_now wa = [] ->
  w_conn wb = Some c' -> idle (inbound c') -> scheduler c' = true -> w_now wb = [] ->
  exists e wa' wb' ca' cb', transfer receive p cb ctx (S (length data)) wa wb = Ok (e, wa', wb') /\
    received (w_trace wb') = received (w_trace wb) ++ [(value, er_ok)] /\
    completed (w_trace wa') = completed (w_trace wa) ++ [(cb, ctx, er_ok)] /\
    w_conn wa' = Some ca' /\ idle (outbound ca') /\ inbound ca' = inbound ca /\ w_now wa' = [] /\
    w_conn wb' = Some cb' /\ idle (inbound cb') /\ outbound cb' = outbound c' /\ w_now wb' = [].
Proof.
  intros Hrec Hreads Hsend Hne Hmax Hread Hca Hia Hcl Hsa Hna Hcb Hib Hsb Hnb. unfold transfer.
  destruct (wsp_ok (io_ws_connection_send envA headerA p (Some cb) ctx) (fun _ w => exists bs fs s', message fs data /\ waiting bs s' /\
    Forall2 (sent (Some cb) ctx (q_buffers (queue s'))) bs fs /\ w_conn w = Some (set_outbound s' ca) /\ quiet wa w) wa)
    as (e & wa1 & E1 & bs & fs & s1 & Hm & [Ho1 Hcur1] & Hf1 & Hc1 & Hq1).
  { eapply (send_ok envA headerA (proj2 suppliedA)); [done|exact Hia|done|exact Hsend|done|]. intros bs fs s' e w' ? ? ? ? ?. by exists bs, fs, s'. }
  rewrite E1. cbn [mbind res_bind].
  destruct (exchange_ok cb ctx fs data Hm bs [] [] [] (S (length data)) (set_outbound s1 ca) c' wa1 wb) as (wa2 & wb2 & E2 & Hex); try done.
  { eapply own_ext; [|exact Ho1]. by intros []. }
  { pose proof (message_length _ _ Hm). lia. }
  rewrite E2. cbn [mbind res_bind app] in *.
  destruct Hex as [(s2 & ds & Hc2 & Ho2 & Hcur2 & Hds & Hcbs) (s3 & rs & Hc3 & Hw3 & Hh3) (Ra & Ca & Na) (Rb & Cb & Nb)].
  destruct Hq1 as (Ra1 & Ca1 & Na1). rewrite Hnb in Nb. rewrite Na1, Hna in Na. unfold run_next. rewrite Nb, Na. cbn [app run_task].
  destruct (wsp_ok (io_ws_connection_deliver_stream envB receive) (fun _ w => delivered value er_ok (set_inbound s3 c') (with_tasks [] (w_later wb2) wb2) w)
    (with_tasks [] (w_later wb2) wb2)) as (x & wb3 & E3 & Hdel).
  { by eapply (deliver_stream_ok envB receive (proj1 suppliedB) r Hrec Hreads fs data rs); [exact Hm|exact Hc3|exact Hw3| |exact Hh3|..]. }
  rewrite E3. cbn [mbind res_bind].
  destruct (wsp_ok (io_ws_connection_deliver_send_results envA) (fun _ w => exists s', idle s' /\ w_conn w = Some (set_outbound s' ca) /\
    w_now w = [] /\ completed (w_trace w) = completed (w_trace wa) ++ [(cb, ctx, er_ok)]) (with_tasks [] (w_later wa2) wa2))
    as (y & wa3 & E4 & s4 & Hi4 & Hc4 & Hn4 & Hk4).
  { eapply (results_ok ca); [exact Hc2|exact Ho2|done|exact Hds|]. intros s' w' ? ? ? ? Hk. exists s'. split_and!; try done.
    rewrite Hk, Hcbs. cbn. by rewrite Ca, Ca1. }
  rewrite E4. cbn [mbind res_bind]. destruct Hdel as [(c3 & Hcc & Hidle & Hout & _) Hr3 _ Hn3].
  exists e, wa3, wb3, (set_outbound s4 ca), c3. split_and!; try done; [cbn in Hr3; by rewrite Hr3, Rb|by rewrite Hn3].
Qed.
End Pair.

(** ** The reset of a stream *)

Lemma drain_ready_ok bs : forall fs fuel c w Q, w_conn w = Some c -> own (only ready bs) None (queue (inbound c)) ->
  Forall2 (holds (q_buffers (queue (inbound c)))) bs fs -> (length bs < fuel)%nat ->
  (forall q', own (only ready []) None q' -> Q tt (setc (set_inbound (set_queue q' (inbound c)) c) w)) ->
  wp (drain_ready fuel inb) Q w.
Proof.
  induction bs as [|b bs IH]; intros fs [|fuel] c w Q Hc Ho Hbs Hfuel HQ; cbn [drain_ready]; try (cbn in Hfuel; lia); apply wsp_bind.
  - pose proof (pop_spec _ _ ready (ow_rep _ _ _ Ho)) as Hp. cbn in Hp. eapply wsp_queue; [done|exact Hp|]. apply wsp_ret. by apply HQ.
  - destruct (own_pop _ _ ready b bs Ho eq_refl) as (q1 & E1 & Ho1 & Em1). inversion Hbs as [|? x ? fs' Hb Hbs']; subst.
    destruct Hb as (qb & Eb & (Hq & Hcb & _) & _). assert (Hne := held_fresh _ _ _ _ ready Ho1 eq_refl). rewrite set_list_eq in Hne.
    destruct (own_release _ q1 b qb Ho1) as (q2 & E2 & Ho2 & Em2); [by rewrite Em1|done|done|].
    eapply wsp_queue; [done|exact E1|]. apply wsp_bind. eapply (wsp_unit inb); [reflexivity|exact E2|].
    eapply (IH fs' fuel); [reflexivity| | |cbn in Hfuel; lia|].
    + eapply own_ext; [|exact Ho2]. by intros [].
    + eapply holds_other; [|exact Hbs']. intros y Hy. apply Hne in Hy. cbn. by rewrite Em2, lookup_delete_ne, Em1.
    + intros q' Ho'. by apply HQ.
Qed.

Lemma deliver_nothing env receive c w : w_conn w = Some c -> own (only ready []) None (queue (inbound c)) ->
  io_ws_connection_deliver_stream env receive w = UB.
Proof.
  intros Hc Ho. pose proof (pop_spec _ _ ready (ow_rep _ _ _ Ho)) as Hp. cbn in Hp.
  unfold io_ws_connection_deliver_stream, mod_stream, mod_conn, on_queue, get_conn, mbind, M_bind, mbind, res_bind. rewrite Hc.
  cbn [chk setc with_conn w_conn mbind res_bind deliver_loop]. unfold on_queue, io_queue_pop_ready, lift, mbind, M_bind, mbind, res_bind, get_conn. cbn. rewrite Hp. done.
Qed.

(** C7: When a sender resets its stream while a message [fs] that was received waits for its delivery, the buffers of
    that message are released: the delivery that is queued takes a buffer that is not there.  The frames [gs] of
    the sender that were ready stay in the outbound queue, in front of the next message. *)
Theorem ws_reset_undefined env receive bs fs gs b qb c w : w_conn w = Some c -> waiting bs (inbound c) ->
  Forall2 (holds (q_buffers (queue (inbound c)))) bs fs ->
  own (only ready gs) (Some b) (queue (outbound c)) -> current (outbound c) = Some b ->
  q_buffers (queue (outbound c)) !! b = Some qb -> qb_queue qb = true -> qb_cb qb = None ->
  exists w' c', io_ws_connection_stream_reset w = Ok (er_ok, w') /\ w_conn w' = Some c' /\
    idle (inbound c') /\ waiting gs (outbound c') /\ w_now w' = w_now w /\
    forall w2, w_conn w2 = w_conn w' -> io_ws_connection_deliver_stream env receive w2 = UB.
Proof.
  intros Hc [Hi Hci] Hbs Ho Hco Eb Hq Hcb. destruct (own_release _ _ _ _ Ho Eb Hq Hcb) as (q2 & E2 & Ho2 & Em2).
  destruct (wsp_ok io_ws_connection_stream_reset (fun e w' => e = er_ok /\ exists q1 s2, own (only ready []) None q1 /\ waiting gs s2 /\
    w' = setc (set_outbound s2 (set_inbound (set_queue q1 (inbound c)) c)) w) w) as (e & w' & E & -> & q1 & s2 & Ho1 & Hw2 & ->).
  - apply wsp_bind. eapply wsp_get; [done|]. apply wsp_bind. eapply (drain_ready_ok bs fs); [done|exact Hi|exact Hbs| |].
    { pose proof (list_size _ _ ready (ow_rep _ _ _ Hi)) as Hsz. unfold only in Hsz. rewrite set_list_eq in Hsz. lia. }
    intros q1 Ho1. apply wsp_bind. eapply wsp_get; [reflexivity|]. cbn [outbound set_inbound]. rewrite Hco.
    apply wsp_bind. eapply wsp_stream; [reflexivity|]. apply wsp_bind. eapply (wsp_unit outb); [reflexivity|exact E2|].
    apply wsp_ret. split; [done|]. exists q1, (Stream q2 None (readable (outbound c))). split_and!; try done.
  - eexists _, _. split_and!; [exact E|reflexivity|by split|done|done|].
    intros w2 Hc2. by eapply deliver_nothing; [rewrite Hc2; reflexivity|].
Qed.
End Run.

(** ** Examples *)

(** An environment in which every call succeeds; its blocks are at addresses that are not in use. *)
Definition ex_header : Z := 64.
Definition ex_env (A : Type) (tr : list event) (k : call A) : A :=
  match k in call A return A with
  | c_alloc => true
  | c_task_entry => true
  | c_buffer used size => Some (fresh (dom used), replicate (Z.to_nat size) 0)
  | c_url_clone _ => er_ok
  | c_url_free _ => tt
  | c_scheduler_create => er_ok
  | c_scheduler_release => tt
  | c_queue_lock => Ok tt
  | c_queue_pool => Ok tt
  | c_new_token _ => inr er_not_found
  | c_token_policy _ => None
  | c_client_create _ _ _ => er_ok
  | c_client_add_header _ _ => er_ok
  | c_client_connect => er_ok
  | c_client_can_recv => er_ok
  | c_client_can_send => er_ok
  | c_client_disconnect => er_ok
  | c_client_close => tt
  | c_on_reconnect _ => true
  | c_on_stream _ _ => tt
  | c_complete _ _ _ => tt
  end.

Lemma ex_supplied : supplied ex_env ex_header.
Proof.
  split; [done|]. intros tr m. do 2 eexists. split; [reflexivity|]. split_and!; try done; try (by vm_compute).
  apply not_elem_of_dom_1. apply is_fresh.
Qed.

Definition ex_url : io_url := Url None None 443 None None None None.
Definition ex_conn : io_ws_connection (@links node) :=
  Conn ex_url None None 0 60000 true true (Stream ex_queue None 0) (Stream ex_queue None 0) 0 0 None 0 io_ws_connection_status_connected.
Definition ex_world : world (@links node) := World (Some ex_conn) [] [] [] 0 [].

(** Two writes, and a receiver that reads a byte and then what is left. *)
Definition ex_sender : sender := s_write [1; 2] (fun _ => s_write (replicate (Z.to_nat 5000) 3) (fun e => s_done e)).
Definition ex_data : bytes := 1 :: 2 :: replicate (Z.to_nat 5000) 3.
Definition ex_receiver : receiver :=
  r_read 1 (fun _ x => r_readable (fun n => r_read (Z.max 0 n) (fun e y => r_done (x ++ y) e))).

Lemma ex_idle : idle (outbound ex_conn) /\ idle (inbound ex_conn).
Proof.
  assert (Hq : own (only ready []) None ex_queue).
  { destruct (create_rep (D := @links node) (Ok tt) (Ok tt) links0 ex_queue eq_refl) as (Hr & Hb & He). split; [|done| |done].
    - eapply q_rep_ext; [|exact Hr]. by intros [].
    - intros b. rewrite Hb, lookup_empty. by intros [? ?]. }
  by split; split.
Qed.

Lemma ws_transfer_witness : exists e wa' wb' ca' cb',
  transfer ex_env ex_env ex_header ex_header (fun _ => ex_receiver) ex_sender 7 8 (S (length ex_data)) ex_world ex_world = Ok (e, wa', wb') /\
  received (w_trace wb') = [(ex_data, er_ok)] /\ completed (w_trace wa') = [(7, 8, er_ok)] /\
  w_conn wa' = Some ca' /\ idle (outbound ca') /\ w_conn wb' = Some cb' /\ idle (inbound cb').
Proof.
  destruct (ws_transfer (D := @links node) ex_env ex_env ex_header ex_header ex_supplied ex_supplied (fun _ => ex_receiver) ex_receiver ex_sender
    ex_data ex_data 7 8 ex_conn ex_conn ex_world ex_world) as (e & wa' & wb' & ca' & cb' & E & Hr & Hk & H1 & H2 & _ & _ & H3 & H4 & _).
  all: try reflexivity; try apply ex_idle.
  - cbn. split; [lia|]. intros _ x n. split; [lia|done].
  - discriminate.
  - exists e, wa', wb', ca', cb'. split_and!; done.
Defined.

(** A message was received, and the connection is about to send. *)
Definition ex_both : IoWs.M (@links node) prx_error :=
  x ← io_ws_connection_event_handler ex_env ex_header e_begin_recv;
  io_ws_connection_event_handler ex_env ex_header
    (e_end_recv (match x with a_buffer b => b | _ => None end) [9] type_binary_msg er_ok);;
  run_sender ex_env ex_header ex_sender.

Lemma ws_reset_undefined_witness : exists w w', ex_both ex_world = Ok (er_ok, w) /\ w_now w = [t_deliver_stream] /\
  io_ws_connection_stream_reset w = Ok (er_ok, w') /\ w_now w' = [t_deliver_stream] /\
  run_next ex_env (fun _ => ex_receiver) w' = UB.
Proof.
  destruct ex_idle as [Hout Hin]. destruct ex_supplied as [Hent Hpool].
  destruct (wsp_ok ex_both (fun e w => e = er_ok /\ exists c bs s, w_conn w = Some (set_outbound s c) /\ waiting bs (inbound c) /\
    Forall2 (holds (q_buffers (queue (inbound c)))) bs [([9], type_binary_msg)] /\ outgoing ex_data s /\ w_now w = [t_deliver_stream]) ex_world)
    as (e & w & E & -> & c & bs & s & Hc & Hw & Hbs & Hs & Hn).
  - apply wsp_bind. eapply (begin_receive_ok ex_env ex_header Hpool []); [reflexivity|exact Hin|].
    intros b q mem w Ho Hmem _ Eb Hc Hw. apply wsp_bind.
    eapply (end_receive_ok ex_env ex_header Hent [] [] b); [exact Hc|done|exact Ho|done|constructor|exact Eb|done|done|by vm_compute|].
    intros s w1 Hs Hf Hc1 (_ & _ & Hn). eapply (run_sender_ok ex_env ex_header Hpool _ _ []); [exact Hc1|by left|reflexivity|].
    intros s' w2 Hc2 (_ & _ & Hn2) Ho2. split; [done|]. exists (set_inbound s ex_conn), [b], s'. split_and!; try done.
    destruct Hw as (_ & _ & Hw). by rewrite Hn2, Hn, Hw.
  - destruct Hs as [[? _]|(d & b & _ & gs & ds & qb & Ho & Hcur & _ & _ & _ & Eb & [Hq _] & Hcb)]; [discriminate|].
    destruct (ws_reset_undefined (D := @links node) ex_env (fun _ => ex_receiver) bs [([9], type_binary_msg)] gs b qb (set_outbound s c) w Hc Hw Hbs Ho Hcur Eb Hq Hcb)
      as (w' & c' & Er & _ & _ & _ & Hn' & Hub).
    exists w, w'. rewrite Hn in Hn'. split; [exact E|]. split; [exact Hn|]. split; [exact Er|]. split; [exact Hn'|].
    unfold run_next. rewrite Hn'. cbn [run_task]. rewrite Hub by reflexivity. reflexivity.
Defined.
End IoWsSpec.
