(* ===== verification/IoWsLife.v ===== *)
(** * The life of a websocket connection (src/io_ws.c)

    The client of a connection and its credentials: they are made by the first
    attempt to connect only.  No task and no event but the end of the client makes
    new ones, so a connection whose token expired never stays connected again. *)
From Stdlib Require Import String.
From stdpp Require Import base option list numbers sets gmap.
From S2P Require Import Prelude PrxTypes UtilString UtilInt UtilKey IoToken IoUrl DList DListStore IoQueue IoQueueOwn IoWs IoWsSpec.
Import PrxTypes UtilString UtilInt UtilKey IoUrl DList DListStore IoQueue IoQueueOwn IoWs IoWsSpec.
Open Scope Z_scope.

Module IoWsLife.

Create HintDb ws.

Section Life.
Context {D : Type} `{L : dlist_laws D node}.
Variable env : forall A, list event -> call A -> A.
Variable header : Z.
Variable receive : list event -> receiver.
Implicit Types (w : world D) (c : io_ws_connection D).
Abbreviation M := (IoWs.M D).

(** ** Programs that keep the client and its credentials *)

Definition fixed (t : Z) c : Prop := wsclient c = true /\ scheduler c = true /\ expiry c = t.
Definition client (t : Z) w : Prop := exists c, w_conn w = Some c /\ fixed t c.
Definition keeps {A} (t : Z) (p : M A) : Prop := forall w a w', client t w -> p w = Ok (a, w') -> client t w'.

Lemma keeps_ret {A} t (a : A) : keeps t (mret a).
Proof. by intros w b w' Hw [= <- <-]. Qed.
Lemma keeps_bind {A B} t (p : M A) (f : A -> M B) : keeps t p -> (forall a, keeps t (f a)) -> keeps t (p ≫= f).
Proof.
  intros Hp Hf w b w' Hw. unfold mbind, M_bind, mbind, res_bind. destruct (p w) as [[a w1]| |] eqn:E; try done.
  apply Hf. by eapply Hp.
Qed.
Lemma keeps_get {B} t (f : io_ws_connection D -> M B) : (forall c, fixed t c -> keeps t (f c)) -> keeps t (get_conn ≫= f).
Proof.
  intros Hf w b w' (c & Hc & Hx). unfold mbind, M_bind, mbind, res_bind, get_conn. rewrite Hc. cbn. apply Hf; [done|]. by exists c.
Qed.
Lemma keeps_mod t f : (forall c, fixed t c -> fixed t (f c)) -> keeps t (mod_conn f).
Proof.
  intros Hf w b w' (c & Hc & Hx). unfold mod_conn. rewrite Hc. cbn. intros [= <- <-]. eexists. split; [done|]. by apply Hf.
Qed.
Lemma keeps_ub {A} t : keeps t (ub : M A).
Proof. done. Qed.
Lemma keeps_lift {A} t (r : res A) : keeps t (lift r).
Proof. intros w a w' Hw. unfold lift. destruct r; try done. by intros [= <- <-]. Qed.
Lemma keeps_try {A} t (r : res A) : keeps t (try r).
Proof. intros w a w' Hw. unfold try. destruct r; try done; by intros [= <- <-]. Qed.
Lemma keeps_call {A} t (k : call A) : keeps t (do_call env k).
Proof. by intros w a w' Hw [= <- <-]. Qed.
Lemma keeps_ticks t : keeps t ticks_get.
Proof. by intros w a w' Hw [= <- <-]. Qed.
Lemma keeps_receiver t : keeps t (get_receiver receive).
Proof. by intros w a w' Hw [= <- <-]. Qed.
Lemma keeps_clear t p : keeps t (clear p).
Proof. by intros w a w' Hw [= <- <-]. Qed.
Lemma keeps_put_aborted t l : keeps t (put_aborted l).
Proof. by intros w a w' Hw [= <- <-]. Qed.
Hint Resolve keeps_ret keeps_ub keeps_lift keeps_try keeps_call keeps_ticks keeps_receiver keeps_clear keeps_put_aborted : ws.

Ltac keep := repeat first
  [ solve [eauto with ws nocore]
  | apply keeps_get; intros ? ?
  | apply keeps_bind; [|intros ?]
  | apply keeps_mod; intros [] (? & ? & ?); split_and!; done
  | case_bool_decide
  | match goal with
    | |- keeps _ (match ?x with _ => _ end) => destruct x
    | |- keeps _ (if ?x then _ else _) => destruct x
    | |- keeps _ (let _ := _ in _) => cbv zeta
    end ].

Lemma keeps_stream t s f : keeps t (mod_stream s f).
Proof. apply keeps_mod. intros c (? & ? & ?). by destruct s. Qed.
Hint Resolve keeps_stream : ws.
Lemma keeps_queue {A} t s (f : io_queue D -> res (io_queue D * A)) : keeps t (on_queue s f).
Proof. unfold on_queue. keep. Qed.
Hint Resolve keeps_queue : ws.
Lemma keeps_release t s b : keeps t (release_buffer s b).
Proof. unfold release_buffer. keep. Qed.
Lemma keeps_buffer t s b : keeps t (get_buffer s b).
Proof. unfold get_buffer. keep. Qed.
Lemma keeps_put t s b qb : keeps t (put_buffer s b qb).
Proof. unfold put_buffer. keep. Qed.
Hint Resolve keeps_release keeps_buffer keeps_put : ws.
Lemma keeps_mod_buffer t s b f : keeps t (mod_buffer s b f).
Proof. unfold mod_buffer. keep. Qed.
Lemma keeps_create t s : keeps t (create_buffer env header s).
Proof. unfold create_buffer. keep. Qed.
Lemma keeps_schedule t u d : keeps t (schedule env u d).
Proof.
  unfold schedule. keep; intros w b w' Hw; by intros [= <- <-].
Qed.
Hint Resolve keeps_mod_buffer keeps_create keeps_schedule : ws.
Lemma keeps_next t u : keeps t (do_next env u).
Proof. apply keeps_schedule. Qed.
Lemma keeps_later t u d : keeps t (do_later env u d).
Proof. unfold do_later. keep. Qed.
Hint Resolve keeps_next keeps_later : ws.

(** ** Every task and every event *)

Lemma keeps_inbound t : keeps t inbound_current.
Proof. unfold inbound_current. keep. Qed.
Hint Resolve keeps_inbound : ws.
Lemma keeps_reader_loop t fuel : forall count out, keeps t (reader_loop fuel count out).
Proof. induction fuel; intros; cbn [reader_loop]; keep. Qed.
Hint Resolve keeps_reader_loop : ws.
Lemma keeps_reader t count : keeps t (io_ws_connection_stream_reader count).
Proof. unfold io_ws_connection_stream_reader. keep. Qed.
Lemma keeps_readable t : keeps t io_ws_connection_stream_readable.
Proof. unfold io_ws_connection_stream_readable. keep. Qed.
Hint Resolve keeps_reader keeps_readable : ws.
Lemma keeps_run_receiver t r : keeps t (run_receiver r).
Proof. induction r; cbn [run_receiver]; keep. Qed.
Hint Resolve keeps_run_receiver : ws.
Lemma keeps_clear_failures t : keeps t io_ws_connection_clear_failures.
Proof. unfold io_ws_connection_clear_failures. keep. Qed.
Hint Resolve keeps_clear_failures : ws.
Lemma keeps_deliver_loop t fuel : keeps t (deliver_loop env receive fuel).
Proof. induction fuel; cbn [deliver_loop]; keep. Qed.
Lemma keeps_results_loop t fuel : keeps t (results_loop env fuel).
Proof. induction fuel; cbn [results_loop]; keep. Qed.
Lemma keeps_all_done t fuel : keeps t (all_done (D := D) fuel).
Proof. induction fuel; cbn [all_done]; keep. Qed.
Hint Resolve keeps_deliver_loop keeps_results_loop keeps_all_done : ws.

(** The client that is there is used again, with the headers it has. *)
Lemma reconnect_wsclient_kept t w : client t w -> reconnect_wsclient env w = Ok (er_ok, w).
Proof.
  intros (c & Hc & Hx & _). unfold reconnect_wsclient, mbind, M_bind, mbind, res_bind, get_conn. rewrite Hc. cbn. by rewrite Hx.
Qed.
Lemma keeps_reconnect_wsclient t : keeps t (reconnect_wsclient env).
Proof. intros w a w' Hw. rewrite (reconnect_wsclient_kept t w Hw). by intros [= <- <-]. Qed.
Hint Resolve keeps_reconnect_wsclient : ws.

Lemma keeps_free t : keeps t (io_ws_connection_free env).
Proof.
  unfold io_ws_connection_free. apply keeps_bind; [keep|intros _]. apply keeps_get. intros c [Hx _]. rewrite Hx.
  keep.
Qed.
Hint Resolve keeps_free : ws.

Lemma keeps_task t u : keeps t (run_task env receive u).
Proof.
  destruct u; cbn [run_task];
    unfold io_ws_connection_disconnect, io_ws_connection_reset, io_ws_connection_reconnect, io_ws_connection_deliver_stream,
      io_ws_connection_deliver_send_results, io_ws_connection_on_disconnected, io_ws_connection_on_connected, io_ws_connection_monitor; keep.
Qed.

Lemma keeps_event t e : e <> e_closed -> keeps t (io_ws_connection_event_handler env header e).
Proof.
  intros He. destruct e; try done; cbn [io_ws_connection_event_handler];
    unfold io_ws_connection_on_begin_receive, io_ws_connection_on_end_receive, io_ws_connection_on_begin_send, io_ws_connection_on_end_send; keep.
Qed.

Lemma keeps_outbound t : keeps t (outbound_current env header).
Proof. unfold outbound_current. keep. Qed.
Hint Resolve keeps_outbound : ws.
Lemma keeps_writer_loop t fuel : forall buf, keeps t (writer_loop env header fuel buf).
Proof. induction fuel; intros []; cbn [writer_loop]; keep. Qed.
Lemma keeps_drain t fuel s : keeps t (drain_ready (D := D) fuel s).
Proof. induction fuel; cbn [drain_ready]; keep. Qed.
Hint Resolve keeps_writer_loop keeps_drain : ws.
Lemma keeps_reset t : keeps t (io_ws_connection_stream_reset (D := D)).
Proof. unfold io_ws_connection_stream_reset. keep. Qed.
Lemma keeps_writer t data : keeps t (io_ws_connection_stream_writer env header data).
Proof. apply keeps_writer_loop. Qed.
Hint Resolve keeps_reset keeps_writer : ws.
Lemma keeps_run_sender t s : keeps t (run_sender env header s).
Proof. induction s; cbn [run_sender]; keep. Qed.
Hint Resolve keeps_run_sender : ws.

(** ** Runs *)

(** What happens to a connection: time passes, a task runs, the client reports an event, or its user calls it. *)
Inductive op :=
| o_clock (now : Z)
| o_task (t : task)
| o_event (e : pal_wsclient_event)
| o_connect (cb : option Z)
| o_send (s : sender) (cb : option Z) (ctx : Z)
| o_close.

Definition step (o : op) : M unit :=
  match o with
  | o_clock now => fun w => Ok (tt, with_clock now w)
  | o_task t => run_task env receive t
  | o_event e => _ ← io_ws_connection_event_handler env header e; mret tt
  | o_connect cb => _ ← io_ws_connection_connect env cb; mret tt
  | o_send s cb ctx => _ ← io_ws_connection_send env header s cb ctx; mret tt
  | o_close => _ ← io_ws_connection_close env; mret tt
  end.

Fixpoint run (os : list op) : M unit := match os with [] => mret tt | o :: os => step o;; run os end.

Lemma keeps_step t o : o <> o_event e_closed -> keeps t (step o).
Proof.
  intros Ho. destruct o; cbn [step].
  - by intros w a w' Hw [= <- <-].
  - apply keeps_task.
  - apply keeps_bind; [apply keeps_event; congruence|]. keep.
  - unfold io_ws_connection_connect. keep.
  - unfold io_ws_connection_send. keep.
  - unfold io_ws_connection_close. keep.
Qed.

Lemma keeps_run t os : o_event e_closed ∉ os -> keeps t (run os).
Proof.
  induction os as [|o os IH]; intros Ho; cbn [run]; [keep|]. apply keeps_bind; [apply keeps_step|intros _; apply IH]; intros E; apply Ho.
  - subst. apply list_elem_of_here.
  - by right.
Qed.

Hypothesis entries : forall tr, env bool tr c_task_entry = true.

Lemma monitor_expired t w : client t w -> t <> 0 -> t < w_clock w ->
  exists w', run_task env receive t_monitor w = Ok (tt, w') /\ w_conn w' = w_conn w /\ w_now w' = w_now w ++ [t_disconnect] /\ w_later w' = w_later w.
Proof.
  intros (c & Hc & _ & Hs & <-) Ht Hlt. cbn [run_task]. 
  unfold io_ws_connection_monitor, ticks_get, get_conn, mbind, M_bind, mbind, res_bind. rewrite Hc. cbn [chk].
  rewrite bool_decide_eq_true_2 by done. unfold do_next, schedule, do_call, get_conn, mbind, M_bind, mbind, res_bind. rewrite Hc. cbn [chk]. rewrite Hs. cbn.
  rewrite entries. cbn. by eexists.
Qed.

Lemma disconnect_connected c w : w_conn w = Some c -> status c = io_ws_connection_status_connected ->
  exists x w', run_task env receive t_disconnect w = Ok (tt, w') /\ w_trace w' = w_trace w ++ [ev c_client_disconnect x].
Proof.
  intros Hc Hs. destruct (wsp_ok (io_ws_connection_disconnect env) (fun _ w' => exists x, w_trace w' = w_trace w ++ [ev c_client_disconnect x]) w)
    as ([] & w' & E & x & Hx); [|by exists x, w'].
  apply wsp_bind. eapply (wsp_unit outb); [exact Hc|reflexivity|]. apply wsp_bind. eapply wsp_get; [reflexivity|].
  rewrite bool_decide_eq_true_2 by done. apply wsp_bind. apply wsp_call. intros x. apply wsp_ret. by exists x.
Qed.

(** C10: The credentials of a connection are never renewed: whatever happens after the token of a connection that has
    a client was made, until the client is closed, the connection keeps the client and the time at which
    the token expires.  Once that time passed, a run of its monitor queues a disconnect and sets no timer; if the connection is
    connected when the disconnect runs, the client is told to disconnect. *)
Theorem ws_token_never_renewed t os w w' : client t w -> t <> 0 -> o_event e_closed ∉ os -> run os w = Ok (tt, w') -> t < w_clock w' ->
  client t w' /\
  exists w2, run_task env receive t_monitor w' = Ok (tt, w2) /\ w_conn w2 = w_conn w' /\ w_now w2 = w_now w' ++ [t_disconnect] /\
    w_later w2 = w_later w' /\
    forall c3 w3, w_conn w3 = Some c3 -> status c3 = io_ws_connection_status_connected ->
      exists x w4, run_task env receive t_disconnect w3 = Ok (tt, w4) /\ w_trace w4 = w_trace w3 ++ [ev c_client_disconnect x].
Proof.
  intros Hw Ht Hos Hrun Hlt. assert (Hw' : client t w') by by eapply keeps_run.
  split; [done|]. destruct (monitor_expired t w' Hw' Ht Hlt) as (w2 & E & Hc & Hn & Hl). exists w2. split_and!; try done.
  by apply disconnect_connected.
Qed.

(** ** Closing *)

(** The lists of the two queues of a connection that is not in the middle of a message; a buffer of the
    inbound queue has no callback. *)
Record settled (f g : lists) c : Prop := {
  se_out : q_rep (queue (outbound c)) f;
  se_in : q_rep (queue (inbound c)) g;
  se_current : current (outbound c) = None /\ current (inbound c) = None;
  se_events : q_events (queue (outbound c)) = [] /\ q_events (queue (inbound c)) = [];
  se_silent : abort_events (q_buffers (queue (inbound c))) (all_lists g) = [];
}.

(** The end of [io_ws_connection_free], once there is no client. *)
Lemma ws_free_ok f g q c w : w_conn w = Some c -> wsclient c = false -> scheduler c = true -> settled f g (set_outbound (set_queue q (outbound c)) c) ->
  queue (outbound c) = abort_q q (all_lists f) ->
  exists w', io_ws_connection_free env w = Ok (tt, w') /\ w_conn w' = None /\ w_now w' = [] /\ w_later w' = [] /\
    w_aborted w' = abort_events (q_buffers q) (all_lists f).
Proof.
  intros Hc Hx Hs [Ho Hi [Hco Hci] [Heo Hei] Hsil] Hq. cbn in *.
  destruct (release_all_rep _ _ Hi) as (d1 & E1 & _). cbv zeta in *.
  destruct (release_all_rep (queue (outbound c)) f) as (d2 & E2 & _); [rewrite Hq; by apply abort_q_rep|]. cbv zeta in *.
  destruct (wsp_ok (io_ws_connection_free env) (fun _ w' => w_conn w' = None /\ w_now w' = [] /\ w_later w' = [] /\
    w_aborted w' = abort_events (q_buffers q) (all_lists f)) w) as ([] & w' & E & Hw'); [|by exists w'].
  unfold io_ws_connection_free. apply wsp_bind. eapply wsp_mod; [done|]. apply wsp_bind. eapply wsp_get; [reflexivity|].
  rewrite bool_decide_eq_false_2 by done. cbn [wsclient set_status]. rewrite Hx. apply wsp_bind. eapply wsp_mod; [reflexivity|].
  cbn [scheduler set_status]. rewrite Hs. apply wsp_bind. apply wsp_bind. unfold clear at 1, wp at 1. apply wsp_call. intros [].
  cbn [inbound outbound set_status]. rewrite Hci, Hco. apply wsp_bind. unfold release_buffer. eapply (wsp_unit inb); [reflexivity|reflexivity|].
  apply wsp_bind. eapply (wsp_unit inb); [reflexivity|exact E1|]. apply wsp_bind. eapply (wsp_unit outb); [reflexivity|reflexivity|].
  apply wsp_bind. eapply (wsp_unit outb); [reflexivity|exact E2|]. apply wsp_bind. apply wsp_call. intros [].
  apply wsp_bind. eapply wsp_get; [reflexivity|]. cbn. split_and!; try done.
  - clear. induction (w_now w) as [|x l IH]; [done|]. by rewrite filter_cons_False.
  - clear. induction (w_later w) as [|x l IH]; [done|]. by rewrite filter_cons_False.
  - rewrite Hei, Hsil, Hq. cbn. rewrite Heo. cbn. rewrite abort_events_cleared by done. by rewrite app_nil_r.
Qed.

Lemma ws_close_ok f g c w : w_conn w = Some c -> wsclient c = true -> settled f g c ->
  exists w', io_ws_connection_close env w = Ok (er_ok, w') /\ w_now w' = w_now w /\
    w_trace w' = w_trace w ++ [ev c_client_close tt] /\
    w_conn w' = Some (set_status io_ws_connection_status_closing (set_outbound (set_queue (abort_q (queue (outbound c)) (all_lists f)) (outbound c))
      (set_reconnect_cb None c))).
Proof.
  intros Hc Hx [Ho _ _ _ _].
  destruct (wsp_ok (io_ws_connection_close env) (fun e w' => e = er_ok /\ w_now w' = w_now w /\
    w_trace w' = w_trace w ++ [ev c_client_close tt] /\
    w_conn w' = Some (set_status io_ws_connection_status_closing (set_outbound (set_queue (abort_q (queue (outbound c)) (all_lists f)) (outbound c))
      (set_reconnect_cb None c)))) w) as (e & w' & E & -> & Hw'); [|by exists w'].
  unfold io_ws_connection_close. apply wsp_bind. eapply wsp_mod; [done|]. apply wsp_bind.
  eapply (wsp_unit outb); [reflexivity|by apply abort_all|]. apply wsp_bind. apply wsp_bind. eapply wsp_mod; [reflexivity|].
  apply wsp_bind. eapply wsp_get; [reflexivity|]. rewrite bool_decide_eq_false_2 by done. cbn [wsclient set_status set_stream set_outbound set_reconnect_cb]. rewrite Hx.
  apply wsp_call. intros []. by apply wsp_ret.
Qed.

(** The client of a connection that is closing reports that it is closed. *)
Lemma ws_closed_event f g c w : w_conn w = Some c -> wsclient c = true -> scheduler c = true -> settled f g c ->
  exists w1 w2 c1, io_ws_connection_close env w = Ok (er_ok, w1) /\ w_trace w1 = w_trace w ++ [ev c_client_close tt] /\
    io_ws_connection_event_handler env header e_closed w1 = Ok (a_none, w2) /\ w_now w2 = w_now w ++ [t_free] /\
    w_conn w2 = Some c1 /\ wsclient c1 = false /\ scheduler c1 = true /\ reconnect_cb c1 = None /\
    settled f g (set_outbound (set_queue (queue (outbound c)) (outbound c1)) c1) /\
    queue (outbound c1) = abort_q (queue (outbound c)) (all_lists f).
Proof.
  intros Hc Hx Hs Hset. destruct (ws_close_ok f g c w Hc Hx Hset) as (w1 & E1 & Hn1 & Ht1 & Hc1).
  set (c1 := set_status _ _) in Hc1.
  destruct (wsp_ok (io_ws_connection_event_handler env header e_closed) (fun a w2 => a = a_none /\ w_now w2 = w_now w1 ++ [t_free] /\
    w_conn w2 = Some (set_wsclient false c1)) w1) as (a & w2 & E2 & -> & Hn2 & Hc2).
  { cbn [io_ws_connection_event_handler]. apply wsp_bind. eapply wsp_mod; [exact Hc1|]. apply wsp_bind.
    eapply (next_ok env entries); [reflexivity|done|]. intros w' Hc' (_ & _ & Hn'). apply wsp_ret. done. }
  exists w1, w2, (set_wsclient false c1). rewrite Hn2, Hn1. split_and!; try done. by destruct Hset.
Qed.

(** C8: Closing a connection that has a client, when no task of the connection is due and no message is in the middle of being
    sent or read, asks the client to close; when the client reports that as its next event, the next task that
    the scheduler runs frees the connection and clears its timers.  Every callback of a message that is in the
    outbound queue is called once, with [er_aborted], and no other one is. *)
Theorem ws_close_frees f g c w : w_conn w = Some c -> wsclient c = true -> scheduler c = true -> settled f g c -> w_now w = [] ->
  exists w1 w2 w3, io_ws_connection_close env w = Ok (er_ok, w1) /\ w_trace w1 = w_trace w ++ [ev c_client_close tt] /\
    io_ws_connection_event_handler env header e_closed w1 = Ok (a_none, w2) /\
    run_next env receive w2 = Ok w3 /\ w_conn w3 = None /\ w_now w3 = [] /\ w_later w3 = [] /\
    w_aborted w3 = abort_events (q_buffers (queue (outbound c))) (all_lists f).
Proof.
  intros Hc Hx Hs Hset Hn. destruct (ws_closed_event f g c w Hc Hx Hs Hset) as (w1 & w2 & c1 & E1 & Ht1 & E2 & Hn2 & Hc2 & Hx2 & Hs2 & _ & Hset2 & Hq).
  destruct (ws_free_ok f g (queue (outbound c)) c1 (with_tasks [] (w_later w2) w2) Hc2) as (w3 & E3 & Hc3 & Hn3 & Hl3 & Ha3); try done.
  exists w1, w2, w3. split_and!; try done. unfold run_next. rewrite Hn2, Hn. cbn [app run_task]. by rewrite E3.
Qed.

End Life.

(** ** Examples *)

(** The token of the connection expired at 5; it was disconnected and connects again. *)
Definition ex_expired : world (@links node) := World (Some (set_expiry 5 ex_conn)) [] [] [] 10 [].
Definition ex_again : list op := [o_task t_disconnect; o_event (e_disconnected er_ok); o_task t_on_disconnected; o_task t_reset; o_task t_reconnect].

Lemma ex_again_ok : exists w, run ex_env ex_header (fun _ => ex_receiver) ex_again ex_expired = Ok (tt, w) /\ w_clock w = 10.
Proof.
  assert (Hck : match run ex_env ex_header (fun _ => ex_receiver) ex_again ex_expired with Ok (_, w) => w_clock w | _ => 0 end = 10)
    by (vm_compute; reflexivity).
  destruct (run _ _ _ _ _) as [[[] w]| |]; [by exists w|discriminate Hck..].
Qed.

Lemma ex_client : client 5 ex_expired.
Proof. exists (set_expiry 5 ex_conn). split; [reflexivity|]. split_and!; reflexivity. Qed.
Lemma ex_open : o_event e_closed ∉ ex_again.
Proof. unfold ex_again. rewrite !not_elem_of_cons. split_and!; try discriminate. apply not_elem_of_nil. Qed.

Lemma ws_token_never_renewed_witness : exists w w2, run ex_env ex_header (fun _ => ex_receiver) ex_again ex_expired = Ok (tt, w) /\ client 5 w /\
  run_task ex_env (fun _ => ex_receiver) t_monitor w = Ok (tt, w2) /\ w_now w2 = w_now w ++ [t_disconnect].
Proof.
  destruct ex_again_ok as (w & E & Hck).
  destruct (ws_token_never_renewed (D := @links node) ex_env ex_header (fun _ => ex_receiver) (proj1 ex_supplied) 5 ex_again ex_expired w) as (Hw & w2 & E2 & _ & Hn & _ & _);
    [exact ex_client|discriminate|exact ex_open|exact E|rewrite Hck; reflexivity|].
  exists w, w2. split; [exact E|]. split; [exact Hw|]. split; [exact E2|exact Hn].
Defined.

(** A frame of a message whose sender has callback 7 with context 8. *)
Definition ex_frame : io_queue_buffer := mk_buffer true (Some 7) 8 type_binary_msg er_ok 1 0 1 [9].

Lemma ex_pending : exists q : io_queue (@links node), own (only ready [1]) None q /\ q_buffers q !! 1 = Some ex_frame.
Proof.
  destruct ex_idle as [[Ho _] _]. pose (mem := replicate (Z.to_nat (DEFAULT_FRAME_SIZE + ex_header)) 0).
  destruct (own_new (D := @links node) (len := DEFAULT_FRAME_SIZE) ex_header (only ready []) ex_queue 1 mem (fun _ => Some (1, mem)) Ho) as (q & _ & Hq & Eq); [|done|].
  { split_and!; try done; by vm_compute. }
  destruct (push_ready (D := @links node) [] 1 ex_frame q Hq) as (q' & _ & Hq' & Eb & _); [rewrite Eq, lookup_insert_eq; eauto|done|].
  by exists q'.
Qed.

Lemma ws_close_frees_witness : exists w w1 w2 w3, io_ws_connection_close ex_env w = Ok (er_ok, w1) /\
  io_ws_connection_event_handler ex_env ex_header e_closed w1 = Ok (a_none, w2) /\
  run_next ex_env (fun _ => ex_receiver) w2 = Ok w3 /\ w_conn w3 = None /\ w_aborted w3 = [(7, 8, er_aborted)].
Proof.
  destruct ex_pending as (q & Ho & Eb). destruct ex_idle as [_ [Hi _]].
  pose (c := set_outbound (Stream q None 0) ex_conn).
  destruct (ws_close_frees (D := @links node) ex_env ex_header (fun _ => ex_receiver) (proj1 ex_supplied) (only ready [1]) (only ready []) c (setc c ex_world))
    as (w1 & w2 & w3 & E1 & _ & E2 & E3 & Hc & _ & _ & Ha); [reflexivity|reflexivity|reflexivity| |reflexivity|].
  - split; [apply (ow_rep _ _ _ Ho)|apply (ow_rep _ _ _ Hi)|done|split; [apply (ow_events _ _ _ Ho)|done]|done].
  - exists (setc c ex_world), w1, w2, w3. split; [exact E1|]. split; [exact E2|]. split; [exact E3|]. split; [exact Hc|].
    rewrite Ha. change (abort_events (q_buffers q) [1] = [(7, 8, er_aborted)]). unfold abort_events. cbn [flat_map]. rewrite Eb. reflexivity.
Defined.

End IoWsLife.
