(* ===== verification/PrxBrowse.v ===== *)
(** * Browse server (src/prx_browse.c)

    A browse server has sessions, each on a socket of a remote client.  Requests are read from the inbound queue of
    a session; a request with a handle that is not known makes a stream, which is found again through a hashtable; responses
    go to the outbound queue.  Model: a state monad over the server, its sessions and streams, which are found by
    their address, the tasks, the clock and a trace of the calls to the outside, whose answers an environment chooses. *)
From Stdlib Require Import String.
From stdpp Require Import base option list numbers sets gmap.
From S2P Require Import Prelude PrxTypes UtilString UtilInt UtilKey IoMem IoCodec IoRef IoBrowse DList DListStore IoQueue.
Import PrxTypes UtilString UtilInt UtilKey IoMem IoCodec IoRef IoBrowse DList DListStore IoQueue.
Open Scope Z_scope.

Module PrxBrowse.

Definition MAX_MESSAGE_SIZE : Z := 2048.
(** In milliseconds. *)
Definition STREAM_TIMEOUT : Z := 3000.

(** [sv_sessions]: the sessions in the list of the server; the client for service discovery and the scheduler: whether they
    are set. *)
Record prx_browse_server := Server {
  sv_sessions : list Z;
  sv_allow_fs_browse : bool;
  sv_sdclient : bool;
  sv_scheduler : bool;
  sv_destroy : bool;
}.

(** ** The hashtable

    A key is a pointer to a handle, here to the member of a variable on the stack: of the request with the number
    [k_request]; [k_handle] is what it held.  The table keeps the pointer, with the hash of what it points to. *)
Record key := Key { k_request : Z; k_handle : io_ref }.
Record entry := Entry { e_hash : Z; e_key : key; e_stream : Z }.

(** [kt_search], [kt_remove]: keys with the hash of [handle] are read and compared.  [kt_items]: the entries, in the order in which
    an iterator passes them; [it_rest]: those that it has not passed, with the one it is at in front. *)
Class key_table (T I : Type) := {
  kt_empty : T;
  kt_count : T -> Z;
  kt_insert : T -> entry -> T;
  kt_search : (key -> res io_ref) -> T -> io_ref -> res (option Z);
  kt_remove : (key -> res io_ref) -> T -> io_ref -> res T;
  kt_iterator : T -> I;
  it_value : I -> T -> Z;
  it_remove : I -> T -> bool * I * T;
  kt_items : T -> list entry;
  it_rest : I -> T -> list entry;
}.

(** The entries whose keys a search for [handle] has to compare. *)
Definition candidates {T I} `{key_table T I} (handle : io_ref) (t : T) : list entry :=
  filter (fun e => e_hash e = io_ref_hash handle) (kt_items t).

(** What the users of the table rely on.  Entries with one hash are compared in an order that is not known. *)
Class key_table_laws (T I : Type) `{key_table T I} := {
  kt_empty_items : kt_items kt_empty = [];
  kt_count_items t : kt_count t = zlen (kt_items t);
  kt_insert_items t e : kt_items (kt_insert t e) ≡ₚ e :: kt_items t;
  kt_search_none read t handle : candidates handle t = [] -> kt_search read t handle = Ok None;
  kt_search_one read t handle e : candidates handle t = [e] ->
    kt_search read t handle = (k ← read (e_key e); Ok (if io_ref_equals (Some k) (Some handle) then Some (e_stream e) else None));
  kt_iterator_rest t : it_rest (kt_iterator t) t = kt_items t;
  it_value_rest i t e l : it_rest i t = e :: l -> it_value i t = e_stream e;
  it_remove_rest i t e l b i' t' : it_rest i t = e :: l -> kt_items t = it_rest i t -> it_remove i t = (b, i', t') ->
    kt_items t' = l /\ it_rest i' t' = l /\ b = bool_decide (l <> []);
}.

(** [ss_server]: whether the session is in the list of the server; [ss_requests]: the table of streams.
    The scheduler of a session is that of the server from the start. *)
Record prx_browse_session (D T : Type) := Session {
  ss_sock : option Z;
  ss_closed : bool;
  ss_destroy : bool;
  ss_server : bool;
  ss_codec : option io_codec_id;
  ss_inbound : option (io_queue D);
  ss_outbound : option (io_queue D);
  ss_last_error : prx_error;
  ss_requests : option T;
}.
Arguments Session {D T}. Arguments ss_sock {D T}. Arguments ss_closed {D T}. Arguments ss_destroy {D T}. Arguments ss_server {D T}.
Arguments ss_codec {D T}. Arguments ss_inbound {D T}. Arguments ss_outbound {D T}. Arguments ss_last_error {D T}. Arguments ss_requests {D T}.

Record prx_browse_stream := Stream { st_session : Z; st_handle : io_ref; st_sdbrowser : bool }.

Definition set_sock {D T} (v : option Z) (s : prx_browse_session D T) : prx_browse_session D T :=
  Session v (ss_closed s) (ss_destroy s) (ss_server s) (ss_codec s) (ss_inbound s) (ss_outbound s) (ss_last_error s) (ss_requests s).
Definition set_state {D T} (closed destroy : bool) (s : prx_browse_session D T) : prx_browse_session D T :=
  Session (ss_sock s) closed destroy (ss_server s) (ss_codec s) (ss_inbound s) (ss_outbound s) (ss_last_error s) (ss_requests s).
Definition set_in_server {D T} (s : prx_browse_session D T) : prx_browse_session D T :=
  Session (ss_sock s) (ss_closed s) (ss_destroy s) true (ss_codec s) (ss_inbound s) (ss_outbound s) (ss_last_error s) (ss_requests s).
Definition set_codec {D T} (v : option io_codec_id) (s : prx_browse_session D T) : prx_browse_session D T :=
  Session (ss_sock s) (ss_closed s) (ss_destroy s) (ss_server s) v (ss_inbound s) (ss_outbound s) (ss_last_error s) (ss_requests s).
Definition set_inbound {D T} (v : option (io_queue D)) (s : prx_browse_session D T) : prx_browse_session D T :=
  Session (ss_sock s) (ss_closed s) (ss_destroy s) (ss_server s) (ss_codec s) v (ss_outbound s) (ss_last_error s) (ss_requests s).
Definition set_outbound {D T} (v : option (io_queue D)) (s : prx_browse_session D T) : prx_browse_session D T :=
  Session (ss_sock s) (ss_closed s) (ss_destroy s) (ss_server s) (ss_codec s) (ss_inbound s) v (ss_last_error s) (ss_requests s).
Definition set_last_error {D T} (v : prx_error) (s : prx_browse_session D T) : prx_browse_session D T :=
  Session (ss_sock s) (ss_closed s) (ss_destroy s) (ss_server s) (ss_codec s) (ss_inbound s) (ss_outbound s) v (ss_requests s).
Definition set_requests {D T} (v : option T) (s : prx_browse_session D T) : prx_browse_session D T :=
  Session (ss_sock s) (ss_closed s) (ss_destroy s) (ss_server s) (ss_codec s) (ss_inbound s) (ss_outbound s) (ss_last_error s) v.

(** ** Tasks and calls *)

Inductive task :=
| t_session_free (s : Z)
| t_send_buffers (s : Z)
| t_receive_buffers (s : Z)
| t_socket_opened (s : Z)
| t_socket_closed (s : Z)
| t_stream_timeout (st : Z)
| t_server_free.

#[export] Instance task_eq_dec : EqDecision task.
Proof. solve_decision. Defined.

Inductive context := x_session (s : Z) | x_stream (st : Z) | x_server.

#[export] Instance context_eq_dec : EqDecision context.
Proof. solve_decision. Defined.

Definition context_of (t : task) : context :=
  match t with
  | t_session_free s | t_send_buffers s | t_receive_buffers s | t_socket_opened s | t_socket_closed s => x_session s
  | t_stream_timeout st => x_stream st
  | t_server_free => x_server
  end.

(** [c_read_dir]: the calls of the callback, with an error, a name and the information about the file, and the result. *)
Inductive call : Type -> Type :=
| c_alloc : call bool
| c_task_entry : call bool
| c_buffer (used : gmap Z io_queue_buffer) (size : Z) : call (option (Z * bytes))
| c_hashtable_create : call bool
| c_hashtable_insert : call bool
| c_hashtable_iterator : call bool
| c_hashtable_destroy : call unit
| c_lock_create : call prx_error
| c_scheduler_create : call prx_error
| c_scheduler_release : call unit
| c_queue_lock : call (res unit)
| c_queue_pool : call (res unit)
| c_caps : call (bool * bool)
| c_config_browse_fs : call Z
| c_sdclient_create : call prx_error
| c_sdclient_release : call unit
| c_sdbrowser_create (st : Z) : call prx_error
| c_sdbrowser_browse (st : Z) (name type domain : option bytes) : call prx_error
| c_sdbrowser_free (st : Z) : call unit
| c_read_dir (path : bytes) : call (list (prx_error * option bytes * option prx_file_info) * prx_error)
| c_socket_can_send (sock : option Z) : call prx_error
| c_socket_can_recv (sock : option Z) : call prx_error
| c_socket_close (sock : option Z) : call unit
| c_socket_free (sock : Z) : call unit.

Inductive event := ev (A : Type) (c : call A) (a : A).
Arguments ev {A}.

(** [w_request]: the request that is processed, by number; [w_next]: the next address. *)
Record world (D T : Type) := World {
  w_server : option prx_browse_server;
  w_sessions : gmap Z (prx_browse_session D T);
  w_streams : gmap Z prx_browse_stream;
  w_next : Z;
  w_request : Z;
  w_now : list task;
  w_later : list (Z * task);
  w_clock : Z;
  w_trace : list event;
}.
Arguments World {D T}. Arguments w_server {D T}. Arguments w_sessions {D T}. Arguments w_streams {D T}. Arguments w_next {D T}.
Arguments w_request {D T}. Arguments w_now {D T}. Arguments w_later {D T}. Arguments w_clock {D T}. Arguments w_trace {D T}.

Definition with_server {D T} (v : option prx_browse_server) (w : world D T) : world D T :=
  World v (w_sessions w) (w_streams w) (w_next w) (w_request w) (w_now w) (w_later w) (w_clock w) (w_trace w).
Definition with_sessions {D T} (m : gmap Z (prx_browse_session D T)) (w : world D T) : world D T :=
  World (w_server w) m (w_streams w) (w_next w) (w_request w) (w_now w) (w_later w) (w_clock w) (w_trace w).
Definition with_streams {D T} (m : gmap Z prx_browse_stream) (w : world D T) : world D T :=
  World (w_server w) (w_sessions w) m (w_next w) (w_request w) (w_now w) (w_later w) (w_clock w) (w_trace w).
Definition with_next {D T} (n : Z) (w : world D T) : world D T :=
  World (w_server w) (w_sessions w) (w_streams w) n (w_request w) (w_now w) (w_later w) (w_clock w) (w_trace w).
Definition with_request {D T} (n : Z) (w : world D T) : world D T :=
  World (w_server w) (w_sessions w) (w_streams w) (w_next w) n (w_now w) (w_later w) (w_clock w) (w_trace w).
Definition with_tasks {D T} (now : list task) (later : list (Z * task)) (w : world D T) : world D T :=
  World (w_server w) (w_sessions w) (w_streams w) (w_next w) (w_request w) now later (w_clock w) (w_trace w).
Definition with_trace {D T} (tr : list event) (w : world D T) : world D T :=
  World (w_server w) (w_sessions w) (w_streams w) (w_next w) (w_request w) (w_now w) (w_later w) (w_clock w) tr.

Definition M (D T A : Type) := world D T -> res (A * world D T).
#[export] Instance M_ret D T : MRet (M D T) := fun A a w => Ok (a, w).
#[export] Instance M_bind D T : MBind (M D T) := fun A B f m w => '(a, w) ← m w; f a w.

Fixpoint insert_later (d : Z) (t : task) (l : list (Z * task)) : list (Z * task) :=
  match l with
  | [] => [(d, t)]
  | x :: l' => if bool_decide (d < fst x) then (d, t) :: l else x :: insert_later d t l'
  end.

(** The two queues of a session. *)
Inductive side := inb | outb.
Definition queue_of {D T} (x : side) (s : prx_browse_session D T) : option (io_queue D) :=
  match x with inb => ss_inbound s | outb => ss_outbound s end.
Definition set_queue {D T} (x : side) (q : io_queue D) (s : prx_browse_session D T) : prx_browse_session D T :=
  match x with inb => set_inbound (Some q) s | outb => set_outbound (Some q) s end.

Section Model.
Context {D T I : Type} `{dlist D node} `{key_table T I}.
Variable env : forall A, list event -> call A -> A.
(** The size of the structure in front of the bytes of a buffer. *)
Variable header : Z.
(** The document of a response, and the request in a document: [io_codec_ctx_init], the functions of io_browse.c and
    [io_codec_ctx_fini] with the codec of the session. *)
Variable encode : io_codec_id -> io_browse_response ptr -> res bytes.
Variable decode : io_codec_id -> bytes -> res io_browse_request.
Abbreviation M := (M D T).

Definition ub {A} : M A := fun _ => UB.
Definition lift {A} (r : res A) : M A := fun w => a ← r; Ok (a, w).
(** A call whose error is handled. *)
Definition try {A} (r : res A) : M (A + prx_error) := fun w =>
  match r with Ok a => Ok (inl a, w) | Err e => Ok (inr e, w) | UB => UB end.
Definition do_call {A} (c : call A) : M A := fun w =>
  let x := env A (w_trace w) c in Ok (x, with_trace (w_trace w ++ [ev c x]) w).
Definition get_server : M prx_browse_server := fun w => v ← chk (w_server w); Ok (v, w).
Definition put_server (v : option prx_browse_server) : M unit := fun w => Ok (tt, with_server v w).
Definition get_session (s : Z) : M (prx_browse_session D T) := fun w => v ← chk (w_sessions w !! s); Ok (v, w).
Definition put_session (s : Z) (v : prx_browse_session D T) : M unit := fun w => Ok (tt, with_sessions (<[s := v]> (w_sessions w)) w).
Definition mod_session (s : Z) (f : prx_browse_session D T -> prx_browse_session D T) : M unit := v ← get_session s; put_session s (f v).
Definition drop_session (s : Z) : M unit := fun w => Ok (tt, with_sessions (delete s (w_sessions w)) w).
Definition get_stream (st : Z) : M prx_browse_stream := fun w => v ← chk (w_streams w !! st); Ok (v, w).
Definition put_stream (st : Z) (v : prx_browse_stream) : M unit := fun w => Ok (tt, with_streams (<[st := v]> (w_streams w)) w).
Definition drop_stream (st : Z) : M unit := fun w => Ok (tt, with_streams (delete st (w_streams w)) w).
Definition new_address : M Z := fun w => Ok (w_next w, with_next (w_next w + 1) w).
Definition get_request : M Z := fun w => Ok (w_request w, w).
Definition next_request : M unit := fun w => Ok (tt, with_request (w_request w + 1) w).

(** [prx_scheduler_queue] and [prx_scheduler_clear] for a task, or for all of a context. *)
Definition schedule (t : task) (delay : Z) : M unit :=
  ok ← do_call c_task_entry;
  if negb ok then mret tt
  else fun w =>
    if bool_decide (delay = 0) then Ok (tt, with_tasks (w_now w ++ [t]) (w_later w) w)
    else Ok (tt, with_tasks (w_now w) (insert_later (w_clock w + delay) t (w_later w)) w).
Definition clear (p : task -> bool) : M unit := fun w =>
  Ok (tt, with_tasks (filter (fun t => p t = false) (w_now w)) (filter (fun x => p (snd x) = false) (w_later w)) w).
Definition clear_context (x : context) : M unit := clear (fun t => bool_decide (context_of t = x)).
Definition do_next (t : task) : M unit := schedule t 0.
Definition do_later (t : task) (delay : Z) : M unit := clear (fun u => bool_decide (u = t));; schedule t delay.
Definition scheduler_release (x : context) : M unit := clear_context x;; do_call c_scheduler_release.

(** Operations of a queue. *)
Definition on_queue {A} (s : Z) (x : side) (f : io_queue D -> res (io_queue D * A)) : M A :=
  v ← get_session s;
  q ← lift (chk (queue_of x v));
  '(q, a) ← lift (f q);
  put_session s (set_queue x q v);;
  mret a.
Definition unit_op (f : io_queue D -> res (io_queue D)) (q : io_queue D) : res (io_queue D * unit) := q ← f q; Ok (q, tt).
Definition release_buffer (s : Z) (x : side) (b : Z) : M unit := on_queue s x (unit_op (fun q => io_queue_buffer_release q (Some b))).
Definition get_buffer (s : Z) (x : side) (b : Z) : M io_queue_buffer :=
  v ← get_session s; q ← lift (chk (queue_of x v)); lift (chk (q_buffers q !! b)).
Definition put_buffer (s : Z) (x : side) (b : Z) (qb : io_queue_buffer) : M unit :=
  on_queue s x (fun q => Ok (mk_queue (q_links q) (<[b := qb]> (q_buffers q)) (q_events q), tt)).

(** [inr]: the error of [io_queue_create_buffer]. *)
Definition create_buffer (s : Z) (x : side) : M (Z + prx_error) :=
  v ← get_session s;
  q ← lift (chk (queue_of x v));
  block ← do_call (c_buffer (q_buffers q) (u64 (MAX_MESSAGE_SIZE + header)));
  r ← try (io_queue_create_buffer header (fun _ => block) q None MAX_MESSAGE_SIZE);
  match r with
  | inl (q, b) => put_session s (set_queue x q v);; mret (inl b)
  | inr e => mret (inr e)
  end.

(** ** Streams and sessions *)

Definition prx_browse_stream_free (st : Z) : M unit :=
  v ← get_stream st;
  clear_context (x_stream st);;
  (if st_sdbrowser v then do_call (c_sdbrowser_free st) else mret tt);;
  drop_stream st.

(** The streams from the iterator [i] on. *)
Fixpoint free_streams (fuel : nat) (s : Z) (i : I) : M unit :=
  match fuel with
  | O => ub
  | S fuel =>
      v ← get_session s;
      t ← lift (chk (ss_requests v));
      prx_browse_stream_free (it_value i t);;
      let '(more, i, t) := it_remove i t in
      put_session s (set_requests (Some t) v);;
      if (more : bool) then free_streams fuel s i else mret tt
  end.

(** The part that is run whenever [prx_browse_session_free] is called. *)
Definition session_free_streams (s : Z) : M unit :=
  v ← get_session s;
  t ← lift (chk (ss_requests v));
  if bool_decide (kt_count t > 0) then
    ok ← do_call c_hashtable_iterator;
    if negb ok then mret tt else free_streams (Z.to_nat (kt_count t)) s (kt_iterator t)
  else mret tt.

Definition queue_free (q : option (io_queue D)) : M unit :=
  match q with None => mret tt | Some q => _ ← lift (io_queue_free q true); mret tt end.

Definition prx_browse_session_free (s : Z) : M unit :=
  session_free_streams s;;
  v ← get_session s;
  if negb (ss_destroy v) then
    if negb (ss_closed v) then
      do_call (c_socket_close (ss_sock v));;
      mod_session s (set_state true (ss_destroy v))
    else mret tt
  else
    do_call c_hashtable_destroy;;
    match ss_sock v with Some sock => do_call (c_socket_free sock) | None => mret tt end;;
    queue_free (ss_outbound v);;
    queue_free (ss_inbound v);;
    scheduler_release (x_session s);;
    (if ss_server v then
       sv ← get_server;
       put_server (Some (Server (filter (fun x => x <> s) (sv_sessions sv)) (sv_allow_fs_browse sv) (sv_sdclient sv) (sv_scheduler sv) (sv_destroy sv)));;
       if sv_destroy sv then do_next t_server_free else mret tt
     else mret tt);;
    drop_session s.

Definition prx_browse_session_send_buffers (s : Z) : M unit :=
  v ← get_session s;
  _ ← do_call (c_socket_can_send (ss_sock v));
  mret tt.

(** The document is written through the stream of the buffer, which takes what fits. *)
Definition prx_browse_session_send_response (s : Z) (browse_response : io_browse_response ptr) : M unit :=
  b ← create_buffer s outb;
  match b with
  | inr _ => mret tt
  | inl b =>
      v ← get_session s;
      codec ← lift (chk (ss_codec v));
      qb ← get_buffer s outb b;
      r ← try (data ← encode codec browse_response; io_queue_buffer_stream_writer qb (Some data) (zlen data));
      match r with
      | inr _ => release_buffer s outb b
      | inl qb =>
          put_buffer s outb b qb;;
          on_queue s outb (unit_op (fun q => io_queue_buffer_set_ready q (Some b)));;
          do_next (t_send_buffers s)
      end
  end.

Definition zero_response : io_browse_response ptr := mk_response (zeros 16) 0 0 sa_unspec 0 [].
Definition empty_response (handle : io_ref) (error : prx_error) (flags : Z) : io_browse_response ptr :=
  mk_response handle flags (error_value error) sa_unspec 0 [].

Definition prx_browse_session_send_error_response (s : Z) (handle : io_ref) (error : prx_error) : M unit :=
  mod_session s (set_last_error error);;
  prx_browse_session_send_response s (empty_response handle error io_browse_response_empty).

Definition prx_browse_stream_timeout (st : Z) : M unit :=
  v ← get_stream st;
  prx_browse_session_send_response (st_session v)
    (empty_response (st_handle v) er_ok (Z.lor io_browse_response_empty io_browse_response_allfornow)).

(** ** Requests *)

(** A key can be read while the request that it points to is on the stack. *)
Definition read_key (request : Z) (k : key) : res io_ref := if bool_decide (k_request k = request) then Ok (k_handle k) else UB.
Definition prx_browse_session_get (s : Z) (handle : io_ref) : M (option Z) :=
  v ← get_session s; t ← lift (chk (ss_requests v)); n ← get_request; lift (kt_search (read_key n) t handle).
Definition prx_browse_session_remove (s : Z) (handle : io_ref) : M unit :=
  v ← get_session s;
  t ← lift (chk (ss_requests v));
  n ← get_request;
  t ← lift (kt_remove (read_key n) t handle);
  put_session s (set_requests (Some t) v).

Definition prx_browse_session_get_or_create_request (s : Z) (handle : io_ref) : M (Z + prx_error) :=
  r ← prx_browse_session_get s handle;
  match r with
  | Some st => mret (inl st)
  | None =>
      ok ← do_call c_alloc;
      if negb ok then mret (inr er_out_of_memory)
      else
        st ← new_address;
        put_stream st (Stream s handle false);;
        ok ← do_call c_hashtable_insert;
        n ← get_request;
        (if negb ok then mret tt
         else mod_session s (fun v => set_requests
           (option_map (fun t => kt_insert t (Entry (io_ref_hash handle) (Key n handle) st)) (ss_requests v)) v));;
        mret (inl st)
  end.

Definition prx_browse_session_close_request (s : Z) (handle : io_ref) : M unit :=
  r ← prx_browse_session_get s handle;
  match r with
  | None => mret tt
  | Some st => prx_browse_session_remove s handle;; prx_browse_stream_free st
  end.

Definition prx_browse_session_handle_unknown_request (s : Z) (r : io_browse_request) : M unit :=
  prx_browse_session_send_error_response s (brq_handle r) er_not_supported.

Definition prx_browse_session_handle_resolve_request (s : Z) (r : io_browse_request) : M unit :=
  prx_browse_session_handle_unknown_request s r.

(** [host]: the characters of the name. *)
Definition proxy_item (host : bytes) : prx_socket_address :=
  sa_proxy {| px_port := 0; px_flags := 0; px_itf_index := 0; px_host := char_array MAX_HOST_LENGTH host |}.

Definition prx_browse_session_handle_dirpath_response (st : Z) (error : prx_error) (name : option bytes) (stat : option prx_file_info) : M unit :=
  v ← get_stream st;
  let '(flags, code) :=
    if bool_decide (error <> er_ok)
    then (io_browse_response_eos, if bool_decide (error <> er_nomore) then error_value error else 0)
    else (0, 0) in
  prx_browse_session_send_response (st_session v)
    match name with
    | None => mk_response (st_handle v) (Z.lor (Z.lor flags io_browse_response_empty) io_browse_response_allfornow) code (proxy_item []) 0 []
    | Some name =>
        let long := bool_decide (zlen name >= MAX_HOST_LENGTH) in
        let props := match stat with
          | Some f => [{| prop_type := prx_property_type_file_info; prop_un := pv_file_info f |}]
          | None => [] end in
        mk_response (st_handle v) flags (if long then error_value er_prop_set else code)
          (proxy_item (if long then [] else name)) (zlen props) props
    end.

Fixpoint dirpath_responses (st : Z) (l : list (prx_error * option bytes * option prx_file_info)) : M unit :=
  match l with
  | [] => mret tt
  | (e, name, stat) :: l => prx_browse_session_handle_dirpath_response st e name stat;; dirpath_responses st l
  end.

(** The end of a request that failed; [st]: its stream, if there is one. *)
Definition request_failed (s : Z) (r : io_browse_request) (e : prx_error) (st : option Z) : M unit :=
  prx_browse_session_send_error_response s (brq_handle r) e;;
  match st with
  | None => mret tt
  | Some st => v ← get_stream st; prx_browse_session_close_request s (st_handle v)
  end.

Definition prx_browse_session_handle_dirpath_request (s : Z) (r : io_browse_request) : M unit :=
  sv ← get_server;
  if negb (sv_allow_fs_browse sv) then prx_browse_session_handle_unknown_request s r
  else if bool_decide (un_family (brq_item r) <> prx_address_family_proxy) then request_failed s r er_invalid_format None
  else
    x ← prx_browse_session_get_or_create_request s (brq_handle r);
    match x with
    | inr e => request_failed s r e None
    | inl st =>
        '(calls, result) ← do_call (c_read_dir (cstr (px_host (as_proxy (brq_item r)))));
        dirpath_responses st calls;;
        if bool_decide (result <> er_ok) then prx_browse_session_handle_dirpath_response st er_nomore None None
        else mret tt
    end.

(** What service discovery found: an address with its text records, or the name, type and domain of a service. *)
Inductive sd_result :=
| sd_resolve (addr : prx_socket_address_proxy) (records : list (prx_property ptr))
| sd_browse (service_name service_type domain : option bytes).

Definition pal_sd_result_removed : Z := 1.
Definition pal_sd_result_all_for_now : Z := 2.

(** What [string_copy_service_full_name] leaves in the array when the name does not fit. *)
Definition partial_name (name type domain : option bytes) : bytes :=
  let name := default [] name in
  let type := default [] type in
  take (Z.to_nat (MAX_HOST_LENGTH - 1))
    ((if bool_decide (name = []) then [] else name ++ [ch_dot]) ++
     (if bool_decide (type = []) || ends_with_dot type then type else type ++ [ch_dot]) ++ default (str "local") domain).

Definition prx_browse_session_handle_service_response (st : Z) (error : prx_error) (result : option sd_result) (flags : Z) : M unit :=
  v ← get_stream st;
  clear (fun u => bool_decide (u = t_stream_timeout st));;
  let '(item, props, error, empty) :=
    match result with
    | None => (proxy_item [], [], error, io_browse_response_empty)
    | Some (sd_resolve addr records) => (sa_proxy addr, records, error, 0)
    | Some (sd_browse name type domain) =>
        match string_copy_service_full_name name type domain MAX_HOST_LENGTH with
        | Ok host => (proxy_item host, [], error, 0)
        | Err e => (proxy_item (if bool_decide (e = er_fault) then partial_name name type domain else []), [],
                    if bool_decide (error = er_ok) then e else error, 0)
        | UB => (proxy_item [], [], error, 0)
        end
    end in
  let removed := if bool_decide (Z.land flags pal_sd_result_removed <> 0) then io_browse_response_removed else 0 in
  let all := if bool_decide (Z.land flags pal_sd_result_all_for_now <> 0) then io_browse_response_allfornow else 0 in
  prx_browse_session_send_response (st_session v)
    (mk_response (st_handle v) (Z.lor (Z.lor empty removed) all) (error_value error) item (zlen props) props);;
  if bool_decide (Z.land flags pal_sd_result_all_for_now = 0) then do_later (t_stream_timeout st) STREAM_TIMEOUT else mret tt.

Definition prx_browse_session_handle_service_request (s : Z) (r : io_browse_request) : M unit :=
  sv ← get_server;
  if negb (sv_sdclient sv) then prx_browse_session_handle_unknown_request s r
  else if bool_decide (un_family (brq_item r) <> prx_address_family_proxy) then request_failed s r er_invalid_format None
  else
    let '(name, type, domain) := string_parse_service_full_name (cstr (px_host (as_proxy (brq_item r)))) in
    x ← prx_browse_session_get_or_create_request s (brq_handle r);
    match x with
    | inr e => request_failed s r e None
    | inl st =>
        v ← get_stream st;
        e ← (if st_sdbrowser v then mret er_ok
             else
               e ← do_call (c_sdbrowser_create st);
               (if bool_decide (e = er_ok) then put_stream st (Stream (st_session v) (st_handle v) true) else mret tt);;
               mret e);
        if bool_decide (e <> er_ok) then request_failed s r e (Some st)
        else
          e ← do_call (c_sdbrowser_browse st name type domain);
          if bool_decide (e <> er_ok) then request_failed s r e (Some st)
          else do_later (t_stream_timeout st) STREAM_TIMEOUT
    end.

Definition prx_browse_session_process_request (s : Z) (r : io_browse_request) : M unit :=
  if bool_decide (brq_type r = io_browse_request_cancel) then prx_browse_session_close_request s (brq_handle r)
  else if bool_decide (brq_type r = io_browse_request_resolve) then prx_browse_session_handle_resolve_request s r
  else if bool_decide (brq_type r = io_browse_request_service) then prx_browse_session_handle_service_request s r
  else if bool_decide (brq_type r = io_browse_request_dirpath) then prx_browse_session_handle_dirpath_request s r
  else prx_browse_session_handle_unknown_request s r.

(** [data]: what is left to read in the buffer.  The request is a variable of this function. *)
Definition prx_browse_session_decode_and_process_request (s : Z) (data : bytes) : M unit :=
  next_request;;
  v ← get_session s;
  codec ← lift (chk (ss_codec v));
  r ← try (decode codec data);
  match r with
  | inr _ => mret tt
  | inl r => prx_browse_session_process_request s r
  end.

Fixpoint receive_loop (fuel : nat) (s : Z) : M unit :=
  match fuel with
  | O => ub
  | S fuel =>
      b ← on_queue s inb io_queue_pop_done;
      match b with
      | None => mret tt
      | Some b =>
          qb ← get_buffer s inb b;
          data ← lift (chk (mem_read (qb_data qb) (qb_read_offset qb) (qb_length qb - qb_read_offset qb)));
          prx_browse_session_decode_and_process_request s data;;
          release_buffer s inb b;;
          receive_loop fuel s
      end
  end.

Definition prx_browse_session_receive_buffers (s : Z) : M unit :=
  v ← get_session s;
  if ss_closed v then mret tt
  else
    q ← lift (chk (ss_inbound v));
    receive_loop (S (size (q_buffers q))) s.

(** ** Events of the socket *)

Definition prx_browse_session_socket_closed (s : Z) : M unit :=
  mod_session s (set_state true true);;
  prx_browse_session_free s.

Definition prx_browse_session_socket_opened (s : Z) : M unit :=
  v ← get_session s;
  if bool_decide (ss_last_error v <> er_ok) then prx_browse_session_socket_closed s
  else
    put_session s (set_state false false v);;
    e ← do_call (c_socket_can_recv (ss_sock v));
    mod_session s (set_last_error e).

Definition prx_browse_session_on_begin_receive (s : Z) : M (option Z) :=
  b ← create_buffer s inb;
  match b with inl b => mret (Some b) | inr _ => mret None end.

(** [data]: what was stored in the buffer. *)
Definition prx_browse_session_on_end_receive (s : Z) (buf : option Z) (data : bytes) (result : prx_error) : M unit :=
  if bool_decide (result <> er_ok) then
    match buf with Some b => release_buffer s inb b | None => mret tt end;;
    if bool_decide (result = er_closed) then do_next (t_session_free s) else mret tt
  else
    b ← lift (chk buf);
    qb ← get_buffer s inb b;
    mem ← lift (chk (mem_write (qb_data qb) 0 data));
    put_buffer s inb b (mk_buffer (qb_queue qb) (qb_cb qb) (qb_ctx qb) (qb_flags qb) result (zlen data) 0 (zlen data) mem);;
    on_queue s inb (unit_op (fun q => io_queue_buffer_set_done q (Some b)));;
    do_next (t_receive_buffers s).

(** The buffer and the bytes to send. *)
Definition prx_browse_session_on_begin_send (s : Z) : M (option (Z * bytes)) :=
  b ← on_queue s outb io_queue_pop_inprogress;
  b ← match b with Some b => mret (Some b) | None => on_queue s outb io_queue_pop_ready end;
  match b with
  | None => mret None
  | Some b =>
      qb ← get_buffer s outb b;
      data ← lift (chk (mem_read (qb_data qb) 0 (qb_write_offset qb)));
      mret (Some (b, data))
  end.

Definition prx_browse_session_on_end_send (s b : Z) (result : prx_error) : M unit :=
  if bool_decide (result = er_retry) then on_queue s outb (unit_op (fun q => io_queue_buffer_set_inprogress q (Some b)))
  else
    release_buffer s outb b;;
    if bool_decide (result = er_closed) then do_next (t_session_free s) else mret tt.

Inductive pal_socket_event :=
| e_opened (sock : Z) (error : prx_error)
| e_begin_recv
| e_end_recv (b : option Z) (data : bytes) (error : prx_error)
| e_begin_send
| e_end_send (b : Z) (error : prx_error)
| e_closed (error : prx_error).

(** What the event returns through its pointers. *)
Inductive answer :=
| a_none
| a_buffer (b : option Z)
| a_data (x : option (Z * bytes)).

Definition prx_browse_session_socket_event_handler (s : Z) (e : pal_socket_event) : M answer :=
  match e with
  | e_opened sock error =>
      mod_session s (fun v => set_last_error error (set_sock (Some sock) v));;
      do_next (t_socket_opened s);;
      mret a_none
  | e_begin_recv => b ← prx_browse_session_on_begin_receive s; mret (a_buffer b)
  | e_end_recv b data error => prx_browse_session_on_end_receive s b data error;; mret a_none
  | e_begin_send => x ← prx_browse_session_on_begin_send s; mret (a_data x)
  | e_end_send b error => prx_browse_session_on_end_send s b error;; mret a_none
  | e_closed error => mod_session s (set_last_error error);; do_next (t_socket_closed s);; mret a_none
  end.

(** ** The server *)

Definition prx_browse_server_free : M unit :=
  sv ← get_server;
  put_server (Some (Server (sv_sessions sv) (sv_allow_fs_browse sv) (sv_sdclient sv) (sv_scheduler sv) true));;
  match sv_sessions sv with
  | s :: _ => do_next (t_session_free s)
  | [] =>
      (if sv_scheduler sv then scheduler_release x_server else mret tt);;
      (if sv_sdclient sv then do_call c_sdclient_release else mret tt);;
      put_server None
  end.

(** A queue, or the error of [io_queue_create]. *)
Definition new_queue (d : D) : M (io_queue D + prx_error) :=
  ok ← do_call c_alloc;
  lock ← do_call c_queue_lock;
  pool ← do_call c_queue_pool;
  try (io_queue_create ok lock pool d).

(** [io_codec_by_id]: the codecs are found by their number. *)
Definition codec_by_id (id : Z) : option io_codec_id :=
  if bool_decide (id = 1) then Some io_codec_mpack else if bool_decide (id = 2) then Some io_codec_json else None.

(** What [prx_browse_server_accept] makes of the new session [s]; [d]: the memory of the links before. *)
Definition accept_session (s : Z) (codec_id : Z) (d : D) : M prx_error :=
  let codec := codec_by_id codec_id in
  mod_session s (set_codec codec);;
  if bool_decide (codec = None) then mret er_not_supported
  else
    ok ← do_call c_hashtable_create;
    if negb ok then mret er_out_of_memory
    else
      mod_session s (set_requests (Some kt_empty));;
      r ← do_call c_scheduler_create;
      if bool_decide (r <> er_ok) then mret r
      else
        q ← new_queue d;
        match q with
        | inr e => mret e
        | inl q =>
            mod_session s (set_outbound (Some q));;
            q ← new_queue d;
            match q with
            | inr e => mret e
            | inl q =>
                mod_session s (set_inbound (Some q));;
                sv ← get_server;
                if sv_destroy sv then mret er_bad_state
                else
                  put_server (Some (Server (sv_sessions sv ++ [s]) (sv_allow_fs_browse sv) (sv_sdclient sv) (sv_scheduler sv) (sv_destroy sv)));;
                  mod_session s set_in_server;;
                  mret er_ok
            end
        end.

(** The session, or the error. *)
Definition prx_browse_server_accept (codec_id : Z) (d : D) : M (Z + prx_error) :=
  ok ← do_call c_alloc;
  if negb ok then mret (inr er_out_of_memory)
  else
    s ← new_address;
    put_session s (Session None true true false None None None er_ok None);;
    r ← accept_session s codec_id d;
    if bool_decide (r = er_ok) then mret (inl s)
    else prx_browse_session_free s;; mret (inr r).

Definition prx_browse_server_create : M prx_error :=
  ok ← do_call c_alloc;
  if negb ok then mret er_out_of_memory
  else
    put_server (Some (Server [] false false false false));;
    r ← do_call c_lock_create;
    r ← (if bool_decide (r <> er_ok) then mret r
         else
           r ← do_call c_scheduler_create;
           if bool_decide (r <> er_ok) then mret r
           else
             put_server (Some (Server [] false false true false));;
             '(dnssd, file) ← do_call c_caps;
             r ← (if (dnssd : bool) then do_call c_sdclient_create else mret er_ok);
             if bool_decide (r <> er_ok) then mret r
             else
               fs ← (if (file : bool) then do_call c_config_browse_fs else mret 0);
               put_server (Some (Server [] (bool_decide (fs <> 0)) dnssd true false));;
               mret er_ok);
    if bool_decide (r = er_ok) then mret er_ok
    else prx_browse_server_free;; mret r.

Definition run_task (t : task) : M unit :=
  match t with
  | t_session_free s => prx_browse_session_free s
  | t_send_buffers s => prx_browse_session_send_buffers s
  | t_receive_buffers s => prx_browse_session_receive_buffers s
  | t_socket_opened s => prx_browse_session_socket_opened s
  | t_socket_closed s => prx_browse_session_socket_closed s
  | t_stream_timeout st => prx_browse_stream_timeout st
  | t_server_free => prx_browse_server_free
  end.

End Model.
End PrxBrowse.
