(* ===== verification/PrxBrowseSpec.v ===== *)
(** * What the browse server guarantees (src/prx_browse.c)

    How the server is freed with its sessions and streams, and two places where its sessions go wrong: a codec that is not
    known, and the keys of the table of streams. *)
From Stdlib Require Import String.
From stdpp Require Import base option list numbers sets gmap.
From S2P Require Import Prelude PrxTypes UtilString UtilInt UtilKey IoMem IoCodec IoRef IoBrowse DList DListStore IoQueue IoQueueOwn PrxBrowse.
Import PrxTypes UtilString UtilInt UtilKey IoMem IoCodec IoRef IoBrowse DList DListStore IoQueue IoQueueOwn PrxBrowse.
Open Scope Z_scope.

Module PrxBrowseSpec.

Section Spec.
Context {D T I : Type} `{L : dlist_laws D node} `{KL : key_table_laws T I}.
Variable env : forall A, list event -> call A -> A.
Variable header : Z.
Variable encode : io_codec_id -> io_browse_response ptr -> res bytes.
Variable decode : io_codec_id -> bytes -> res io_browse_request.
Implicit Types (w : world D T) (v : prx_browse_session D T).
Abbreviation M := (PrxBrowse.M D T).

(** ** Rules *)

Definition wp {A} (p : M A) (Q : A -> world D T -> Prop) w : Prop :=
  match p w with Ok (a, w') => Q a w' | _ => False end.

Lemma bwp_ret {A} (a : A) Q w : Q a w -> wp (mret a) Q w.
Proof. done. Qed.
Lemma bwp_bind {A B} (p : M A) (f : A -> M B) Q w : wp p (fun a w => wp (f a) Q w) w -> wp (p ≫= f) Q w.
Proof. unfold wp, mbind, M_bind, mbind, res_bind. by destruct (p w) as [[]| |]. Qed.
Lemma bwp_mono {A} (p : M A) (P Q : A -> world D T -> Prop) w : wp p P w -> (forall a w', P a w' -> Q a w') -> wp p Q w.
Proof. unfold wp. destruct (p w) as [[]| |]; auto. Qed.
Lemma bwp_ok {A} (p : M A) Q w : wp p Q w -> exists a w', p w = Ok (a, w') /\ Q a w'.
Proof. unfold wp. destruct (p w) as [[a w']| |]; naive_solver. Qed.
Lemma bwp_ok_unit (p : M unit) (Q : world D T -> Prop) w : wp p (fun _ => Q) w -> exists w', p w = Ok (tt, w') /\ Q w'.
Proof. intros ([] & w' & E & HQ)%bwp_ok. by exists w'. Qed.
Lemma bwp_session s v Q w : w_sessions w !! s = Some v -> Q v w -> wp (get_session s) Q w.
Proof. intros E HQ. unfold wp, get_session. by rewrite E. Qed.
Lemma bwp_mod s v f Q w : w_sessions w !! s = Some v -> Q tt (with_sessions (<[s := f v]> (w_sessions w)) w) -> wp (mod_session s f) Q w.
Proof. intros E HQ. apply bwp_bind. by eapply bwp_session. Qed.
Lemma bwp_server sv Q w : w_server w = Some sv -> Q sv w -> wp get_server Q w.
Proof. intros E HQ. unfold wp, get_server. by rewrite E. Qed.
Lemma bwp_stream st (x : prx_browse_stream) Q w : w_streams w !! st = Some x -> Q x w -> wp (get_stream st) Q w.
Proof. intros E HQ. unfold wp, get_stream. by rewrite E. Qed.
Lemma bwp_lift {A} (r : res A) a Q w : r = Ok a -> Q a w -> wp (lift r) Q w.
Proof. by intros ->. Qed.

Definition logged {A} (k : call A) x w : world D T := with_trace (w_trace w ++ [ev k x]) w.
Lemma bwp_call {A} (k : call A) Q w : Q (env A (w_trace w) k) (logged k (env A (w_trace w) k) w) -> wp (do_call env k) Q w.
Proof. done. Qed.

(** Undefined behaviour after, and in, the first part. *)
Lemma ub_bind {A B} (p : M A) (f : A -> M B) w : wp p (fun a w => f a w = UB) w -> (p ≫= f) w = UB.
Proof. unfold wp, mbind, M_bind, mbind, res_bind. by destruct (p w) as [[]| |]. Qed.
Lemma ub_first {A B} (p : M A) (f : A -> M B) w : p w = UB -> (p ≫= f) w = UB.
Proof. unfold mbind, M_bind, mbind, res_bind. by intros ->. Qed.

(** ** Codecs that are not known *)

(** A client that asks for a browse session with a codec that does not exist crashes the server: the session that was
    started has no table of streams yet when it is freed, and the number of entries of the table is asked for.  The number of
    the codec is part of the request of the client. *)
Lemma browse_accept_crash codec_id d w : env bool (w_trace w) c_alloc = true -> codec_by_id codec_id = None ->
  prx_browse_server_accept env codec_id d w = UB.
Proof.
  intros Ha Hc. apply ub_bind, bwp_call. rewrite Ha. cbn [negb]. apply ub_bind. unfold wp at 1, new_address. apply ub_bind. unfold wp at 1, put_session.
  apply ub_bind. unfold accept_session. rewrite Hc. cbv zeta. apply bwp_bind. eapply bwp_mod; [apply lookup_insert_eq|].
  rewrite bool_decide_eq_true_2 by done. apply bwp_ret. rewrite bool_decide_eq_false_2 by done.
  apply ub_first. unfold prx_browse_session_free. apply ub_first. apply ub_bind. eapply bwp_session; [apply lookup_insert_eq|]. done.
Qed.

(** ** The keys of the table *)

(** A request to cancel the stream with that handle. *)
Definition cancels (handle : io_ref) (r : io_browse_request) : Prop :=
  brq_handle r = handle /\ brq_type r = io_browse_request_cancel.

(** The only entry for the handle is [e], and its key points to the request [n]. *)
Definition only_entry (handle : io_ref) (n : Z) (t : T) : Prop := exists e, candidates handle t = [e] /\ k_request (e_key e) = n.

Lemma candidates_insert handle n st t : candidates handle t = [] ->
  candidates handle (kt_insert t (Entry (io_ref_hash handle) (Key n handle) st)) = [Entry (io_ref_hash handle) (Key n handle) st].
Proof.
  intros Hn. apply Permutation_singleton_r. unfold candidates in *. rewrite kt_insert_items, filter_cons_True by done. by rewrite Hn.
Qed.

(** C13: A stream is found through the address of the request that opened it, a variable on the stack of a call that
    has returned.  A request for a handle without an entry makes a stream, and the table of the session then has one entry for
    the handle, whose key is that address; a later request to cancel the handle, while this is the one entry for it and
    whatever else happened to the session and the server in between, reads the variable. *)
Theorem browse_key_dangles s handle t v w : w_sessions w !! s = Some v -> ss_requests v = Some t ->
  candidates handle t = [] -> (forall tr, env bool tr c_alloc = true) -> (forall tr, env bool tr c_hashtable_insert = true) ->
  exists st v1 t1 w1, prx_browse_session_get_or_create_request env s handle w = Ok (inl st, w1) /\
    w_sessions w1 !! s = Some v1 /\ ss_requests v1 = Some t1 /\ only_entry handle (w_request w) t1 /\
    w_streams w1 !! st = Some (Stream s handle false) /\
    forall w2 v2 t2 codec data r, w_sessions w2 !! s = Some v2 -> ss_requests v2 = Some t2 -> only_entry handle (w_request w) t2 ->
      ss_codec v2 = Some codec -> w_request w <= w_request w2 -> decode codec data = Ok r -> cancels handle r ->
      prx_browse_session_decode_and_process_request env header encode decode s data w2 = UB.
Proof.
  intros Hs Ht Hn Ha Hi. set (e := Entry (io_ref_hash handle) (Key (w_request w) handle) (w_next w)).
  destruct (bwp_ok (prx_browse_session_get_or_create_request env s handle) (fun x w1 => x = inl (w_next w) /\
    w_sessions w1 !! s = Some (set_requests (Some (kt_insert t e)) v) /\ w_streams w1 !! w_next w = Some (Stream s handle false)) w)
    as (x & w1 & E & -> & Hs1 & Hst).
  - apply bwp_bind. apply bwp_bind. eapply bwp_session; [done|]. rewrite Ht. apply bwp_bind. eapply bwp_lift; [reflexivity|].
    apply bwp_bind. unfold wp at 1, get_request. eapply bwp_lift; [by apply kt_search_none|]. apply bwp_bind. apply bwp_call. rewrite Ha. cbn [negb].
    apply bwp_bind. unfold wp at 1, new_address. apply bwp_bind. unfold wp at 1, put_stream. apply bwp_bind. apply bwp_call. rewrite Hi. cbn [negb].
    apply bwp_bind. unfold wp at 1, get_request. apply bwp_bind. eapply bwp_mod; [exact Hs|]. apply bwp_ret. cbn. rewrite Ht. cbn.
    split_and!; [done|by rewrite lookup_insert_eq|by rewrite lookup_insert_eq].
  - exists (w_next w), (set_requests (Some (kt_insert t e)) v), (kt_insert t e), w1. split_and!; try done.
    { exists e. split; [by apply candidates_insert|done]. }
    intros w2 v2 t2 codec data r Hs2 Ht2 (e2 & He2 & Hk) Hcodec Hw2 Hd [Hh Hc].
    unfold prx_browse_session_decode_and_process_request. apply ub_bind. unfold wp, next_request. apply ub_bind.
    eapply bwp_session; [exact Hs2|]. rewrite Hcodec. apply ub_bind. eapply bwp_lift; [reflexivity|]. apply ub_bind.
    unfold wp, try. rewrite Hd. unfold prx_browse_session_process_request. rewrite Hc, bool_decide_eq_true_2 by done.
    apply ub_first. apply ub_bind. eapply bwp_session; [exact Hs2|]. apply ub_bind. rewrite Ht2. eapply bwp_lift; [reflexivity|].
    apply ub_bind. unfold wp, get_request. unfold lift. rewrite Hh, (kt_search_one _ _ _ _ He2). unfold read_key. cbn [w_request with_request].
    rewrite bool_decide_eq_false_2 by lia. done.
Qed.

(** ** The end of the server *)

Hypothesis entries : forall tr, env bool tr c_task_entry = true.
Hypothesis iterators : forall tr, env bool tr c_hashtable_iterator = true.

(** The scheduler runs the first task that is due. *)
Definition run_next : M unit := fun w =>
  match w_now w with
  | [] => Ok (tt, w)
  | t :: now => run_task env header encode decode t (with_tasks now (w_later w) w)
  end.

(** The timers of the contexts in [X] were cleared, and no others. *)
Definition cleared (X : context -> Prop) w w' : Prop := forall d t, (d, t) ∈ w_later w' <-> (d, t) ∈ w_later w /\ ~ X (context_of t).

Lemma cleared_none w w' : w_later w' = w_later w -> cleared (fun _ => False) w w'.
Proof. intros E d t. rewrite E. naive_solver. Qed.
Lemma cleared_trans (X Y V : context -> Prop) w w1 w2 : cleared X w w1 -> cleared Y w1 w2 -> (forall x, V x <-> X x \/ Y x) -> cleared V w w2.
Proof. intros H1 H2 HZ d t. rewrite (H2 d t), (H1 d t), HZ. naive_solver. Qed.
Lemma cleared_ext (X Y : context -> Prop) w w' : cleared X w w' -> (forall x, X x <-> Y x) -> cleared Y w w'.
Proof. intros H1 HX d t. by rewrite (H1 d t), HX. Qed.

Lemma bwp_clear x w Q : (forall w', w_server w' = w_server w -> w_sessions w' = w_sessions w -> w_streams w' = w_streams w ->
    w_now w' = filter (fun t => context_of t <> x) (w_now w) -> cleared (eq x) w w' -> Q tt w') -> wp (clear_context x) Q w.
Proof.
  intros HQ. unfold wp, clear_context, clear. apply HQ; try done.
  - apply list_filter_iff. intros t. by rewrite bool_decide_eq_false.
  - intros d t. cbn. rewrite list_elem_of_filter. cbn. rewrite bool_decide_eq_false. naive_solver.
Qed.

(** Nothing but the streams, the timers and the trace changed, and no task is due. *)
Definition quiet w w' : Prop := w_server w' = w_server w /\ w_sessions w' = w_sessions w /\ w_now w' = [].

Lemma stream_free_ok st x w Q : w_streams w !! st = Some x -> w_now w = [] ->
  (forall w', quiet w w' -> w_streams w' = delete st (w_streams w) -> cleared (eq (x_stream st)) w w' -> Q tt w') ->
  wp (prx_browse_stream_free env st) Q w.
Proof.
  intros Hx Hn HQ. apply bwp_bind. eapply bwp_stream; [done|]. apply bwp_bind. apply bwp_clear. intros w1 Hs1 Hss1 Hst1 Hn1 Hc1.
  rewrite Hn in Hn1. apply bwp_bind. destruct (st_sdbrowser x).
  - apply bwp_call. unfold wp, drop_stream. apply HQ; [done|cbn; by rewrite Hst1|done].
  - apply bwp_ret. unfold wp, drop_stream. apply HQ; [done|cbn; by rewrite Hst1|done].
Qed.

Definition streams_of (l : list entry) (x : context) : Prop := exists st, x = x_stream st /\ st ∈ map e_stream l.

Lemma streams_of_cons e l x : streams_of (e :: l) x <-> x_stream (e_stream e) = x \/ streams_of l x.
Proof. unfold streams_of. cbn. setoid_rewrite elem_of_cons. clear. naive_solver. Qed.

(** Nothing but the streams, the table of the session, the timers and the trace changed, and no task is due. *)
Definition emptied s v w w' : Prop := w_server w' = w_server w /\ w_now w' = [] /\
  exists t', kt_items t' = [] /\ w_sessions w' = <[s := set_requests (Some t') v]> (w_sessions w).

Lemma free_streams_ok l : forall e s i (t : T) v w Q, w_sessions w !! s = Some v -> ss_requests v = Some t -> it_rest i t = e :: l -> kt_items t = e :: l ->
  NoDup (map e_stream (e :: l)) -> (forall e', e' ∈ e :: l -> is_Some (w_streams w !! e_stream e')) -> w_now w = [] ->
  (forall w', emptied s v w w' -> (forall st, w_streams w' !! st = if decide (st ∈ map e_stream (e :: l)) then None else w_streams w !! st) ->
     cleared (streams_of (e :: l)) w w' -> Q tt w') ->
  wp (free_streams env (length (e :: l)) s i) Q w.
Proof.
  induction l as [|e2 l IH]; intros e s i t v w Q Hv Ht Hr Hl Hnd Hex Hn HQ; cbn [length free_streams];
    cbn in Hnd; apply list.NoDup_cons in Hnd as [He Hnd]; (destruct (Hex e) as [x Hx]; [apply list_elem_of_here|]);
    apply bwp_bind; (eapply bwp_session; [exact Hv|]); rewrite Ht; apply bwp_bind; (eapply bwp_lift; [reflexivity|]);
    rewrite (it_value_rest _ _ _ _ Hr); apply bwp_bind; (eapply stream_free_ok; [exact Hx|done|]);
    intros w1 (Hs1 & Hss1 & Hn1) Hst1 Hc1; destruct (it_remove i t) as [[b i'] t'] eqn:Er;
    destruct (it_remove_rest _ _ _ _ _ _ _ Hr (eq_trans Hl (eq_sym Hr)) Er) as (Hl' & Hr' & Hb); apply bwp_bind; unfold wp at 1, put_session.
  - rewrite bool_decide_eq_false_2 in Hb by naive_solver. subst b. apply bwp_ret. apply HQ.
    + split_and!; [done|done|]. exists t'. split; [done|]. cbn. by rewrite Hss1.
    + intros st. cbn. rewrite Hst1. destruct (decide (st = e_stream e)) as [->|Hne].
      * by rewrite lookup_delete_eq, decide_True by apply list_elem_of_here.
      * rewrite lookup_delete_ne by done. by rewrite decide_False by by rewrite list_elem_of_singleton.
    + eapply cleared_ext; [exact Hc1|]. intros y. rewrite streams_of_cons. split; [by left|]. intros [?|(st & _ & HH%elem_of_nil)]; done.
  - rewrite bool_decide_eq_true_2 in Hb by done. subst b.
    eapply (IH e2 s i' t' (set_requests (Some t') v)); [apply lookup_insert_eq|done|done|done|done| |done|].
    + intros e' He'. cbn. rewrite Hst1, lookup_delete_ne; [apply Hex; by right|]. intros Heq. apply He. rewrite Heq.
      exact (list_elem_of_fmap_2 e_stream (e2 :: l) e' He').
    + intros w2 (Hs2 & Hn2 & t2 & Ht2 & Hss2) Hst2 Hc2. cbn in Hs2, Hss2, Hst2. apply HQ.
      * split_and!; [congruence|done|]. exists t2. split; [done|]. by rewrite Hss2, insert_insert_eq, Hss1.
      * intros st. rewrite Hst2. cbn. destruct (decide (st ∈ e_stream e2 :: map e_stream l)) as [Hin|Hout]; [by rewrite decide_True by by right|].
        rewrite Hst1. destruct (decide (st = e_stream e)) as [->|Hne].
        { rewrite lookup_delete_eq, decide_True by apply list_elem_of_here. done. }
        rewrite lookup_delete_ne by done. rewrite decide_False; [done|]. by intros [|]%elem_of_cons.
      * eapply (cleared_trans _ _ _ w w1 w2); [exact Hc1|exact Hc2|]. intros y. apply streams_of_cons.
Qed.

(** A session that is connected, with the table of streams [t]. *)
Record opened (s : Z) (t : T) v w : Prop := {
  op_server : ss_server v = true;
  op_closed : ss_closed v = false;
  op_destroy : ss_destroy v = false;
  op_requests : ss_requests v = Some t;
  op_nodup : NoDup (map e_stream (kt_items t));
  op_streams e : e ∈ kt_items t -> exists x, w_streams w !! e_stream e = Some x /\ st_session x = s;
  op_all st x : w_streams w !! st = Some x -> st_session x = s -> st ∈ map e_stream (kt_items t);
  op_queues x : exists q f, queue_of x v = Some q /\ q_rep q f;
}.

(** The streams of the session [s], and what is scheduled for them. *)
Definition of_session w (s : Z) (x : context) : Prop :=
  match x with x_stream st => exists y, w_streams w !! st = Some y /\ st_session y = s | _ => False end.
Definition without (s : Z) w w' : Prop := forall st x, w_streams w' !! st = Some x <-> w_streams w !! st = Some x /\ st_session x <> s.

Lemma opened_streams s t v w : opened s t v w -> forall x, streams_of (kt_items t) x <-> of_session w s x.
Proof.
  intros Ho x. split.
  - intros (st & -> & (e & -> & He)%list_elem_of_fmap_1). apply (op_streams _ _ _ _ Ho e He).
  - destruct x; try done. intros (y & Hy & Hs). eexists. split; [done|]. by apply (op_all _ _ _ _ Ho st y).
Qed.

Lemma opened_without s t v w m : opened s t v w ->
  (forall st, m !! st = if decide (st ∈ map e_stream (kt_items t)) then None else w_streams w !! st) -> without s w (with_streams m w).
Proof.
  intros Ho Hm st x. cbn. rewrite Hm. case_decide as Hin; split; try done.
  - intros [Hx Hne]. apply list_elem_of_fmap_1 in Hin as (e & -> & He). destruct (op_streams _ _ _ _ Ho e He) as (y & Hy & Hs). congruence.
  - intros Hx. split; [done|]. intros Hs. by apply Hin, (op_all _ _ _ _ Ho st x).
  - by intros [? _].
Qed.

(** The streams of a session are freed, with their timers. *)
Lemma free_all_streams s t v w Q : w_sessions w !! s = Some v -> opened s t v w -> w_now w = [] ->
  (forall w', emptied s v w w' -> without s w w' -> cleared (of_session w s) w w' -> Q tt w') ->
  wp (session_free_streams env s) Q w.
Proof.
  intros Hv Ho Hn HQ. pose proof (op_requests _ _ _ _ Ho) as Hl. pose proof (opened_streams _ _ _ _ Ho) as Hof.
  unfold session_free_streams. apply bwp_bind. eapply bwp_session; [done|]. rewrite Hl. apply bwp_bind. eapply bwp_lift; [reflexivity|].
  rewrite kt_count_items. destruct (kt_items t) as [|e l] eqn:Hit.
  - rewrite bool_decide_eq_false_2 by done. apply bwp_ret. apply HQ.
    + split_and!; [done|done|]. exists t. split; [done|]. rewrite insert_id; [done|]. rewrite Hv. f_equal. destruct v. cbn in *. by subst.
    + apply (opened_without _ _ _ _ _ Ho). intros st. rewrite Hit. cbn. by rewrite decide_False by apply not_elem_of_nil.
    + eapply cleared_ext; [by apply cleared_none|]. intros x. rewrite <- Hof. split; [done|]. intros (st & _ & HH%elem_of_nil). done.
  - rewrite bool_decide_eq_true_2 by (unfold zlen; cbn; lia). apply bwp_bind. apply bwp_call. rewrite iterators. cbn [negb].
    unfold zlen. rewrite Nat2Z.id. eapply (free_streams_ok l e s (kt_iterator t) t v); [exact Hv|done|by rewrite kt_iterator_rest|done| | |done|].
    + rewrite <- Hit. apply Ho.
    + intros e' He'. destruct (op_streams _ _ _ _ Ho e') as (x & Hx & _); [by rewrite Hit|]. by exists x.
    + intros w1 He1 Hst1 Hc1. apply HQ; [done| |].
      * apply (opened_without _ _ _ _ _ Ho). intros st. rewrite Hit. apply Hst1.
      * eapply cleared_ext; [exact Hc1|done].
Qed.

Lemma bwp_next t w Q : (forall w', w_server w' = w_server w -> w_sessions w' = w_sessions w -> w_streams w' = w_streams w ->
    w_now w' = w_now w ++ [t] -> w_later w' = w_later w -> Q tt w') -> wp (do_next env t) Q w.
Proof. intros HQ. apply bwp_bind. apply bwp_call. rewrite entries. by apply HQ. Qed.

Lemma queue_free_ok x v w Q : (exists q f, queue_of x v = Some q /\ q_rep q f) -> Q tt w -> wp (queue_free (queue_of x v)) Q w.
Proof.
  intros (q & f & -> & Hr) HQ. destruct (release_all_rep q f Hr) as (d & E & _). apply bwp_bind. eapply bwp_lift; [exact E|]. by apply bwp_ret.
Qed.

(** The server asks for the end of the session at the head of its list. *)
Lemma server_free_asks sv s ss w Q : w_server w = Some sv -> sv_sessions sv = s :: ss -> w_now w = [t_server_free] ->
  (forall w', w_server w' = Some (Server (s :: ss) (sv_allow_fs_browse sv) (sv_sdclient sv) (sv_scheduler sv) true) ->
     w_sessions w' = w_sessions w -> w_streams w' = w_streams w -> w_now w' = [t_session_free s] -> w_later w' = w_later w -> Q tt w') ->
  wp run_next Q w.
Proof.
  intros Hsv Hss Hn HQ. unfold wp, run_next. rewrite Hn. change (wp (prx_browse_server_free env) Q (with_tasks [] (w_later w) w)).
  apply bwp_bind. eapply bwp_server; [exact Hsv|]. apply bwp_bind. unfold wp at 1, put_server. rewrite Hss.
  apply bwp_next. intros w' H1 H2 H3 H4 H5. by apply HQ.
Qed.

(** The session frees its streams and closes its socket. *)
Lemma session_free_closes s t v w Q : w_sessions w !! s = Some v -> opened s t v w -> w_now w = [t_session_free s] ->
  (forall w' t', w_server w' = w_server w -> kt_items t' = [] ->
     w_sessions w' = <[s := set_state true false (set_requests (Some t') v)]> (w_sessions w) ->
     w_now w' = [] -> without s w w' -> cleared (of_session w s) w w' -> Q tt w') ->
  wp run_next Q w.
Proof.
  intros Hv Ho Hn HQ. unfold wp, run_next. rewrite Hn. change (wp (prx_browse_session_free env s) Q (with_tasks [] (w_later w) w)).
  apply bwp_bind. apply (free_all_streams s t v); [done|by destruct Ho; constructor|done|].
  intros w1 (Hs1 & Hn1 & t1 & Ht1 & Hss1) Hst1 Hc1. cbn in Hs1, Hss1, Hst1.
  assert (Hv1 : w_sessions w1 !! s = Some (set_requests (Some t1) v)) by (rewrite Hss1; apply lookup_insert_eq).
  apply bwp_bind. eapply bwp_session; [exact Hv1|]. cbn. rewrite (op_destroy _ _ _ _ Ho), (op_closed _ _ _ _ Ho). cbn.
  apply bwp_bind. apply bwp_call. eapply bwp_mod; [exact Hv1|]. apply (HQ _ t1); try done.
  cbn. by rewrite Hss1, insert_insert_eq.
Qed.

(** The socket was closed: the session is freed, and the server is told. *)
Lemma socket_closed_frees s t v sv w Q : w_sessions w !! s = Some v -> ss_requests v = Some t -> kt_items t = [] -> ss_server v = true ->
  (forall x, exists q f, queue_of x v = Some q /\ q_rep q f) -> w_server w = Some sv -> sv_destroy sv = true -> w_now w = [] ->
  (forall w', w_server w' = Some (Server (filter (fun x => x <> s) (sv_sessions sv)) (sv_allow_fs_browse sv) (sv_sdclient sv) (sv_scheduler sv) true) ->
     w_sessions w' = delete s (w_sessions w) -> w_now w' = [t_server_free] -> w_streams w' = w_streams w -> cleared (eq (x_session s)) w w' -> Q tt w') ->
  wp (prx_browse_session_socket_closed env s) Q w.
Proof.
  intros Hv Hr Hit Hin Hq Hsv Hd Hn HQ. apply bwp_bind. eapply bwp_mod; [exact Hv|]. set (v1 := set_state true true v).
  apply bwp_bind. unfold session_free_streams. apply bwp_bind. eapply bwp_session; [apply lookup_insert_eq|]. cbn [ss_requests v1 set_state].
  rewrite Hr. apply bwp_bind. eapply bwp_lift; [reflexivity|]. rewrite kt_count_items, Hit, bool_decide_eq_false_2 by done. apply bwp_ret.
  apply bwp_bind. eapply bwp_session; [apply lookup_insert_eq|]. cbn [ss_destroy v1 set_state negb]. apply bwp_bind. apply bwp_call.
  apply bwp_bind. apply (bwp_mono _ (fun _ w1 => exists tr, w1 = with_trace tr (with_sessions (<[s := v1]> (w_sessions w)) w))).
  { cbn [ss_sock v1 set_state]. destruct (ss_sock v); [apply bwp_call|apply bwp_ret]; by eexists. }
  intros _ w1 [tr ->]. apply bwp_bind. apply (queue_free_ok outb v1); [apply (Hq outb)|]. apply bwp_bind. apply (queue_free_ok inb v1); [apply (Hq inb)|].
  apply bwp_bind. apply bwp_bind. apply bwp_clear. intros w2 Hs2 Hss2 Hst2 Hn2 Hc2. cbn in Hs2, Hss2, Hst2, Hn2. rewrite Hn in Hn2.
  apply bwp_call. apply bwp_bind. cbn [ss_server v1 set_state]. rewrite Hin. apply bwp_bind. eapply bwp_server; [cbn; rewrite Hs2; exact Hsv|].
  apply bwp_bind. unfold wp at 1, put_server. rewrite Hd. apply bwp_next. intros w3 Hs3 Hss3 Hst3 Hn3 Hl3. cbn in Hs3, Hss3, Hst3, Hn3, Hl3.
  unfold wp, drop_session. apply HQ; cbn; [done| |by rewrite Hn3, Hn2|by rewrite Hst3|].
  - by rewrite Hss3, Hss2, delete_insert_eq.
  - intros d u. cbn. rewrite Hl3. apply Hc2.
Qed.

(** The end of a session: the server asks for it, the session closes its socket, and the socket reports that it is closed. *)
Definition end_session (s : Z) : M unit :=
  run_next;; run_next;;
  prx_browse_session_socket_event_handler env header s (e_closed er_ok);;
  run_next.
Fixpoint shutdown (ss : list Z) : M unit :=
  match ss with [] => run_next | s :: ss => end_session s;; shutdown ss end.

Lemma opened_ext s t v w w' : opened s t v w ->
  (forall st x, st_session x = s -> w_streams w' !! st = Some x <-> w_streams w !! st = Some x) -> opened s t v w'.
Proof.
  intros [H1 H2 H3 H4 H5 H6 H7 H8] Hs. constructor; try done.
  - intros e He. destruct (H6 e He) as (x & Hx & Hxs). exists x. by rewrite Hs.
  - intros st x Hx Hxs. eapply H7; [|done]. by apply Hs.
Qed.

Lemma filter_head (s : Z) ss : s ∉ ss -> filter (fun x => x <> s) (s :: ss) = ss.
Proof.
  intros Hs. rewrite filter_cons_False by naive_solver. induction ss as [|x ss IH]; [done|]. apply not_elem_of_cons in Hs as [Hx Hs].
  rewrite filter_cons_True by done. f_equal. by apply IH.
Qed.

Lemma end_session_ok s ss t v sv w Q : w_server w = Some sv -> sv_sessions sv = s :: ss -> s ∉ ss -> w_now w = [t_server_free] ->
  w_sessions w !! s = Some v -> opened s t v w ->
  (forall w', w_server w' = Some (Server ss (sv_allow_fs_browse sv) (sv_sdclient sv) (sv_scheduler sv) true) ->
     w_sessions w' = delete s (w_sessions w) -> w_now w' = [t_server_free] -> without s w w' ->
     cleared (fun x => x = x_session s \/ of_session w s x) w w' -> Q tt w') ->
  wp (end_session s) Q w.
Proof.
  intros Hsv Hss Hnin Hn Hv Ho HQ. apply bwp_bind. eapply server_free_asks; [done..|]. intros w1 Hs1 Hss1 Hst1 Hn1 Hl1.
  apply bwp_bind. apply (session_free_closes s t v); [by rewrite Hss1| |done|].
  { eapply opened_ext; [exact Ho|]. intros st x _. by rewrite Hst1. }
  intros w2 t2 Hs2 Ht2 Hss2 Hn2 Hst2 Hc2. apply bwp_bind. apply bwp_bind. eapply bwp_mod; [rewrite Hss2; apply lookup_insert_eq|].
  apply bwp_bind. apply bwp_next. intros w3 Hs3 Hss3 Hst3 Hn3 Hl3. cbn in Hs3, Hss3, Hst3, Hn3, Hl3. apply bwp_ret.
  rewrite Hn2 in Hn3. cbn in Hn3. unfold wp, run_next. rewrite Hn3.
  match goal with |- context [with_tasks [] ?l w3] => change (wp (prx_browse_session_socket_closed env s) Q (with_tasks [] l w3)) end.
  eapply socket_closed_frees; cbn.
  - rewrite Hss3. apply lookup_insert_eq.
  - done.
  - exact Ht2.
  - apply (op_server _ _ _ _ Ho).
  - intros x. destruct (op_queues _ _ _ _ Ho x) as (q & f & Hq & Hr). exists q, f. by destruct x.
  - rewrite Hs3, Hs2. exact Hs1.
  - done.
  - done.
  - intros w4 Hs4 Hss4 Hn4 Hst4 Hc4. apply HQ; try done.
    + rewrite Hs4. do 2 f_equal. exact (filter_head s ss Hnin).
    + rewrite Hss4, Hss3, delete_insert_eq, Hss2, delete_insert_eq. by rewrite Hss1.
    + intros st x. rewrite Hst4. cbn. rewrite Hst3, (Hst2 st x). by rewrite Hst1.
    + intros d u. rewrite (Hc4 d u). cbn. rewrite Hl3, (Hc2 d u), Hl1. unfold of_session. rewrite Hst1. naive_solver.
Qed.

(** What is freed with the sessions [ss], and then with the server. *)
Definition freed w (ss : list Z) (x : context) : Prop :=
  match x with
  | x_session s => s ∈ ss
  | x_stream st => exists y, w_streams w !! st = Some y /\ st_session y ∈ ss
  | x_server => False
  end.

Lemma freed_cons s ss w w1 (P : Prop) x : without s w w1 ->
  (P /\ ~ (x = x_session s \/ of_session w s x)) /\ x <> x_server /\ ~ freed w1 ss x <-> P /\ x <> x_server /\ ~ freed w (s :: ss) x.
Proof.
  intros Hst. destruct x as [s'|st|]; cbn.
  - rewrite elem_of_cons. naive_solver.
  - setoid_rewrite elem_of_cons. setoid_rewrite (Hst st). naive_solver.
  - naive_solver.
Qed.

Lemma server_freed sv w Q : w_server w = Some sv -> sv_sessions sv = [] -> sv_scheduler sv = true -> w_now w = [t_server_free] ->
  (forall w', w_server w' = None -> w_sessions w' = w_sessions w -> w_streams w' = w_streams w -> w_now w' = [] ->
     cleared (eq x_server) w w' -> Q tt w') ->
  wp run_next Q w.
Proof.
  intros Hsv Hss Hsc Hn HQ. unfold wp, run_next. rewrite Hn. change (wp (prx_browse_server_free env) Q (with_tasks [] (w_later w) w)).
  apply bwp_bind. eapply bwp_server; [exact Hsv|]. apply bwp_bind. unfold wp at 1, put_server. rewrite Hss, Hsc.
  apply bwp_bind. apply bwp_bind. apply bwp_clear. intros w1 Hs1 Hss1 Hst1 Hn1 Hc1. apply bwp_call. apply bwp_bind.
  destruct (sv_sdclient sv); [apply bwp_call|apply bwp_ret]; by apply HQ.
Qed.

(** C12: A server that is to be freed frees its sessions one after the other, whatever their number, and then itself: each session frees its
    streams and closes its socket, and when the socket is closed the session is freed and the server tries again.  At the end
    nothing is left of the server, of its sessions and of their streams, no task for them is left among the timers,
    and nothing else was freed. *)
Theorem browse_server_freed ss sv w : w_server w = Some sv -> sv_sessions sv = ss -> sv_scheduler sv = true -> NoDup ss -> w_now w = [t_server_free] ->
  (forall s, s ∈ ss -> exists v t, w_sessions w !! s = Some v /\ opened s t v w) ->
  exists w', shutdown ss w = Ok (tt, w') /\ w_server w' = None /\ w_now w' = [] /\
    (forall s, w_sessions w' !! s = if decide (s ∈ ss) then None else w_sessions w !! s) /\
    (forall st x, w_streams w' !! st = Some x <-> w_streams w !! st = Some x /\ st_session x ∉ ss) /\
    (forall d t, (d, t) ∈ w_later w' <-> (d, t) ∈ w_later w /\ context_of t <> x_server /\ ~ freed w ss (context_of t)).
Proof.
  intros Hsv Hss Hsc Hnd Hn Hall. apply bwp_ok_unit. revert sv w Hsv Hss Hsc Hnd Hn Hall.
  induction ss as [|s ss IH]; intros sv w Hsv Hss Hsc Hnd Hn Hall; cbn [shutdown].
  - eapply server_freed; [done..|]. intros w' H1 H2 H3 H4 H5. split_and!; try done.
    + intros s. by rewrite H2.
    + intros st x. rewrite H3. set_solver.
    + intros d u. rewrite (H5 d u). split; [|naive_solver]. intros [Hin Hne]. split_and!; [done|naive_solver|].
      destruct (context_of u); cbn; set_solver.
  - apply list.NoDup_cons in Hnd as [Hs Hnd]. destruct (Hall s) as (v & l & Hv & Ho); [by left|].
    apply bwp_bind. eapply end_session_ok; [done..|]. intros w1 Hs1 Hss1 Hn1 Hst1 Hc1.
    eapply bwp_mono; [eapply IH; [exact Hs1|done..| |]|].
    + done.
    + intros s' Hs'. destruct (Hall s') as (v' & l' & Hv' & Ho'); [by right|]. exists v', l'. split.
      * rewrite Hss1, lookup_delete_ne; [done|]. by intros ->.
      * eapply opened_ext; [exact Ho'|]. intros st x Hx. rewrite (Hst1 st x). split; [by intros []|]. intros H'. split; [done|]. rewrite Hx. by intros ->.
    + cbn. intros _ w2 (H1 & H2 & H3 & H4 & H5). split_and!; try done.
      * intros s'. rewrite H3, Hss1. destruct (decide (s' ∈ ss)); [by rewrite decide_True by by right|].
        destruct (decide (s' = s)) as [->|Hne]; [by rewrite lookup_delete_eq, decide_True by by left|].
        rewrite lookup_delete_ne by done. rewrite decide_False; [done|]. by intros [|]%elem_of_cons.
      * intros st x. rewrite H4, (Hst1 st x), not_elem_of_cons. naive_solver.
      * intros d t. rewrite (H5 d t), (Hc1 d t). by apply freed_cons.
Qed.

End Spec.

(** ** Examples *)

(** A table that is a list, searched from the front. *)
Fixpoint list_search (read : key -> res io_ref) (handle : io_ref) (l : list entry) : res (option entry) :=
  match l with
  | [] => Ok None
  | e :: l =>
      if bool_decide (e_hash e = io_ref_hash handle) then
        k ← read (e_key e); if io_ref_equals (Some k) (Some handle) then Ok (Some e) else list_search read handle l
      else list_search read handle l
  end.
#[local] Instance list_table : key_table (list entry) unit := {
  kt_empty := [];
  kt_count l := zlen l;
  kt_insert l e := e :: l;
  kt_search read l handle := e ← list_search read handle l; Ok (option_map e_stream e);
  kt_remove read l handle := e ← list_search read handle l;
    Ok match e with None => l | Some e => filter (fun x => e_stream x <> e_stream e) l end;
  kt_iterator _ := tt;
  it_value _ l := match l with e :: _ => e_stream e | [] => 0 end;
  it_remove _ l := (bool_decide (tail l <> []), tt, tail l);
  kt_items l := l;
  it_rest _ l := l;
}.

Lemma list_search_one read handle l : forall e, filter (fun x => e_hash x = io_ref_hash handle) l = [e] ->
  list_search read handle l = (k ← read (e_key e); Ok (if io_ref_equals (Some k) (Some handle) then Some e else None)).
Proof.
  assert (Hnone : forall l, filter (fun x => e_hash x = io_ref_hash handle) l = [] -> list_search read handle l = Ok None).
  { induction l0 as [|x l0 IH]; [done|]. rewrite filter_cons. case_decide as Hx; [done|]. cbn. by rewrite bool_decide_eq_false_2. }
  induction l as [|x l IH]; intros e; [done|]. rewrite filter_cons. cbn. case_decide as Hx.
  - intros [= -> Hl]. rewrite bool_decide_eq_true_2 by done. destruct (read _) as [k| |]; cbn; [|done|done]. rewrite (Hnone l Hl). by case_match.
  - rewrite bool_decide_eq_false_2 by done. apply IH.
Qed.

#[local] Instance list_table_laws : key_table_laws (list entry) unit.
Proof.
  constructor; cbn; try done.
  - intros read t handle. unfold candidates. cbn. induction t as [|x t IH]; [done|]. rewrite filter_cons. case_decide as Hx; [done|].
    cbn. by rewrite bool_decide_eq_false_2.
  - intros read t handle e He. rewrite (list_search_one _ _ _ _ He). destruct (read _) as [k| |]; cbn; [|done|done]. by case_match.
  - by intros _ t e l ->.
  - intros _ t e l b i' t' -> _ [= <- <- <-]. done.
Qed.

Definition ex_env (A : Type) (tr : list event) (k : call A) : A :=
  match k in call A return A with
  | c_alloc | c_task_entry | c_hashtable_create | c_hashtable_insert | c_hashtable_iterator => true
  | c_buffer used size => Some (fresh (dom used), replicate (Z.to_nat size) 0)
  | c_hashtable_destroy | c_scheduler_release | c_sdclient_release | c_sdbrowser_free _ | c_socket_close _ | c_socket_free _ => tt
  | c_lock_create | c_scheduler_create | c_sdclient_create | c_sdbrowser_create _ | c_sdbrowser_browse _ _ _ _
  | c_socket_can_send _ | c_socket_can_recv _ => er_ok
  | c_queue_lock | c_queue_pool => Ok tt
  | c_caps => (true, true)
  | c_config_browse_fs => 1
  | c_read_dir _ => ([], er_ok)
  end.

Definition ex_queue : io_queue (@links node) :=
  match io_queue_create true (Ok tt) (Ok tt) links0 with Ok q => q | _ => mk_queue links0 ∅ [] end.
Definition ex_handle : io_ref := zeros 15 ++ [7].
Definition ex_session (l : list entry) : prx_browse_session (@links node) (list entry) :=
  Session (Some 1) false false true (Some io_codec_mpack) (Some ex_queue) (Some ex_queue) er_ok (Some l).
Definition ex_entry (st : Z) : entry := Entry (io_ref_hash ex_handle) (Key 1 ex_handle) st.
(** Two sessions, one with two streams that time out; another server has a session with a stream. *)
Definition ex_world : world (@links node) (list entry) :=
  World (Some (Server [10; 11] true true true false))
    (<[10 := ex_session [ex_entry 20; ex_entry 21]]> (<[11 := ex_session []]> (<[12 := ex_session []]> ∅)))
    (<[20 := Stream 10 ex_handle true]> (<[21 := Stream 10 ex_handle false]> (<[22 := Stream 12 ex_handle true]> ∅))) 30 1
    [t_server_free] [(5, t_stream_timeout 20); (6, t_stream_timeout 22); (7, t_stream_timeout 21)] 0 [].
Definition ex_encode (k : io_codec_id) (r : io_browse_response ptr) : res bytes := Ok [1].
Definition ex_decode (k : io_codec_id) (b : bytes) : res io_browse_request :=
  Ok (mk_request ex_handle 1 io_browse_request_cancel 0 sa_unspec).

Lemma ex_queue_rep : q_rep ex_queue (fun _ => []).
Proof.
  destruct (create_rep (D := @links node) (Ok tt) (Ok tt) links0 ex_queue eq_refl) as (Hr & _).
  eapply q_rep_ext; [|exact Hr]. by intros [].
Qed.

Lemma ex_opened s : s ∈ [10; 11] -> exists v l, w_sessions ex_world !! s = Some v /\ opened s l v ex_world.
Proof.
  rewrite !elem_of_cons. intros [->|[->|Hx%elem_of_nil]]; [..|done].
  - exists (ex_session [ex_entry 20; ex_entry 21]), [ex_entry 20; ex_entry 21]. split; [reflexivity|]. constructor; try reflexivity.
    + apply (bool_decide_unpack _). vm_compute. done.
    + intros e. cbn [kt_items list_table]. rewrite !elem_of_cons. intros [->|[->|Hx%elem_of_nil]]; [by eexists..|done].
    + intros st x. cbn. rewrite !lookup_insert_Some, lookup_empty. cbn. rewrite !elem_of_cons. intros Hst Hx.
      destruct Hst as [[<- _]|[_ [[<- _]|[_ [[_ <-]|[_ Hst]]]]]]; [by left|by right; left|by cbn in Hx|done].
    + intros []; exists ex_queue, (fun _ => []); split; try reflexivity; exact ex_queue_rep.
  - exists (ex_session []), []. split; [reflexivity|]. constructor; try reflexivity.
    + constructor.
    + intros e. cbn [kt_items list_table]. by intros Hx%elem_of_nil.
    + intros st x. cbn. rewrite !lookup_insert_Some, lookup_empty. intros Hst Hx.
      destruct Hst as [[_ <-]|[_ [[_ <-]|[_ [[_ <-]|[_ Hst]]]]]]; [by cbn in Hx..|done].
    + intros []; exists ex_queue, (fun _ => []); split; try reflexivity; exact ex_queue_rep.
Qed.

Lemma browse_server_freed_witness : exists w', shutdown ex_env 16 ex_encode ex_decode [10; 11] ex_world = Ok (tt, w') /\ w_server w' = None /\
  w_sessions w' !! 10 = None /\ w_sessions w' !! 11 = None /\ w_streams w' !! 20 = None /\ w_streams w' !! 22 = Some (Stream 12 ex_handle true) /\
  (forall d, (d, t_stream_timeout 20) ∉ w_later w') /\ (6, t_stream_timeout 22) ∈ w_later w'.
Proof.
  destruct (browse_server_freed (D := @links node) (T := list entry) ex_env 16 ex_encode ex_decode (fun _ => eq_refl) (fun _ => eq_refl) [10; 11]
    (Server [10; 11] true true true false) ex_world) as (w' & E & Hs & _ & Hss & Hst & Hl); [reflexivity..| | |exact ex_opened|].
  - apply (bool_decide_unpack _). vm_compute. done.
  - reflexivity.
  - exists w'. split; [exact E|]. split; [exact Hs|]. split; [rewrite Hss; reflexivity|]. split; [rewrite Hss; reflexivity|].
    assert (H12 : 12 ∉ [10; 11]) by (apply (bool_decide_unpack _); vm_compute; done).
    split_and!.
    + destruct (w_streams w' !! 20) as [x|] eqn:Ex; [|done]. apply Hst in Ex as [Ex Hn]. vm_compute in Ex. injection Ex as <-. exfalso. apply Hn. by left.
    + apply Hst. split; [reflexivity|exact H12].
    + intros d Hin. apply Hl in Hin as (_ & _ & Hf). apply Hf. exists (Stream 10 ex_handle true). split; [reflexivity|by left].
    + apply Hl. split; [by right; left|]. split; [discriminate|]. intros (y & Hy & Hin). vm_compute in Hy. injection Hy as <-. exact (H12 Hin).
Defined.


(** A request for a stream, and one to cancel it. *)
Definition ex_first : world (@links node) (list entry) := with_sessions (<[10 := ex_session []]> (w_sessions ex_world)) ex_world.

Example unknown_codec : prx_browse_server_accept ex_env 3 links0 ex_world = UB.
Proof. apply browse_accept_crash; reflexivity. Qed.

Lemma browse_key_dangles_witness : exists st w1, prx_browse_session_get_or_create_request ex_env 10 ex_handle ex_first = Ok (inl st, w1) /\
  prx_browse_session_decode_and_process_request ex_env 16 ex_encode ex_decode 10 [1] w1 = UB.
Proof.
  destruct (browse_key_dangles (D := @links node) (T := list entry) ex_env 16 ex_encode ex_decode 10 ex_handle [] (ex_session []) ex_first)
    as (st & v1 & t1 & w1 & E & Hv1 & Ht1 & Hone & _ & Hub); [reflexivity..|].
  exists st, w1. split; [exact E|].
  assert (Hck : match w_sessions w1 !! 10 with Some v => ss_codec v | None => None end = Some io_codec_mpack /\ w_request w1 = 1).
  { assert (Hr : match prx_browse_session_get_or_create_request ex_env 10 ex_handle ex_first with
      | Ok (_, w) => (match w_sessions w !! 10 with Some v => ss_codec v | None => None end, w_request w) | _ => (None, 0) end = (Some io_codec_mpack, 1))
      by (vm_compute; reflexivity). rewrite E in Hr. by injection Hr. }
  destruct Hck as [Hc Hr]. rewrite Hv1 in Hc.
  eapply (Hub w1 v1 t1 io_codec_mpack [1] (mk_request ex_handle 1 io_browse_request_cancel 0 sa_unspec));
    [exact Hv1|exact Ht1|exact Hone|exact Hc|rewrite Hr; reflexivity|reflexivity|split; reflexivity].
Defined.
End PrxBrowseSpec.
