(* ===== verification/PrxSched.v ===== *)
(** * Task scheduler (src/prx_sched.c)

    Tasks are queued for now, or for later with a delay; a worker thread takes due
    tasks, runs them and otherwise sleeps until the next deadline.  Entries live in a
    store by address and are linked into the rings [now], [later] and, while
    [prx_scheduler_clear] runs, a list on its stack.  Every function that takes the
    lock is one atomic step; the body of the worker loop is split where it calls the
    task, since tasks queue and clear tasks themselves.

    The specification [asched] is the two sequences of entries; [s_step] is shown to
    implement [a_step] for every operation. *)
From stdpp Require Import base option list numbers sets gmap finite sorting.
From S2P Require Import Prelude PrxTypes DList DListStore.
Import PrxTypes DList DListStore.

Module PrxSched.

Inductive tlist := now | later | free_list.

#[export] Instance tlist_eq_dec : EqDecision tlist.
Proof. solve_decision. Defined.
#[export] Instance tlist_finite : Finite tlist.
Proof.
  refine {| enum := [now; later; free_list] |}.
  - by apply (bool_decide_unpack _).
  - intros []; by apply (bool_decide_unpack _).
Defined.

Abbreviation node := (node tlist).
Abbreviation lists := (lists tlist).

(** [te_name], [te_task] and [te_context] are addresses. *)
Record prx_task_entry := mk_entry {
  te_name : Z;
  te_queued : Z;
  te_deadline : Z;
  te_task : Z;
  te_context : Z;
}.

(** [sc_tasks]: the entries checked out of the pool; [sc_wakeup]: whether the signal
    the idle worker waits for is set; [sc_refs]: the reference count. *)
Record prx_scheduler (D : Type) := mk_sched {
  sc_links : D;
  sc_tasks : gmap Z prx_task_entry;
  sc_should_run : bool;
  sc_wakeup : bool;
  sc_refs : Z;
}.
Arguments mk_sched {D}. Arguments sc_links {D}. Arguments sc_tasks {D}.
Arguments sc_should_run {D}. Arguments sc_wakeup {D}. Arguments sc_refs {D}.

Section Sched.
Context {D : Type} `{dlist D node}.
Implicit Type s : prx_scheduler D.

Definition set_links s (d : D) : prx_scheduler D :=
  mk_sched d (sc_tasks s) (sc_should_run s) (sc_wakeup s) (sc_refs s).
Definition set_tasks s (m : gmap Z prx_task_entry) : prx_scheduler D :=
  mk_sched (sc_links s) m (sc_should_run s) (sc_wakeup s) (sc_refs s).

(** The loops follow the forward links; [fuel]: at most every entry that is checked
    out is visited. *)
Fixpoint remove_by_id_loop (fuel : nat) (d : D) (queue p : node) (id : Z) : res (D * option Z) :=
  if decide (p = queue) then Ok (d, None)
  else match fuel with
  | O => UB
  | S fuel =>
      next ← chk (entry_of p);
      if decide (next = id) then Ok (DList_RemoveEntryList d (link_of next), Some next)
      else remove_by_id_loop fuel d queue (Flink d p) id
  end.

Definition prx_scheduler_remove_by_id s (queue : node) (id : Z) : res (prx_scheduler D * option Z) :=
  '(d, found) ← remove_by_id_loop (size (sc_tasks s)) (sc_links s) queue (Flink (sc_links s) queue) id;
  Ok (set_links s d, found).

(** The condition of [prx_scheduler_remove_by_task_type]; 0 is NULL. *)
Definition matches (task context : Z) (te : prx_task_entry) : bool :=
  (bool_decide (context = 0) || bool_decide (te_context te = context)) &&
  (bool_decide (task = 0) || bool_decide (te_task te = task)).

Fixpoint remove_by_task_type_loop (fuel : nat) (m : gmap Z prx_task_entry) (d : D) (queue p : node)
    (task context : Z) (result : node) : res D :=
  if decide (p = queue) then Ok d
  else match fuel with
  | O => UB
  | S fuel =>
      next ← chk (entry_of p);
      te ← chk (m !! next);
      if matches task context te then
        let p := Flink d p in
        let d := DList_RemoveEntryList d (link_of next) in
        let d := DList_InsertTailList d result (link_of next) in
        remove_by_task_type_loop fuel m d queue p task context result
      else remove_by_task_type_loop fuel m d queue (Flink d p) task context result
  end.

Definition prx_scheduler_remove_by_task_type s (queue : node) (task context : Z) (result : node)
  : res (prx_scheduler D) :=
  d ← remove_by_task_type_loop (size (sc_tasks s)) (sc_tasks s) (sc_links s) queue
        (Flink (sc_links s) queue) task context result;
  Ok (set_links s d).

Definition prx_scheduler_interrupt s : prx_scheduler D :=
  mk_sched (sc_links s) (sc_tasks s) (sc_should_run s) true (sc_refs s).

(** The entry to run, and the time to wait; [t]: the parameter [now]. *)
Definition prx_scheduler_get_next s (t : Z) : res (prx_scheduler D * option Z * Z) :=
  let run_now idle :=
    if negb (DList_IsListEmpty (sc_links s) (head_of now)) then
      let '(n, d) := DList_RemoveHeadList (sc_links s) (head_of now) in
      candidate ← chk (entry_of n);
      Ok (set_links s d, Some candidate, 0)
    else Ok (s, None, idle) in
  if negb (DList_IsListEmpty (sc_links s) (head_of later)) then
    candidate ← chk (entry_of (Flink (sc_links s) (head_of later)));
    te ← chk (sc_tasks s !! candidate);
    let idle := i32 (te_deadline te - t) in
    if bool_decide (idle <= 0) then
      Ok (set_links s (DList_RemoveEntryList (sc_links s) (link_of candidate)), Some candidate, 0)
    else run_now idle
  else run_now (-1).

(** What the worker does after [prx_scheduler_get_next]: call a task, exit or sleep. *)
Inductive work := WRun (task context : Z) | WExit | WIdle (delay : Z).

(** The loop of the worker up to the call of the task; the entry that runs is
    returned as well. *)
Definition prx_scheduler_work s (t : Z) : res (prx_scheduler D * option Z * work) :=
  '(s, next, idle_timeout) ← prx_scheduler_get_next s t;
  match next with
  | Some next => te ← chk (sc_tasks s !! next); Ok (s, Some next, WRun (te_task te) (te_context te))
  | None => if negb (sc_should_run s) && bool_decide (idle_timeout = -1) then Ok (s, None, WExit)
            else Ok (s, None, WIdle idle_timeout)
  end.

(** And after the task returned. *)
Definition prx_scheduler_work_done s (next : Z) : prx_scheduler D :=
  set_tasks s (delete next (sc_tasks s)).

(** [parent]: when there is one it is returned; otherwise whether the parts of the
    scheduler could be created. *)
Definition prx_scheduler_create (parent : option (prx_scheduler D)) (alloc thread : bool)
    (pool lock signal : res unit) (d : D) : res (prx_scheduler D) :=
  match parent with
  | Some s => Ok (mk_sched (sc_links s) (sc_tasks s) (sc_should_run s) (sc_wakeup s) (sc_refs s + 1))
  | None =>
      if negb alloc then Err er_out_of_memory
      else
        let d := DList_InitializeListHead d (head_of now) in
        let d := DList_InitializeListHead d (head_of later) in
        _ ← pool;
        _ ← lock;
        _ ← signal;
        if negb thread then Err er_fatal else Ok (mk_sched d ∅ true false 1)
  end.

(** The place in [later] for a deadline: the entry to insert before, or the head. *)
Fixpoint insert_loop (fuel : nat) (m : gmap Z prx_task_entry) (d : D) (p : node) (deadline : Z) : res node :=
  if decide (p = head_of later) then Ok (head_of later)
  else match fuel with
  | O => UB
  | S fuel =>
      next ← chk (entry_of p);
      te ← chk (m !! next);
      if bool_decide (te_deadline te > deadline) then Ok (link_of next)
      else insert_loop fuel m d (Flink d p) deadline
  end.

(** [entry]: what the pool returns, [ticks]: the value of [ticks_get]. *)
Definition prx_scheduler_queue s (entry : option Z) (ticks : Z) (name task context delay : Z)
  : res (prx_scheduler D * Z) :=
  if bool_decide (task = 0) then Err er_fault
  else match entry with
  | None => Ok (s, -1)
  | Some entry =>
      let te := {| te_name := name; te_context := context; te_task := task; te_queued := ticks;
                   te_deadline := ticks + delay |} in
      let m := <[entry := te]> (sc_tasks s) in
      d ← (if bool_decide (delay = 0) then Ok (DList_InsertTailList (sc_links s) (head_of now) (link_of entry))
           else
             p ← insert_loop (size (sc_tasks s)) m (sc_links s) (Flink (sc_links s) (head_of later))
                   (te_deadline te);
             Ok (DList_InsertTailList (sc_links s) p (link_of entry)));
      Ok (prx_scheduler_interrupt (set_tasks (set_links s d) m), entry)
  end.

Definition prx_scheduler_kill s (id : Z) : res (prx_scheduler D * bool) :=
  '(s, next) ← prx_scheduler_remove_by_id s (head_of now) id;
  '(s, next) ← (match next with
                | Some next => Ok (s, Some next)
                | None => prx_scheduler_remove_by_id s (head_of later) id
                end);
  match next with
  | Some next => Ok (set_tasks s (delete next (sc_tasks s)), true)
  | None => Ok (s, false)
  end.

(** The entries collected are returned to the pool. *)
Fixpoint clear_loop (fuel : nat) s : res (prx_scheduler D) :=
  if DList_IsListEmpty (sc_links s) (head_of free_list) then Ok s
  else match fuel with
  | O => UB
  | S fuel =>
      let '(n, d) := DList_RemoveHeadList (sc_links s) (head_of free_list) in
      next ← chk (entry_of n);
      clear_loop fuel (set_tasks (set_links s d) (delete next (sc_tasks s)))
  end.

Definition prx_scheduler_clear s (task context : Z) : res (prx_scheduler D) :=
  let s := set_links s (DList_InitializeListHead (sc_links s) (head_of free_list)) in
  s ← prx_scheduler_remove_by_task_type s (head_of now) task context (head_of free_list);
  s ← prx_scheduler_remove_by_task_type s (head_of later) task context (head_of free_list);
  clear_loop (size (sc_tasks s)) s.

Definition prx_scheduler_release s (context : Z) : res (prx_scheduler D) :=
  s ← (if bool_decide (context = 0) then Ok s else prx_scheduler_clear s 0 context);
  let s := mk_sched (sc_links s) (sc_tasks s) (sc_should_run s) (sc_wakeup s) (sc_refs s - 1) in
  if bool_decide (sc_refs s = 0) then
    Ok (prx_scheduler_interrupt (mk_sched (sc_links s) (sc_tasks s) false (sc_wakeup s) (sc_refs s)))
  else Ok s.

(** After the worker was joined. *)
Definition prx_scheduler_at_exit s : res (prx_scheduler D) := prx_scheduler_clear s 0 0.
End Sched.

(** ** Specification *)

Section Spec.
Variable m : gmap Z prx_task_entry.

Definition deadline_of (b : Z) : Z := from_option te_deadline 0 (m !! b).
Definition selected (task context b : Z) : bool := from_option (matches task context) false (m !! b).

(** Before the first entry with a later deadline. *)
Fixpoint insert_sorted (b dl : Z) (l : list Z) : list Z :=
  match l with
  | [] => [b]
  | c :: l => if bool_decide (deadline_of c > dl) then b :: c :: l else c :: insert_sorted b dl l
  end.

Definition keep (task context : Z) (l : list Z) : list Z :=
  filter (fun b => selected task context b = false) l.
Definition take_out (task context : Z) (l : list Z) : list Z :=
  filter (fun b => selected task context b = true) l.
End Spec.

Definition drop_tasks (m : gmap Z prx_task_entry) (l : list Z) : gmap Z prx_task_entry :=
  foldl (fun m b => delete b m) m l.

Section Loops.
Context {D : Type} `{L : dlist_laws D node}.
Implicit Types (d : D) (f : lists) (m : gmap Z prx_task_entry).

Abbreviation none := (fun _ : Z => False).

Lemma remove_by_id_spec d t id k : forall fuel pre, dl d t (pre ++ k) -> (length k <= fuel)%nat ->
  remove_by_id_loop fuel d (head_of t) (default (head_of t) (link_of <$> head k)) id =
  if decide (id ∈ k) then Ok (DList_RemoveEntryList d (link_of id), Some id) else Ok (d, None).
Proof.
  induction k as [|b k IH]; intros fuel pre Hd Hf.
  - rewrite decide_False by (apply not_elem_of_nil). destruct fuel; cbn; by rewrite decide_True.
  - destruct fuel as [|fuel]; [cbn in Hf; lia|].
    change (default (head_of t) (link_of <$> head (b :: k))) with (link_of (K := tlist) b).
    cbn [remove_by_id_loop]. rewrite decide_False by done. cbn [entry_of chk mbind res_bind].
    destruct (decide (b = id)) as [->|Hb].
    + by rewrite decide_True by apply list_elem_of_here.
    + rewrite (ring_next _ _ _ _ _ Hd), (IH fuel (pre ++ [b])).
      * destruct (decide (id ∈ k)) as [Hk|Hk]; [rewrite decide_True by by right|rewrite decide_False by set_solver]; done.
      * by rewrite <- app_assoc.
      * cbn in Hf. lia.
Qed.

Lemma insert_loop_spec d m b dt k : forall fuel pre, dl d later (pre ++ k) -> (length k <= fuel)%nat ->
  (forall c, c ∈ k -> is_Some (m !! c)) -> exists l1 l2,
    k = l1 ++ l2 /\ insert_sorted m b dt k = l1 ++ b :: l2 /\
    insert_loop fuel m d (default (head_of later) (link_of <$> head k)) dt =
      Ok (default (head_of later) (link_of <$> head l2)).
Proof.
  induction k as [|c k IH]; intros fuel pre Hd Hf Hm.
  - exists [], []. split; [done|]. split; [done|]. destruct fuel; cbn; by rewrite decide_True.
  - destruct fuel as [|fuel]; [cbn in Hf; lia|].
    change (default (head_of later) (link_of <$> head (c :: k))) with (link_of (K := tlist) c).
    cbn [insert_loop insert_sorted]. rewrite decide_False by done. cbn [entry_of chk mbind res_bind].
    destruct (Hm c (list_elem_of_here _ _)) as [te Hte]. unfold deadline_of. rewrite Hte.
    cbn [chk mbind res_bind from_option].
    case_bool_decide as Hgt.
    + exists [], (c :: k). done.
    + rewrite (ring_next _ _ _ _ _ Hd).
      destruct (IH fuel (pre ++ [c])) as (l1 & l2 & E & Ei & El).
      { by rewrite <- app_assoc. } { cbn in Hf. lia. } { intros x Hx. apply Hm. by right. }
      exists (c :: l1), l2. rewrite E at 1. rewrite Ei, El. done.
Qed.

(** [k] entries of list [t] are left to visit. *)
Definition moved m task context f (t : tlist) (pre k : list Z) : lists := fun u =>
  if decide (u = t) then pre ++ keep m task context k
  else if decide (u = free_list) then f free_list ++ take_out m task context k
  else f u.

Lemma push_free A d f t pre b k : rep A d none f -> t <> free_list -> f t = pre ++ b :: k ->
  forall u, push f free_list b u =
    if decide (u = t) then pre ++ k else if decide (u = free_list) then f free_list ++ [b] else f u.
Proof.
  intros Hr Ht E u. pose proof (rep_nodup _ _ _ _ t Hr) as Hn. pose proof (st_once _ _ _ _ Hr) as Ho.
  assert (Hbt : b ∈ f t) by (rewrite E; set_solver).
  assert (Hb : forall v, v <> t -> b ∉ f v) by (intros v Hv Hbv; apply Hv; by eapply Ho).
  unfold push. destruct (decide (u = t)) as [->|Hut]; [|destruct (decide (u = free_list)) as [->|Huf]].
  - rewrite decide_False by done. rewrite E in Hn |- *. by apply rm_middle.
  - rewrite rm_not_in; [done|]. by apply Hb.
  - apply rm_not_in. by apply Hb.
Qed.

Lemma remove_by_task_type_spec m task context t k : t <> free_list -> forall fuel A d f pre,
  rep A d none f -> A free_list -> A t -> f t = pre ++ k -> (length k <= fuel)%nat ->
  (forall c, c ∈ k -> is_Some (m !! c)) -> exists d',
    remove_by_task_type_loop fuel m d (head_of t) (default (head_of t) (link_of <$> head k))
      task context (head_of free_list) = Ok d' /\
    rep A d' none (moved m task context f t pre k).
Proof.
  intros Ht. induction k as [|b k IH]; intros fuel A d f pre Hr Af At E Hf Hm.
  - exists d. split; [destruct fuel; cbn; by rewrite decide_True|]. eapply rep_ext; [|exact Hr].
    rewrite app_nil_r in E. intros u. unfold moved. repeat case_decide; subst; by rewrite ?app_nil_r.
  - destruct fuel as [|fuel]; [cbn in Hf; lia|].
    change (default (head_of t) (link_of <$> head (b :: k))) with (link_of (K := tlist) b).
    cbn [remove_by_task_type_loop]. rewrite decide_False by done. cbn [entry_of chk mbind res_bind].
    destruct (Hm b (list_elem_of_here _ _)) as [te Hte]. rewrite Hte. cbn [chk mbind res_bind].
    pose proof (st_lists _ _ _ _ Hr t At) as Hd. rewrite E in Hd. rewrite (ring_next _ _ _ _ _ Hd).
    assert (Hs : selected m task context b = matches task context te) by (unfold selected; by rewrite Hte).
    assert (Hm' : forall c, c ∈ k -> is_Some (m !! c)) by (intros c Hc; apply Hm; by right).
    unfold moved, keep, take_out. cbn in Hf. destruct (matches task context te) eqn:Em.
    + assert (Hb : b ∈ f t) by (rewrite E; set_solver).
      pose proof (push_rep A d none f free_list b Hr Af (or_intror (ex_intro _ t Hb))) as Hr'.
      pose proof (push_free _ _ _ _ _ _ _ Hr Ht E) as Hp.
      destruct (IH fuel A _ _ pre Hr') as (d' & El & Hr2); [done|done| |lia|done|].
      { rewrite Hp. by rewrite decide_True. }
      exists d'. split; [exact El|]. eapply rep_ext; [|exact Hr2]. intros u. unfold moved, keep, take_out.
      rewrite !filter_cons, Hs, !Hp. repeat case_decide; try done; by rewrite <- ?app_assoc.
    + destruct (IH fuel A d f (pre ++ [b]) Hr) as (d' & El & Hr2); [done|done| |lia|done|].
      { by rewrite <- app_assoc. }
      exists d'. split; [exact El|]. eapply rep_ext; [|exact Hr2]. intros u. unfold moved, keep, take_out.
      rewrite !filter_cons, Hs. repeat case_decide; try done; by rewrite <- ?app_assoc.
Qed.

Lemma removed_none A d f t b : rep A d none f -> b ∈ f t ->
  rep A (DList_RemoveEntryList d (link_of b)) none (detach f b).
Proof.
  intros Hr Hb. eapply rep_weaken; [|apply removed_rep; [exact Hr|right; by exists t]]. by intros ? [].
Qed.

Lemma clear_loop_spec l : forall fuel (s : prx_scheduler D) f,
  rep (fun _ => True) (sc_links s) none f -> f free_list = l -> (length l <= fuel)%nat -> exists d,
    clear_loop fuel s = Ok (set_tasks (set_links s d) (drop_tasks (sc_tasks s) l)) /\
    rep (fun t => t <> free_list) d none (set_list f free_list []).
Proof.
  induction l as [|b l IH]; intros fuel s f Hr E Hf;
    pose proof (st_lists _ _ _ _ Hr free_list I) as Hd; rewrite E in Hd.
  - exists (sc_links s). split.
    + destruct fuel; cbn; rewrite (is_empty_list _ _ _ Hd); by destruct s.
    + eapply rep_heads; [|eapply (rep_forget _ _ _ _ free_list); [eapply rep_ext; [|exact Hr]|]].
      * intros t. cbn. tauto.
      * intros t. unfold set_list. case_decide; by subst.
      * unfold set_list. by rewrite decide_True.
  - destruct fuel as [|fuel]; [cbn in Hf; lia|]. cbn [clear_loop].
    rewrite (is_empty_list _ _ _ Hd), bool_decide_eq_false_2 by done.
    rewrite (remove_head_list _ _ _ _ Hd). cbn [entry_of chk mbind res_bind].
    assert (Hb : b ∈ f free_list) by (rewrite E; apply list_elem_of_here).
    pose proof (removed_none _ _ _ _ b Hr Hb) as Hr'.
    destruct (IH fuel (set_tasks (set_links s (DList_RemoveEntryList (sc_links s) (link_of b)))
                (delete b (sc_tasks s))) _ Hr') as (d & El & Hr2).
    + rewrite (detach_middle f free_list b [] l); [|apply (st_once _ _ _ _ Hr)|by eapply rep_nodup|done].
      unfold set_list. by rewrite decide_True.
    + cbn in Hf. lia.
    + exists d. split; [exact El|]. eapply rep_ext; [|exact Hr2]. intros t.
      pose proof (detach_middle f free_list b [] l (st_once _ _ _ _ Hr) ltac:(by eapply rep_nodup) E t) as Ht.
      unfold set_list in Ht |- *. case_decide; [done|]. exact Ht.
Qed.
End Loops.

(** *** Operations on sequences *)

(** [SWork t]: the worker looks for a task at time [t]; [SDone e]: the task of entry
    [e] returned. *)
Inductive sop :=
| SQueue (entry : option Z) (ticks name task context delay : Z)
| SKill (id : Z)
| SClear (task context : Z)
| SRelease (context : Z)
| SWork (t : Z)
| SDone (e : Z).

Inductive sout :=
| OId (id : Z)
| OFault
| OFound (found : bool)
| OUnit
| OWork (next : option Z) (w : work).

Definition s_step {D} `{dlist D node} (s : prx_scheduler D) (o : sop) : res (prx_scheduler D * sout) :=
  match o with
  | SQueue entry ticks name task context delay =>
      match prx_scheduler_queue s entry ticks name task context delay with
      | Ok (s, id) => Ok (s, OId id)
      | Err _ => Ok (s, OFault)
      | UB => UB
      end
  | SKill id => '(s, r) ← prx_scheduler_kill s id; Ok (s, OFound r)
  | SClear task context => s ← prx_scheduler_clear s task context; Ok (s, OUnit)
  | SRelease context => s ← prx_scheduler_release s context; Ok (s, OUnit)
  | SWork t => '(s, next, w) ← prx_scheduler_work s t; Ok (s, OWork next w)
  | SDone e => Ok (prx_scheduler_work_done s e, OUnit)
  end.

Fixpoint s_run {D} `{dlist D node} (s : prx_scheduler D) (os : list sop)
  : res (prx_scheduler D * list sout) :=
  match os with
  | [] => Ok (s, [])
  | o :: os => '(s, r) ← s_step s o; '(s, rs) ← s_run s os; Ok (s, r :: rs)
  end.

Record asched := mk_as {
  a_now : list Z;
  a_later : list Z;
  a_tasks : gmap Z prx_task_entry;
  a_should_run : bool;
  a_wakeup : bool;
  a_refs : Z;
}.

Definition a_clear (a : asched) (task context : Z) : asched :=
  let m := a_tasks a in
  mk_as (keep m task context (a_now a)) (keep m task context (a_later a))
    (drop_tasks m (take_out m task context (a_now a) ++ take_out m task context (a_later a)))
    (a_should_run a) (a_wakeup a) (a_refs a).

Definition a_release (a : asched) (context : Z) : asched :=
  let a := if decide (context = 0) then a else a_clear a 0 context in
  if decide (a_refs a - 1 = 0) then mk_as (a_now a) (a_later a) (a_tasks a) false true 0
  else mk_as (a_now a) (a_later a) (a_tasks a) (a_should_run a) (a_wakeup a) (a_refs a - 1).

(** The entry that is taken at time [t], the lists after, and the time to wait. *)
Definition a_next (a : asched) (t : Z) : asched * option Z * Z :=
  let run_now idle :=
    match a_now a with
    | c :: l => (mk_as l (a_later a) (a_tasks a) (a_should_run a) (a_wakeup a) (a_refs a), Some c, 0)
    | [] => (a, None, idle)
    end in
  match a_later a with
  | c :: l =>
      let idle := i32 (deadline_of (a_tasks a) c - t) in
      if decide (idle <= 0)
      then (mk_as (a_now a) l (a_tasks a) (a_should_run a) (a_wakeup a) (a_refs a), Some c, 0)
      else run_now idle
  | [] => run_now (-1)
  end.

Definition a_queue (a : asched) (e ticks name task context delay : Z) : asched :=
  let m := <[e := mk_entry name ticks (ticks + delay) task context]> (a_tasks a) in
  if decide (delay = 0) then mk_as (a_now a ++ [e]) (a_later a) m (a_should_run a) true (a_refs a)
  else mk_as (a_now a) (insert_sorted m e (ticks + delay) (a_later a)) m (a_should_run a) true (a_refs a).

Definition a_listed (a : asched) (e : Z) : Prop := e ∈ a_now a \/ e ∈ a_later a.
#[export] Instance a_listed_dec a e : Decision (a_listed a e).
Proof. unfold a_listed. apply _. Defined.

(** [None]: the pool returns an entry that is in use, or the worker finishes a task
    it did not take. *)
Definition a_step (a : asched) (o : sop) : option (asched * sout) :=
  match o with
  | SQueue entry ticks name task context delay =>
      if decide (task = 0) then Some (a, OFault)
      else match entry with
      | None => Some (a, OId (-1))
      | Some e => if decide (a_tasks a !! e = None)
                  then Some (a_queue a e ticks name task context delay, OId e) else None
      end
  | SKill id =>
      if decide (a_listed a id)
      then Some (mk_as (rm id (a_now a)) (rm id (a_later a)) (delete id (a_tasks a))
                   (a_should_run a) (a_wakeup a) (a_refs a), OFound true)
      else Some (a, OFound false)
  | SClear task context => Some (a_clear a task context, OUnit)
  | SRelease context => Some (a_release a context, OUnit)
  | SWork t =>
      let '(a', next, idle) := a_next a t in
      match next with
      | Some e => te ← a_tasks a !! e; Some (a', OWork (Some e) (WRun (te_task te) (te_context te)))
      | None => if negb (a_should_run a) && bool_decide (idle = -1) then Some (a', OWork None WExit)
                else Some (a', OWork None (WIdle idle))
      end
  | SDone e =>
      if decide (a_listed a e) then None
      else Some (mk_as (a_now a) (a_later a) (delete e (a_tasks a)) (a_should_run a) (a_wakeup a) (a_refs a), OUnit)
  end.

Fixpoint a_run (a : asched) (os : list sop) : option (asched * list sout) :=
  match os with
  | [] => Some (a, [])
  | o :: os => '(a, r) ← a_step a o; '(a, rs) ← a_run a os; Some (a, r :: rs)
  end.

Definition a_empty : asched := mk_as [] [] ∅ true false 1.

Lemma drop_tasks_other l : forall (m : gmap Z prx_task_entry) c, c ∉ l -> drop_tasks m l !! c = m !! c.
Proof.
  induction l as [|b l IH]; intros m c Hc; [done|]. cbn. fold (drop_tasks (delete b m) l).
  rewrite IH by set_solver. apply lookup_delete_ne. set_solver.
Qed.

Lemma elem_keep m task context c l : c ∈ keep m task context l <-> selected m task context c = false /\ c ∈ l.
Proof. unfold keep. by rewrite list_elem_of_filter. Qed.
Lemma elem_take_out m task context c l : c ∈ take_out m task context l <-> selected m task context c = true /\ c ∈ l.
Proof. unfold take_out. by rewrite list_elem_of_filter. Qed.

(** ** Order of the delayed tasks *)

Definition sorted (m : gmap Z prx_task_entry) (l : list Z) : Prop :=
  StronglySorted (fun b c => deadline_of m b <= deadline_of m c) l.

Record a_inv (a : asched) : Prop := {
  inv_stored e : a_listed a e -> is_Some (a_tasks a !! e);
  inv_sorted : sorted (a_tasks a) (a_later a);
}.

Lemma deadline_ext m m' c : m' !! c = m !! c -> deadline_of m' c = deadline_of m c.
Proof. unfold deadline_of. by intros ->. Qed.

Lemma sorted_ext m m' l : (forall c, c ∈ l -> m' !! c = m !! c) -> sorted m l -> sorted m' l.
Proof.
  intros He Hs. induction Hs as [|b l Hs IH Hf]; [constructor|]. constructor.
  - apply IH. intros c Hc. apply He. by right.
  - rewrite Forall_forall in Hf |- *. intros c Hc. rewrite !(deadline_ext m m').
    + by apply Hf. + apply He. by right. + apply He. apply list_elem_of_here.
Qed.

Lemma sorted_filter m (P : Z -> Prop) `{!forall b, Decision (P b)} l : sorted m l -> sorted m (filter P l).
Proof.
  intros Hs. induction Hs as [|b l Hs IH Hf]; [constructor|]. rewrite filter_cons. case_decide; [|done].
  constructor; [done|]. rewrite Forall_forall in Hf |- *. intros c Hc. apply Hf.
  by apply list_elem_of_filter in Hc as [_ ?].
Qed.

Lemma insert_sorted_elem m b dt l c : c ∈ insert_sorted m b dt l <-> c = b \/ c ∈ l.
Proof.
  induction l as [|x l IH]; cbn; [set_solver|]. case_bool_decide; [set_solver|].
  rewrite !elem_of_cons, IH. tauto.
Qed.

Lemma insert_sorted_sorted m b l : sorted m l -> sorted m (insert_sorted m b (deadline_of m b) l).
Proof.
  intros Hs. induction Hs as [|c l Hs IH Hf]; cbn; [repeat constructor|]. case_bool_decide as Hd.
  - constructor; [by constructor|]. constructor; [lia|]. eapply Forall_impl; [exact Hf|]. cbn. intros x Hx. lia.
  - constructor; [done|]. rewrite Forall_forall in Hf |- *. intros x Hx.
    apply insert_sorted_elem in Hx as [->|Hx]; [lia|by apply Hf].
Qed.

Lemma keep_inv a task context : a_inv a -> a_inv (a_clear a task context).
Proof.
  intros [Hs Ho]. unfold a_clear.
  set (out := take_out _ _ _ (a_now a) ++ _).
  assert (Hout : forall c, selected (a_tasks a) task context c = false ->
                   drop_tasks (a_tasks a) out !! c = a_tasks a !! c).
  { intros c Hc. apply drop_tasks_other. unfold out. rewrite elem_of_app, !elem_take_out, Hc. naive_solver. }
  constructor; cbn.
  - unfold a_listed. cbn. intros c. rewrite !elem_keep. intros Hc. rewrite Hout by naive_solver.
    apply Hs. unfold a_listed. naive_solver.
  - eapply sorted_ext; [|by apply sorted_filter]. intros c Hc. apply Hout. by apply elem_keep in Hc as [? _].
Qed.

Lemma queue_inv a e ticks name task context delay : a_inv a -> a_tasks a !! e = None ->
  a_inv (a_queue a e ticks name task context delay).
Proof.
  intros [Hs Ho] He. unfold a_queue. set (te := mk_entry _ _ _ _ _). set (m := <[e := te]> _).
  assert (Hm : forall c, a_listed a c -> m !! c = a_tasks a !! c).
  { intros c Hc. apply lookup_insert_ne. intros ->. apply Hs in Hc as [? ?]. congruence. }
  assert (Hst : forall c, c = e \/ a_listed a c -> is_Some (m !! c)).
  { intros c [->|Hc]; [unfold m; by rewrite lookup_insert_eq|]. rewrite Hm by done. by apply Hs. }
  assert (Hsm : sorted m (a_later a)) by (eapply sorted_ext; [|exact Ho]; intros c Hc; apply Hm; by right).
  case_decide; constructor; cbn; [|done| |].
  - intros c. unfold a_listed. cbn. rewrite elem_of_app, list_elem_of_singleton. intros Hc. apply Hst.
    unfold a_listed. naive_solver.
  - intros c. unfold a_listed. cbn. rewrite insert_sorted_elem. intros Hc. apply Hst. unfold a_listed. naive_solver.
  - assert (Hd : ticks + delay = deadline_of m e) by (unfold deadline_of, m; by rewrite lookup_insert_eq).
    rewrite Hd. by apply insert_sorted_sorted.
Qed.

Lemma next_inv a t : a_inv a -> a_inv (a_next a t).1.1.
Proof.
  intros [Hs Ho]. unfold a_next.
  assert (Hl : forall c l, a_later a = c :: l -> sorted (a_tasks a) l)
    by (intros c l E; rewrite E in Ho; by inversion Ho).
  unfold a_listed in Hs. destruct (a_later a) as [|c l] eqn:El, (a_now a) as [|b k] eqn:En; try case_decide; cbn;
    constructor; unfold a_listed; cbn; rewrite ?El, ?En; try done; eauto; intros e He; apply Hs; set_solver.
Qed.

Lemma step_inv a o a' r : a_inv a -> a_step a o = Some (a', r) -> a_inv a'.
Proof.
  intros Hi Hs. destruct o as [entry ticks name task context delay|id|task context|context|t|e]; cbn in Hs.
  - case_decide; [by simplify_eq|]. destruct entry as [e|]; [|by simplify_eq]. case_decide; [|done].
    simplify_eq. by apply queue_inv.
  - case_decide; simplify_eq; [|done]. destruct Hi as [Hs Ho]. constructor; cbn.
    + intros c. unfold a_listed. cbn. rewrite !elem_rm. intros Hc. rewrite lookup_delete_ne by naive_solver.
      apply Hs. unfold a_listed. naive_solver.
    + eapply sorted_ext; [|by apply sorted_filter]. intros c Hc. apply list_elem_of_filter in Hc as [Hc _].
      by rewrite lookup_delete_ne.
  - simplify_eq. by apply keep_inv.
  - simplify_eq. unfold a_release. assert (H1 : a_inv (if decide (context = 0) then a else a_clear a 0 context))
      by (case_decide; [done|by apply keep_inv]).
    revert H1. generalize (if decide (context = 0) then a else a_clear a 0 context). intros a1 [H1 H2].
    case_decide; by constructor.
  - pose proof (next_inv a t Hi) as H1. destruct (a_next a t) as [[a1 next] idle]. cbn in H1.
    destruct next as [z|]; [destruct (a_tasks a !! z); [|done]; cbn in Hs; by simplify_eq|].
    destruct (negb (a_should_run a) && bool_decide (idle = -1)); by simplify_eq.
  - case_decide as Hl; [done|]. simplify_eq. destruct Hi as [Hs Ho]. constructor; cbn.
    + intros c Hc. rewrite lookup_delete_ne; [by apply Hs|]. intros ->. by apply Hl.
    + eapply sorted_ext; [|exact Ho]. intros c Hc. rewrite lookup_delete_ne; [done|]. intros ->. apply Hl. by right.
Qed.

Lemma run_inv os : forall a a' rs, a_inv a -> a_run a os = Some (a', rs) -> a_inv a'.
Proof.
  induction os as [|o os IH]; intros a a' rs Hi Hs; cbn in Hs; [by simplify_eq|].
  destruct (a_step a o) as [[a1 r]|] eqn:E1; [|done]. cbn in Hs.
  destruct (a_run a1 os) as [[a2 rs']|] eqn:E2; [|done]. cbn in Hs. simplify_eq.
  eapply IH; [|exact E2]. by eapply step_inv.
Qed.

Lemma empty_inv : a_inv a_empty.
Proof. constructor; [|constructor]. intros e [He|He]; by apply elem_of_nil in He. Qed.

(** ** Refinement *)

Section Refinement.
Context {D : Type} `{L : dlist_laws D node}.
Implicit Types (s : prx_scheduler D) (a : asched).

Abbreviation none := (fun _ : Z => False).

Definition f_of a : lists := fun t =>
  match t with now => a_now a | later => a_later a | free_list => [] end.

Record refines s a : Prop := {
  r_rep : rep (fun t => t <> free_list) (sc_links s) none (f_of a);
  r_stored e : a_listed a e -> is_Some (a_tasks a !! e);
  r_tasks : sc_tasks s = a_tasks a;
  r_run : sc_should_run s = a_should_run a;
  r_wakeup : sc_wakeup s = a_wakeup a;
  r_refs : sc_refs s = a_refs a;
}.

Lemma r_list s a t : refines s a -> t <> free_list -> dl (sc_links s) t (f_of a t).
Proof. intros Hr Ht. by apply (st_lists _ _ _ _ (r_rep _ _ Hr)). Qed.

Lemma f_of_listed a t e : e ∈ f_of a t -> a_listed a e.
Proof. unfold a_listed. destruct t; cbn; [by left|by right|by intros ?%elem_of_nil]. Qed.

Lemma sched_list_size s a t : refines s a -> (length (f_of a t) <= size (a_tasks a))%nat.
Proof.
  intros Hr. rewrite <- size_dom, <- (size_list_to_set (C := gset Z)).
  - apply subseteq_size. intros b Hb. apply elem_of_list_to_set in Hb. apply elem_of_dom.
    by eapply (r_stored _ _ Hr), f_of_listed.
  - by eapply rep_nodup, (r_rep _ _ Hr).
Qed.

Lemma queue_refines_step s a e ticks name task context delay : refines s a -> task <> 0 ->
  a_tasks a !! e = None -> exists s',
    prx_scheduler_queue s (Some e) ticks name task context delay = Ok (s', e) /\
    refines s' (a_queue a e ticks name task context delay).
Proof.
  intros Hr Ht He. unfold prx_scheduler_queue. rewrite bool_decide_eq_false_2 by done.
  assert (Hn : forall t, e ∉ f_of a t).
  { intros t Hin. apply f_of_listed, (r_stored _ _ Hr) in Hin as [? ?]. congruence. }
  unfold a_queue. cbn [te_deadline]. set (te := mk_entry name ticks (ticks + delay) task context).
  assert (Hst : forall c, c = e \/ a_listed a c -> is_Some (<[e := te]> (a_tasks a) !! c)).
  { intros c Hc. destruct (decide (c = e)) as [->|Hce]; [by rewrite lookup_insert_eq|].
    rewrite lookup_insert_ne by done. apply (r_stored _ _ Hr). by destruct Hc. }
  pose proof Hr as [Hrep Hs Hm Hrun Hw Href]. case_bool_decide as Hd.
  - rewrite decide_True by done. cbn [mbind res_bind]. eexists. split; [done|].
    constructor; cbn; [| |by rewrite Hm|done..].
    + pose proof (insert_before _ _ _ _ now (a_now a) [] e Hrep ltac:(done) ltac:(by rewrite app_nil_r) Hn) as Hi.
      eapply rep_ext; [|exact Hi]. by intros [].
    + intros c [Hc|Hc]; apply Hst; cbn in Hc; [|by right; right].
      apply elem_of_app in Hc as [Hc|Hc]; [by right; left|]. left. by apply list_elem_of_singleton in Hc.
  - rewrite decide_False by done. rewrite (ring_first _ _ _ (r_list _ _ later Hr ltac:(done))), Hm.
    destruct (insert_loop_spec (sc_links s) (<[e := te]> (a_tasks a)) e (ticks + delay) (a_later a)
      (size (a_tasks a)) []) as (l1 & l2 & E & Ei & El).
    { apply (r_list _ _ later Hr). done. } { apply (sched_list_size s a later Hr). }
    { intros c Hc. apply Hst. by right; right. }
    cbn [f_of]. rewrite El. cbn [mbind res_bind]. eexists. split; [done|].
    rewrite Ei. constructor; cbn; [| |done..].
    + pose proof (insert_before _ _ _ _ later l1 l2 e Hrep ltac:(done) E Hn) as Hi.
      eapply rep_ext; [|exact Hi]. by intros [].
    + intros c [Hc|Hc]; apply Hst; cbn in Hc; [by right; left|].
      apply elem_of_app in Hc as [Hc|Hc]; [|apply elem_of_cons in Hc as [->|Hc]; [by left|]];
        right; right; rewrite E; set_solver.
Qed.

Lemma remove_by_id_refines s a t id : refines s a -> t <> free_list ->
  prx_scheduler_remove_by_id s (head_of t) id =
  if decide (id ∈ f_of a t)
  then Ok (set_links s (DList_RemoveEntryList (sc_links s) (link_of id)), Some id) else Ok (s, None).
Proof.
  intros Hr Ht. unfold prx_scheduler_remove_by_id. pose proof (r_list _ _ t Hr Ht) as Hl.
  rewrite (ring_first _ _ _ Hl), (remove_by_id_spec _ _ _ _ _ []); [|done|].
  - case_decide; [done|]. by destruct s.
  - rewrite (r_tasks _ _ Hr). by eapply sched_list_size.
Qed.

Lemma kill_refines s a id : refines s a -> exists s',
  if decide (a_listed a id)
  then prx_scheduler_kill s id = Ok (s', true) /\
       refines s' (mk_as (rm id (a_now a)) (rm id (a_later a)) (delete id (a_tasks a))
                     (a_should_run a) (a_wakeup a) (a_refs a))
  else prx_scheduler_kill s id = Ok (s', false) /\ refines s' a.
Proof.
  intros Hr. unfold prx_scheduler_kill. rewrite !(remove_by_id_refines s a) by done. cbn [f_of].
  set (d := DList_RemoveEntryList (sc_links s) (link_of id)).
  assert (Hk : a_listed a id ->
    refines (set_tasks (set_links s d) (delete id (sc_tasks s)))
      (mk_as (rm id (a_now a)) (rm id (a_later a)) (delete id (a_tasks a))
         (a_should_run a) (a_wakeup a) (a_refs a))).
  { intros Hl. pose proof Hr as [Hrep Hs Hm Hrun Hw Href]. constructor; cbn; [| |by rewrite Hm|done..].
    - assert (Ht : exists t, id ∈ f_of a t) by (destruct Hl; [by exists now|by exists later]).
      destruct Ht as [t Ht]. eapply rep_ext; [|by eapply removed_none]. by intros [].
    - unfold a_listed. cbn. intros c. rewrite !elem_rm. intros Hc.
      rewrite lookup_delete_ne by naive_solver. apply Hs. unfold a_listed. naive_solver. }
  destruct (decide (a_listed a id)) as [Hl|Hl]; unfold a_listed in *.
  - eexists. split; [|by apply Hk]. destruct (decide (id ∈ a_now a)); [done|]. cbn [mbind res_bind].
    rewrite (remove_by_id_refines s a) by done. cbn [f_of]. by rewrite decide_True by tauto.
  - exists s. rewrite !decide_False by tauto. cbn [mbind res_bind]. rewrite (remove_by_id_refines s a) by done.
    cbn [f_of]. by rewrite decide_False by tauto.
Qed.

(** One of the two calls of [prx_scheduler_remove_by_task_type] in a clear. *)
Lemma remove_by_type_step s f t task context : rep (fun _ => True) (sc_links s) none f -> t <> free_list ->
  (forall c, c ∈ f t -> is_Some (sc_tasks s !! c)) -> exists d,
    prx_scheduler_remove_by_task_type s (head_of t) task context (head_of free_list) = Ok (set_links s d) /\
    rep (fun _ => True) d none (moved (sc_tasks s) task context f t [] (f t)).
Proof.
  intros Hr Ht Hs. unfold prx_scheduler_remove_by_task_type.
  rewrite (ring_first _ _ _ (st_lists _ _ _ _ Hr t I)).
  destruct (remove_by_task_type_spec (sc_tasks s) task context t (f t) Ht (size (sc_tasks s)) _ _ f [] Hr)
    as (d & E & Hd); [done|done|done| |done|].
  - rewrite <- size_dom, <- (size_list_to_set (C := gset Z)) by by eapply rep_nodup.
    apply subseteq_size. intros b Hb. apply elem_of_list_to_set in Hb. apply elem_of_dom. eauto.
  - exists d. by rewrite E.
Qed.

Lemma clear_refines s a task context : refines s a -> exists s',
  prx_scheduler_clear s task context = Ok s' /\ refines s' (a_clear a task context).
Proof.
  intros Hr. pose proof Hr as [Hrep Hs Hm Hrun Hw Href]. unfold prx_scheduler_clear.
  set (s0 := set_links s _).
  assert (H0 : rep (fun _ => True) (sc_links s0) none (f_of a)).
  { eapply rep_heads, init_empty; [|exact Hrep|done]. intros t. destruct (decide (t = free_list)); tauto. }
  destruct (remove_by_type_step s0 _ now task context H0 ltac:(done)) as (d1 & E1 & H1).
  { intros c Hc. cbn. rewrite Hm. apply Hs. by left. }
  cbn [f_of sc_tasks s0 set_links] in H1. rewrite Hm in H1.
  set (f1 := moved _ _ _ _ now _ _) in H1. rewrite E1. cbn [mbind res_bind].
  destruct (remove_by_type_step (set_links s0 d1) f1 later task context H1 ltac:(done)) as (d2 & E2 & H2).
  { intros c Hc. cbn. rewrite Hm. apply Hs. by right. }
  cbn [sc_tasks s0 set_links] in H2. rewrite Hm in H2. change (f1 later) with (a_later a) in H2.
  set (f2 := moved _ _ _ _ later _ _) in H2. rewrite E2. cbn [mbind res_bind].
  set (out := take_out (a_tasks a) task context (a_now a) ++ take_out (a_tasks a) task context (a_later a)).
  assert (Ef : f2 free_list = out) by done.
  destruct (clear_loop_spec out (size (a_tasks a)) (set_links (set_links s0 d1) d2) f2 H2 Ef) as (d3 & E3 & H3).
  { rewrite <- size_dom, <- (size_list_to_set (C := gset Z)) by (rewrite <- Ef; by eapply rep_nodup).
    apply subseteq_size. intros b Hb. apply elem_of_list_to_set in Hb. apply elem_of_dom, Hs.
    unfold out in Hb. rewrite elem_of_app, !elem_take_out in Hb. unfold a_listed. naive_solver. }
  cbn [sc_tasks s0 set_links] in E3 |- *. rewrite Hm in E3 |- *. eexists. split; [exact E3|].
  unfold a_clear. constructor; cbn; try done.
  - eapply rep_ext; [|exact H3]. by intros [].
  - unfold a_listed. cbn. intros c. rewrite !elem_keep. intros Hc. rewrite drop_tasks_other.
    + apply Hs. unfold a_listed. naive_solver.
    + rewrite elem_of_app, !elem_take_out. destruct Hc as [[Hc _]|[Hc _]]; rewrite Hc; naive_solver.
Qed.

Lemma sched_release_refines s a context : refines s a -> exists s',
  prx_scheduler_release s context = Ok s' /\ refines s' (a_release a context).
Proof.
  intros Hr. unfold prx_scheduler_release, a_release.
  set (a1 := if decide (context = 0) then a else a_clear a 0 context).
  assert (H1 : exists s1, (if bool_decide (context = 0) then Ok s else prx_scheduler_clear s 0 context) = Ok s1 /\
                          refines s1 a1).
  { unfold a1. case_bool_decide; [rewrite decide_True by done; eauto|].
    rewrite decide_False by done. by apply clear_refines. }
  destruct H1 as (s1 & -> & [Hrep Hs Hm Hrun Hw Href]). cbn. rewrite Href. case_bool_decide as Hz.
  - rewrite decide_True by done. eexists. split; [done|]. by constructor.
  - rewrite decide_False by done. eexists. split; [done|]. constructor; cbn; by rewrite ?Href.
Qed.

(** The first entry of a list is taken. *)
Lemma remove_first d a t c l : rep (fun t => t <> free_list) d none (f_of a) -> f_of a t = c :: l ->
  rep (fun t => t <> free_list) (DList_RemoveEntryList d (link_of c)) none (set_list (f_of a) t l).
Proof.
  intros Hr E. eapply rep_ext; [|eapply (removed_none _ _ _ t); [exact Hr|rewrite E; apply list_elem_of_here]].
  apply (detach_middle _ t c [] l); [apply (st_once _ _ _ _ Hr)|by eapply rep_nodup|done].
Qed.

Lemma next_refines s a t : refines s a -> exists s',
  let '(a', next, idle) := a_next a t in
  prx_scheduler_get_next s t = Ok (s', next, idle) /\ refines s' a'.
Proof.
  intros Hr. pose proof Hr as [Hrep Hs Hm Hrun Hw Href]. unfold a_next, prx_scheduler_get_next.
  pose proof (r_list _ _ now Hr ltac:(done)) as Hln. pose proof (r_list _ _ later Hr ltac:(done)) as Hll.
  assert (Hn : forall idle, exists s', let '(a', next, i) :=
      match a_now a with
      | c :: l => (mk_as l (a_later a) (a_tasks a) (a_should_run a) (a_wakeup a) (a_refs a), Some c, 0)
      | [] => (a, None, idle)
      end in
    (if negb (DList_IsListEmpty (sc_links s) (head_of now)) then
      let '(n, d) := DList_RemoveHeadList (sc_links s) (head_of now) in
      candidate ← chk (entry_of n); Ok (set_links s d, Some candidate, 0)
     else Ok (s, None, idle)) = Ok (s', next, i) /\ refines s' a').
  { intros idle. rewrite (is_empty_list _ _ _ Hln). cbn [f_of] in Hln |- *. destruct (a_now a) as [|c l] eqn:E.
    - exists s. done.
    - rewrite bool_decide_eq_false_2 by done. cbn [negb]. rewrite (remove_head_list _ _ _ _ Hln). cbn.
      eexists. split; [done|]. constructor; cbn; try done.
      + eapply rep_ext; [|by eapply (remove_first _ _ now)]. by intros [].
      + intros e. unfold a_listed. cbn. intros He. apply Hs. unfold a_listed. rewrite E. set_solver. }
  rewrite (is_empty_list _ _ _ Hll). destruct (a_later a) as [|c l] eqn:E; cbn [f_of] in Hll |- *; rewrite E in *.
  - apply Hn.
  - rewrite bool_decide_eq_false_2 by done. cbn [negb]. rewrite (ring_first _ _ _ Hll).
    cbn [head fmap option_fmap option_map default from_option id entry_of chk mbind res_bind].
    destruct (Hs c) as [te Hte]; [right; rewrite E; apply list_elem_of_here|].
    unfold deadline_of. rewrite Hm, Hte. cbn [chk mbind res_bind from_option]. case_bool_decide as Hd.
    + rewrite decide_True by done. eexists. split; [done|]. constructor; cbn; try done.
      * eapply rep_ext; [|by eapply (remove_first _ _ later)]. by intros [].
      * intros e. unfold a_listed. cbn. intros He. apply Hs. unfold a_listed. rewrite E. set_solver.
    + rewrite decide_False by done. apply Hn.
Qed.

Lemma sched_step_refines s a o a' r : refines s a -> a_step a o = Some (a', r) ->
  exists s', s_step s o = Ok (s', r) /\ refines s' a'.
Proof.
  intros Hr Hs. destruct o as [entry ticks name task context delay|id|task context|context|t|e]; cbn in Hs |- *.
  - destruct (decide (task = 0)) as [->|Ht]; [|destruct entry as [e|]; [case_decide as He; [|done]|]]; simplify_eq.
    + exists s. done.
    + destruct (queue_refines_step s a e ticks name task context delay Hr Ht He) as (s' & -> & Hr'). eauto.
    + exists s. unfold prx_scheduler_queue. by rewrite bool_decide_eq_false_2.
  - destruct (kill_refines s a id Hr) as (s' & Hk). case_decide; destruct Hk as [E Hr']; simplify_eq;
      rewrite E; cbn; eauto.
  - simplify_eq. destruct (clear_refines s a task context Hr) as (s' & -> & Hr'). cbn. eauto.
  - simplify_eq. destruct (sched_release_refines s a context Hr) as (s' & -> & Hr'). cbn. eauto.
  - destruct (next_refines s a t Hr) as (s' & Hn). unfold prx_scheduler_work.
    assert (Em : a_tasks (a_next a t).1.1 = a_tasks a /\ a_should_run (a_next a t).1.1 = a_should_run a).
    { unfold a_next. destruct (a_later a), (a_now a); try case_decide; done. }
    destruct (a_next a t) as [[a1 next] idle] eqn:En. cbn in Em. destruct Hn as [-> Hr']. cbn.
    destruct next as [e|].
    + destruct (a_tasks a !! e) as [te|] eqn:Ee; [|done]. cbn in Hs. simplify_eq.
      rewrite (r_tasks _ _ Hr'). destruct Em as [-> _]. rewrite Ee. cbn. eauto.
    + rewrite (r_run _ _ Hr'). destruct Em as [_ ->].
      destruct (negb (a_should_run a) && bool_decide (idle = -1)); simplify_eq; cbn; eauto.
  - case_decide as Hl; [done|]. simplify_eq. eexists. split; [done|].
    destruct Hr as [Hrep Hst Hm Hrun Hw Href]. constructor; cbn; try done; [|by rewrite Hm].
    intros c Hc. rewrite lookup_delete_ne; [by apply Hst|]. intros ->. by apply Hl.
Qed.

Lemma sched_run_refines os : forall s a a' rs, refines s a -> a_run a os = Some (a', rs) ->
  exists s', s_run s os = Ok (s', rs) /\ refines s' a'.
Proof.
  induction os as [|o os IH]; intros s a a' rs Hr Hs; cbn in Hs |- *; [simplify_eq; eauto|].
  destruct (a_step a o) as [[a1 r]|] eqn:E1; [|done]. cbn in Hs.
  destruct (a_run a1 os) as [[a2 rs']|] eqn:E2; [|done]. cbn in Hs. simplify_eq.
  destruct (sched_step_refines _ _ _ _ _ Hr E1) as (s1 & Q1 & R1). rewrite Q1. cbn.
  destruct (IH _ _ _ _ R1 E2) as (s2 & Q2 & R2). rewrite Q2. cbn. eauto.
Qed.

Lemma sched_create_refines alloc thread pool lock signal d s :
  prx_scheduler_create None alloc thread pool lock signal d = Ok s -> refines s a_empty.
Proof.
  unfold prx_scheduler_create. destruct alloc; [|done]. cbn [negb].
  destruct pool, lock, signal; cbn; try done. destruct thread; [|done]. cbn. intros [= <-].
  constructor; cbn; try done.
  - assert (H0 : rep (fun _ => False) d none (f_of a_empty))
      by (eapply rep_ext, rep_none; [by intros []|by intros ? []]).
    apply (init_empty _ _ _ _ now) in H0; [|done]. apply (init_empty _ _ _ _ later) in H0; [|done].
    eapply rep_heads; [|exact H0]. intros []; naive_solver.
  - intros e [He|He]; by apply elem_of_nil in He.
Qed.

Lemma reached alloc thread pool lock signal d s os a rs :
  prx_scheduler_create None alloc thread pool lock signal d = Ok s -> a_run a_empty os = Some (a, rs) ->
  a_inv a /\ exists s', s_run s os = Ok (s', rs) /\ refines s' a.
Proof.
  intros Hc Hs. apply sched_create_refines in Hc. split; [eapply run_inv; [apply empty_inv|exact Hs]|].
  by eapply sched_run_refines.
Qed.

(** C16: From a new scheduler, every sequence of queueing, killing, clearing, releasing
    and of iterations of the worker runs without undefined behaviour, returns what the
    specification with two sequences of entries returns, and keeps the delayed entries
    sorted by deadline. *)
Theorem sched_refines alloc thread pool lock signal d s os a rs :
  prx_scheduler_create None alloc thread pool lock signal d = Ok s -> a_run a_empty os = Some (a, rs) ->
  exists s', s_run s os = Ok (s', rs) /\ refines s' a /\ sorted (sc_tasks s') (a_later a).
Proof.
  intros Hc Hs. destruct (reached _ _ _ _ _ _ _ _ _ _ Hc Hs) as (Hi & s' & E & Hr). exists s'.
  split; [done|]. split; [done|]. rewrite (r_tasks _ _ Hr). apply Hi.
Qed.

(** Every deadline is less than 2^31 ticks away. *)
Definition near a (t : Z) : Prop := forall c, c ∈ a_later a -> in_i32 (deadline_of (a_tasks a) c - t).

(** The entries whose deadline has passed. *)
Definition due a (t : Z) : list Z := filter (fun c => deadline_of (a_tasks a) c <= t) (a_later a).

Lemma sorted_head m c l t : sorted m (c :: l) -> t < deadline_of m c ->
  filter (fun c => deadline_of m c <= t) (c :: l) = [].
Proof.
  intros Hs Hc. apply StronglySorted_inv in Hs as [_ Hf]. rewrite filter_cons_False by lia.
  destruct (filter _ l) as [|x k] eqn:E; [done|]. exfalso.
  assert (Hx : x ∈ filter (fun c => deadline_of m c <= t) l) by (rewrite E; apply list_elem_of_here).
  apply list_elem_of_filter in Hx as [Hx Hl]. rewrite Forall_forall in Hf. specialize (Hf x Hl). lia.
Qed.

(** The worker takes the delayed entry with the least deadline if it is due, else
    the oldest entry queued for now; when there is neither it sleeps until the least
    deadline, or for ever when nothing is queued. *)
Lemma sched_next_due s a t : refines s a -> a_inv a -> near a t -> exists s' next idle,
  prx_scheduler_get_next s t = Ok (s', next, idle) /\
  match next with
  | Some e =>
      idle = 0 /\
      ((head (a_later a) = Some e /\ deadline_of (a_tasks a) e <= t /\
        forall c, c ∈ a_later a -> deadline_of (a_tasks a) e <= deadline_of (a_tasks a) c) \/
       (head (a_now a) = Some e /\ forall c, c ∈ a_later a -> t < deadline_of (a_tasks a) c))
  | None =>
      a_now a = [] /\
      ((a_later a = [] /\ idle = -1) \/
       (exists c, c ∈ a_later a /\ 0 < idle /\ idle = deadline_of (a_tasks a) c - t /\
          forall c', c' ∈ a_later a -> deadline_of (a_tasks a) c <= deadline_of (a_tasks a) c'))
  end.
Proof.
  intros Hr [_ Ho] Hn. destruct (next_refines s a t Hr) as (s' & H1).
  destruct (a_next a t) as [[a' next] idle] eqn:E. destruct H1 as [H1 _]. exists s', next, idle.
  split; [exact H1|]. clear H1. unfold a_next, near in *.
  destruct (a_later a) as [|c l] eqn:El.
  - destruct (a_now a); simplify_eq; [by split; [|left]|]. split; [done|]. right. split; [done|].
    intros x Hx. by apply elem_of_nil in Hx.
  - apply StronglySorted_inv in Ho as Hs. destruct Hs as [_ Hf]. rewrite Forall_forall in Hf.
    assert (Hleast : forall x, x ∈ c :: l -> deadline_of (a_tasks a) c <= deadline_of (a_tasks a) x).
    { intros x Hx. apply elem_of_cons in Hx as [->|Hx]; [lia|by apply Hf]. }
    rewrite i32_id in E by (apply Hn, list_elem_of_here). case_decide as Hd.
    + simplify_eq. split; [done|]. left. split; [done|]. split; [lia|done].
    + destruct (a_now a); simplify_eq; (split; [done|]); right.
      * exists c. split; [apply list_elem_of_here|]. split; [lia|done].
      * split; [done|]. intros x Hx. specialize (Hleast x Hx). lia.
Qed.

(** A task queued with a delay of 2^31 ticks or more on an idle scheduler is run at
    once: the time to its deadline is negative as a 32 bit integer. *)
Lemma sched_long_delay s a e ticks name task context delay :
  refines s a -> a_later a = [] -> a_tasks a !! e = None -> task <> 0 -> 2 ^ 31 <= delay < 2 ^ 32 ->
  exists s1 s2,
    prx_scheduler_queue s (Some e) ticks name task context delay = Ok (s1, e) /\
    prx_scheduler_work s1 ticks = Ok (s2, Some e, WRun task context).
Proof.
  intros Hr El He Ht Hd. destruct (queue_refines_step s a e ticks name task context delay Hr Ht He)
    as (s1 & E1 & Hr1). set (a1 := a_queue a e ticks name task context delay) in *.
  assert (Hstep : exists a2, a_step a1 (SWork ticks) = Some (a2, OWork (Some e) (WRun task context))).
  { unfold a1, a_queue. rewrite decide_False by lia. rewrite El. cbn. unfold a_next, deadline_of. cbn.
    rewrite lookup_insert_eq. cbn.
    assert (Hneg : i32 (ticks + delay - ticks) = delay - 2 ^ 32).
    { unfold i32, sgn. change (2 ^ (32 - 1)) with (2 ^ 31).
      replace (ticks + delay - ticks + 2 ^ 31) with (delay - 2 ^ 31 + 1 * 2 ^ 32) by lia.
      rewrite Z.mod_add by lia. rewrite Z.mod_small by lia. lia. }
    rewrite Hneg, decide_True by lia. rewrite lookup_insert_eq. cbn. eauto. }
  destruct Hstep as (a2 & Hs). destruct (sched_step_refines _ _ _ _ _ Hr1 Hs) as (s2 & E2 & _).
  exists s1, s2. split; [done|]. cbn in E2.
  destruct (prx_scheduler_work s1 ticks) as [[[s3 n] w]| |]; cbn in E2; by simplify_eq.
Qed.

(** *** The worker on its own *)

(** At most [n] iterations at time [t], with the tasks that are called and how the loop
    stops to sleep or exit. *)
Fixpoint worker (n : nat) s (t : Z) : res (prx_scheduler D * list (Z * Z) * option work) :=
  match n with
  | O => Ok (s, [], None)
  | S n =>
      '(s, next, w) ← prx_scheduler_work s t;
      match next, w with
      | Some e, WRun task context =>
          '(s, rs, o) ← worker n (prx_scheduler_work_done s e) t; Ok (s, (task, context) :: rs, o)
      | _, w => Ok (s, [], Some w)
      end
  end.

Definition task_of (m : gmap Z prx_task_entry) (e : Z) : Z * Z :=
  from_option (fun te => (te_task te, te_context te)) (0, 0) (m !! e).

(** What is left to do, by the entries [m] as they were at the start. *)
Definition due_in (m : gmap Z prx_task_entry) (t : Z) (l : list Z) : list Z :=
  filter (fun c => deadline_of m c <= t) l.
Definition todo (m : gmap Z prx_task_entry) (t : Z) a : list Z := due_in m t (a_later a) ++ a_now a.

(** How the worker stops. *)
Definition stop (m : gmap Z prx_task_entry) (t : Z) a : work :=
  match filter (fun c => t < deadline_of m c) (a_later a) with
  | c :: _ => WIdle (deadline_of m c - t)
  | [] => if a_should_run a then WIdle (-1) else WExit
  end.

Lemma not_due m t l : sorted m l -> due_in m t l = [] -> filter (fun c => t < deadline_of m c) l = l.
Proof.
  intros _. unfold due_in. induction l as [|c l IH]; [done|]. rewrite filter_cons. case_decide; [done|].
  intros Hl. rewrite filter_cons_True by lia. by rewrite IH.
Qed.

Lemma head_of_sorted m t c l : sorted m (c :: l) -> t < deadline_of m c -> due_in m t (c :: l) = [].
Proof. apply sorted_head. Qed.

(** The entry that is taken, and what is left. *)
Lemma next_todo m t s a e l : refines s a -> a_inv a -> near a t ->
  (forall c, a_listed a c -> a_tasks a !! c = m !! c) -> todo m t a = e :: l -> exists now' later',
    a_next a t = (mk_as now' later' (a_tasks a) (a_should_run a) (a_wakeup a) (a_refs a), Some e, 0) /\
    due_in m t later' ++ now' = l /\
    filter (fun c => t < deadline_of m c) later' = filter (fun c => t < deadline_of m c) (a_later a) /\
    a_listed a e /\ (forall c, c ∈ now' \/ c ∈ later' -> a_listed a c /\ c <> e) /\
    (forall c, c ∈ later' -> c ∈ a_later a).
Proof.
  intros Hr Hi Hn Hm Hl.
  assert (Hdead : forall c, a_listed a c -> deadline_of (a_tasks a) c = deadline_of m c)
    by (intros c Hc; apply deadline_ext; by rewrite Hm).
  assert (Hs : sorted m (a_later a))
    by (eapply sorted_ext; [|apply Hi]; intros c Hc; symmetry; apply Hm; by right).
  unfold todo in Hl. unfold a_next. unfold a_listed in *.
  pose proof (rep_nodup _ _ _ _ now (r_rep _ _ Hr)) as Nn. pose proof (rep_nodup _ _ _ _ later (r_rep _ _ Hr)) as Nl.
  assert (No : forall c, c ∈ a_now a -> c ∈ a_later a -> False)
    by (intros c H1 H2; discriminate (st_once _ _ _ _ (r_rep _ _ Hr) now later c H1 H2)).
  cbn [f_of] in Nn, Nl. destruct (a_later a) as [|c k] eqn:El.
  - cbn in Hl. rewrite Hl in *. exists l, []. apply NoDup_cons in Nn as [Nn _]. set_solver.
  - assert (Hc : in_i32 (deadline_of (a_tasks a) c - t)) by (apply Hn; rewrite El; apply list_elem_of_here).
    rewrite i32_id by done. rewrite Hdead in * by (right; apply list_elem_of_here).
    apply NoDup_cons in Nl as [Nl _]. destruct (decide (deadline_of m c - t <= 0)) as [Hd|Hd].
    + unfold due_in in Hl. rewrite filter_cons_True in Hl by lia. cbn in Hl. injection Hl as -> Hl.
      exists (a_now a), k. rewrite filter_cons_False by lia. set_solver.
    + rewrite (head_of_sorted m t c k) in Hl by (done || lia). cbn in Hl. rewrite Hl in *.
      apply NoDup_cons in Nn as [Nn _]. exists l, (c :: k).
      rewrite (head_of_sorted m t c k) by (done || lia). set_solver.
Qed.

(** One iteration that runs a task leaves the rest to do. *)
Lemma work_iteration m t s a e l : refines s a -> a_inv a -> near a t ->
  (forall c, a_listed a c -> a_tasks a !! c = m !! c) -> todo m t a = e :: l -> exists s1 a1,
    prx_scheduler_work s t = Ok (s1, Some e, WRun (task_of m e).1 (task_of m e).2) /\
    refines (prx_scheduler_work_done s1 e) a1 /\ a_inv a1 /\ near a1 t /\
    (forall c, a_listed a1 c -> a_tasks a1 !! c = m !! c) /\ todo m t a1 = l /\ stop m t a1 = stop m t a.
Proof.
  intros Hr Hi Hn Hm Hl.
  destruct (next_todo m t s a e l Hr Hi Hn Hm Hl)
    as (now' & later' & En & Hl' & Hf & Hle & Hin & Hsub).
  destruct (inv_stored _ Hi e Hle) as [te Hte].
  set (a0 := mk_as now' later' (a_tasks a) (a_should_run a) (a_wakeup a) (a_refs a)) in *.
  assert (Hstep : a_step a (SWork t) = Some (a0, OWork (Some e) (WRun (te_task te) (te_context te))))
    by (cbn; by rewrite En, Hte).
  destruct (sched_step_refines _ _ _ _ _ Hr Hstep) as (s1 & E1 & Hr1).
  assert (Hd : a_step a0 (SDone e) = Some (mk_as now' later' (delete e (a_tasks a)) (a_should_run a)
                                             (a_wakeup a) (a_refs a), OUnit)).
  { cbn. rewrite decide_False; [done|]. unfold a_listed. cbn. intros Hx. apply Hin in Hx as [_ Hx]. done. }
  destruct (sched_step_refines _ _ _ _ _ Hr1 Hd) as (s2 & E2 & Hr2). cbn in E2. injection E2 as <-.
  exists s1. eexists. split; [|split; [exact Hr2|split; [|split; [|split; [|split]]]]].
  - cbn in E1. unfold task_of. rewrite <- Hm, Hte by done. cbn.
    destruct (prx_scheduler_work s t) as [[[s3 n] w]| |]; cbn in E1; by simplify_eq.
  - eapply step_inv; [|exact Hd]. by eapply step_inv.
  - intros c Hc. cbn in Hc |- *. rewrite (deadline_ext (a_tasks a)); [by apply Hn, Hsub|].
    rewrite lookup_delete_ne; [done|]. intros ->. by destruct (Hin c (or_intror Hc)).
  - intros c Hc. unfold a_listed in Hc. cbn in Hc |- *. apply Hin in Hc as [Hc Hce].
    rewrite lookup_delete_ne by done. by apply Hm.
  - exact Hl'.
  - unfold stop. cbn. by rewrite Hf.
Qed.


(** *** Cleared tasks *)

(** Whether a clear with [task] and [context] covers the task [t] with context [c]. *)
Definition covers (task context : Z) (t c : Z) : bool :=
  (bool_decide (context = 0) || bool_decide (c = context)) && (bool_decide (task = 0) || bool_decide (t = task)).

Definition no_queue (task context : Z) (o : sop) : Prop :=
  match o with SQueue _ _ _ t c _ => covers task context t c = false | _ => True end.
Definition not_run (task context : Z) (r : sout) : Prop :=
  match r with OWork _ (WRun t c) => covers task context t c = false | _ => True end.

Definition gone (task context : Z) a : Prop := forall e, a_listed a e -> selected (a_tasks a) task context e = false.

Lemma selected_ext m m' task context c : m' !! c = m !! c -> selected m' task context c = selected m task context c.
Proof. unfold selected. by intros ->. Qed.

Lemma clear_gone a task context : gone task context (a_clear a task context).
Proof.
  intros e. unfold a_listed, a_clear. cbn. rewrite !elem_keep. intros He.
  assert (Hs : selected (a_tasks a) task context e = false) by naive_solver.
  rewrite <- Hs. apply selected_ext, drop_tasks_other. rewrite elem_of_app, !elem_take_out, Hs. naive_solver.
Qed.

(** A step that keeps entries, or removes some, keeps them gone. *)
Lemma gone_sub task context a a' : gone task context a ->
  (forall e, a_listed a' e -> a_listed a e /\ a_tasks a' !! e = a_tasks a !! e) -> gone task context a'.
Proof.
  intros Hg Hs e He. destruct (Hs e He) as [He' Ht]. rewrite (selected_ext _ _ _ _ _ Ht). by apply Hg.
Qed.

Lemma clear_gone_other a task context t c : gone task context a -> gone task context (a_clear a t c).
Proof.
  intros Hg. eapply gone_sub; [exact Hg|]. intros e. unfold a_listed, a_clear. cbn. rewrite !elem_keep.
  intros He. split; [naive_solver|]. apply drop_tasks_other. rewrite elem_of_app, !elem_take_out.
  destruct He as [[Hs _]|[Hs _]]; rewrite Hs; naive_solver.
Qed.

Lemma queue_gone task context a e ticks name t c delay : gone task context a -> a_inv a ->
  a_tasks a !! e = None -> covers task context t c = false ->
  gone task context (a_queue a e ticks name t c delay).
Proof.
  intros Hg Hi He Hc x Hx.
  assert (Hl : x = e \/ a_listed a x).
  { unfold a_queue, a_listed in *. case_decide; cbn in Hx.
    - rewrite elem_of_app, list_elem_of_singleton in Hx. tauto.
    - rewrite insert_sorted_elem in Hx. tauto. }
  assert (Ht : a_tasks (a_queue a e ticks name t c delay) =
               <[e := mk_entry name ticks (ticks + delay) t c]> (a_tasks a)) by (unfold a_queue; by case_decide).
  unfold selected. rewrite Ht. destruct (decide (x = e)) as [->|Hxe]; [by rewrite lookup_insert_eq|].
  rewrite lookup_insert_ne by done. apply Hg. tauto.
Qed.

Lemma next_gone task context a t : gone task context a -> a_inv a ->
  gone task context (a_next a t).1.1 /\
  match (a_next a t).1.2 with Some e => a_listed a e | None => True end.
Proof.
  intros Hg Hi. unfold a_next. unfold a_listed at 1.
  destruct (a_later a) as [|c l] eqn:El, (a_now a) as [|b k] eqn:En; try case_decide; cbn;
    (split; [eapply gone_sub; [exact Hg|]; intros x; unfold a_listed; cbn; rewrite ?El, ?En, ?elem_of_cons;
             intros Hx; split; [tauto|done]|]);
    try done; rewrite ?elem_of_cons; tauto.
Qed.

Lemma step_gone task context a o a' r : gone task context a -> a_inv a -> no_queue task context o ->
  a_step a o = Some (a', r) -> gone task context a' /\ not_run task context r.
Proof.
  intros Hg Hi Hq Hs. destruct o as [entry ticks name t c delay|id|t c|c|t|e]; cbn in Hs.
  - case_decide; [by simplify_eq|]. destruct entry as [e|]; [|by simplify_eq]. case_decide; [|done].
    simplify_eq. split; [by apply queue_gone|done].
  - case_decide; simplify_eq; (split; [|done]); [|done]. eapply gone_sub; [exact Hg|]. intros e.
    unfold a_listed. cbn. rewrite !elem_rm. intros He. split; [naive_solver|]. apply lookup_delete_ne. naive_solver.
  - simplify_eq. split; [by apply clear_gone_other|done].
  - simplify_eq. split; [|done]. unfold a_release.
    assert (H1 : gone task context (if decide (c = 0) then a else a_clear a 0 c))
      by (case_decide; [done|by apply clear_gone_other]).
    revert H1. generalize (if decide (c = 0) then a else a_clear a 0 c). intros a1 H1.
    case_decide; (eapply gone_sub; [exact H1|]); unfold a_listed; by cbn.
  - pose proof (next_gone task context a t Hg Hi) as [H1 H2]. destruct (a_next a t) as [[a1 next] idle].
    cbn in H1, H2. destruct next as [z|].
    + pose proof (Hg z H2) as Hz. unfold selected in Hz. destruct (a_tasks a !! z) as [te|] eqn:E; [|done].
      cbn in Hs, Hz. by simplify_eq.
    + destruct (negb (a_should_run a) && bool_decide (idle = -1)); by simplify_eq.
  - case_decide as Hl; [done|]. simplify_eq. split; [|done]. eapply gone_sub; [exact Hg|]. intros x Hx.
    split; [exact Hx|]. cbn. apply lookup_delete_ne. intros ->. by apply Hl.
Qed.

Lemma run_gone task context os : forall a a' rs, gone task context a -> a_inv a ->
  Forall (no_queue task context) os -> a_run a os = Some (a', rs) -> Forall (not_run task context) rs.
Proof.
  induction os as [|o os IH]; intros a a' rs Hg Hi Hq Hs; cbn in Hs; [by simplify_eq|].
  destruct (a_step a o) as [[a1 r]|] eqn:E1; [|done]. cbn in Hs.
  destruct (a_run a1 os) as [[a2 rs']|] eqn:E2; [|done]. cbn in Hs. simplify_eq.
  apply Forall_cons in Hq as [Hq Hqs]. destruct (step_gone _ _ _ _ _ _ Hg Hi Hq E1) as [Hg1 Hr].
  constructor; [done|]. eapply IH; [exact Hg1|by eapply step_inv|done|exact E2].
Qed.

(** C18: After [prx_scheduler_clear] no task it covers is run any more, whatever follows,
    until such a task is queued again; a context that released the scheduler is not
    called back. *)
Theorem sched_cleared s a task context os a' rs : refines s a -> a_inv a ->
  a_run (a_clear a task context) os = Some (a', rs) -> Forall (no_queue task context) os ->
  exists s1 s2, prx_scheduler_clear s task context = Ok s1 /\ s_run s1 os = Ok (s2, rs) /\
    Forall (not_run task context) rs.
Proof.
  intros Hr Hi Hs Hq. destruct (clear_refines s a task context Hr) as (s1 & E1 & Hr1).
  destruct (sched_run_refines _ _ _ _ _ Hr1 Hs) as (s2 & E2 & _). exists s1, s2. split; [done|]. split; [done|].
  eapply run_gone; [apply clear_gone|by apply keep_inv|done|exact Hs].
Qed.
End Refinement.

(** ** Examples *)

Definition links0 : @links node := fun n => (n, n).
Definition ex_sched : prx_scheduler (@links node) :=
  match prx_scheduler_create None true true (Ok tt) (Ok tt) (Ok tt) links0 with
  | Ok s => s | _ => mk_sched links0 ∅ true false 1 end.

(** Three delayed tasks and two for now, one of which is killed. *)
Definition ex_ops : list sop :=
  [SQueue (Some 1) 100 0 11 7 50; SQueue (Some 2) 100 0 12 8 20; SQueue (Some 3) 100 0 13 7 50;
   SQueue (Some 4) 101 0 14 7 0; SQueue (Some 5) 102 0 15 8 0; SQueue (Some 6) 102 0 16 8 0; SKill 5; SKill 9].

Lemma ex_reached : exists s a, refines s a /\ a_inv a /\
  a_now a = [4; 6] /\ a_later a = [2; 1; 3] /\
  map (deadline_of (a_tasks a)) [2; 1; 3] = [120; 150; 150] /\
  map (task_of (a_tasks a)) [2; 4; 6] = [(12, 8); (14, 7); (16, 8)] /\
  (a_run (a_clear a 0 7) [SWork 200; SDone 2; SWork 200; SDone 6; SWork 200] ≫= (fun x => Some (snd x))) =
    Some [OWork (Some 2) (WRun 12 8); OUnit; OWork (Some 6) (WRun 16 8); OUnit; OWork None (WIdle (-1))] /\
  a_should_run a = true.
Proof.
  destruct (a_run a_empty ex_ops) as [[a rs]|] eqn:E; [|vm_compute in E; discriminate E].
  destruct (reached true true (Ok tt) (Ok tt) (Ok tt) links0 ex_sched ex_ops a rs eq_refl E) as (Hi & s & _ & Hr).
  assert (Hget : forall {B} (g : asched -> B) v, (g ∘ fst) <$> a_run a_empty ex_ops = Some v -> g a = v)
    by (intros B g v Hv; rewrite E in Hv; by injection Hv).
  exists s, a. split; [done|]. split; [done|].
  repeat split; match goal with |- ?l = ?v =>
    match eval pattern a in l with ?g _ => apply (Hget _ g v); vm_compute; reflexivity end end.
Qed.

Lemma sched_refines_witness : exists s' a rs, s_run ex_sched ex_ops = Ok (s', rs) /\ refines s' a /\
  sorted (sc_tasks s') (a_later a).
Proof.
  destruct (a_run a_empty ex_ops) as [[a rs]|] eqn:E; [|vm_compute in E; discriminate E].
  destruct (sched_refines true true (Ok tt) (Ok tt) (Ok tt) links0 ex_sched ex_ops a rs eq_refl E) as (s' & H1 & H2 & H3).
  exists s', a, rs. split; [exact H1|]. split; [exact H2|exact H3].
Defined.

Lemma ex_near a : a_later a = [2; 1; 3] -> map (deadline_of (a_tasks a)) [2; 1; 3] = [120; 150; 150] ->
  near a 130.
Proof.
  intros El Hd c. rewrite El. injection Hd as H1 H2 H3. rewrite !elem_of_cons, elem_of_nil.
  unfold in_i32. intros [->|[->|[->|[]]]]; lia.
Qed.



Lemma sched_cleared_witness : exists s s1 s2 : prx_scheduler (@links node),
  prx_scheduler_clear s 0 7 = Ok s1 /\
  s_run s1 [SWork 200; SDone 2; SWork 200; SDone 6; SWork 200] =
    Ok (s2, [OWork (Some 2) (WRun 12 8); OUnit; OWork (Some 6) (WRun 16 8); OUnit; OWork None (WIdle (-1))]).
Proof.
  destruct ex_reached as (s & a & Hr & Hi & _ & _ & _ & _ & Hs & _).
  destruct (a_run (a_clear a 0 7) _) as [[a' rs]|] eqn:E; [|discriminate Hs]. cbn in Hs. injection Hs as ->.
  destruct (sched_cleared s a 0 7 _ a' _ Hr Hi E) as (s1 & s2 & E1 & E2 & _); [by repeat constructor|].
  exists s, s1, s2. split; [exact E1|exact E2].
Defined.
End PrxSched.
