(* ===== verification/PrxSock.v ===== *)
(** * The sockets of the proxy server (src/prx_server.c)

    A server socket couples a socket of the platform layer with a stream of messages
    to a client.  Its functions run as callbacks of the platform layer, as handlers of
    the transport and as tasks of the scheduler; each of them is one atomic step here.

    What is outside of the file is called through [call]: a call has an answer, which
    the environment chooses knowing all calls made before, and is recorded in the
    trace.  Sockets and messages are objects in memory, named by their address; using
    one that was freed is [UB].  A list of messages linked through their [link] member
    is the list of their addresses. *)
From stdpp Require Import base option list numbers sets gmap.
From S2P Require Import Prelude PrxTypes UtilString UtilInt IoRef IoProto.
Import PrxTypes UtilString UtilInt IoRef IoProto.

Module PrxSock.

(** ** State *)

Inductive prx_server_socket_state :=
| st_created | st_opened | st_collect | st_closing | st_closed.

#[export] Instance state_eq_dec : EqDecision prx_server_socket_state.
Proof. solve_decision. Defined.

(** The four lists of a socket. *)
Inductive queue := q_read | q_write | q_send | q_recv.

#[export] Instance queue_eq_dec : EqDecision queue.
Proof. solve_decision. Defined.

(** A message pool (PrxBuffer, IoMsg): the socket it reports to, its size, the messages
    left and whether the socket was told that it ran low. *)
Record mpool := mk_mpool {
  mp_owner : Z;
  mp_size : Z;
  mp_free : Z;
  mp_empty : bool;
}.

Definition MIN_GC_TIMEOUT : Z := 30000.
Definition DEFAULT_GC_TIMEOUT : Z := 120000.
Definition RECV_POOL_MIN : Z := 4.
Definition RECV_POOL_MAX : Z := 131072.
Definition RECV_POOL_LWM : Z := 1.
Definition RECV_POOL_HWM : Z := 1.
Definition MAX_BUF_SIZE : Z := 65536.
Definition LINK_VERSION : Z := 7.
Definition prx_socket_flag_passive : Z := 1.
Definition prx_socket_flag_internal : Z := 2.
Definition prx_so_shutdown : Z := 3.
Definition prx_so_rcvbuf : Z := 13.
Definition prx_so_props_timeout : Z := 33.
Definition prx_shutdown_op_both : Z := 2.
Definition pal_cap_wsclient : Z := 8.

Record prx_server_socket := mk_socket {
  ss_sock : option Z;
  ss_props : prx_socket_properties bytes;
  ss_link_message : option Z;
  ss_state : prx_server_socket_state;
  ss_last_error : prx_error;
  ss_last_activity : Z;
  ss_time_opened : Z;
  ss_id : io_ref;
  ss_owner : io_ref;
  ss_stream_id : io_ref;
  ss_server_stream : bool;
  ss_stream : option Z;
  ss_polled : bool;
  ss_queue : queue -> list Z;
  ss_bytes_sent : Z;
  ss_bytes_recvd : Z;
  ss_message_pool : option Z;
  ss_buffer_size : Z;
  ss_pool_size : Z;
  ss_scheduler : bool;
}.

Definition set_sock (v : option Z) (s : prx_server_socket) : prx_server_socket := mk_socket v (ss_props
  s) (ss_link_message s) (ss_state s) (ss_last_error s) (ss_last_activity s) (ss_time_opened s) (ss_id s)
  (ss_owner s) (ss_stream_id s) (ss_server_stream s) (ss_stream s) (ss_polled s) (ss_queue s)
  (ss_bytes_sent s) (ss_bytes_recvd s) (ss_message_pool s) (ss_buffer_size s) (ss_pool_size s)
  (ss_scheduler s).
Definition set_props (v : prx_socket_properties bytes) (s : prx_server_socket) : prx_server_socket :=
  mk_socket (ss_sock s) v (ss_link_message s) (ss_state s) (ss_last_error s) (ss_last_activity s)
  (ss_time_opened s) (ss_id s) (ss_owner s) (ss_stream_id s) (ss_server_stream s) (ss_stream s)
  (ss_polled s) (ss_queue s) (ss_bytes_sent s) (ss_bytes_recvd s) (ss_message_pool s) (ss_buffer_size s)
  (ss_pool_size s) (ss_scheduler s).
Definition set_link_message (v : option Z) (s : prx_server_socket) : prx_server_socket := mk_socket
  (ss_sock s) (ss_props s) v (ss_state s) (ss_last_error s) (ss_last_activity s) (ss_time_opened s)
  (ss_id s) (ss_owner s) (ss_stream_id s) (ss_server_stream s) (ss_stream s) (ss_polled s) (ss_queue s)
  (ss_bytes_sent s) (ss_bytes_recvd s) (ss_message_pool s) (ss_buffer_size s) (ss_pool_size s)
  (ss_scheduler s).
Definition set_state (v : prx_server_socket_state) (s : prx_server_socket) : prx_server_socket :=
  mk_socket (ss_sock s) (ss_props s) (ss_link_message s) v (ss_last_error s) (ss_last_activity s)
  (ss_time_opened s) (ss_id s) (ss_owner s) (ss_stream_id s) (ss_server_stream s) (ss_stream s)
  (ss_polled s) (ss_queue s) (ss_bytes_sent s) (ss_bytes_recvd s) (ss_message_pool s) (ss_buffer_size s)
  (ss_pool_size s) (ss_scheduler s).
Definition set_last_error (v : prx_error) (s : prx_server_socket) : prx_server_socket := mk_socket
  (ss_sock s) (ss_props s) (ss_link_message s) (ss_state s) v (ss_last_activity s) (ss_time_opened s)
  (ss_id s) (ss_owner s) (ss_stream_id s) (ss_server_stream s) (ss_stream s) (ss_polled s) (ss_queue s)
  (ss_bytes_sent s) (ss_bytes_recvd s) (ss_message_pool s) (ss_buffer_size s) (ss_pool_size s)
  (ss_scheduler s).
Definition set_last_activity (v : Z) (s : prx_server_socket) : prx_server_socket := mk_socket (ss_sock s)
  (ss_props s) (ss_link_message s) (ss_state s) (ss_last_error s) v (ss_time_opened s) (ss_id s)
  (ss_owner s) (ss_stream_id s) (ss_server_stream s) (ss_stream s) (ss_polled s) (ss_queue s)
  (ss_bytes_sent s) (ss_bytes_recvd s) (ss_message_pool s) (ss_buffer_size s) (ss_pool_size s)
  (ss_scheduler s).
Definition set_time_opened (v : Z) (s : prx_server_socket) : prx_server_socket := mk_socket (ss_sock s)
  (ss_props s) (ss_link_message s) (ss_state s) (ss_last_error s) (ss_last_activity s) v (ss_id s)
  (ss_owner s) (ss_stream_id s) (ss_server_stream s) (ss_stream s) (ss_polled s) (ss_queue s)
  (ss_bytes_sent s) (ss_bytes_recvd s) (ss_message_pool s) (ss_buffer_size s) (ss_pool_size s)
  (ss_scheduler s).
Definition set_id (v : io_ref) (s : prx_server_socket) : prx_server_socket := mk_socket (ss_sock s)
  (ss_props s) (ss_link_message s) (ss_state s) (ss_last_error s) (ss_last_activity s) (ss_time_opened s)
  v (ss_owner s) (ss_stream_id s) (ss_server_stream s) (ss_stream s) (ss_polled s) (ss_queue s)
  (ss_bytes_sent s) (ss_bytes_recvd s) (ss_message_pool s) (ss_buffer_size s) (ss_pool_size s)
  (ss_scheduler s).
Definition set_stream_id (v : io_ref) (s : prx_server_socket) : prx_server_socket := mk_socket (ss_sock
  s) (ss_props s) (ss_link_message s) (ss_state s) (ss_last_error s) (ss_last_activity s) (ss_time_opened
  s) (ss_id s) (ss_owner s) v (ss_server_stream s) (ss_stream s) (ss_polled s) (ss_queue s)
  (ss_bytes_sent s) (ss_bytes_recvd s) (ss_message_pool s) (ss_buffer_size s) (ss_pool_size s)
  (ss_scheduler s).
Definition set_server_stream (v : bool) (s : prx_server_socket) : prx_server_socket := mk_socket (ss_sock
  s) (ss_props s) (ss_link_message s) (ss_state s) (ss_last_error s) (ss_last_activity s) (ss_time_opened
  s) (ss_id s) (ss_owner s) (ss_stream_id s) v (ss_stream s) (ss_polled s) (ss_queue s) (ss_bytes_sent s)
  (ss_bytes_recvd s) (ss_message_pool s) (ss_buffer_size s) (ss_pool_size s) (ss_scheduler s).
Definition set_stream (v : option Z) (s : prx_server_socket) : prx_server_socket := mk_socket (ss_sock s)
  (ss_props s) (ss_link_message s) (ss_state s) (ss_last_error s) (ss_last_activity s) (ss_time_opened s)
  (ss_id s) (ss_owner s) (ss_stream_id s) (ss_server_stream s) v (ss_polled s) (ss_queue s)
  (ss_bytes_sent s) (ss_bytes_recvd s) (ss_message_pool s) (ss_buffer_size s) (ss_pool_size s)
  (ss_scheduler s).
Definition set_polled (v : bool) (s : prx_server_socket) : prx_server_socket := mk_socket (ss_sock s)
  (ss_props s) (ss_link_message s) (ss_state s) (ss_last_error s) (ss_last_activity s) (ss_time_opened s)
  (ss_id s) (ss_owner s) (ss_stream_id s) (ss_server_stream s) (ss_stream s) v (ss_queue s)
  (ss_bytes_sent s) (ss_bytes_recvd s) (ss_message_pool s) (ss_buffer_size s) (ss_pool_size s)
  (ss_scheduler s).
Definition set_queue (v : queue -> list Z) (s : prx_server_socket) : prx_server_socket := mk_socket
  (ss_sock s) (ss_props s) (ss_link_message s) (ss_state s) (ss_last_error s) (ss_last_activity s)
  (ss_time_opened s) (ss_id s) (ss_owner s) (ss_stream_id s) (ss_server_stream s) (ss_stream s)
  (ss_polled s) v (ss_bytes_sent s) (ss_bytes_recvd s) (ss_message_pool s) (ss_buffer_size s)
  (ss_pool_size s) (ss_scheduler s).
Definition set_bytes_recvd (v : Z) (s : prx_server_socket) : prx_server_socket := mk_socket (ss_sock s)
  (ss_props s) (ss_link_message s) (ss_state s) (ss_last_error s) (ss_last_activity s) (ss_time_opened s)
  (ss_id s) (ss_owner s) (ss_stream_id s) (ss_server_stream s) (ss_stream s) (ss_polled s) (ss_queue s)
  (ss_bytes_sent s) v (ss_message_pool s) (ss_buffer_size s) (ss_pool_size s) (ss_scheduler s).
Definition set_message_pool (v : option Z) (s : prx_server_socket) : prx_server_socket := mk_socket
  (ss_sock s) (ss_props s) (ss_link_message s) (ss_state s) (ss_last_error s) (ss_last_activity s)
  (ss_time_opened s) (ss_id s) (ss_owner s) (ss_stream_id s) (ss_server_stream s) (ss_stream s)
  (ss_polled s) (ss_queue s) (ss_bytes_sent s) (ss_bytes_recvd s) v (ss_buffer_size s) (ss_pool_size s)
  (ss_scheduler s).
Definition set_buffer_size (v : Z) (s : prx_server_socket) : prx_server_socket := mk_socket (ss_sock s)
  (ss_props s) (ss_link_message s) (ss_state s) (ss_last_error s) (ss_last_activity s) (ss_time_opened s)
  (ss_id s) (ss_owner s) (ss_stream_id s) (ss_server_stream s) (ss_stream s) (ss_polled s) (ss_queue s)
  (ss_bytes_sent s) (ss_bytes_recvd s) (ss_message_pool s) v (ss_pool_size s) (ss_scheduler s).
Definition set_pool_size (v : Z) (s : prx_server_socket) : prx_server_socket := mk_socket (ss_sock s)
  (ss_props s) (ss_link_message s) (ss_state s) (ss_last_error s) (ss_last_activity s) (ss_time_opened s)
  (ss_id s) (ss_owner s) (ss_stream_id s) (ss_server_stream s) (ss_stream s) (ss_polled s) (ss_queue s)
  (ss_bytes_sent s) (ss_bytes_recvd s) (ss_message_pool s) (ss_buffer_size s) v (ss_scheduler s).
Definition set_scheduler (v : bool) (s : prx_server_socket) : prx_server_socket := mk_socket (ss_sock s)
  (ss_props s) (ss_link_message s) (ss_state s) (ss_last_error s) (ss_last_activity s) (ss_time_opened s)
  (ss_id s) (ss_owner s) (ss_stream_id s) (ss_server_stream s) (ss_stream s) (ss_polled s) (ss_queue s)
  (ss_bytes_sent s) (ss_bytes_recvd s) (ss_message_pool s) (ss_buffer_size s) (ss_pool_size s) v.
Definition set_queue_of (q : queue) (l : list Z) (s : prx_server_socket) : prx_server_socket :=
  set_queue (fun q' => if decide (q' = q) then l else ss_queue s q') s.
Definition set_timeout (t : Z) (p : prx_socket_properties bytes) : prx_socket_properties bytes :=
  {| sp_family := sp_family p; sp_sock_type := sp_sock_type p; sp_proto_type := sp_proto_type p;
     sp_flags := sp_flags p; sp_timeout := t; sp_address := sp_address p; sp_options := sp_options p |}.

(** A message object: its references, the pool it is from if it is not one of the
    transport, the member [context], and the message. *)
Record message := mk_obj {
  ob_refs : Z;
  ob_pool : option Z;
  ob_context : option Z;
  ob_msg : io_message bytes;
}.

(** ** Calls *)

(** The tasks of the scheduler. *)
Inductive task :=
| t_worker
| t_deliver_results (a : Z)
| t_open_complete (a : Z)
| t_close_complete (a : Z)
| t_timeout_pollrequest (a : Z)
| t_free (a : Z).

(** Which function a connection delivers its messages to. *)
Inductive handler := h_server | h_stream | h_control.

(** A value or an error. *)
Abbreviation ret A := (A + prx_error)%type.

Inductive call : Type -> Type :=
| c_ticks_get : call Z
| c_do_next (t : task) : call unit
| c_do_later (t : task) (delay : Z) : call unit
| c_connection_send (connection : Z) (m : io_message bytes) : call prx_error
| c_connection_close (connection : Z) : call unit
| c_connection_free (connection : Z) : call unit
| c_transport_create (ws : bool) (entry : Z) (h : handler) : call (ret Z)
| c_cs_create_from_string (string : bytes) : call (ret Z)
| c_cs_free (cs : Z) : call unit
| c_ns_entry_create_from_cs (id : io_ref) (cs : Z) : call (ret Z)
| c_ns_entry_release (entry : Z) : call unit
| c_ns_entry_get_addr (entry : Z) : call (ret io_ref)
| c_pal_caps : call Z
| c_pal_socket_create (props : prx_socket_properties bytes) : call (ret Z)
| c_pal_socket_pair (props : prx_socket_properties bytes) : call (ret Z)
| c_pal_socket_open (sock : option Z) : call prx_error
| c_pal_socket_close (sock : option Z) : call unit
| c_pal_socket_free (sock : Z) : call unit
| c_pal_socket_can_recv (sock : option Z) (ready : bool) : call prx_error
| c_pal_socket_can_send (sock : option Z) (ready : bool) : call prx_error
| c_pal_socket_getsockopt (sock : option Z) (opt : Z) : call (ret Z)
| c_pal_socket_setsockopt (sock : option Z) (opt value : Z) : call prx_error
| c_pal_socket_getsockname (sock : option Z) : call (ret prx_socket_address)
| c_pal_socket_getpeername (sock : option Z) : call (ret prx_socket_address)
| c_pal_socket_get_properties (sock : option Z) : call (ret (prx_socket_properties bytes))
| c_pal_socket_join (sock : option Z) (m : prx_multicast_option) : call prx_error
| c_pal_socket_leave (sock : option Z) (m : prx_multicast_option) : call prx_error
| c_pal_rand_fill (n : Z) : call (ret bytes)
| c_pal_getaddrinfo (host port : bytes) (family : Z) : call (ret prx_socket_address)
| c_pal_ntop (address : prx_socket_address) : call (ret bytes)
| c_mem_alloc : call bool
| c_lock_create : call prx_error
| c_message_factory_create (size : Z) : call prx_error
| c_scheduler_create : call prx_error
| c_scheduler_release : call unit
| c_hashtable_create : call bool
| c_browse_server_create : call (ret Z)
| c_browse_server_free (browser : Z) : call unit
| c_browse_server_accept (browser : option Z) (codec : Z) : call prx_error
| c_config_restricted_ports : call bytes.

Inductive event := ev (A : Type) (c : call A) (a : A).
Arguments ev {A}.

(** ** Interface of the table of sockets

    The hashtable and its iterator.  [ht_items]: the entries, in the order in which
    the iterator visits them; [it_done]: those before the current one, [it_rest]:
    those from the current one on. *)
Class hashtable (T I : Type) := {
  ht_empty : T;
  ht_count : T -> Z;
  ht_insert : T -> io_ref -> Z -> T;
  ht_search : T -> io_ref -> option Z;
  ht_iterator : T -> option I;
  it_value : I -> Z;
  it_remove : I -> T -> bool * I * T;
  it_advance : I -> T -> bool * I;
  ht_items : T -> list (io_ref * Z);
  it_done : I -> T -> list (io_ref * Z);
  it_rest : I -> T -> list (io_ref * Z);
}.

(** Removing an entry through the iterator advances it to the next one; the flags say
    whether there is a next one. *)
Class hashtable_laws (T I : Type) `{hashtable T I} := {
  ht_empty_items : ht_items ht_empty = [];
  ht_count_items t : ht_count t = zlen (ht_items t);
  ht_search_items t k a : ht_search t k = Some a -> exists k', (k', a) ∈ ht_items t /\
    io_ref_equals (Some k') (Some k) = true;
  ht_iterator_items t i : ht_iterator t = Some i -> it_done i t = [] /\ it_rest i t = ht_items t;
  it_items i t : it_rest i t <> [] -> ht_items t = it_done i t ++ it_rest i t;
  it_value_rest i t x l : it_rest i t = x :: l -> it_value i = snd x;
  it_remove_rest i t x l b i' t' : it_rest i t = x :: l -> it_remove i t = (b, i', t') ->
    ht_items t' = it_done i t ++ l /\ it_done i' t' = it_done i t /\ it_rest i' t' = l /\ b = bool_decide (l <> []);
  it_advance_rest i t b i' : it_advance i t = (b, i') ->
    match it_rest i t with
    | [] => it_done i' t = it_done i t /\ it_rest i' t = [] /\ b = false
    | x :: l => it_done i' t = it_done i t ++ [x] /\ it_rest i' t = l /\ b = bool_decide (l <> [])
    end;
}.

Record prx_server (T : Type) := mk_server {
  srv_id : io_ref;
  srv_listener : option Z;
  srv_browser : option Z;
  srv_restricted_ports : list Z;
  srv_restricted_port_count : Z;
  srv_sockets : T;
  srv_exit : bool;
}.
Arguments mk_server {T}. Arguments srv_id {T}. Arguments srv_listener {T}. Arguments srv_browser {T}.
Arguments srv_restricted_ports {T}. Arguments srv_restricted_port_count {T}. Arguments srv_sockets {T}.
Arguments srv_exit {T}.

(** [w_server]: [None] once the server was freed; [w_next]: the next new address. *)
Record world (T : Type) := mk_world {
  w_server : option (prx_server T);
  w_socks : gmap Z prx_server_socket;
  w_msgs : gmap Z message;
  w_pools : gmap Z mpool;
  w_next : Z;
  w_trace : list event;
}.
Arguments mk_world {T}. Arguments w_server {T}. Arguments w_socks {T}. Arguments w_msgs {T}.
Arguments w_pools {T}. Arguments w_next {T}. Arguments w_trace {T}.

Definition M (T A : Type) := world T -> res (A * world T).

#[export] Instance M_ret T : MRet (M T) := fun A a w => Ok (a, w).
#[export] Instance M_bind T : MBind (M T) := fun A B f m w => '(a, w) ← m w; f a w.

Section Model.
Context {T I : Type} `{hashtable T I}.
Variable env : forall A, list event -> call A -> A.
Implicit Types (w : world T) (a m : Z).
Abbreviation M := (M T).

(** A call that nothing is done with. *)
Definition do_call {A} (c : call A) : M A := fun w =>
  let x := env A (w_trace w) c in
  Ok (x, mk_world (w_server w) (w_socks w) (w_msgs w) (w_pools w) (w_next w) (w_trace w ++ [ev c x])).

Definition ub {A} : M A := fun _ => UB.
Definition get_server : M (prx_server T) := fun w => s ← chk (w_server w); Ok (s, w).
Definition put_server (s : option (prx_server T)) : M unit := fun w =>
  Ok (tt, mk_world s (w_socks w) (w_msgs w) (w_pools w) (w_next w) (w_trace w)).
Definition get_sock a : M prx_server_socket := fun w => s ← chk (w_socks w !! a); Ok (s, w).
Definition mod_sock a (f : prx_server_socket -> prx_server_socket) : M unit := fun w =>
  s ← chk (w_socks w !! a);
  Ok (tt, mk_world (w_server w) (<[a := f s]> (w_socks w)) (w_msgs w) (w_pools w) (w_next w) (w_trace w)).
Definition get_msg m : M message := fun w => g ← chk (w_msgs w !! m); Ok (g, w).
Definition put_msg m (g : option message) : M unit := fun w =>
  Ok (tt, mk_world (w_server w) (w_socks w) (partial_alter (fun _ => g) m (w_msgs w)) (w_pools w) (w_next w)
        (w_trace w)).
Definition mod_msg m (f : io_message bytes -> io_message bytes) : M unit :=
  g ← get_msg m;
  put_msg m (Some (mk_obj (ob_refs g) (ob_pool g) (ob_context g) (f (ob_msg g)))).

Definition do_next (t : task) : M unit := do_call (c_do_next t).
Definition do_later (t : task) (delay : Z) : M unit := do_call (c_do_later t delay).

(** [io_connection_send] of io_transport.h, with its check for NULL. *)
Definition io_connection_send (connection : option Z) m : M prx_error :=
  match connection with
  | None => mret er_fault
  | Some c => g ← get_msg m; do_call (c_connection_send c (ob_msg g))
  end.

(** ** Messages and their pool *)

Definition prx_server_socket_flow_control a (low_mem : bool) : M unit :=
  s ← get_sock a;
  if bool_decide (ss_state s = st_opened)
  then _ ← do_call (c_pal_socket_can_recv (ss_sock s) (negb low_mem)); mret tt
  else mret tt.

Definition new_message (t : Z) (source target : io_ref) : io_message bytes :=
  {| source_id := source; proxy_id := zeros 16; target_id := target; error_code := 0;
     is_response := false; type := t; content := ct_zero; correlation_id := 0 |}.

Definition alloc_msg (g : message) : M Z := fun w =>
  Ok (w_next w, mk_world (w_server w) (w_socks w) (<[w_next w := g]> (w_msgs w)) (w_pools w) (w_next w + 1)
        (w_trace w)).
Definition get_pool (p : Z) : M mpool := fun w => x ← chk (w_pools w !! p); Ok (x, w).
Definition put_pool (p : Z) (x : option mpool) : M unit := fun w =>
  Ok (tt, mk_world (w_server w) (w_socks w) (w_msgs w) (partial_alter (fun _ => x) p (w_pools w)) (w_next w)
        (w_trace w)).

Definition alloc_pool (x : mpool) : M Z := fun w =>
  Ok (w_next w, mk_world (w_server w) (w_socks w) (w_msgs w) (<[w_next w := x]> (w_pools w)) (w_next w + 1)
        (w_trace w)).

(** [io_message_create] from a pool, which does not grow; the pool calls its socket
    when the last but one message goes out. *)
Definition io_message_create (pool : option Z) (t : Z) (source target : io_ref) : M (ret Z) :=
  match pool with
  | None => mret (inr er_fault)
  | Some p =>
      x ← get_pool p;
      if bool_decide (mp_free x = 0) then mret (inr er_out_of_memory)
      else
        let free := mp_free x - 1 in
        let signal := bool_decide (free <= RECV_POOL_LWM) && negb (mp_empty x) in
        put_pool p (Some (mk_mpool (mp_owner x) (mp_size x) free (mp_empty x || signal)));;
        (if signal then prx_server_socket_flow_control (mp_owner x) true else mret tt);;
        m ← alloc_msg (mk_obj 1 (Some p) None (new_message t source target));
        mret (inl m)
  end.

(** The same object with one more reference. *)
Definition io_message_clone m : M Z :=
  g ← get_msg m;
  put_msg m (Some (mk_obj (ob_refs g + 1) (ob_pool g) (ob_context g) (ob_msg g)));;
  mret m.

(** The last reference gives the message back to its pool. *)
Definition io_message_release m : M unit :=
  g ← get_msg m;
  if negb (bool_decide (ob_refs g - 1 = 0))
  then put_msg m (Some (mk_obj (ob_refs g - 1) (ob_pool g) (ob_context g) (ob_msg g)))
  else
    put_msg m None;;
    match ob_pool g with
    | None => mret tt
    | Some p =>
        x ← get_pool p;
        let free := mp_free x + 1 in
        let signal := bool_decide (free > mp_size x - RECV_POOL_HWM) && mp_empty x in
        put_pool p (Some (mk_mpool (mp_owner x) (mp_size x) free (if signal then false else mp_empty x)));;
        if signal then prx_server_socket_flow_control (mp_owner x) false else mret tt
    end.

(** The loops that empty a queue. *)
Fixpoint release_list a (q : queue) (l : list Z) : M unit :=
  match l with
  | [] => mret tt
  | m :: l => mod_sock a (set_queue_of q l);; io_message_release m;; release_list a q l
  end.
Definition release_queue a (q : queue) : M unit :=
  s ← get_sock a; release_list a q (ss_queue s q).

Definition insert_tail a (q : queue) m : M unit := mod_sock a (fun s => set_queue_of q (ss_queue s q ++ [m]) s).
Definition insert_head a (q : queue) m : M unit := mod_sock a (fun s => set_queue_of q (m :: ss_queue s q) s).

(** [DList_RemoveHeadList] of a queue that is not empty. *)
Definition remove_head a (q : queue) : M (option Z) :=
  s ← get_sock a;
  match ss_queue s q with
  | [] => mret None
  | m :: l => mod_sock a (set_queue_of q l);; mret (Some m)
  end.

(** Freeing a pool frees the messages that are still out. *)
Definition io_message_factory_free (p : Z) : M unit := fun w =>
  Ok (tt, mk_world (w_server w) (w_socks w) (filter (fun x => ob_pool (snd x) <> Some p) (w_msgs w))
        (delete p (w_pools w)) (w_next w) (w_trace w)).

Definition free_sock a : M unit := fun w =>
  Ok (tt, mk_world (w_server w) (delete a (w_socks w)) (w_msgs w) (w_pools w) (w_next w) (w_trace w)).

Definition prx_server_socket_free a : M unit :=
  s ← get_sock a;
  match ss_sock s with Some k => do_call (c_pal_socket_free k) | None => mret tt end;;
  match ss_stream s with
  | Some c => if negb (ss_server_stream s) then do_call (c_connection_free c) else mret tt
  | None => mret tt
  end;;
  release_queue a q_write;;
  release_queue a q_send;;
  release_queue a q_read;;
  release_queue a q_recv;;
  match ss_link_message s with Some m => io_message_release m | None => mret tt end;;
  match ss_message_pool s with Some p => io_message_factory_free p | None => mret tt end;;
  (if ss_scheduler s then do_call c_scheduler_release else mret tt);;
  free_sock a.

(** ** Changes of a message *)

Definition with_content (c : io_content bytes) (g : io_message bytes) : io_message bytes :=
  mk_message (source_id g) (proxy_id g) (target_id g) (error_code g) (is_response g) (type g) c (correlation_id g).
Definition with_error (e : prx_error) (g : io_message bytes) : io_message bytes :=
  mk_message (source_id g) (proxy_id g) (target_id g) (error_value e) (is_response g) (type g) (content g) (correlation_id g).
Definition with_type (t : Z) (g : io_message bytes) : io_message bytes :=
  mk_message (source_id g) (proxy_id g) (target_id g) (error_code g) (is_response g) t (content g) (correlation_id g).
Definition with_target (r : io_ref) (g : io_message bytes) : io_message bytes :=
  mk_message (source_id g) (proxy_id g) r (error_code g) (is_response g) (type g) (content g) (correlation_id g).
Definition with_route (source proxy target : io_ref) (g : io_message bytes) : io_message bytes :=
  mk_message source proxy target (error_code g) (is_response g) (type g) (content g) (correlation_id g).
Definition with_correlation (c : Z) (g : io_message bytes) : io_message bytes :=
  mk_message (source_id g) (proxy_id g) (target_id g) (error_code g) (is_response g) (type g) (content g) c.
Definition as_response m : M unit := mod_msg m io_message_as_response.

(** ** Poll requests and results *)

(** The loop over the read queue; [l]: the messages that are left. *)
Fixpoint manage_read_loop a (now : Z) (close : bool) (l : list Z) : M unit :=
  match l with
  | [] => mret tt
  | next :: l =>
      g ← get_msg next;
      (if close || bool_decide (i64 (pm_timeout (as_poll_message (content (ob_msg g)))) >= now) then
         mod_sock a (fun s => set_queue_of q_read (filter (fun x => x <> next) (ss_queue s q_read)) s);;
         as_response next;;
         mod_msg next (with_error (if close then er_closed else er_timeout));;
         s ← get_sock a;
         _ ← io_connection_send (ss_stream s) next;
         io_message_release next
       else mret tt);;
      manage_read_loop a now close l
  end.

Definition prx_server_socket_manage_read_queue a (close : bool) : M unit :=
  now ← do_call c_ticks_get;
  s ← get_sock a;
  manage_read_loop a now close (ss_queue s q_read).

(** A received message gets its route and the correlation id of the first poll request,
    if the socket is polled. *)
Definition deliver_prepare a (s : prx_server_socket) message : M (option Z) :=
  poll_message ←
    (if ss_polled s then
       p ← remove_head a q_read;
       match p with
       | None => ub
       | Some p =>
           as_response p;;
           g ← get_msg p;
           mod_msg message (with_correlation (correlation_id (ob_msg g)));;
           mret (Some p)
       end
     else mret None);
  srv ← get_server;
  mod_msg message (with_route (ss_id s) (srv_id srv) (ss_stream_id s));;
  mret poll_message.

(** Received messages, to the stream; what cannot be sent goes back to the front. *)
Fixpoint deliver_recv (fuel : nat) a : M unit :=
  match fuel with
  | O => ub
  | S fuel =>
      s ← get_sock a;
      if ss_polled s && bool_decide (ss_queue s q_read = []) then mret tt
      else
        message ← remove_head a q_recv;
        match message with
        | None => mret tt
        | Some message =>
            poll_message ← deliver_prepare a s message;
            result ← io_connection_send (ss_stream s) message;
            if bool_decide (result <> er_ok) then
              insert_head a q_recv message;;
              match poll_message with Some p => insert_head a q_read p | None => mret tt end
            else
              io_message_release message;;
              match poll_message with Some p => io_message_release p | None => mret tt end;;
              deliver_recv fuel a
        end
  end.

(** Responses to sent messages, to the stream. *)
Fixpoint deliver_write (fuel : nat) a : M unit :=
  match fuel with
  | O => ub
  | S fuel =>
      message ← remove_head a q_write;
      match message with
      | None => mret tt
      | Some message =>
          s ← get_sock a;
          result ← io_connection_send (ss_stream s) message;
          if bool_decide (result <> er_ok) then insert_head a q_write message
          else io_message_release message;; deliver_write fuel a
      end
  end.

Definition prx_server_socket_deliver_results a : M unit :=
  s ← get_sock a;
  deliver_recv (S (length (ss_queue s q_recv))) a;;
  s ← get_sock a;
  deliver_write (S (length (ss_queue s q_write))) a.

(** ** Completions *)

(** [pal_socket_getsockopt] for the receive buffer, when no size is configured. *)
Definition open_buffer_size a : M unit :=
  s ← get_sock a;
  if bool_decide (ss_buffer_size s = 0) then
    value ← do_call (c_pal_socket_getsockopt (ss_sock s) prx_so_rcvbuf);
    mod_sock a (set_buffer_size (match value with inl v => v | inr _ => MAX_BUF_SIZE end))
  else mret tt.

(** The body of the [do] loop: the content of the response. *)
Definition open_link_response a m : M prx_error :=
  open_buffer_size a;;
  s ← get_sock a;
  if bool_decide (ss_buffer_size s = 0) then ub
  else
    let size := RECV_POOL_MAX / ss_buffer_size s in
    mod_sock a (set_pool_size (if bool_decide (size < RECV_POOL_MIN) then RECV_POOL_MIN else size));;
    let response id local peer := with_content (link_response (mk_link_response id local peer)) in
    mod_msg m (response (zeros 16) sa_unspec sa_unspec);;
    local ← do_call (c_pal_socket_getsockname (ss_sock s));
    match local with
    | inr e => mret e
    | inl local =>
        mod_msg m (response (zeros 16) local sa_unspec);;
        peer ← do_call (c_pal_socket_getpeername (ss_sock s));
        match peer with
        | inr e => mret e
        | inl peer => mod_msg m (response (ss_id s) local peer);; mret er_ok
        end
    end.

Definition prx_server_socket_open_complete a : M unit :=
  s ← get_sock a;
  match ss_link_message s with
  | None => ub
  | Some message =>
      g ← get_msg message;
      mod_sock a (fun s => set_link_message None (set_last_error er_ok s));;
      put_msg message (Some (mk_obj (ob_refs g) (ob_pool g) None (ob_msg g)));;
      as_response message;;
      result ← (if bool_decide (ss_last_error s = er_ok) then open_link_response a message else mret (ss_last_error s));
      (if bool_decide (result <> er_ok) then
         mod_msg message (with_error result);;
         mod_sock a (set_state st_collect);;
         do_next t_worker
       else mret tt);;
      match ob_context g with
      | Some responder => _ ← io_connection_send (Some responder) message; mret tt
      | None => mret tt
      end
  end.

Definition prx_server_socket_close_complete a : M unit :=
  mod_sock a (set_state st_closed);; do_next t_worker.

(** ** Callbacks of the platform layer *)

(** The message that is the context of the operation, with its buffer; [None]: no
    buffer, receiving pauses. *)
Definition prx_server_socket_on_begin_receive a : M (option Z) :=
  s ← get_sock a;
  r ← io_message_create (ss_message_pool s) io_message_type_data (ss_id s) (ss_stream_id s);
  match r with
  | inr _ => mret None
  | inl message =>
      ok ← (if bool_decide (ss_buffer_size s = 0) then mret true else do_call c_mem_alloc);
      if (ok : bool) then
        mod_msg message (with_content (data_message (mk_data_message 0 sa_unspec 0 []
          (ss_buffer_size s) (zeros (ss_buffer_size s)))));;
        mret (Some message)
      else mret None
  end.

(** [data]: the contents of the buffer, [size]: the bytes received. *)
Definition prx_server_socket_on_end_receive a (data : bytes) (size : Z) (addr : option prx_socket_address)
    (result : prx_error) (message : Z) : M unit :=
  if bool_decide (result = er_aborted \/ result = er_retry) then io_message_release message
  else
    g ← get_msg message;
    let d := as_data_message [] (content (ob_msg g)) in
    let source := if bool_decide (result = er_ok) then default sa_unspec addr else dm_source_address d in
    mod_msg message (with_content (data_message (mk_data_message (dm_sequence_number d) source
      (dm_control_buffer_length d) (dm_control_buffer d) size data)));;
    mod_msg message (with_error result);;
    now ← do_call c_ticks_get;
    mod_sock a (fun s => set_bytes_recvd (u64 (ss_bytes_recvd s + size)) (set_last_activity now s));;
    insert_tail a q_recv message;;
    do_next (t_deliver_results a).

(** The context, and the data with its size and address. *)
Definition prx_server_socket_on_begin_send a : M (option (Z * (bytes * Z * prx_socket_address))) :=
  message ← remove_head a q_send;
  match message with
  | None => mret None
  | Some message =>
      g ← get_msg message;
      let d := as_data_message [] (content (ob_msg g)) in
      mret (Some (message, (dm_buffer d, dm_buffer_length d, dm_source_address d)))
  end.

Definition prx_server_socket_on_end_send a (result : prx_error) (message : Z) : M unit :=
  if bool_decide (result = er_retry) then insert_head a q_send message
  else
    done ← (if bool_decide (result <> er_ok /\ result <> er_aborted) then mret false
            else
              (if bool_decide (result = er_ok) then
                 now ← do_call c_ticks_get; mod_sock a (set_last_activity now)
               else mret tt);;
              s ← get_sock a;
              if ss_polled s then mret false else io_message_release message;; mret true);
    if (done : bool) then mret tt
    else
      as_response message;;
      mod_msg message (fun g => with_error result (with_type io_message_type_poll g));;
      insert_tail a q_write message;;
      do_next (t_deliver_results a).

(** ** Creation *)

(** A zeroed object. *)
Definition new_socket (owner : io_ref) : prx_server_socket :=
  mk_socket None zero_properties None st_created er_ok 0 0 (zeros 16) owner (zeros 16) false None false
    (fun _ => []) 0 0 None 0 0 false.

Definition alloc_sock (s : prx_server_socket) : M Z := fun w =>
  Ok (w_next w, mk_world (w_server w) (<[w_next w := s]> (w_socks w)) (w_msgs w) (w_pools w) (w_next w + 1)
        (w_trace w)).

Definition set_table (t : T) (s : prx_server T) : prx_server T :=
  mk_server (srv_id s) (srv_listener s) (srv_browser s) (srv_restricted_ports s) (srv_restricted_port_count s)
    t (srv_exit s).

(** The steps up to the first that fails. *)
Definition socket_create_steps a : M prx_error :=
  r ← do_call (c_pal_rand_fill 16);
  match io_ref_new (fun _ => match r with inl b => Ok b | inr e => Err e end) (Some (zeros 16)) with
  | UB => ub
  | Err e => mret e
  | Ok id =>
      mod_sock a (set_id id);;
      result ← do_call c_lock_create;
      if bool_decide (result <> er_ok) then mret result
      else
        result ← do_call c_lock_create;
        if bool_decide (result <> er_ok) then mret result
        else
          result ← do_call c_scheduler_create;
          if bool_decide (result <> er_ok) then mret result
          else
            mod_sock a (set_scheduler true);;
            srv ← get_server;
            put_server (Some (set_table (ht_insert (srv_sockets srv) id a) srv));;
            mret er_ok
  end.

Definition prx_server_socket_create (owner : io_ref) : M (ret Z) :=
  ok ← do_call c_mem_alloc;
  if negb ok then mret (inr er_out_of_memory)
  else
    a ← alloc_sock (new_socket owner);
    result ← socket_create_steps a;
    if bool_decide (result = er_ok) then mret (inl a)
    else prx_server_socket_free a;; mret (inr result).

(** The client interface of the new socket is the buffer, its address the context. *)
Definition prx_server_socket_on_begin_accept a : M (option Z) :=
  s ← get_sock a;
  r ← prx_server_socket_create (ss_owner s);
  match r with
  | inr _ => mret None
  | inl accepted =>
      s ← get_sock a;
      m ← io_message_create (ss_message_pool s) io_message_type_link (ss_id s) (ss_stream_id s);
      match m with
      | inr _ => mret None
      | inl m =>
          mod_sock accepted (set_link_message (Some m));;
          s ← get_sock a;
          mod_sock accepted (set_props (ss_props s));;
          mret (Some accepted)
      end
  end.

(** [op_context]: the address of the variable that holds the context; the function
    takes it for the address of the socket.  [sock]: the value of [*buffer]. *)
Definition prx_server_socket_on_end_accept a (sock : Z) (result : prx_error) (op_context : Z) : M unit :=
  let accepted := op_context in
  failed ←
    (if bool_decide (result <> er_ok) then mret (Some None)
     else
       mod_sock accepted (set_sock (Some sock));;
       x ← get_sock accepted;
       mod_sock accepted (set_link_message None);;
       now ← do_call c_ticks_get;
       mod_sock a (set_last_activity now);;
       mod_sock accepted (set_last_activity now);;
       match ss_link_message x with
       | None => ub
       | Some message =>
           mod_msg message (fun g => with_content (link_request (mk_link_request LINK_VERSION
             (lrq_props (as_link_request (content g))))) g);;
           props ← do_call (c_pal_socket_get_properties (Some sock));
           match props with
           | inr _ => mret (Some (Some message))
           | inl props =>
               mod_msg message (with_content (link_request (mk_link_request LINK_VERSION props)));;
               mod_msg message (with_error er_ok);;
               insert_tail a q_recv message;;
               do_next (t_deliver_results a);;
               mret None
           end
       end);
  match failed with
  | None => mret tt
  | Some message =>
      match message with Some m => io_message_release m | None => mret tt end;;
      prx_server_socket_free accepted
  end.

(** ** Requests *)

(** The connection of the stream: an entry of the name service, none when the socket
    is polled through the listener of the server.  What has to be freed comes along. *)
Definition open_entry a (req : io_open_request bytes) : M (option Z * option Z * prx_error) :=
  s ← get_sock a;
  if bool_decide (or_connection_string req <> []) then
    if bool_decide (or_type req = 0) then
      cs ← do_call (c_cs_create_from_string (or_connection_string req));
      match cs with
      | inr e => mret (None, None, e)
      | inl cs =>
          entry ← do_call (c_ns_entry_create_from_cs (ss_stream_id s) cs);
          match entry with
          | inr e => mret (Some cs, None, e)
          | inl entry => mret (Some cs, Some entry, er_ok)
          end
      end
    else mret (None, None, er_not_supported)
  else if negb (ss_polled s) then mret (None, None, er_invalid_format)
  else mret (None, None, er_ok).

Definition open_stream a (entry : option Z) : M prx_error :=
  s ← get_sock a;
  let create ws e h :=
    c ← do_call (c_transport_create ws e h);
    match c with
    | inr e => mret e
    | inl c => mod_sock a (set_stream (Some c));; mret er_ok
    end in
  match entry with
  | None =>
      srv ← get_server;
      mod_sock a (fun s => set_server_stream true (set_stream (srv_listener srv) s));;
      mret er_ok
  | Some e =>
      if ss_polled s then create false e h_control
      else
        caps ← do_call c_pal_caps;
        if bool_decide (Z.land caps pal_cap_wsclient <> 0) then create true e h_stream
        else mret er_not_supported
  end.

(** The [do] loop of the function; what has to be freed comes along. *)
Definition open_steps a message : M (option Z * option Z * prx_error) :=
  s ← get_sock a;
  if bool_decide (ss_state s = st_opened) then mret (None, None, er_bad_state)
  else if bool_decide (ss_state s <> st_created) then mret (None, None, er_closed)
  else
    g ← get_msg message;
    let req := as_open_request [] (content (ob_msg g)) in
    mod_sock a (fun s => set_buffer_size (or_max_recv req) (set_polled (or_polled req)
                           (set_stream_id (or_stream_id req) s)));;
    s ← get_sock a;
    result ← do_call (c_message_factory_create (ss_pool_size s));
    if bool_decide (result <> er_ok) then mret (None, None, result)
    else
      p ← alloc_pool (mk_mpool a (ss_pool_size s) (ss_pool_size s) false);
      mod_sock a (set_message_pool (Some p));;
      '(cs, entry, result) ← open_entry a req;
      if bool_decide (result <> er_ok) then mret (cs, entry, result)
      else
        result ← open_stream a entry;
        if bool_decide (result <> er_ok) then mret (cs, entry, result)
        else
          s ← get_sock a;
          result ← do_call (c_pal_socket_can_recv (ss_sock s) true);
          if bool_decide (result <> er_ok) then mret (cs, entry, result)
          else
            now ← do_call c_ticks_get;
            mod_sock a (fun s => set_state st_opened (set_time_opened now (set_last_activity now s)));;
            mret (cs, entry, er_ok).

Definition prx_server_socket_handle_openrequest a (responder : option Z) message : M prx_error :=
  '(cs, entry, result) ← open_steps a message;
  as_response message;;
  (if bool_decide (result = er_ok) then
     s ← get_sock a;
     mod_msg message (fun g => with_target (ss_stream_id s) (with_error er_ok g))
   else
     mod_sock a (set_state st_collect);;
     do_next t_worker);;
  s ← get_sock a;
  mod_msg message (fun g => with_target (ss_owner s) (with_error result g));;
  result ← io_connection_send responder message;
  match cs with Some cs => do_call (c_cs_free cs) | None => mret tt end;;
  match entry with Some e => do_call (c_ns_entry_release e) | None => mret tt end;;
  mret result.

(** For a socket that is not open: an error response if it is polled. *)
Definition send_closed a (responder : option Z) message : M prx_error :=
  s ← get_sock a;
  if ss_polled s then
    as_response message;;
    mod_msg message (with_error er_closed);;
    io_connection_send responder message
  else mret er_ok.

Definition prx_server_socket_handle_datamessage a (responder : option Z) message : M prx_error :=
  s ← get_sock a;
  if bool_decide (ss_state s <> st_opened) then send_closed a responder message
  else
    message ← io_message_clone message;
    insert_tail a q_send message;;
    s ← get_sock a;
    _ ← do_call (c_pal_socket_can_send (ss_sock s) true);
    mret er_ok.

Definition prx_server_socket_timeout_pollrequest a : M unit :=
  prx_server_socket_manage_read_queue a false.

Definition prx_server_socket_handle_pollrequest a (responder : option Z) message : M prx_error :=
  s ← get_sock a;
  if bool_decide (ss_state s <> st_opened) then send_closed a responder message
  else
    message ← io_message_clone message;
    now ← do_call c_ticks_get;
    g ← get_msg message;
    let p := as_poll_message (content (ob_msg g)) in
    let timeout := pm_timeout p in
    mod_sock a (fun s => set_last_activity now (set_props (set_timeout (u32 (u32 timeout * 3)) (ss_props s)) s));;
    mod_msg message (with_content (poll_message (mk_poll_message (pm_sequence_number p) (u64 (now + timeout)))));;
    insert_tail a q_read message;;
    prx_server_socket_deliver_results a;;
    s ← get_sock a;
    (if bool_decide (ss_queue s q_read <> []) then
       _ ← do_call (c_pal_socket_can_recv (ss_sock s) true);
       do_later (t_timeout_pollrequest a) (u32 timeout)
     else mret tt);;
    mret er_ok.

Definition prx_server_socket_handle_closerequest a (responder : option Z) message : M prx_error :=
  as_response message;;
  now ← do_call c_ticks_get;
  s ← get_sock a;
  let response e := with_content (close_response (mk_close_response (u64 (now - ss_time_opened s))
                      (ss_bytes_sent s) (ss_bytes_recvd s) (error_value e))) in
  (if bool_decide (ss_state s = st_created \/ ss_state s = st_opened) then
     _ ← do_call (c_pal_socket_setsockopt (ss_sock s) prx_so_shutdown prx_shutdown_op_both);
     mod_sock a (set_state st_collect);;
     do_next t_worker;;
     mod_msg message (response er_ok)
   else mod_msg message (response er_closed));;
  match responder with
  | Some c => mod_msg message (with_error er_ok);; io_connection_send (Some c) message
  | None => mret er_ok
  end.

(** The [do] loop: what the option is set to. *)
Definition setopt_steps a (v : prx_property bytes) : M prx_error :=
  s ← get_sock a;
  if bool_decide (ss_state s <> st_created /\ ss_state s <> st_opened) then mret er_closed
  else
    now ← do_call c_ticks_get;
    mod_sock a (set_last_activity now);;
    let t := prop_type v in
    if bool_decide (t = prx_so_ip_multicast_join) then
      do_call (c_pal_socket_join (ss_sock s) (as_mcast (prop_un v)))
    else if bool_decide (t = prx_so_ip_multicast_leave) then
      do_call (c_pal_socket_leave (ss_sock s) (as_mcast (prop_un v)))
    else if bool_decide (t = prx_so_props_timeout) then
      mod_sock a (fun s => set_props (set_timeout (as_value (prop_un v)) (ss_props s)) s);; mret er_ok
    else if bool_decide (t < prx_so_max) then
      do_call (c_pal_socket_setsockopt (ss_sock s) t (as_value (prop_un v)))
    else mret er_not_supported.

Definition prx_server_socket_handle_setoptrequest a (responder : option Z) message : M prx_error :=
  g ← get_msg message;
  result ← setopt_steps a (as_setopt_request (content (ob_msg g)));
  match responder with
  | Some c =>
      as_response message;;
      mod_msg message (with_error result);;
      io_connection_send (Some c) message
  | None => mret er_ok
  end.

(** The [do] loop: the value that is read. *)
Definition getopt_steps a (so_opt : Z) : M (ret Z) :=
  s ← get_sock a;
  if bool_decide (ss_state s <> st_created /\ ss_state s <> st_opened) then mret (inr er_closed)
  else
    now ← do_call c_ticks_get;
    mod_sock a (set_last_activity now);;
    if bool_decide (so_opt = prx_so_ip_multicast_join \/ so_opt = prx_so_ip_multicast_leave)
    then mret (inr er_not_supported)
    else if bool_decide (so_opt = prx_so_props_timeout) then mret (inl (sp_timeout (ss_props s)))
    else if bool_decide (u32 so_opt < prx_so_max) then do_call (c_pal_socket_getsockopt (ss_sock s) so_opt)
    else mret (inr er_not_supported).

Definition prx_server_socket_handle_getoptrequest a (responder : option Z) message : M prx_error :=
  match responder with
  | None => mret er_ok
  | Some c =>
      g ← get_msg message;
      let so_opt := as_getopt_request (content (ob_msg g)) in
      as_response message;;
      value ← getopt_steps a so_opt;
      match value with
      | inl v => mod_msg message (fun g => with_error er_ok
                   (with_content (getopt_response (mk_property so_opt (pv_value v))) g))
      | inr e => mod_msg message (with_error e)
      end;;
      io_connection_send (Some c) message
  end.

(** ** Handlers *)

Inductive io_connection_event := io_connection_received | io_connection_reconnecting | io_connection_closed.

#[export] Instance io_connection_event_eq_dec : EqDecision io_connection_event.
Proof. solve_decision. Defined.

Definition prx_server_socket_stream_handler a (event : io_connection_event) message : M prx_error :=
  match event with
  | io_connection_received =>
      g ← get_msg message;
      let t := type (ob_msg g) in
      if bool_decide (t = io_message_type_close) then prx_server_socket_handle_closerequest a None message
      else if bool_decide (t = io_message_type_poll) then prx_server_socket_handle_pollrequest a None message
      else if bool_decide (t = io_message_type_data) then prx_server_socket_handle_datamessage a None message
      else mret er_not_supported
  | io_connection_reconnecting =>
      s ← get_sock a;
      mret (if bool_decide (ss_state s = st_opened) then er_ok else er_closed)
  | io_connection_closed => do_later (t_free a) 2000;; mret er_ok
  end.

Definition prx_server_socket_control_handler a (event : io_connection_event) message : M prx_error :=
  s ← get_sock a;
  srv ← get_server;
  let listener := srv_listener srv in
  match event with
  | io_connection_received =>
      g ← get_msg message;
      let t := type (ob_msg g) in
      if bool_decide (t = io_message_type_close) then prx_server_socket_handle_closerequest a listener message
      else if bool_decide (t = io_message_type_open) then prx_server_socket_handle_openrequest a listener message
      else if bool_decide (t = io_message_type_getopt) then prx_server_socket_handle_getoptrequest a listener message
      else if bool_decide (t = io_message_type_setopt) then prx_server_socket_handle_setoptrequest a listener message
      else if bool_decide (t = io_message_type_poll) then prx_server_socket_handle_pollrequest a listener message
      else if bool_decide (t = io_message_type_data) then prx_server_socket_handle_datamessage a listener message
      else mret er_not_supported
  | _ => mret er_ok
  end.

(** The events of a socket of the platform layer, with their arguments; the result is
    the context a begin event yields. *)
Inductive pal_event :=
| pal_socket_event_opened (error : prx_error)
| pal_socket_event_begin_recv
| pal_socket_event_end_recv (data : bytes) (size : Z) (addr : option prx_socket_address) (error : prx_error) (op : Z)
| pal_socket_event_begin_accept
| pal_socket_event_end_accept (sock : Z) (error : prx_error) (op_context : Z)
| pal_socket_event_begin_send
| pal_socket_event_end_send (error : prx_error) (op : Z)
| pal_socket_event_closed (error : prx_error).

Definition prx_server_socket_event_handler a (event : pal_event) : M (option Z) :=
  match event with
  | pal_socket_event_opened error =>
      mod_sock a (set_last_error error);; do_next (t_open_complete a);; mret None
  | pal_socket_event_begin_recv => prx_server_socket_on_begin_receive a
  | pal_socket_event_end_recv data size addr error op =>
      prx_server_socket_on_end_receive a data size addr error op;; mret None
  | pal_socket_event_begin_accept => prx_server_socket_on_begin_accept a
  | pal_socket_event_end_accept sock error op_context =>
      prx_server_socket_on_end_accept a sock error op_context;; mret None
  | pal_socket_event_begin_send => r ← prx_server_socket_on_begin_send a; mret (fst <$> r)
  | pal_socket_event_end_send error op => prx_server_socket_on_end_send a error op;; mret None
  | pal_socket_event_closed error =>
      mod_sock a (set_last_error error);; do_next (t_close_complete a);; mret None
  end.
End Model.
End PrxSock.
