(* ===== verification/PrxTable.v ===== *)
(** * A table of sockets as a list

    An instance of the interface [hashtable] of PrxSock that meets its laws: the entries
    in a list, new ones at the end, and an iterator that splits the list.  The theorems
    about the server hold for every instance; this one is what examples run with,
    together with an environment in which calls succeed. *)
From stdpp Require Import base option list numbers sets gmap.
From S2P Require Import Prelude PrxTypes UtilString UtilInt IoRef IoProto PrxSock.
Import PrxTypes UtilString UtilInt IoRef IoProto PrxSock.

Module PrxTable.

Definition table := list (io_ref * Z).
Definition iterator : Type := table * table.

(** What the iterator has not passed, if it is one of this table. *)
Definition rest (i : iterator) (t : table) : table := if decide (t = i.1 ++ i.2) then i.2 else [].

#[export] Instance list_hashtable : hashtable table iterator := {
  ht_empty := [];
  ht_count t := zlen t;
  ht_insert t k a := t ++ [(k, a)];
  ht_search t k := (fun x => snd (snd x)) <$> list_find (fun x => io_ref_equals (Some x.1) (Some k) = true) t;
  ht_iterator t := Some ([], t);
  it_value i := match i.2 with x :: _ => snd x | [] => 0 end;
  it_remove i t := match rest i t with
                   | [] => (false, i, t)
                   | x :: l => (bool_decide (l <> []), (i.1, l), i.1 ++ l)
                   end;
  it_advance i t := match rest i t with
                    | [] => (false, (i.1, []))
                    | x :: l => (bool_decide (l <> []), (i.1 ++ [x], l))
                    end;
  ht_items t := t;
  it_done i t := i.1;
  it_rest := rest;
}.

#[export] Instance list_laws : hashtable_laws table iterator.
Proof.
  constructor; cbn.
  - done.
  - done.
  - intros t k a. destruct (list_find _ t) as [[n x]|] eqn:E; [|done]. cbn. intros [= <-].
    apply list_find_Some in E as (E & Hx & _). exists x.1. split; [|done].
    apply list_elem_of_lookup_2 in E. by destruct x.
  - intros t i [= <-]. unfold rest. by rewrite decide_True.
  - intros i t. unfold rest. by case_decide.
  - intros i t x l. unfold rest. case_decide; [|done]. by intros ->.
  - intros i t x l b i' t' Er. rewrite Er. intros [= <- <- <-]. cbn. unfold rest. by rewrite decide_True.
  - intros i t b i'. destruct (rest i t) as [|x l] eqn:E; intros [= <- <-].
    + unfold rest. cbn. by case_decide.
    + unfold rest in *. case_decide as Ht; [|done]. cbn. rewrite E in Ht. rewrite decide_True; [done|].
      by rewrite <- app_assoc.
Qed.

(** Every call succeeds; the clock stands at [now] and new names are all ones. *)
Definition calls_succeed (now : Z) (A : Type) (trace : list event) (c : call A) : A :=
  match c in call A return A with
  | c_ticks_get => now
  | c_do_next _ | c_do_later _ _ | c_connection_close _ | c_connection_free _ | c_cs_free _
  | c_ns_entry_release _ | c_pal_socket_close _ | c_pal_socket_free _ | c_scheduler_release
  | c_browse_server_free _ => tt
  | c_connection_send _ _ | c_pal_socket_open _ | c_pal_socket_can_recv _ _ | c_pal_socket_can_send _ _
  | c_pal_socket_setsockopt _ _ _ | c_pal_socket_join _ _ | c_pal_socket_leave _ _ | c_lock_create
  | c_message_factory_create _ | c_scheduler_create | c_browse_server_accept _ _ => er_ok
  | c_transport_create _ _ _ | c_cs_create_from_string _ | c_ns_entry_create_from_cs _ _
  | c_pal_socket_create _ | c_pal_socket_pair _ | c_pal_socket_getsockopt _ _ | c_browse_server_create => inl 1
  | c_ns_entry_get_addr _ => inl (repeat 2 16)
  | c_pal_caps => pal_cap_wsclient
  | c_pal_socket_getsockname _ | c_pal_socket_getpeername _ | c_pal_getaddrinfo _ _ _ => inl sa_unspec
  | c_pal_socket_get_properties _ => inl zero_properties
  | c_pal_rand_fill n => inl (repeat 1 (Z.to_nat n))
  | c_pal_ntop _ => inl [49]
  | c_mem_alloc | c_hashtable_create => true
  | c_config_restricted_ports => []
  end.

(** A server whose table is [t]. *)
Definition a_server (t : table) (exit : bool) : prx_server table :=
  mk_server (repeat 2 16) (Some 100) None [] 0 t exit.
End PrxTable.
