(* ===== verification/PrxSockSafe.v ===== *)
(** * Memory safety of the data path of server sockets (src/prx_server.c)

    Messages move between the stream of a socket, its four queues and the operations
    of the platform layer, and every holder has a reference.  Here: whatever the
    environment answers, the functions of the data path use no message, pool or socket
    that was freed and keep the references right, and results are delivered in order. *)
From stdpp Require Import base option list numbers sets gmap.
From S2P Require Import Prelude PrxTypes UtilString UtilInt IoRef IoProto PrxSock PrxTable.
Import PrxTypes UtilString UtilInt IoRef IoProto PrxSock PrxTable.

Module PrxSockSafe.

(** Filters that agree on the elements of a list. *)
Lemma filter_ext_in {A} (P1 P2 : A -> Prop) `{!forall x, Decision (P1 x)} `{!forall x, Decision (P2 x)} (l : list A) :
  (forall x, x ∈ l -> P1 x <-> P2 x) -> filter P1 l = filter P2 l.
Proof.
  induction l as [|x l IH]; intros Hl; [done|]. rewrite !filter_cons.
  assert (Hx : P1 x <-> P2 x) by (apply Hl; by left). rewrite IH by (intros y Hy; apply Hl; by right).
  repeat case_decide; tauto.
Qed.
Lemma filter_all {A} (P : A -> Prop) `{!forall x, Decision (P x)} (l : list A) :
  (forall x, x ∈ l -> P x) -> filter P l = l.
Proof.
  induction l as [|x l IH]; intros Hl; [done|]. rewrite filter_cons_True by (apply Hl; by left).
  f_equal. apply IH. intros y Hy. apply Hl. by right.
Qed.

Section Safe.
Context {T I : Type} `{hashtable T I}.
Variable env : forall A, list event -> call A -> A.
Implicit Types (w : world T) (a m : Z) (held : Z -> Z) (s : prx_server_socket).
Abbreviation M := (PrxSock.M T).

(** ** Runs *)

Lemma run_bind {A B} (c : M A) (f : A -> M B) w x w1 : c w = Ok (x, w1) -> (c ≫= f) w = f x w1.
Proof. intros E. unfold mbind, M_bind. by rewrite E. Qed.

Lemma run_assoc {A B C} (c : M A) (f : A -> M B) (g : B -> M C) w :
  ((c ≫= f) ≫= g) w = (c ≫= (fun x => f x ≫= g)) w.
Proof. unfold mbind, M_bind. by destruct (c w) as [[x w1]| |]. Qed.
Lemma run_ext {A B} (c : M A) (f g : A -> M B) w : (forall x w1, f x w1 = g x w1) -> (c ≫= f) w = (c ≫= g) w.
Proof. intros E. unfold mbind, M_bind. destruct (c w) as [[x w1]| |]; [apply E|done|done]. Qed.

(** The messages that were sent on connections, with the results. *)
Definition send_of (e : event) : option (Z * io_message bytes * prx_error) :=
  match e with
  | ev c a => match c in call A return A -> option (Z * io_message bytes * prx_error) with
              | c_connection_send k g => fun r => Some (k, g, r)
              | _ => fun _ => None
              end a
  end.
Definition sends (l : list event) := omap send_of l.

(** From [w] to [w'] the messages [l] were sent. *)
Definition later (l : list (Z * io_message bytes * prx_error)) w w' : Prop :=
  exists evs, w_trace w' = w_trace w ++ evs /\ sends evs = l.

Lemma later_refl w : later [] w w.
Proof. exists []. by rewrite app_nil_r. Qed.
Lemma later_same w w' : w_trace w' = w_trace w -> later [] w w'.
Proof. intros E. exists []. by rewrite app_nil_r. Qed.
Lemma later_trans l1 l2 w1 w2 w3 : later l1 w1 w2 -> later l2 w2 w3 -> later (l1 ++ l2) w1 w3.
Proof.
  intros (e1 & E1 & S1) (e2 & E2 & S2). exists (e1 ++ e2). rewrite E2, E1, app_assoc. split; [done|].
  unfold sends in *. by rewrite omap_app, S1, S2.
Qed.
Lemma later_eq l w1 w2 w2' : w_trace w2' = w_trace w2 -> later l w1 w2 -> later l w1 w2'.
Proof. intros E (e & E1 & S1). exists e. by rewrite E, E1. Qed.

(** ** The invariant *)

(** [m] is in a queue of socket [a]. *)
Definition queued (socks : gmap Z prx_server_socket) m a (q : queue) : Prop :=
  exists s, socks !! a = Some s /\ m ∈ ss_queue s q.

(** [held m]: the references to [m] that are not those of a queue. *)
Record inv (held : Z -> Z) w : Prop := {
  v_queued m a q : queued (w_socks w) m a q ->
    exists g, w_msgs w !! m = Some g /\ ob_refs g = held m + 1;
  v_once m a q a' q' : queued (w_socks w) m a q -> queued (w_socks w) m a' q' -> a = a' /\ q = q';
  v_nodup a s q : w_socks w !! a = Some s -> NoDup (ss_queue s q);
  v_other m g : w_msgs w !! m = Some g -> (forall a q, ~ queued (w_socks w) m a q) -> ob_refs g = held m /\ 0 < held m;
  v_held m : 0 <= held m /\ (0 < held m -> is_Some (w_msgs w !! m));
  v_pool m g p : w_msgs w !! m = Some g -> ob_pool g = Some p -> is_Some (w_pools w !! p);
  v_owner p x : w_pools w !! p = Some x -> is_Some (w_socks w !! mp_owner x);
  v_mpool a s p : w_socks w !! a = Some s -> ss_message_pool s = Some p -> is_Some (w_pools w !! p);
  v_fresh x : w_next w <= x -> w_msgs w !! x = None /\ w_pools w !! x = None /\ w_socks w !! x = None;
  v_server : is_Some (w_server w);
}.

(** [a] is a live socket, with these contents. *)
Definition sock_is a s w : Prop := w_socks w !! a = Some s.

(** Changes that leave the memory alone. *)
Lemma inv_same held w w' : w_socks w' = w_socks w -> w_msgs w' = w_msgs w -> w_pools w' = w_pools w ->
  w_next w' = w_next w -> is_Some (w_server w') -> inv held w -> inv held w'.
Proof.
  intros E1 E2 E3 E4 Hs [V1 V2 V3 V4 V5 V6 V7 V8 V9 V10].
  constructor; rewrite ?E1, ?E2, ?E3, ?E4; done.
Qed.

(** A socket changes, but not its queues nor its pool. *)
Definition quiet (f : prx_server_socket -> prx_server_socket) : Prop :=
  forall s, ss_queue (f s) = ss_queue s /\ ss_message_pool (f s) = ss_message_pool s.

Lemma queued_insert socks a s f m a' q : socks !! a = Some s -> ss_queue (f s) = ss_queue s ->
  queued (<[a := f s]> socks) m a' q <-> queued socks m a' q.
Proof.
  intros E Eq. unfold queued. destruct (decide (a = a')) as [<-|Hne].
  - rewrite lookup_insert_eq. split; intros (s' & E' & Hm).
    + injection E' as <-. exists s. by rewrite <- Eq.
    + exists (f s). split; [done|]. rewrite Eq. congruence.
  - by rewrite lookup_insert_ne.
Qed.

Lemma inv_quiet held w a s f : quiet f -> inv held w -> sock_is a s w ->
  inv held (mk_world (w_server w) (<[a := f s]> (w_socks w)) (w_msgs w) (w_pools w) (w_next w) (w_trace w)).
Proof.
  intros Hf [V1 V2 V3 V4 V5 V6 V7 V8 V9 V10] E. destruct (Hf s) as [Eq Ep].
  pose proof (fun m a' q => queued_insert (w_socks w) a s f m a' q E Eq) as Hq.
  assert (Hsome : forall x, is_Some (w_socks w !! x) -> is_Some ((<[a := f s]> (w_socks w)) !! x))
    by (intros x Hx; apply lookup_insert_is_Some; destruct (decide (a = x)); [by left|by right]).
  constructor; cbn; try done.
  - intros m a' q Hm. apply (V1 m a' q). by apply Hq.
  - intros m a1 q1 a2 q2 H1 H2. apply (V2 m a1 q1 a2 q2); by apply Hq.
  - intros a' s' q. destruct (decide (a = a')) as [<-|Hne].
    + rewrite lookup_insert_eq. intros [= <-]. rewrite Eq. by apply (V3 a).
    + rewrite lookup_insert_ne by done. apply V3.
  - intros m g Em Hno. apply (V4 m g Em). intros a' q Hm. apply (Hno a' q). by apply Hq.
  - intros p x Ex. apply Hsome. by apply (V7 p).
  - intros a' s' p. destruct (decide (a = a')) as [<-|Hne].
    + rewrite lookup_insert_eq. intros [= <-]. rewrite Ep. by apply (V8 a).
    + rewrite lookup_insert_ne by done. apply V8.
  - intros x Hx. destruct (V9 x Hx) as (F1 & F2 & F3). split; [done|]. split; [done|].
    rewrite lookup_insert_ne; [done|]. intros ->. unfold sock_is in E. congruence.
Qed.

(** A message changes, but not its references nor its pool. *)
Lemma inv_msg held w m g g' : inv held w -> w_msgs w !! m = Some g -> ob_refs g' = ob_refs g -> ob_pool g' = ob_pool g ->
  inv held (mk_world (w_server w) (w_socks w) (<[m := g']> (w_msgs w)) (w_pools w) (w_next w) (w_trace w)).
Proof.
  intros [V1 V2 V3 V4 V5 V6 V7 V8 V9 V10] Em Er Ep. constructor; cbn; try done.
  - intros c a q Hc. destruct (V1 c a q Hc) as (x & Ex & Hx). destruct (decide (m = c)) as [<-|Hne].
    + rewrite lookup_insert_eq. exists g'. split; [done|]. rewrite Er. congruence.
    + rewrite lookup_insert_ne by done. eauto.
  - intros c x. destruct (decide (m = c)) as [<-|Hne].
    + rewrite lookup_insert_eq. intros [= <-]. rewrite Er. by apply V4.
    + rewrite lookup_insert_ne by done. apply V4.
  - intros c. destruct (V5 c) as [H0 Hc]. split; [done|]. intros Hp. apply lookup_insert_is_Some.
    destruct (decide (m = c)); [by left|right]. auto.
  - intros c x p. destruct (decide (m = c)) as [<-|Hne].
    + rewrite lookup_insert_eq. intros [= <-]. rewrite Ep. apply (V6 m g). exact Em.
    + rewrite lookup_insert_ne by done. apply V6.
  - intros x Hx. destruct (V9 x Hx) as (F1 & F2 & F3). split; [|done]. rewrite lookup_insert_ne; [done|]. congruence.
Qed.

(** [held] at one message. *)
Definition upd (r : Z -> Z) (b n : Z) : Z -> Z := fun c => if decide (c = b) then n else r c.
Lemma upd_eq r b n : upd r b n b = n.
Proof. unfold upd. by rewrite decide_True. Qed.
Lemma upd_ne r b n c : c <> b -> upd r b n c = r c.
Proof. intros. unfold upd. by rewrite decide_False. Qed.
Lemma inv_ext held held' w : (forall m, held m = held' m) -> inv held w -> inv held' w.
Proof.
  intros E [V1 V2 V3 V4 V5 V6 V7 V8 V9 V10]. constructor; try done.
  - intros m a q Hm. rewrite <- E. eauto.
  - intros m g Em Hno. rewrite <- E. eauto.
  - intros m. rewrite <- E. apply V5.
Qed.

(** Replacing the queue [q] of [a]. *)
Definition requeue w a s (q : queue) (l : list Z) : world T :=
  mk_world (w_server w) (<[a := set_queue_of q l s]> (w_socks w)) (w_msgs w) (w_pools w) (w_next w) (w_trace w).

Lemma queued_requeue w a s q l m a' q' : sock_is a s w ->
  queued (w_socks (requeue w a s q l)) m a' q' <->
    if decide (a' = a /\ q' = q) then m ∈ l else queued (w_socks w) m a' q'.
Proof.
  intros E. unfold queued, requeue. cbn. destruct (decide (a = a')) as [<-|Hne].
  - rewrite lookup_insert_eq. destruct (decide (a = a /\ q' = q)) as [[_ ->]|Hn].
    + split; [intros (s' & [= <-] & Hm)|intros Hm; eexists; split; [done|]]; cbn in *;
        unfold set_queue_of in *; cbn in *; by rewrite decide_True in *.
    + assert (Hq : q' <> q) by tauto. split.
      * intros (s' & [= <-] & Hm). exists s. split; [done|]. cbn in Hm. by rewrite decide_False in Hm.
      * intros (s' & E' & Hm). eexists. split; [done|]. cbn. rewrite decide_False by done. congruence.
  - rewrite lookup_insert_ne by done. rewrite decide_False by naive_solver. done.
Qed.

Lemma set_queue_pool q l s : ss_message_pool (set_queue_of q l s) = ss_message_pool s.
Proof. done. Qed.
Lemma set_queue_eq q l s : ss_queue (set_queue_of q l s) q = l.
Proof. cbn. by rewrite decide_True. Qed.
Lemma set_queue_ne q q' l s : q' <> q -> ss_queue (set_queue_of q l s) q' = ss_queue s q'.
Proof. intros. cbn. by rewrite decide_False. Qed.

(** What a change of a queue leaves alone. *)
Lemma requeue_rest held held' w a s q l : inv held w -> sock_is a s w -> NoDup l ->
  (forall m a' q', queued (w_socks (requeue w a s q l)) m a' q' ->
     exists g, w_msgs w !! m = Some g /\ ob_refs g = held' m + 1) ->
  (forall m, m ∈ l -> forall a' q', queued (w_socks w) m a' q' -> a' = a /\ q' = q) ->
  (forall m g, w_msgs w !! m = Some g -> (forall a' q', ~ queued (w_socks (requeue w a s q l)) m a' q') ->
     ob_refs g = held' m /\ 0 < held' m) ->
  (forall m, 0 <= held' m /\ (0 < held' m -> is_Some (w_msgs w !! m))) ->
  inv held' (requeue w a s q l).
Proof.
  intros [V1 V2 V3 V4 V5 V6 V7 V8 V9 V10] E Hn H1 H2 H4 H5.
  assert (Hsome : forall x, is_Some (w_socks w !! x) -> is_Some ((<[a := set_queue_of q l s]> (w_socks w)) !! x))
    by (intros x Hx; apply lookup_insert_is_Some; destruct (decide (a = x)); [by left|by right]).
  constructor; try done.
  - intros m a1 q1 a2 q2 Q1 Q2. apply queued_requeue in Q1; [|done]. apply queued_requeue in Q2; [|done].
    destruct (decide (a1 = a /\ q1 = q)) as [[-> ->]|N1], (decide (a2 = a /\ q2 = q)) as [[-> ->]|N2]; try done.
    + exfalso. apply N2. by apply (H2 m Q1).
    + exfalso. apply N1. by apply (H2 m Q2).
    + by apply (V2 m).
  - intros a' s' q'. cbn. destruct (decide (a = a')) as [<-|Hne].
    + rewrite lookup_insert_eq. intros [= <-]. destruct (decide (q' = q)) as [->|Hq].
      * by rewrite set_queue_eq.
      * rewrite set_queue_ne by done. by apply (V3 a).
    + rewrite lookup_insert_ne by done. apply V3.
  - intros p x Ex. apply Hsome. by apply (V7 p).
  - intros a' s' p. cbn. destruct (decide (a = a')) as [<-|Hne].
    + rewrite lookup_insert_eq. intros [= <-]. rewrite set_queue_pool. by apply (V8 a).
    + rewrite lookup_insert_ne by done. apply V8.
  - intros x Hx. destruct (V9 x Hx) as (F1 & F2 & F3). split; [done|]. split; [done|]. cbn.
    rewrite lookup_insert_ne; [done|]. intros ->. unfold sock_is in E. congruence.
Qed.

(** A message leaves a queue: its reference is held. *)
Lemma inv_dequeue held w a s q l1 m l2 : inv held w -> sock_is a s w -> ss_queue s q = l1 ++ m :: l2 ->
  inv (upd held m (held m + 1)) (requeue w a s q (l1 ++ l2)).
Proof.
  intros Hi E Eq. pose proof Hi as [V1 V2 V3 V4 V5 V6 V7 V8 V9 V10].
  assert (Hn : NoDup (l1 ++ m :: l2)) by (rewrite <- Eq; by apply (V3 a)).
  assert (Hm : m ∉ l1 ++ l2 /\ NoDup (l1 ++ l2)).
  { rewrite <- Permutation_middle in Hn. by apply NoDup_cons in Hn. }
  destruct Hm as [Hm Hn'].
  assert (Hin : forall c, c ∈ l1 ++ l2 -> queued (w_socks w) c a q).
  { intros c Hc. exists s. split; [done|]. rewrite Eq. set_solver. }
  assert (Hqm : queued (w_socks w) m a q) by (exists s; split; [done|]; rewrite Eq; set_solver).
  assert (Hsub : forall c a' q', queued (w_socks (requeue w a s q (l1 ++ l2))) c a' q' -> c <> m /\ queued (w_socks w) c a' q').
  { intros c a' q' Hc. apply queued_requeue in Hc; [|done]. destruct (decide (a' = a /\ q' = q)) as [[-> ->]|N].
    - split; [by intros ->|by apply Hin].
    - split; [|done]. intros ->. apply N. by apply (V2 m). }
  apply (requeue_rest held); try done.
  - intros c a' q' Hc. destruct (Hsub c a' q' Hc) as [Hne Hc']. rewrite upd_ne by done. by apply (V1 c a' q').
  - intros c Hc a' q' Hc'. apply (V2 c a' q' a q Hc'). by apply Hin.
  - intros c g Ec Hno. destruct (decide (c = m)) as [->|Hne].
    + destruct (V1 m a q Hqm) as (g' & Eg & Hg). destruct (V5 m). rewrite upd_eq. assert (g' = g) as -> by congruence. lia.
    + rewrite upd_ne by done. apply (V4 c g Ec). intros a' q' Hc. apply (Hno a' q'). apply queued_requeue; [done|].
      destruct (decide (a' = a /\ q' = q)) as [[-> ->]|N]; [|done]. destruct Hc as (s' & Es & Hc).
      unfold sock_is in E. assert (s' = s) as -> by congruence. rewrite Eq in Hc. set_solver.
  - intros c. destruct (decide (c = m)) as [->|Hne]; [|rewrite upd_ne by done; apply V5].
    rewrite upd_eq. destruct (V5 m). split; [lia|]. intros _. destruct (V1 m a q Hqm) as (g & Eg & _). eauto.
Qed.

(** And a reference that is held is put into a queue. *)
Lemma inv_enqueue held w a s q l1 m l2 : inv held w -> sock_is a s w -> ss_queue s q = l1 ++ l2 -> 0 < held m ->
  (forall a' q', ~ queued (w_socks w) m a' q') ->
  inv (upd held m (held m - 1)) (requeue w a s q (l1 ++ m :: l2)).
Proof.
  intros Hi E Eq Hh Hno. pose proof Hi as [V1 V2 V3 V4 V5 V6 V7 V8 V9 V10].
  assert (Hm : m ∉ l1 ++ l2) by (intros Hc; apply (Hno a q); exists s; split; [done|]; by rewrite Eq).
  assert (Hin : forall c, c ∈ l1 ++ m :: l2 <-> c = m \/ c ∈ l1 ++ l2) by set_solver.
  destruct (V5 m) as [_ Hg]. destruct (Hg Hh) as [g Eg]. destruct (V4 m g Eg Hno) as [Hr _].
  apply (requeue_rest held); try done.
  - rewrite <- Permutation_middle. apply NoDup_cons. split; [done|]. rewrite <- Eq. by apply (V3 a).
  - intros c a' q' Hc. destruct (decide (c = m)) as [->|Hne].
    + rewrite upd_eq. exists g. split; [done|]. lia.
    + rewrite upd_ne by done. apply (V1 c a' q'). apply queued_requeue in Hc; [|done].
      destruct (decide (a' = a /\ q' = q)) as [[-> ->]|N]; [|done]. apply Hin in Hc as [?|Hc]; [done|].
      exists s. split; [done|]. by rewrite Eq.
  - intros c Hc a' q' Hc'. apply Hin in Hc as [->|Hc]; [by apply Hno in Hc'|]. apply (V2 c a' q' a q Hc').
    exists s. split; [done|]. by rewrite Eq.
  - intros c g' Ec Hno'. assert (c <> m).
    { intros ->. apply (Hno' a q). apply queued_requeue; [done|]. rewrite decide_True by done. by apply Hin; left. }
    rewrite upd_ne by done. apply (V4 c g' Ec). intros a' q' Hc. apply (Hno' a' q'). apply queued_requeue; [done|].
    destruct (decide (a' = a /\ q' = q)) as [[-> ->]|N]; [|done]. apply Hin. right. destruct Hc as (s' & Es & Hc).
    unfold sock_is in E. assert (s' = s) as -> by congruence. by rewrite <- Eq.
  - intros c. destruct (decide (c = m)) as [->|Hne]; [|rewrite upd_ne by done; apply V5].
    rewrite upd_eq. split; [lia|]. intros _. eauto.
Qed.

(** ** Primitive steps *)

Lemma get_sock_run a s w : sock_is a s w -> get_sock a w = Ok (s, w).
Proof. intros E. unfold get_sock. by rewrite E. Qed.
Lemma mod_sock_run a s f w : sock_is a s w -> mod_sock a f w =
  Ok (tt, mk_world (w_server w) (<[a := f s]> (w_socks w)) (w_msgs w) (w_pools w) (w_next w) (w_trace w)).
Proof. intros E. unfold mod_sock. by rewrite E. Qed.
Lemma get_msg_run m g w : w_msgs w !! m = Some g -> get_msg m w = Ok (g, w).
Proof. intros E. unfold get_msg. by rewrite E. Qed.
Lemma put_msg_run m g w : put_msg m (Some g) w =
  Ok (tt, mk_world (w_server w) (w_socks w) (<[m := g]> (w_msgs w)) (w_pools w) (w_next w) (w_trace w)).
Proof. done. Qed.

(** A change of the contents of a message. *)
Definition bodied (f : io_message bytes -> io_message bytes) (g : message) : message :=
  mk_obj (ob_refs g) (ob_pool g) (ob_context g) (f (ob_msg g)).

Lemma mod_msg_run m f g w : w_msgs w !! m = Some g -> mod_msg m f w =
  Ok (tt, mk_world (w_server w) (w_socks w) (<[m := bodied f g]> (w_msgs w)) (w_pools w) (w_next w) (w_trace w)).
Proof. intros E. unfold mod_msg. by rewrite (run_bind _ _ _ _ _ (get_msg_run m g w E)). Qed.

(** The state with an event more. *)
Definition traced {A} w (c : call A) (x : A) : world T :=
  mk_world (w_server w) (w_socks w) (w_msgs w) (w_pools w) (w_next w) (w_trace w ++ [ev c x]).
Definition answer {A} w (c : call A) : A := env A (w_trace w) c.

Lemma call_run {A} (c : call A) w : do_call env c w = Ok (answer w c, traced w c (answer w c)).
Proof. done. Qed.
Lemma unit_call_run (c : call unit) w : do_call env c w = Ok (tt, traced w c tt).
Proof. rewrite call_run. by destruct (answer w c). Qed.
Lemma traced_inv {A} held w (c : call A) x : inv held w -> inv held (traced w c x).
Proof. intros Hi. eapply inv_same; [..|exact Hi]; try done. apply Hi. Qed.
Lemma traced_later {A} w (c : call A) x : later (sends [ev c x]) w (traced w c x).
Proof. by exists [ev c x]. Qed.

(** Only the trace differs. *)
Definition silent w w' : Prop :=
  w_server w' = w_server w /\ w_socks w' = w_socks w /\ w_msgs w' = w_msgs w /\ w_pools w' = w_pools w /\
  w_next w' = w_next w /\ later [] w w'.

Lemma silent_inv held w w' : silent w w' -> inv held w -> inv held w'.
Proof. intros (E1 & E2 & E3 & E4 & E5 & _) Hi. apply (inv_same held w); try done. rewrite E1. apply Hi. Qed.

Lemma flow_control_run a (low : bool) w : is_Some (w_socks w !! a) -> exists w',
  prx_server_socket_flow_control env a low w = Ok (tt, w') /\ silent w w'.
Proof.
  intros [s E]. unfold prx_server_socket_flow_control. rewrite (run_bind _ _ _ _ _ (get_sock_run a s w E)).
  case_bool_decide.
  - rewrite (run_bind _ _ _ _ _ (call_run _ w)). eexists. split; [done|]. repeat split; try done. apply traced_later.
  - eexists. split; [done|]. repeat split; try done. by apply later_same.
Qed.

(** The last reference goes. *)
Lemma inv_drop held w m g : inv held w -> w_msgs w !! m = Some g -> (forall a q, ~ queued (w_socks w) m a q) ->
  held m = 1 ->
  inv (upd held m 0) (mk_world (w_server w) (w_socks w) (partial_alter (fun _ => None) m (w_msgs w)) (w_pools w)
                        (w_next w) (w_trace w)).
Proof.
  intros [V1 V2 V3 V4 V5 V6 V7 V8 V9 V10] Eg Hno Hh. set (msgs := partial_alter (fun _ => None) m (w_msgs w)).
  assert (Hdel : forall c, c <> m -> msgs !! c = w_msgs w !! c) by (intros c Hc; unfold msgs; by rewrite lookup_partial_alter_ne).
  assert (Hnone : msgs !! m = None) by (unfold msgs; by rewrite lookup_partial_alter_eq).
  constructor; cbn; fold msgs; try done.
  - intros c a q Hc. assert (c <> m) by (intros ->; by apply Hno in Hc). rewrite Hdel, upd_ne by done. by apply (V1 c a q).
  - intros c g' Ec Hno'. assert (c <> m) by congruence. rewrite Hdel in Ec by done. rewrite upd_ne by done. by apply V4.
  - intros c. destruct (decide (c = m)) as [->|Hne].
    + rewrite upd_eq. split; lia.
    + rewrite upd_ne, Hdel by done. apply V5.
  - intros c g' p Ec. assert (c <> m) by congruence. rewrite Hdel in Ec by done. by apply (V6 c).
  - intros x Hx. destruct (V9 x Hx) as (F1 & F2 & F3). split; [|done]. rewrite Hdel; [done|]. congruence.
Qed.

(** The counters of a pool change. *)
Lemma inv_pools held w p x x' : inv held w -> w_pools w !! p = Some x -> mp_owner x' = mp_owner x ->
  inv held (mk_world (w_server w) (w_socks w) (w_msgs w) (partial_alter (fun _ => Some x') p (w_pools w)) (w_next w)
              (w_trace w)).
Proof.
  intros [V1 V2 V3 V4 V5 V6 V7 V8 V9 V10] Ex Eo. set (pools := partial_alter (fun _ => Some x') p (w_pools w)).
  assert (Hpool : forall y, is_Some (pools !! y) <-> is_Some (w_pools w !! y)).
  { intros y. unfold pools. destruct (decide (p = y)) as [<-|Hne].
    - rewrite lookup_partial_alter_eq. split; eauto.
    - by rewrite lookup_partial_alter_ne. }
  constructor; cbn; fold pools; try done.
  - intros c g' y Ec Ey. apply Hpool. by apply (V6 c g').
  - intros y z. unfold pools. destruct (decide (p = y)) as [<-|Hne].
    + rewrite lookup_partial_alter_eq. intros [= <-]. rewrite Eo. by apply (V7 p).
    + rewrite lookup_partial_alter_ne by done. apply V7.
  - intros a s y Ea Ey. apply Hpool. by apply (V8 a s).
  - intros y Hy. destruct (V9 y Hy) as (F1 & F2 & F3). split; [done|]. split; [|done]. unfold pools.
    rewrite lookup_partial_alter_ne; [done|]. congruence.
Qed.

(** [n] references more to a message, or less. *)
Lemma inv_refs held w m g n : inv held w -> w_msgs w !! m = Some g -> 0 <= held m + n -> 0 < ob_refs g + n ->
  inv (upd held m (held m + n)) (mk_world (w_server w) (w_socks w)
    (<[m := mk_obj (ob_refs g + n) (ob_pool g) (ob_context g) (ob_msg g)]> (w_msgs w)) (w_pools w) (w_next w) (w_trace w)).
Proof.
  intros [V1 V2 V3 V4 V5 V6 V7 V8 V9 V10] Eg Hh Hr. constructor; cbn; try done.
  - intros c a q Hc. destruct (V1 c a q Hc) as (x & Ex & Hx). destruct (decide (m = c)) as [<-|Hne].
    + rewrite lookup_insert_eq, upd_eq. eexists. split; [done|]. cbn. assert (x = g) as -> by congruence. lia.
    + rewrite lookup_insert_ne, upd_ne by done. eauto.
  - intros c x. destruct (decide (m = c)) as [<-|Hne].
    + rewrite lookup_insert_eq, upd_eq. intros [= <-] Hno. destruct (V4 m g Eg Hno). cbn. lia.
    + rewrite lookup_insert_ne, upd_ne by done. apply V4.
  - intros c. destruct (decide (m = c)) as [<-|Hne].
    + rewrite lookup_insert_eq, upd_eq. split; [lia|eauto].
    + rewrite lookup_insert_ne, upd_ne by done. apply V5.
  - intros c x p. destruct (decide (m = c)) as [<-|Hne].
    + rewrite lookup_insert_eq. intros [= <-]. apply (V6 m g). exact Eg.
    + rewrite lookup_insert_ne by done. apply V6.
  - intros x Hx. destruct (V9 x Hx) as (F1 & F2 & F3). split; [|done]. rewrite lookup_insert_ne; [done|]. congruence.
Qed.

(** What an operation on message [m] leaves alone. *)
Definition only_msg m w w' : Prop :=
  w_server w' = w_server w /\ w_socks w' = w_socks w /\ w_next w' = w_next w /\ later [] w w' /\
  (forall c, c <> m -> w_msgs w' !! c = w_msgs w !! c).

(** A held reference is given back. *)
Lemma release_run held w m : inv held w -> 0 < held m -> exists w',
  io_message_release env m w = Ok (tt, w') /\ inv (upd held m (held m - 1)) w' /\ only_msg m w w'.
Proof.
  intros Hi Hh. destruct (v_held _ _ Hi m) as [_ Hs]. destruct (Hs Hh) as [g Eg].
  assert (Hq : (ob_refs g = held m /\ forall a q, ~ queued (w_socks w) m a q) \/ ob_refs g = held m + 1).
  { destruct (decide (ob_refs g = held m + 1)) as [|Hne]; [by right|left].
    assert (Hno : forall a q, ~ queued (w_socks w) m a q).
    { intros a q Hq. destruct (v_queued _ _ Hi m a q Hq) as (g' & Eg' & Hr). congruence. }
    split; [|done]. by apply (v_other _ _ Hi). }
  unfold io_message_release. rewrite (run_bind _ _ _ _ _ (get_msg_run m g w Eg)).
  case_bool_decide as Hz; cbn [negb].
  - destruct Hq as [[Hr Hno]|Hr]; [|lia]. pose proof (inv_drop held w m g Hi Eg Hno ltac:(lia)) as Hi1.
    replace (held m - 1) with 0 by lia.
    set (w1 := mk_world (w_server w) (w_socks w) (partial_alter (fun _ => None) m (w_msgs w)) (w_pools w) (w_next w) (w_trace w)) in *.
    assert (Hon : only_msg m w w1).
    { split_and!; try done; [by apply later_same|]. intros c Hc. cbn. by rewrite lookup_partial_alter_ne. }
    rewrite (run_bind (put_msg m None) _ w tt w1 eq_refl). destruct (ob_pool g) as [p|] eqn:Ep; [|by exists w1].
    destruct (v_pool _ _ Hi m g p Eg Ep) as [x Ex].
    rewrite (run_bind (get_pool p) _ w1 x w1) by (unfold get_pool; cbn; by rewrite Ex).
    set (sig := bool_decide (mp_free x + 1 > mp_size x - RECV_POOL_HWM) && mp_empty x).
    set (x' := mk_mpool (mp_owner x) (mp_size x) (mp_free x + 1) (if sig then false else mp_empty x)).
    pose proof (inv_pools _ w1 p x x' Hi1 Ex eq_refl) as Hi2. rewrite (run_bind (put_pool p (Some x')) _ w1 tt _ eq_refl).
    set (w2 := mk_world (w_server w1) _ _ _ _ _) in *. destruct sig; [|by exists w2].
    destruct (flow_control_run (mp_owner x) false w2) as (w3 & E3 & S3); [by apply (v_owner _ _ Hi p)|].
    exists w3. split; [exact E3|]. split; [by apply (silent_inv _ w2)|].
    destruct S3 as (A1 & A2 & A3 & A4 & A5 & A6). destruct Hon as (B1 & B2 & B3 & B4 & B5).
    split_and!; try (etrans; [eassumption|done]); [exact A6|]. intros c Hc. rewrite A3. by apply B5.
  - pose proof (inv_refs held w m g (-1) Hi Eg ltac:(lia) ltac:(lia)) as Hi1. rewrite put_msg_run. eexists.
    split; [done|]. split; [exact Hi1|]. split_and!; try done; [by apply later_same|]. intros c Hc. cbn. by rewrite lookup_insert_ne.
Qed.

(** One reference more. *)
Lemma clone_run held w m : inv held w -> 0 < held m -> exists w',
  io_message_clone m w = Ok (m, w') /\ inv (upd held m (held m + 1)) w' /\ only_msg m w w' /\
  (ob_msg <$> w_msgs w' !! m) = (ob_msg <$> w_msgs w !! m).
Proof.
  intros Hi Hh. destruct (v_held _ _ Hi m) as [_ Hs]. destruct (Hs Hh) as [g Eg].
  unfold io_message_clone. rewrite (run_bind _ _ _ _ _ (get_msg_run m g w Eg)).
  rewrite (run_bind _ _ _ _ _ (put_msg_run m _ w)).
  assert (Hr : 0 < ob_refs g).
  { destruct (decide (ob_refs g = held m + 1)) as [|Hne]; [lia|]. destruct (v_other _ _ Hi m g Eg); [|lia].
    intros a q Hq. destruct (v_queued _ _ Hi m a q Hq) as (g' & Eg' & Hr). congruence. }
  pose proof (inv_refs held w m g 1 Hi Eg ltac:(lia) ltac:(lia)) as Hi1. eexists. split; [done|]. split; [exact Hi1|].
  split; [|cbn; by rewrite lookup_insert_eq, Eg].
  split_and!; try done; [by apply later_same|]. intros c Hc. cbn. by rewrite lookup_insert_ne.
Qed.

(** ** Queues *)

(** Sockets that differ in their queues only. *)
Definition like s s' : Prop := s' = set_queue (ss_queue s') s.
Lemma like_refl s : like s s.
Proof. by destruct s. Qed.
Lemma like_set s s' q l : like s s' -> like s (set_queue_of q l s').
Proof. intros ->. done. Qed.
Lemma like_trans s1 s2 s3 : like s1 s2 -> like s2 s3 -> like s1 s3.
Proof. unfold like. intros -> ->. done. Qed.

Lemma requeue_sock w a s q l : sock_is a (set_queue_of q l s) (requeue w a s q l).
Proof. unfold sock_is. cbn. by rewrite lookup_insert_eq. Qed.

Lemma remove_head_run w a s q : sock_is a s w -> remove_head a q w =
  match ss_queue s q with [] => Ok (None, w) | m :: l => Ok (Some m, requeue w a s q l) end.
Proof.
  intros E. unfold remove_head. rewrite (run_bind _ _ _ _ _ (get_sock_run a s w E)).
  destruct (ss_queue s q) as [|m l]; [done|]. by rewrite (run_bind _ _ _ _ _ (mod_sock_run a s _ w E)).
Qed.
Lemma insert_head_run w a s q m : sock_is a s w -> insert_head a q m w = Ok (tt, requeue w a s q (m :: ss_queue s q)).
Proof. apply mod_sock_run. Qed.
Lemma insert_tail_run w a s q m : sock_is a s w -> insert_tail a q m w = Ok (tt, requeue w a s q (ss_queue s q ++ [m])).
Proof. apply mod_sock_run. Qed.

(** A message with as many references as are held is in no queue. *)
Lemma not_queued held w m g : inv held w -> w_msgs w !! m = Some g -> ob_refs g = held m -> forall a q, ~ queued (w_socks w) m a q.
Proof. intros Hi Eg Hr a q Hq. destruct (v_queued _ _ Hi m a q Hq) as (g' & Eg' & Hr'). assert (g' = g) by congruence. subst. lia. Qed.

(** Taking the first message of a queue. *)
Lemma dequeue_run held w a s q m l : inv held w -> sock_is a s w -> ss_queue s q = m :: l -> exists g,
  remove_head a q w = Ok (Some m, requeue w a s q l) /\ inv (upd held m (held m + 1)) (requeue w a s q l) /\
  w_msgs w !! m = Some g /\ ob_refs g = held m + 1.
Proof.
  intros Hi E Eq. destruct (v_queued _ _ Hi m a q) as (g & Eg & Hr); [exists s; split; [done|]; rewrite Eq; by left|].
  exists g. split; [by rewrite (remove_head_run w a s q E), Eq|]. split; [|done].
  apply (inv_dequeue held w a s q [] m l Hi E Eq).
Qed.

Lemma send_run w (c : option Z) m g : w_msgs w !! m = Some g -> exists r w',
  io_connection_send env c m w = Ok (r, w') /\ w_server w' = w_server w /\ w_socks w' = w_socks w /\
  w_msgs w' = w_msgs w /\ w_pools w' = w_pools w /\ w_next w' = w_next w /\
  later (match c with Some k => [(k, ob_msg g, r)] | None => [] end) w w' /\ (c = None -> r <> er_ok).
Proof.
  intros Eg. unfold io_connection_send. destruct c as [k|].
  - rewrite (run_bind _ _ _ _ _ (get_msg_run m g w Eg)), call_run. do 2 eexists. split; [done|].
    split_and!; try done. apply traced_later.
  - do 2 eexists. split; [done|]. split_and!; try done. apply later_refl.
Qed.

Lemma inv_mem held w w' : w_server w' = w_server w -> w_socks w' = w_socks w -> w_msgs w' = w_msgs w ->
  w_pools w' = w_pools w -> w_next w' = w_next w -> inv held w -> inv held w'.
Proof. intros E1 E2 E3 E4 E5 Hi. apply (inv_same held w); try done. rewrite E1. apply Hi. Qed.

(** Preparing a message for delivery: only messages change, the poll request leaves
    its queue. *)
Lemma prepare_run held w a s0 s m g : inv held w -> sock_is a s w -> like s0 s -> w_msgs w !! m = Some g ->
  ob_refs g = held m -> 0 < held m -> (ss_polled s0 = true -> ss_queue s q_read <> []) ->
  exists po w' held' g' s', deliver_prepare a s0 m w = Ok (po, w') /\ inv held' w' /\ sock_is a s' w' /\ like s0 s' /\
    w_msgs w' !! m = Some g' /\ ob_refs g' = held' m /\ held' m = held m /\ content (ob_msg g') = content (ob_msg g) /\
    w_server w' = w_server w /\ later [] w w' /\ (forall q, q <> q_read -> ss_queue s' q = ss_queue s q) /\
    (forall c, c <> m -> c ∉ ss_queue s q_read -> w_msgs w' !! c = w_msgs w !! c) /\
    match po with
    | Some p => ss_polled s0 = true /\ ss_queue s q_read = p :: ss_queue s' q_read /\ p <> m /\ held' p = held p + 1 /\
        (exists gp, w_msgs w' !! p = Some gp /\ ob_refs gp = held' p) /\ (forall c, c <> p -> held' c = held c)
    | None => ss_polled s0 = false /\ ss_queue s' q_read = ss_queue s q_read /\ (forall c, held' c = held c)
    end.
Proof.
  intros Hi E Hl Eg Hr Hh Hp. unfold deliver_prepare. destruct (v_server _ _ Hi) as [srv Esrv].
  destruct (ss_polled s0) eqn:Epoll.
  - destruct (ss_queue s q_read) as [|p l] eqn:Eq; [by specialize (Hp eq_refl)|].
    destruct (dequeue_run held w a s q_read p l Hi E Eq) as (gp & Erm & Hi1 & Egp & Hrp).
    assert (Hpm : p <> m) by (intros ->; assert (gp = g) by congruence; subst; lia).
    set (w1 := requeue w a s q_read l) in *.
    pose proof (inv_msg _ w1 p gp (bodied io_message_as_response gp) Hi1 Egp eq_refl eq_refl) as Hi2.
    set (w2 := mk_world (w_server w1) (w_socks w1) (<[p := _]> _) _ _ _) in Hi2.
    assert (Ep2 : w_msgs w2 !! p = Some (bodied io_message_as_response gp)) by (cbn; by rewrite lookup_insert_eq).
    assert (Em2 : w_msgs w2 !! m = Some g) by (cbn; by rewrite lookup_insert_ne).
    set (corr := correlation_id (ob_msg (bodied io_message_as_response gp))).
    pose proof (inv_msg _ w2 m g (bodied (with_correlation corr) g) Hi2 Em2 eq_refl eq_refl) as Hi3.
    set (w3 := mk_world (w_server w2) (w_socks w2) (<[m := _]> _) _ _ _) in Hi3.
    assert (Em3 : w_msgs w3 !! m = Some (bodied (with_correlation corr) g)) by (cbn; by rewrite lookup_insert_eq).
    set (route := with_route (ss_id s0) (srv_id srv) (ss_stream_id s0)).
    pose proof (inv_msg _ w3 m _ (bodied route (bodied (with_correlation corr) g)) Hi3 Em3 eq_refl eq_refl) as Hi4.
    eexists (Some p), _, _, _, (set_queue_of q_read l s). split.
    { rewrite (run_bind _ _ w (Some p) w3).
      - rewrite (run_bind get_server _ w3 srv w3) by (unfold get_server; cbn; by rewrite Esrv).
        rewrite (run_bind _ _ _ _ _ (mod_msg_run m route _ w3 Em3)). done.
      - rewrite (run_bind _ _ _ _ _ Erm), (run_bind (as_response p) _ _ _ _ (mod_msg_run p _ gp w1 Egp)).
        rewrite (run_bind _ _ w2 _ w2 (get_msg_run p _ w2 Ep2)), (run_bind _ _ _ _ _ (mod_msg_run m _ g w2 Em2)). done. }
    split; [exact Hi4|]. split; [unfold sock_is; cbn; by rewrite lookup_insert_eq|]. split; [by apply like_set|].
    split; [cbn; by rewrite lookup_insert_eq|]. rewrite upd_ne by done. split; [exact Hr|].
    split; [done|]. split; [done|]. split; [done|]. split; [by apply later_same|].
    split; [intros q Hq; by rewrite set_queue_ne|]. split.
    { intros c Hc Hcr. cbn. rewrite !lookup_insert_ne; [done| |done|done]. intros ->. apply Hcr. by left. }
    split; [done|]. rewrite set_queue_eq. split; [done|]. split; [done|]. rewrite upd_eq. split; [done|].
    split; [|intros c Hc; by rewrite upd_ne]. exists (bodied io_message_as_response gp). split; [|cbn; lia].
    cbn. by rewrite !lookup_insert_ne, lookup_insert_eq by done.
  - set (route := with_route (ss_id s0) (srv_id srv) (ss_stream_id s0)).
    pose proof (inv_msg held w m g (bodied route g) Hi Eg eq_refl eq_refl) as Hi1.
    eexists None, _, held, (bodied route g), s. split.
    { rewrite (run_bind _ _ w None w) by done.
      rewrite (run_bind get_server _ w srv w) by (unfold get_server; by rewrite Esrv).
      rewrite (run_bind _ _ _ _ _ (mod_msg_run m route g w Eg)). done. }
    split; [exact Hi1|]. split; [exact E|]. split; [done|]. split; [cbn; by rewrite lookup_insert_eq|].
    split_and!; try done; [by apply later_same|]. intros c Hc _. cbn. by rewrite lookup_insert_ne.
Qed.

(** ** Delivery *)

Definition content_of w m : option (io_content bytes) := (fun g => content (ob_msg g)) <$> w_msgs w !! m.
(** What arrived of what was sent. *)
Definition delivered (l : list (Z * io_message bytes * prx_error)) : list (io_content bytes) :=
  omap (fun '(_, g, r) => if bool_decide (r = er_ok) then Some (content g) else None) l.
Definition sent (x : Z * io_message bytes * prx_error) : Prop := snd x = er_ok.

(** The first [n] received messages were delivered. *)
Record recv_done w s w' s' (n : nat) (l : list (Z * io_message bytes * prx_error)) : Prop := {
  r_like : like s s';
  r_later : later l w w';
  r_server : w_server w' = w_server w;
  r_recv : ss_queue s' q_recv = drop n (ss_queue s q_recv);
  r_read : ss_queue s' q_read = if ss_polled s then drop n (ss_queue s q_read) else ss_queue s q_read;
  r_queues : ss_queue s' q_send = ss_queue s q_send /\ ss_queue s' q_write = ss_queue s q_write;
  r_order : map Some (delivered l) = map (content_of w) (take n (ss_queue s q_recv));
  r_all : Forall sent l -> ss_stream s <> None ->
    ss_queue s' q_recv = [] \/ (ss_polled s = true /\ ss_queue s' q_read = []);
  r_others c : c ∉ ss_queue s q_recv -> c ∉ ss_queue s q_read -> w_msgs w' !! c = w_msgs w !! c;
}.

Lemma recv_stop w s : (ss_queue s q_recv = [] \/ (ss_polled s = true /\ ss_queue s q_read = [])) ->
  recv_done w s w s 0 [].
Proof.
  intros Hs. constructor; try done.
  - apply like_refl.
  - apply later_refl.
  - by destruct (ss_polled s).
Qed.

(** A message that could not be sent is back in its queue, and so is the poll request. *)
Lemma restore_run held held' w a s m po g : inv held w -> sock_is a s w -> w_msgs w !! m = Some g ->
  ob_refs g = held m -> 0 < held m ->
  match po with
  | Some p => p <> m /\ 0 < held p /\ (exists gp, w_msgs w !! p = Some gp /\ ob_refs gp = held p) /\
              (forall c, held' c = upd (upd held m (held m - 1)) p (held p - 1) c)
  | None => forall c, held' c = upd held m (held m - 1) c
  end -> exists w' s',
  (insert_head a q_recv m;; match po with Some p => insert_head a q_read p | None => mret tt end) w = Ok (tt, w') /\
  inv held' w' /\ sock_is a s' w' /\ like s s' /\ w_server w' = w_server w /\ w_msgs w' = w_msgs w /\
  later [] w w' /\ ss_queue s' q_recv = m :: ss_queue s q_recv /\
  ss_queue s' q_read = match po with Some p => p :: ss_queue s q_read | None => ss_queue s q_read end /\
  ss_queue s' q_send = ss_queue s q_send /\ ss_queue s' q_write = ss_queue s q_write.
Proof.
  intros Hi E Eg Hr Hh Hpo. pose proof (not_queued held w m g Hi Eg Hr) as Hno.
  pose proof (inv_enqueue held w a s q_recv [] m (ss_queue s q_recv) Hi E eq_refl Hh Hno) as Hi1. cbn [app] in Hi1.
  set (w1 := requeue w a s q_recv (m :: ss_queue s q_recv)) in *. set (s1 := set_queue_of q_recv (m :: ss_queue s q_recv) s).
  assert (E1 : sock_is a s1 w1) by apply requeue_sock.
  rewrite (run_bind _ _ _ _ _ (insert_head_run w a s q_recv m E)). fold w1. destruct po as [p|].
  - destruct Hpo as (Hpm & Hhp & (gp & Egp & Hrp) & Hx). rewrite (insert_head_run w1 a s1 q_read p E1).
    pose proof (inv_enqueue _ w1 a s1 q_read [] p (ss_queue s1 q_read) Hi1 E1 eq_refl) as Hi2. rewrite upd_ne in Hi2 by done.
    specialize (Hi2 Hhp (not_queued _ w1 p gp Hi1 Egp ltac:(by rewrite upd_ne))).
    eexists _, (set_queue_of q_read (p :: ss_queue s1 q_read) s1). split; [done|].
    split; [eapply inv_ext; [intros c; symmetry; apply Hx|exact Hi2]|]. split; [apply requeue_sock|].
    split; [do 2 apply like_set; apply like_refl|]. split_and!; try done. by apply later_same.
  - eexists _, s1. split; [done|]. split; [eapply inv_ext; [intros c; symmetry; apply Hpo|exact Hi1]|].
    split; [done|]. split; [apply like_set; apply like_refl|]. split_and!; try done. by apply later_same.
Qed.

(** Both references are given back after a message was sent. *)
Lemma finish_run held held' w m po : inv held w -> 0 < held m ->
  match po with
  | Some p => p <> m /\ 0 < held p /\ (forall c, held' c = upd (upd held m (held m - 1)) p (held p - 1) c)
  | None => forall c, held' c = upd held m (held m - 1) c
  end -> exists w1 w',
  io_message_release env m w = Ok (tt, w1) /\
  match po with Some p => io_message_release env p | None => mret tt end w1 = Ok (tt, w') /\
  inv held' w' /\ w_server w' = w_server w /\ w_socks w' = w_socks w /\ later [] w w' /\
  (forall c, c <> m -> Some c <> po -> w_msgs w' !! c = w_msgs w !! c).
Proof.
  intros Hi Hh Hpo. destruct (release_run held w m Hi Hh) as (w1 & E1 & Hi1 & A1 & A2 & A3 & A4 & A5). exists w1.
  destruct po as [p|].
  - destruct Hpo as (Hpm & Hhp & Hx). destruct (release_run _ w1 p Hi1) as (w2 & E2 & Hi2 & B1 & B2 & B3 & B4 & B5);
      [by rewrite upd_ne|]. rewrite upd_ne in Hi2 by done. exists w2. split; [done|]. split; [done|].
    split; [eapply inv_ext; [intros c; symmetry; apply Hx|exact Hi2]|]. split; [congruence|]. split; [congruence|].
    split; [exact (later_trans [] [] _ _ _ A4 B4)|]. intros c Hc Hcp. rewrite B5, A5; congruence.
  - exists w1. split; [done|]. split; [done|]. split; [eapply inv_ext; [intros c; symmetry; apply Hpo|exact Hi1]|].
    split_and!; try done. intros c Hc _. by apply A5.
Qed.

(** The first received message [m] was taken out and sent with result [r], and a poll
    request [po] with it if the socket is polled. *)
Record taken held w s m l (po : option Z) held2 (g2 : message) s2 (r : prx_error) w3 : Prop := {
  t_like : like s s2;
  t_msg : w_msgs w3 !! m = Some g2 /\ ob_refs g2 = held2 m;
  t_held : held2 m = held m + 1;
  t_content : Some (content (ob_msg g2)) = content_of w m;
  t_server : w_server w3 = w_server w;
  t_later : later (match ss_stream s with Some k => [(k, ob_msg g2, r)] | None => [] end) w w3;
  t_none : ss_stream s = None -> r <> er_ok;
  t_recv : ss_queue s2 q_recv = l;
  t_queues : ss_queue s2 q_send = ss_queue s q_send /\ ss_queue s2 q_write = ss_queue s q_write;
  t_others c : c <> m -> c ∉ ss_queue s q_read -> w_msgs w3 !! c = w_msgs w !! c;
  t_polled : ss_polled s = match po with Some _ => true | None => false end;
  t_read : ss_queue s q_read = match po with Some p => p :: ss_queue s2 q_read | None => ss_queue s2 q_read end;
  t_poll : match po with
           | Some p => p <> m /\ held2 p = held p + 1 /\ (exists gp, w_msgs w3 !! p = Some gp /\ ob_refs gp = held2 p) /\
                       (forall c, c <> p -> c <> m -> held2 c = held c)
           | None => forall c, c <> m -> held2 c = held c
           end;
}.

(** One message: up to sending it. *)
Lemma recv_step held w a s m l : inv held w -> sock_is a s w -> ss_queue s q_recv = m :: l ->
  (ss_polled s = true -> ss_queue s q_read <> []) ->
  exists po held2 g2 s2 r w3,
    (message ← remove_head a q_recv;
     match message with
     | Some message =>
         poll_message ← deliver_prepare a s message;
         result ← io_connection_send env (ss_stream s) message;
         mret (message, poll_message, result)
     | None => ub
     end) w = Ok ((m, po, r), w3) /\ inv held2 w3 /\ sock_is a s2 w3 /\ taken held w s m l po held2 g2 s2 r w3.
Proof.
  intros Hi E Eq Hp. destruct (dequeue_run held w a s q_recv m l Hi E Eq) as (g & Erm & Hi1 & Eg & Hr).
  set (w1 := requeue w a s q_recv l) in *.
  destruct (prepare_run _ w1 a s (set_queue_of q_recv l s) m g Hi1 (requeue_sock _ _ _ _ _) (like_set _ _ _ _ (like_refl s)) Eg)
    as (po & w2 & held2 & g2 & s2 & Epr & Hi2 & E2 & Hl2 & Eg2 & Hr2 & Hh2 & Ec & Es2 & Hla & Hq & Hoth & Hpo).
  { by rewrite upd_eq. }
  { rewrite upd_eq. destruct (v_held _ _ Hi m). lia. }
  { intros Hpl. rewrite set_queue_ne by done. by apply Hp. }
  destruct (send_run w2 (ss_stream s) m g2 Eg2) as (r & w3 & Esd & A1 & A2 & A3 & A4 & A5 & A6 & A7).
  exists po, held2, g2, s2, r, w3. split.
  { rewrite (run_bind _ _ _ _ _ Erm), (run_bind _ _ _ _ _ Epr), (run_bind _ _ _ _ _ Esd). done. }
  rewrite upd_eq in Hh2. split; [by apply (inv_mem held2 w2)|]. split; [unfold sock_is; by rewrite A2|].
  rewrite set_queue_ne in Hpo by done. split; try done.
  - by rewrite A3.
  - unfold content_of. by rewrite Eg, Ec.
  - by rewrite A1, Es2.
  - change (match ss_stream s with Some k => [(k, ob_msg g2, r)] | None => [] end)
      with ([] ++ match ss_stream s with Some k => [(k, ob_msg g2, r)] | None => [] end).
    eapply later_trans; [|exact A6]. eapply later_trans with (l1 := []); [by apply later_same|exact Hla].
  - rewrite Hq by done. apply set_queue_eq.
  - rewrite !Hq by done. split; by apply set_queue_ne.
  - intros c Hc Hcr. rewrite A3. apply Hoth; [done|]. by rewrite set_queue_ne.
  - by destruct po; destruct Hpo.
  - destruct po; [by destruct Hpo as (_ & ? & _)|by destruct Hpo as (_ & -> & _)].
  - destruct po as [p|].
    + destruct Hpo as (_ & _ & P3 & P4 & P5 & P6). rewrite upd_ne in P4 by done. rewrite A3. split_and!; try done.
      intros c H1 H2. rewrite P6 by done. by apply upd_ne.
    + destruct Hpo as (_ & _ & P3). intros c Hc. rewrite P3. by apply upd_ne.
Qed.

Lemma deliver_unfold fuel w a s m l : sock_is a s w -> ss_queue s q_recv = m :: l ->
  (ss_polled s = true -> ss_queue s q_read <> []) ->
  deliver_recv env (S fuel) a w =
  ('(message, poll, result) ←
     (message ← remove_head a q_recv;
      match message with
      | Some message =>
          poll_message ← deliver_prepare a s message;
          result ← io_connection_send env (ss_stream s) message;
          mret (message, poll_message, result)
      | None => ub
      end);
   if bool_decide (result <> er_ok) then
     insert_head a q_recv message;; match poll with Some p => insert_head a q_read p | None => mret tt end
   else
     io_message_release env message;;
     match poll with Some p => io_message_release env p | None => mret tt end;;
     deliver_recv env fuel a) w.
Proof.
  intros E Eq Hp. cbn [deliver_recv]. rewrite (run_bind _ _ _ _ _ (get_sock_run a s w E)).
  assert (Hb : ss_polled s && bool_decide (ss_queue s q_read = []) = false).
  { destruct (ss_polled s); [|done]. cbn. apply bool_decide_eq_false_2. by apply Hp. }
  rewrite Hb. pose proof (remove_head_run w a s q_recv E) as Erm. rewrite Eq in Erm.
  rewrite (run_bind _ _ _ _ _ Erm), run_assoc, (run_bind _ _ _ _ _ Erm), run_assoc.
  apply run_ext. intros po w2. by rewrite run_assoc.
Qed.

(** What is held once the message and the poll request are given back. *)
Lemma taken_held held w s m l po held2 g2 s2 r w3 : inv held w -> taken held w s m l po held2 g2 s2 r w3 ->
  0 < held2 m /\
  match po with
  | Some p => p <> m /\ 0 < held2 p /\ (exists gp, w_msgs w3 !! p = Some gp /\ ob_refs gp = held2 p) /\
              (forall c, held c = upd (upd held2 m (held2 m - 1)) p (held2 p - 1) c)
  | None => forall c, held c = upd held2 m (held2 m - 1) c
  end.
Proof.
  intros Hi K. pose proof (v_held _ _ Hi m) as [Hm0 _]. pose proof (t_held _ _ _ _ _ _ _ _ _ _ _ K) as Hh. split; [lia|].
  pose proof (t_poll _ _ _ _ _ _ _ _ _ _ _ K) as Hpo. destruct po as [p|].
  - destruct Hpo as (P3 & P4 & P5 & P6). pose proof (v_held _ _ Hi p) as [Hp0 _].
    split; [done|]. split; [lia|]. split; [done|]. intros c. unfold upd. repeat case_decide; subst; try lia. by rewrite P6.
  - intros c. unfold upd. case_decide; subst; [lia|]. by rewrite Hpo.
Qed.

(** Sending failed, and everything was put back. *)
Lemma recv_failed held w s m l po held2 g2 s2 r w3 w4 s4 : taken held w s m l po held2 g2 s2 r w3 -> r <> er_ok ->
  ss_queue s q_recv = m :: l -> like s2 s4 -> w_server w4 = w_server w3 -> later [] w3 w4 ->
  ss_queue s4 q_recv = m :: ss_queue s2 q_recv ->
  ss_queue s4 q_read = match po with Some p => p :: ss_queue s2 q_read | None => ss_queue s2 q_read end ->
  ss_queue s4 q_send = ss_queue s2 q_send -> ss_queue s4 q_write = ss_queue s2 q_write -> w_msgs w4 = w_msgs w3 ->
  recv_done w s w4 s4 0 (match ss_stream s with Some k => [(k, ob_msg g2, r)] | None => [] end).
Proof.
  intros [K1 K2 K3 K4 K5 K6 K7 K8 [K9 K10] K11 K12 K13 K14] Hr Eq Hl4 R1 R3 R4 R5 R6 R7 R2. constructor.
  - by eapply like_trans.
  - rewrite <- (app_nil_r (match ss_stream s with Some k => [(k, ob_msg g2, r)] | None => [] end)). by eapply later_trans.
  - congruence.
  - by rewrite R4, K8, Eq.
  - rewrite R5, <- K13. by destruct (ss_polled s).
  - split; congruence.
  - destruct (ss_stream s); [|done]. cbn. by rewrite bool_decide_eq_false_2.
  - destruct (ss_stream s); [|done]. intros Hs. inversion Hs as [|? ? Hs1]; subst. by unfold sent in Hs1.
  - intros c Hc Hcr. rewrite R2. apply K11; [|done]. intros ->. apply Hc. rewrite Eq. by left.
Qed.

(** Sending succeeded, and the rest was delivered from [w5] on. *)
Lemma recv_sent held w a s m l po held2 g2 s2 w3 w5 w6 s6 n l' : inv held w -> sock_is a s w -> ss_queue s q_recv = m :: l ->
  taken held w s m l po held2 g2 s2 er_ok w3 -> w_server w5 = w_server w3 -> later [] w3 w5 ->
  (forall c, c <> m -> Some c <> po -> w_msgs w5 !! c = w_msgs w3 !! c) -> recv_done w5 s2 w6 s6 n l' ->
  recv_done w s w6 s6 (S n) (match ss_stream s with Some k => [(k, ob_msg g2, er_ok)] | None => [] end ++ l').
Proof.
  intros Hi E Eq [K1 K2 K3 K4 K5 K6 K7 K8 [K9 K10] K11 K12 K13 K14] F1 F3 F4 [D1 D2 D3 D4 D5 D6 D7 D8 D9].
  assert (Epol : ss_polled s2 = ss_polled s) by (by rewrite K1). assert (Estr : ss_stream s2 = ss_stream s) by (by rewrite K1).
  pose proof (v_nodup _ _ Hi a s q_recv E) as Hn. rewrite Eq in Hn. apply NoDup_cons in Hn as [Hn _].
  assert (Hsame : forall c, c ∉ m :: ss_queue s q_read -> w_msgs w5 !! c = w_msgs w !! c).
  { intros c [Hcm Hc]%not_elem_of_cons. rewrite F4; [by apply K11|done|]. intros <-. apply Hc. rewrite K13. by left. }
  constructor.
  - by eapply like_trans.
  - eapply later_trans; [|exact D2]. rewrite <- (app_nil_r (match ss_stream s with Some k => _ | None => [] end)).
    by eapply later_trans.
  - congruence.
  - by rewrite D4, K8, Eq.
  - rewrite D5, Epol, K12, K13. by destruct po.
  - split; [rewrite (proj1 D6)|rewrite (proj2 D6)]; congruence.
  - destruct (ss_stream s) as [k|]; [|by specialize (K7 eq_refl)]. rewrite Eq. cbn.
    rewrite bool_decide_eq_true_2 by done. cbn. f_equal; [done|].
    transitivity (map (content_of w5) (take n (ss_queue s2 q_recv))); [exact D7|]. rewrite K8. apply map_ext_in. intros c Hc.
    unfold content_of. f_equal. apply Hsame. apply list_elem_of_In, elem_of_take in Hc as (j & Hj & _).
    assert (Hcl : c ∈ l) by (apply list_elem_of_lookup; eauto). apply not_elem_of_cons. split; [by intros ->|]. intros Hcr.
    destruct (v_once _ _ Hi c a q_recv a q_read) as [_ ?]; [exists s|exists s|done]; (split; [done|]); [|done].
    rewrite Eq. by right.
  - intros Hs Hst. rewrite Epol, Estr in D8. destruct (ss_stream s) as [k|]; [|done].
    inversion Hs as [|? ? _ Hs2]; subst. by apply D8.
  - intros c Hc Hcr. rewrite Eq in Hc. apply not_elem_of_cons in Hc as [Hcm Hcl]. rewrite D9.
    + apply Hsame. by apply not_elem_of_cons.
    + by rewrite K8.
    + intros Hcr2. apply Hcr. rewrite K13. destruct po; [by right|done].
Qed.

(** Nothing is left to deliver, or no poll request to answer. *)
Lemma deliver_stop fuel w a s : sock_is a s w -> (ss_queue s q_recv = [] \/ (ss_polled s = true /\ ss_queue s q_read = [])) ->
  deliver_recv env (S fuel) a w = Ok (tt, w).
Proof.
  intros E Hs. cbn [deliver_recv]. rewrite (run_bind _ _ _ _ _ (get_sock_run a s w E)).
  destruct Hs as [Hq|[-> ->]]; [|by rewrite bool_decide_eq_true_2].
  destruct (ss_polled s && bool_decide (ss_queue s q_read = [])); [done|].
  pose proof (remove_head_run w a s q_recv E) as Erm. rewrite Hq in Erm. by rewrite (run_bind _ _ _ _ _ Erm).
Qed.

Lemma deliver_recv_run fuel : forall held w a s, inv held w -> sock_is a s w ->
  (length (ss_queue s q_recv) < fuel)%nat -> exists w' s' n l,
  deliver_recv env fuel a w = Ok (tt, w') /\ inv held w' /\ sock_is a s' w' /\ recv_done w s w' s' n l.
Proof.
  induction fuel as [|fuel IH]; intros held w a s Hi E Hlen; [lia|].
  destruct (decide (ss_queue s q_recv = [] \/ (ss_polled s = true /\ ss_queue s q_read = []))) as [Hs|Hs].
  { exists w, s, O, []. split; [by apply (deliver_stop fuel w a s)|]. split; [done|]. split; [done|]. by apply recv_stop. }
  destruct (ss_queue s q_recv) as [|m l] eqn:Eq; [tauto|].
  assert (Hp : ss_polled s = true -> ss_queue s q_read <> []) by tauto.
  rewrite (deliver_unfold fuel w a s m l E Eq Hp).
  destruct (recv_step held w a s m l Hi E Eq Hp) as (po & held2 & g2 & s2 & r & w3 & Est & Hi3 & E3 & K).
  rewrite (run_bind _ _ _ _ _ Est). destruct (taken_held _ _ _ _ _ _ _ _ _ _ _ Hi K) as [Hm Hhold].
  destruct (t_msg _ _ _ _ _ _ _ _ _ _ _ K) as [Eg3 Hr3]. case_bool_decide as Hres.
  - destruct (restore_run held2 held w3 a s2 m po g2 Hi3 E3 Eg3 Hr3 ltac:(lia) Hhold)
      as (w4 & s4 & E4 & Hi4 & Es4 & Hl4 & R1 & R2 & R3 & R4 & R5 & R6 & R7).
    do 4 eexists. split; [exact E4|]. split; [done|]. split; [done|]. by eapply recv_failed.
  - assert (r = er_ok) as -> by (destruct (decide (r = er_ok)); [done|tauto]).
    destruct (finish_run held2 held w3 m po Hi3 ltac:(lia)) as (w4 & w5 & E4 & E5 & Hi5 & F1 & F2 & F3 & F4).
    { destruct po as [p|]; [|exact Hhold]. destruct Hhold as (? & ? & _ & ?). done. }
    rewrite (run_bind _ _ _ _ _ E4), (run_bind _ _ _ _ _ E5).
    destruct (IH held w5 a s2 Hi5) as (w6 & s6 & n & l' & E6 & Hi6 & Es6 & D); [unfold sock_is; by rewrite F2| |].
    { rewrite (t_recv _ _ _ _ _ _ _ _ _ _ _ K). cbn in Hlen. lia. }
    do 4 eexists. split; [exact E6|]. split; [done|]. split; [done|]. by eapply recv_sent.
Qed.

Lemma deliver_write_run fuel : forall held w a s, inv held w -> sock_is a s w ->
  (length (ss_queue s q_write) < fuel)%nat -> exists w' s' n l,
  deliver_write env fuel a w = Ok (tt, w') /\ inv held w' /\ sock_is a s' w' /\ like s s' /\ later l w w' /\
  w_server w' = w_server w /\ ss_queue s' q_write = drop n (ss_queue s q_write) /\
  (forall q, q <> q_write -> ss_queue s' q = ss_queue s q) /\
  map Some (delivered l) = map (content_of w) (take n (ss_queue s q_write)) /\
  (Forall sent l -> ss_stream s <> None -> ss_queue s' q_write = []).
Proof.
  induction fuel as [|fuel IH]; intros held w a s Hi E Hlen; [lia|]. cbn [deliver_write].
  destruct (ss_queue s q_write) as [|m l] eqn:Eq.
  { pose proof (remove_head_run w a s q_write E) as Erm. rewrite Eq in Erm. rewrite (run_bind _ _ _ _ _ Erm).
    exists w, s, O, []. split_and!; try done; [apply like_refl|apply later_refl]. }
  destruct (dequeue_run held w a s q_write m l Hi E Eq) as (g & Erm & Hi1 & Eg & Hr).
  rewrite (run_bind _ _ _ _ _ Erm). set (w1 := requeue w a s q_write l) in *. set (s1 := set_queue_of q_write l s).
  assert (E1 : sock_is a s1 w1) by apply requeue_sock. pose proof (v_held _ _ Hi m) as [Hm0 _].
  rewrite (run_bind _ _ _ _ _ (get_sock_run a s1 w1 E1)).
  destruct (send_run w1 (ss_stream s1) m g Eg) as (r & w2 & Esd & A1 & A2 & A3 & A4 & A5 & A6 & A7).
  rewrite (run_bind _ _ _ _ _ Esd). change (ss_stream s1) with (ss_stream s) in *.
  pose proof (inv_mem _ w1 w2 A1 A2 A3 A4 A5 Hi1) as Hi2. assert (E2 : sock_is a s1 w2) by (unfold sock_is; by rewrite A2).
  case_bool_decide as Hres.
  - rewrite (insert_head_run w2 a s1 q_write m E2). change (ss_queue s1 q_write) with (if decide (q_write = q_write) then l else []).
    rewrite decide_True by done. eexists _, (set_queue_of q_write (m :: l) s1), O, _. split; [done|].
    split.
    { eapply inv_ext; [|apply (inv_enqueue _ w2 a s1 q_write [] m l Hi2 E2); [done|rewrite upd_eq; lia|]].
      - intros c. cbn [app]. unfold upd. repeat case_decide; subst; lia.
      - eapply (not_queued _ w2 m g Hi2); [by rewrite A3|by rewrite upd_eq]. }
    split; [apply requeue_sock|]. split; [do 2 apply like_set; apply like_refl|]. split.
    { eapply later_eq; [|eapply (later_trans [] _ w w1); [by apply later_same|exact A6]]. done. }
    split; [done|]. split; [done|]. split; [intros q Hq; unfold s1; by rewrite !set_queue_ne|]. split.
    { destruct (ss_stream s); [|done]. cbn. by rewrite bool_decide_eq_false_2. }
    destruct (ss_stream s); [|done]. intros Hs. inversion Hs as [|? ? Hs1]; subst. by unfold sent in Hs1.
  - assert (r = er_ok) as -> by (destruct (decide (r = er_ok)); [done|tauto]).
    destruct (release_run _ w2 m Hi2) as (w3 & E3 & Hi3 & B1 & B2 & B3 & B4 & B5); [rewrite upd_eq; lia|].
    rewrite (run_bind _ _ _ _ _ E3).
    assert (Hi3' : inv held w3).
    { eapply inv_ext; [|exact Hi3]. intros c. unfold upd. repeat case_decide; subst; lia. }
    destruct (IH held w3 a s1 Hi3') as (w4 & s4 & n & l' & E4 & Hi4 & Es4 & Hl4 & Hla4 & C1 & C2 & C3 & C4 & C5).
    { unfold sock_is. by rewrite B2. }
    { unfold s1. rewrite set_queue_eq. cbn in Hlen. lia. }
    change (ss_stream s1) with (ss_stream s) in C5. unfold s1 in C2, C3, C4. rewrite set_queue_eq in C2, C4.
    exists w4, s4, (S n), (match ss_stream s with Some k => [(k, ob_msg g, er_ok)] | None => [] end ++ l').
    split; [exact E4|]. split; [done|]. split; [done|]. split; [eapply like_trans; [|exact Hl4]; apply like_set, like_refl|].
    split.
    { eapply later_trans; [|exact Hla4]. rewrite <- (app_nil_r (match ss_stream s with Some k => _ | None => [] end)).
      eapply later_trans; [|exact B4]. eapply (later_trans [] _ w w1); [by apply later_same|exact A6]. }
    split; [by rewrite C1, B1, A1|]. split; [done|]. split; [intros q Hq; rewrite C3 by done; by apply set_queue_ne|]. split.
    + destruct (ss_stream s) as [k|]; [|by specialize (A7 eq_refl)]. cbn. rewrite bool_decide_eq_true_2 by done. cbn.
      unfold content_of at 1. rewrite Eg. f_equal. transitivity (map (content_of w3) (take n l)); [exact C4|].
      apply map_ext_in. intros c Hc. unfold content_of. f_equal. apply list_elem_of_In, elem_of_take in Hc as (j & Hj & _).
      assert (Hcl : c ∈ l) by (apply list_elem_of_lookup; eauto).
      pose proof (v_nodup _ _ Hi a s q_write E) as Hn. rewrite Eq in Hn. apply NoDup_cons in Hn as [Hn _].
      rewrite B5, A3; [done|]. by intros ->.
    + intros Hs Hst. destruct (ss_stream s) as [k|]; [|done]. inversion Hs as [|? ? _ Hs2]; subst. by apply C5.
Qed.

Lemma deliver_results_run held w a s : inv held w -> w_socks w !! a = Some s -> exists w' s' n k l,
  prx_server_socket_deliver_results env a w = Ok (tt, w') /\ inv held w' /\ w_socks w' !! a = Some s' /\ like s s' /\ later l w w' /\
  ss_queue s' q_recv = drop n (ss_queue s q_recv) /\ ss_queue s' q_write = drop k (ss_queue s q_write) /\
  ss_queue s' q_send = ss_queue s q_send /\
  ss_queue s' q_read = (if ss_polled s then drop n (ss_queue s q_read) else ss_queue s q_read) /\
  map Some (delivered l) = map (content_of w) (take n (ss_queue s q_recv) ++ take k (ss_queue s q_write)) /\
  (Forall sent l -> ss_stream s <> None -> ss_queue s' q_write = [] /\
     (ss_queue s' q_recv = [] \/ (ss_polled s = true /\ ss_queue s' q_read = []))).
Proof.
  intros Hi E. unfold prx_server_socket_deliver_results. rewrite (run_bind _ _ _ _ _ (get_sock_run a s w E)).
  destruct (deliver_recv_run (S (length (ss_queue s q_recv))) held w a s Hi E) as (w1 & s1 & n & l1 & E1 & Hi1 & Es1 & D); [lia|].
  destruct D as [D1 D2 D3 D4 D5 [D6 D6'] D7 D8 D9].
  rewrite (run_bind _ _ _ _ _ E1), (run_bind _ _ _ _ _ (get_sock_run a s1 w1 Es1)).
  destruct (deliver_write_run (S (length (ss_queue s1 q_write))) held w1 a s1 Hi1 Es1)
    as (w2 & s2 & k & l2 & E2 & Hi2 & Es2 & Hl2 & Hla2 & C1 & C2 & C3 & C4 & C5); [lia|].
  assert (Estr : ss_stream s1 = ss_stream s) by (rewrite D1; done).
  exists w2, s2, n, k, (l1 ++ l2). split; [exact E2|]. split; [done|]. split; [exact Es2|]. split; [by eapply like_trans|]. split; [by eapply later_trans|].
  split; [by rewrite C3|]. split; [by rewrite C2, D6'|]. split; [by rewrite C3|]. split; [by rewrite C3|]. split.
  - unfold delivered in *. rewrite omap_app, !map_app, D7, C4, D6'. f_equal. apply map_ext_in. intros c Hc.
    unfold content_of. f_equal. apply list_elem_of_In, elem_of_take in Hc as (j & Hj & _).
    assert (Hcw : queued (w_socks w) c a q_write) by (exists s; split; [done|]; apply list_elem_of_lookup; eauto).
    apply D9; intros Hc; [destruct (v_once _ _ Hi c a q_write a q_recv Hcw)|destruct (v_once _ _ Hi c a q_write a q_read Hcw)];
      try done; by exists s.
  - intros Hs Hst. apply Forall_app in Hs as [Hs1 Hs2]. split; [apply C5; [done|by rewrite Estr]|].
    rewrite !C3 by done. by apply D8.
Qed.

(** C20: Delivering results sends the messages of the receive queue and then those of the
    response queue, both from the front and in order; what was not sent stays in its
    queue, every poll request answers one message, and when nothing fails only
    messages without a poll request are left.  No freed memory is used. *)
Theorem results_in_order held w a s : inv held w -> w_socks w !! a = Some s -> exists w' s' n k l,
  prx_server_socket_deliver_results env a w = Ok (tt, w') /\ inv held w' /\ w_socks w' !! a = Some s' /\ later l w w' /\
  ss_queue s' q_recv = drop n (ss_queue s q_recv) /\ ss_queue s' q_write = drop k (ss_queue s q_write) /\
  ss_queue s' q_send = ss_queue s q_send /\
  ss_queue s' q_read = (if ss_polled s then drop n (ss_queue s q_read) else ss_queue s q_read) /\
  map Some (delivered l) = map (content_of w) (take n (ss_queue s q_recv) ++ take k (ss_queue s q_write)) /\
  (Forall sent l -> ss_stream s <> None -> ss_queue s' q_write = [] /\
     (ss_queue s' q_recv = [] \/ (ss_polled s = true /\ ss_queue s' q_read = []))).
Proof.
  intros Hi E. destruct (deliver_results_run held w a s Hi E) as (w' & s' & n & k & l & H1 & H2 & H3 & _ & Hrest).
  by exists w', s', n, k, l.
Qed.

(** ** The operations of the data path *)

Lemma held_none held w m : inv held w -> w_msgs w !! m = None -> held m = 0.
Proof.
  intros Hi Em. destruct (v_held _ _ Hi m) as [H0 Hs]. destruct (decide (held m = 0)); [done|].
  destruct Hs as [? ?]; [lia|congruence].
Qed.

(** A new message, held once. *)
Lemma inv_new held w g : inv held w -> ob_refs g = 1 -> (forall p, ob_pool g = Some p -> is_Some (w_pools w !! p)) ->
  inv (upd held (w_next w) 1) (mk_world (w_server w) (w_socks w) (<[w_next w := g]> (w_msgs w)) (w_pools w)
    (w_next w + 1) (w_trace w)).
Proof.
  intros Hi Hr Hp. pose proof Hi as [V1 V2 V3 V4 V5 V6 V7 V8 V9 V10]. set (m := w_next w).
  destruct (V9 m ltac:(lia)) as (Em & _ & _).
  assert (Hno : forall a q, ~ queued (w_socks w) m a q) by (intros a q Hq; destruct (V1 m a q Hq) as (? & ? & _); congruence).
  constructor; cbn; fold m; try done.
  - intros c a q Hc. assert (Hne : c <> m) by (intros ->; by apply Hno in Hc). rewrite lookup_insert_ne, upd_ne by done.
    by apply (V1 c a q).
  - intros c x. destruct (decide (m = c)) as [<-|Hne].
    + rewrite lookup_insert_eq, upd_eq. intros [= <-]. lia.
    + rewrite lookup_insert_ne, upd_ne by done. apply V4.
  - intros c. destruct (decide (m = c)) as [<-|Hne].
    + rewrite lookup_insert_eq, upd_eq. split; [lia|eauto].
    + rewrite lookup_insert_ne, upd_ne by done. apply V5.
  - intros c x p. destruct (decide (m = c)) as [<-|Hne].
    + rewrite lookup_insert_eq. intros [= <-]. apply Hp.
    + rewrite lookup_insert_ne by done. apply V6.
  - intros x Hx. destruct (V9 x ltac:(lia)) as (F1 & F2 & F3). rewrite lookup_insert_ne by lia. done.
Qed.

Lemma create_run held w (pool : option Z) t src tgt : inv held w ->
  (forall p, pool = Some p -> is_Some (w_pools w !! p)) -> exists r w',
  io_message_create env pool t src tgt w = Ok (r, w') /\ w_socks w' = w_socks w /\ w_server w' = w_server w /\
  match r with
  | inl m => held m = 0 /\ inv (upd held m 1) w' /\ exists g, w_msgs w' !! m = Some g /\ ob_refs g = 1
  | inr _ => inv held w'
  end.
Proof.
  intros Hi Hp. unfold io_message_create. destruct pool as [p|]; [|by do 2 eexists].
  destruct (Hp p eq_refl) as [x Ex]. rewrite (run_bind (get_pool p) _ w x w) by (unfold get_pool; by rewrite Ex).
  case_bool_decide; [by do 2 eexists|].
  set (sig := bool_decide (mp_free x - 1 <= RECV_POOL_LWM) && negb (mp_empty x)).
  set (x' := mk_mpool (mp_owner x) (mp_size x) (mp_free x - 1) (mp_empty x || sig)).
  pose proof (inv_pools held w p x x' Hi Ex eq_refl) as Hi1. rewrite (run_bind (put_pool p (Some x')) _ w tt _ eq_refl).
  set (w1 := mk_world (w_server w) _ _ _ _ _) in *.
  assert (Hflow : exists w2, (if sig then prx_server_socket_flow_control env (mp_owner x) true else mret tt) w1 = Ok (tt, w2) /\
    silent w1 w2).
  { destruct sig; [apply flow_control_run; by apply (v_owner _ _ Hi p)|]. exists w1. split; [done|].
    split_and!; try done. by apply later_same. }
  destruct Hflow as (w2 & E2 & S2). rewrite (run_bind _ _ _ _ _ E2). pose proof (silent_inv held _ _ S2 Hi1) as Hi2.
  destruct S2 as (A1 & A2 & A3 & A4 & A5 & _). set (g := mk_obj 1 (Some p) None (new_message t src tgt)).
  rewrite (run_bind (alloc_msg g) _ w2 _ _ eq_refl). do 2 eexists. split; [done|]. split; [exact A2|]. split; [exact A1|].
  split; [apply (held_none held w2); [done|]; by apply (v_fresh _ _ Hi2)|]. split.
  - apply inv_new; [done|done|]. intros p' [= <-]. rewrite A4. cbn. rewrite lookup_partial_alter_eq. eauto.
  - exists g. split; [cbn; by rewrite lookup_insert_eq|done].
Qed.

Lemma begin_receive_run held w a s : inv held w -> sock_is a s w -> exists o w' held',
  prx_server_socket_on_begin_receive env a w = Ok (o, w') /\ inv held' w' /\ w_socks w' = w_socks w /\
  match o with
  | Some m => held m = 0 /\ (forall c, held' c = upd held m 1 c) /\ exists g, w_msgs w' !! m = Some g /\ ob_refs g = 1
  | None => forall c, held' c = held c \/ (held c = 0 /\ held' c = 1)
  end.
Proof.
  intros Hi E. unfold prx_server_socket_on_begin_receive. rewrite (run_bind _ _ _ _ _ (get_sock_run a s w E)).
  destruct (create_run held w (ss_message_pool s) io_message_type_data (ss_id s) (ss_stream_id s) Hi) as (r & w1 & E1 & A1 & A2 & Hr).
  { intros p Ep. by apply (v_mpool _ _ Hi a s). }
  rewrite (run_bind _ _ _ _ _ E1). destruct r as [m|e]; [|exists None, w1, held; split_and!; try done; by left].
  destruct Hr as (H0 & Hi1 & g & Eg & Hg).
  assert (Hok : exists (b : bool) w2, (if bool_decide (ss_buffer_size s = 0) then mret true else do_call env c_mem_alloc) w1 = Ok (b, w2) /\
    inv (upd held m 1) w2 /\ w_socks w2 = w_socks w1 /\ w_msgs w2 = w_msgs w1).
  { case_bool_decide; [by do 2 eexists|]. do 2 eexists. split; [done|]. split; [|done]. by apply traced_inv. }
  destruct Hok as (b & w2 & E2 & Hi2 & B1 & B2). rewrite (run_bind _ _ _ _ _ E2). destruct b.
  - assert (Eg2 : w_msgs w2 !! m = Some g) by by rewrite B2. rewrite (run_bind _ _ _ _ _ (mod_msg_run m _ g w2 Eg2)).
    eexists (Some m), _, (upd held m 1). split; [done|]. split; [by apply (inv_msg _ w2 m g)|]. split; [by cbn; rewrite B1|].
    split; [done|]. split; [done|]. eexists. split; [cbn; by rewrite lookup_insert_eq|done].
  - exists None, w2, (upd held m 1). split; [done|]. split; [done|]. split; [by rewrite B1|]. intros c.
    destruct (decide (c = m)) as [->|Hne]; [right; by rewrite upd_eq|left; by rewrite upd_ne].
Qed.

(** A held message is put at the end of a queue. *)
Lemma append_run held w a s q m g : inv held w -> sock_is a s w -> w_msgs w !! m = Some g -> ob_refs g = held m -> 0 < held m ->
  exists w', insert_tail a q m w = Ok (tt, w') /\ inv (upd held m (held m - 1)) w' /\
    sock_is a (set_queue_of q (ss_queue s q ++ [m]) s) w' /\ w_msgs w' = w_msgs w.
Proof.
  intros Hi E Eg Hr Hh. rewrite (insert_tail_run w a s q m E). eexists. split; [done|]. split; [|split; [apply requeue_sock|done]].
  apply (inv_enqueue held w a s q (ss_queue s q) m [] Hi E); [by rewrite app_nil_r|done|by eapply not_queued].
Qed.

Lemma end_receive_run held w a s data size addr r m g : inv held w -> sock_is a s w -> w_msgs w !! m = Some g ->
  ob_refs g = held m -> 0 < held m -> exists w',
  prx_server_socket_on_end_receive env a data size addr r m w = Ok (tt, w') /\ inv (upd held m (held m - 1)) w'.
Proof.
  intros Hi E Eg Hr Hh. unfold prx_server_socket_on_end_receive. case_bool_decide.
  { destruct (release_run held w m Hi Hh) as (w' & E' & Hi' & _). eauto. }
  rewrite (run_bind _ _ _ _ _ (get_msg_run m g w Eg)). cbv zeta.
  set (f1 := with_content _). rewrite (run_bind _ _ _ _ _ (mod_msg_run m f1 g w Eg)).
  pose proof (inv_msg held w m g (bodied f1 g) Hi Eg eq_refl eq_refl) as Hi1. set (w1 := mk_world (w_server w) _ _ _ _ _) in *.
  assert (Eg1 : w_msgs w1 !! m = Some (bodied f1 g)) by (cbn; by rewrite lookup_insert_eq).
  set (f2 := with_error r). rewrite (run_bind _ _ _ _ _ (mod_msg_run m f2 _ w1 Eg1)).
  pose proof (inv_msg held w1 m _ (bodied f2 (bodied f1 g)) Hi1 Eg1 eq_refl eq_refl) as Hi2.
  set (w2 := mk_world (w_server w1) _ _ _ _ _) in *.
  assert (Eg2 : w_msgs w2 !! m = Some (bodied f2 (bodied f1 g))) by (cbn; by rewrite lookup_insert_eq).
  rewrite (run_bind _ _ _ _ _ (call_run c_ticks_get w2)). set (now := answer w2 c_ticks_get).
  pose proof (traced_inv held w2 c_ticks_get now Hi2) as Hi3. set (w3 := traced w2 c_ticks_get now) in *.
  set (f := fun s => set_bytes_recvd (u64 (ss_bytes_recvd s + size)) (set_last_activity now s)).
  rewrite (run_bind _ _ _ _ _ (mod_sock_run a s f w3 E)).
  pose proof (inv_quiet held w3 a s f (fun _ => conj eq_refl eq_refl) Hi3 E) as Hi4. set (w4 := mk_world (w_server w3) _ _ _ _ _) in *.
  assert (E4 : sock_is a (f s) w4) by (unfold sock_is; cbn; by rewrite lookup_insert_eq).
  destruct (append_run held w4 a (f s) q_recv m _ Hi4 E4 Eg2 Hr Hh) as (w5 & E5 & Hi5 & _).
  rewrite (run_bind _ _ _ _ _ E5). unfold do_next. rewrite unit_call_run. eexists. split; [done|]. by apply traced_inv.
Qed.

Lemma begin_send_run held w a s : inv held w -> sock_is a s w -> exists o w' held',
  prx_server_socket_on_begin_send a w = Ok (o, w') /\ inv held' w' /\
  match o with
  | Some (m, d) => ss_queue s q_send <> [] /\ (forall c, held' c = upd held m (held m + 1) c) /\
      (exists g, w_msgs w' !! m = Some g /\ ob_refs g = held' m)
  | None => ss_queue s q_send = [] /\ (forall c, held' c = held c)
  end.
Proof.
  intros Hi E. unfold prx_server_socket_on_begin_send. destruct (ss_queue s q_send) as [|m l] eqn:Eq.
  - pose proof (remove_head_run w a s q_send E) as Erm. rewrite Eq in Erm. rewrite (run_bind _ _ _ _ _ Erm).
    by exists None, w, held.
  - destruct (dequeue_run held w a s q_send m l Hi E Eq) as (g & Erm & Hi1 & Eg & Hr).
    rewrite (run_bind _ _ _ _ _ Erm). set (w1 := requeue w a s q_send l) in *.
    rewrite (run_bind _ _ w1 _ _ (get_msg_run m g w1 Eg)). eexists (Some (m, _)), w1, _. split; [done|]. split; [exact Hi1|].
    split; [done|]. split; [done|]. exists g. by rewrite upd_eq.
Qed.

Lemma end_send_run held w a s r m g : inv held w -> sock_is a s w -> w_msgs w !! m = Some g ->
  ob_refs g = held m -> 0 < held m -> exists w',
  prx_server_socket_on_end_send env a r m w = Ok (tt, w') /\ inv (upd held m (held m - 1)) w'.
Proof.
  intros Hi E Eg Hr Hh. unfold prx_server_socket_on_end_send. case_bool_decide.
  { rewrite (insert_head_run w a s q_send m E). eexists. split; [done|].
    apply (inv_enqueue held w a s q_send [] m (ss_queue s q_send) Hi E eq_refl Hh). by eapply not_queued. }
  assert (Hdone : exists (b : bool) w1 s1,
    (if bool_decide (r <> er_ok /\ r <> er_aborted) then mret false
     else
       (if bool_decide (r = er_ok) then now ← do_call env c_ticks_get; mod_sock a (set_last_activity now) else mret tt);;
       s ← get_sock a;
       if ss_polled s then mret false else io_message_release env m;; mret true) w = Ok (b, w1) /\
    if b then inv (upd held m (held m - 1)) w1
    else inv held w1 /\ sock_is a s1 w1 /\ w_msgs w1 = w_msgs w).
  { case_bool_decide; [by exists false, w, s|].
    assert (Hact : exists w1 s1, (if bool_decide (r = er_ok) then now ← do_call env c_ticks_get; mod_sock a (set_last_activity now)
                                  else mret tt) w = Ok (tt, w1) /\ inv held w1 /\ sock_is a s1 w1 /\ w_msgs w1 = w_msgs w).
    { case_bool_decide; [|by exists w, s]. rewrite (run_bind _ _ _ _ _ (call_run c_ticks_get w)).
      set (now := answer w c_ticks_get). rewrite (mod_sock_run a s _ (traced w c_ticks_get now) E).
      eexists _, (set_last_activity now s). split; [done|]. split; [|split; [unfold sock_is; cbn; by rewrite lookup_insert_eq|done]].
      apply (inv_quiet held (traced w c_ticks_get now) a s); [by intros ?|by apply traced_inv|done]. }
    destruct Hact as (w1 & s1 & E1 & Hi1 & Es1 & Em1). rewrite (run_bind _ _ _ _ _ E1).
    rewrite (run_bind _ _ _ _ _ (get_sock_run a s1 w1 Es1)). destruct (ss_polled s1); [by exists false, w1, s1|].
    destruct (release_run held w1 m Hi1 Hh) as (w2 & E2 & Hi2 & _). rewrite (run_bind _ _ _ _ _ E2). by exists true, w2, s1. }
  destruct Hdone as (b & w1 & s1 & E1 & Hb). rewrite (run_bind _ _ _ _ _ E1). destruct b; [by exists w1|].
  destruct Hb as (Hi1 & Es1 & Em1). assert (Eg1 : w_msgs w1 !! m = Some g) by by rewrite Em1.
  rewrite (run_bind (as_response m) _ _ _ _ (mod_msg_run m _ g w1 Eg1)).
  pose proof (inv_msg held w1 m g (bodied io_message_as_response g) Hi1 Eg1 eq_refl eq_refl) as Hi2.
  set (w2 := mk_world (w_server w1) _ _ _ _ _) in *.
  assert (Eg2 : w_msgs w2 !! m = Some (bodied io_message_as_response g)) by (cbn; by rewrite lookup_insert_eq).
  set (f := fun g => with_error r (with_type io_message_type_poll g)).
  rewrite (run_bind _ _ _ _ _ (mod_msg_run m f _ w2 Eg2)).
  pose proof (inv_msg held w2 m _ (bodied f (bodied io_message_as_response g)) Hi2 Eg2 eq_refl eq_refl) as Hi3.
  set (w3 := mk_world (w_server w2) _ _ _ _ _) in *.
  assert (Eg3 : w_msgs w3 !! m = Some (bodied f (bodied io_message_as_response g))) by (cbn; by rewrite lookup_insert_eq).
  destruct (append_run held w3 a s1 q_write m _ Hi3 Es1 Eg3 Hr Hh) as (w4 & E4 & Hi4 & _).
  rewrite (run_bind _ _ _ _ _ E4). unfold do_next. rewrite unit_call_run. eexists. split; [done|]. by apply traced_inv.
Qed.

(** Changes of a message that is held, one after the other. *)
Lemma mod_msg_inv held w m f g : inv held w -> w_msgs w !! m = Some g -> exists w' g',
  mod_msg m f w = Ok (tt, w') /\ inv held w' /\ w_msgs w' !! m = Some g' /\ ob_refs g' = ob_refs g /\
  w_socks w' = w_socks w /\ w_server w' = w_server w.
Proof.
  intros Hi Eg. rewrite (mod_msg_run m f g w Eg). eexists _, (bodied f g). split; [done|].
  split; [by apply (inv_msg held w m g)|]. split; [cbn; by rewrite lookup_insert_eq|done].
Qed.

Lemma send_closed_run held w a s c m : inv held w -> sock_is a s w -> is_Some (w_msgs w !! m) -> exists e w',
  send_closed env a c m w = Ok (e, w') /\ inv held w'.
Proof.
  intros Hi E [g Eg]. unfold send_closed. rewrite (run_bind _ _ _ _ _ (get_sock_run a s w E)).
  destruct (ss_polled s); [|by exists er_ok, w].
  destruct (mod_msg_inv held w m io_message_as_response g Hi Eg) as (w1 & g1 & E1 & Hi1 & Eg1 & _).
  rewrite (run_bind (as_response m) _ _ _ _ E1).
  destruct (mod_msg_inv held w1 m (with_error er_closed) g1 Hi1 Eg1) as (w2 & g2 & E2 & Hi2 & Eg2 & _).
  rewrite (run_bind _ _ _ _ _ E2). destruct (send_run w2 c m g2 Eg2) as (r & w3 & E3 & A1 & A2 & A3 & A4 & A5 & _).
  exists r, w3. split; [done|]. by apply (inv_mem held w2).
Qed.

(** A message of the transport that is in no queue. *)
Definition received held w m : Prop := 0 < held m /\ exists g, w_msgs w !! m = Some g /\ ob_refs g = held m.

Lemma data_run held w a s c m : inv held w -> sock_is a s w -> received held w m -> exists e w',
  prx_server_socket_handle_datamessage env a c m w = Ok (e, w') /\ inv held w'.
Proof.
  intros Hi E (Hh & g & Eg & Hr). unfold prx_server_socket_handle_datamessage.
  rewrite (run_bind _ _ _ _ _ (get_sock_run a s w E)). case_bool_decide; [eapply send_closed_run; eauto|].
  destruct (clone_run held w m Hi Hh) as (w1 & E1 & Hi1 & (A1 & A2 & _ & _ & _) & Eb). rewrite (run_bind _ _ _ _ _ E1).
  assert (E1s : sock_is a s w1) by (unfold sock_is; by rewrite A2).
  assert (Hg1 : exists g1, w_msgs w1 !! m = Some g1 /\ ob_refs g1 = upd held m (held m + 1) m).
  { destruct (v_held _ _ Hi1 m) as [_ Hs]. rewrite upd_eq in *. destruct Hs as [g1 Eg1]; [lia|]. exists g1. split; [done|].
    destruct (v_other _ _ Hi1 m g1 Eg1) as [Hx _]; [|by rewrite upd_eq in Hx]. rewrite A2. by eapply not_queued. }
  destruct Hg1 as (g1 & Eg1 & Hr1).
  destruct (append_run _ w1 a s q_send m g1 Hi1 E1s Eg1 Hr1) as (w2 & E2 & Hi2 & Es2 & _); [rewrite upd_eq; lia|].
  rewrite (run_bind _ _ _ _ _ E2), (run_bind _ _ _ _ _ (get_sock_run a _ w2 Es2)), (run_bind _ _ _ _ _ (call_run _ w2)).
  do 2 eexists. split; [done|]. apply traced_inv. eapply inv_ext; [|exact Hi2]. intros x. unfold upd.
  repeat case_decide; subst; lia.
Qed.

(** ** Poll requests *)

(** The time until which a poll request waits. *)
Definition poll_deadline w m : Z :=
  match content_of w m with Some c => i64 (pm_timeout (as_poll_message c)) | None => 0 end.
Definition answers w (now : Z) (close : bool) m : bool := close || bool_decide (poll_deadline w m >= now).
Definition correlation_of w m : Z := default 0 ((fun g => correlation_id (ob_msg g)) <$> w_msgs w !! m).
(** Correlation and error code of what was sent. *)
Definition replies (l : list (Z * io_message bytes * prx_error)) : list (Z * Z) :=
  map (fun '(_, g, _) => (correlation_id g, error_code g)) l.

Lemma response_correlation (g : io_message bytes) : correlation_id (io_message_as_response g) = correlation_id g.
Proof. unfold io_message_as_response. by destruct (io_ref_swap _ _). Qed.

(** One request is answered. *)
Lemma answer_run held w a s m e : inv held w -> sock_is a s w -> m ∈ ss_queue s q_read -> exists w' r l,
  (mod_sock a (fun s => set_queue_of q_read (filter (fun x => x <> m) (ss_queue s q_read)) s);;
   as_response m;;
   mod_msg m (with_error e);;
   s ← get_sock a;
   _ ← io_connection_send env (ss_stream s) m;
   io_message_release env m) w = Ok (r, w') /\
  inv held w' /\ sock_is a (set_queue_of q_read (filter (fun x => x <> m) (ss_queue s q_read)) s) w' /\ later l w w' /\
  w_server w' = w_server w /\
  replies l = match ss_stream s with Some _ => [(correlation_of w m, error_value e)] | None => [] end /\
  (forall c, c <> m -> w_msgs w' !! c = w_msgs w !! c).
Proof.
  intros Hi E Hm. apply list_elem_of_split in Hm as (l1 & l2 & Eq).
  pose proof (v_nodup _ _ Hi a s q_read E) as Hn. rewrite Eq in Hn.
  assert (Hf : filter (fun x => x <> m) (ss_queue s q_read) = l1 ++ l2).
  { rewrite Eq, filter_app, filter_cons_False by tauto. apply NoDup_app in Hn as (N1 & N2 & N3).
    apply NoDup_cons in N3 as [N3 _]. rewrite !filter_all; [done| |]; intros; set_solver. }
  rewrite Hf. pose proof (v_held _ _ Hi m) as [Hm0 _].
  destruct (v_queued _ _ Hi m a q_read) as (g & Eg & Hr); [exists s; split; [done|]; rewrite Eq; set_solver|].
  pose proof (inv_dequeue held w a s q_read l1 m l2 Hi E Eq) as Hi1.
  rewrite (run_bind _ _ _ _ _ (mod_sock_run a s _ w E)). cbn beta. rewrite Hf. fold (requeue w a s q_read (l1 ++ l2)).
  set (w1 := requeue w a s q_read (l1 ++ l2)) in *. set (s1 := set_queue_of q_read (l1 ++ l2) s).
  assert (E1 : sock_is a s1 w1) by apply requeue_sock.
  rewrite (run_bind (as_response m) _ _ _ _ (mod_msg_run m _ g w1 Eg)).
  pose proof (inv_msg _ w1 m g (bodied io_message_as_response g) Hi1 Eg eq_refl eq_refl) as Hi2.
  set (w2 := mk_world (w_server w1) _ _ _ _ _) in *.
  assert (Eg2 : w_msgs w2 !! m = Some (bodied io_message_as_response g)) by (cbn; by rewrite lookup_insert_eq).
  rewrite (run_bind _ _ _ _ _ (mod_msg_run m (with_error e) _ w2 Eg2)).
  pose proof (inv_msg _ w2 m _ (bodied (with_error e) (bodied io_message_as_response g)) Hi2 Eg2 eq_refl eq_refl) as Hi3.
  set (w3 := mk_world (w_server w2) _ _ _ _ _) in *. set (g3 := bodied (with_error e) _) in *.
  assert (Eg3 : w_msgs w3 !! m = Some g3) by (cbn; by rewrite lookup_insert_eq).
  rewrite (run_bind _ _ w3 s1 w3) by by apply get_sock_run.
  destruct (send_run w3 (ss_stream s1) m g3 Eg3) as (r & w4 & E4 & A1 & A2 & A3 & A4 & A5 & A6 & _).
  rewrite (run_bind _ _ _ _ _ E4). pose proof (inv_mem _ w3 w4 A1 A2 A3 A4 A5 Hi3) as Hi4.
  destruct (release_run _ w4 m Hi4) as (w5 & E5 & Hi5 & B1 & B2 & B3 & B4 & B5); [rewrite upd_eq; lia|].
  rewrite E5. eexists w5, tt, _. split; [done|].
  split; [eapply inv_ext; [|exact Hi5]; intros c; unfold upd; repeat case_decide; subst; lia|].
  split; [unfold sock_is; rewrite B2, A2; exact E1|]. split.
  { eapply later_eq; [reflexivity|]. eapply later_trans; [|exact B4]. eapply (later_trans [] _ w w3); [by apply later_same|exact A6]. }
  split; [by rewrite B1, A1|]. split.
  { rewrite app_nil_r. change (ss_stream s1) with (ss_stream s). destruct (ss_stream s) as [k|]; [|done].
    unfold correlation_of. rewrite Eg. 
    transitivity [(correlation_id (io_message_as_response (ob_msg g)), error_value e)]; [done|].
    by rewrite response_correlation. }
  intros c Hc. rewrite B5, A3 by done. cbn. by rewrite !lookup_insert_ne.
Qed.

Lemma manage_loop_run now close : forall l held w a s, inv held w -> sock_is a s w -> NoDup l ->
  (forall m, m ∈ l -> m ∈ ss_queue s q_read) -> exists w' s' ls,
  manage_read_loop env a now close l w = Ok (tt, w') /\ inv held w' /\ sock_is a s' w' /\ like s s' /\ later ls w w' /\
  w_server w' = w_server w /\
  ss_queue s' q_read = filter (fun m => ~ (m ∈ l /\ answers w now close m = true)) (ss_queue s q_read) /\
  (forall q, q <> q_read -> ss_queue s' q = ss_queue s q) /\
  replies ls = match ss_stream s with
               | Some _ => map (fun m => (correlation_of w m, error_value (if close then er_closed else er_timeout)))
                             (filter (fun m => answers w now close m = true) l)
               | None => []
               end.
Proof.
  induction l as [|m l IH]; intros held w a s Hi E Hn Hsub.
  { exists w, s, []. split_and!; try done; [apply like_refl|apply later_refl| |by destruct (ss_stream s)].
    symmetry. apply filter_all. intros x _ [Hx _]. by apply elem_of_nil in Hx. }
  apply NoDup_cons in Hn as [Hnm Hn]. cbn [manage_read_loop].
  destruct (v_queued _ _ Hi m a q_read) as (g & Eg & Hr); [exists s; split; [done|]; apply Hsub; by left|].
  rewrite (run_bind _ _ _ _ _ (get_msg_run m g w Eg)).
  assert (Hans : close || bool_decide (i64 (pm_timeout (as_poll_message (content (ob_msg g)))) >= now) = answers w now close m).
  { unfold answers, poll_deadline, content_of. by rewrite Eg. }
  rewrite Hans. destruct (answers w now close m) eqn:Ea.
  - destruct (answer_run held w a s m (if close then er_closed else er_timeout) Hi E) as (w1 & r & l1 & E1 & Hi1 & Es1 & La1 & Sv1 & Rp1 & Ot1).
    { apply Hsub. by left. }
    rewrite (run_bind _ _ _ _ _ E1). set (s1 := set_queue_of q_read (filter (fun x => x <> m) (ss_queue s q_read)) s) in *.
    destruct (IH held w1 a s1 Hi1 Es1 Hn) as (w2 & s2 & l2 & E2 & Hi2 & Es2 & Li2 & La2 & Sv2 & Q2 & O2 & Rp2).
    { intros c Hc. unfold s1. rewrite set_queue_eq. apply list_elem_of_filter. split; [by intros ->|]. apply Hsub. by right. }
    assert (Hsame : forall c, c <> m -> answers w1 now close c = answers w now close c /\ correlation_of w1 c = correlation_of w c).
    { intros c Hc. unfold answers, poll_deadline, content_of, correlation_of. by rewrite Ot1. }
    exists w2, s2, (l1 ++ l2). split; [done|]. split; [done|]. split; [done|].
    split; [eapply like_trans; [|exact Li2]; apply like_set, like_refl|]. split; [by eapply later_trans|].
    split; [congruence|]. split; [|split].
    + rewrite Q2. unfold s1. rewrite set_queue_eq, list_filter_filter. apply list_filter_iff. intros c. rewrite elem_of_cons.
      destruct (decide (c = m)) as [->|Hne]; [naive_solver|]. destruct (Hsame c Hne) as [-> _]. naive_solver.
    + intros q Hq. rewrite O2 by done. by apply set_queue_ne.
    + unfold replies in *. rewrite map_app, Rp1, Rp2. change (ss_stream s1) with (ss_stream s). destruct (ss_stream s); [|done].
      rewrite filter_cons_True by done. cbn. f_equal. rewrite (filter_ext_in _ (fun c => answers w now close c = true)).
      2: { intros c Hc. destruct (Hsame c) as [-> _]; [by intros ->|done]. }
      apply map_ext_in. intros c Hc. apply list_elem_of_In, list_elem_of_filter in Hc as [_ Hc].
      destruct (Hsame c) as [_ ->]; [by intros ->|done].
  - rewrite (run_bind (mret tt) _ w tt w eq_refl).
    destruct (IH held w a s Hi E Hn) as (w2 & s2 & l2 & E2 & Hi2 & Es2 & Li2 & La2 & Sv2 & Q2 & O2 & Rp2).
    { intros c Hc. apply Hsub. by right. }
    exists w2, s2, l2. split_and!; try done.
    + rewrite Q2. apply list_filter_iff. intros c. rewrite elem_of_cons. destruct (decide (c = m)) as [->|Hne]; [|naive_solver].
      split; intros _ [_ Hx]; congruence.
    + rewrite Rp2. destruct (ss_stream s); [|done]. by rewrite filter_cons_False by congruence.
Qed.

Lemma manage_queue_run held w a s close : inv held w -> sock_is a s w -> let now := answer w c_ticks_get in exists w' s' ls,
  prx_server_socket_manage_read_queue env a close w = Ok (tt, w') /\ inv held w' /\ sock_is a s' w' /\ like s s' /\
  later ls w w' /\ w_server w' = w_server w /\
  ss_queue s' q_read = filter (fun m => answers w now close m = false) (ss_queue s q_read) /\
  (forall q, q <> q_read -> ss_queue s' q = ss_queue s q) /\
  replies ls = match ss_stream s with
               | Some _ => map (fun m => (correlation_of w m, error_value (if close then er_closed else er_timeout)))
                             (filter (fun m => answers w now close m = true) (ss_queue s q_read))
               | None => []
               end.
Proof.
  intros Hi E now. unfold prx_server_socket_manage_read_queue. rewrite (run_bind _ _ _ _ _ (call_run c_ticks_get w)). fold now.
  set (w1 := traced w c_ticks_get now). rewrite (run_bind _ _ _ _ _ (get_sock_run a s w1 E)).
  destruct (manage_loop_run now close (ss_queue s q_read) held w1 a s (traced_inv _ _ _ _ Hi) E)
    as (w2 & s2 & ls & E2 & Hi2 & Es2 & Li2 & La2 & Sv2 & Q2 & O2 & Rp2); [by apply (v_nodup _ _ Hi a)|done|].
  exists w2, s2, ls. split; [exact E2|]. split; [done|]. split; [done|]. split; [done|].
  split; [exact (later_trans [] ls w w1 w2 (traced_later w c_ticks_get now) La2)|]. split; [exact Sv2|]. split; [|split; [done|exact Rp2]].
  rewrite Q2. apply filter_ext_in. intros m Hm. change (answers w1 now close m) with (answers w now close m).
  destruct (answers w now close m); naive_solver.
Qed.

(** C25: When the timer of a poll request expires, the requests that are answered with a
    timeout are those that have not waited long enough; those whose time has passed
    stay in the queue. *)
Theorem poll_timeouts_reversed held w a s : inv held w -> w_socks w !! a = Some s ->
  let now := env Z (w_trace w) c_ticks_get in exists w' s' ls,
  prx_server_socket_timeout_pollrequest env a w = Ok (tt, w') /\ w_socks w' !! a = Some s' /\ later ls w w' /\
  ss_queue s' q_read = filter (fun m => poll_deadline w m < now) (ss_queue s q_read) /\
  (ss_stream s <> None -> replies ls =
     map (fun m => (correlation_of w m, error_value er_timeout)) (filter (fun m => now <= poll_deadline w m) (ss_queue s q_read))).
Proof.
  intros Hi E now. destruct (manage_queue_run held w a s false Hi E) as (w' & s' & ls & E' & _ & Es & _ & La & _ & Q & _ & Rp).
  exists w', s', ls. split; [exact E'|]. split; [done|]. split; [done|]. split.
  - rewrite Q. apply list_filter_iff. intros m. unfold answers. cbn [orb]. rewrite bool_decide_eq_false.
    change (answer w c_ticks_get) with now. lia.
  - intros Hst. rewrite Rp. destruct (ss_stream s); [|done]. f_equal. apply list_filter_iff. intros m. unfold answers.
    cbn [orb]. rewrite bool_decide_eq_true. change (answer w c_ticks_get) with now. lia.
Qed.

Lemma poll_run held w a s c m : inv held w -> sock_is a s w -> received held w m -> exists e w',
  prx_server_socket_handle_pollrequest env a c m w = Ok (e, w') /\ inv held w'.
Proof.
  intros Hi E (Hh & g & Eg & Hr). unfold prx_server_socket_handle_pollrequest.
  rewrite (run_bind _ _ _ _ _ (get_sock_run a s w E)). case_bool_decide; [eapply send_closed_run; eauto|].
  destruct (clone_run held w m Hi Hh) as (w1 & E1 & Hi1 & (A1 & A2 & _ & _ & _) & Eb). rewrite (run_bind _ _ _ _ _ E1).
  assert (E1s : sock_is a s w1) by (unfold sock_is; by rewrite A2).
  assert (Hg1 : exists g1, w_msgs w1 !! m = Some g1 /\ ob_refs g1 = upd held m (held m + 1) m).
  { destruct (v_held _ _ Hi1 m) as [_ Hs]. rewrite upd_eq in *. destruct Hs as [g1 Eg1]; [lia|]. exists g1. split; [done|].
    destruct (v_other _ _ Hi1 m g1 Eg1) as [Hx _]; [|by rewrite upd_eq in Hx]. rewrite A2. by eapply not_queued. }
  destruct Hg1 as (g1 & Eg1 & Hr1). rewrite (run_bind _ _ _ _ _ (call_run c_ticks_get w1)).
  set (now := answer w1 c_ticks_get). pose proof (traced_inv _ w1 c_ticks_get now Hi1) as Hi2. set (w2 := traced w1 c_ticks_get now) in *.
  rewrite (run_bind _ _ w2 _ _ (get_msg_run m g1 w2 Eg1)). cbv zeta. set (f := fun s => set_last_activity now _).
  rewrite (run_bind _ _ _ _ _ (mod_sock_run a s f w2 E1s)).
  pose proof (inv_quiet _ w2 a s f (fun _ => conj eq_refl eq_refl) Hi2 E1s) as Hi3. set (w3 := mk_world (w_server w2) _ _ _ _ _) in *.
  assert (E3 : sock_is a (f s) w3) by (unfold sock_is; cbn; by rewrite lookup_insert_eq).
  set (h := with_content _). destruct (mod_msg_inv _ w3 m h g1 Hi3 Eg1) as (w4 & g4 & E4 & Hi4 & Eg4 & Hr4 & B1 & B2).
  rewrite (run_bind _ _ _ _ _ E4). assert (E4s : sock_is a (f s) w4) by (unfold sock_is; by rewrite B1).
  destruct (append_run _ w4 a (f s) q_read m g4 Hi4 E4s Eg4) as (w5 & E5 & Hi5 & Es5 & _); [congruence|rewrite upd_eq; lia|].
  rewrite (run_bind _ _ _ _ _ E5). apply (inv_ext _ held) in Hi5; [|intros x; unfold upd; repeat case_decide; subst; lia].
  destruct (deliver_results_run held w5 a _ Hi5 Es5) as (w6 & s6 & n & k & l & E6 & Hi6 & Es6 & _).
  rewrite (run_bind _ _ _ _ _ E6), (run_bind _ _ _ _ _ (get_sock_run a s6 w6 Es6)). case_bool_decide.
  - rewrite run_assoc, (run_bind _ _ _ _ _ (call_run _ w6)), (run_bind (do_later env _ _) _ _ _ _ (unit_call_run _ _)).
    do 2 eexists. split; [done|]. by do 2 apply traced_inv.
  - rewrite (run_bind (mret tt) _ w6 tt w6 eq_refl). by do 2 eexists.
Qed.

(** ** The data path

    Everything that can happen to the data of sockets: receiving and sending begin and
    end, messages arrive for a socket and are released by the transport, timers expire
    and results are delivered.  The result is what a begin event yields. *)
Inductive dstep :=
| D_begin_recv (a : Z)
| D_end_recv (a : Z) (data : bytes) (size : Z) (addr : option prx_socket_address) (r : prx_error) (m : Z)
| D_begin_send (a : Z)
| D_end_send (a : Z) (r : prx_error) (m : Z)
| D_data (a : Z) (c : option Z) (m : Z)
| D_poll (a : Z) (c : option Z) (m : Z)
| D_timeout (a : Z)
| D_deliver (a : Z)
| D_arrive (g : io_message bytes)
| D_release (m : Z).

Definition drun (d : dstep) : M (option Z) :=
  match d with
  | D_begin_recv a => prx_server_socket_on_begin_receive env a
  | D_end_recv a data size addr r m => prx_server_socket_on_end_receive env a data size addr r m;; mret None
  | D_begin_send a => x ← prx_server_socket_on_begin_send a; mret (fst <$> x)
  | D_end_send a r m => prx_server_socket_on_end_send env a r m;; mret None
  | D_data a c m => _ ← prx_server_socket_handle_datamessage env a c m; mret None
  | D_poll a c m => _ ← prx_server_socket_handle_pollrequest env a c m; mret None
  | D_timeout a => prx_server_socket_timeout_pollrequest env a;; mret None
  | D_deliver a => prx_server_socket_deliver_results env a;; mret None
  | D_arrive g => m ← alloc_msg (mk_obj 1 None None g); mret (Some m)
  | D_release m => io_message_release env m;; mret None
  end.

(** The socket is there; an operation ends with the message it began with, and a
    message arrives with a reference of its own. *)
Definition enabled held w (d : dstep) : Prop :=
  match d with
  | D_begin_recv a | D_begin_send a | D_timeout a | D_deliver a => is_Some (w_socks w !! a)
  | D_end_recv a _ _ _ _ m | D_end_send a _ m | D_data a _ m | D_poll a _ m =>
      is_Some (w_socks w !! a) /\ received held w m
  | D_arrive _ => True
  | D_release m => 0 < held m
  end.

(** The references held after a step. *)
Definition effect held (d : dstep) (out : option Z) held' : Prop :=
  match d with
  | D_begin_recv _ => match out with
                      | Some m => held m = 0 /\ forall c, held' c = upd held m 1 c
                      | None => forall c, held' c = held c \/ (held c = 0 /\ held' c = 1)
                      end
  | D_arrive _ => exists m, out = Some m /\ held m = 0 /\ forall c, held' c = upd held m 1 c
  | D_begin_send _ => forall c, held' c = match out with Some m => upd held m (held m + 1) c | None => held c end
  | D_end_recv _ _ _ _ _ m | D_end_send _ _ m | D_release m => forall c, held' c = upd held m (held m - 1) c
  | D_data _ _ _ | D_poll _ _ _ | D_timeout _ | D_deliver _ => forall c, held' c = held c
  end.

(** C19: No step of the data path uses memory that was freed, whatever the platform layer,
    the transport and the pools answer, and after every step each message has exactly
    one reference for every queue it is in and every holder outside. *)
Theorem data_path_safe held w d : inv held w -> enabled held w d -> exists out w' held',
  drun d w = Ok (out, w') /\ inv held' w' /\ effect held d out held'.
Proof.
  intros Hi He. destruct d as [a|a data size addr r m|a|a r m|a c m|a c m|a|a|g|m]; cbn [enabled drun effect] in *.
  - destruct He as [s E]. destruct (begin_receive_run held w a s Hi E) as (o & w' & held' & E' & Hi' & _ & Ho).
    exists o, w', held'. split; [done|]. split; [done|]. destruct o; [|done]. by destruct Ho as (H1 & H2 & _).
  - destruct He as [[s E] (Hh & g & Eg & Hr)].
    destruct (end_receive_run held w a s data size addr r m g Hi E Eg Hr Hh) as (w' & E' & Hi').
    rewrite (run_bind _ _ _ _ _ E'). by do 3 eexists.
  - destruct He as [s E]. destruct (begin_send_run held w a s Hi E) as (o & w' & held' & E' & Hi' & Ho).
    rewrite (run_bind _ _ _ _ _ E'). do 3 eexists. split; [done|]. split; [done|].
    destruct o as [[m x]|]; cbn; [by destruct Ho as (_ & ? & _)|by destruct Ho].
  - destruct He as [[s E] (Hh & g & Eg & Hr)]. destruct (end_send_run held w a s r m g Hi E Eg Hr Hh) as (w' & E' & Hi').
    rewrite (run_bind _ _ _ _ _ E'). by do 3 eexists.
  - destruct He as [[s E] Hrec]. destruct (data_run held w a s c m Hi E Hrec) as (e & w' & E' & Hi').
    rewrite (run_bind _ _ _ _ _ E'). by do 3 eexists.
  - destruct He as [[s E] Hrec]. destruct (poll_run held w a s c m Hi E Hrec) as (e & w' & E' & Hi').
    rewrite (run_bind _ _ _ _ _ E'). by do 3 eexists.
  - destruct He as [s E]. destruct (manage_queue_run held w a s false Hi E) as (w' & s' & ls & E' & Hi' & _).
    rewrite (run_bind (prx_server_socket_timeout_pollrequest env a) _ _ _ _ E'). by do 3 eexists.
  - destruct He as [s E]. destruct (deliver_results_run held w a s Hi E) as (w' & s' & n & k & l & E' & Hi' & _).
    rewrite (run_bind _ _ _ _ _ E'). by do 3 eexists.
  - rewrite (run_bind (alloc_msg _) _ w _ _ eq_refl). do 3 eexists. split; [done|].
    split; [by apply inv_new|]. eexists. split; [done|]. split; [|done].
    apply (held_none held w); [done|]. by apply (v_fresh _ _ Hi).
  - destruct (release_run held w m Hi He) as (w' & E' & Hi' & _). rewrite (run_bind _ _ _ _ _ E'). by do 3 eexists.
Qed.
End Safe.

(** ** Examples *)

Definition a_poll (deadline : Z) : io_message bytes :=
  with_content (poll_message (mk_poll_message 0 deadline)) (new_message io_message_type_poll (zeros 16) (zeros 16)).

(** A socket that is polled: two results, three requests that wait, and a message the
    transport holds. *)
Definition a_socket : prx_server_socket :=
  set_queue (fun q => match q with q_recv => [2; 3] | q_read => [4; 5; 6] | _ => [] end)
    (set_polled true (set_stream (Some 100) (set_state st_opened (new_socket (zeros 16))))).
Definition a_world : world table :=
  mk_world (Some (a_server [] false)) {[1 := a_socket]}
    (list_to_map (map (fun x => (fst x, mk_obj 1 None None (snd x)))
       [(2, new_message io_message_type_data (zeros 16) (zeros 16)); (3, new_message io_message_type_data (zeros 16) (zeros 16));
        (4, a_poll 10); (5, a_poll 2000); (6, a_poll 3000); (7, a_poll 0)]))
    ∅ 8 [].
Definition a_held : Z -> Z := upd (fun _ => 0) 7 1.

Lemma a_world_sock a s : w_socks a_world !! a = Some s -> a = 1 /\ s = a_socket.
Proof. cbn. intros [<- <-]%lookup_singleton_Some. done. Qed.

Lemma a_world_queued m a q : queued (w_socks a_world) m a q ->
  a = 1 /\ ((q = q_recv /\ (m = 2 \/ m = 3)) \/ (q = q_read /\ (m = 4 \/ m = 5 \/ m = 6))).
Proof.
  intros (s & [-> ->]%a_world_sock & Hm). split; [done|].
  destruct q; cbn in Hm; set_solver.
Qed.

Lemma a_world_inv : inv a_held a_world.
Proof.
  assert (Hm : forall m g, w_msgs a_world !! m = Some g ->
    (m = 2 \/ m = 3 \/ m = 4 \/ m = 5 \/ m = 6 \/ m = 7) /\ ob_refs g = 1 /\ ob_pool g = None).
  { intros m g E. apply elem_of_list_to_map_2 in E. cbn in E. set_unfold. naive_solver. }
  assert (Hq : forall m q, m ∈ ss_queue a_socket q -> queued (w_socks a_world) m 1 q) by (intros m q Hin; by exists a_socket).
  split.
  - intros m a q [-> Hin]%a_world_queued. destruct Hin as [[-> [-> | ->]]|[-> [-> | [-> | ->]]]]; by eexists.
  - intros m a q a' q' [-> H1]%a_world_queued [-> H2]%a_world_queued. split; [done|]. naive_solver lia.
  - intros a s q [_ ->]%a_world_sock. destruct q; cbn; repeat constructor; set_solver.
  - intros m g E Hno. destruct (Hm m g E) as (Hin & Hr & _). rewrite Hr. destruct (decide (m = 7)) as [->|Hne]; [done|].
    exfalso. destruct (decide (m = 2 \/ m = 3)).
    + apply (Hno 1 q_recv), Hq. cbn. set_solver.
    + apply (Hno 1 q_read), Hq. cbn. set_solver by lia.
  - intros m. unfold a_held, upd. case_decide; [subst|]; split; try lia; done.
  - intros m g p E Ep. destruct (Hm m g E) as (_ & _ & En). congruence.
  - intros p x E. done.
  - by intros a s p [_ ->]%a_world_sock.
  - cbn. intros x Hx. split; [|split; [done|by rewrite lookup_singleton_ne by lia]].
    destruct (w_msgs a_world !! x) as [g|] eqn:E; [|exact E]. destruct (Hm x g E). lia.
  - by eexists.
Qed.

(** At time 1000 both results answer a request. *)
Lemma results_in_order_witness : exists w' s' n k l,
  prx_server_socket_deliver_results (calls_succeed 1000) 1 a_world = Ok (tt, w') /\ inv a_held w' /\
  w_socks w' !! 1 = Some s' /\ later l a_world w' /\
  ss_queue s' q_recv = drop n [2; 3] /\ ss_queue s' q_write = drop k [] /\ ss_queue s' q_send = [] /\
  ss_queue s' q_read = drop n [4; 5; 6] /\
  map Some (delivered l) = map (content_of a_world) (take n [2; 3] ++ take k []) /\
  (Forall sent l -> Some 100 <> None -> ss_queue s' q_write = [] /\
     (ss_queue s' q_recv = [] \/ (true = true /\ ss_queue s' q_read = []))).
Proof. exact (results_in_order (calls_succeed 1000) a_held a_world 1 a_socket a_world_inv eq_refl). Defined.

(** At time 1000 the first request has waited too long and the others have not. *)
Lemma poll_timeouts_reversed_witness : exists w' s' ls,
  prx_server_socket_timeout_pollrequest (calls_succeed 1000) 1 a_world = Ok (tt, w') /\ w_socks w' !! 1 = Some s' /\
  later ls a_world w' /\ ss_queue s' q_read = [4] /\
  (Some 100 <> None -> replies ls = [(0, error_value er_timeout); (0, error_value er_timeout)]).
Proof. exact (poll_timeouts_reversed (calls_succeed 1000) a_held a_world 1 a_socket a_world_inv eq_refl). Defined.

Lemma data_path_safe_witness : exists out w' held',
  drun (calls_succeed 1000) (D_poll 1 (Some 100) 7) a_world = Ok (out, w') /\ inv held' w' /\
  effect a_held (D_poll 1 (Some 100) 7) out held'.
Proof.
  apply (data_path_safe (calls_succeed 1000) a_held a_world (D_poll 1 (Some 100) 7) a_world_inv).
  split; [by eexists|]. split; [done|]. by eexists.
Defined.
End PrxSockSafe.
