(* ===== verification/PrxServer.v ===== *)
(** * The proxy server (src/prx_server.c)

    The server owns the table of sockets (PrxSock), answers link and ping requests,
    dispatches messages to the sockets and collects sockets that are closed or were
    not used for long.  Notation and conventions are those of PrxSock. *)
From stdpp Require Import base option list numbers sets gmap.
From S2P Require Import Prelude PrxTypes UtilString UtilInt IoRef IoProto PrxSock.
Import PrxTypes UtilString UtilInt IoRef IoProto PrxSock.

Module PrxServer.

(** ** Restricted ports *)

(** The array holds [count] pairs; reading past its end is undefined. *)
Fixpoint restricted_loop (fuel : nat) (ports : list Z) (count : Z) (port index : Z) : res prx_error :=
  match fuel with
  | O => UB
  | S fuel =>
      if bool_decide (index < count * 2) then
        low ← chk (ports !! Z.to_nat index);
        if bool_decide (port >= low) then
          high ← chk (ports !! Z.to_nat (index + 1));
          if bool_decide (port <= high) then Ok er_refused
          else restricted_loop fuel ports count port (index + 2)
        else restricted_loop fuel ports count port (index + 1)
      else Ok er_ok
  end.

(** At most one step for every element, and one to end. *)
Definition prx_server_check_restricted_port (ports : list Z) (count : Z) (port : Z) : res prx_error :=
  restricted_loop (S (Z.to_nat (count * 2))) ports count port 0.

(** ** Members of an address that overlap *)

Definition le16 (l : bytes) : Z := match l with x :: y :: _ => x + 256 * y | _ => 0 end.

(** [un.ip.port], which is also [un.proxy.port]. *)
Definition un_ip_port (sa : prx_socket_address) : Z :=
  match sa with
  | sa_ip ip => ip_port ip
  | sa_proxy p => px_port p
  | sa_ux path => le16 path
  | _ => 0
  end.
Definition un_proxy_flags (sa : prx_socket_address) : Z :=
  match sa with sa_proxy p => px_flags p | sa_ux path => le16 (drop 2 path) | _ => 0 end.
(** [un.proxy.host[0]]. *)
Definition un_proxy_host0 (sa : prx_socket_address) : Z :=
  match sa with
  | sa_proxy p => hd 0 (px_host p)
  | sa_ip ip => hd 0 (as_in4 (ip_un ip))
  | sa_ux path => hd 0 (drop 8 path)
  | _ => 0
  end.

Definition prx_internal_service_port_browse : Z := 1.
Definition MAX_PORT_LENGTH : Z := 32.

Section Model.
Context {T I : Type} `{hashtable T I}.
Variable env : forall A, list event -> call A -> A.
Implicit Types (a m : Z).
Abbreviation M := (PrxSock.M T).
Abbreviation do_call := (do_call env).

Definition lift {A} (r : res A) : M A := fun w => x ← r; Ok (x, w).

(** ** Freeing *)

Definition prx_server_free : M unit :=
  srv ← get_server;
  match srv_browser srv with Some b => do_call (c_browse_server_free b) | None => mret tt end;;
  do_call c_scheduler_release;;
  put_server None.

(** ** The worker *)

(** The cases of the switch, each falling through to the one before it here. *)
Definition worker_closed a : M unit :=
  s ← get_sock a;
  match ss_stream s with
  | Some c =>
      if negb (ss_server_stream s) then do_call (c_connection_close c)
      else mod_sock a (set_stream None);; do_later env (t_free a) 2000
  | None => mod_sock a (set_stream None);; do_later env (t_free a) 2000
  end.

Definition worker_collect a (now : Z) (timedout exit : bool) : M unit :=
  s ← get_sock a;
  match ss_sock s with
  | None => mod_sock a (set_state st_closed)
  | Some _ =>
      let sending := bool_decide (ss_queue s q_send <> []) in
      let receiving := bool_decide (ss_queue s q_recv <> []) in
      if (sending || receiving) && negb timedout && negb exit then mret tt
      else
        mod_sock a (fun s => set_state st_closing (set_last_activity now
                      (set_props (set_timeout (5 * 60 * 1000) (ss_props s)) s)));;
        prx_server_socket_manage_read_queue env a true;;
        do_call (c_pal_socket_close (ss_sock s))
  end.

Definition worker_created a (now : Z) (timedout exit : bool) : M unit :=
  if negb timedout && negb exit then mret tt
  else
    mod_sock a (set_state st_collect);;
    release_queue env a q_send;;
    release_queue env a q_recv;;
    worker_collect a now timedout exit.

Definition worker_opened a (now : Z) (timedout exit : bool) : M unit :=
  if negb timedout && negb exit then mret tt
  else
    mod_sock a (set_state st_created);;
    if timedout && negb exit then
      s ← get_sock a;
      closerequest ← io_message_create env (ss_message_pool s) io_message_type_close (ss_id s) (ss_stream_id s);
      match closerequest with
      | inl m =>
          insert_tail a q_recv m;;
          prx_server_socket_deliver_results env a;;
          mod_sock a (set_last_activity now)
      | inr _ => worker_created a now timedout exit
      end
    else worker_created a now timedout exit.

Definition socket_timedout (s : prx_server_socket) (now : Z) : bool :=
  negb (bool_decide (ss_last_activity s = 0 \/ u64 (now - ss_last_activity s) < sp_timeout (ss_props s))).

(** Whether the entry is removed from the table. *)
Definition worker_socket a (now : Z) (exit : bool) : M bool :=
  s ← get_sock a;
  let timedout := socket_timedout s now in
  match ss_state s with
  | st_closing =>
      if negb timedout then mret false
      else mod_sock a (set_state st_closed);; worker_closed a;; mret true
  | st_closed => worker_closed a;; mret true
  | st_opened => worker_opened a now timedout exit;; mret false
  | st_created => worker_created a now timedout exit;; mret false
  | st_collect => worker_collect a now timedout exit;; mret false
  end.

(** The [do] loop over the table, whose size bounds the number of turns. *)
Fixpoint worker_loop (fuel : nat) (itr : I) (now : Z) : M unit :=
  match fuel with
  | O => ub
  | S fuel =>
      srv ← get_server;
      removed ← worker_socket (it_value itr) now (srv_exit srv);
      srv ← get_server;
      itr ← (if (removed : bool) then
               let '(_, itr, t) := it_remove itr (srv_sockets srv) in
               put_server (Some (set_table t srv));; mret itr
             else mret itr);
      srv ← get_server;
      let '(more, itr) := it_advance itr (srv_sockets srv) in
      if (more : bool) then worker_loop fuel itr now else mret tt
  end.

Definition prx_server_worker : M unit :=
  now ← do_call c_ticks_get;
  do_later env t_worker 5000;;
  srv ← get_server;
  (if bool_decide (ht_count (srv_sockets srv) > 0) then
     match ht_iterator (srv_sockets srv) with
     | Some itr => worker_loop (Z.to_nat (ht_count (srv_sockets srv))) itr now
     | None => mret tt
     end
   else mret tt);;
  srv ← get_server;
  if bool_decide (ht_count (srv_sockets srv) = 0) && srv_exit srv then prx_server_free else mret tt.

(** ** Link requests *)

Definition clip_timeout (t : Z) : Z :=
  if bool_decide (t = 0) then DEFAULT_GC_TIMEOUT
  else if bool_decide (t < MIN_GC_TIMEOUT) then MIN_GC_TIMEOUT else t.

Definition is_flag (flags flag : Z) : bool := bool_decide (Z.land flags flag <> 0).

(** The socket of the platform layer. *)
Definition link_open a (props : prx_socket_properties bytes) : M prx_error :=
  let address := sp_address props in
  s ← get_sock a;
  if negb (is_flag (sp_flags props) prx_socket_flag_internal) then
    sock ← do_call (c_pal_socket_create (ss_props s));
    match sock with
    | inr e => mret e
    | inl k => mod_sock a (set_sock (Some k));; do_call (c_pal_socket_open (Some k))
    end
  else if bool_decide (un_proxy_host0 address = 0) then
    srv ← get_server;
    result ← (if bool_decide (un_ip_port address = prx_internal_service_port_browse)
              then do_call (c_browse_server_accept (srv_browser srv) (un_proxy_flags address))
              else mret er_not_supported);
    if bool_decide (result <> er_ok) then mret result
    else
      sock ← do_call (c_pal_socket_pair (ss_props s));
      match sock with
      | inr e => mret e
      | inl k => mod_sock a (set_sock (Some k));; mret er_ok
      end
  else mret er_invalid_format.

(** The [do] loop: the socket, if it was created, and the result. *)
Definition link_steps message : M (option Z * prx_error) :=
  g ← get_msg message;
  srv ← get_server;
  let props := lrq_props (as_link_request (content (ob_msg g))) in
  result ← (if negb (is_flag (sp_flags props) prx_socket_flag_internal) &&
               negb (is_flag (sp_flags props) prx_socket_flag_passive)
            then lift (prx_server_check_restricted_port (srv_restricted_ports srv) (srv_restricted_port_count srv)
                         (un_ip_port (sp_address props)))
            else mret er_ok);
  if bool_decide (result <> er_ok) then mret (None, result)
  else
    sock ← prx_server_socket_create env (source_id (ob_msg g));
    match sock with
    | inr e => mret (None, e)
    | inl a =>
        mod_sock a (set_props (set_timeout (clip_timeout (sp_timeout props)) props));;
        result ← link_open a props;
        mret (Some a, result)
    end.

Definition set_context m (c : option Z) : M unit :=
  g ← get_msg m; put_msg m (Some (mk_obj (ob_refs g) (ob_pool g) c (ob_msg g))).

Definition prx_server_handle_linkrequest message : M unit :=
  '(sock, result) ← link_steps message;
  srv ← get_server;
  match sock with
  | Some a =>
      if bool_decide (result = er_ok) then
        set_context message (srv_listener srv);;
        mod_sock a (set_link_message (Some message));;
        now ← do_call c_ticks_get;
        mod_sock a (set_last_activity now)
      else
        as_response message;;
        mod_msg message (with_error result);;
        prx_server_socket_free env a;;
        _ ← io_connection_send env (srv_listener srv) message;
        mret tt
  | None =>
      as_response message;;
      mod_msg message (with_error result);;
      _ ← io_connection_send env (srv_listener srv) message;
      mret tt
  end.

(** ** Ping requests *)

(** The first address the host resolves to. *)
Definition ping_steps (address : prx_socket_address) : M (ret prx_socket_address) :=
  let family := un_family address in
  if bool_decide (family <> prx_address_family_inet6 /\ family <> prx_address_family_inet /\
                  family <> prx_address_family_proxy)
  then mret (inr er_invalid_format)
  else
    srv ← get_server;
    result ← lift (prx_server_check_restricted_port (srv_restricted_ports srv) (srv_restricted_port_count srv)
                     (un_ip_port address));
    if bool_decide (result <> er_ok) then mret (inr result)
    else
      match string_from_int (un_ip_port address) 10 MAX_PORT_LENGTH with
      | UB => ub
      | Err e => mret (inr e)
      | Ok port =>
          if bool_decide (family = prx_address_family_proxy) then
            let host := cstr (px_host (as_proxy address)) in
            if bool_decide (host = []) then mret (inr er_invalid_format)
            else do_call (c_pal_getaddrinfo host port prx_address_family_unspec)
          else
            host_ip ← do_call (c_pal_ntop address);
            match host_ip with
            | inr e => mret (inr e)
            | inl host_ip => do_call (c_pal_getaddrinfo host_ip port family)
            end
      end.

Definition prx_server_handle_pingrequest message : M unit :=
  g ← get_msg message;
  r ← ping_steps (as_ping_request (content (ob_msg g)));
  as_response message;;
  match r with
  | inl address => mod_msg message (fun g => with_content (ping_response (mk_ping_response address (zeros 8) 0))
                                               (with_error er_ok g))
  | inr e => mod_msg message (with_error e)
  end;;
  srv ← get_server;
  _ ← io_connection_send env (srv_listener srv) message;
  mret tt.

(** ** Dispatch *)

Definition prx_server_handle_invalid_socket message : M unit :=
  mod_msg message (with_error er_closed);;
  as_response message;;
  srv ← get_server;
  _ ← io_connection_send env (srv_listener srv) message;
  mret tt.

Definition prx_server_handler (event : io_connection_event) message : M prx_error :=
  srv ← get_server;
  match event with
  | io_connection_received =>
      g ← get_msg message;
      if negb (io_ref_equals (Some (target_id (ob_msg g))) (Some io_ref_null)) then
        match ht_search (srv_sockets srv) (target_id (ob_msg g)) with
        | Some a => prx_server_socket_control_handler env a event message
        | None => prx_server_handle_invalid_socket message;; mret er_ok
        end
      else if bool_decide (type (ob_msg g) = io_message_type_ping) then
        prx_server_handle_pingrequest message;; mret er_ok
      else if bool_decide (type (ob_msg g) = io_message_type_link) then
        prx_server_handle_linkrequest message;; mret er_ok
      else mret er_not_supported
  | io_connection_closed =>
      match srv_listener srv with Some c => do_call (c_connection_free c) | None => mret tt end;;
      put_server (Some (mk_server (srv_id srv) None (srv_browser srv) (srv_restricted_ports srv)
                          (srv_restricted_port_count srv) (srv_sockets srv) true));;
      do_next env t_worker;;
      mret er_ok
  | io_connection_reconnecting => mret er_ok
  end.

(** ** Creation *)

Definition prx_server_release : M unit :=
  srv ← get_server;
  match srv_listener srv with
  | Some c => do_call (c_connection_close c)
  | None =>
      put_server (Some (mk_server (srv_id srv) None (srv_browser srv) (srv_restricted_ports srv)
                          (srv_restricted_port_count srv) (srv_sockets srv) true));;
      do_next env t_worker
  end.

(** The steps up to the first that fails. *)
Definition server_create_steps (entry : Z) : M prx_error :=
  addr ← do_call (c_ns_entry_get_addr entry);
  match addr with
  | inr e => mret e
  | inl id =>
      text ← do_call c_config_restricted_ports;
      mem ← do_call c_mem_alloc;
      match string_parse_range_list mem (Some text) with
      | UB => ub
      | Err e => mret e
      | Ok ports =>
          put_server (Some (mk_server id None None ports (zlen ports / 2) ht_empty false));;
          ok ← do_call c_hashtable_create;
          if negb ok then mret er_out_of_memory
          else
            result ← do_call c_lock_create;
            if bool_decide (result <> er_ok) then mret result
            else
              result ← do_call c_scheduler_create;
              if bool_decide (result <> er_ok) then mret result
              else
                listener ← do_call (c_transport_create false entry h_server);
                match listener with
                | inr e => mret e
                | inl c =>
                    put_server (Some (mk_server id (Some c) None ports (zlen ports / 2) ht_empty false));;
                    browser ← do_call c_browse_server_create;
                    match browser with
                    | inr e => mret e
                    | inl b =>
                        put_server (Some (mk_server id (Some c) (Some b) ports (zlen ports / 2) ht_empty false));;
                        do_next env t_worker;;
                        mret er_ok
                    end
                end
      end
  end.

Definition prx_server_create (entry : Z) : M prx_error :=
  ok ← do_call c_mem_alloc;
  if negb ok then mret er_out_of_memory
  else
    put_server (Some (mk_server (zeros 16) None None [] 0 ht_empty false));;
    result ← server_create_steps entry;
    if bool_decide (result = er_ok) then mret er_ok
    else prx_server_release;; mret result.
End Model.
End PrxServer.
