(* ===== verification/PrxWorker.v ===== *)
(** * The worker of the proxy server (src/prx_server.c, prx_server_worker)

    The worker visits the sockets of the table, moves them towards their end when they
    were not used for long or the server exits, and removes those that are closed.
    Here: a run uses no freed memory, which entries it removes, and that an exiting
    server is freed. *)
From stdpp Require Import base option list numbers sets gmap.
From S2P Require Import Prelude PrxTypes UtilString UtilInt IoRef IoProto PrxSock PrxTable PrxSockSafe PrxServer.
Import PrxTypes UtilString UtilInt IoRef IoProto PrxSock PrxTable PrxSockSafe PrxServer.

Module PrxWorker.

Create HintDb frame.

Section Worker.
Context {T I : Type} `{hashtable T I}.
Variable env : forall A, list event -> call A -> A.
Implicit Types (w : world T) (a m : Z) (held : Z -> Z) (s : prx_server_socket).
Abbreviation M := (PrxSock.M T).

(** ** What an operation on a socket leaves alone *)

(** The server, the configuration of the memory and every socket but [a]. *)
Definition frame a {A} (c : M A) : Prop := forall w x w', c w = Ok (x, w') ->
  w_server w' = w_server w /\ forall b, b <> a -> w_socks w' !! b = w_socks w !! b.

Lemma frame_same a {A} (c : M A) : (forall w x w', c w = Ok (x, w') -> w_server w' = w_server w /\ w_socks w' = w_socks w) -> frame a c.
Proof. intros Hc w x w' E. by destruct (Hc w x w' E) as [-> ->]. Qed.

Lemma frame_ret a {A} (x : A) : frame a (mret x).
Proof. apply frame_same. by intros w y w' [= _ <-]. Qed.
Lemma frame_ub a {A} : frame a (@ub T A).
Proof. done. Qed.
Lemma frame_bind a {A B} (c : M A) (f : A -> M B) : frame a c -> (forall x, frame a (f x)) -> frame a (c ≫= f).
Proof.
  intros Hc Hf w y w' E. unfold mbind, M_bind in E. destruct (c w) as [[x w1]| |] eqn:E1; [|done..].
  destruct (Hc _ _ _ E1) as [A1 A2]. destruct (Hf x _ _ _ E) as [B1 B2]. split; [congruence|].
  intros b Hb. by rewrite B2, A2.
Qed.
Lemma frame_call a {A} (c : call A) : frame a (do_call env c).
Proof. apply frame_same. by intros w y w' [= _ <-]. Qed.
Lemma frame_get_server a : frame a get_server.
Proof. apply frame_same. intros w y w' E. unfold get_server in E. destruct (w_server w) eqn:?; by simplify_eq/=. Qed.
Lemma frame_get_sock a b : frame a (get_sock b).
Proof. apply frame_same. intros w y w' E. unfold get_sock in E. destruct (w_socks w !! b) eqn:?; by simplify_eq/=. Qed.
Lemma frame_get_msg a m : frame a (get_msg m).
Proof. apply frame_same. intros w y w' E. unfold get_msg in E. destruct (w_msgs w !! m) eqn:?; by simplify_eq/=. Qed.
Lemma frame_put_msg a m g : frame a (put_msg m g).
Proof. apply frame_same. by intros w y w' [= _ <-]. Qed.
Lemma frame_get_pool a p : frame a (get_pool p).
Proof. apply frame_same. intros w y w' E. unfold get_pool in E. destruct (w_pools w !! p) eqn:?; by simplify_eq/=. Qed.
Lemma frame_put_pool a p x : frame a (put_pool p x).
Proof. apply frame_same. by intros w y w' [= _ <-]. Qed.
Lemma frame_alloc_msg a g : frame a (alloc_msg g).
Proof. apply frame_same. by intros w y w' [= _ <-]. Qed.
Lemma frame_mod_sock a f : frame a (mod_sock a f).
Proof.
  intros w y w' E. unfold mod_sock in E. destruct (w_socks w !! a); simplify_eq/=. split; [done|].
  intros b Hb. by rewrite lookup_insert_ne.
Qed.
#[local] Hint Resolve frame_ret frame_ub frame_call frame_get_server frame_get_sock frame_get_msg frame_put_msg
  frame_get_pool frame_put_pool frame_alloc_msg frame_mod_sock : frame.

Ltac frame_tac := repeat first
  [ solve [eauto 2 with frame] | apply frame_bind; [|intros] | progress case_match | progress cbv zeta ].

Lemma frame_mod_msg a m f : frame a (mod_msg m f).
Proof. unfold mod_msg. frame_tac. Qed.
#[local] Hint Resolve frame_mod_msg : frame.
Lemma frame_send a c m : frame a (io_connection_send env c m).
Proof. unfold io_connection_send. frame_tac. Qed.
Lemma frame_flow a b low : frame a (prx_server_socket_flow_control env b low).
Proof. unfold prx_server_socket_flow_control. frame_tac. Qed.
#[local] Hint Resolve frame_send frame_flow : frame.
Lemma frame_create a p t x y : frame a (io_message_create env p t x y).
Proof. unfold io_message_create. frame_tac. Qed.
Lemma frame_release a m : frame a (io_message_release env m).
Proof. unfold io_message_release. frame_tac. Qed.
Lemma frame_insert_tail a q m : frame a (insert_tail a q m).
Proof. apply frame_mod_sock. Qed.
Lemma frame_insert_head a q m : frame a (insert_head a q m).
Proof. apply frame_mod_sock. Qed.
Lemma frame_remove_head a q : frame a (remove_head a q).
Proof. unfold remove_head. frame_tac. Qed.
#[local] Hint Resolve frame_create frame_release frame_insert_tail frame_insert_head frame_remove_head : frame.
Lemma frame_release_queue a q : frame a (release_queue env a q).
Proof. unfold release_queue. apply frame_bind; [frame_tac|]. intros s. induction (ss_queue s q); cbn; frame_tac. Qed.
Lemma frame_manage a close : frame a (prx_server_socket_manage_read_queue env a close).
Proof.
  unfold prx_server_socket_manage_read_queue. do 2 (apply frame_bind; [frame_tac|intros]).
  match goal with |- frame _ (manage_read_loop _ _ _ _ ?l) => induction l end; cbn [manage_read_loop]; unfold as_response; frame_tac.
Qed.
Lemma frame_prepare a s m : frame a (deliver_prepare a s m).
Proof. unfold deliver_prepare, as_response. frame_tac. Qed.
#[local] Hint Resolve frame_release_queue frame_manage frame_prepare : frame.
Lemma frame_recv a fuel : frame a (deliver_recv env fuel a).
Proof. induction fuel; cbn [deliver_recv]; frame_tac. Qed.
Lemma frame_write a fuel : frame a (deliver_write env fuel a).
Proof. induction fuel; cbn [deliver_write]; frame_tac. Qed.
#[local] Hint Resolve frame_recv frame_write : frame.
Lemma frame_deliver a : frame a (prx_server_socket_deliver_results env a).
Proof. unfold prx_server_socket_deliver_results. frame_tac. Qed.
#[local] Hint Resolve frame_deliver : frame.

Lemma frame_worker a now exit : frame a (worker_socket env a now exit).
Proof.
  assert (Hclosed : frame a (worker_closed env a)) by (unfold worker_closed, do_later; frame_tac).
  assert (Hcollect : forall b, frame a (worker_collect env a now b exit)) by (intros b; unfold worker_collect; frame_tac).
  assert (Hcreated : forall b, frame a (worker_created env a now b exit)) by (intros b; unfold worker_created; frame_tac).
  assert (Hopened : forall b, frame a (worker_opened env a now b exit)) by (intros b; unfold worker_opened; frame_tac).
  unfold worker_socket. frame_tac.
Qed.

(** ** Runs of the cases *)

(** The run of [c] is defined, keeps the invariant, and socket [a] lives on with [P]. *)
Definition runs held a {A} (c : M A) w (P : A -> prx_server_socket -> Prop) : Prop :=
  exists x w' s', c w = Ok (x, w') /\ inv held w' /\ sock_is a s' w' /\ P x s'.

Lemma runs_bind held a {A B} (c : M A) (f : A -> M B) w P Q : runs held a c w P ->
  (forall x w' s', inv held w' -> sock_is a s' w' -> P x s' -> runs held a (f x) w' Q) -> runs held a (c ≫= f) w Q.
Proof.
  intros (x & w1 & s1 & E1 & Hi1 & Es1 & HP) Hf. destruct (Hf x w1 s1 Hi1 Es1 HP) as (y & w2 & s2 & E2 & Hrest).
  exists y, w2, s2. by rewrite (run_bind _ _ _ _ _ E1).
Qed.

Lemma runs_ret held a s {A} (x : A) w (P : A -> prx_server_socket -> Prop) : inv held w -> sock_is a s w -> P x s ->
  runs held a (mret x) w P.
Proof. intros Hi E HP. by exists x, w, s. Qed.

Lemma runs_call held a s {A} (c : call A) w (P : A -> prx_server_socket -> Prop) : inv held w -> sock_is a s w ->
  (forall x, P x s) -> runs held a (do_call env c) w P.
Proof. intros Hi E HP. do 2 eexists. exists s. split; [apply call_run|]. split; [by apply traced_inv|]. split; [done|]. apply HP. Qed.

Lemma runs_weaken held a {A} (c : M A) w P Q : runs held a c w P -> (forall x s, P x s -> Q x s) -> runs held a c w Q.
Proof. intros (x & w' & s' & E & Hi & Es & HP) Himp. exists x, w', s'. auto. Qed.

Lemma runs_get held a s w : inv held w -> sock_is a s w -> runs held a (get_sock a) w (fun x s' => x = s /\ s' = s).
Proof. intros Hi E. exists s, w, s. split; [by apply get_sock_run|]. done. Qed.

Lemma runs_mod held a s f w : quiet f -> inv held w -> sock_is a s w -> runs held a (mod_sock a f) w (fun _ s' => s' = f s).
Proof.
  intros Hf Hi E. do 2 eexists. exists (f s). split; [by apply mod_sock_run|]. split; [by apply inv_quiet|].
  split; [|done]. unfold sock_is. cbn. by rewrite lookup_insert_eq.
Qed.

(** A step of a run, then the rest; a step that reads the socket. *)
Ltac go lem := eapply runs_bind; [by eapply lem|]; cbn beta.
Ltac go_get := go runs_get; intros ? ?w ?s ?Hi ?Es [-> ->].

Lemma runs_release_list held a q l : forall w s, inv held w -> sock_is a s w -> ss_queue s q = l ->
  runs held a (release_list env a q l) w (fun _ s' => like s s' /\ ss_queue s' q = []).
Proof.
  induction l as [|m l IH]; intros w s Hi E Eq; cbn [release_list].
  - eapply runs_ret; [done..|]. split; [apply like_refl|done].
  - set (w1 := requeue w a s q l). pose proof (inv_dequeue held w a s q [] m l Hi E Eq) as Hi1. cbn [app] in Hi1. fold w1 in Hi1.
    destruct (release_run env _ w1 m Hi1) as (w2 & E2 & Hi2 & _ & A2 & _).
    { rewrite upd_eq. destruct (v_held _ _ Hi m). lia. }
    apply (inv_ext _ held) in Hi2; [|intros c; unfold upd; repeat case_decide; subst; lia].
    destruct (IH w2 (set_queue_of q l s) Hi2) as (x & w3 & s3 & E3 & Hi3 & Es3 & Hl & Hn).
    { unfold sock_is. rewrite A2. apply requeue_sock. }
    { apply set_queue_eq. }
    exists x, w3, s3. rewrite (run_bind (mod_sock a (set_queue_of q l)) _ w tt w1 (mod_sock_run _ _ _ _ E)).
    rewrite (run_bind _ _ _ _ _ E2). split_and!; try done.
Qed.

Lemma runs_release_queue held a s q w : inv held w -> sock_is a s w ->
  runs held a (release_queue env a q) w (fun _ s' => like s s' /\ ss_queue s' q = []).
Proof.
  intros Hi E. unfold release_queue. go runs_get. intros x w1 s1 Hi1 E1 [-> ->]. by apply runs_release_list.
Qed.

Lemma runs_manage held a s close w : inv held w -> sock_is a s w ->
  runs held a (prx_server_socket_manage_read_queue env a close) w (fun _ s' => like s s').
Proof.
  intros Hi E. destruct (manage_queue_run env held w a s close Hi E) as (w' & s' & ls & E' & Hi' & Es & Hl & _). by exists tt, w', s'.
Qed.

Lemma runs_deliver held a s w : inv held w -> sock_is a s w ->
  runs held a (prx_server_socket_deliver_results env a) w (fun _ s' => like s s').
Proof.
  intros Hi E. destruct (deliver_results_run env held w a s Hi E) as (w' & s' & n & k & l & E' & Hi' & Es & Hl & _). by exists tt, w', s'.
Qed.

Lemma runs_closed held a s w : inv held w -> sock_is a s w ->
  runs held a (worker_closed env a) w (fun _ s' => ss_state s' = ss_state s).
Proof.
  intros Hi E. unfold worker_closed. go runs_get. intros x w1 s1 Hi1 E1 [-> ->].
  assert (Hlater : runs held a (mod_sock a (set_stream None);; do_later env (t_free a) 2000) w1 (fun _ s' => ss_state s' = ss_state s)).
  { eapply runs_bind; [by eapply runs_mod|]. intros ? w2 s2 Hi2 E2 ->. by eapply runs_call. }
  destruct (ss_stream s); [|done]. destruct (ss_server_stream s); [done|]. by eapply runs_call.
Qed.

(** Where a socket that ends goes: it is closed first if it is still open below. *)
Definition ended s : prx_server_socket_state := match ss_sock s with None => st_closed | Some _ => st_closing end.
Definition lingers s : bool :=
  bool_decide (ss_sock s <> None) && (bool_decide (ss_queue s q_send <> []) || bool_decide (ss_queue s q_recv <> [])).

(** The states a visit of the worker may leave a socket in. *)
Definition worker_next s (timedout exit : bool) (st : prx_server_socket_state) : Prop :=
  match ss_state s with
  | st_opened => if timedout || exit
                 then st = ended s \/ (timedout = true /\ exit = false /\ st = st_created)
                 else st = st_opened
  | st_created => st = if timedout || exit then ended s else st_created
  | st_collect => st = if lingers s && negb timedout && negb exit then st_collect else ended s
  | st_closing => st = if timedout then st_closed else st_closing
  | st_closed => st = st_closed
  end.

Lemma runs_collect held a s now timedout exit w : inv held w -> sock_is a s w ->
  runs held a (worker_collect env a now timedout exit) w (fun _ s' =>
    ss_state s' = if lingers s && negb timedout && negb exit then ss_state s else ended s).
Proof.
  intros Hi E. unfold worker_collect. go runs_get. intros x w1 s1 Hi1 E1 [-> ->]. unfold ended, lingers.
  destruct (ss_sock s) as [k|] eqn:Ek.
  - rewrite (bool_decide_eq_true_2 (Some k <> None)) by done. cbn [andb]. case_match; [by eapply runs_ret|].
    eapply runs_bind; [by eapply runs_mod|]. intros ? w2 s2 Hi2 E2 ->. eapply runs_bind; [by eapply runs_manage|].
    intros ? w3 s3 Hi3 E3 L3. eapply runs_call; [done..|]. intros ?. by rewrite L3.
  - eapply runs_weaken; [by eapply runs_mod|]. by intros _ s' ->.
Qed.

Lemma runs_created held a s now timedout exit w : inv held w -> sock_is a s w ->
  runs held a (worker_created env a now timedout exit) w (fun _ s' =>
    ss_state s' = if timedout || exit then ended s else ss_state s).
Proof.
  intros Hi E. unfold worker_created. rewrite <- negb_orb. destruct (timedout || exit) eqn:Eto; cbn [negb]; [|by eapply runs_ret].
  eapply runs_bind; [by eapply runs_mod|]. intros ? w2 s2 Hi2 E2 ->.
  eapply runs_bind; [by eapply runs_release_queue|]. intros ? w3 s3 Hi3 E3 [L3 _].
  eapply runs_bind; [by eapply runs_release_queue|]. intros ? w4 s4 Hi4 E4 [L4 _].
  eapply runs_weaken; [by eapply runs_collect|]. cbn beta. intros _ s' ->.
  rewrite <- andb_assoc, <- negb_orb, Eto, andb_false_r. rewrite L4, L3. done.
Qed.

Lemma runs_opened held a s now timedout exit w : inv held w -> sock_is a s w -> ss_state s = st_opened ->
  runs held a (worker_opened env a now timedout exit) w (fun _ s' => worker_next s timedout exit (ss_state s')).
Proof.
  intros Hi E Est. unfold worker_opened, worker_next. rewrite Est. rewrite <- negb_orb.
  destruct (timedout || exit) eqn:Eto; cbn [negb]; [|by eapply runs_ret].
  eapply runs_bind; [by eapply runs_mod|]. intros ? w2 s2 Hi2 E2 ->.
  assert (Hrest : forall w3, inv held w3 -> sock_is a (set_state st_created s) w3 ->
    runs held a (worker_created env a now timedout exit) w3 (fun _ s' => ss_state s' = ended s)).
  { intros w3 Hi3 E3. eapply runs_weaken; [by eapply runs_created|]. cbn beta. intros _ s' ->. by rewrite Eto. }
  destruct (timedout && negb exit) eqn:Eb.
  - apply andb_true_iff in Eb as [-> ->%negb_true_iff]. go_get.
    set (s0 := set_state st_created s) in *.
    destruct (create_run env held w0 (ss_message_pool s0) io_message_type_close (ss_id s0) (ss_stream_id s0) Hi0) as (r & w3 & E3 & A3 & _ & Hr).
    { intros p Ep. by apply (v_mpool _ _ Hi0 a s0). }
    assert (Es3 : sock_is a s0 w3) by (unfold sock_is; by rewrite A3).
    destruct r as [m|e].
    + destruct Hr as (H0 & Hi3 & g & Eg & Hg).
      destruct (append_run (upd held m 1) w3 a s0 q_recv m g Hi3 Es3 Eg) as (w4 & E4 & Hi4 & Es4 & _); [by rewrite upd_eq|by rewrite upd_eq|].
      apply (inv_ext _ held) in Hi4; [|intros c; unfold upd; repeat case_decide; subst; lia].
      enough (runs held a (prx_server_socket_deliver_results env a;; mod_sock a (set_last_activity now)) w4
        (fun _ s' => ss_state s' = st_created)) as (y & w5 & s5 & E5 & Hi5 & Es5 & Hst5).
      { exists y, w5, s5. rewrite (run_bind _ _ _ _ _ E3). cbn beta iota. rewrite (run_bind _ _ _ _ _ E4). split_and!; try done. auto. }
      eapply runs_bind; [by eapply runs_deliver|]. intros ? w5 s5 Hi5 E5 Hst5.
      eapply runs_weaken; [by eapply runs_mod|]. cbn beta. intros ? s9 ->. cbn. by rewrite Hst5.
    + destruct (Hrest w3 Hr Es3) as (y & w4 & s4 & E4 & Hi4 & Es4 & Hst). exists y, w4, s4.
      rewrite (run_bind _ _ _ _ _ E3). split_and!; try done. by left.
  - eapply runs_weaken; [by apply Hrest|]. cbn beta. intros _ s' ->. by left.
Qed.

(** A visit of the worker: no freed memory is used, and the socket moves on as
    [worker_next] says; its entry is removed when it is closed. *)
Lemma runs_worker held a s now exit w : inv held w -> sock_is a s w ->
  runs held a (worker_socket env a now exit) w (fun removed s' =>
    worker_next s (socket_timedout s now) exit (ss_state s') /\
    removed = match ss_state s with st_closed => true | st_closing => socket_timedout s now | _ => false end).
Proof.
  intros Hi E. unfold worker_socket, worker_next. go_get. destruct (ss_state s) eqn:Est.
  - eapply runs_bind; [by eapply runs_created|]. intros ? w1 s1 Hi1 E1 Hst. eapply runs_ret; [done..|].
    by rewrite Hst, Est.
  - eapply runs_bind; [by eapply runs_opened|]. intros ? w1 s1 Hi1 E1 Hn. eapply runs_ret; [done..|].
    split; [|done]. unfold worker_next in Hn. by rewrite Est in Hn.
  - eapply runs_bind; [by eapply runs_collect|]. intros ? w1 s1 Hi1 E1 Hst. eapply runs_ret; [done..|]. by rewrite Hst, Est.
  - destruct (socket_timedout s now); cbn [negb]; [|by eapply runs_ret].
    eapply runs_bind; [by eapply runs_mod|]. intros ? w1 s1 Hi1 E1 ->.
    eapply runs_bind; [by eapply runs_closed|]. intros ? w2 s2 Hi2 E2 Hst. by eapply runs_ret.
  - eapply runs_bind; [by eapply runs_closed|]. intros ? w2 s2 Hi2 E2 Hst. eapply runs_ret; [done..|]. by rewrite Hst.
Qed.

(** ** The loop over the table *)
Context `{!hashtable_laws T I}.
Implicit Types (t : T) (l : list (io_ref * Z)).

(** The worker removes this socket when it visits it. *)
Definition collectable w (now a : Z) : bool :=
  match w_socks w !! a with
  | Some s => match ss_state s with st_closed => true | st_closing => socket_timedout s now | _ => false end
  | None => false
  end.

(** The entries that are left: one that follows a removed entry is not visited. *)
Fixpoint swept (c : Z -> bool) l : list (io_ref * Z) :=
  match l with
  | [] => []
  | x :: l => if c (snd x) then match l with [] => [] | y :: l => y :: swept c l end else x :: swept c l
  end.

(** The entries that are visited. *)
Fixpoint visited (c : Z -> bool) l : list (io_ref * Z) :=
  match l with
  | [] => []
  | x :: l => x :: if c (snd x) then match l with [] => [] | y :: l => visited c l end else visited c l
  end.
Lemma visited_cons c x l : visited c (x :: l) = x :: visited c (if c (snd x) then tail l else l).
Proof. cbn. destruct (c (snd x)); [by destruct l|done]. Qed.

(** The sockets [vs] moved on, all others are as they were. *)
Definition moved (vs : list Z) (now : Z) (exit : bool) w w' : Prop := forall b s, w_socks w !! b = Some s -> exists s',
  w_socks w' !! b = Some s' /\ if decide (b ∈ vs) then worker_next s (socket_timedout s now) exit (ss_state s') else s' = s.

Definition live w l : Prop := Forall (fun x => is_Some (w_socks w !! snd x)) l.

Lemma moved_live vs now exit w w' l : moved vs now exit w w' -> live w l -> live w' l.
Proof.
  intros Hm Hl. eapply Forall_impl; [exact Hl|]. cbn beta. intros x [s Es]. destruct (Hm _ s Es) as (s' & Es' & _). eauto.
Qed.

Lemma swept_ext c c' l : (forall a, a ∈ map snd l -> c a = c' a) -> swept c l = swept c' l.
Proof.
  remember (length l) as n eqn:En. revert l En. induction (lt_wf n) as [n _ IH]. intros [|x l] En Hc; [done|]. cbn [swept].
  rewrite (Hc (snd x)) by (cbn; left). cbn in En. destruct (c' (snd x)).
  - destruct l as [|y l]; [done|]. f_equal. eapply (IH (length l)); [cbn in En; lia|done|]. intros a Ha. apply Hc. cbn. set_solver.
  - f_equal. eapply (IH (length l)); [lia|done|]. intros a Ha. apply Hc. cbn. set_solver.
Qed.

Lemma visited_ext c c' l : (forall a, a ∈ map snd l -> c a = c' a) -> visited c l = visited c' l.
Proof.
  remember (length l) as n eqn:En. revert l En. induction (lt_wf n) as [n _ IH]. intros [|x l] En Hc; [done|].
  rewrite !visited_cons, (Hc (snd x)) by (cbn; left). f_equal. destruct (c' (snd x)).
  - destruct l as [|y l]; [done|]. eapply (IH (length l)); [cbn in En; lia|done|]. intros a Ha. apply Hc. cbn. set_solver.
  - eapply (IH (length l)); [cbn in En; lia|done|]. intros a Ha. apply Hc. cbn. set_solver.
Qed.
Lemma visited_sub c l a : a ∈ map snd (visited c l) -> a ∈ map snd l.
Proof.
  remember (length l) as n eqn:En. revert l En. induction (lt_wf n) as [n _ IH]. intros [|x l] ->; [done|].
  rewrite visited_cons. cbn [map]. rewrite !elem_of_cons. intros [->|Ha]; [by left|]. right. destruct (c (snd x)).
  - destruct l as [|y l]; [done|]. cbn. right. by apply (IH (length l) ltac:(cbn; lia) l).
  - by apply (IH (length l) ltac:(cbn; lia) l).
Qed.

Lemma swept_length c l : (length (swept c l) <= length l)%nat.
Proof.
  remember (length l) as n eqn:En. revert l En. induction (lt_wf n) as [n _ IH]. intros [|x l] ->; [done|]. cbn [swept].
  destruct (c (snd x)); [destruct l as [|y l]; [cbn; lia|]|]; cbn; pose proof (IH (length l) ltac:(cbn; lia) l eq_refl); lia.
Qed.

(** One visit. *)
Lemma visit_run held w srv a s now : inv held w -> w_server w = Some srv -> sock_is a s w -> exists w',
  worker_socket env a now (srv_exit srv) w = Ok (collectable w now a, w') /\ inv held w' /\ w_server w' = Some srv /\
  moved [a] now (srv_exit srv) w w' /\ (forall b, b <> a -> w_socks w' !! b = w_socks w !! b).
Proof.
  intros Hi Esrv E. destruct (runs_worker held a s now (srv_exit srv) w Hi E) as (r & w' & s' & E' & Hi' & Es' & Hn & Hr).
  destruct (frame_worker a now (srv_exit srv) w r w' E') as [F1 F2]. exists w'.
  unfold collectable. rewrite E, <- Hr. split_and!; try done; [congruence|].
  intros b sb Eb. destruct (decide (b = a)) as [->|Hne].
  - assert (sb = s) as -> by (unfold sock_is in E; congruence). exists s'. by rewrite decide_True by by left.
  - exists sb. rewrite F2 by done. by rewrite decide_False by by rewrite list_elem_of_singleton.
Qed.

Lemma moved_trans vs now exit w w1 w2 a : moved [a] now exit w w1 -> moved vs now exit w1 w2 -> a ∉ vs -> moved (a :: vs) now exit w w2.
Proof.
  intros M1 M2 Ha b s Eb. destruct (M1 b s Eb) as (s1 & E1 & H1). destruct (M2 b s1 E1) as (s2 & E2 & H2). exists s2. split; [done|].
  destruct (decide (b = a)) as [->|Hne].
  - rewrite decide_True in H1 by by left. rewrite decide_False in H2 by done. rewrite decide_True by by left. by subst.
  - rewrite decide_False in H1 by by rewrite list_elem_of_singleton. subst s1.
    destruct (decide (b ∈ vs)); [by rewrite decide_True by by right|]. rewrite decide_False; [done|]. by intros [|]%elem_of_cons.
Qed.

(** After a visit, the entries that are left to visit are as they were. *)
Lemma collectable_same now w w1 a l : (forall b, b <> a -> w_socks w1 !! b = w_socks w !! b) -> a ∉ map snd l ->
  swept (collectable w1 now) l = swept (collectable w now) l /\ visited (collectable w1 now) l = visited (collectable w now) l.
Proof.
  intros F Ha. split; [apply swept_ext|apply visited_ext]; intros b Hb; unfold collectable; (rewrite F; [done|]); by intros ->.
Qed.

(** What a turn of the loop leaves, after the visit. *)
Lemma turn_run now fuel w w1 srv itr x l (removed : bool) : w_server w = Some srv ->
  worker_socket env (it_value itr) now (srv_exit srv) w = Ok (removed, w1) -> w_server w1 = Some srv ->
  it_rest itr (srv_sockets srv) = x :: l -> exists t' itr' w2 rest',
  worker_loop env (S fuel) itr now w =
    (if bool_decide (rest' <> []) then worker_loop env fuel itr' now w2 else Ok (tt, w2)) /\
  w2 = mk_world (Some (set_table t' srv)) (w_socks w1) (w_msgs w1) (w_pools w1) (w_next w1) (w_trace w1) /\
  ht_items t' = it_done itr' t' ++ rest' /\ (rest' <> [] -> it_rest itr' t' = rest') /\
  if removed
  then rest' = tail l /\ it_done itr' t' = it_done itr (srv_sockets srv) ++ take 1 l
  else rest' = l /\ it_done itr' t' = it_done itr (srv_sockets srv) ++ [x].
Proof.
  intros Esrv E1 Esrv1 Er. cbn [worker_loop]. rewrite (run_bind get_server _ w srv w) by (unfold get_server; by rewrite Esrv).
  rewrite (run_bind _ _ _ _ _ E1), (run_bind get_server _ w1 srv w1) by (unfold get_server; by rewrite Esrv1). destruct removed.
  - destruct (it_remove itr (srv_sockets srv)) as [[b1 i1] t1] eqn:Erm.
    destruct (it_remove_rest _ _ _ _ _ _ _ Er Erm) as (Hit & Hdone & Hrest & _).
    set (w2 := mk_world (Some (set_table t1 srv)) (w_socks w1) (w_msgs w1) (w_pools w1) (w_next w1) (w_trace w1)).
    destruct (it_advance i1 t1) as [more i2] eqn:Ead. pose proof (it_advance_rest _ _ _ _ Ead) as Hadv. rewrite Hrest, Hdone in Hadv.
    exists t1, i2, w2, (tail l).
    rewrite (run_bind _ _ w1 i1 w2) by (rewrite (run_bind _ _ w1 tt w2) by done; done).
    rewrite (run_bind get_server _ w2 (set_table t1 srv) w2) by done. change (srv_sockets (set_table t1 srv)) with t1. rewrite Ead.
    destruct l as [|y l].
    + destruct Hadv as (D & R & ->). split_and!; try done; [by rewrite Hit, D|by rewrite D, app_nil_r].
    + destruct Hadv as (D & R & ->). cbn [tail]. split_and!; try done; [by destruct l|by rewrite Hit, D, <- app_assoc].
  - set (w2 := mk_world (Some (set_table (srv_sockets srv) srv)) (w_socks w1) (w_msgs w1) (w_pools w1) (w_next w1) (w_trace w1)).
    assert (w2 = w1) as Ew by (unfold w2; destruct w1, srv; cbn in *; by rewrite Esrv1).
    destruct (it_advance itr (srv_sockets srv)) as [more i2] eqn:Ead. pose proof (it_advance_rest _ _ _ _ Ead) as Hadv.
    rewrite Er in Hadv. destruct Hadv as (D & R & ->). exists (srv_sockets srv), i2, w2, l.
    rewrite (run_bind (mret itr) _ w1 itr w1) by done. rewrite (run_bind get_server _ w1 srv w1) by (unfold get_server; by rewrite Esrv1).
    rewrite Ead. split_and!; try done; [rewrite Ew; by destruct l|].
    rewrite D, <- app_assoc. cbn [app]. rewrite <- Er. apply it_items. by rewrite Er.
Qed.

Lemma worker_loop_run held now fuel : forall w srv itr x l, inv held w -> w_server w = Some srv ->
  it_rest itr (srv_sockets srv) = x :: l -> (length l < fuel)%nat -> live w (x :: l) -> NoDup (map snd (x :: l)) ->
  exists w' t', worker_loop env fuel itr now w = Ok (tt, w') /\ inv held w' /\ w_server w' = Some (set_table t' srv) /\
    ht_items t' = it_done itr (srv_sockets srv) ++ swept (collectable w now) (x :: l) /\
    moved (map snd (visited (collectable w now) (x :: l))) now (srv_exit srv) w w'.
Proof.
  induction fuel as [|fuel IH]; intros w srv itr x l Hi Esrv Er Hf Hl Hnd; [lia|].
  inversion Hl as [|? ? [s Es] Hl']; subst. cbn [map] in Hnd. apply NoDup_cons in Hnd as [Hx Hnd].
  destruct (visit_run held w srv (snd x) s now Hi Esrv Es) as (w1 & E1 & Hi1 & Esrv1 & Hm1 & F1).
  rewrite <- (it_value_rest _ _ _ _ Er) in E1.
  destruct (turn_run now fuel w w1 srv itr x l _ Esrv E1 Esrv1 Er) as (t' & itr' & w2 & rest' & E2 & Ew2 & Hit & Hr & Hcase).
  assert (Hi2 : inv held w2) by (rewrite Ew2; apply (inv_same held w1); done).
  rewrite (it_value_rest _ _ _ _ Er) in Hcase.
  assert (Hk : exists k, l = k ++ rest').
  { destruct (collectable w now (snd x)); destruct Hcase as [-> _]; [|by exists []]. exists (take 1 l). by destruct l. }
  assert (Hdone : it_done itr' t' ++ swept (collectable w now) rest' =
    it_done itr (srv_sockets srv) ++ swept (collectable w now) (x :: l)).
  { cbn [swept]. destruct (collectable w now (snd x)); destruct Hcase as [-> ->]; rewrite <- app_assoc; [|done]. by destruct l. }
  destruct Hk as [k ->]. rewrite map_app in Hnd, Hx. apply NoDup_app in Hnd as (_ & _ & Hnd).
  assert (Hx' : snd x ∉ map snd rest') by set_solver. rewrite length_app in Hf.
  assert (F2 : forall b, b <> snd x -> w_socks w2 !! b = w_socks w !! b) by (by rewrite Ew2).
  assert (Hm2 : moved [snd x] now (srv_exit srv) w w2) by (by rewrite Ew2).
  destruct (collectable_same now w w2 _ _ F2 Hx') as [Hsw Hvis]. rewrite <- Hsw in Hdone.
  assert (Hv : map snd (visited (collectable w now) (x :: k ++ rest')) = snd x :: map snd (visited (collectable w2 now) rest')).
  { rewrite visited_cons, Hvis. cbn [map]. f_equal. by destruct (collectable w now (snd x)); destruct Hcase as [<- _]. }
  rewrite Hv, E2. destruct rest' as [|y l'].
  - cbn [swept] in Hdone. rewrite bool_decide_eq_false_2 by (by intros []). exists w2, t'. split; [done|]. split; [done|].
    split; [by rewrite Ew2|]. split; [by rewrite Hit, Hdone|]. done.
  - rewrite bool_decide_eq_true_2 by done.
    destruct (IH w2 (set_table t' srv) itr' y l') as (w3 & t3 & E3 & Hi3 & Esrv3 & Hit3 & Hm3); try done.
    + by rewrite Ew2.
    + by apply Hr.
    + cbn in Hf. lia.
    + eapply moved_live; [done|]. by apply Forall_app in Hl' as [_ ?].
    + exists w3, t3. split; [done|]. split; [done|]. split; [done|]. split; [by rewrite Hit3, <- Hdone|].
      eapply moved_trans; [exact Hm2|exact Hm3|]. intros Hin%visited_sub. done.
Qed.

(** ** Whole runs *)

Definition now_of w : Z := env Z (w_trace w) c_ticks_get.

(** The server is freed when it exits and no entry is left. *)
Definition after_worker (srv : prx_server T) t : option (prx_server T) :=
  if bool_decide (ht_items t = []) && srv_exit srv then None else Some (set_table t srv).

Lemma finish_worker held w srv t : inv held w -> w_server w = Some (set_table t srv) -> exists w',
  (srv ← get_server; if bool_decide (ht_count (srv_sockets srv) = 0) && srv_exit srv then prx_server_free env else mret tt) w = Ok (tt, w') /\
  w_server w' = after_worker srv t /\ w_socks w' = w_socks w /\ (w_server w' <> None -> inv held w').
Proof.
  intros Hi E. rewrite (run_bind get_server _ w (set_table t srv) w) by (unfold get_server; by rewrite E).
  unfold after_worker. change (srv_sockets (set_table t srv)) with t. change (srv_exit (set_table t srv)) with (srv_exit srv).
  rewrite ht_count_items, (bool_decide_ext (zlen (ht_items t) = 0) (ht_items t = [])).
  2:{ unfold zlen. destruct (ht_items t); cbn; naive_solver lia. }
  destruct (bool_decide _ && srv_exit srv); [|by exists w].
  unfold prx_server_free. rewrite (run_bind get_server _ w (set_table t srv) w) by (unfold get_server; by rewrite E).
  destruct (srv_browser (set_table t srv)); eexists; (split; [reflexivity|]); done.
Qed.

(** The sockets that a run of the worker visits: none if there is no memory for the iterator. *)
Definition visits w (srv : prx_server T) : list Z :=
  match ht_iterator (srv_sockets srv) with
  | Some _ => map snd (visited (collectable w (now_of w)) (ht_items (srv_sockets srv)))
  | None => []
  end.

(** A run of the worker. *)
Lemma worker_run held w srv : inv held w -> w_server w = Some srv -> let l := ht_items (srv_sockets srv) in
  NoDup (map snd l) -> live w l -> exists w' t',
  prx_server_worker env w = Ok (tt, w') /\ w_server w' = after_worker srv t' /\
  ht_items t' = match ht_iterator (srv_sockets srv) with Some _ => swept (collectable w (now_of w)) l | None => l end /\
  moved (visits w srv) (now_of w) (srv_exit srv) w w' /\ (w_server w' <> None -> inv held w').
Proof.
  intros Hi Esrv l Hnd Hl. unfold prx_server_worker. rewrite (run_bind _ _ _ _ _ (call_run env c_ticks_get w)).
  change (answer env w c_ticks_get) with (now_of w). set (now := now_of w). set (w1 := traced w c_ticks_get now).
  rewrite (run_bind (do_later env t_worker 5000) _ _ _ _ (unit_call_run env _ w1)).
  set (w2 := traced w1 (c_do_later t_worker 5000) tt). assert (Hi2 : inv held w2) by (by do 2 apply traced_inv).
  rewrite (run_bind get_server _ w2 srv w2) by (unfold get_server; cbn; by rewrite Esrv).
  assert (Hstay : moved [] now (srv_exit srv) w w2) by (intros b s Eb; by exists s).
  assert (Hloop : exists w3 t', (if bool_decide (ht_count (srv_sockets srv) > 0) then
     match ht_iterator (srv_sockets srv) with
     | Some itr => worker_loop env (Z.to_nat (ht_count (srv_sockets srv))) itr now
     | None => mret tt
     end else mret tt) w2 = Ok (tt, w3) /\ inv held w3 /\ w_server w3 = Some (set_table t' srv) /\
     ht_items t' = match ht_iterator (srv_sockets srv) with Some _ => swept (collectable w now) l | None => l end /\
     moved (visits w srv) now (srv_exit srv) w w3).
  { unfold visits. fold now. fold l. assert (Hsame : Some srv = Some (set_table (srv_sockets srv) srv)) by (by destruct srv).
    rewrite ht_count_items. fold l. destruct (ht_iterator (srv_sockets srv)) as [itr|] eqn:Eit.
    - destruct (ht_iterator_items _ _ Eit) as [Hd Hr]. fold l in Hr. destruct l as [|x l'] eqn:El.
      + exists w2, (srv_sockets srv). split; [done|]. by rewrite <- Hsame.
      + rewrite bool_decide_eq_true_2 by (rewrite zlen_cons; pose proof (zlen_nonneg l'); lia).
        destruct (worker_loop_run held now (Z.to_nat (zlen (x :: l'))) w2 srv itr x l') as (w3 & t3 & E3 & Hi3 & Es3 & Hit3 & Hm3); try done.
        { unfold zlen. cbn. lia. }
        exists w3, t3. rewrite Hd in Hit3. by split_and!.
    - exists w2, (srv_sockets srv). rewrite <- Hsame. split; [by case_match|]. done. }
  destruct Hloop as (w3 & t' & E3 & Hi3 & Es3 & Hit & Hm3). rewrite (run_bind _ _ _ _ _ E3).
  destruct (finish_worker held w3 srv t' Hi3 Es3) as (w4 & E4 & Es4 & Hs4 & Hi4). exists w4, t'.
  split_and!; try done. intros b s Eb. rewrite Hs4. by apply Hm3.
Qed.

(** C22: A run of the worker uses no freed memory.  It visits the sockets of the table in the order of the iterator, but for
    the entry that follows a removed one, which waits for the next run.  Every socket it visits goes to the state that
    [worker_next] says, given its state, whether it timed out and whether the server exits: a socket that timed out or exits
    ends, where one that is opened goes back to created if the message that closes its stream can be made; one that lingers with
    data stays; one that is closing is closed when it timed out.  Every other socket is left as it was.  The entries of the
    visited sockets that were closed, or timed out while closing, are removed, and no others; an exiting server is freed
    when its table is empty. *)
Theorem worker_sweeps held w srv : inv held w -> w_server w = Some srv -> let l := ht_items (srv_sockets srv) in
  NoDup (map snd l) -> live w l -> exists w' t',
  prx_server_worker env w = Ok (tt, w') /\ w_server w' = after_worker srv t' /\
  ht_items t' = match ht_iterator (srv_sockets srv) with Some _ => swept (collectable w (now_of w)) l | None => l end /\
  moved (visits w srv) (now_of w) (srv_exit srv) w w' /\ (w_server w' <> None -> inv held w').
Proof. apply worker_run. Qed.

(** ** Exit *)

(** The worker runs [k] times, or until the server is freed. *)
Fixpoint workers (k : nat) : M unit := fun w =>
  match k with
  | O => Ok (tt, w)
  | S k => match w_server w with
           | None => Ok (tt, w)
           | Some _ => (prx_server_worker env;; workers k) w
           end
  end.

Definition closed w l : Prop := Forall (fun x => exists s, w_socks w !! snd x = Some s /\ ss_state s = st_closed) l.

(** Every second closed socket is removed. *)
Lemma swept_closed w now l : closed w l -> exists l', swept (collectable w now) l = l' /\ sublist l' l /\
  (length l' = length l / 2)%nat.
Proof.
  remember (length l) as n eqn:En. revert l En. induction (lt_wf n) as [n _ IH]. intros [|x l] -> Hc; [by exists []|].
  inversion Hc as [|? ? (s & Es & Hst) Hc']; subst.
  assert (Ec : collectable w now (snd x) = true) by (unfold collectable; by rewrite Es, Hst).
  cbn [swept]. rewrite Ec. destruct l as [|y l]; [exists []; split_and!; [done|apply sublist_nil_l|done]|].
  inversion Hc' as [|? ? _ Hc'']; subst. destruct (IH (length l) ltac:(cbn; lia) l eq_refl Hc'') as (l' & -> & Hs & Hn).
  eexists. split; [done|]. split; [by apply sublist_cons, sublist_skip|]. cbn [length]. rewrite Hn.
  change (S (S (length l))) with (1 * 2 + length l)%nat. rewrite Nat.div_add_l by lia. lia.
Qed.

Lemma workers_run k : forall held w srv, inv held w -> w_server w = Some srv -> srv_exit srv = true ->
  let l := ht_items (srv_sockets srv) in NoDup (map snd l) -> closed w l -> (forall t, is_Some (ht_iterator t)) -> (0 < k)%nat ->
  exists w', workers k w = Ok (tt, w') /\ (w_server w' = None <-> (length l < 2 ^ k)%nat).
Proof.
  induction k as [|k IH]; intros held w srv Hi Esrv Hex l Hnd Hc Hit Hk; [lia|]. cbn [workers]. rewrite Esrv.
  destruct (worker_run held w srv Hi Esrv Hnd) as (w1 & t1 & E1 & Es1 & Hit1 & Hm1 & Hi1).
  { eapply Forall_impl; [exact Hc|]. cbn beta. intros x (s & Es & _). eauto. }
  fold l in Hit1. destruct (Hit (srv_sockets srv)) as [itr Eitr]. rewrite Eitr in Hit1.
  destruct (swept_closed w (now_of w) l Hc) as (l1 & El1 & Hsub & Hlen). rewrite El1 in Hit1.
  rewrite (run_bind _ _ _ _ _ E1). unfold after_worker in Es1. rewrite Hex, andb_true_r, Hit1 in Es1.
  assert (Hpow : (length l < 2 ^ S k <-> length l1 < 2 ^ k)%nat).
  { rewrite Hlen. cbn [Nat.pow]. pose proof (Nat.div_mod_eq (length l) 2). pose proof (Nat.mod_upper_bound (length l) 2). lia. }
  destruct (bool_decide_reflect (l1 = [])) as [Hn|Hne].
  - rewrite Hn in Hpow. exists w1. split; [destruct k; cbn; [done|by rewrite Es1]|]. split; [|done]. intros _. apply Hpow. cbn.
    pose proof (Nat.pow_nonzero 2 k). lia.
  - destruct k as [|k].
    + exists w1. split; [done|]. rewrite Es1. split; [done|]. intros Hl. apply Hpow in Hl. destruct l1; cbn in *; [done|lia].
    + destruct (IH held w1 (set_table t1 srv)) as (w2 & E2 & Hw2); try done.
      * apply Hi1. by rewrite Es1.
      * cbn. rewrite Hit1. eapply sublist_NoDup; [exact Hnd|]. by apply (fmap_sublist snd).
      * cbn. rewrite Hit1. apply Forall_forall. intros x Hx. pose proof (proj1 (Forall_forall _ _) Hc) as Hc1.
        destruct (Hc1 x) as (s & Es & Hst); [by eapply elem_of_sublist|]. destruct (Hm1 _ s Es) as (s' & Es' & Hs').
        exists s'. split; [done|]. case_decide; [|by subst]. unfold worker_next in Hs'. by rewrite Hst in Hs'.
      * lia.
      * exists w2. split; [done|]. cbn in Hw2. rewrite Hit1 in Hw2. rewrite Hw2. by rewrite Hpow.
Qed.

(** C23: When the server exits and its sockets are closed, [k] runs of the worker free it
    if and only if there are fewer than 2^k sockets: every run halves the table. *)
Theorem exiting_server_freed k held w srv : inv held w -> w_server w = Some srv -> srv_exit srv = true ->
  let l := ht_items (srv_sockets srv) in NoDup (map snd l) -> closed w l -> (forall t, is_Some (ht_iterator t)) -> (0 < k)%nat ->
  exists w', workers k w = Ok (tt, w') /\ (w_server w' = None <-> (length l < 2 ^ k)%nat).
Proof. apply workers_run. Qed.
End Worker.

(** ** Examples *)

(** Three closed sockets, while the server exits. *)
Definition closed_socket : prx_server_socket := set_state st_closed (new_socket (zeros 16)).
Definition closed_world : world table :=
  mk_world (Some (a_server [(repeat 1 16, 1); (repeat 2 16, 2); (repeat 3 16, 3)] true))
    (<[1 := closed_socket]> (<[2 := closed_socket]> {[3 := closed_socket]})) ∅ ∅ 4 [].

Lemma closed_world_sock a s : w_socks closed_world !! a = Some s -> s = closed_socket /\ 0 < a < 4.
Proof.
  cbn. intros E. repeat (apply lookup_insert_Some in E as [[<- <-]|[_ E]]; [by split|]).
  apply lookup_singleton_Some in E as [<- <-]. by split.
Qed.

Lemma closed_world_inv : inv (fun _ => 0) closed_world.
Proof.
  assert (Hno : forall m a q, ~ queued (w_socks closed_world) m a q).
  { intros m a q (s & [-> _]%closed_world_sock & Hm). by apply not_elem_of_nil in Hm. }
  split.
  - by intros m a q ?%Hno.
  - by intros m a q a' q' ?%Hno.
  - intros a s q [-> _]%closed_world_sock. constructor.
  - done.
  - done.
  - done.
  - done.
  - by intros a s p [-> _]%closed_world_sock.
  - intros x Hx. split_and!; [done|done|]. destruct (w_socks closed_world !! x) as [s|] eqn:E; [|done].
    apply closed_world_sock in E. cbn in Hx. lia.
  - by eexists.
Qed.

(** The entry in the middle is left. *)
Lemma worker_sweeps_witness : exists w' t',
  prx_server_worker (calls_succeed 1000) closed_world = Ok (tt, w') /\
  w_server w' = after_worker (a_server [(repeat 1 16, 1); (repeat 2 16, 2); (repeat 3 16, 3)] true) t' /\ t' = [(repeat 2 16, 2)] /\
  moved [1; 3] 1000 true closed_world w' /\ (w_server w' <> None -> inv (fun _ => 0) w').
Proof.
  destruct (worker_sweeps (calls_succeed 1000) (fun _ => 0) closed_world _ closed_world_inv eq_refl)
    as (w' & t' & E & Es & Hit & Hm & Hi).
  - cbn. repeat constructor; set_solver.
  - repeat constructor; by eexists.
  - exists w', t'. split; [exact E|]. split; [exact Es|]. split; [|done]. etrans; [exact Hit|]. vm_compute. reflexivity.
Defined.

Lemma exiting_server_freed_witness : exists w', workers (calls_succeed 1000) 2 closed_world = Ok (tt, w') /\ w_server w' = None.
Proof.
  destruct (exiting_server_freed (calls_succeed 1000) 2 (fun _ => 0) closed_world _ closed_world_inv eq_refl eq_refl) as (w' & E & Hw).
  - cbn. repeat constructor; set_solver.
  - repeat constructor; by eexists.
  - by eexists.
  - lia.
  - exists w'. split; [exact E|]. apply Hw. cbn. lia.
Defined.
End PrxWorker.
