(* ===== verification/PrxServerSpec.v ===== *)
(** * Properties of the proxy server (src/prx_server.c)

    Ports that links and pings must not use, the worker that collects sockets, requests
    and their responses, and what becomes of a link that fails. *)
From stdpp Require Import base option list numbers sets gmap.
From S2P Require Import Prelude PrxTypes UtilString UtilInt IoRef IoProto PrxSock PrxTable PrxSockSafe PrxServer PrxWorker.
Import PrxTypes UtilString UtilInt IoRef IoProto PrxSock PrxTable PrxSockSafe PrxServer PrxWorker.

Module PrxServerSpec.

(** ** Restricted ports *)

(** The ports a configured item stands for. *)
Definition covers (port : Z) (it : item) : Prop :=
  match it with single n => port = n | range a b => Z.min a b <= port <= Z.max a b end.
#[export] Instance covers_dec port it : Decision (covers port it).
Proof. destruct it; unfold covers; apply _. Defined.

Lemma tuples_length l : zlen (concat (map tuple l)) = 2 * zlen l.
Proof.
  induction l as [|it l IH]; [done|]. cbn [map concat]. rewrite zlen_app, zlen_cons, IH.
  replace (zlen (tuple it)) with 2 by (by destruct it). lia.
Qed.

Lemma tuple_bounds port it : exists low high, tuple it = [low; high] /\ low <= high /\ (covers port it <-> low <= port <= high).
Proof. destruct it as [n|a b]; do 2 eexists; (split; [reflexivity|]); cbn [covers]; lia. Qed.

(** A range that ends below the port takes one turn of the loop, one above it two. *)
Lemma restricted_loop_run port l : forall fuel l0, (2 * length l < fuel)%nat ->
  restricted_loop fuel (concat (map tuple (l0 ++ l))) (zlen (l0 ++ l)) port (2 * zlen l0) =
    Ok (if bool_decide (Exists (covers port) l) then er_refused else er_ok).
Proof.
  induction l as [|it l IH]; intros fuel l0 Hf; pose proof (zlen_nonneg l0).
  - destruct fuel; [lia|]. cbn [restricted_loop]. rewrite app_nil_r, bool_decide_eq_false_2 by lia.
    rewrite bool_decide_eq_false_2; [done|]. by intros ?%Exists_nil.
  - destruct fuel as [|fuel]; [cbn in Hf; lia|]. cbn [length] in Hf. pose proof (zlen_nonneg l).
    destruct (tuple_bounds port it) as (low & high & Et & Hle & Hc).
    assert (Hnext : forall fuel, (2 * length l < fuel)%nat -> ~ low <= port <= high ->
      restricted_loop fuel (concat (map tuple (l0 ++ it :: l))) (zlen (l0 ++ it :: l)) port (2 * zlen l0 + 2) =
        Ok (if bool_decide (Exists (covers port) (it :: l)) then er_refused else er_ok)).
    { intros fuel' Hf' Hno. specialize (IH fuel' (l0 ++ [it]) Hf'). rewrite <- app_assoc in IH. cbn [app] in IH.
      replace (2 * zlen (l0 ++ [it])) with (2 * zlen l0 + 2) in IH by (rewrite zlen_app; change (zlen [it]) with 1; lia).
      rewrite IH. rewrite (bool_decide_ext (Exists _ l) (Exists (covers port) (it :: l))); [done|].
      rewrite Exists_cons. naive_solver. }
    assert (Hat : forall k, (k < 2)%nat -> concat (map tuple (l0 ++ it :: l)) !! Z.to_nat (2 * zlen l0 + Z.of_nat k) = [low; high] !! k).
    { intros k Hk. rewrite map_app, concat_app. cbn [map concat]. rewrite Et. pose proof (tuples_length l0) as El.
      unfold zlen in *. rewrite lookup_app_r by lia. rewrite lookup_app_l by (cbn; lia). f_equal. lia. }
    pose proof (Hat 0%nat ltac:(lia)) as H0'. pose proof (Hat 1%nat ltac:(lia)) as H1'.
    rewrite Z.add_0_r in H0'. change (Z.of_nat 1) with 1 in H1'. cbn in H0', H1'.
    assert (Hlt : 2 * zlen l0 + 1 < zlen (l0 ++ it :: l) * 2) by (rewrite zlen_app, zlen_cons; lia).
    cbn [restricted_loop]. rewrite (bool_decide_eq_true_2 (2 * zlen l0 < _)) by lia. rewrite H0'. cbn [chk mbind res_bind].
    destruct (bool_decide_reflect (port >= low)) as [Hlow|Hlow].
    + rewrite H1'. cbn [chk mbind res_bind]. destruct (bool_decide_reflect (port <= high)) as [Hhigh|Hhigh]; [|apply Hnext; lia].
      rewrite bool_decide_eq_true_2; [done|]. apply Exists_cons. left. apply Hc. lia.
    + destruct fuel as [|fuel]; [lia|]. cbn [restricted_loop]. rewrite bool_decide_eq_true_2 by lia. rewrite H1'. cbn [chk mbind res_bind].
      rewrite bool_decide_eq_false_2 by lia. rewrite <- Z.add_assoc. apply Hnext; lia.
Qed.



(** ** Requests and responses *)
Section Requests.
Context {T I : Type} `{hashtable T I}.
Variable env : forall A, list event -> call A -> A.
Implicit Types (w : world T) (a m : Z) (P Q : io_message bytes -> Prop).
Abbreviation M := (PrxSock.M T).

(** The server, the socket a request is for, if any, and the message. *)
Variables (srv : prx_server T) (target : option Z) (m : Z).

(** Server, socket and message are live, and the message has [P]. *)
Definition ready P w : Prop :=
  w_server w = Some srv /\ match target with Some a => is_Some (w_socks w !! a) | None => True end /\
  exists g, w_msgs w !! m = Some g /\ P (ob_msg g).

(** From [P], the run is defined, sends nothing and ends in [Q]. *)
Definition calm P Q {A} (c : M A) : Prop := forall w, ready P w -> exists x w', c w = Ok (x, w') /\ ready Q w' /\ later [] w w'.

(** From [P], the run is defined and sends the message once, on [k], with [Q]. *)
Definition sends_once k P Q {A} (c : M A) : Prop := forall w, ready P w -> exists x w' g r,
  c w = Ok (x, w') /\ ready Q w' /\ later [(k, g, r)] w w' /\ Q g.

Lemma calm_bind P Q R {A B} (c : M A) (f : A -> M B) : calm P Q c -> (forall x, calm Q R (f x)) -> calm P R (c ≫= f).
Proof.
  intros Hc Hf w Hw. destruct (Hc w Hw) as (x & w1 & E1 & H1 & L1). destruct (Hf x w1 H1) as (y & w2 & E2 & H2 & L2).
  exists y, w2. rewrite (run_bind _ _ _ _ _ E1). split_and!; try done. exact (later_trans [] [] _ _ _ L1 L2).
Qed.
Lemma once_after k P Q R {A B} (c : M A) (f : A -> M B) : calm P Q c -> (forall x, sends_once k Q R (f x)) -> sends_once k P R (c ≫= f).
Proof.
  intros Hc Hf w Hw. destruct (Hc w Hw) as (x & w1 & E1 & H1 & L1). destruct (Hf x w1 H1) as (y & w2 & g & r & E2 & H2 & L2 & Hg).
  exists y, w2, g, r. rewrite (run_bind _ _ _ _ _ E1). split_and!; try done. exact (later_trans [] _ _ _ _ L1 L2).
Qed.
Lemma calm_weaken P P' Q {A} (c : M A) : (forall g, P g -> P' g) -> calm P' Q c -> calm P Q c.
Proof. intros Hp Hc w (E1 & E2 & g & Eg & Hg). apply Hc. split_and!; try done. eauto. Qed.

Lemma calm_ret P {A} (x : A) : calm P P (mret x).
Proof. intros w Hw. do 2 eexists. split; [done|]. split; [done|]. apply later_refl. Qed.
Lemma calm_call P {A} (c : call A) : (forall x, send_of (ev c x) = None) -> calm P P (do_call env c).
Proof.
  intros Hc w Hw. do 2 eexists. split; [apply call_run|]. split; [done|]. pose proof (traced_later w c (answer env w c)) as L.
  cbn [sends omap list_omap] in L. by rewrite Hc in L.
Qed.
Lemma calm_server P : calm P P get_server.
Proof. intros w Hw. exists srv, w. split; [unfold get_server; by rewrite (proj1 Hw)|]. split; [done|]. apply later_refl. Qed.
Lemma calm_get P a : target = Some a -> calm P P (get_sock a).
Proof.
  intros Ht w Hw. pose proof Hw as (_ & E2 & _). rewrite Ht in E2. destruct E2 as [s Es]. exists s, w. split; [by apply get_sock_run|]. split; [done|]. apply later_refl.
Qed.
Lemma calm_mod P a f : target = Some a -> calm P P (mod_sock a f).
Proof.
  intros Ht w (E1 & E2 & Hg). rewrite Ht in E2. destruct E2 as [s Es]. do 2 eexists. split; [by apply (mod_sock_run a s)|].
  split; [|by apply later_same]. split_and!; try done. rewrite Ht. cbn. rewrite lookup_insert_eq. eauto.
Qed.
Lemma calm_msg P : calm P P (get_msg m).
Proof. intros w Hw. destruct Hw as (E1 & E2 & g & Eg & Hg). exists g, w. split; [by apply get_msg_run|]. split; [|apply later_refl]. split_and!; eauto. Qed.
Lemma calm_mod_msg P Q f : (forall g, P g -> Q (f g)) -> calm P Q (mod_msg m f).
Proof.
  intros Hf w (E1 & E2 & g & Eg & Hg). do 2 eexists. split; [by apply (mod_msg_run m f g)|]. split; [|by apply later_same].
  split_and!; try done. eexists. cbn. rewrite lookup_insert_eq. split; [done|]. by apply Hf.
Qed.
Lemma calm_pool P x : calm P P (alloc_pool x).
Proof. intros w Hw. do 2 eexists. split; [done|]. split; [done|]. by apply later_same. Qed.
Lemma calm_lift P {A} (r : res A) : r <> UB -> (forall e, r <> Err e) -> calm P P (lift r).
Proof.
  intros Hr He w Hw. destruct r as [x|e|]; [|by destruct (He e eq_refl)|done]. exists x, w. split; [done|]. split; [done|]. apply later_refl.
Qed.

(** The message is sent, and what follows sends nothing. *)
Lemma once_send k P : sends_once k P P (io_connection_send env (Some k) m).
Proof.
  intros w (E1 & E2 & g & Eg & Hg). destruct (send_run env w (Some k) m g Eg) as (r & w' & E & A1 & A2 & A3 & _ & _ & L & _).
  exists r, w', (ob_msg g), r. split_and!; try done. unfold ready. rewrite A1, A2, A3. split_and!; eauto.
Qed.
Lemma once_then k P Q {A B} (c : M A) (f : A -> M B) : sends_once k P Q c -> (forall x, calm Q Q (f x)) -> sends_once k P Q (c ≫= f).
Proof.
  intros Hc Hf w Hw. destruct (Hc w Hw) as (x & w1 & g & r & E1 & H1 & L1 & Hg). destruct (Hf x w1 H1) as (y & w2 & E2 & H2 & L2).
  exists y, w2, g, r. rewrite (run_bind _ _ _ _ _ E1). split_and!; try done. exact (later_trans _ [] _ _ _ L1 L2).
Qed.

(** The request and its response. *)
Variables (cid k : Z).
Definition asked (g : io_message bytes) : Prop := correlation_id g = cid.
Definition responds (g : io_message bytes) : Prop := is_response g = true /\ correlation_id g = cid.

Lemma calm_response P : (forall g, P g -> asked g) -> calm P responds (as_response m).
Proof.
  intros HP. apply calm_mod_msg. intros g Hg. unfold responds. rewrite response_correlation. split; [|by apply HP].
  unfold io_message_as_response. by destruct (io_ref_swap _ _).
Qed.

(** Steps that keep the request or the response as it is. *)
Ltac calm_tac := repeat first
  [ apply calm_ret | apply calm_call; done | apply calm_server | apply calm_get; done | apply calm_mod; done | apply calm_msg
  | apply calm_pool | apply calm_mod_msg; done
  | match goal with |- calm ?P ?Q _ => apply (calm_bind P P Q); [|intros] end
  | progress case_match | progress cbv zeta ].

Lemma once_respond P (f : io_message bytes -> io_message bytes) : (forall g, P g -> responds (f g)) ->
  sends_once k P responds (mod_msg m f;; io_connection_send env (Some k) m).
Proof. intros Hf. eapply once_after; [by apply calm_mod_msg|]. intros _. apply once_send. Qed.

Lemma once_setopt a : target = Some a -> sends_once k asked responds (prx_server_socket_handle_setoptrequest env a (Some k) m).
Proof.
  intros Ht. unfold prx_server_socket_handle_setoptrequest. eapply once_after; [apply calm_msg|]. intros g.
  apply (once_after k asked asked); [unfold setopt_steps; calm_tac|]. intros e.
  eapply once_after; [by apply calm_response|]. intros _. by apply once_respond.
Qed.

Lemma once_getopt a : target = Some a -> sends_once k asked responds (prx_server_socket_handle_getoptrequest env a (Some k) m).
Proof.
  intros Ht. unfold prx_server_socket_handle_getoptrequest. eapply once_after; [apply calm_msg|]. intros g.
  eapply once_after; [by apply calm_response|]. intros _.
  apply (once_after k responds responds); [unfold getopt_steps; calm_tac|]. intros v.
  apply (once_after k responds responds); [calm_tac|]. intros _. apply once_send.
Qed.

Lemma once_close a : target = Some a -> sends_once k asked responds (prx_server_socket_handle_closerequest env a (Some k) m).
Proof.
  intros Ht. unfold prx_server_socket_handle_closerequest. eapply once_after; [by apply calm_response|]. intros _.
  do 2 (apply (once_after k responds responds); [calm_tac|intros]).
  apply (once_after k responds responds); [unfold do_next; calm_tac|]. intros _. by apply once_respond.
Qed.

Lemma calm_open_steps a : target = Some a -> calm asked asked (open_steps env a m).
Proof. intros Ht. unfold open_steps, open_entry, open_stream. calm_tac. Qed.

Lemma once_open a : target = Some a -> sends_once k asked responds (prx_server_socket_handle_openrequest env a (Some k) m).
Proof.
  intros Ht. unfold prx_server_socket_handle_openrequest. eapply once_after; [by apply calm_open_steps|]. intros [[cs entry] result].
  eapply once_after; [by apply calm_response|]. intros _.
  apply (once_after k responds responds); [unfold do_next; calm_tac|]. intros _.
  do 2 (apply (once_after k responds responds); [calm_tac|intros]).
  eapply once_then; [apply once_send|]. intros e. calm_tac.
Qed.

(** The requests a socket answers. *)
Definition control_types : list Z :=
  [io_message_type_close; io_message_type_open; io_message_type_getopt; io_message_type_setopt].

(** The contents of the message are known. *)
Lemma once_known P Q {A} (c : M A) : (forall g, P g -> sends_once k (eq g) Q c) -> sends_once k P Q c.
Proof. intros Hc w (E1 & E2 & g & Eg & Hg). apply (Hc _ Hg). split_and!; eauto. Qed.
Lemma once_weaken P P' Q {A} (c : M A) : (forall g, P g -> P' g) -> sends_once k P' Q c -> sends_once k P Q c.
Proof. intros Hp Hc w (E1 & E2 & g & Eg & Hg). apply Hc. split_and!; eauto. Qed.
Lemma once_get_server Q {A} P (f : prx_server T -> M A) : sends_once k P Q (f srv) -> sends_once k P Q (get_server ≫= f).
Proof.
  intros Hf w Hw. rewrite (run_bind get_server f w srv w); [by apply Hf|]. unfold get_server. by rewrite (proj1 Hw).
Qed.
Lemma calm_get_server P Q {A} (f : prx_server T -> M A) : calm P Q (f srv) -> calm P Q (get_server ≫= f).
Proof.
  intros Hf w Hw. rewrite (run_bind get_server f w srv w); [by apply Hf|]. unfold get_server. by rewrite (proj1 Hw).
Qed.
Lemma once_get_msg Q {A} g (f : message -> M A) : (forall o, ob_msg o = g -> sends_once k (eq g) Q (f o)) ->
  sends_once k (eq g) Q (get_msg m ≫= f).
Proof.
  intros Hf w Hw. destruct Hw as (E1 & E2 & o & Eo & Hg). rewrite (run_bind _ _ _ _ _ (get_msg_run m o w Eo)).
  apply Hf; [done|]. split_and!; eauto.
Qed.

Lemma once_control a g : target = Some a -> srv_listener srv = Some k -> asked g -> type g ∈ control_types ->
  sends_once k (eq g) responds (prx_server_socket_control_handler env a io_connection_received m).
Proof.
  intros Ht Hk Hg Hty. unfold prx_server_socket_control_handler. apply (once_after k (eq g) (eq g)); [by apply calm_get|]. intros s.
  apply once_get_server. cbv zeta. apply once_get_msg. intros o ->. rewrite Hk.
  assert (Hw : forall A (c : M A), sends_once k asked responds c -> sends_once k (eq g) responds c).
  { intros A c. apply once_weaken. by intros ? <-. }
  unfold control_types in Hty. rewrite !elem_of_cons in Hty.
  destruct Hty as [E|[E|[E|[E|[]%elem_of_nil]]]]; rewrite E;
    repeat (rewrite bool_decide_eq_true_2 by done || rewrite bool_decide_eq_false_2 by done); apply Hw.
  - by apply once_close.
  - by apply once_open.
  - by apply once_getopt.
  - by apply once_setopt.
Qed.

Lemma once_invalid : srv_listener srv = Some k -> sends_once k asked responds (prx_server_handle_invalid_socket env m).
Proof.
  intros Hk. unfold prx_server_handle_invalid_socket. apply (once_after k asked asked); [calm_tac|]. intros _.
  eapply once_after; [by apply calm_response|]. intros _. apply once_get_server. rewrite Hk.
  eapply once_then; [apply once_send|]. intros e. calm_tac.
Qed.

(** The configured ports are pairs, as the parser yields them. *)
Definition ports_ok : Prop := exists l, srv_restricted_ports srv = concat (map tuple l) /\ srv_restricted_port_count srv = zlen l.

Lemma calm_ping_steps address : ports_ok -> calm asked asked (ping_steps env address).
Proof.
  intros (l & El & Ec). unfold ping_steps. case_match; [calm_tac|]. apply calm_get_server. rewrite El, Ec.
  assert (Hcheck : forall port, exists e, prx_server_check_restricted_port (concat (map tuple l)) (zlen l) port = Ok e).
  { intros port. eexists. unfold prx_server_check_restricted_port. apply (restricted_loop_run port l _ []). unfold zlen. lia. }
  destruct (Hcheck (un_ip_port address)) as [e ->].
  apply (calm_bind asked asked); [by apply calm_lift|]. intros e'. case_match; [calm_tac|].
  unfold string_from_int. rewrite !bool_decide_eq_false_2 by (unfold MAX_PORT_LENGTH; lia). calm_tac.
Qed.

Lemma once_ping : srv_listener srv = Some k -> ports_ok -> sends_once k asked responds (prx_server_handle_pingrequest env m).
Proof.
  intros Hk Hp. unfold prx_server_handle_pingrequest. eapply once_after; [apply calm_msg|]. intros g.
  eapply once_after; [by apply calm_ping_steps|]. intros r. eapply once_after; [by apply calm_response|]. intros _.
  apply (once_after k responds responds); [calm_tac|]. intros _. apply once_get_server. rewrite Hk.
  eapply once_then; [apply once_send|]. intros e. calm_tac.
Qed.

End Requests.

Section Server.
Context {T I : Type} `{hashtable_laws T I}.
Variable env : forall A, list event -> call A -> A.
Implicit Types (w : world T) (srv : prx_server T).

(** Requests that are answered at once: pings of the server, and all requests to a socket
    but polls and data; a socket that is not there answers everything. *)
Definition answerable srv (g : io_message bytes) : Prop :=
  if io_ref_equals (Some (target_id g)) (Some io_ref_null) then type g = io_message_type_ping
  else ht_search (srv_sockets srv) (target_id g) = None \/ type g ∈ control_types.

End Server.

(** ** Examples *)

(** A server that received message 7. *)
Definition received_world (g : io_message bytes) : world table :=
  mk_world (Some (a_server [] false)) ∅ {[7 := mk_obj 1 None None g]} ∅ 8 [].
Definition a_ping : io_message bytes := new_message io_message_type_ping (repeat 5 16) io_ref_null.
Definition a_link : io_message bytes :=
  with_content (link_request (mk_link_request LINK_VERSION zero_properties))
    (new_message io_message_type_link (repeat 5 16) io_ref_null).


(** No socket can be created. *)
Definition create_fails (A : Type) (trace : list event) (c : call A) : A :=
  match c in call A return A -> A with
  | c_pal_socket_create _ => fun _ => inr er_connecting
  | _ => fun x => x
  end (calls_succeed 1000 A trace c).

(** A link request that fails answers with the error and frees its socket, but leaves it
    in the table: the next run of the worker uses freed memory. *)
Theorem failed_link_crashes_worker :
  (prx_server_handler create_fails io_connection_received 7;; prx_server_worker create_fails) (received_world a_link) = UB.
Proof. vm_compute. reflexivity. Qed.

(** The message of a link request is kept without a reference.  Once the transport has
    released it, completing the link uses freed memory. *)
Theorem link_message_freed :
  (prx_server_handler (calls_succeed 1000) io_connection_received 7;; io_message_release (calls_succeed 1000) 7;;
   prx_server_socket_open_complete (calls_succeed 1000) 8) (received_world a_link) = UB.
Proof. vm_compute. reflexivity. Qed.

(** With a reference of its own, completing the link sends the response. *)
Theorem link_completes_with_reference : exists w g,
  (prx_server_handler (calls_succeed 1000) io_connection_received 7;;
   prx_server_socket_open_complete (calls_succeed 1000) 8) (received_world a_link) = Ok (tt, w) /\
  sends (w_trace w) = [(100, g, er_ok)] /\ is_response g = true /\ error_code g = 0.
Proof. do 2 eexists. vm_compute. split_and!; reflexivity. Qed.

(** The address of the context is not that of a socket, so that every connection that is
    accepted uses memory that is not a socket. *)
Theorem accepted_socket_confused {T I : Type} `{hashtable T I} env (w : world T) a sock op_context :
  w_socks w !! op_context = None -> prx_server_socket_on_end_accept env a sock er_ok op_context w = UB.
Proof.
  intros E. unfold prx_server_socket_on_end_accept. rewrite bool_decide_eq_false_2 by (by intros []).
  unfold mod_sock, mbind, M_bind. by rewrite E.
Qed.
End PrxServerSpec.
